(* ===== verification/_CoqProject ===== *)
-Q . S2P
Prelude.v
JsVal.v
Uri.v
Window.v
Browser.v
Sha256.v
Json.v
Lifecycle.v
Scheduler.v
Registry.v
Terminal.v
QueueState.v
Freeze.v
QueuePump.v
QueueOutcome.v
QueueApi.v
QueueSystem.v
ProbeLoop.v
Storage.v
StorageSpec.v
MethodMatrix.v
SelfHeal.v
SelfHealSpec.v
Coordinator.v
CoordinatorSpec.v
PackClass.v
PackBus.v
PackUrl.v
PackPump.v
PackWave.v
PackSpec.v
PackProps.v
PackPlan.v
PackPlanSpec.v
GlGovernor.v
GlQuiet.v
GlWebGpu.v
OpsReport.v
OpsEvents.v
OpsSpec.v
SealCodec.v
SealSuite.v
SealUrl.v
SealGrant.v
SealWasm.v
SealEnvelope.v
SealServer.v
SealSpec.v
SealProtocol.v
SealGate.v
Transport.v
TransportSpec.v
SandboxTree.v
SandboxSpec.v
