(* ===== verification/Prelude.v ===== *)
(** * The front-end probe of gr-server: a verification library

    ** The program

    gr-server serves a browser probe.  The page loads a bundle of collectors
    (packs of batches), each batch is captured once, frozen, hashed, sealed and
    uploaded to the server, and the server answers with acknowledgements,
    policies and corrections until the cycle is complete.  The part of the
    JavaScript that decides is under [probe/fe/]: the upload queue
    ([upload_queue.js]), the probe lifecycle ([probe_lifecycle.js]), the
    session scheduler ([session_scheduler.js]), the self-heal supervisor
    ([probe_self_heal.js]) with its method matrix ([probe_method_matrix.js]),
    the identity and cool-down storage ([storage.js]), the coordinator of the
    tabs of an origin ([origin_coordinator.js]) and the pack loader
    ([pack_loader.js]), which runs the collectors under the locks of a resource
    bus.  The sandbox tree ([sandbox_tree.js]) collects from workers and frames
    under the same locks.  The governor ([gr.gl_governor.js]) stands between the collectors and
    the browser's WebGL, WebGPU and audio, and the operations reports
    ([ops_report.js]) tell the server what went wrong.  The seal module
    ([gr.seal.js]) encrypts and signs what the queue posts; the server's
    [crates/gr-probe-core/src/seal_v2.rs] opens it.  They run in one page, on one thread, and interact by calls
    ([GRUploadQueue], [GRProbeLifecycle], [GRSessionScheduler],
    [GRProbeSelfHeal], [GROriginCoordinator], [GRPackLoader], [GRSeal]) and through
    properties of [window] ([__GR_PHASE__], [__GR_STOP_PROBE__], ...); the tabs
    share [localStorage], a Web Lock and a broadcast channel.

    ** Files

    - [Prelude] (this file): notation, tactics, lists, strings, 32-bit integers.
    - [JsVal]: the dynamically typed values of the language: truthiness, [||],
      property access, conversions, numbers with NaN and infinities.
    - [Uri], [Json]: [encodeURIComponent], [parseInt], radix printing;
      [JSON.stringify] and [JSON.parse] with their round trip.
    - [Window]: the properties of [window] the modules share, and the reports
      sent through [GROps].
    - [Browser]: the class of the browser's stores ([localStorage],
      [sessionStorage], cookies), the laws the modules rely on, an instance.
    - [Lifecycle] ([probe_lifecycle.js]): policy, batch classes, retry delays,
      the rolling fail budget with its quiet windows, the lifecycle states.
    - [Scheduler] ([session_scheduler.js]): arbitration of probe kicks against a
      page given by the class [SchedWorld]; [ProbeLoop] gives the real one.
    - [Sha256] ([sha256Hex]): the in-page hash on 32-bit integer operations and
      FIPS 180-4.
    - [Registry] ([stableStringify], [payloadHashOf], [registryPut],
      [registryUpsertFromItem], [applyAck]): canonical JSON, material records,
      acknowledgements.
    - [Terminal] ([hardFinalComplete], [parseTerminal], [phaseForCode]): when a
      response ends the cycle.
    - [QueueState] (the variables of [upload_queue.js] and its predicates): the
      record [queue], keys, priorities, budget, in-flight bookkeeping,
      coalescing.
    - [Freeze] ([freezeCapture]): the capture boundary.
    - [QueuePump] ([pump], the synchronous part of [postOne], [noteOutcome],
      [maybeLocalIdentityDone], [applyHalt]).
    - [QueueOutcome] (the two continuations in [startUpload], [scheduleRetry],
      the timers).
    - [QueueApi] (the methods of [GRUploadQueue]: [configure], [enqueue],
      [flush], [applyCorrections], ...).
    - [QueueSystem]: all entry points of the queue as steps of one system.
    - [ProbeLoop] (the triggers of [probe_lifecycle.js]: [arm], the 45 s
      interval, [onServerProbeStatus]): the scheduler over the real queue.

    - [Storage], [StorageSpec] ([storage.js]): the operations over a [Browser],
      and an abstract state of cool-down and cycle cells they refine.
    - [MethodMatrix] ([probe_method_matrix.js]): engines, method lists, kicks.
    - [SelfHeal], [SelfHealSpec] ([probe_self_heal.js]): the table of gaps and
      the three loops over the real queue and lifecycle; the pack loader,
      collectors, governor, boot script and coordinator are the class [Loader].
      The second file has the relation [keeps], proved of every operation.
    - [Coordinator], [CoordinatorSpec] ([origin_coordinator.js]): a tab over its
      [SelfHeal] page and the shared store; the tabs of an origin as a system of
      calls, jobs (lock requests, settled promises), messages and closings.

    - [PackClass], [PackBus], [PackUrl] ([pack_loader.js]): the resource classes
      and the kick order of packs; the bus, its requests and releases; the URLs
      of layers and packs.
    - [PackPump] ([kickAll], its [pump], the jobs of [runOne], the listeners): a
      page of the queue and the loader under events.  [PackWave] has the
      invariant of a wave and the end of the pump's loop, [PackSpec] the
      invariant of the page, [PackProps] the theorems.
    - [PackPlan], [PackPlanSpec] ([applyRoutePlan], the DAG gate,
      [packsFromRoutePlan] of [collectors/registry.js]): route plans as calls of
      [kickAll] made one after the other.

    - [GlGovernor] ([gr.gl_governor.js]): the WebGL contexts, shared, tracked and
      released, under events.  [GlQuiet]: the replaced [getParameter] and
      [getExtension], which call each other.  [GlWebGpu]: the adapter requests
      with the wrappers they put on the console, and the shared audio context.
    - [OpsReport] ([report] of [ops_report.js] with its sampling, caps and
      budget), [OpsEvents] (the console and error listeners, the classification
      of failed uploads, the methods of [GROps] as one system), [OpsSpec] (the
      theorems).  The other modules' reports are the [oplog] of [Window].

    - [SealCodec], [SealSuite], [SealUrl] ([gr.seal.js]): bytes, base 64, UTF-8
      and hexadecimal with their round trips; the class of the cryptography and
      compression the module calls, its laws and an instance; where the WASM
      comes from.
    - [SealGrant] (the variables of [gr.seal.js]: grants, the requirement,
      sessions), [SealWasm] (the paths of a WASM load, the digests),
      [SealEnvelope] ([sealIngestBody], [prepareUpload]).
    - [SealServer] ([seal_v2.rs], [seal.rs], [ingest_sealed] of
      [handlers.rs]): what the server does with a sealed upload, translated from
      the Rust with its own labels, ids and list of signed parts.
    - [SealSpec], [SealProtocol]: the theorems on the module, and on page and
      server together.
    - [SealGate] (the first half of [postOne], [refreshSealGrant]): the queue's
      side of the seal, against the class [SealApi] of seal modules with the law
      [SealLaws]; [TransportSpec] shows that [gr.seal.js] meets it.
    - [Transport], [TransportSpec] (the rest of [postOne], [whenIdle]): what is
      posted and how, and how a response or a failure becomes what the
      continuations of [QueueOutcome] receive.

    - [SandboxTree], [SandboxSpec] ([sandbox_tree.js]): the nest surfaces
      (workers, frames), their messages and timers, the runs of a plan over the
      bus of [PackBus], the summary; events as one system, and the theorems.

    The state of a module is a record named [t] ([queue] for the queue, [heal]
    for the supervisor, [tab] and [otab] for the coordinator, [loader], [wave],
    [run] and [bus] for the pack loader) whose
    fields have the source's variable names; an operation takes the clock (or
    an [env]) and the state and returns the state and the result.  The queue
    contains the lifecycle state [lc], which contains the window; [effects] is
    the list, newest first, of what the queue handed to the page: scripts and
    sessions asked for, uploads started ([EPost], or [EPostHalted] when [postOne] rejects at once), timers,
    events, aborts.  A continuation or timer runs later as its own step.

    ** What the theorems show

    - The whole queue ([QueueSystem]): along every interleaving of methods,
      completions, timers, grant refreshes and foreign changes of the window, the
      lifecycle and the server's policy, the in-flight and heavy counters keep
      their bounds, and no handler passes the limit in force ([load_invariant]); a
      halt holds and only must-land material is sent under it ([halt_holds]);
      landed batches stay landed ([landed_persists]).  These are instances of
      one induction ([run_stable]) over the class [ApiStable] of relations that
      every handler respects.
    - Admission, pumping, outcomes ([QueueApi], [QueuePump], [QueueOutcome]):
      what [enqueue] lets in, how many uploads a [pump] starts, that its loop
      terminates, what a halt does, that only a verified acknowledgement lands a
      batch, that retries are capped, what a session change clears; and four
      behaviours that contradict the source's comments or intent
      ([cap_overshoot], [deferred_head_blocks], [seal_circuit_never_trips],
      [force_recollect_self_defeating]).
    - Budget, coalescing, capture ([QueueState], [Freeze]): bounds of the
      concurrency budget and of its AIMD adaptation; one pending item per key
      and generations never demoted; freezing happens once, keeps what the
      collectors reported and fixes the hash.
    - Material ([Sha256], [Registry], [Terminal]): the hash is SHA-256 on every
      input and independent of key order; when a response acknowledges
      material; when it ends the cycle.
    - Arbitration ([Scheduler]): exactly when a submission kicks, monotone plan
      epochs, deferred submissions are drained, every submission is accounted
      for; and that a tick does not wait for the debounce.
    - Triggers ([ProbeLoop]): when a page trigger kicks probing, that the
      server's request always does, and that a deferred event is kicked twice.
    - Storage ([StorageSpec]): [ensureProbeStateForVersion] refines a
      specification on abstract cells ([ensure_refines]); a page resumes its
      cycle, and nothing of another version survives a version change
      ([ensure_resumes], [version_change]); cookies, the cool-down and the fuzzy
      helper are read back as written, and where the cool-down is lost.
    - Self heal ([SelfHealSpec]): what every kick of a collector has checked
      ([kick_guard]); no gap, the batch of one source, is tried more than six
      times over any run ([kicks_bounded]); after the second stall recovery the deepening batches
      are never collected ([recovery_absorbing]); no recovery collects with the
      degraded method ([rotate_never_degrades]).
    - Tabs ([CoordinatorSpec]): with Web Locks at most one tab is heavy over any
      run ([heavy_exclusive]); without them two heavy tabs can arise and stay
      ([split_brain_persists]); a handoff ticket is read back and loses no
      unfinished batch ([handoff_round_trip]), and a claimed one is left alone
      ([claimed_ticket_left]).
    - Packs ([PackClass], [PackBus], [PackProps]): classes are in normal form and
      every pack is admitted once, the primary curves first; the bus never
      deadlocks, and a class that is not released by force has one owner
      ([bus_no_deadlock], [bus_owners_exclusive]); the page implements it
      ([page_bus_refines]);
      the pump ends ([pump_terminates]); within a wave no class is held twice
      ([wave_exclusive]); a resolved wave has run every pack once
      ([wave_resolved]).  Against the source's comments: calls enter beside an
      owner until a function settles ([bus_reentry_bypass]), a forced release breaks the lock
      ([forced_release_two_owners]), deferred waves are stranded
      ([wave_stranded_forever]), a timed-out collector counts as done
      ([timeout_counts_as_done]).
    - Plans ([PackPlanSpec]): the calls of a plan partition its packs
      ([stages_partition]), unless they are named by an alias
      ([alias_pack_lost]); the DAG gate never acts ([dag_gate_inert]); a plan can
      wait for itself ([plan_deadlock]).
    - Browser resources ([GlGovernor], [GlQuiet], [GlWebGpu]): the tracked
      contexts are bounded ([gl_live_bounded]) and one context serves all
      detached canvases ([shared_context]); a recovery loses every known context
      ([retry_frees]), and until the page ends nothing else does
      ([gl_nothing_freed]); only listed
      names reach the browser ([native_names_listed]); one native call serves
      the plain adapter requests ([webgpu_single_flight]), one audio context the
      page ([one_audio_context]).  Against the source's comments: the debug
      extension recurses to the end of the stack, once for a real renderer
      ([debug_info_real]), exponentially often for a masked one
      ([debug_info_explodes]); names are silenced across contexts
      ([webgl1_blocks_webgl2], [shim_poisons]); a denied request hides the
      adapter ([cached_adapter_hidden]); overlapping requests mute the console
      for good ([overlap_mutes_forever]), unlike requests in turn
      ([console_restored]).
    - Reports ([OpsSpec]): at most eighty in any sixty seconds
      ([rate_limited]), never more of a code than its cap ([code_capped]), the
      first of a code always ([first_kept]); how a failed upload is classified
      ([upload_event_spec]); and that [halt] is ignored once reports have been
      switched on ([halt_ignored]).
    - Seal ([SealSpec], [SealProtocol]): what a page seals under a grant of the
      server, the server opens to the same body, from [prepareUpload] to
      [ingest_sealed] ([sealed_upload_opens]); once
      sealing is required an upload is never prepared as plain text
      ([required_never_plain]) and the requirement stays ([require_sticky]);
      there is one WASM load ([wasm_load_once]) and it installs only checked
      bytes or the fallback ([wasm_integrity]); what the signature covers
      ([signature_covers]); the session sealed for ([resolve_valid]); and that
      the legacy envelope is never made ([sealIngestBody_never_v1]).  Examples
      show what happens when the page changes during a seal.
    - Transport ([TransportSpec]): when an upload leaves unsealed
      ([plain_only_when_not_required]); which responses resolve an upload, some
      failing ones among them ([responses_classified]); how failures are
      classified and counted and what follows them ([failures_classified]); what
      a demand to seal records ([demand_sticks]); how an upload leaves ([send_spec]).
    - Sandbox tree ([SandboxSpec]): a run works off its plan, surfaces settle
      once and nothing that is over changes ([tree_follows_plan]); without a
      pack loader a run ends ([tree_terminates]).  What goes wrong: the nested
      locks deadlock with a request for gpu and nest until one is released by force
      ([nest_deadlock], [force_breaks_deadlock]); every
      frame takes the others' messages for its own ([frames_overhear]).
    - Lifecycle ([Lifecycle]): the fail window, quiet after the budget, stability
      of the cool state, its derivation from the server's answer, what a server
      policy may change.

    ** Modelling decisions

    - One handler runs to completion before the next; it sees one clock value,
      all of its [Date.now()] reads.  [Math.random()] is a rational in [0,1).
    - Strings are sequences of 8-bit units; the batch names, keys and codes of
      the source are ASCII.  [toBytes] of the hash and [utf8] of the seal encode
      them as UTF-8.
    - Numbers received as JSON are rationals, NaN or infinities; counters, times
      and numeric options are integers.  Where the source applies a 32-bit
      operation ([| 0], the hash) the model wraps.
    - A field that is absent, [null] or falsy where the source only tests
      truthiness is the empty string, zero or [false] in a record.
    - An item is identified by [uid]; the queue updates the copies it holds, and
      the item a continuation receives is the object as it then is, an argument
      of the step.  An item handed to [enqueue] and turned away is not modelled
      further, although the source has written flags into the caller's object.
    - The [fields] of a payload are an object.  A deep clone is the JSON value.
    - Halt codes and reasons are strings.  A [try] around code that cannot throw
      in the model is dropped; where the source does throw inside one (the seal
      circuit breaker), the model has the effect of the caught exception.
    - A promise's continuation, a lock request and a poll's answer are data in
      the state and run as later steps; an answer to a poll is any value.
    - Values read from [localStorage] are whatever [JSON.parse] yields.  A peer
      table that is no object is replaced, and [length] is read of arrays and
      strings only.  Plan priorities are integers.
    - A pack handed to two calls of [kickAll] is two values: only its mark of a
      tried dependency would be shared.  A run is a state machine of the jobs of
      [runOne]; promise hops without an effect are merged with the next job.
      Collectors end with any value, an error or a timeout, as data of the
      event; requests of the bus are numbered in the order of the calls.  Pack
      priorities are integers.  The recovery the pump asks of the supervisor,
      the soft release of the governor and the scripts requested are effects in
      [log].  The pump's loop has fuel [4 n + 2] for [n] packs, which
      [pump_terminates] shows to be enough.
    - A surface of the sandbox tree is the state of its closure; a message is
      data of the event, its payload handed on from listener to listener as
      each leaves it.  A run is a state machine of the awaits of [runTree].
    - WebGL contexts are numbered in the order they are made, with whether they
      are lost; canvas sizes and buffer bindings are left out.  What native
      methods answer is data of the event or of the context.  The stack of the
      replaced WebGL methods is their fuel, and its end is the exception the
      source catches.
    - Cryptography, compression, [serde_json] and Rust's base 64 are the class
      [Suite] with the laws [SuiteLaws] (decryption undoes encryption, and so
      on); URLs and the presence of browser functions are the classes [Host] and
      [Page].  The digest functions of a loaded WASM module are data of the load;
      [wasm_contract] says what is relied on.  UTF-8 is applied to texts of
      8-bit units, so every text has an encoding that reads back.  Integers are exact: a
      grant's expiry is taken to be one a JavaScript number holds.
    - The grant is a record; the copies [setGrant] leaves on [window] and on the
      boot object are values, so a later write to the module's own grant is not
      seen through them.  An asynchronous seal is given the state of the module
      after each of its awaits ([stages], [prep_run]), any states: the theorems
      hold whatever the page does in between.
    - The upload queue's [pump] has the number of pending items as fuel:
      [pump_loop_terminates] shows that more fuel changes nothing and that the
      loop has then ended.  The hash's padding loop has fuel 64 and its block
      loop the number of bytes; [pad_spec] shows that both are enough.  A 32-bit
      word has at most eight hexadecimal digits, an integer at most
      [log2 z + 2] decimal ones, and a fraction prints at most 17.

    ** Not modelled

    - Of sealing: WASM itself, what the
      server stores of an opened upload, and the environment variables its
      policy is read from.
    - The Compute Pressure observer and the DOM listeners of
      [probe_lifecycle.js]; a listener calls [arm] with a constant reason.
    - Console logs, [warmCache] of [storage.js] (it only fetches), and the
      copies the [snapshot()] methods of the supervisor and the coordinator make
      for diagnostics, but for the gap rows the coordinator reads.
    - [rpa_monitor.js], [gr.boot.js], [sdk/]: event sampling, start-up glue and a
      thin client: mostly I/O.
    - Of the sandbox tree: the text of the worker's program, and the style and
      attributes of a frame.
    - Of the reports: the installation of the hooks, the choice between
      [sendBeacon] and [fetch], and one alternative of the noise filter that is
      not ASCII.
    - Of the governor: the permanent console filter, [muteWebGpuConsole] (never
      called) and the installation of the patches.
    - The collectors (DOM, canvas, WebGL, audio readings), the admin pages, the
      built and concatenated bundles ([gr.entry.concat.js],
      [gr.race.concat.js], [registry*.js], minified files), the scripts, and the
      server's Rust crates.

    - What registering a custom probe writes into the collectors' table, and
      the functions of the boot script that load random-verification packs. *)

From Stdlib Require Export ZArith Lia Bool String Ascii.
From Stdlib Require Import QArith Qround.
From stdpp Require Export base numbers strings list gmap sorting.

#[global] Open Scope string_scope.
#[global] Open Scope bool_scope.
#[global] Open Scope list_scope.
#[global] Open Scope Z_scope.

(** ** Notation

    [js_scope] holds the few operators of the source that have no
    counterpart in the Standard Library's scopes. *)

Declare Scope js_scope.
Delimit Scope js_scope with js.

(** [a === b] on strings. *)
Notation "a =s b" := (String.eqb a b) (at level 70, no associativity) : js_scope.
(** [a !== b] on strings. *)
Notation "a <>s b" := (negb (String.eqb a b)) (at level 70, no associativity) : js_scope.
#[global] Open Scope js_scope.

(** ** Automation *)

Create HintDb grdb.
Create Rewrite HintDb grrw.

(** Turn the boolean tests of the model into propositions, in the whole goal. *)
Ltac breflect :=
  repeat match goal with
  | H : context [negb (negb _)] |- _ => rewrite negb_involutive in H
  | H : (_ && _) = true |- _ => apply andb_true_iff in H; destruct H
  | H : (_ || _) = false |- _ => apply orb_false_iff in H; destruct H
  | H : negb _ = true |- _ => apply negb_true_iff in H
  | H : negb _ = false |- _ => apply negb_false_iff in H
  | H : bool_decide _ = true |- _ => apply bool_decide_eq_true in H
  | H : bool_decide _ = false |- _ => apply bool_decide_eq_false in H
  | H : (_ =? _)%string = true |- _ => apply String.eqb_eq in H
  | H : (_ =? _)%string = false |- _ => apply String.eqb_neq in H
  | H : (_ =? _)%Z = true |- _ => apply Z.eqb_eq in H
  | H : (_ =? _)%Z = false |- _ => apply Z.eqb_neq in H
  | H : (_ <? _)%Z = true |- _ => apply Z.ltb_lt in H
  | H : (_ <? _)%Z = false |- _ => apply Z.ltb_ge in H
  | H : (_ <=? _)%Z = true |- _ => apply Z.leb_le in H
  | H : (_ <=? _)%Z = false |- _ => apply Z.leb_gt in H
  | H : (_ <? _)%nat = true |- _ => apply Nat.ltb_lt in H
  | H : (_ <? _)%nat = false |- _ => apply Nat.ltb_ge in H
  | H : (_ <=? _)%nat = true |- _ => apply Nat.leb_le in H
  | H : (_ <=? _)%nat = false |- _ => apply Nat.leb_gt in H
  end.

(** Split on every [if] and [match] of the goal and reflect the tests. *)
Ltac branches := repeat (case_match; simplify_eq/=); breflect.

(** The common last step: reflect, then arithmetic or congruence. *)
Ltac crush := breflect; subst; simpl in *; try done; try lia; try congruence; eauto with grdb.

(** Field update: [eta] is a record's eta expansion [mk (f1 s) ... (fn s)];
    the update by [v] at [proj] is that term with [proj s] replaced. *)
Ltac upd eta proj s v :=
  let b := eval cbv beta delta [eta] in (eta s) in
  lazymatch b with
  | context C [proj s] => let b' := context C [v] in exact b'
  end.

(** [s |> f |> g]: updates in program order. *)
Notation "s |> f" := (f s) (at level 50, left associativity, only parsing) : js_scope.

(** *** Chains of state changes

    A goal [R h0 t], [R] a preorder between states and [t] a handler's body:
    the state bound by a [let], or paired with a result, is related to [h0] and
    the rest is proved of any such state; tests are split.  [step] peels the
    outermost change off a [t] that is not one of these. *)
Ltac chain_bind R h0 v B solver :=
  let T := type of h0 in
  let T' := type of v in
  tryif unify T T' then
    let K := fresh "K" in
    assert (R h0 v) as K by solver; let y := fresh "h" in
    revert K; change (R h0 v -> R h0 (B v)); generalize v; intros y K; cbv beta
  else (change (R h0 (B v)); cbv beta).

Ltac chain_pair R h0 p solver :=
  let E := fresh "E" in let hh := fresh "h" in let v := fresh "v" in
  destruct p as [hh v] eqn:E;
  assert (R h0 hh) by (change hh with (fst (hh, v)); rewrite <- E; solver);
  clear E.

Ltac chain_step solver :=
  lazymatch goal with
  | |- ?R ?h0 (let x := ?v in @?B x) => chain_bind R h0 v B solver
  | |- ?R ?h0 (fst (let x := ?v in @?B x)) =>
    let B' := eval cbv beta in (fun x => fst (B x)) in chain_bind R h0 v B' solver
  | |- ?R ?h0 ?t =>
    lazymatch t with
    | fst (let '(_, _) := ?p in _) => chain_pair R h0 p solver
    | (let '(_, _) := ?p in _) => chain_pair R h0 p solver
    | fst (if ?c then _ else _) => destruct c eqn:?
    | fst (match ?x with _ => _ end) => destruct x eqn:?
    | (if ?c then _ else _) => destruct c eqn:?
    | (match ?x with _ => _ end) => destruct x eqn:?
    | fst (_, _) => cbn [fst]
    end
  end.

Ltac chain step := repeat (first [step | chain_step ltac:(chain step)]).
Ltac chain_steps step := repeat chain_step ltac:(chain step).

(** A JavaScript object used as a set of string keys. *)
Abbreviation strset := (gset string).

(** ** Strings *)

(** [s.indexOf(p) === 0] *)
Definition starts_with (p s : string) : bool := String.prefix p s.

(** [s.indexOf(p) >= 0] *)
Fixpoint contains (p s : string) : bool :=
  String.prefix p s ||
  match s with
  | EmptyString => false
  | String _ s' => contains p s'
  end.

(** [list.indexOf(x) >= 0] and the [for (...) if (a[i] === x)] loops *)
Definition mem_str (x : string) (l : list string) : bool := existsb (String.eqb x) l.

(** [ToLowerCase] on ASCII *)
Definition lower_ascii (c : ascii) : ascii :=
  let n := N_of_ascii c in
  if ((65 <=? n) && (n <=? 90))%N then ascii_of_N (n + 32)%N else c.

Fixpoint lower (s : string) : string :=
  match s with
  | EmptyString => EmptyString
  | String c s' => String (lower_ascii c) (lower s')
  end.

(** [/w1|w2|.../i.test(s)] for alternatives that are plain lower-case words *)
Definition test_words (ws : list string) (s : string) : bool :=
  let l := lower s in existsb (fun w => contains w l) ws.

(** [parts.join(sep)] *)
Fixpoint join (sep : string) (l : list string) : string :=
  match l with
  | [] => ""
  | [x] => x
  | x :: l' => x +:+ sep +:+ join sep l'
  end.

(** [s.split(c)] on a one-character separator *)
Fixpoint split_on (c : ascii) (s : string) : list string :=
  match s with
  | EmptyString => [EmptyString]
  | String d s' =>
    match split_on c s' with
    | w :: ws => if Ascii.eqb c d then EmptyString :: w :: ws else String d w :: ws
    | [] => []
    end
  end.

(** [s.slice(n)] and [s.slice(0, n)] *)
Fixpoint sdrop (n : nat) (s : string) : string :=
  match n, s with S n', String _ s' => sdrop n' s' | _, _ => s end.

Fixpoint stake (n : nat) (s : string) : string :=
  match n, s with S n', String c s' => String c (stake n' s') | _, _ => EmptyString end.

Fixpoint no_char (c : ascii) (s : string) : bool :=
  match s with
  | EmptyString => true
  | String d s' => negb (Ascii.eqb c d) && no_char c s'
  end.

Lemma mem_str_In x l : mem_str x l = true <-> In x l.
Proof.
  unfold mem_str. rewrite existsb_exists. split.
  - intros (y & Hy & ->%String.eqb_eq). done.
  - intros H. exists x. split; [done | apply String.eqb_refl].
Qed.

Lemma prefix_iff p s : String.prefix p s = true <-> exists t, s = p +:+ t.
Proof.
  revert s. induction p as [|c p IH]; intros s; simpl.
  - split; [intros _; by exists s | intros _; by destruct s].
  - destruct s as [|d s]; [split; [done | intros [t [=]]]|].
    simpl. destruct (ascii_dec c d) as [<-|Hne].
    + rewrite IH. split; intros [t Ht]; exists t; [by rewrite Ht | by injection Ht].
    + split; [done|]. intros [t Ht]. injection Ht. congruence.
Qed.

(** A string that starts with a literal prefix differs from every literal
    that does not. *)
Lemma starts_with_neq p s t :
  starts_with p s = true -> starts_with p t = false -> (s =s t) = false.
Proof. intros Hs Ht. apply String.eqb_neq. intros ->. congruence. Qed.

Lemma append_cons c (a b : string) : String c a +:+ b = String c (a +:+ b).
Proof. done. Qed.

Lemma append_assoc (a b c : string) : (a +:+ b) +:+ c = a +:+ b +:+ c.
Proof. induction a as [|x a IH]; [done|]. by rewrite !append_cons, IH. Qed.

Lemma append_nil_r (a : string) : a +:+ "" = a.
Proof. induction a as [|x a IH]; [done|]. by rewrite append_cons, IH. Qed.

Lemma append_inj_l (a b c : string) : a +:+ b = a +:+ c -> b = c.
Proof. induction a as [|x a IH]; [done|]. rewrite !append_cons. intros [=]. auto. Qed.

Lemma sdrop_app (a b : string) : sdrop (String.length a) (a +:+ b) = b.
Proof. induction a as [|c a IH]; [by destruct b|]. by rewrite append_cons. Qed.

(** Splitting at the first separator is unambiguous when the heads are free of it. *)
Lemma split_at_sep (c : ascii) (a a' b b' : string) :
  no_char c a = true -> no_char c a' = true ->
  a +:+ String c b = a' +:+ String c b' -> a = a' /\ b = b'.
Proof.
  revert a'. induction a as [|x a IH]; intros [|x' a'] Ha Ha' He; simpl in *; rewrite ?append_cons in He.
  - injection He as ->. done.
  - injection He as <- _. rewrite Ascii.eqb_refl in Ha'. done.
  - injection He as -> _. rewrite Ascii.eqb_refl in Ha. done.
  - injection He as -> He. breflect.
    destruct (IH a') as [-> ->]; auto.
Qed.

(** ** Lists *)

Lemma existsb_filter_nil {A} (f : A -> bool) l :
  existsb f l = false -> List.filter f l = [].
Proof.
  induction l as [|x l IH]; [done|]. simpl. intros H. breflect.
  match goal with E : f x = false |- _ => rewrite E end. auto.
Qed.

Lemma filter_length_le {A} (f : A -> bool) (l : list A) :
  (length (List.filter f l) <= length l)%nat.
Proof. induction l as [|x l IH]; [done|]. simpl. destruct (f x); simpl; lia. Qed.

(** [a[i] || 0] on an array of integers: 0 out of range. *)
Definition nth_Z (l : list Z) (i : Z) : Z :=
  if i <? 0 then 0 else nth (Z.to_nat i) l 0.

Lemma nth_Z_Forall (P : Z -> Prop) l i :
  Forall P l -> 0 <= i < Z.of_nat (length l) -> P (nth_Z l i).
Proof.
  intros HP Hi. unfold nth_Z. destruct (Z.ltb_spec i 0); [lia|].
  rewrite Forall_forall in HP. apply HP, list_elem_of_In, nth_In. lia.
Qed.

(** ** Integers *)

(** [Number(x) || d] on an integer *)
Definition zor (x d : Z) : Z := if x =? 0 then d else x.

(** [ToInt32] *)
Definition to_int32 (z : Z) : Z :=
  let m := z mod 2 ^ 32 in if m <? 2 ^ 31 then m else m - 2 ^ 32.

Lemma to_int32_id z : - 2 ^ 31 <= z < 2 ^ 31 -> to_int32 z = z.
Proof.
  intros H. unfold to_int32. destruct (Z.ltb_spec (z mod 2 ^ 32) (2 ^ 31)) as [Hlt|Hge].
  - destruct (Z_le_gt_dec 0 z).
    + apply Z.mod_small. lia.
    + assert (z mod 2 ^ 32 = z + 2 ^ 32) as Hm.
      { symmetry. apply Zmod_unique with (-1); lia. }
      lia.
  - destruct (Z_le_gt_dec 0 z).
    + rewrite Z.mod_small in *; lia.
    + assert (z mod 2 ^ 32 = z + 2 ^ 32) as Hm.
      { symmetry. apply Zmod_unique with (-1); lia. }
      lia.
Qed.

Lemma to_int32_range z : - 2 ^ 31 <= to_int32 z < 2 ^ 31.
Proof.
  unfold to_int32. pose proof (Z.mod_pos_bound z (2 ^ 32)).
  destruct (Z.ltb_spec (z mod 2 ^ 32) (2 ^ 31)); lia.
Qed.

Lemma zor_pos x d : 0 <= x -> 0 < d -> 0 < zor x d.
Proof. unfold zor. destruct (Z.eqb_spec x 0); lia. Qed.

#[export] Hint Resolve zor_pos : grdb.

(** ** Traces

    A component is a state with steps; [star] is the reflexive transitive
    closure of a step relation that carries no label, used for reachability. *)
Section Star.
Context {S : Type} (step : S -> S -> Prop).

Inductive star : S -> S -> Prop :=
| star_refl s : star s s
| star_step s1 s2 s3 : step s1 s2 -> star s2 s3 -> star s1 s3.

Lemma star_trans s1 s2 s3 : star s1 s2 -> star s2 s3 -> star s1 s3.
Proof. induction 1; eauto using star. Qed.

(** An inductive invariant holds in every reachable state. *)
Lemma star_invariant (I : S -> Prop) :
  (forall s s', I s -> step s s' -> I s') ->
  forall s s', I s -> star s s' -> I s'.
Proof. intros HI s s' Hs Hstar. induction Hstar; eauto. Qed.

(** A preorder that every step respects relates the ends of every run. *)
Lemma star_preorder (R : S -> S -> Prop) `{!PreOrder R} :
  (forall s s', step s s' -> R s s') -> forall s s', star s s' -> R s s'.
Proof. intros HR s s' Hstar. induction Hstar; [done|]. etrans; eauto. Qed.
End Star.
