(* ===== verification/JsVal.v ===== *)
(** * JavaScript values

    The dynamically typed values the front end receives as JSON (server
    responses, policies, grants) and the language operations the source
    applies to them: truthiness, [||], property access, [===] against
    literals, [String(x)], [Number(x)], [isFinite], [Math.floor].

    A number is NaN, an infinity, or the rational the literal denotes;
    [num_to_string] prints integers and finite decimals.  Strings are
    sequences of 8-bit units. *)

From S2P Require Import Prelude.
From Stdlib Require Import QArith Qround Qabs.
#[local] Open Scope Z_scope.

Inductive num : Type :=
| NaN
| Inf (neg : bool)
| Fin (q : Q).

Definition num_Z (z : Z) : num := Fin (inject_Z z).

Definition num_isfinite (n : num) : bool :=
  match n with Fin _ => true | _ => false end.

Definition Qltb (a b : Q) : bool := negb (Qle_bool b a).

Definition num_ltb (a b : num) : bool :=
  match a, b with
  | NaN, _ | _, NaN => false
  | Inf true, Inf true => false
  | Inf true, _ => true
  | _, Inf true => false
  | Inf false, _ => false
  | _, Inf false => true
  | Fin p, Fin q => Qltb p q
  end.

Definition num_eqb (a b : num) : bool :=
  match a, b with
  | Inf x, Inf y => Bool.eqb x y
  | Fin p, Fin q => Qeq_bool p q
  | _, _ => false
  end.

(** [x | 0] *)
Definition num_int32 (n : num) : Z :=
  match n with
  | Fin q => to_int32 (if Qle_bool 0 q then Qfloor q else Qceiling q)
  | _ => 0
  end.

#[warnings="-register-all"]
Inductive val : Type :=
| VUndef
| VNull
| VBool (b : bool)
| VNum (n : num)
| VStr (s : string)
| VArr (l : list val)
| VObj (o : list (string * val)).

Definition vint (z : Z) : val := VNum (num_Z z).

Fixpoint assoc (k : string) (o : list (string * val)) : val :=
  match o with
  | [] => VUndef
  | (k', v) :: o' => if k =s k' then v else assoc k o'
  end.

(** [v.k] for a [v] that is not null or undefined (every use is guarded by
    [v &&] or [v || {}] in the source). *)
Definition prop (v : val) (k : string) : val :=
  match v with
  | VObj o => assoc k o
  | VArr l => if k =s "length" then vint (Z.of_nat (length l)) else VUndef
  | VStr s => if k =s "length" then vint (Z.of_nat (String.length s)) else VUndef
  | _ => VUndef
  end.

Definition truthy (v : val) : bool :=
  match v with
  | VUndef | VNull => false
  | VBool b => b
  | VNum NaN => false
  | VNum (Inf _) => true
  | VNum (Fin q) => negb (Qeq_bool q 0)
  | VStr s => negb (s =s "")
  | VArr _ | VObj _ => true
  end.

(** [a || b] and [a && b] as values *)
Definition jor (a b : val) : val := if truthy a then a else b.
Definition jand (a b : val) : val := if truthy a then b else a.

(** [v != null] *)
Definition nonnull (v : val) : bool :=
  match v with VUndef | VNull => false | _ => true end.

(** [typeof v === "object"] for a [v] already known to be truthy *)
Definition is_object (v : val) : bool :=
  match v with VArr _ | VObj _ => true | _ => false end.

(** [v === true], [v === false], [v === "s"] *)
Definition is_true (v : val) : bool := match v with VBool true => true | _ => false end.
Definition is_false (v : val) : bool := match v with VBool false => true | _ => false end.
Definition is_str (v : val) (s : string) : bool :=
  match v with VStr t => t =s s | _ => false end.

Definition empty_obj : val := VObj [].

(** ** Number to string *)

Definition digit (n : Z) : ascii := ascii_of_N (Z.to_N (48 + n)).

(** Decimal digits of a nonnegative integer: [fuel] bounds their number. *)
Fixpoint digits (fuel : nat) (z : Z) (acc : string) : string :=
  match fuel with
  | O => acc
  | S f =>
    let acc' := String (digit (z mod 10)) acc in
    if z <? 10 then acc' else digits f (z / 10) acc'
  end.

Definition Z_to_string (z : Z) : string :=
  let n := Z.to_nat (Z.log2 (Z.abs z) + 1) in
  if z <? 0 then "-" +:+ digits n (Z.abs z) "" else digits (S n) z "".

(** Digits after the point of a fraction in [0,1). *)
Fixpoint frac_digits (fuel : nat) (q : Q) : string :=
  match fuel with
  | O => ""
  | S f =>
    if Qeq_bool q 0 then "" else
    let t := Qmult q 10 in
    String (digit (Qfloor t)) (frac_digits f (Qminus t (inject_Z (Qfloor t))))
  end.

Definition Q_to_string (q : Q) : string :=
  let a := Qabs q in
  let i := Qfloor a in
  let f := Qminus a (inject_Z i) in
  let sign := if Qltb q 0 then "-" else "" in
  sign +:+ Z_to_string i +:+ (if Qeq_bool f 0 then "" else "." +:+ frac_digits 17 f).

Definition num_to_string (n : num) : string :=
  match n with
  | NaN => "NaN"
  | Inf true => "-Infinity"
  | Inf false => "Infinity"
  | Fin q => Q_to_string q
  end.

(** [String(v)] *)
Fixpoint to_string (v : val) : string :=
  match v with
  | VUndef => "undefined"
  | VNull => "null"
  | VBool true => "true"
  | VBool false => "false"
  | VNum n => num_to_string n
  | VStr s => s
  | VArr l =>
    join "," (map (fun x => match x with VUndef | VNull => "" | _ => to_string x end) l)
  | VObj _ => "[object Object]"
  end.

(** [String(v || "")] *)
Definition to_string_or_empty (v : val) : string := to_string (jor v (VStr "")).

(** ** String to number *)

Definition is_space (c : ascii) : bool :=
  let n := N_of_ascii c in ((n =? 32) || ((9 <=? n) && (n <=? 13)))%N.

Fixpoint ltrim (s : string) : string :=
  match s with
  | String c s' => if is_space c then ltrim s' else s
  | EmptyString => EmptyString
  end.

Fixpoint srev (s acc : string) : string :=
  match s with EmptyString => acc | String c s' => srev s' (String c acc) end.

Definition trim (s : string) : string := srev (ltrim (srev (ltrim s) "")) "".

Definition digit_of (c : ascii) : option Z :=
  let n := Z.of_N (N_of_ascii c) in
  if (48 <=? n) && (n <=? 57) then Some (n - 48) else None.

(** The longest run of digits: value, how many, and the rest. *)
Fixpoint take_digits (s : string) (acc : Z) (n : nat) : Z * nat * string :=
  match s with
  | String c s' =>
    match digit_of c with
    | Some d => take_digits s' (acc * 10 + d) (S n)
    | None => (acc, n, s)
    end
  | EmptyString => (acc, n, s)
  end.

Definition pow10 (e : Z) : Q :=
  if 0 <=? e then inject_Z (10 ^ e) else Qinv (inject_Z (10 ^ (- e))).

(** [StrDecimalLiteral] without sign: digits, an optional fraction and an
    optional exponent. *)
Definition parse_unsigned (s : string) : num :=
  if s =s "Infinity" then Inf false else
  let '(i, ni, s1) := take_digits s 0 0 in
  let '(f, nf, s2) :=
    match s1 with
    | String "."%char s' => take_digits s' 0 0
    | _ => (0, 0%nat, s1)
    end in
  if Nat.eqb (ni + nf) 0 then NaN else
  let m := Qplus (inject_Z i) (Qmult (inject_Z f) (pow10 (- Z.of_nat nf))) in
  match s2 with
  | EmptyString => Fin (Qred m)
  | String c s3 =>
    if Ascii.eqb c "e" || Ascii.eqb c "E" then
      let '(sg, s4) := match s3 with
                       | String "-"%char t => (-1, t)
                       | String "+"%char t => (1, t)
                       | _ => (1, s3)
                       end in
      let '(e, ne, s5) := take_digits s4 0 0 in
      if (Nat.eqb ne 0) || negb (s5 =s "") then NaN
      else Fin (Qred (Qmult m (pow10 (sg * e))))
    else NaN
  end.

Definition num_neg (n : num) : num :=
  match n with NaN => NaN | Inf b => Inf (negb b) | Fin q => Fin (Qopp q) end.

Definition string_to_num (s : string) : num :=
  match trim s with
  | EmptyString => num_Z 0
  | String "-"%char t => num_neg (parse_unsigned t)
  | String "+"%char t => parse_unsigned t
  | t => parse_unsigned t
  end.

(** [Number(v)] *)
Definition to_num (v : val) : num :=
  match v with
  | VUndef => NaN
  | VNull => num_Z 0
  | VBool b => num_Z (if b then 1 else 0)
  | VNum n => n
  | VStr s => string_to_num s
  | VArr _ => string_to_num (to_string v)
  | VObj _ => NaN
  end.

(** [Number(v) || d] *)
Definition to_num_or (v : val) (d : num) : num :=
  let n := to_num v in if truthy (VNum n) then n else d.

(** [Math.floor] *)
Definition num_floor (n : num) : num :=
  match n with Fin q => num_Z (Qfloor q) | n => n end.

(** ** Lemmas *)

Lemma truthy_VStr s : truthy (VStr s) = negb (s =s "").
Proof. done. Qed.

Lemma truthy_vint z : truthy (vint z) = negb (z =? 0).
Proof.
  simpl. f_equal. apply eq_iff_eq_true. rewrite Qeq_bool_iff, Z.eqb_eq.
  unfold inject_Z, Qeq. simpl. lia.
Qed.

Lemma is_true_truthy v : is_true v = true -> truthy v = true.
Proof. destruct v as [| |[]| | | |]; done. Qed.

Lemma jor_truthy a b : truthy (jor a b) = truthy a || truthy b.
Proof. unfold jor. destruct (truthy a) eqn:E; rewrite ?E; done. Qed.

Lemma Qltb_lt a b : Qltb a b = true <-> (a < b)%Q.
Proof.
  unfold Qltb. rewrite negb_true_iff. split.
  - intros H. apply Qnot_le_lt. intros Hle%Qle_bool_iff. congruence.
  - intros H. apply not_true_is_false. intros Hle%Qle_bool_iff.
    by apply (Qlt_not_le _ _ H).
Qed.

Lemma Qltb_ge a b : Qltb a b = false <-> (b <= a)%Q.
Proof. unfold Qltb. rewrite negb_false_iff. apply Qle_bool_iff. Qed.

Lemma num_ltb_Z a b : num_ltb (num_Z a) (num_Z b) = (a <? b).
Proof.
  apply eq_iff_eq_true. simpl. rewrite Qltb_lt, Z.ltb_lt. unfold Qlt. simpl. lia.
Qed.

#[export] Hint Rewrite truthy_vint num_ltb_Z : grrw.
#[export] Hint Resolve is_true_truthy : grdb.

Example num_parse_1 : string_to_num " 12.50 " = Fin (25 # 2).
Proof. reflexivity. Qed.
Example num_parse_2 : string_to_num "1e3" = Fin 1000.
Proof. reflexivity. Qed.
Example num_parse_3 : string_to_num "12x" = NaN.
Proof. reflexivity. Qed.
Example num_print_1 : num_to_string (Fin (-(5 # 4))) = "-1.25".
Proof. reflexivity. Qed.
Example num_print_2 : num_to_string (num_Z 1024) = "1024".
Proof. reflexivity. Qed.
Example num_print_3 : Z_to_string 0 = "0" /\ Z_to_string 7 = "7" /\ Z_to_string (-10) = "-10".
Proof. repeat split. Qed.
