(* ===== verification/Uri.v ===== *)
(** * Text encodings

    [encodeURIComponent], [decodeURIComponent], [parseInt(s, 10)] and
    [n.toString(radix)] on strings of 8-bit units, with their round trips. *)

From S2P Require Import Prelude JsVal.
#[local] Open Scope Z_scope.

(** ** Percent encoding *)

(** Alphanumerics and the marks [-_.!~*'()]. *)
Definition unreserved (c : ascii) : bool :=
  let n := N_of_ascii c in
  (((48 <=? n) && (n <=? 57)) || ((65 <=? n) && (n <=? 90)) || ((97 <=? n) && (n <=? 122)) ||
   existsb (N.eqb n) [45; 95; 46; 33; 126; 42; 39; 40; 41])%N.

Definition hex_upper (n : N) : ascii := ascii_of_N (if n <? 10 then 48 + n else 55 + n)%N.

Definition hex_val (c : ascii) : option N :=
  let n := N_of_ascii c in
  (if (48 <=? n) && (n <=? 57) then Some (n - 48) else
   if (65 <=? n) && (n <=? 70) then Some (n - 55) else
   if (97 <=? n) && (n <=? 102) then Some (n - 87) else None)%N.

Definition pct (n : N) (s : string) : string :=
  String "%" (String (hex_upper (n / 16)) (String (hex_upper (n mod 16)) s)).

(** A code unit below 128 is one byte of UTF-8, the others are two. *)
Definition encode_char (c : ascii) (s : string) : string :=
  let n := N_of_ascii c in
  if unreserved c then String c s else
  if (n <? 128)%N then pct n s else pct (192 + n / 64) (pct (128 + n mod 64) s).

Fixpoint encodeURIComponent (s : string) : string :=
  match s with EmptyString => EmptyString | String c s' => encode_char c (encodeURIComponent s') end.

Definition hex2 (a b : ascii) : option N :=
  match hex_val a, hex_val b with Some x, Some y => Some (16 * x + y)%N | _, _ => None end.

(** [None] where the source throws a [URIError], and for characters that are
    not 8-bit units. *)
Fixpoint decodeURIComponent (s : string) : option string :=
  match s with
  | EmptyString => Some EmptyString
  | String c s1 =>
    if negb (Ascii.eqb c "%") then option_map (String c) (decodeURIComponent s1) else
    match s1 with
    | String a (String b s2) =>
      match hex2 a b with
      | Some n =>
        if (n <? 128)%N then option_map (String (ascii_of_N n)) (decodeURIComponent s2) else
        if negb ((n =? 194) || (n =? 195))%N then None else
        match s2 with
        | String p (String a' (String b' s3)) =>
          match hex2 a' b' with
          | Some m =>
            if Ascii.eqb p "%" && (128 <=? m)%N && (m <? 192)%N
            then option_map (String (ascii_of_N ((n - 192) * 64 + (m - 128)))) (decodeURIComponent s3)
            else None
          | None => None
          end
        | _ => None
        end
      | None => None
      end
    | _ => None
    end
  end.

(** A property of all 256 code units, checked by evaluation. *)
Lemma all_chars (P : ascii -> bool) :
  forallb (fun n => P (ascii_of_nat n)) (seq 0 256) = true -> forall c, P c = true.
Proof.
  intros H c. rewrite forallb_forall in H. rewrite <- (ascii_nat_embedding c). apply H.
  apply in_seq. pose proof (nat_ascii_bounded c). lia.
Qed.

Lemma decode_encode_char c s :
  decodeURIComponent (encode_char c s) = option_map (String c) (decodeURIComponent s).
Proof. destruct c as [[] [] [] [] [] [] [] []]; reflexivity. Qed.

(** Percent encoding is undone by decoding, on every string. *)
Lemma decode_encode s : decodeURIComponent (encodeURIComponent s) = Some s.
Proof. induction s as [|c s IH]; simpl; [done|]. by rewrite decode_encode_char, IH. Qed.

(** Characters an encoded text never contains. *)
Definition encoded_free (d : ascii) : bool :=
  negb (unreserved d) && negb (Ascii.eqb d "%") &&
  negb (existsb (fun n => Ascii.eqb d (hex_upper (N.of_nat n))) (seq 0 16)).

Lemma encode_char_free d c s :
  encoded_free d = true -> no_char d (encode_char c s) = no_char d s.
Proof.
  intros Hd. unfold encoded_free in Hd. breflect.
  assert (forall n, (n < 16)%N -> Ascii.eqb d (hex_upper n) = false) as Hx.
  { intros n Hn. destruct (Ascii.eqb d (hex_upper n)) eqn:E; [|done].
    match goal with H : existsb _ _ = false |- _ =>
      assert (existsb (fun n => Ascii.eqb d (hex_upper (N.of_nat n))) (seq 0 16) = true) as Ht; [|congruence] end.
    apply existsb_exists. exists (N.to_nat n). rewrite N2Nat.id. split; [apply in_seq; lia|done]. }
  assert (forall n s, (n < 256)%N -> no_char d (pct n s) = no_char d s) as Hp.
  { intros n s' Hn. unfold pct. simpl. rewrite !Hx.
    - match goal with H : Ascii.eqb d "%" = false |- _ => by rewrite H end.
    - apply N.mod_lt. lia.
    - apply N.Div0.div_lt_upper_bound. lia. }
  pose proof (N_ascii_bounded c) as Hc.
  unfold encode_char. cbv zeta. destruct (unreserved c) eqn:E.
  - simpl. destruct (Ascii.eqb_spec d c) as [->|]; [congruence|done].
  - destruct (N_of_ascii c <? 128)%N; [by apply Hp|]. rewrite !Hp; [done|..].
    + assert (N_of_ascii c mod 64 < 64)%N by (apply N.mod_lt; lia). lia.
    + assert (N_of_ascii c / 64 < 4)%N by (apply N.Div0.div_lt_upper_bound; lia). lia.
Qed.

Lemma encode_free d s : encoded_free d = true -> no_char d (encodeURIComponent s) = true.
Proof. intros Hd. induction s as [|c s IH]; simpl; [done|]. by rewrite encode_char_free. Qed.

Lemma encode_empty s : encodeURIComponent s = "" <-> s = "".
Proof.
  split; [|by intros ->]. intros H. pose proof (decode_encode s) as Hd. rewrite H in Hd. by injection Hd.
Qed.

(** ** [parseInt(s, 10)] *)

Definition take_sign (s : string) : Z * string :=
  match s with
  | String "-"%char t => (-1, t)
  | String "+"%char t => (1, t)
  | t => (1, t)
  end.

Definition parse_int (s : string) : option Z :=
  let '(sg, t) := take_sign (ltrim s) in
  let '(z, n, _) := take_digits t 0 0 in
  if Nat.eqb n 0 then None else Some (sg * z).

(** [parseInt(s, 10)] with [0] for NaN. *)
Definition parse_int0 (s : string) : Z := default 0 (parse_int s).

Lemma digit_of_digit z : 0 <= z < 10 -> digit_of (digit z) = Some z.
Proof.
  intros H. assert (z = 0 \/ z = 1 \/ z = 2 \/ z = 3 \/ z = 4 \/ z = 5 \/ z = 6 \/ z = 7 \/ z = 8 \/ z = 9) as Hz by lia.
  by repeat destruct Hz as [->|Hz]; [..|subst].
Qed.

(** A digit is neither white space nor a sign. *)
Lemma digit_plain d : 0 <= d < 10 ->
  is_space (digit d) = false /\ digit d <> "-"%char /\ digit d <> "+"%char.
Proof.
  intros H. pose proof (digit_of_digit d H) as Hd.
  repeat split; [|intros E; by rewrite E in Hd..].
  destruct (is_space (digit d)) eqn:E; [|done]. revert Hd E. generalize (digit d).
  intros [[] [] [] [] [] [] [] []]; done.
Qed.

Lemma take_digits_digits f z acc :
  0 <= z < 10 ^ Z.of_nat f -> f <> O ->
  exists k, (0 < k)%nat /\ forall a n,
    take_digits (digits f z acc) a n = take_digits acc (a * 10 ^ Z.of_nat k + z) (n + k).
Proof.
  revert z acc. induction f as [|f IH]; intros z acc Hz Hf; [done|]. cbn [digits].
  destruct (Z.ltb_spec z 10) as [Hlt|Hge].
  - exists 1%nat. split; [lia|]. intros a n. cbn [take_digits].
    rewrite digit_of_digit by (rewrite Z.mod_small; lia). rewrite Z.mod_small by lia.
    change (10 ^ Z.of_nat 1) with 10. by rewrite Nat.add_1_r.
  - rewrite Nat2Z.inj_succ, Z.pow_succ_r in Hz by lia.
    destruct (IH (z / 10) (String (digit (z mod 10)) acc)) as (k & Hk & IHk).
    { split; [apply Z.div_pos; lia|]. apply Z.div_lt_upper_bound; lia. }
    { intros ->. simpl in Hz. lia. }
    exists (S k). split; [lia|]. intros a n. rewrite IHk. cbn [take_digits].
    rewrite digit_of_digit by (apply Z.mod_pos_bound; lia).
    rewrite Nat2Z.inj_succ, Z.pow_succ_r by lia.
    f_equal; [|lia]. pose proof (Z.div_mod z 10). lia.
Qed.

Lemma digits_nonspace f z acc : 0 <= z -> f <> O -> exists c t, digits f z acc = String c t /\
  is_space c = false /\ c <> "-"%char /\ c <> "+"%char.
Proof.
  revert z acc. induction f as [|f IH]; intros z acc Hz Hf; [done|]. cbn [digits].
  destruct (z <? 10); [eexists _, _; split; [done|]; apply digit_plain, Z.mod_pos_bound; lia|].
  destruct f as [|f]; [eexists _, _; split; [done|]; apply digit_plain, Z.mod_pos_bound; lia|].
  apply IH; [apply Z.div_pos; lia|done].
Qed.

Lemma sign_plain c t : c <> "-"%char -> c <> "+"%char -> take_sign (String c t) = (1, String c t).
Proof. destruct c as [[] [] [] [] [] [] [] []]; done. Qed.

Lemma log2_pow10 z : 0 <= z -> z < 10 ^ Z.of_nat (S (Z.to_nat (Z.log2 (Z.abs z) + 1))).
Proof.
  intros Hz. rewrite Z.abs_eq by done. pose proof (Z.log2_nonneg z).
  rewrite Nat2Z.inj_succ, Z2Nat.id by lia.
  destruct (Z.eq_dec z 0) as [->|]; [apply Z.pow_pos_nonneg; lia|].
  eapply Z.lt_le_trans; [apply Z.log2_spec; lia|].
  transitivity (10 ^ Z.succ (Z.log2 z)); [apply Z.pow_le_mono_l; lia|apply Z.pow_le_mono_r; lia].
Qed.

(** An integer printed in decimal is read back. *)
Lemma parse_int_print z : 0 <= z -> parse_int (Z_to_string z) = Some z.
Proof.
  intros Hz. unfold Z_to_string, parse_int. destruct (Z.ltb_spec z 0); [lia|].
  pose proof (log2_pow10 z Hz) as Hb. set (f := S _) in *.
  destruct (digits_nonspace f z "" Hz) as (c & t & He & Hs & Hm & Hp); [done|].
  destruct (take_digits_digits f z "" (conj Hz Hb)) as (k & Hk & Ht); [done|].
  specialize (Ht 0 0%nat). rewrite He in *. cbn [ltrim]. rewrite Hs.
  rewrite (sign_plain c t Hm Hp), Ht. cbn [take_digits].
  destruct (Nat.eqb_spec (0 + k) 0); [lia|]. f_equal. lia.
Qed.

(** ** [n.toString(radix)] for a nonnegative integer *)

Definition radix_digit (n : Z) : ascii :=
  ascii_of_N (Z.to_N (if n <? 10 then 48 + n else 87 + n)).

Fixpoint radix_digits (fuel : nat) (r z : Z) (acc : string) : string :=
  match fuel with
  | O => acc
  | S f =>
    let acc' := String (radix_digit (z mod r)) acc in
    if z <? r then acc' else radix_digits f r (z / r) acc'
  end.

Definition to_radix (r z : Z) : string := radix_digits (S (Z.to_nat (Z.log2 z))) r z "".

Lemma radix_digits_length f r z acc :
  1 < r -> 0 <= z -> forall n, r ^ Z.of_nat n <= z -> (n < f)%nat ->
  (n + String.length acc < String.length (radix_digits f r z acc))%nat.
Proof.
  intros Hr. revert z acc. induction f as [|f IH]; intros z acc Hz n Hn Hf; [lia|]. cbn [radix_digits].
  destruct n as [|n].
  - assert (forall f z acc, (String.length acc <= String.length (radix_digits f r z acc))%nat) as Hm.
    { clear. induction f as [|f IH]; intros; simpl; [done|]. destruct (z <? r); simpl; [lia|].
      etrans; [|apply IH]. simpl. lia. }
    destruct (z <? r); simpl; [lia|]. eapply Nat.lt_le_trans; [|apply Hm]. simpl. lia.
  - rewrite Nat2Z.inj_succ, Z.pow_succ_r in Hn by lia.
    assert (0 < r ^ Z.of_nat n) by (apply Z.pow_pos_nonneg; lia).
    destruct (Z.ltb_spec z r); [nia|].
    eapply Nat.le_lt_trans; [|apply (IH (z / r) _ ltac:(apply Z.div_pos; lia) n)].
    + simpl. lia.
    + apply Z.div_le_lower_bound; lia.
    + lia.
Qed.

(** A number of at least [r ^ n] has more than [n] digits. *)
Lemma to_radix_length r z n : 1 < r -> r ^ Z.of_nat n <= z -> (n < String.length (to_radix r z))%nat.
Proof.
  intros Hr Hn. assert (0 < r ^ Z.of_nat n) by (apply Z.pow_pos_nonneg; lia).
  unfold to_radix.
  pose proof (radix_digits_length (S (Z.to_nat (Z.log2 z))) r z "" Hr ltac:(lia) n Hn) as Hl.
  simpl String.length in Hl at 1. rewrite Nat.add_0_r in Hl. apply Hl.
  assert (Z.of_nat n <= Z.log2 z); [|pose proof (Z.log2_nonneg z); lia].
  apply Z.log2_le_pow2; [lia|]. etrans; [|exact Hn]. apply Z.pow_le_mono_l. lia.
Qed.
