(* ===== verification/Window.v ===== *)
(** * The window object

    The modules of [probe/fe] share state through properties of [window]
    ([global.__GR_PHASE__], ...) and report through [GROps.report].  A [Win]
    is the value of those properties and the reports sent so far, newest
    first. *)

From S2P Require Import Prelude JsVal.

Record ops_event := mkOps {
  oe_code : string;
  oe_module : string;
  oe_detail : list (string * val);
  oe_severity : string
}.

Record Win := mkWin {
  vars : gmap string val;
  oplog : list ops_event
}.

Definition win0 : Win := mkWin ∅ [].

(** [global.k] and [global.k = v] *)
Definition gget (k : string) (w : Win) : val := default VUndef (vars w !! k).
Definition gset (k : string) (v : val) (w : Win) : Win :=
  mkWin (<[k := v]> (vars w)) (oplog w).

(** [!!global.k] *)
Definition gtrue (k : string) (w : Win) : bool := truthy (gget k w).

(** [if (global.GROps && GROps.report) GROps.report(...)] *)
Definition ops_report (code md : string) (detail : list (string * val)) (sev : string)
    (w : Win) : Win :=
  if gtrue "GROps" w then mkWin (vars w) (mkOps code md detail sev :: oplog w) else w.

Lemma gget_gset_eq k v w : gget k (gset k v w) = v.
Proof. unfold gget, gset. simpl. by rewrite lookup_insert_eq. Qed.

Lemma gget_gset_ne k k' v w : k <> k' -> gget k' (gset k v w) = gget k' w.
Proof. intros H. unfold gget, gset. simpl. by rewrite lookup_insert_ne. Qed.

Lemma gget_ops_report k code md d sev w : gget k (ops_report code md d sev w) = gget k w.
Proof. unfold ops_report. by destruct (gtrue "GROps" w). Qed.

Lemma gtrue_ops_report k code md d sev w : gtrue k (ops_report code md d sev w) = gtrue k w.
Proof. unfold gtrue. by rewrite gget_ops_report. Qed.

#[export] Hint Rewrite gget_gset_eq gget_ops_report gtrue_ops_report : grrw.
#[export] Hint Rewrite gget_gset_ne using discriminate : grrw.
