(* ===== verification/Browser.v ===== *)
(** * The stores of the browser

    [localStorage], [sessionStorage] and [document.cookie] are not code of the
    repository: the class [Browser] holds the operations the modules call, the
    class [BrowserLaws] the documented behaviour they rely on, and
    [mem_browser] is an instance, used by the examples.

    A getter that throws, a store that is absent and a key that is absent are
    all [""], because no caller tells them apart; [None] is a write that
    throws.  The jar lists the cookies the page sees in the order
    [document.cookie] prints them; a cookie is identified by its [domain]
    attribute ([""] when host-only) and its name. *)

From S2P Require Import Prelude JsVal Uri.
#[local] Open Scope Z_scope.

(** An assignment to [document.cookie], with [path=/]. *)
Record cookie := mkCookie {
  ck_name : string;
  ck_raw : string;
  ck_age : Z;
  ck_domain : string;
  ck_secure : bool
}.

Class Browser (B : Type) := {
  ls_get : string -> B -> string;
  ls_set : string -> string -> B -> option B;
  ls_remove : string -> B -> option B;
  ss_get : string -> B -> string;
  ss_set : string -> string -> B -> option B;
  cookie_text : Z -> B -> string;
  set_cookie : Z -> cookie -> B -> B
}.

(** ** Jars *)

Record entry := mkEntry { e_dom : string; e_name : string; e_raw : string }.

Definition starts_nonspace (s : string) : bool :=
  match s with EmptyString => false | String c _ => negb (is_space c) end.

Definition name_ok (n : string) : bool :=
  starts_nonspace n && no_char "=" n && no_char ";" n.

Definition entry_ok (e : entry) : bool := name_ok (e_name e) && no_char ";" (e_raw e).

Definition entry_text (e : entry) : string := e_name e +:+ "=" +:+ e_raw e.

Definition jar_text (l : list entry) : string := join "; " (map entry_text l).

(** The values of the cookies named [n], in order. *)
Definition jar_of (n : string) (l : list entry) : list string :=
  map e_raw (List.filter (fun e => e_name e =s n) l).

Definition same_key (c : cookie) (e : entry) : bool :=
  (e_name e =s ck_name c) && (e_dom e =s ck_domain c).

(** ** Laws *)

Class BrowserLaws (B : Type) `{Browser B} := {
  ls_ok : B -> bool;
  ls_off : B -> bool;
  ss_ok : B -> bool;
  ck_ok : cookie -> B -> bool;
  jar : Z -> B -> list entry;
  (** policies are not changed by a write *)
  same_rules (b b' : B) :=
    ls_ok b' = ls_ok b /\ ls_off b' = ls_off b /\ ss_ok b' = ss_ok b /\
    forall c, ck_ok c b' = ck_ok c b;
  ls_set_law k v b b' : ls_set k v b = Some b' ->
    (forall k', ls_get k' b' = if k =s k' then v else ls_get k' b) /\
    (forall k', ss_get k' b' = ss_get k' b) /\ (forall t, jar t b' = jar t b) /\ same_rules b b';
  ls_remove_law k b b' : ls_remove k b = Some b' ->
    (forall k', ls_get k' b' = if k =s k' then "" else ls_get k' b) /\
    (forall k', ss_get k' b' = ss_get k' b) /\ (forall t, jar t b' = jar t b) /\ same_rules b b';
  ss_set_law k v b b' : ss_set k v b = Some b' ->
    (forall k', ss_get k' b' = if k =s k' then v else ss_get k' b) /\
    (forall k', ls_get k' b' = ls_get k' b) /\ (forall t, jar t b' = jar t b) /\ same_rules b b';
  ls_ok_law b : ls_ok b = true -> forall k v, is_Some (ls_set k v b) /\ is_Some (ls_remove k b);
  ls_off_law b : ls_off b = true ->
    forall k v, ls_get k b = "" /\ ls_set k v b = None /\ ls_remove k b = None;
  ss_ok_law b : ss_ok b = true -> forall k v, is_Some (ss_set k v b);
  cookie_text_law t b : cookie_text t b = jar_text (jar t b) /\ forallb entry_ok (jar t b) = true;
  set_cookie_frame t c b : let b' := set_cookie t c b in
    (forall k, ls_get k b' = ls_get k b) /\ (forall k, ss_get k b' = ss_get k b) /\
    same_rules b b' /\
    forall t', t <= t' -> List.filter (fun e => negb (same_key c e)) (jar t' b') =
                          List.filter (fun e => negb (same_key c e)) (jar t' b);
  set_cookie_reject t c b : ck_ok c b = false -> forall t', jar t' (set_cookie t c b) = jar t' b;
  set_cookie_accept t c b : ck_ok c b = true -> forall t' e, t <= t' -> same_key c e = true ->
    In e (jar t' (set_cookie t c b)) <-> e_raw e = ck_raw c /\ t' < t + 1000 * ck_age c
}.

(** ** Reading a jar *)

Lemma no_char_app c a b : no_char c (a +:+ b) = no_char c a && no_char c b.
Proof. induction a as [|x a IH]; [done|]. rewrite append_cons. simpl. by rewrite IH, andb_assoc. Qed.

Lemma split_on_none c s : no_char c s = true -> split_on c s = [s].
Proof.
  induction s as [|d s IH]; simpl; [done|]. intros H. breflect. rewrite IH by done.
  match goal with H : Ascii.eqb c d = false |- _ => by rewrite H end.
Qed.

Lemma split_on_app c a s : no_char c a = true -> split_on c (a +:+ String c s) = a :: split_on c s.
Proof.
  assert (forall s, split_on c s <> []) as Hne.
  { intros s'. destruct s' as [|d s']; simpl; [done|]. destruct (split_on c s') eqn:E; [|by destruct (Ascii.eqb c d)].
    exfalso. revert E. clear. revert s'. fix IH 1. intros [|d s']; simpl; [done|].
    specialize (IH s'). destruct (split_on c s'); [done|]. by destruct (Ascii.eqb c d). }
  induction a as [|d a IH]; intros Ha.
  - simpl. rewrite Ascii.eqb_refl. specialize (Hne s). by destruct (split_on c s).
  - rewrite append_cons. simpl in *. breflect. rewrite IH by done.
    match goal with H : Ascii.eqb c d = false |- _ => by rewrite H end.
Qed.

Lemma split_jar_text l : forallb entry_ok l = true -> l <> [] ->
  map ltrim (split_on ";" (jar_text l)) = map entry_text l.
Proof.
  assert (forall e, entry_ok e = true -> no_char ";" (entry_text e) = true /\ ltrim (entry_text e) = entry_text e /\
     ltrim (String " " (entry_text e)) = entry_text e) as He.
  { intros [d n v] H. unfold entry_ok, name_ok, entry_text in *. simpl in *. breflect.
    split; [by rewrite !no_char_app; apply andb_true_iff; split|].
    assert (ltrim (n +:+ "=" +:+ v) = n +:+ "=" +:+ v); [|by split].
    destruct n as [|c n]; [done|]. simpl in *. breflect.
    rewrite append_cons. simpl. by match goal with H : is_space c = false |- _ => rewrite H end. }
  assert (forall l e, entry_ok e = true -> forallb entry_ok l = true ->
     map ltrim (split_on ";" (String " " (join "; " (map entry_text (e :: l))))) = map entry_text (e :: l)) as Hl.
  { clear l. induction l as [|e' l IH]; intros e H Hl.
    - destruct (He e H) as (Hn & _ & Ht). cbn [map join]. rewrite split_on_none by done.
      cbn [map]. by rewrite Ht.
    - simpl forallb in Hl. breflect. destruct (He e H) as (Hn & _ & Ht).
      change (join "; " (map entry_text (e :: e' :: l))) with
        (entry_text e +:+ String ";" (String " " (join "; " (map entry_text (e' :: l))))).
      rewrite <- append_cons, split_on_app by done.
      rewrite map_cons, IH, Ht by done. done. }
  intros H Hne. destruct l as [|e [|e' l]]; [done| |]; simpl forallb in H; breflect.
  - destruct (He e ltac:(done)) as (Hn & Ht & _). unfold jar_text. simpl.
    rewrite split_on_none by done. cbn [map]. by rewrite Ht.
  - destruct (He e ltac:(done)) as (Hn & Ht & _). unfold jar_text.
    change (join "; " (map entry_text (e :: e' :: l))) with
      (entry_text e +:+ String ";" (String " " (join "; " (map entry_text (e' :: l))))).
    rewrite split_on_app, map_cons, Hl by (done || simpl; apply andb_true_iff; done). by rewrite Ht.
Qed.

(** A name identifies the entries whose text starts with [name=]. *)
Lemma entry_prefix n e : name_ok n = true -> entry_ok e = true ->
  starts_with (n +:+ "=") (entry_text e) = (e_name e =s n).
Proof.
  intros Hn He. unfold entry_ok, name_ok in *. breflect.
  apply eq_iff_eq_true. rewrite prefix_iff, String.eqb_eq. unfold entry_text. split.
  - intros [t Ht]. rewrite append_assoc in Ht. change ("=" +:+ t) with (String "=" t) in Ht.
    by apply split_at_sep in Ht as [-> _].
  - intros <-. exists (e_raw e). by rewrite append_assoc.
Qed.

(** ** Stores *)

Section Frame.
Context {B : Type} `{BrowserLaws B}.

(** Cookies of other names are not touched by a write. *)
Lemma jar_of_frame t t' c b n : n <> ck_name c -> t <= t' ->
  jar_of n (jar t' (set_cookie t c b)) = jar_of n (jar t' b).
Proof.
  intros Hn Ht. destruct (set_cookie_frame t c b) as (_ & _ & _ & Hf). specialize (Hf t' Ht).
  assert (forall l, jar_of n (List.filter (fun e => negb (same_key c e)) l) = jar_of n l) as Hj.
  { unfold jar_of. induction l as [|e l IH]; [done|]. simpl. unfold same_key in *.
    destruct (String.eqb_spec (e_name e) (ck_name c)) as [He|He]; simpl.
    - destruct (e_dom e =s ck_domain c); simpl;
        (destruct (String.eqb_spec (e_name e) n); [congruence|]); done.
    - destruct (e_name e =s n); simpl; by rewrite IH. }
  by rewrite <- Hj, Hf, Hj.
Qed.

Lemma jar_ok t b e : In e (jar t b) -> entry_ok e = true.
Proof. destruct (cookie_text_law t b) as [_ Hf]. rewrite forallb_forall in Hf. auto. Qed.
End Frame.

(** ** A browser in memory *)

Record mem := mkMem {
  m_ls : option (gmap string string);
  m_ss : option (gmap string string);
  m_host : string;
  m_cookies : bool;
  m_jar : list (entry * Z)
}.

Definition store_get (m : option (gmap string string)) (k : string) : string :=
  default "" (m ≫= lookup k).

(** A [domain] attribute is accepted when the host is in that domain. *)
Definition domain_ok (host d : string) : bool := (d =s "") || contains d ("." +:+ host).

Definition mem_accepts (c : cookie) (b : mem) : bool :=
  m_cookies b && domain_ok (m_host b) (ck_domain c) && name_ok (ck_name c) && no_char ";" (ck_raw c).

Definition mem_jar (t : Z) (b : mem) : list entry :=
  map fst (List.filter (fun p => entry_ok (fst p) && (t <? snd p)) (m_jar b)).

#[export] Instance mem_browser : Browser mem := {
  ls_get k b := store_get (m_ls b) k;
  ls_set k v b := m ← m_ls b; Some (mkMem (Some (<[k := v]> m)) (m_ss b) (m_host b) (m_cookies b) (m_jar b));
  ls_remove k b := m ← m_ls b; Some (mkMem (Some (delete k m)) (m_ss b) (m_host b) (m_cookies b) (m_jar b));
  ss_get k b := store_get (m_ss b) k;
  ss_set k v b := m ← m_ss b; Some (mkMem (m_ls b) (Some (<[k := v]> m)) (m_host b) (m_cookies b) (m_jar b));
  cookie_text t b := jar_text (mem_jar t b);
  set_cookie t c b :=
    if mem_accepts c b
    then mkMem (m_ls b) (m_ss b) (m_host b) (m_cookies b)
           (List.filter (fun p => negb (same_key c (fst p))) (m_jar b) ++
            [(mkEntry (ck_domain c) (ck_name c) (ck_raw c), t + 1000 * ck_age c)])
    else b
}.

Lemma store_get_insert m k v k' :
  store_get (Some (<[k := v]> m)) k' = if k =s k' then v else store_get (Some m) k'.
Proof.
  unfold store_get. simpl. destruct (String.eqb_spec k k') as [->|].
  - by rewrite lookup_insert_eq.
  - by rewrite lookup_insert_ne.
Qed.

Lemma store_get_delete m k k' :
  store_get (Some (delete k m)) k' = if k =s k' then "" else store_get (Some m) k'.
Proof.
  unfold store_get. simpl. destruct (String.eqb_spec k k') as [->|].
  - by rewrite lookup_delete_eq.
  - by rewrite lookup_delete_ne.
Qed.

Lemma mem_jar_set t t' c b : mem_accepts c b = true ->
  mem_jar t' (set_cookie t c b) =
  List.filter (fun e => negb (same_key c e)) (mem_jar t' b) ++
  (if t' <? t + 1000 * ck_age c then [mkEntry (ck_domain c) (ck_name c) (ck_raw c)] else []).
Proof.
  intros Ha. unfold mem_jar. simpl. rewrite Ha. simpl. rewrite List.filter_app, map_app. f_equal.
  - induction (m_jar b) as [|[e x] l IH]; [done|]. simpl.
    destruct (same_key c e) eqn:E; destruct (entry_ok e && (t' <? x)) eqn:E'; simpl; rewrite ?E, ?E'; simpl; by rewrite ?IH.
  - unfold mem_accepts in Ha. breflect. simpl. unfold entry_ok. simpl.
    repeat match goal with H : _ = true |- _ => rewrite H end. simpl. by destruct (t' <? _).
Qed.

#[export] Program Instance mem_laws : BrowserLaws mem := {
  ls_ok b := bool_decide (is_Some (m_ls b));
  ls_off b := bool_decide (m_ls b = None);
  ss_ok b := bool_decide (is_Some (m_ss b));
  ck_ok := mem_accepts;
  jar := mem_jar
}.
Next Obligation.
  intros k v [[m|] ss h c j] b' [= <-]. repeat split; try done. intros k'. apply store_get_insert.
Qed.
Next Obligation.
  intros k [[m|] ss h c j] b' [= <-]. repeat split; try done. intros k'. apply store_get_delete.
Qed.
Next Obligation.
  intros k v [ls [m|] h c j] b' [= <-]. repeat split; try done. intros k'. apply store_get_insert.
Qed.
Next Obligation.
  intros [ls ss h c j] Hb%bool_decide_eq_true k v. simpl in *. destruct Hb as [m ->]. split; by eexists.
Qed.
Next Obligation.
  intros [ls ss h c j] Hb%bool_decide_eq_true k v. simpl in *. by subst.
Qed.
Next Obligation.
  intros [ls ss h c j] Hb%bool_decide_eq_true k v. simpl in *. destruct Hb as [m ->]. by eexists.
Qed.
Next Obligation.
  intros t b. split; [done|]. unfold mem_jar. apply forallb_forall. intros e.
  rewrite in_map_iff. intros ([e' x] & <- & Hin). apply filter_In in Hin as [_ Hp]. simpl in *. by breflect.
Qed.
Next Obligation.
  intros t c b b'. destruct (mem_accepts c b) eqn:E.
  - repeat split; subst b'; simpl; rewrite ?E; try done. intros t' _.
    pose proof (mem_jar_set t t' c b E) as Hj. simpl in Hj. rewrite E in Hj. rewrite Hj, List.filter_app.
    assert (List.filter (fun e => negb (same_key c e))
      (if t' <? t + 1000 * ck_age c then [mkEntry (ck_domain c) (ck_name c) (ck_raw c)] else []) = []) as ->.
    { destruct (t' <? _); [|done]. simpl. unfold same_key. simpl. by rewrite !String.eqb_refl. }
    rewrite app_nil_r. clear Hj. induction (mem_jar t' b) as [|e l IH]; [done|]. simpl.
    destruct (same_key c e) eqn:E'; simpl; rewrite ?E'; simpl; by rewrite ?IH.
  - repeat split; subst b'; simpl; rewrite ?E; done.
Qed.
Next Obligation. intros t c b E t'. simpl. by rewrite E. Qed.
Next Obligation.
  intros t c b E t' e _ Hk. rewrite mem_jar_set by done. rewrite in_app_iff, filter_In. unfold same_key in Hk. breflect.
  split.
  - intros [[_ Hc]|Hin].
    + unfold same_key in Hc. breflect. destruct (andb_false_iff (e_name e =s ck_name c) (e_dom e =s ck_domain c)) as [Hx _].
      destruct (Hx Hc); breflect; congruence.
    + destruct (Z.ltb_spec t' (t + 1000 * ck_age c)); [|done]. destruct Hin as [<-|[]]. done.
  - intros [Hr Ht]. right. destruct (Z.ltb_spec t' (t + 1000 * ck_age c)); [|lia].
    left. destruct e as [d n v]. simpl in *. by subst.
Qed.
