(* ===== verification/Sha256.v ===== *)
(** * SHA-256 of the material hash ([probe/fe/upload_queue.js], [sha256Hex])

    [Module Js] is the in-page implementation on JavaScript's 32-bit integer
    operations: signed results, sums taken exactly and wrapped by [| 0].
    [Module Spec] is the hash of FIPS 180-4 as the standard states it: a message
    is a string of bits, padded by a formula, parsed into blocks of sixteen
    32-bit words, and the arithmetic is on unsigned words modulo 2^32; it shares
    only the table of constants with the implementation.  [sha256_refines] shows
    that they agree on every input. *)

From S2P Require Import Prelude.

(** The low 32 bits as an unsigned word. *)
Definition u32 (x : Z) : Z := x mod 2 ^ 32.

(** A row of the constant table, written as one literal, most significant word
    first. *)
Definition row (n : nat) (z : Z) : list Z :=
  map (fun i => Z.land (Z.shiftr z (32 * Z.of_nat i)) (2 ^ 32 - 1)) (rev (seq 0 n)).

(** The round constants, in the rows of the source. *)
Definition K : list Z := Eval vm_compute in
  row 9 0x428a2f98_71374491_b5c0fbcf_e9b5dba5_3956c25b_59f111f1_923f82a4_ab1c5ed5_d807aa98 ++
  row 9 0x12835b01_243185be_550c7dc3_72be5d74_80deb1fe_9bdc06a7_c19bf174_e49b69c1_efbe4786 ++
  row 9 0x0fc19dc6_240ca1cc_2de92c6f_4a7484aa_5cb0a9dc_76f988da_983e5152_a831c66d_b00327c8 ++
  row 9 0xbf597fc7_c6e00bf3_d5a79147_06ca6351_14292967_27b70a85_2e1b2138_4d2c6dfc_53380d13 ++
  row 9 0x650a7354_766a0abb_81c2c92e_92722c85_a2bfe8a1_a81a664b_c24b8b70_c76c51a3_d192e819 ++
  row 9 0xd6990624_f40e3585_106aa070_19a4c116_1e376c08_2748774c_34b0bcb5_391c0cb3_4ed8aa4a ++
  row 9 0x5b9cca4f_682e6ff3_748f82ee_78a5636f_84c87814_8cc70208_90befffa_a4506ceb_bef9a3f7 ++
  row 1 0xc67178f2.

(** The eight working variables a..h. *)
Record regs := mkRegs { ra : Z; rb : Z; rc : Z; rd : Z; re : Z; rf : Z; rg : Z; rh : Z }.

Definition H0 : regs := mkRegs 0x6a09e667 0xbb67ae85 0x3c6ef372 0xa54ff53a
                               0x510e527f 0x9b05688c 0x1f83d9ab 0x5be0cd19.

(** ** Padding *)

(** [unescape(encodeURIComponent(s))]: a unit below 128 is one byte, the other 8-bit
    units are two. *)
Fixpoint toBytes (s : string) : list Z :=
  match s with
  | EmptyString => []
  | String c s' =>
    let n := Z.of_N (N_of_ascii c) in
    if n <? 128 then n :: toBytes s' else 192 + n / 64 :: 128 + n mod 64 :: toBytes s'
  end.

(** [while ((bytes.length % 64) !== 56) bytes.push(0)] with [fuel] rounds. *)
Fixpoint push_zeros (fuel : nat) (bytes : list Z) : list Z :=
  match fuel with
  | O => bytes
  | S f => if Nat.eqb (length bytes mod 64) 56 then bytes else push_zeros f (bytes ++ [0])
  end.

Definition len_byte (bitLen : Z) (i : nat) : Z := Z.land (bitLen / 2 ^ (Z.of_nat i * 8)) 255.

Definition pad (bytes : list Z) : list Z :=
  let bitLen := Z.of_nat (length bytes) * 8 in
  push_zeros 64 (bytes ++ [0x80]) ++ map (len_byte bitLen) [7; 6; 5; 4; 3; 2; 1; 0]%nat.

(** The 64-byte blocks the loop over [off] visits. *)
Fixpoint blocks (fuel : nat) (bytes : list Z) : list (list Z) :=
  match fuel with
  | O => []
  | S f => match bytes with [] => [] | _ => take 64 bytes :: blocks f (drop 64 bytes) end
  end.

(** ** The implementation *)
Module Js.
Definition ushr (x n : Z) : Z := Z.shiftr (u32 x) n.
Definition shl (x n : Z) : Z := to_int32 (Z.shiftl (to_int32 x) n).
Definition bor (x y : Z) : Z := Z.lor (to_int32 x) (to_int32 y).
Definition band (x y : Z) : Z := Z.land (to_int32 x) (to_int32 y).
Definition bxor (x y : Z) : Z := Z.lxor (to_int32 x) (to_int32 y).
Definition bnot (x : Z) : Z := Z.lnot (to_int32 x).

Definition rotr (n x : Z) : Z := bor (ushr x n) (shl x (32 - n)).

(** [(bytes[j] << 24) | (bytes[j+1] << 16) | (bytes[j+2] << 8) | bytes[j+3]] *)
Definition word_at (block : list Z) (t : nat) : Z :=
  let b k := nth (t * 4 + k) block 0 in
  bor (bor (bor (shl (b 0%nat) 24) (shl (b 1%nat) 16)) (shl (b 2%nat) 8)) (b 3%nat).

Definition next_w (w : list Z) : Z :=
  let t := length w in
  let wt k := nth (t - k) w 0 in
  let s0 := bxor (bxor (rotr 7 (wt 15%nat)) (rotr 18 (wt 15%nat))) (ushr (wt 15%nat) 3) in
  let s1 := bxor (bxor (rotr 17 (wt 2%nat)) (rotr 19 (wt 2%nat))) (ushr (wt 2%nat) 10) in
  to_int32 (wt 16%nat + s0 + wt 7%nat + s1).

Definition schedule (block : list Z) : list Z :=
  Nat.iter 48 (fun w => w ++ [next_w w]) (map (word_at block) (seq 0 16)).

Definition round (kt wt : Z) (v : regs) : regs :=
  let '(mkRegs a b c d e f g h) := v in
  let S1 := bxor (bxor (rotr 6 e) (rotr 11 e)) (rotr 25 e) in
  let ch := bxor (band e f) (band (bnot e) g) in
  let t1 := to_int32 (h + S1 + ch + kt + wt) in
  let S0 := bxor (bxor (rotr 2 a) (rotr 13 a)) (rotr 22 a) in
  let maj := bxor (bxor (band a b) (band a c)) (band b c) in
  let t2 := to_int32 (S0 + maj) in
  mkRegs (to_int32 (t1 + t2)) a b c (to_int32 (d + t1)) e f g.

Definition add_regs (x y : regs) : regs :=
  mkRegs (to_int32 (ra x + ra y)) (to_int32 (rb x + rb y)) (to_int32 (rc x + rc y))
         (to_int32 (rd x + rd y)) (to_int32 (re x + re y)) (to_int32 (rf x + rf y))
         (to_int32 (rg x + rg y)) (to_int32 (rh x + rh y)).

Definition compress (H : regs) (block : list Z) : regs :=
  add_regs H (fold_left (fun v kw => round (fst kw) (snd kw) v) (combine K (schedule block)) H).

Definition digest (bytes : list Z) : regs :=
  let p := pad bytes in fold_left compress (blocks (length p) p) H0.
End Js.

(** ** Hexadecimal output *)

Definition hex_digit (n : Z) : ascii :=
  ascii_of_N (Z.to_N (if n <? 10 then 48 + n else 87 + n)).

(** [n.toString(16)] of a 32-bit unsigned word *)
Fixpoint hex_of (fuel : nat) (n : Z) (acc : string) : string :=
  match fuel with
  | O => acc
  | S f =>
    let acc' := String (hex_digit (n mod 16)) acc in
    if n <? 16 then acc' else hex_of f (n / 16) acc'
  end.

(** [("00000000" + hx).slice(-8)] *)
Definition hex8 (x : Z) : string :=
  let hx := "00000000" +:+ hex_of 8 (u32 x) "" in
  String.substring (String.length hx - 8) 8 hx.

Definition regs_hex (v : regs) : string :=
  hex8 (ra v) +:+ hex8 (rb v) +:+ hex8 (rc v) +:+ hex8 (rd v) +:+
  hex8 (re v) +:+ hex8 (rf v) +:+ hex8 (rg v) +:+ hex8 (rh v).

Definition sha256Hex (str : string) : string := regs_hex (Js.digest (toBytes str)).

(** ** FIPS 180-4 on unsigned words *)
Module Spec.
Definition add (x y : Z) : Z := (x + y) mod 2 ^ 32.
Definition not (x : Z) : Z := Z.lxor x (2 ^ 32 - 1).
Definition rotr (n x : Z) : Z := Z.lor (Z.shiftr x n) (Z.shiftl x (32 - n) mod 2 ^ 32).
Definition Ch x y z := Z.lxor (Z.land x y) (Z.land (not x) z).
Definition Maj x y z := Z.lxor (Z.lxor (Z.land x y) (Z.land x z)) (Z.land y z).
Definition Sigma0 x := Z.lxor (Z.lxor (rotr 2 x) (rotr 13 x)) (rotr 22 x).
Definition Sigma1 x := Z.lxor (Z.lxor (rotr 6 x) (rotr 11 x)) (rotr 25 x).
Definition sigma0 x := Z.lxor (Z.lxor (rotr 7 x) (rotr 18 x)) (Z.shiftr x 3).
Definition sigma1 x := Z.lxor (Z.lxor (rotr 17 x) (rotr 19 x)) (Z.shiftr x 10).

(** The number a string of bits stands for, the most significant bit first, and the [n]
    low bits of a number. *)
Definition num (bs : list bool) : Z := fold_left (fun a b => 2 * a + Z.b2z b) bs 0.
Definition bits (n : nat) (x : Z) : list bool := map (fun i => Z.testbit x (Z.of_nat i)) (rev (seq 0 n)).

(** UTF-8 of the code points below 256: 0xxxxxxx, or 110xxxxx 10xxxxxx. *)
Definition utf8_char (c : Z) : list bool :=
  if c <? 128 then false :: bits 7 c
  else [true; true; false; false; false; false] ++ firstn 2 (bits 8 c) ++ [true; false] ++ bits 6 c.
Fixpoint utf8 (s : string) : list bool :=
  match s with EmptyString => [] | String c s' => utf8_char (Z.of_N (N_of_ascii c)) ++ utf8 s' end.

(** 5.1.1: the bit 1, then as few zeros as reach 448 modulo 512, then the length in 64
    bits. *)
Definition pad (m : list bool) : list bool :=
  let l := Z.of_nat (length m) in
  m ++ [true] ++ repeat false (Z.to_nat ((448 - (l + 1)) mod 512)) ++ bits 64 l.

(** 5.2.1: the [i]-th block, sixteen words. *)
Definition block (m : list bool) (i : nat) : list Z :=
  map (fun t => num (firstn 32 (skipn (512 * i + 32 * t) m))) (seq 0 16).

Definition next_w (w : list Z) : Z :=
  let wt k := nth (length w - k) w 0 in
  add (add (add (sigma1 (wt 2%nat)) (wt 7%nat)) (sigma0 (wt 15%nat))) (wt 16%nat).

Definition schedule (M : list Z) : list Z := Nat.iter 48 (fun w => w ++ [next_w w]) M.

Definition round (kt wt : Z) (v : regs) : regs :=
  let '(mkRegs a b c d e f g h) := v in
  let T1 := add (add (add (add h (Sigma1 e)) (Ch e f g)) kt) wt in
  let T2 := add (Sigma0 a) (Maj a b c) in
  mkRegs (add T1 T2) a b c (add d T1) e f g.

Definition compress (H : regs) (M : list Z) : regs :=
  let v := fold_left (fun v kw => round (fst kw) (snd kw) v) (combine K (schedule M)) H in
  mkRegs (add (ra H) (ra v)) (add (rb H) (rb v)) (add (rc H) (rc v)) (add (rd H) (rd v))
         (add (re H) (re v)) (add (rf H) (rf v)) (add (rg H) (rg v)) (add (rh H) (rh v)).

Definition digest (m : list bool) : regs :=
  let p := pad m in fold_left compress (map (block p) (seq 0 (length p / 512))) H0.

(** Eight hexadecimal digits a word. *)
Definition hex_word (x : Z) : string :=
  foldr (fun i a => String (nth (Z.to_nat (x / 16 ^ Z.of_nat i mod 16))
      ["0"; "1"; "2"; "3"; "4"; "5"; "6"; "7"; "8"; "9"; "a"; "b"; "c"; "d"; "e"; "f"]%char "0"%char) a) ""
    (rev (seq 0 8)).
Definition hex (v : regs) : string :=
  foldr String.append "" (map hex_word [ra v; rb v; rc v; rd v; re v; rf v; rg v; rh v]).

Definition sha256 (s : string) : string := hex (digest (utf8 s)).
End Spec.

(** Registers seen as unsigned words. *)
Definition regs_u32 (v : regs) : regs :=
  mkRegs (u32 (ra v)) (u32 (rb v)) (u32 (rc v)) (u32 (rd v))
         (u32 (re v)) (u32 (rf v)) (u32 (rg v)) (u32 (rh v)).

(** ** Words *)

Lemma u32_range x : 0 <= u32 x < 2 ^ 32.
Proof. apply Z.mod_pos_bound. lia. Qed.

Lemma u32_small x : 0 <= x < 2 ^ 32 -> u32 x = x.
Proof. apply Z.mod_small. Qed.

Lemma u32_u32 x : u32 (u32 x) = u32 x.
Proof. apply u32_small, u32_range. Qed.

Lemma u32_to_int32 x : u32 (to_int32 x) = u32 x.
Proof.
  unfold to_int32, u32. destruct (_ <? _).
  - apply Z.mod_mod. lia.
  - rewrite <- Zminus_mod_idemp_r, Z_mod_same_full, Z.sub_0_r. apply Z.mod_mod. lia.
Qed.

Lemma u32_testbit x i : 0 <= i < 32 -> Z.testbit (u32 x) i = Z.testbit x i.
Proof. intros Hi. apply Z.mod_pow2_bits_low. lia. Qed.

Lemma u32_testbit_high x i : 32 <= i -> Z.testbit (u32 x) i = false.
Proof. intros Hi. apply Z.mod_pow2_bits_high. lia. Qed.

(** Two words with the same 32 low bits are the same unsigned word. *)
Lemma u32_ext x y : (forall i, 0 <= i < 32 -> Z.testbit x i = Z.testbit y i) -> u32 x = u32 y.
Proof.
  intros H. apply Z.bits_inj'. intros i Hi. destruct (Z_lt_ge_dec i 32).
  - rewrite !u32_testbit by lia. apply H. lia.
  - by rewrite !u32_testbit_high by lia.
Qed.

Lemma to_int32_testbit x i : 0 <= i < 32 -> Z.testbit (to_int32 x) i = Z.testbit x i.
Proof. intros Hi. rewrite <- u32_testbit, u32_to_int32 by done. by apply u32_testbit. Qed.

(** ** The word operations agree *)

Ltac bits32 :=
  apply Z.bits_inj'; intros i Hi; destruct (Z_lt_ge_dec i 32);
  repeat first [ rewrite u32_testbit by lia | rewrite u32_testbit_high by lia
               | rewrite to_int32_testbit by lia | rewrite Z.lor_spec | rewrite Z.land_spec
               | rewrite Z.lxor_spec | rewrite Z.lnot_spec by lia ]; try done.

Lemma u32_bor x y : u32 (Js.bor x y) = Z.lor (u32 x) (u32 y).
Proof. unfold Js.bor. bits32. Qed.

Lemma u32_band x y : u32 (Js.band x y) = Z.land (u32 x) (u32 y).
Proof. unfold Js.band. bits32. Qed.

Lemma u32_bxor x y : u32 (Js.bxor x y) = Z.lxor (u32 x) (u32 y).
Proof. unfold Js.bxor. bits32. Qed.

Lemma u32_bnot x : u32 (Js.bnot x) = Spec.not (u32 x).
Proof.
  unfold Js.bnot, Spec.not. change (2 ^ 32 - 1) with (Z.ones 32). bits32.
  - rewrite Z.ones_spec_low by lia. by destruct (Z.testbit x i).
  - by rewrite Z.ones_spec_high by lia.
Qed.

Lemma u32_ushr x n : 0 <= n -> u32 (Js.ushr x n) = Z.shiftr (u32 x) n.
Proof.
  intros Hn. apply u32_small. unfold Js.ushr. pose proof (u32_range x).
  rewrite Z.shiftr_div_pow2 by done. split.
  - apply Z.div_pos; lia.
  - apply Z.div_lt_upper_bound; [lia|]. nia.
Qed.

Lemma u32_shl x n : 0 <= n -> u32 (Js.shl x n) = u32 (Z.shiftl (u32 x) n).
Proof.
  intros Hn. unfold Js.shl. rewrite u32_to_int32. apply u32_ext. intros i Hi.
  rewrite !Z.shiftl_spec by lia. destruct (Z_lt_ge_dec i n).
  - by rewrite !Z.testbit_neg_r by lia.
  - by rewrite u32_testbit, to_int32_testbit by lia.
Qed.

Lemma u32_rotr n x : 0 <= n <= 32 -> u32 (Js.rotr n x) = Spec.rotr n (u32 x).
Proof.
  intros Hn. unfold Js.rotr, Spec.rotr. by rewrite u32_bor, u32_ushr, u32_shl by lia.
Qed.

Lemma u32_add x y : u32 (x + y) = Spec.add (u32 x) (u32 y).
Proof. unfold u32, Spec.add. apply Zplus_mod. Qed.

Lemma add_comm x y : Spec.add x y = Spec.add y x.
Proof. unfold Spec.add. f_equal. lia. Qed.

Lemma add_assoc x y z : Spec.add x (Spec.add y z) = Spec.add (Spec.add x y) z.
Proof.
  unfold Spec.add. rewrite Zplus_mod_idemp_l, Zplus_mod_idemp_r. f_equal. lia.
Qed.

Create Rewrite HintDb u32rw.
#[export] Hint Rewrite u32_bor u32_band u32_bxor u32_bnot u32_to_int32 u32_add : u32rw.
#[export] Hint Rewrite u32_ushr u32_rotr using lia : u32rw.

Lemma next_w_u32 w : u32 (Js.next_w w) = Spec.next_w (map u32 w).
Proof.
  unfold Js.next_w, Spec.next_w. autorewrite with u32rw. rewrite length_map.
  change (nth ?k (map u32 w) 0) with (nth k (map u32 w) (u32 0)). rewrite !map_nth.
  unfold Spec.sigma0, Spec.sigma1.
  set (w16 := u32 (nth _ w 0)). set (x := Z.lxor _ _). set (y := u32 _). set (z := Z.lxor _ _).
  rewrite (add_comm (Spec.add (Spec.add z y) x) w16), (add_comm (Spec.add z y) x).
  rewrite (add_comm z y). by rewrite !add_assoc.
Qed.

Lemma round_u32 k w v : regs_u32 (Js.round k w v) = Spec.round (u32 k) (u32 w) (regs_u32 v).
Proof.
  destruct v as [a b c d e f g h]. unfold Js.round, Spec.round, regs_u32. cbn [ra rb rc rd re rf rg rh].
  autorewrite with u32rw. reflexivity.
Qed.

(** ** The message schedule *)

Definition is_byte (b : Z) : Prop := 0 <= b < 256.

Lemma lor_disjoint a b n : 0 <= n -> 0 <= b < 2 ^ n -> Z.lor (a * 2 ^ n) b = a * 2 ^ n + b.
Proof.
  intros Hn Hb. rewrite <- Z.lxor_lor, Z.add_nocarry_lxor; [done| |];
    apply Z.bits_inj'; intros i Hi; rewrite Z.land_spec, Z.bits_0;
    (destruct (Z_lt_ge_dec i n);
     [by rewrite Z.mul_pow2_bits_low by lia
     | rewrite <- (Z.mod_small b (2 ^ n)), Z.mod_pow2_bits_high by lia; apply andb_false_r]).
Qed.

(** A big-endian word of a block of bytes. *)
Definition word_be (block : list Z) (t : nat) : Z :=
  let b k := nth (t * 4 + k) block 0 in
  b 0%nat * 2 ^ 24 + b 1%nat * 2 ^ 16 + b 2%nat * 2 ^ 8 + b 3%nat.

Lemma shl_byte b n : is_byte b -> 0 <= n <= 24 -> u32 (Js.shl b n) = b * 2 ^ n.
Proof.
  intros Hb Hn. unfold is_byte in Hb. rewrite u32_shl by lia.
  rewrite (u32_small b) by lia. rewrite Z.shiftl_mul_pow2 by lia. apply u32_small.
  pose proof (Z.pow_le_mono_r 2 n 24 ltac:(lia) ltac:(lia)).
  pose proof (Z.pow_pos_nonneg 2 n ltac:(lia) ltac:(lia)). nia.
Qed.

Lemma word_at_u32 block t :
  Forall is_byte block -> u32 (Js.word_at block t) = word_be block t.
Proof.
  intros Hb. assert (forall k, is_byte (nth k block 0)) as Hn.
  { intros k. destruct (Nat.lt_ge_cases k (length block)).
    - rewrite Forall_forall in Hb. by apply Hb, list_elem_of_In, nth_In.
    - rewrite nth_overflow by done. unfold is_byte. lia. }
  unfold Js.word_at, word_be. rewrite !u32_bor, !shl_byte by (done || lia).
  pose proof (Hn (t * 4 + 0)%nat). pose proof (Hn (t * 4 + 1)%nat).
  pose proof (Hn (t * 4 + 2)%nat). pose proof (Hn (t * 4 + 3)%nat).
  unfold is_byte in *. rewrite (u32_small (nth (t * 4 + 3) block 0)) by lia.
  generalize dependent (nth (t * 4 + 0) block 0). generalize dependent (nth (t * 4 + 1) block 0).
  generalize dependent (nth (t * 4 + 2) block 0). generalize dependent (nth (t * 4 + 3) block 0).
  intros b3 H3 b2 H2 b1 H1 b0 H0.
  rewrite (lor_disjoint b0 (b1 * 2 ^ 16) 24) by lia.
  replace (b0 * 2 ^ 24 + b1 * 2 ^ 16) with ((b0 * 2 ^ 8 + b1) * 2 ^ 16) by lia.
  rewrite (lor_disjoint _ (b2 * 2 ^ 8) 16) by lia.
  replace ((b0 * 2 ^ 8 + b1) * 2 ^ 16 + b2 * 2 ^ 8)
    with (((b0 * 2 ^ 8 + b1) * 2 ^ 8 + b2) * 2 ^ 8) by lia.
  rewrite (lor_disjoint _ b3 8) by lia. lia.
Qed.

Lemma schedule_u32 block :
  Forall is_byte block -> map u32 (Js.schedule block) = Spec.schedule (map (word_be block) (seq 0 16)).
Proof.
  intros Hb. unfold Js.schedule, Spec.schedule. generalize (seq 0 16). intros ts.
  induction (48%nat) as [|n IH].
  - cbn [Nat.iter nat_rect]. rewrite map_map. apply map_ext. intros t. by apply word_at_u32.
  - rewrite !Nat.iter_succ, map_app. cbn [map]. by rewrite next_w_u32, IH.
Qed.

Lemma K_words : map u32 K = K.
Proof. vm_compute. reflexivity. Qed.

Lemma rounds_u32 ks ws v :
  regs_u32 (fold_left (fun v kw => Js.round (fst kw) (snd kw) v) (combine ks ws) v) =
  fold_left (fun v kw => Spec.round (fst kw) (snd kw) v)
    (combine (map u32 ks) (map u32 ws)) (regs_u32 v).
Proof.
  revert ws v. induction ks as [|k ks IH]; intros [|w ws] v; try done.
  cbn [combine fold_left map fst snd]. by rewrite IH, round_u32.
Qed.

Lemma compress_u32 H block :
  Forall is_byte block -> regs_u32 (Js.compress H block) = Spec.compress (regs_u32 H) (map (word_be block) (seq 0 16)).
Proof.
  intros Hb. unfold Js.compress, Spec.compress. cbv zeta.
  rewrite <- (schedule_u32 block Hb), <- K_words, <- (rounds_u32 K (Js.schedule block) H), K_words.
  set (v := fold_left _ _ _). unfold Js.add_regs, regs_u32.
  cbn [ra rb rc rd re rf rg rh]. by autorewrite with u32rw.
Qed.

(** ** Padding and blocks *)

Lemma push_zeros_spec fuel l :
  (fuel <= 64)%nat -> ((length l + fuel) mod 64 = 56)%nat -> 
  exists n, push_zeros fuel l = l ++ repeat 0 n /\ ((length l + n) mod 64 = 56)%nat /\ (n <= fuel)%nat.
Proof.
  revert l. induction fuel as [|f IH]; intros l Hf Hmod.
  - exists 0%nat. simpl. rewrite app_nil_r. split; [done|]. split; [|lia].
    by rewrite Nat.add_0_r in *.
  - cbn [push_zeros]. destruct (Nat.eqb_spec (length l mod 64) 56) as [E|E].
    + exists 0%nat. simpl. rewrite app_nil_r, Nat.add_0_r. split; [done|]. split; [done|lia].
    + destruct (IH (l ++ [0])) as (n & Hn & Hm & Hle); [lia| |].
      { rewrite length_app. simpl. by replace (length l + 1 + f)%nat with (length l + S f)%nat by lia. }
      exists (S n). rewrite Hn, <- app_assoc. split; [done|].
      rewrite length_app in Hm. simpl in Hm. split; [|lia].
      by replace (length l + S n)%nat with (length l + 1 + n)%nat by lia.
Qed.

Lemma push_zeros_stable fuel fuel' l :
  (exists n, push_zeros fuel l = l ++ repeat 0 n /\ ((length l + n) mod 64 = 56)%nat) ->
  (fuel <= fuel')%nat -> push_zeros fuel' l = push_zeros fuel l.
Proof.
  revert fuel' l. induction fuel as [|f IH]; intros fuel' l (n & Hn & Hmod) Hle.
  - simpl in Hn. assert (n = 0%nat) as ->.
    { apply (f_equal length) in Hn. rewrite length_app, repeat_length in Hn. lia. }
    destruct fuel'; [done|]. cbn [push_zeros]. rewrite Nat.add_0_r in Hmod. by rewrite Hmod.
  - destruct fuel' as [|f']; [lia|]. cbn [push_zeros] in *.
    destruct (Nat.eqb_spec (length l mod 64) 56) as [E|E]; [done|].
    apply IH; [|lia]. destruct n as [|n].
    { by rewrite Nat.add_0_r in Hmod. }
    exists n. rewrite Hn, <- app_assoc, length_app. split; [done|]. simpl.
    by replace (length l + 1 + n)%nat with (length l + S n)%nat by lia.
Qed.

(** 64 rounds are enough for the padding loop. *)
Lemma push_zeros_64 l :
  exists n, push_zeros 64 l = l ++ repeat 0 n /\ ((length l + n) mod 64 = 56)%nat /\ (n < 64)%nat.
Proof.
  set (f := ((56 + 64 - length l mod 64) mod 64)%nat).
  assert (f < 64)%nat as Hf by (apply Nat.mod_upper_bound; lia).
  assert ((length l + f) mod 64 = 56)%nat as Hm.
  { subst f. pose proof (Nat.mod_upper_bound (length l) 64 ltac:(lia)).
    rewrite Nat.Div0.add_mod_idemp_r.
    rewrite (Nat.div_mod_eq (length l) 64) at 1.
    replace (64 * (length l / 64) + length l mod 64 + (56 + 64 - length l mod 64))%nat
      with (56 + (length l / 64 + 1) * 64)%nat by lia.
    rewrite Nat.Div0.mod_add. done. }
  destruct (push_zeros_spec f l ltac:(lia) Hm) as (n & Hn & Hmn & Hle).
  exists n. rewrite (push_zeros_stable f 64); [split; [done|split;[done|lia]]|eauto|lia].
Qed.

Lemma toBytes_bytes s : Forall is_byte (toBytes s).
Proof.
  induction s as [|c s IH]; [constructor|]. cbn [toBytes]. cbv zeta. pose proof (N_ascii_bounded c).
  set (n := Z.of_N (N_of_ascii c)). assert (0 <= n < 256) as Hn by lia. clearbody n.
  pose proof (Z.mod_pos_bound n 64 ltac:(lia)). pose proof (Z.div_lt_upper_bound n 64 4 ltac:(lia) ltac:(lia)).
  pose proof (Z.div_pos n 64 ltac:(lia) ltac:(lia)). unfold is_byte in *.
  destruct (n <? 128); repeat constructor; lia || done.
Qed.

Lemma pad_bytes l : Forall is_byte l -> Forall is_byte (pad l).
Proof.
  intros Hl. unfold pad. destruct (push_zeros_64 (l ++ [0x80])) as (n & -> & _).
  repeat apply Forall_app_2; try done.
  - constructor; [|constructor]. unfold is_byte. lia.
  - apply Forall_forall. intros x Hx%list_elem_of_In%repeat_spec. subst. unfold is_byte. lia.
  - apply Forall_forall. intros x Hx%list_elem_of_In%in_map_iff.
    destruct Hx as (i & <- & _). unfold len_byte, is_byte.
    rewrite (Z.land_ones _ 8) by lia. change (2 ^ 8) with 256.
    apply Z.mod_pos_bound. lia.
Qed.

Lemma blocks_bytes fuel l : Forall is_byte l -> Forall (Forall is_byte) (blocks fuel l).
Proof.
  revert l. induction fuel as [|f IH]; intros l Hl; [constructor|]. cbn [blocks].
  destruct l as [|x l]; [constructor|]. constructor.
  - by apply Forall_take.
  - by apply IH, Forall_drop.
Qed.

Lemma blocks_concat fuel l : (length l <= fuel)%nat -> concat (blocks fuel l) = l.
Proof.
  revert l. induction fuel as [|f IH]; intros [|x l] Hf; try done; [simpl in Hf; lia|].
  cbn [blocks concat]. rewrite IH; [apply take_drop|]. rewrite length_drop. simpl in *. lia.
Qed.

Lemma blocks_full fuel l m :
  length l = (64 * m)%nat -> (length l <= fuel)%nat ->
  Forall (fun b => length b = 64%nat) (blocks fuel l).
Proof.
  revert l m. induction fuel as [|f IH]; intros l m Hl Hf; [constructor|]. cbn [blocks].
  destruct l as [|x l]; [constructor|]. destruct m as [|m]; [simpl in Hl; lia|].
  constructor.
  - rewrite length_take. lia.
  - apply (IH _ m); rewrite length_drop; simpl in *; lia.
Qed.

(** ** Constants *)

Definition is_prime (n : nat) : bool :=
  (2 <=? n)%nat && forallb (fun d => negb (n mod d =? 0)%nat) (seq 2 (n - 2)).

Definition primes (n : nat) : list Z :=
  map Z.of_nat (take n (List.filter is_prime (seq 0 320))).

Definition regs_list (v : regs) : list Z :=
  [ra v; rb v; rc v; rd v; re v; rf v; rg v; rh v].

(** [k] is the first 32 bits of the fractional part of the [e]-th root of [p]. *)
Definition root_word (e p k : Z) : Prop :=
  0 <= k < 2 ^ 32 /\ exists i, let r := i * 2 ^ 32 + k in
    r ^ e <= p * 2 ^ (32 * e) < (r + 1) ^ e.

Definition root_wordb (e p k : Z) : bool :=
  (0 <=? k) && (k <? 2 ^ 32) &&
  existsb (fun i => let r := Z.of_nat i * 2 ^ 32 + k in
    (r ^ e <=? p * 2 ^ (32 * e)) && (p * 2 ^ (32 * e) <? (r + 1) ^ e)) (seq 1 20).

Lemma root_words e ps ks :
  length ps = length ks -> forallb (fun pk => root_wordb e pk.1 pk.2) (zip ps ks) = true ->
  Forall2 (root_word e) ps ks.
Proof.
  revert ks. induction ps as [|p ps IH]; intros [|k ks] Hl H; try done.
  cbn [zip zip_with forallb fst snd] in H. apply andb_true_iff in H as [Hk H]. constructor; [|auto].
  unfold root_wordb in Hk. apply andb_true_iff in Hk as [Hr Hk].
  apply existsb_exists in Hk as (i & _ & Hi). cbv zeta in Hi. breflect.
  split; [lia|]. exists (Z.of_nat i). cbv zeta. lia.
Qed.

Lemma K_roots : Forall2 (root_word 3) (primes 64) K.
Proof. apply root_words; vm_compute; reflexivity. Qed.

Lemma H0_roots : Forall2 (root_word 2) (primes 8) (regs_list H0).
Proof. apply root_words; vm_compute; reflexivity. Qed.

(** ** Bits *)

Definition of_bytes (l : list Z) : list bool := concat (map (Spec.bits 8) l).

Lemma num_app a b : Spec.num (a ++ b) = Spec.num a * 2 ^ Z.of_nat (length b) + Spec.num b.
Proof.
  unfold Spec.num. rewrite fold_left_app. generalize (fold_left (fun a b => 2 * a + Z.b2z b) a 0). clear a.
  assert (forall x, fold_left (fun a b => 2 * a + Z.b2z b) b x =
    x * 2 ^ Z.of_nat (length b) + fold_left (fun a b => 2 * a + Z.b2z b) b 0) as H; [|exact H].
  induction b as [|c b IH]; intros x; [cbn; lia|]. cbn [fold_left length].
  rewrite IH, (IH (2 * 0 + Z.b2z c)), Nat2Z.inj_succ, Z.pow_succ_r by lia. lia.
Qed.

Lemma bits_S n x : Spec.bits (S n) x = Spec.bits n (x / 2) ++ [Z.odd x].
Proof.
  unfold Spec.bits. cbn [seq rev]. rewrite map_app, <- seq_shift, <- map_rev, map_map. cbn [map].
  rewrite Z.bit0_odd. f_equal. apply map_ext. intros i. rewrite Z.div2_bits by lia. f_equal. lia.
Qed.

Lemma length_bits n x : length (Spec.bits n x) = n.
Proof. unfold Spec.bits. by rewrite length_map, length_rev, length_seq. Qed.

Lemma num_bits n x : Spec.num (Spec.bits n x) = x mod 2 ^ Z.of_nat n.
Proof.
  revert x. induction n as [|n IH]; intros x; [cbn; by rewrite Z.mod_1_r|].
  rewrite bits_S, num_app, IH, Nat2Z.inj_succ, Z.pow_succ_r by lia.
  change (Spec.num [Z.odd x]) with (Z.b2z (Z.odd x)). change (2 ^ Z.of_nat (length [Z.odd x])) with 2.
  rewrite (Z.rem_mul_r x 2), Zmod_odd by lia. destruct (Z.odd x); cbn [Z.b2z]; lia.
Qed.

Lemma num_byte b : is_byte b -> Spec.num (Spec.bits 8 b) = b.
Proof. intros Hb. rewrite num_bits. by apply Z.mod_small. Qed.

Lemma of_bytes_app a b : of_bytes (a ++ b) = of_bytes a ++ of_bytes b.
Proof. unfold of_bytes. by rewrite map_app, concat_app. Qed.

Lemma length_of_bytes l : length (of_bytes l) = (8 * length l)%nat.
Proof.
  induction l as [|b l IH]; [done|]. change (of_bytes (b :: l)) with (Spec.bits 8 b ++ of_bytes l).
  rewrite length_app, IH, length_bits. simpl. lia.
Qed.

Lemma cut_of_bytes a n l : (n + a <= length l)%nat ->
  take (8 * a) (drop (8 * n) (of_bytes l)) = of_bytes (take a (drop n l)).
Proof.
  intros Hl. rewrite <- (take_drop n l) at 1. rewrite <- (take_drop a (drop n l)) at 1.
  rewrite !of_bytes_app. rewrite drop_app_length' by (rewrite length_of_bytes, length_take; lia).
  rewrite take_app_length'; [done|]. rewrite length_of_bytes, length_take, length_drop. lia.
Qed.

Lemma utf8_bytes s : Spec.utf8 s = of_bytes (toBytes s).
Proof.
  induction s as [|c s IH]; [done|]. cbn [Spec.utf8 toBytes]. cbv zeta. rewrite IH.
  assert (Spec.utf8_char (Z.of_N (N_of_ascii c)) =
    of_bytes (let n := Z.of_N (N_of_ascii c) in if n <? 128 then [n] else [192 + n / 64; 128 + n mod 64])) as ->.
  { destruct c as [[] [] [] [] [] [] [] []]; vm_compute; reflexivity. }
  cbv zeta. rewrite <- of_bytes_app. by destruct (_ <? _).
Qed.

(** *** Padding *)

Lemma of_zeros n : of_bytes (repeat 0 n) = repeat false (8 * n).
Proof.
  induction n as [|n IH]; [done|]. change (of_bytes (repeat 0 (S n))) with (repeat false 8 ++ of_bytes (repeat 0 n)).
  rewrite IH, <- repeat_app. f_equal. lia.
Qed.

Lemma len_bytes l : of_bytes (map (len_byte l) [7; 6; 5; 4; 3; 2; 1; 0]%nat) = Spec.bits 64 l.
Proof.
  assert (forall i, Spec.bits 8 (len_byte l i) = map (fun j => Z.testbit l (Z.of_nat (8 * i + j))) (rev (seq 0 8))) as H.
  { intros i. unfold Spec.bits. apply map_ext_in. intros j Hj. apply in_rev, in_seq in Hj.
    unfold len_byte. rewrite (Z.land_ones _ 8), Z.mod_pow2_bits_low by lia.
    rewrite Z.div_pow2_bits by lia. f_equal. lia. }
  unfold of_bytes. rewrite map_map. erewrite map_ext by exact H. reflexivity.
Qed.

Lemma pad_bits l : of_bytes (pad l) = Spec.pad (of_bytes l).
Proof.
  unfold pad, Spec.pad. destruct (push_zeros_64 (l ++ [0x80])) as (n & -> & Hm & Hn).
  rewrite !of_bytes_app, of_zeros, length_of_bytes, <- !app_assoc. f_equal.
  change (of_bytes [0x80]) with ([true] ++ repeat false 7). rewrite <- app_assoc. f_equal.
  rewrite app_assoc, <- repeat_app. f_equal.
  - f_equal. rewrite length_app in Hm. cbn [length] in Hm. apply Nat2Z.inj. rewrite Z2Nat.id by (apply Z.mod_pos_bound; lia).
    apply (Z.mod_unique_pos _ _ (- Z.of_nat ((length l + 1 + n) / 64) + 0)); [lia|].
    pose proof (Nat.div_mod_eq (length l + 1 + n) 64). lia.
  - rewrite <- len_bytes. do 3 f_equal. lia.
Qed.

(** *** Blocks *)

Lemma word_bits block t : Forall is_byte block -> (4 * t + 4 <= length block)%nat ->
  Spec.num (of_bytes (take 4 (drop (4 * t) block))) = word_be block t.
Proof.
  intros Hb Hl. unfold word_be.
  assert (forall k, (k < 4)%nat -> is_byte (nth (t * 4 + k) block 0)) as Hn.
  { intros k Hk. rewrite Forall_forall in Hb. apply Hb, list_elem_of_In, nth_In. lia. }
  assert (take 4 (drop (4 * t) block) = map (fun k => nth (t * 4 + k) block 0) [0; 1; 2; 3]%nat) as ->.
  { apply (nth_ext _ _ 0 0); [rewrite length_take, length_drop; cbn [map length]; lia|].
    intros k Hk. rewrite length_take, length_drop in Hk.
    rewrite nth_firstn, nth_skipn. destruct (Nat.ltb_spec k 4); [|lia].
    replace (4 * t + k)%nat with (t * 4 + k)%nat by lia. destruct k as [|[|[|[|]]]]; [done..|lia]. }
  pose proof (Hn 0%nat). pose proof (Hn 1%nat). pose proof (Hn 2%nat). pose proof (Hn 3%nat).
  unfold of_bytes. cbn [map concat]. rewrite app_nil_r, !num_app, !length_app, !length_bits, !num_byte by auto with lia. lia.
Qed.

Lemma blocks_seq fuel l m : length l = (64 * m)%nat -> (m <= fuel)%nat ->
  blocks fuel l = map (fun i => take 64 (drop (64 * i) l)) (seq 0 m).
Proof.
  revert l m. induction fuel as [|f IH]; intros l m Hl Hf; [by destruct m; [|lia]|].
  destruct m as [|m]; [by destruct l|]. cbn [blocks]. destruct l as [|x l]; [simpl in Hl; lia|].
  set (l0 := x :: l) in *. cbn [seq map]. rewrite Nat.mul_0_r, drop_0. f_equal.
  rewrite (IH (drop 64 l0) m) by (rewrite ?length_drop; lia). rewrite <- seq_shift, map_map. apply map_ext.
  intros i. rewrite drop_drop. do 2 f_equal. lia.
Qed.

Lemma spec_block p i : Forall is_byte p -> (64 * i + 64 <= length p)%nat ->
  Spec.block (of_bytes p) i = map (word_be (take 64 (drop (64 * i) p))) (seq 0 16).
Proof.
  intros Hp Hl. unfold Spec.block. apply map_ext_in. intros t Ht%in_seq.
  rewrite <- word_bits.
  - rewrite skipn_firstn_comm, drop_drop, take_take. replace (4 `min` (64 - 4 * t))%nat with 4%nat by lia.
    rewrite <- cut_of_bytes by lia. f_equal. change 32%nat with (8 * 4)%nat. do 2 f_equal. lia.
  - by apply Forall_take, Forall_drop.
  - rewrite length_take, length_drop. lia.
Qed.

Lemma digest_u32 l : Forall is_byte l -> regs_u32 (Js.digest l) = Spec.digest (of_bytes l).
Proof.
  intros Hl. unfold Js.digest, Spec.digest. cbv zeta. rewrite <- pad_bits. pose proof (pad_bytes l Hl) as Hp.
  destruct (push_zeros_64 (l ++ [0x80])) as (n & Hn & Hm & _).
  assert (exists m, length (pad l) = (64 * m)%nat) as [m Hlen].
  { exists (length (pad l) / 64)%nat. rewrite (Nat.div_mod_eq (length (pad l)) 64) at 1.
    enough (length (pad l) mod 64 = 0)%nat by lia. unfold pad. rewrite Hn, length_app, length_map, length_app, repeat_length.
    change (length [7; 6; 5; 4; 3; 2; 1; 0]%nat) with 8%nat. by rewrite <- Nat.Div0.add_mod_idemp_l, Hm. }
  rewrite (blocks_seq _ _ m Hlen) by lia. rewrite length_of_bytes, Hlen.
  replace (8 * (64 * m) / 512)%nat with m by (apply (Nat.div_unique_exact _ 512); lia).
  change H0 with (regs_u32 H0) at 2. generalize H0. intros H.
  assert (forall i, In i (seq 0 m) -> (64 * i + 64 <= length (pad l))%nat) as Hi by (intros i Hi%in_seq; lia).
  revert H Hi. generalize (seq 0 m). intros ids H. revert H. induction ids as [|i ids IH]; intros H Hi; [done|]. cbn [map fold_left].
  rewrite IH by (intros j Hj; apply Hi; by right). f_equal. rewrite spec_block by (done || apply Hi; by left).
  by apply compress_u32, Forall_take, Forall_drop.
Qed.

(** *** Hexadecimal *)

Fixpoint nibbles (k : nat) (n : Z) (acc : string) : string :=
  match k with O => acc | S k' => nibbles k' (n / 16) (String (hex_digit (n mod 16)) acc) end.

Lemma hex_of_nibbles f n acc : 0 <= n -> exists k, hex_of (S f) n acc = nibbles k n acc /\ (1 <= k <= S f)%nat /\
  (n < 16 ^ Z.of_nat (S f) -> n < 16 ^ Z.of_nat k).
Proof.
  revert n acc. induction f as [|f IH]; intros n acc Hn.
  - exists 1%nat. cbn [hex_of nibbles]. split; [by destruct (n <? 16)|]. split; [lia|done].
  - cbn [hex_of]. destruct (Z.ltb_spec n 16).
    + exists 1%nat. split; [done|]. split; [lia|]. intros _. cbn. lia.
    + destruct (IH (n / 16) (String (hex_digit (n mod 16)) acc)) as (k & Hk & Hle & Hlt); [apply Z.div_pos; lia|].
      exists (S k). split; [exact Hk|]. split; [lia|]. rewrite (Nat2Z.inj_succ (S f)), (Nat2Z.inj_succ k), !Z.pow_succ_r by lia.
      intros Hb. assert (n / 16 < 16 ^ Z.of_nat (S f)) as Hb' by (apply Z.div_lt_upper_bound; lia). specialize (Hlt Hb').
      pose proof (Z.div_mod n 16 ltac:(lia)). pose proof (Z.mod_pos_bound n 16 ltac:(lia)). lia.
Qed.

Lemma digit_nth x : 0 <= x < 16 -> hex_digit x = nth (Z.to_nat x)
  ["0"; "1"; "2"; "3"; "4"; "5"; "6"; "7"; "8"; "9"; "a"; "b"; "c"; "d"; "e"; "f"]%char "0"%char.
Proof.
  intros Hx. assert (x = 0 \/ x = 1 \/ x = 2 \/ x = 3 \/ x = 4 \/ x = 5 \/ x = 6 \/ x = 7 \/ x = 8 \/ x = 9 \/ x = 10 \/
    x = 11 \/ x = 12 \/ x = 13 \/ x = 14 \/ x = 15) as H by lia.
  repeat (destruct H as [->|H]; [reflexivity|]). by subst.
Qed.

(** Eight digits are written whatever the number of significant ones. *)
Lemma nibbles_pad k j n acc : 0 <= n < 16 ^ Z.of_nat k -> nibbles (k + j) n acc = nibbles j 0 (nibbles k n acc).
Proof.
  revert n acc. induction k as [|k IH]; intros n acc Hn.
  - cbn in Hn. replace n with 0 by lia. done.
  - cbn [Nat.add nibbles]. apply IH. rewrite Nat2Z.inj_succ, Z.pow_succ_r in Hn by lia.
    split; [apply Z.div_pos; lia|apply Z.div_lt_upper_bound; lia].
Qed.

Lemma hex_word_nibbles n : 0 <= n -> Spec.hex_word n = nibbles 8 n "".
Proof.
  intros Hn. unfold Spec.hex_word. cbn [seq rev app foldr nibbles].
  change (16 ^ Z.of_nat 0) with 1. rewrite Z.div_1_r.
  rewrite <- !digit_nth by (apply Z.mod_pos_bound; lia). rewrite !Z.div_div by lia. reflexivity.
Qed.

Lemma hex8_word x : hex8 x = Spec.hex_word (u32 x).
Proof.
  pose proof (u32_range x) as Hu. rewrite hex_word_nibbles by lia. unfold hex8. set (n := u32 x) in *. clearbody n.
  destruct (hex_of_nibbles 7 n "" ltac:(lia)) as (k & Hk & Hle & Hlt). cbv zeta. rewrite Hk.
  specialize (Hlt ltac:(change (16 ^ Z.of_nat 8) with (2 ^ 32); lia)).
  pose proof (nibbles_pad k (8 - k) n "" ltac:(lia)) as Hd. replace (k + (8 - k))%nat with 8%nat in Hd by lia. rewrite Hd.
  clear Hd Hk Hlt.
  do 9 (destruct k as [|k]; [reflexivity || lia|]). lia.
Qed.

(** ** Theorems *)

(** C38: the in-page SHA-256 on JavaScript's signed 32-bit operations computes SHA-256 as
    FIPS 180-4 defines it, from the UTF-8 bits of the text through the padding formula,
    the parsing into blocks and the rounds to the sixty-four nibbles, for every text,
    multi-block ones included; the round constants and the initial state are the
    leading 32 fraction bits of the cube and square roots of the first primes. *)
Theorem sha256_refines s :
  sha256Hex s = Spec.sha256 s /\
  Forall2 (root_word 3) (primes 64) K /\ Forall2 (root_word 2) (primes 8) (regs_list H0).
Proof.
  split; [|exact (conj K_roots H0_roots)].
  unfold sha256Hex, Spec.sha256. rewrite utf8_bytes, <- digest_u32 by apply toBytes_bytes.
  unfold regs_hex, Spec.hex, regs_u32. cbn [map foldr ra rb rc rd re rf rg rh].
  by rewrite append_nil_r, !hex8_word.
Qed.

(** padding: the message, 0x80, fewer than 64 zero bytes, and the bit length
    in eight big-endian bytes; the zero-filling loop ends, the result is a whole
    number of 64-byte blocks, and the block loop visits all of it. *)
Theorem pad_spec l :
  (exists n, (n < 64)%nat /\
     pad l = l ++ [0x80] ++ repeat 0 n ++
             map (len_byte (Z.of_nat (length l) * 8)) [7; 6; 5; 4; 3; 2; 1; 0]%nat) /\
  (length (pad l) mod 64 = 0)%nat /\
  concat (blocks (length (pad l)) (pad l)) = pad l /\
  Forall (fun b => length b = 64%nat) (blocks (length (pad l)) (pad l)).
Proof.
  destruct (push_zeros_64 (l ++ [0x80])) as (n & Hn & Hmod & Hlt).
  assert (length (pad l) mod 64 = 0)%nat as Hlen.
  { unfold pad. rewrite Hn, length_app, length_map, length_app, repeat_length.
    change (length [7; 6; 5; 4; 3; 2; 1; 0]%nat) with 8%nat.
    rewrite <- Nat.Div0.add_mod_idemp_l, Hmod. done. }
  split; [|split; [done|split; [by apply blocks_concat|]]].
  - exists n. split; [done|]. unfold pad. by rewrite Hn, <- !app_assoc.
  - apply (blocks_full _ _ (length (pad l) / 64)); [|done].
    rewrite (Nat.div_mod_eq (length (pad l)) 64) at 1. lia.
Qed.

Example sha256_abc :
  sha256Hex "abc" = "ba7816bf8f01cfea414140de5dae2223b00361a396177a9cb410ff61f20015ad".
Proof. vm_compute. reflexivity. Qed.

Example sha256_empty :
  sha256Hex "" = "e3b0c44298fc1c149afbf4c8996fb92427ae41e4649b934ca495991b7852b855".
Proof. vm_compute. reflexivity. Qed.

(** A text whose padding takes a second block. *)
Example sha256_long :
  sha256Hex ("abcdbcdecdefdefgefghfghighijhijkijkljklmklmnlmnomnopnopq") =
    "248d6a61d20638b8e5c026930c3e6039a33ce45964ff2167f6ecedd419db06c1".
Proof. vm_compute. reflexivity. Qed.

(** A character above 127 is hashed as its two UTF-8 bytes. *)
Example sha256_e_acute : sha256Hex (String (ascii_of_N 233) "") =
  "4a99557e4033c3539de2eb65472017cad5f9557f7a0625a09f1c3f6e2ba69c4c".
Proof. vm_compute. reflexivity. Qed.
