(* ===== verification/Json.v ===== *)
(** * JSON text

    [JSON.stringify] and [JSON.parse], which the modules use to keep values in
    the stores and which [stableStringify] uses for strings and numbers.
    Parsing undoes printing ([json_round_trip]) on the values the modules
    store: no [undefined], integer numbers, distinct member names. *)

From Stdlib Require Import QArith Qround Qabs.
From S2P Require Import Prelude JsVal Uri Sha256.
#[local] Open Scope Z_scope.

(** ** Strings and numbers *)

Definition dquote : ascii := ascii_of_N 34.
Definition backslash : ascii := ascii_of_N 92.

Definition esc2 (c : ascii) : string := String backslash (String c EmptyString).

(** One character inside a JSON string. *)
Definition json_char (c : ascii) : string :=
  let n := N_of_ascii c in
  if (n =? 34)%N then esc2 dquote else
  if (n =? 92)%N then esc2 backslash else
  if (n =? 8)%N then esc2 "b"%char else
  if (n =? 12)%N then esc2 "f"%char else
  if (n =? 10)%N then esc2 "n"%char else
  if (n =? 13)%N then esc2 "r"%char else
  if (n =? 9)%N then esc2 "t"%char else
  if (n <? 32)%N then
    String backslash ("u00" +:+
      String (hex_digit (Z.of_N n / 16)) (String (hex_digit (Z.of_N n mod 16)) EmptyString))
  else String c EmptyString.

Fixpoint json_chars (s : string) : string :=
  match s with EmptyString => "" | String c s' => json_char c +:+ json_chars s' end.

(** [JSON.stringify] of a string and of a number *)
Definition json_string (s : string) : string :=
  String dquote (json_chars s +:+ String dquote EmptyString).

Definition json_num (n : num) : string :=
  match n with Fin q => num_to_string n | _ => "null" end.

(** The value of a lower-case hexadecimal digit. *)
Definition unhex (c : ascii) : N :=
  let n := N_of_ascii c in if (n <=? 57)%N then (n - 48)%N else (n - 87)%N.

(** Reading one JSON string character back. *)
Definition unescape (s : string) : option (ascii * string) :=
  match s with
  | EmptyString => None
  | String c t =>
    if (N_of_ascii c =? 34)%N then None else
    if (N_of_ascii c =? 92)%N then
      match t with
      | String "u" (String _ (String _ (String h (String l r)))) =>
        Some (ascii_of_N (unhex h * 16 + unhex l), r)
      | String "b" r => Some (ascii_of_N 8, r)
      | String "f" r => Some (ascii_of_N 12, r)
      | String "n" r => Some (ascii_of_N 10, r)
      | String "r" r => Some (ascii_of_N 13, r)
      | String "t" r => Some (ascii_of_N 9, r)
      | String d r => Some (d, r)
      | EmptyString => None
      end
    else Some (c, t)
  end.

Lemma unescape_json_char c t : unescape (json_char c +:+ t) = Some (c, t).
Proof. destruct c as [[] [] [] [] [] [] [] []]; reflexivity. Qed.

Lemma json_chars_inj s s' t t' :
  json_chars s +:+ String dquote t = json_chars s' +:+ String dquote t' -> s = s' /\ t = t'.
Proof.
  revert s'. induction s as [|c s IH]; intros [|c' s'] H; simpl in H;
    rewrite ?append_assoc in H; apply (f_equal unescape) in H as Hu;
    rewrite ?unescape_json_char in Hu; try (by vm_compute in Hu).
  - by injection H as ->.
  - injection Hu as -> H'. by destruct (IH _ H') as [-> ->].
Qed.

(** A member name or a string is never confused with what follows it. *)
Lemma json_string_inj s s' t t' :
  json_string s +:+ t = json_string s' +:+ t' -> s = s' /\ t = t'.
Proof.
  unfold json_string. rewrite !append_cons, !append_assoc, !append_cons.
  intros [=]. by apply json_chars_inj.
Qed.

(** ** [JSON.stringify] *)

(** [None] is [undefined]: [null] in an array, no member in an object. *)
Fixpoint json_stringify (v : val) : option string :=
  match v with
  | VUndef => None
  | VNull => Some "null"
  | VBool true => Some "true"
  | VBool false => Some "false"
  | VNum n => Some (json_num n)
  | VStr s => Some (json_string s)
  | VArr l => Some ("[" +:+ join "," (map (fun x => default "null" (json_stringify x)) l) +:+ "]")
  | VObj o =>
    Some ("{" +:+ join "," (omap (fun kv => option_map (fun t => json_string (fst kv) +:+ ":" +:+ t)
                                            (json_stringify (snd kv))) o) +:+ "}")
  end.

(** ** [JSON.parse] *)

Definition is_json_space (c : ascii) : bool :=
  let n := N_of_ascii c in ((n =? 32) || (n =? 9) || (n =? 10) || (n =? 13))%N.

Fixpoint jtrim (s : string) : string :=
  match s with
  | String c s' => if is_json_space c then jtrim s' else s
  | EmptyString => EmptyString
  end.

(** One character of a string literal; [None] inside is the closing quote. *)
Definition take_char (s : string) : option (option ascii * string) :=
  match s with
  | EmptyString => None
  | String c t =>
    let n := N_of_ascii c in
    if (n =? 34)%N then Some (None, t) else
    if (n <? 32)%N then None else
    if negb (n =? 92)%N then Some (Some c, t) else
    match t with
    | String "u" (String "0" (String "0" (String h (String l r)))) =>
      option_map (fun k => (Some (ascii_of_N k), r)) (hex2 h l)
    | String "b" r => Some (Some (ascii_of_N 8), r)
    | String "f" r => Some (Some (ascii_of_N 12), r)
    | String "n" r => Some (Some (ascii_of_N 10), r)
    | String "r" r => Some (Some (ascii_of_N 13), r)
    | String "t" r => Some (Some (ascii_of_N 9), r)
    | String "/" r => Some (Some "/"%char, r)
    | String d r => if (N_of_ascii d =? 34)%N || (N_of_ascii d =? 92)%N then Some (Some d, r) else None
    | EmptyString => None
    end
  end.

(** The rest of a string literal after its opening quote. *)
Fixpoint parse_chars (fuel : nat) (s : string) : option (string * string) :=
  match fuel with
  | O => None
  | S f =>
    match take_char s with
    | Some (None, t) => Some ("", t)
    | Some (Some c, t) => option_map (fun p => (String c (fst p), snd p)) (parse_chars f t)
    | None => None
    end
  end.

Definition num_char (c : ascii) : bool :=
  existsb (Ascii.eqb c) ["0"; "1"; "2"; "3"; "4"; "5"; "6"; "7"; "8"; "9"; "-"; "+"; "."; "e"; "E"]%char.

Fixpoint span_num (s : string) : string * string :=
  match s with
  | String c t => if num_char c then let '(a, b) := span_num t in (String c a, b) else ("", s)
  | EmptyString => ("", "")
  end.

(** The grammar of a number without its sign. *)
Definition number_ok (s : string) : bool :=
  let '(_, n, r) := take_digits s 0 0 in
  negb (Nat.eqb n 0) && (Nat.eqb n 1 || negb (starts_with "0" s)) &&
  let '(okf, r1) := match r with
                    | String "." r' => let '(_, n', r'') := take_digits r' 0 0 in (negb (Nat.eqb n' 0), r'')
                    | _ => (true, r)
                    end in
  okf &&
  match r1 with
  | EmptyString => true
  | String c r2 =>
    (Ascii.eqb c "e" || Ascii.eqb c "E") &&
    let '(_, n', r3) := take_digits (snd (take_sign r2)) 0 0 in negb (Nat.eqb n' 0) && (r3 =s "")
  end.

Definition parse_number (s : string) : option num :=
  match s with
  | String "-" t => if number_ok t then Some (num_neg (parse_unsigned t)) else None
  | _ => if number_ok s then Some (parse_unsigned s) else None
  end.

(** A member: a name met again keeps its place and takes the last value. *)
Fixpoint obj_put (k : string) (v : val) (o : list (string * val)) : list (string * val) :=
  match o with
  | [] => [(k, v)]
  | (k', v') :: o' => if k =s k' then (k, v) :: o' else (k', v') :: obj_put k v o'
  end.

(** A quoted name. *)
Definition parse_name (fuel : nat) (s : string) : option (string * string) :=
  match jtrim s with
  | String c t => if Ascii.eqb c dquote then parse_chars fuel t else None
  | EmptyString => None
  end.

Definition lit (w : string) (v : val) (s : string) : option (val * string) :=
  if starts_with w s then Some (v, sdrop (String.length w) s) else None.

Fixpoint parse_value (fuel : nat) (s : string) : option (val * string) :=
  match fuel with
  | O => None
  | S f =>
    match jtrim s with
    | EmptyString => None
    | String c t =>
      if Ascii.eqb c dquote then option_map (fun p => (VStr (fst p), snd p)) (parse_chars f t) else
      match c with
      | "["%char =>
        match jtrim t with
        | String "]" t' => Some (VArr [], t')
        | _ => option_map (fun p => (VArr (fst p), snd p)) (parse_elems f t)
        end
      | "{"%char =>
        match jtrim t with
        | String "}" t' => Some (VObj [], t')
        | _ => option_map (fun p => (VObj (fst p), snd p)) (parse_members f [] t)
        end
      | "n"%char => lit "null" VNull (String c t)
      | "t"%char => lit "true" (VBool true) (String c t)
      | "f"%char => lit "false" (VBool false) (String c t)
      | _ =>
        let '(a, b) := span_num (String c t) in
        option_map (fun n => (VNum n, b)) (parse_number a)
      end
    end
  end
with parse_elems (fuel : nat) (s : string) : option (list val * string) :=
  match fuel with
  | O => None
  | S f =>
    match parse_value f s with
    | Some (v, t) =>
      match jtrim t with
      | String "," t' => option_map (fun p => (v :: fst p, snd p)) (parse_elems f t')
      | String "]" t' => Some ([v], t')
      | _ => None
      end
    | None => None
    end
  end
with parse_members (fuel : nat) (o : list (string * val)) (s : string)
    : option (list (string * val) * string) :=
  match fuel with
  | O => None
  | S f =>
    match parse_name f s with
    | Some (k, t) =>
      match jtrim t with
      | String ":" t' =>
        match parse_value f t' with
        | Some (v, t'') =>
          match jtrim t'' with
          | String "," r => parse_members f (obj_put k v o) r
          | String "}" r => Some (obj_put k v o, r)
          | _ => None
          end
        | None => None
        end
      | _ => None
      end
    | None => None
    end
  end.

(** [JSON.parse(s)]; [None] where it throws. *)
Definition json_parse (s : string) : option val :=
  match parse_value (S (String.length s)) s with
  | Some (v, r) => if jtrim r =s "" then Some v else None
  | None => None
  end.

Example json_parse_ex :
  let q := String dquote "" in
  json_parse (" { " +:+ q +:+ "a" +:+ q +:+ " : [1, -2.5e1 ,null], " +:+ q +:+ "b" +:+ q +:+ ":{}} ") =
    Some (VObj [("a", VArr [vint 1; VNum (Fin (-25 # 1)); VNull]); ("b", VObj [])]) /\
  json_parse "[1,]" = None /\ json_parse "01" = None /\ json_parse "" = None /\ json_parse "tru" = None.
Proof. repeat split. Qed.

(** ** Printing then parsing *)

(** Values [JSON.stringify] keeps whole, with integer numbers. *)
Fixpoint distinct (l : list string) : bool :=
  match l with [] => true | k :: l' => negb (mem_str k l') && distinct l' end.

Fixpoint json_ok (v : val) : bool :=
  match v with
  | VUndef => false
  | VNum (Fin q) => (Qden q =? 1)%positive
  | VNum _ => false
  | VArr l => forallb json_ok l
  | VObj o => distinct (map fst o) && forallb (fun kv => json_ok (snd kv)) o
  | _ => true
  end.

(** Induction over values, through arrays and members. *)
Section ValInd.
Variable P : val -> Prop.
Hypothesis HU : P VUndef.
Hypothesis HN : P VNull.
Hypothesis HB : forall b, P (VBool b).
Hypothesis HZ : forall n, P (VNum n).
Hypothesis HS : forall s, P (VStr s).
Hypothesis HA : forall l, Forall P l -> P (VArr l).
Hypothesis HO : forall o, Forall (fun kv => P (snd kv)) o -> P (VObj o).

Fixpoint val_ind' (v : val) : P v :=
  match v with
  | VUndef => HU
  | VNull => HN
  | VBool b => HB b
  | VNum n => HZ n
  | VStr s => HS s
  | VArr l =>
    HA l ((fix go (l : list val) : Forall P l :=
             match l with [] => List.Forall_nil P | x :: l' => @List.Forall_cons _ P x l' (val_ind' x) (go l') end) l)
  | VObj o =>
    HO o ((fix go (o : list (string * val)) : Forall (fun kv => P (snd kv)) o :=
             match o with
             | [] => List.Forall_nil _
             | x :: o' => @List.Forall_cons _ (fun kv => P (snd kv)) x o' (val_ind' (snd x)) (go o')
             end) o)
  end.
End ValInd.

Lemma string_length_app (a b : string) : String.length (a +:+ b) = (String.length a + String.length b)%nat.
Proof. induction a as [|c a IH]; [done|]. rewrite append_cons. simpl. by rewrite IH. Qed.

Lemma take_char_json c t : take_char (json_char c +:+ t) = Some (Some c, t).
Proof. destruct c as [[] [] [] [] [] [] [] []]; reflexivity. Qed.

Lemma json_char_length c : (1 <= String.length (json_char c))%nat.
Proof. destruct c as [[] [] [] [] [] [] [] []]; simpl; lia. Qed.

Lemma parse_chars_json s f t : (String.length (json_chars s) < f)%nat ->
  parse_chars f (json_chars s +:+ String dquote t) = Some (s, t).
Proof.
  revert f. induction s as [|c s IH]; intros [|f] Hf; simpl in Hf; try lia; cbn [parse_chars json_chars].
  - reflexivity.
  - rewrite append_assoc, take_char_json. rewrite string_length_app in Hf.
    pose proof (json_char_length c). by rewrite IH by lia.
Qed.

(** *** Integers *)

Definition delimited (r : string) : bool :=
  match r with EmptyString => true | String c _ => negb (num_char c) end.

Lemma span_num_app a r : (forall c, no_char c a = false -> num_char c = true) -> delimited r = true ->
  span_num (a +:+ r) = (a, r).
Proof.
  intros Ha Hr. induction a as [|c a IH].
  - destruct r as [|c r]; [done|]. simpl in *. breflect.
    match goal with H : num_char c = false |- _ => by rewrite H end.
  - rewrite append_cons. cbn [span_num]. rewrite (Ha c) by (simpl; by rewrite Ascii.eqb_refl).
    rewrite IH; [done|]. intros d Hd. apply Ha. simpl. by rewrite Hd, andb_false_r.
Qed.

(** A text that is digits only. *)
Lemma take_digits_all s a n v k : take_digits s a n = (v, k, "") ->
  forall c, no_char c s = false -> is_Some (digit_of c).
Proof.
  revert a n. induction s as [|d s IH]; intros a n H c Hc; [done|]. simpl in *.
  destruct (digit_of d) as [x|] eqn:E; [|congruence].
  destruct (Ascii.eqb_spec c d) as [Heq|]; [subst; rewrite E; by eexists|]. simpl in Hc. by eapply IH.
Qed.

Lemma digit_num_char c : is_Some (digit_of c) -> num_char c = true.
Proof. intros [d H]. revert H. destruct c as [[] [] [] [] [] [] [] []]; done. Qed.


Lemma digits_head f z acc : 0 < z < 10 ^ Z.of_nat f -> starts_with "0" (digits f z acc) = false.
Proof.
  revert z acc. induction f as [|f IH]; intros z acc Hz; [simpl in Hz; lia|]. cbn [digits].
  rewrite Nat2Z.inj_succ, Z.pow_succ_r in Hz by lia.
  destruct (Z.ltb_spec z 10).
  - rewrite Z.mod_small by lia. pose proof (digit_of_digit z ltac:(lia)) as E. unfold starts_with. cbn [String.prefix].
    destruct (ascii_dec "0" (digit z)) as [e|]; [|done]. rewrite <- e in E. vm_compute in E. simplify_eq. lia.
  - apply IH. split; [apply Z.div_str_pos; lia|apply Z.div_lt_upper_bound; lia].
Qed.

Lemma nat_text z : 0 <= z -> exists k, take_digits (Z_to_string z) 0 0 = (z, k, "") /\ k <> O /\
  (k = 1%nat \/ starts_with "0" (Z_to_string z) = false) /\ 
  exists c t, Z_to_string z = String c t /\ is_Some (digit_of c).
Proof.
  intros Hz. destruct (Z.eq_dec z 0) as [->|Hnz].
  { exists 1%nat. split; [done|]. split; [done|]. split; [by left|].
    eexists _, _. split; [reflexivity|by eexists]. }
  unfold Z_to_string. destruct (Z.ltb_spec z 0); [lia|].
  pose proof (log2_pow10 z Hz) as Hb. remember (S _) as f eqn:Hf. assert (f <> O) by lia. clear Hf.
  destruct (take_digits_digits f z "" (conj Hz Hb)) as (k & Hk & Ht); [done|].
  exists k. specialize (Ht 0 0%nat). cbn [take_digits] in Ht. rewrite Z.mul_0_l, Z.add_0_l in Ht.
  split; [done|].
  split; [lia|]. split; [right; apply digits_head; lia|].
  destruct (digits_nonspace f z "" Hz) as (c & t & He & _); [done|]. exists c, t. split; [done|].
  eapply take_digits_all; [exact Ht|]. rewrite He. simpl. by rewrite Ascii.eqb_refl.
Qed.

Lemma json_num_Z z : json_num (num_Z z) = (if z <? 0 then "-" else "") +:+ Z_to_string (Z.abs z).
Proof.
  unfold json_num, num_Z, num_to_string, Q_to_string. cbv zeta.
  assert (Qfloor (Qabs (inject_Z z)) = Z.abs z) as ->.
  { change (Qabs (inject_Z z)) with (inject_Z (Z.abs z)). apply Qfloor_Z. }
  assert (Qltb (inject_Z z) 0 = (z <? 0)) as ->.
  { apply eq_iff_eq_true. rewrite Qltb_lt, Z.ltb_lt. unfold Qlt. simpl. lia. }
  assert (Qeq_bool (Qabs (inject_Z z) - inject_Z (Z.abs z)) 0 = true) as ->.
  { apply Qeq_bool_iff. change (Qabs (inject_Z z)) with (inject_Z (Z.abs z)). ring. }
  by rewrite append_nil_r.
Qed.

(** The digits of an integer pass the grammar and give it back. *)
Lemma number_nat z : 0 <= z ->
  number_ok (Z_to_string z) = true /\ parse_unsigned (Z_to_string z) = num_Z z /\
  (forall c, no_char c (Z_to_string z) = false -> num_char c = true) /\
  exists c t, Z_to_string z = String c t /\ is_Some (digit_of c).
Proof.
  intros Hz. destruct (nat_text z Hz) as (k & Hd & Hk & H0 & Hc).
  repeat split; [| |intros c Hn; by eapply digit_num_char, take_digits_all|done].
  - unfold number_ok. rewrite Hd. destruct (Nat.eqb_spec k 0); [done|]. simpl.
    destruct H0 as [->| ->]; [done|]. by rewrite orb_true_r.
  - unfold parse_unsigned. destruct (String.eqb_spec (Z_to_string z) "Infinity") as [E|_].
    { rewrite E in Hd. vm_compute in Hd. congruence. }
    rewrite Hd. simpl. destruct (Nat.eqb_spec (k + 0) 0); [lia|]. unfold num_Z. f_equal.
    assert (Qred (inject_Z z) = inject_Z z) as Hr.
    { unfold Qred, inject_Z. simpl. pose proof (Z.ggcd_gcd z 1). pose proof (Z.ggcd_correct_divisors z 1).
      destruct (Z.ggcd z 1) as [g [a b]]. simpl in *. rewrite Z.gcd_1_r in *. destruct_and?. subst.
      destruct b; simpl in *; try lia. f_equal; lia. }
    rewrite <- Hr at 2. apply Qred_complete. unfold Qeq. simpl. lia.
Qed.

Lemma parse_number_Z z : parse_number (json_num (num_Z z)) = Some (num_Z z).
Proof.
  rewrite json_num_Z. destruct (number_nat (Z.abs z)) as (Hok & Hp & _ & c & t & He & [d Hd]); [lia|].
  destruct (Z.ltb_spec z 0) as [Hz|Hz].
  - change ("-" +:+ ?x) with (String "-" x). cbn [parse_number]. rewrite Hok, Hp.
    unfold num_neg, num_Z. do 2 f_equal. unfold Qopp, inject_Z. simpl. f_equal. lia.
  - change ("" +:+ ?x) with x. rewrite Z.abs_eq in * by lia.
    unfold parse_number. rewrite Hok, Hp, He. destruct c as [[] [] [] [] [] [] [] []]; done.
Qed.

Lemma json_num_chars z c : no_char c (json_num (num_Z z)) = false -> num_char c = true.
Proof.
  rewrite json_num_Z. destruct (number_nat (Z.abs z)) as (_ & _ & Hc & _); [lia|].
  destruct (z <? 0); [|by apply Hc]. change ("-" +:+ ?x) with (String "-" x). simpl.
  destruct (Ascii.eqb_spec c "-") as [->|]; [done|apply Hc].
Qed.

(** *** Values *)

(** The characters a printed value begins with. *)
Definition head_ok (c : ascii) : bool :=
  negb (is_json_space c) && negb (existsb (Ascii.eqb c) ["]"; "}"; ","; ":"]%char).

Definition number_head (c : ascii) : bool :=
  negb (Ascii.eqb c dquote) && negb (existsb (Ascii.eqb c) ["["; "{"; "n"; "t"; "f"]%char) && head_ok c.

Lemma json_num_head z : exists c t, json_num (num_Z z) = String c t /\ number_head c = true.
Proof.
  rewrite json_num_Z. destruct (number_nat (Z.abs z)) as (_ & _ & _ & c & t & He & [d Hd]); [lia|].
  rewrite He. destruct (z <? 0).
  - eexists _, _. split; [reflexivity|done].
  - eexists _, _. split; [reflexivity|]. revert Hd. destruct c as [[] [] [] [] [] [] [] []]; done.
Qed.

Lemma num_ok_Z q : (Qden q =? 1)%positive = true -> Fin q = num_Z (Qnum q).
Proof. intros H%Pos.eqb_eq. destruct q as [n d]. simpl in *. by subst. Qed.

Lemma stringify_head v t : json_ok v = true -> json_stringify v = Some t ->
  exists c t', t = String c t' /\ head_ok c = true.
Proof.
  intros Hv Ht. destruct v as [| |[]|n| | |]; simpl in *; simplify_eq/=; try by (eexists _, _; split; [reflexivity|]).
  destruct n as [| |q]; try done. rewrite (num_ok_Z q Hv).
  destruct (json_num_head (Qnum q)) as (c & t' & -> & Hc). unfold number_head in Hc. breflect. eauto.
Qed.

Lemma jtrim_head c t : head_ok c = true -> jtrim (String c t) = String c t.
Proof. unfold head_ok. intros H. breflect. simpl. by match goal with H : is_json_space c = false |- _ => rewrite H end. Qed.

(** Reading [v] after [n] characters of fuel, up to a delimiter. *)
Definition reads (v : val) : Prop :=
  forall t f r, json_stringify v = Some t -> (String.length t < f)%nat -> delimited r = true ->
  parse_value f (t +:+ r) = Some (v, r).

Lemma stringify_ok v : json_ok v = true -> is_Some (json_stringify v).
Proof. destruct v as [| |[]| | | |]; try done; intros _; by eexists. Qed.

(** The fuel is enough for the text [t]. *)
Ltac fuel f H := destruct f as [|f]; [simpl in H; lia|].

Definition elem_text (v : val) : string := default "null" (json_stringify v).

Lemma elem_text_eq v t : json_stringify v = Some t -> elem_text v = t.
Proof. unfold elem_text. by intros ->. Qed.

Lemma join_cons2 sep x y l : join sep (x :: y :: l) = x +:+ sep +:+ join sep (y :: l).
Proof. done. Qed.

Lemma parse_elems_join l f r :
  Forall reads l -> forallb json_ok l = true -> l <> [] ->
  (S (String.length (join "," (map elem_text l))) < f)%nat ->
  parse_elems f (join "," (map elem_text l) +:+ "]" +:+ r) = Some (l, r).
Proof.
  revert f. induction l as [|v l IH]; intros f Hr Hok Hne Hf; [done|].
  apply Forall_cons in Hr as [Hv Hl]. cbn [forallb] in Hok. breflect.
  destruct (stringify_ok v) as [t Ht]; [done|]. pose proof (elem_text_eq v t Ht) as He.
  destruct f as [|f]; [lia|]. cbn [parse_elems].
  destruct l as [|v' l].
  - cbn [map join] in *. rewrite He in *. rewrite (Hv t f) by (done || lia). reflexivity.
  - cbn [map] in *. rewrite join_cons2, He, !string_length_app in *. cbn [String.length] in Hf.
    rewrite !append_assoc, (Hv t f) by (done || lia).
    change ("," +:+ ?x) with (String "," x). change (jtrim (String "," ?x)) with (String "," x). cbv iota.
    rewrite IH by (done || lia). done.
Qed.

Definition member_text (kv : string * val) : string :=
  json_string (fst kv) +:+ ":" +:+ elem_text (snd kv).

Lemma obj_put_new k v o : mem_str k (map fst o) = false -> obj_put k v o = o ++ [(k, v)].
Proof.
  induction o as [|[k' v'] o IH]; simpl; [done|]. intros H. breflect.
  match goal with H : (k =s k') = false |- _ => rewrite H | H : k <> k' |- _ => apply String.eqb_neq in H; rewrite H end.
  by rewrite IH.
Qed.

Lemma parse_name_json f k r : (String.length (json_string k) < f)%nat ->
  parse_name f (json_string k +:+ r) = Some (k, r).
Proof.
  unfold json_string. rewrite append_cons, append_assoc. cbn [String.length]. rewrite string_length_app.
  intros Hf. unfold parse_name. change (jtrim (String dquote ?x)) with (String dquote x). cbv iota.
  rewrite Ascii.eqb_refl. change (String dquote "" +:+ r) with (String dquote r).
  apply parse_chars_json. simpl in *. lia.
Qed.

Lemma parse_members_join o f o' r :
  Forall (fun kv => reads (snd kv)) o -> forallb (fun kv => json_ok (snd kv)) o = true -> o <> [] ->
  distinct (map fst (o' ++ o)) = true ->
  (S (String.length (join "," (map member_text o))) < f)%nat ->
  parse_members f o' (join "," (map member_text o) +:+ "}" +:+ r) = Some (o' ++ o, r).
Proof.
  revert f o'. induction o as [|[k v] o IH]; intros f o' Hr Hok Hne Hd Hf; [done|].
  apply Forall_cons in Hr as [Hv Hl]. cbn [forallb fst snd] in *. breflect.
  destruct (stringify_ok v) as [t Ht]; [done|]. pose proof (elem_text_eq v t Ht) as He.
  assert (member_text (k, v) = json_string k +:+ ":" +:+ t) as Hm by (unfold member_text; simpl; by rewrite He).
  assert (obj_put k v o' = o' ++ [(k, v)]) as Hput.
  { apply obj_put_new. clear -Hd. induction o' as [|[k' v'] o' IH]; [done|].
    simpl in Hd. breflect. unfold mem_str in *. simpl. apply orb_false_iff. split; [|by apply IH].
    match goal with H : existsb _ _ = false |- _ => rewrite map_app, existsb_app in H; simpl in H end.
    breflect. by apply String.eqb_neq. }
  destruct f as [|f]; [lia|]. cbn [parse_members].
  destruct o as [|kv o].
  - cbn [map join] in *. rewrite Hm, !string_length_app in *. cbn [String.length] in Hf.
    rewrite !append_assoc, parse_name_json by lia.
    change (":" +:+ ?x) with (String ":" x). change (jtrim (String ":" ?x)) with (String ":" x). cbv iota.
    rewrite (Hv t f) by (done || lia).
    change ("}" +:+ ?x) with (String "}" x). change (jtrim (String "}" ?x)) with (String "}" x). cbv iota.
    by rewrite Hput.
  - cbn [map] in *. rewrite join_cons2, Hm, !string_length_app in *. cbn [String.length] in Hf.
    rewrite !append_assoc, parse_name_json by lia.
    change (":" +:+ ?x) with (String ":" x). change (jtrim (String ":" ?x)) with (String ":" x). cbv iota.
    rewrite (Hv t f) by (done || lia).
    change ("," +:+ ?x) with (String "," x). change (jtrim (String "," ?x)) with (String "," x). cbv iota.
    rewrite Hput, IH; [by rewrite <- app_assoc|done|done|done|by rewrite <- app_assoc|lia].
Qed.

Lemma omap_members o : forallb (fun kv => json_ok (snd kv)) o = true ->
  omap (fun kv => option_map (fun t => json_string (fst kv) +:+ ":" +:+ t) (json_stringify (snd kv))) o =
  map member_text o.
Proof.
  induction o as [|[k v] o IH]; intros H; [done|]. cbn [forallb snd] in H. breflect.
  destruct (stringify_ok v) as [t Ht]; [done|]. cbn [omap list_omap map]. simpl. rewrite Ht. simpl.
  unfold member_text at 1. simpl. rewrite (elem_text_eq v t Ht). f_equal. auto.
Qed.

Lemma join_head sep x l c t : x = String c t -> exists t', join sep (x :: l) = String c t'.
Proof. intros ->. destruct l; [by exists t|]. rewrite join_cons2, append_cons. by eexists. Qed.

Lemma parse_value_number f c t : number_head c = true ->
  parse_value (S f) (String c t) =
  let '(a, b) := span_num (String c t) in option_map (fun n => (VNum n, b)) (parse_number a).
Proof.
  intros Hc. unfold number_head in Hc. breflect. cbn [parse_value]. rewrite jtrim_head by done.
  match goal with H : Ascii.eqb c dquote = false |- _ => rewrite H end.
  match goal with H : existsb _ _ = false |- _ => revert H end.
  destruct c as [[] [] [] [] [] [] [] []]; try done.
Qed.

Lemma reads_arr l : Forall reads l -> forallb json_ok l = true -> reads (VArr l).
Proof.
  intros Hl Hok t f r Ht Hf Hr. injection Ht as <-. destruct f as [|f]; [lia|].
  change (fun x => default "null" (json_stringify x)) with elem_text in *.
  rewrite !string_length_app in Hf. cbn [String.length] in Hf. rewrite !append_assoc.
  change ("[" +:+ ?x) with (String "[" x). cbn [parse_value].
  change (jtrim (String "[" ?x)) with (String "[" x). cbv iota.
  destruct l as [|v l]; [done|]. simpl forallb in Hok. breflect.
  destruct (stringify_ok v) as [t Ht]; [done|]. pose proof (elem_text_eq v t Ht) as He.
  destruct (stringify_head v t) as (c & t' & Hc & Hh); [done|done|].
  destruct (join_head "," (elem_text v) (map elem_text l) c t') as [j Hj]; [congruence|].
  cbn [map] in *. rewrite Hj in *. rewrite append_cons, (jtrim_head c) by done.
  rewrite <- append_cons, <- Hj in *. change (elem_text v :: map elem_text l) with (map elem_text (v :: l)) in *.
  rewrite parse_elems_join; [|done|simpl; by apply andb_true_iff|done|lia].
  unfold head_ok in Hh. destruct c as [[] [] [] [] [] [] [] []]; done.
Qed.

Lemma reads_obj o : Forall (fun kv => reads (snd kv)) o -> json_ok (VObj o) = true -> reads (VObj o).
Proof.
  intros Hl Hok t f r Ht Hf Hr. cbn [json_ok] in Hok. breflect. cbn [json_stringify] in Ht.
  rewrite omap_members in Ht by done. injection Ht as <-. destruct f as [|f]; [lia|].
  rewrite !string_length_app in Hf. cbn [String.length] in Hf. rewrite !append_assoc.
  change ("{" +:+ ?x) with (String "{" x). cbn [parse_value].
  change (jtrim (String "{" ?x)) with (String "{" x). cbv iota.
  destruct o as [|[k v] o]; [done|].
  destruct (join_head "," (member_text (k, v)) (map member_text o) dquote
    ((json_chars k +:+ String dquote "") +:+ ":" +:+ elem_text v)) as [j Hj]; [done|].
  cbn [map] in *. rewrite Hj in *. rewrite append_cons.
  change (jtrim (String dquote ?x)) with (String dquote x). cbv iota.
  rewrite <- append_cons, <- Hj in *.
  change (member_text (k, v) :: map member_text o) with (map member_text ((k, v) :: o)) in *.
  rewrite parse_members_join by (done || lia). done.
Qed.

Lemma reads_ok v : json_ok v = true -> reads v.
Proof.
  induction v as [| |b|n|s|l IH|o IH] using val_ind'; intros Hok.
  - done.
  - intros t f r Ht Hf Hr. injection Ht as <-. destruct f as [|f]; [lia|]. by destruct r.
  - intros t f r Ht Hf Hr. destruct f as [|f]; [lia|]. destruct b; injection Ht as <-; destruct r; reflexivity.
  - destruct n as [| |q]; try done. rewrite (num_ok_Z q Hok). intros t f r Ht Hf Hr. injection Ht as <-.
    change (Q_to_string (inject_Z (Qnum q))) with (json_num (num_Z (Qnum q))) in *.
    destruct f as [|f]; [lia|]. destruct (json_num_head (Qnum q)) as (c & t & He & Hc).
    pose proof (span_num_app (json_num (num_Z (Qnum q))) r (json_num_chars _) Hr) as Hs.
    pose proof (parse_number_Z (Qnum q)) as Hp. rewrite He in *. rewrite append_cons in *.
    rewrite parse_value_number, Hs by done. by rewrite Hp.
  - intros t f r Ht Hf Hr. injection Ht as <-. destruct f as [|f]; [lia|]. unfold json_string in *.
    rewrite append_cons, append_assoc. cbn [parse_value].
    change (jtrim (String dquote ?x)) with (String dquote x). cbv iota. rewrite Ascii.eqb_refl.
    change (String dquote "" +:+ r) with (String dquote r).
    cbn [String.length] in Hf. rewrite string_length_app in Hf.
    by rewrite parse_chars_json by (simpl in *; lia).
  - apply reads_arr; [|done]. apply Forall_forall. intros v Hv. rewrite Forall_forall in IH. apply IH; [done|].
    simpl in Hok. rewrite forallb_forall in Hok. apply Hok. by apply list_elem_of_In.
  - apply reads_obj; [|done]. apply Forall_forall. intros kv Hv. rewrite Forall_forall in IH. apply IH; [done|].
    cbn [json_ok] in Hok. breflect. rewrite forallb_forall in *.
    match goal with H : forall x, In x o -> _ |- _ => apply H end. by apply list_elem_of_In.
Qed.

(** What a module prints it reads back. *)
Lemma json_round_trip v : json_ok v = true -> exists t, json_stringify v = Some t /\ json_parse t = Some v.
Proof.
  intros Hv. destruct (stringify_ok v Hv) as [t Ht]. exists t. split; [done|]. unfold json_parse.
  pose proof (reads_ok v Hv t (S (String.length t)) "" Ht ltac:(lia) eq_refl) as Hp.
  rewrite append_nil_r in Hp. by rewrite Hp.
Qed.

(** ** Members *)

Lemma mem_obj_put x k v o : mem_str x (map fst (obj_put k v o)) = mem_str x (map fst o) || (x =s k).
Proof.
  induction o as [|[k' v'] o IH]; cbn; [by rewrite orb_false_r|].
  destruct (String.eqb_spec k k') as [->|]; cbn.
  - unfold mem_str. by destruct (x =s k'), (existsb _ _).
  - unfold mem_str in IH. rewrite IH. by destruct (x =s k').
Qed.

Lemma json_ok_put k v o : json_ok (VObj o) = true -> json_ok v = true -> json_ok (VObj (obj_put k v o)) = true.
Proof.
  cbn [json_ok]. intros Ho Hv. apply andb_true_iff in Ho as [Hd Ho]. apply andb_true_iff. split.
  - clear Ho Hv. induction o as [|[k' v'] o IH]; [done|]. cbn in *. apply andb_true_iff in Hd as [Hn Hd].
    destruct (String.eqb_spec k k') as [->|Hk]; cbn; [by rewrite Hn|]. rewrite IH, andb_true_r by done.
    rewrite mem_obj_put. apply negb_true_iff in Hn. rewrite Hn. cbn. apply negb_true_iff, String.eqb_neq. congruence.
  - clear Hd. induction o as [|[k' v'] o IH]; cbn in *; [by rewrite Hv|]. apply andb_true_iff in Ho as [Hx Ho].
    destruct (k =s k'); cbn; [by rewrite Hv|]. by rewrite Hx, IH.
Qed.

Lemma json_ok_prop v k : json_ok v = true -> prop v k = VUndef \/ json_ok (prop v k) = true.
Proof.
  destruct v as [| | | |s|l|o]; try (by left);
    [cbn [prop]; destruct (k =s "length"); [by right|by left]..|].
  cbn [json_ok prop]. intros Ho. apply andb_true_iff in Ho as [_ Ho].
  induction o as [|[k' v'] o IH]; [by left|]. cbn in *. apply andb_true_iff in Ho as [Hx Ho].
  destruct (k =s k'); [by right|auto].
Qed.

Lemma prop_put_eq k v o : prop (VObj (obj_put k v o)) k = v.
Proof.
  induction o as [|[k' v'] o IH]; cbn; [by rewrite String.eqb_refl|].
  destruct (k =s k') eqn:E; cbn; [by rewrite String.eqb_refl|]. by rewrite E.
Qed.

Lemma prop_put_ne k k' v o : k <> k' -> prop (VObj (obj_put k v o)) k' = prop (VObj o) k'.
Proof.
  intros Hk. induction o as [|[k2 v2] o IH]; cbn.
  - destruct (String.eqb_spec k' k); congruence.
  - destruct (String.eqb_spec k k2) as [->|]; cbn.
    + destruct (String.eqb_spec k' k2); congruence.
    + destruct (k' =s k2); [done|]. exact IH.
Qed.
