(* ===== verification/Lifecycle.v ===== *)
(** * Probe lifecycle ([probe/fe/probe_lifecycle.js])

    The retry policy, the batch classes, the rolling fail budget with its
    quiet windows, and the state machine
    [idle_cool | need_probe | probing | retry_backoff | failed_quiet | complete_cool].
    One clock value [now] is given to each handler: all of its [Date.now()]
    reads.  [rnd] is the value of [Math.random()], a rational in [0,1). *)

From Stdlib Require Import QArith Qround Lqa.
From S2P Require Import Prelude JsVal Window.
#[local] Open Scope Z_scope.

(** ** Data *)

Inductive lstate :=
| IDLE_COOL | NEED_PROBE | PROBING | RETRY_BACKOFF | FAILED_QUIET | COMPLETE_COOL.

#[export] Instance lstate_eq_dec : EqDecision lstate.
Proof. solve_decision. Defined.

Definition lstate_str (s : lstate) : string :=
  match s with
  | IDLE_COOL => "idle_cool"
  | NEED_PROBE => "need_probe"
  | PROBING => "probing"
  | RETRY_BACKOFF => "retry_backoff"
  | FAILED_QUIET => "failed_quiet"
  | COMPLETE_COOL => "complete_cool"
  end.

(** [POLICY]: the integer fields by name, and the delay tables. *)
Record policy := mkPolicy {
  ints : gmap string Z;
  hard_backoff_ms : list Z;
  soft_backoff_ms : list Z;
  deepen_backoff_ms : list Z;
  commercial_land_backoff_ms : list Z;
  rpa_backoff_ms : list Z;
  hard_sla_delays_ms : list num
}.

Definition POLICY0 : policy := mkPolicy
  (list_to_map [
    ("hard_max_attempts", 10); ("soft_max_attempts", 3); ("deepen_max_attempts", 8);
    ("rpa_max_attempts", 2); ("heavy_max_inflight", 1); ("fail_budget_n", 18);
    ("fail_budget_window_ms", 90000); ("rpa_quiet_ms", 90000); ("deepen_quiet_ms", 22000);
    ("multi_tick_max", 16); ("empty_kick_patience", 5);
    ("empty_kick_patience_post_b10", 3); ("upload_max_retries", 5);
    ("client_alive_retry_ms", 30000); ("upload_concurrency", 3);
    ("upload_concurrency_max", 6); ("upload_mid_ramp", 4); ("upload_ramp_after", 4)])
  [200; 500; 1100; 2200; 4500; 9000; 16000; 24000]
  [2000; 6000; 15000]
  [200; 500; 1200; 2800; 6000; 12000; 20000]
  [120; 360; 680; 1100; 1600; 2000]
  [3000; 12000]
  (map num_Z [800; 2200; 5500; 12000; 20000; 45000; 90000]).

(** The keys [applyServerPolicy] accepts. *)
Definition policy_keys : list string := [
  "hard_max_attempts"; "soft_max_attempts"; "deepen_max_attempts"; "rpa_max_attempts";
  "heavy_max_inflight"; "fail_budget_n"; "fail_budget_window_ms"; "rpa_quiet_ms";
  "deepen_quiet_ms"; "multi_tick_max"; "empty_kick_patience";
  "empty_kick_patience_post_b10"; "upload_max_retries"; "client_alive_retry_ms";
  "upload_concurrency"; "upload_concurrency_max"; "upload_mid_ramp"; "upload_ramp_after"].

(** [POLICY.k], 0 standing for a missing field. *)
Definition pol (p : policy) (k : string) : Z := default 0 (ints p !! k).

(** One round of the [for] loop over [keys]. *)
Definition apply_policy_key (src : val) (m : gmap string Z) (k : string) : gmap string Z :=
  match prop src k with
  | VNum (Fin q) => if Qltb 0 q then <[k := Qfloor q]> m else m
  | _ => m
  end.

Definition applyServerPolicy (src : val) (p : policy) : policy :=
  if negb (truthy src && is_object src) then p else
  let m := fold_left (apply_policy_key src) policy_keys (ints p) in
  let sla :=
    match prop src "hard_sla_delays_ms" with
    | VArr (x :: l) => map (fun v => num_floor (to_num_or v (num_Z 5000))) (x :: l)
    | _ => hard_sla_delays_ms p
    end in
  mkPolicy m (hard_backoff_ms p) (soft_backoff_ms p) (deepen_backoff_ms p)
    (commercial_land_backoff_ms p) (rpa_backoff_ms p) sla.

(** ** Batch classes *)

Definition isHardBatch (id : string) : bool :=
  if id =s "" then false else
  if starts_with "B10x_" id then false else
  if (id =s "mid.curves") || (id =s "B10_hw_curves") then true else
  mem_str id ["B10_hw_curves"; "B0_bootstrap"; "B2_hardware"; "B3_system"; "B1_conflict";
              "B12_anti_camouflage"; "B8_gateway"; "B8_gateway_early"; "B7_sandbox"].

Definition isDeepenBatch (id : string) : bool :=
  starts_with "B10x_" id || (id =s "B15_cross_curves").

Definition isHeavyBatch (id : string) : bool :=
  if isDeepenBatch id then true else
  (id =s "B7_sandbox") || (id =s "B10_hw_curves") || (id =s "B18_webgpu") ||
  (id =s "B46_audio_deep") || (id =s "B47_sab_clock") || (id =s "B22_gpu_timer") ||
  (id =s "mid.curves").

Definition isRpaBatch (id : string) : bool :=
  (id =s "B11_interaction") || starts_with "B11_" id || (id =s "rpa.interaction").

Definition isCommercialLandFast (id : string) : bool :=
  (id =s "B10_hw_curves") || (id =s "mid.curves") || (id =s "B10x_silicon_noderiv") ||
  (id =s "B10x_silicon_rint") || (id =s "B10x_silicon_ulp").

Definition isSecondaryInfraBatch (id : string) : bool :=
  (id =s "B47_sab_clock") || (id =s "B18_webgpu") || (id =s "B46_audio_deep") ||
  (id =s "B10x_silicon_deep").

Definition isTimingSensitiveBatch (id : string) : bool :=
  (id =s "B47_sab_clock") || (id =s "B34_cpu_cache_ladder") || (id =s "B22_gpu_timer") ||
  (id =s "B37_thermal_drift_lite") || (id =s "B42_thermal_drift_full") ||
  test_words ["timing"; "thermal"; "sab_clock"; "cache_ladder"; "eu_timing"] id.

Definition maxAttemptsFor (p : policy) (id : string) : Z :=
  if isRpaBatch id then zor (pol p "rpa_max_attempts") 2 else
  if isHardBatch id then pol p "hard_max_attempts" else
  if isDeepenBatch id then zor (pol p "deepen_max_attempts") 4 else
  pol p "soft_max_attempts".

Definition heavyMaxInflight (p : policy) : Z := zor (pol p "heavy_max_inflight") 1.

(** The delay table [backoffMsFor] reads (a table is an array, hence truthy:
    the [||] alternatives are never taken). *)
Definition backoff_table (p : policy) (id : string) : list Z :=
  if isCommercialLandFast id then commercial_land_backoff_ms p else
  if isRpaBatch id then rpa_backoff_ms p else
  if isHardBatch id then hard_backoff_ms p else
  if isDeepenBatch id then deepen_backoff_ms p else
  soft_backoff_ms p.

Definition backoff_base (p : policy) (id : string) (attempt : Z) : Z :=
  let a := Z.max 1 (to_int32 attempt) in
  let arr := backoff_table p id in
  zor (nth_Z arr (Z.min (Z.of_nat (length arr) - 1) (a - 1))) 2000.

Definition backoffMsFor (p : policy) (id : string) (attempt : Z) (rnd : Q) : Z :=
  let a := Z.max 1 (to_int32 attempt) in
  let base := backoff_base p id attempt in
  let j := if isCommercialLandFast id && (a <=? 2) then 0
           else Qfloor (inject_Z base * (15 # 100) * rnd) in
  base + j.

(** ** State *)

Record t := mk {
  failTimes : list Z;
  state : lstate;
  quietUntil : Z;
  rpaQuietUntil : Z;
  deepenQuietUntil : Z;
  POLICY : policy;
  win : Win
}.

Definition eta (s : t) : t :=
  mk (failTimes s) (state s) (quietUntil s) (rpaQuietUntil s) (deepenQuietUntil s)
     (POLICY s) (win s).
Definition set_failTimes (v : list Z) (s : t) : t := ltac:(upd eta failTimes s v).
Definition set_state (v : lstate) (s : t) : t := ltac:(upd eta state s v).
Definition set_quietUntil (v : Z) (s : t) : t := ltac:(upd eta quietUntil s v).
Definition set_rpaQuietUntil (v : Z) (s : t) : t := ltac:(upd eta rpaQuietUntil s v).
Definition set_deepenQuietUntil (v : Z) (s : t) : t := ltac:(upd eta deepenQuietUntil s v).
Definition set_POLICY (v : policy) (s : t) : t := ltac:(upd eta POLICY s v).
Definition set_win (v : Win) (s : t) : t := ltac:(upd eta win s v).

(** The module's initial variables, in the window [w]. *)
Definition init (w : Win) : t := mk [] NEED_PROBE 0 0 0 POLICY0 w.

(** ** Fail budget and quiet windows *)

Definition pruneFails (now : Z) (s : t) : t :=
  let w := pol (POLICY s) "fail_budget_window_ms" in
  s |> set_failTimes (List.filter (fun x => now - x <? w) (failTimes s)).

Definition soft_reason (why : string) : bool :=
  test_words ["upload_timeout_abort"; "timeout"; "pagehide"; "halt"; "abort"; "network"] why &&
  negb (test_words ["attempts_exhausted"] why).

Definition report_rpa_quiet (id why : string) (s : t) : t :=
  s |> set_win (ops_report "rpa_quiet" "upload"
    [("batch_id", VStr id); ("quiet_ms", vint (zor (pol (POLICY s) "rpa_quiet_ms") 90000));
     ("reason", VStr why)] "warn" (win s)).

(** [__GR_LAST_FAIL_BUDGET_MS__] dedupes the report: at most one per half window. *)
Definition report_fail_budget (id why : string) (now : Z) (s : t) : t :=
  let w := pol (POLICY s) "fail_budget_window_ms" in
  let lastPb := to_num (jor (gget "__GR_LAST_FAIL_BUDGET_MS__" (win s)) (vint 0)) in
  let due := match lastPb with
             | Fin q => Qltb (inject_Z w / 2) (inject_Z now - q)
             | Inf true => true
             | _ => false
             end in
  if due && gtrue "GROps" (win s) then
    s |> set_win (ops_report "probe_fail_budget" "upload"
      [("n", vint (Z.of_nat (length (failTimes s)))); ("window_ms", vint w);
       ("last_batch", VStr id); ("reason", VStr why)] "warn"
      (gset "__GR_LAST_FAIL_BUDGET_MS__" (vint now) (win s)))
  else s.

Record fail_result := mkFail {
  overBudget : bool; failCount : Z; rpaQuiet : bool; soft : bool
}.

Definition rpa_exhaust_step (id why : string) (now : Z) (s : t) : t :=
  if (why =s "attempts_exhausted") && isRpaBatch id then
    s |> set_rpaQuietUntil (now + zor (pol (POLICY s) "rpa_quiet_ms") 90000)
      |> report_rpa_quiet id why
  else s.

Definition deepen_exhaust_step (id why : string) (now : Z) (s : t) : t :=
  if ((why =s "attempts_exhausted") || test_words ["network"; "upload_network"] why)
     && isDeepenBatch id then
    s |> set_deepenQuietUntil (now + zor (pol (POLICY s) "deepen_quiet_ms") 120000)
  else s.

Definition over_budget (s : t) : bool :=
  pol (POLICY s) "fail_budget_n" <=? Z.of_nat (length (failTimes s)).

Definition budget_step (id why : string) (now : Z) (s : t) : t :=
  if over_budget s then
    s |> set_state FAILED_QUIET
      |> set_quietUntil (now + pol (POLICY s) "fail_budget_window_ms")
      |> report_fail_budget id why now
  else if soft_reason why then s
  else s |> set_state RETRY_BACKOFF.

Definition push_fail (why : string) (now : Z) (s : t) : t :=
  if soft_reason why then s else s |> set_failTimes (failTimes s ++ [now]).

Definition recordFail (id why : string) (now : Z) (s : t) : t * fail_result :=
  let s4 := s |> pruneFails now |> push_fail why now |> rpa_exhaust_step id why now
              |> deepen_exhaust_step id why now in
  let s5 := budget_step id why now s4 in
  (s5, mkFail (over_budget s4) (Z.of_nat (length (failTimes s5)))
              (now <? rpaQuietUntil s5) (soft_reason why)).

Definition softQuietActive (now : Z) (s : t) : t * bool :=
  if bool_decide (state s = FAILED_QUIET) && (now <? quietUntil s) then (s, true) else
  if bool_decide (state s = FAILED_QUIET) && (quietUntil s <=? now) then
    (s |> set_state NEED_PROBE |> set_quietUntil 0 |> set_failTimes [], false)
  else (s, false).

Definition rpaQuietActive (now : Z) (s : t) : t * bool :=
  if negb (rpaQuietUntil s =? 0) && (now <? rpaQuietUntil s) then (s, true) else
  if negb (rpaQuietUntil s =? 0) && (rpaQuietUntil s <=? now) then
    (s |> set_rpaQuietUntil 0, false)
  else (s, false).

Definition deepenQuietActive (now : Z) (s : t) : t * bool :=
  if negb (deepenQuietUntil s =? 0) && (now <? deepenQuietUntil s) then (s, true) else
  if negb (deepenQuietUntil s =? 0) && (deepenQuietUntil s <=? now) then
    (s |> set_deepenQuietUntil 0, false)
  else (s, false).

(** [String(global.__GR_COMPUTE_PRESSURE_STATE__ || "unknown").toLowerCase()] *)
Definition timingProbesAllowed (s : t) : bool :=
  let st := lower (to_string (jor (gget "__GR_COMPUTE_PRESSURE_STATE__" (win s)) (VStr "unknown"))) in
  negb ((st =s "serious") || (st =s "critical")).

(** A stateful test in an [&&] guard: evaluated only when [g] holds. *)
Definition guard_test (g : bool) (f : t -> t * bool) (s : t) : t * bool :=
  if g then f s else (s, false).

Definition allowEnqueue (id : string) (now : Z) (s : t) : t * bool :=
  if isSecondaryInfraBatch id then (s, true) else
  let '(s1, q1) := guard_test (isRpaBatch id) (rpaQuietActive now) s in
  if q1 then (s1, false) else
  if isTimingSensitiveBatch id && negb (timingProbesAllowed s1) then (s1, false) else
  let '(s2, q2) := guard_test (isDeepenBatch id) (deepenQuietActive now) s1 in
  if q2 && (id <>s "B10x_silicon_deep") then (s2, false) else
  let '(s3, q3) := softQuietActive now s2 in
  if q3 && negb (isHardBatch id) && negb (isDeepenBatch id) then (s3, false) else (s3, true).

(** ** State changes *)

Definition markProbing (s : t) : t :=
  if bool_decide (state s = COMPLETE_COOL) || bool_decide (state s = IDLE_COOL) then s
  else s |> set_state PROBING.

Definition markCool (source : string) (s : t) : t :=
  s |> set_state COMPLETE_COOL
    |> set_win (gset "__GR_LIFECYCLE_SOURCE__" (jor (VStr source) (VStr "cool"))
               (gset "__GR_BUSINESS_STATE__" (VStr "identity_complete_cool")
               (gset "__GR_PHASE__" (VStr "cool") (win s)))).

Definition markNeedProbe (reason : val) (s : t) : t :=
  s |> set_state NEED_PROBE |> set_quietUntil 0
    |> set_win (gset "__GR_LIFECYCLE_REASON__" (jor reason (VStr "need_probe")) (win s)).

(** The guard of [deriveFromOpen] over the session-open response. *)
Definition open_is_cool (opened : val) : bool :=
  let phase := to_string_or_empty (prop opened "phase") in
  let skip := truthy (jor (prop opened "skip_identity_probe") (prop opened "skip_session_probe")) in
  let cps := jor (prop opened "cycle_probe_status") empty_obj in
  let scheduleFinal :=
    is_true (prop cps "brain_schedule_final") || is_true (prop cps "final_analysis_ok") ||
    is_str (prop cps "cycle_status") "complete" || is_str (prop opened "cycle_status") "complete" ||
    is_true (prop opened "brain_schedule_final") in
  let idc := is_str (prop opened "business_state") "identity_complete_cool" in
  ((phase =s "cool") || skip || idc) && (scheduleFinal || idc) &&
  negb (truthy (prop opened "need_hard_anchor")) &&
  negb (truthy (prop opened "force_identity_probe")).

Definition deriveFromOpen (opened0 : val) (s : t) : t * lstate :=
  let opened := jor opened0 empty_obj in
  if open_is_cool opened then (markCool "open" s, IDLE_COOL)
  else (markProbing s, PROBING).

(** [onServerProbeStatus]'s decision: incomplete and asked for. *)
Definition server_wants_probe (cps : val) : bool :=
  negb (is_true (prop cps "brain_schedule_final")) &&
  negb (is_true (prop cps "final_analysis_ok")) &&
  negb (is_str (prop cps "cycle_status") "complete") &&
  (is_true (prop cps "force_identity_probe") || is_true (prop cps "need_hard_anchor") ||
   is_true (prop cps "cold_to_hot") || is_true (prop cps "accepts_identity_ingest")).

(** [snapshot()]: prunes the budget window and reads the fields. *)
Definition snapshot (now : Z) (s : t) : t * (string * Z * Z * list Z) :=
  let s1 := pruneFails now s in
  (s1, (lstate_str (state s1), quietUntil s1, Z.of_nat (length (failTimes s1)),
        map (pol (POLICY s1)) ["hard_max_attempts"; "soft_max_attempts"; "fail_budget_n"; "multi_tick_max"])).

(** ** Step function: one lifecycle handler run at time [now] *)

Inductive op :=
| OpApplyPolicy (src : val)
| OpRecordFail (id why : string)
| OpAllow (id : string)
| OpProbing
| OpNeedProbe (reason : val)
| OpCool (source : string)
| OpOpen (opened : val)
| OpSnapshot.

Definition run (o : op) (now : Z) (s : t) : t :=
  match o with
  | OpApplyPolicy src => s |> set_POLICY (applyServerPolicy src (POLICY s))
  | OpRecordFail id why => fst (recordFail id why now s)
  | OpAllow id => fst (allowEnqueue id now s)
  | OpProbing => markProbing s
  | OpNeedProbe reason => markNeedProbe reason s
  | OpCool source => markCool source s
  | OpOpen opened => fst (deriveFromOpen opened s)
  | OpSnapshot => fst (snapshot now s)
  end.

(** The integer policy fields are nonnegative. *)
Definition ints_nonneg (p : policy) : Prop := forall k z, ints p !! k = Some z -> 0 <= z.

(** The delay tables are positive and sorted. *)
Definition table_ok (l : list Z) : Prop :=
  l <> [] /\ Forall (fun z => 0 < z) l /\
  forall i j, 0 <= i <= j -> j < Z.of_nat (length l) -> nth_Z l i <= nth_Z l j.

Definition tables_ok (p : policy) : Prop :=
  table_ok (hard_backoff_ms p) /\ table_ok (soft_backoff_ms p) /\
  table_ok (deepen_backoff_ms p) /\ table_ok (commercial_land_backoff_ms p) /\
  table_ok (rpa_backoff_ms p).

(** ** Lemmas *)

Lemma pol_nonneg p k : ints_nonneg p -> 0 <= pol p k.
Proof. unfold pol. intros H. destruct (ints p !! k) eqn:E; simpl; [eauto | lia]. Qed.

Lemma isHard_In id :
  isHardBatch id = true ->
  In id ["mid.curves"; "B10_hw_curves"; "B0_bootstrap"; "B2_hardware"; "B3_system";
         "B1_conflict"; "B12_anti_camouflage"; "B8_gateway"; "B8_gateway_early"; "B7_sandbox"].
Proof.
  unfold isHardBatch. destruct (id =s ""), (starts_with "B10x_" id); try done.
  destruct (_ || _) eqn:E; [intros _ | intros H%mem_str_In; simpl in *; tauto].
  apply orb_true_iff in E as [E|E]; breflect; subst; simpl; tauto.
Qed.

(** Case analysis on which of the ten hard batches [id] is. *)
Ltac hard_cases H :=
  apply isHard_In in H; simpl in H; destruct_or? H; subst; try done.

Lemma prefix_conflict p q id :
  starts_with p id = true -> starts_with q id = true ->
  String.prefix p q = true \/ String.prefix q p = true.
Proof.
  unfold starts_with. revert q id. induction p as [|c p IH]; intros q id Hp Hq.
  - left. by destruct q.
  - destruct q as [|d q]; [by right; destruct p|].
    destruct id as [|e id]; [done|]. simpl in *.
    destruct (ascii_dec c e), (ascii_dec d e); try done. subst.
    destruct (ascii_dec e e); [|done]. eauto.
Qed.

Lemma rpa_not_deepen id : isRpaBatch id = true -> isDeepenBatch id = false.
Proof.
  intros H. apply not_true_is_false. intros Hd.
  unfold isRpaBatch in H. unfold isDeepenBatch in Hd.
  repeat match goal with E : _ || _ = true |- _ => apply orb_true_iff in E as [E|E] end;
    breflect; subst; try done.
  by destruct (prefix_conflict _ _ _ H Hd).
Qed.

Lemma hard_not_deepen id : isHardBatch id = true -> isDeepenBatch id = false.
Proof. intros H. hard_cases H. Qed.

Lemma hard_not_rpa id : isHardBatch id = true -> isRpaBatch id = false.
Proof. intros H. hard_cases H. Qed.

#[export] Hint Resolve rpa_not_deepen hard_not_deepen hard_not_rpa pol_nonneg : grdb.

Lemma table_ok_lookup l i : table_ok l -> 0 <= i < Z.of_nat (length l) -> 0 < nth_Z l i.
Proof. intros (_ & Hpos & _) Hi. by apply (nth_Z_Forall (fun z => 0 < z)). Qed.

Lemma table_ok_length l : table_ok l -> 0 < Z.of_nat (length l).
Proof. intros (Hne & _). destruct l; simpl; [done | lia]. Qed.

Lemma backoff_table_ok p id : tables_ok p -> table_ok (backoff_table p id).
Proof. intros (? & ? & ? & ? & ?). unfold backoff_table. by branches. Qed.

Lemma backoff_base_lookup p id attempt :
  tables_ok p ->
  let l := backoff_table p id in
  let i := Z.min (Z.of_nat (length l) - 1) (Z.max 1 (to_int32 attempt) - 1) in
  backoff_base p id attempt = nth_Z l i /\ 0 <= i < Z.of_nat (length l) /\ 0 < nth_Z l i.
Proof.
  intros Hp l i. pose proof (backoff_table_ok p id Hp : table_ok l) as Hl.
  pose proof (table_ok_length _ Hl) as Hlen.
  assert (0 <= i < Z.of_nat (length l)) as Hi by (subst i; lia).
  pose proof (table_ok_lookup _ _ Hl Hi) as Hpos. split; [|done].
  change (zor (nth_Z l i) 2000 = nth_Z l i). unfold zor.
  destruct (Z.eqb_spec (nth_Z l i) 0); [lia | done].
Qed.

Lemma POLICY0_tables_ok : tables_ok POLICY0.
Proof.
  assert (forall l, l <> [] -> forallb (fun z => 0 <? z) l = true ->
    forallb (fun i => forallb (fun j => negb (i <=? j)%nat || (nth i l 0 <=? nth j l 0))
                              (seq 0 (length l))) (seq 0 (length l)) = true ->
    table_ok l) as Hdec.
  { intros l Hne Hpos Hs. split; [done|]. split.
    - apply Forall_forall. intros x Hx%list_elem_of_In.
      rewrite forallb_forall in Hpos. specialize (Hpos x Hx). lia.
    - intros i j Hij Hj. rewrite forallb_forall in Hs.
      specialize (Hs (Z.to_nat i)). rewrite in_seq, forallb_forall in Hs.
      specialize (Hs ltac:(lia) (Z.to_nat j)). rewrite in_seq in Hs.
      specialize (Hs ltac:(lia)). unfold nth_Z.
      destruct (Z.ltb_spec i 0), (Z.ltb_spec j 0); try lia.
      apply orb_true_iff in Hs as [Hs|Hs]; breflect; lia. }
  repeat split; apply Hdec; done.
Qed.

Lemma POLICY0_ints_nonneg : ints_nonneg POLICY0.
Proof.
  intros k z H. apply elem_of_list_to_map_2 in H. apply list_elem_of_In in H.
  simpl in H. by destruct_or! H; injection H as <- <-.
Qed.

Lemma apply_policy_key_other src m k k' :
  k <> k' -> apply_policy_key src m k !! k' = m !! k'.
Proof.
  intros H. unfold apply_policy_key. branches; try done. by rewrite lookup_insert_ne.
Qed.

(** What one accepted key contributes. *)
Definition policy_value (src : val) (k : string) (old : option Z) : option Z :=
  match prop src k with
  | VNum (Fin q) => if Qltb 0 q then Some (Qfloor q) else old
  | _ => old
  end.

Lemma fold_policy_lookup src ks m k :
  NoDup ks ->
  fold_left (apply_policy_key src) ks m !! k =
    if mem_str k ks then policy_value src k (m !! k) else m !! k.
Proof.
  revert m. induction ks as [|k0 ks IH]; intros m Hnd; [done|].
  apply NoDup_cons in Hnd as [Hk0 Hnd]. simpl. rewrite IH by done.
  destruct (String.eqb_spec k k0) as [->|Hne]; simpl.
  - assert (mem_str k0 ks = false) as ->.
    { apply not_true_is_false. by rewrite mem_str_In, <- list_elem_of_In. }
    unfold apply_policy_key, policy_value. destruct (prop src k0) as [| | |[| |q]| | |]; try done.
    destruct (Qltb 0 q); [|done]. by rewrite lookup_insert_eq.
  - rewrite apply_policy_key_other by done. done.
Qed.

Lemma policy_keys_NoDup : NoDup policy_keys.
Proof. apply (bool_decide_unpack (NoDup policy_keys)). vm_compute. done. Qed.

Lemma applyServerPolicy_tables src p :
  let p' := applyServerPolicy src p in
  hard_backoff_ms p' = hard_backoff_ms p /\ soft_backoff_ms p' = soft_backoff_ms p /\
  deepen_backoff_ms p' = deepen_backoff_ms p /\
  commercial_land_backoff_ms p' = commercial_land_backoff_ms p /\
  rpa_backoff_ms p' = rpa_backoff_ms p.
Proof. unfold applyServerPolicy. destruct (negb _); done. Qed.

Lemma Qfloor_nonneg q : Qltb 0 q = true -> 0 <= Qfloor q.
Proof.
  intros H%Qltb_lt. change 0 with (Qfloor 0). apply Qfloor_resp_le. by apply Qlt_le_weak.
Qed.

(** Reading through the handlers' frames. *)
Lemma state_guard_test g f s :
  (forall s, state (fst (f s)) = state s) -> state (fst (guard_test g f s)) = state s.
Proof. intros H. unfold guard_test. by destruct g. Qed.

Lemma rpaQuietActive_frame now s : exists z, fst (rpaQuietActive now s) = set_rpaQuietUntil z s.
Proof.
  unfold rpaQuietActive. destruct s. branches; simpl; eauto.
Qed.

Lemma deepenQuietActive_frame now s :
  exists z, fst (deepenQuietActive now s) = set_deepenQuietUntil z s.
Proof.
  unfold deepenQuietActive. destruct s. branches; simpl; eauto.
Qed.

(** ** Batch classes *)

(** the retry classes are disjoint: no batch id is in two of the classes
    rpa, hard and deepen, so [maxAttemptsFor] does not depend on the order of
    its tests and gives each class its own cap. *)
Theorem maxAttemptsFor_classes p id :
  (isRpaBatch id = true ->
     isHardBatch id = false /\ isDeepenBatch id = false /\
     maxAttemptsFor p id = zor (pol p "rpa_max_attempts") 2) /\
  (isHardBatch id = true ->
     isRpaBatch id = false /\ isDeepenBatch id = false /\
     maxAttemptsFor p id = pol p "hard_max_attempts") /\
  (isDeepenBatch id = true ->
     isRpaBatch id = false /\ isHardBatch id = false /\
     maxAttemptsFor p id = zor (pol p "deepen_max_attempts") 4) /\
  (isRpaBatch id = false /\ isHardBatch id = false /\ isDeepenBatch id = false ->
     maxAttemptsFor p id = pol p "soft_max_attempts").
Proof.
  pose proof (rpa_not_deepen id). pose proof (hard_not_deepen id). pose proof (hard_not_rpa id).
  unfold maxAttemptsFor.
  destruct (isRpaBatch id), (isHardBatch id), (isDeepenBatch id); intuition congruence.
Qed.

Lemma maxAttemptsFor_classes_witness :
  isHardBatch "B2_hardware" = true /\ maxAttemptsFor POLICY0 "B2_hardware" = 10.
Proof.
  split; [reflexivity|].
  apply (maxAttemptsFor_classes POLICY0 "B2_hardware"). reflexivity.
Defined.

(** the retry delay of every batch class is at least its table's delay and
    at most 15 percent more, with no jitter on the first two attempts of the
    commercial-land batches. *)
Theorem backoffMsFor_bounds p id attempt rnd :
  tables_ok p -> (0 <= rnd)%Q -> (rnd < 1)%Q ->
  0 < backoff_base p id attempt /\
  backoff_base p id attempt <= backoffMsFor p id attempt rnd /\
  100 * backoffMsFor p id attempt rnd <= 115 * backoff_base p id attempt /\
  (isCommercialLandFast id = true -> Z.max 1 (to_int32 attempt) <= 2 ->
     backoffMsFor p id attempt rnd = backoff_base p id attempt).
Proof.
  intros Hp Hr0 Hr1. destruct (backoff_base_lookup p id attempt Hp) as (-> & _ & Hpos).
  set (base := nth_Z _ _) in *. unfold backoffMsFor.
  destruct (backoff_base_lookup p id attempt Hp) as (-> & _ & _). fold base.
  assert (0 <= Qfloor (inject_Z base * (15 # 100) * rnd)) as Hlo.
  { change 0 with (Qfloor 0). apply Qfloor_resp_le.
    assert (0 <= inject_Z base)%Q by (unfold Qle; simpl; lia). nra. }
  assert (100 * Qfloor (inject_Z base * (15 # 100) * rnd) <= 15 * base) as Hhi.
  { pose proof (Qfloor_le (inject_Z base * (15 # 100) * rnd)) as Hf.
    assert (0 <= inject_Z base)%Q by (unfold Qle; simpl; lia).
    assert (inject_Z (Qfloor (inject_Z base * (15 # 100) * rnd)) <= inject_Z base * (15 # 100))%Q as Hq
      by nra.
    revert Hq. generalize (Qfloor (inject_Z base * (15 # 100) * rnd)). intros f.
    unfold Qle. simpl. lia. }
  repeat split; [lia | branches; lia | branches; lia |].
  intros -> Ha%Z.leb_le. rewrite Ha. simpl. lia.
Qed.

Lemma backoffMsFor_bounds_witness :
  tables_ok POLICY0 /\ 0 < backoff_base POLICY0 "B2_hardware" 3.
Proof.
  split; [exact POLICY0_tables_ok|].
  apply (backoffMsFor_bounds POLICY0 "B2_hardware" 3 (1 # 2)); [exact POLICY0_tables_ok | |];
    reflexivity || (intros H; discriminate H).
Defined.

(** the delay before the jitter never decreases with the attempt number, so
    retries back off. *)
Theorem backoff_base_monotone p id a b :
  tables_ok p -> - 2 ^ 31 <= a <= b -> b < 2 ^ 31 ->
  backoff_base p id a <= backoff_base p id b.
Proof.
  intros Hp Hab Hb.
  destruct (backoff_base_lookup p id a Hp) as (-> & Hi & _).
  destruct (backoff_base_lookup p id b Hp) as (-> & Hj & _).
  destruct (backoff_table_ok p id Hp) as (_ & _ & Hs).
  rewrite !to_int32_id in * by lia. apply Hs; lia.
Qed.

Lemma backoff_base_monotone_witness :
  tables_ok POLICY0 /\ backoff_base POLICY0 "B19_media" 2 <= backoff_base POLICY0 "B19_media" 9.
Proof.
  split; [exact POLICY0_tables_ok|].
  apply (backoff_base_monotone POLICY0 "B19_media" 2 9); [exact POLICY0_tables_ok | lia | lia].
Defined.

(** ** Server policy *)

(** [applyServerPolicy] writes exactly the whitelisted integer fields the
    server sends as positive finite numbers, floored, leaves every other field
    and all delay tables alone, and keeps the policy nonnegative. *)
Theorem applyServerPolicy_spec src p k :
  ints_nonneg p -> truthy src && is_object src = true ->
  ints (applyServerPolicy src p) !! k =
    (if mem_str k policy_keys then policy_value src k (ints p !! k) else ints p !! k) /\
  ints_nonneg (applyServerPolicy src p) /\
  (tables_ok p -> tables_ok (applyServerPolicy src p)).
Proof.
  intros Hnn Hobj.
  assert (forall k, ints (applyServerPolicy src p) !! k =
    if mem_str k policy_keys then policy_value src k (ints p !! k) else ints p !! k) as Hk.
  { intros k'. unfold applyServerPolicy. rewrite Hobj. simpl negb. cbn iota.
    cbn [ints]. apply fold_policy_lookup, policy_keys_NoDup. }
  split; [apply Hk|]. split.
  - intros k' z. rewrite Hk. destruct (mem_str k' policy_keys); [|apply Hnn].
    unfold policy_value. destruct (prop src k') as [| | |[| |q]| | |]; try apply Hnn.
    destruct (Qltb 0 q) eqn:E; [|apply Hnn]. intros [= <-]. by apply Qfloor_nonneg.
  - unfold tables_ok. by destruct (applyServerPolicy_tables src p) as (-> & -> & -> & -> & ->).
Qed.

Lemma applyServerPolicy_spec_witness :
  let src := VObj [("soft_max_attempts", vint 7)] in
  ints (applyServerPolicy src POLICY0) !! "soft_max_attempts" = Some 7.
Proof.
  intros src.
  exact (eq_trans (proj1 (applyServerPolicy_spec src POLICY0 "soft_max_attempts"
    POLICY0_ints_nonneg eq_refl)) eq_refl).
Defined.

(** a positive fraction below one passes the [> 0] test but is stored as
    zero: the policy update can switch a retry class off. *)
Theorem applyServerPolicy_fraction :
  exists src, applyServerPolicy src POLICY0 <> POLICY0 /\
    maxAttemptsFor (applyServerPolicy src POLICY0) "B19_media" = 0 /\
    maxAttemptsFor POLICY0 "B19_media" = 3.
Proof.
  exists (VObj [("soft_max_attempts", VNum (Fin (1 # 2)))]).
  assert (maxAttemptsFor (applyServerPolicy (VObj [("soft_max_attempts", VNum (Fin (1 # 2)))]) POLICY0)
    "B19_media" = 0) as E by (vm_compute; reflexivity).
  split; [|split; [exact E | vm_compute; reflexivity]].
  intros Heq. rewrite Heq in E. vm_compute in E. discriminate.
Qed.

(** ** Fail budget *)

Lemma recordFail_fst id why now s :
  fst (recordFail id why now s) =
    budget_step id why now (s |> pruneFails now |> push_fail why now |> rpa_exhaust_step id why now
      |> deepen_exhaust_step id why now).
Proof. done. Qed.

Lemma budget_step_failTimes id why now s :
  failTimes (budget_step id why now s) = failTimes s /\ POLICY (budget_step id why now s) = POLICY s /\
  rpaQuietUntil (budget_step id why now s) = rpaQuietUntil s /\
  deepenQuietUntil (budget_step id why now s) = deepenQuietUntil s.
Proof. unfold budget_step, report_fail_budget. by branches. Qed.

Lemma deepen_exhaust_step_frame id why now s :
  failTimes (deepen_exhaust_step id why now s) = failTimes s /\
  POLICY (deepen_exhaust_step id why now s) = POLICY s /\
  rpaQuietUntil (deepen_exhaust_step id why now s) = rpaQuietUntil s /\
  state (deepen_exhaust_step id why now s) = state s.
Proof. unfold deepen_exhaust_step. by branches. Qed.

Lemma rpa_exhaust_step_frame id why now s :
  failTimes (rpa_exhaust_step id why now s) = failTimes s /\
  POLICY (rpa_exhaust_step id why now s) = POLICY s /\
  deepenQuietUntil (rpa_exhaust_step id why now s) = deepenQuietUntil s /\
  state (rpa_exhaust_step id why now s) = state s.
Proof. unfold rpa_exhaust_step. by branches. Qed.

Lemma push_fail_frame why now s :
  POLICY (push_fail why now s) = POLICY s /\ state (push_fail why now s) = state s /\
  rpaQuietUntil (push_fail why now s) = rpaQuietUntil s /\
  deepenQuietUntil (push_fail why now s) = deepenQuietUntil s /\
  failTimes (push_fail why now s) =
    (if soft_reason why then failTimes s else failTimes s ++ [now]).
Proof. unfold push_fail. by destruct (soft_reason why). Qed.

(** The fail times after a [recordFail]. *)
Lemma recordFail_failTimes id why now s :
  failTimes (fst (recordFail id why now s)) =
    List.filter (fun x => now - x <? pol (POLICY s) "fail_budget_window_ms") (failTimes s) ++
    (if soft_reason why then [] else [now]).
Proof.
  rewrite recordFail_fst.
  destruct (budget_step_failTimes id why now (deepen_exhaust_step id why now
    (rpa_exhaust_step id why now (push_fail why now (pruneFails now s))))) as (-> & _).
  destruct (deepen_exhaust_step_frame id why now
    (rpa_exhaust_step id why now (push_fail why now (pruneFails now s)))) as (-> & _).
  destruct (rpa_exhaust_step_frame id why now (push_fail why now (pruneFails now s))) as (-> & _).
  destruct (push_fail_frame why now (pruneFails now s)) as (_ & _ & _ & _ & ->).
  unfold pruneFails. simpl. destruct (soft_reason why); [by rewrite app_nil_r | done].
Qed.

(** after [recordFail] every remembered failure lies inside the rolling
    window, the reported count is their number, and a soft reason (timeout,
    abort, pagehide, halt, network) never adds to the budget. *)
Theorem recordFail_window id why now s :
  0 < pol (POLICY s) "fail_budget_window_ms" ->
  let '(s', r) := recordFail id why now s in
  Forall (fun x => now - x < pol (POLICY s) "fail_budget_window_ms") (failTimes s') /\
  failCount r = Z.of_nat (length (failTimes s')) /\
  (soft_reason why = true -> (length (failTimes s') <= length (failTimes s))%nat).
Proof.
  intros Hw. pose proof (recordFail_failTimes id why now s) as Hf.
  destruct (recordFail id why now s) as [s' r] eqn:E. simpl in Hf.
  split; [|split].
  - rewrite Hf. apply Forall_app. split.
    + apply Forall_forall. intros x Hx%list_elem_of_In%filter_In. destruct Hx as [_ Hx]. lia.
    + destruct (soft_reason why); [done|]. apply Forall_singleton. lia.
  - unfold recordFail in E. by injection E as <- <-.
  - intros Hs. rewrite Hf, Hs, app_nil_r. apply filter_length_le.
Qed.

Lemma recordFail_window_witness :
  0 < pol POLICY0 "fail_budget_window_ms" /\
  failCount (snd (recordFail "B2_hardware" "http_500" 1000 (init win0))) = 1.
Proof.
  split; [reflexivity|].
  exact (proj1 (proj2 (recordFail_window "B2_hardware" "http_500" 1000 (init win0) eq_refl))).
Defined.

(** A batch that only the fail budget can hold back. *)
Definition plain_soft (id : string) : bool :=
  negb (isSecondaryInfraBatch id) && negb (isRpaBatch id) && negb (isHardBatch id) &&
  negb (isDeepenBatch id).

(** exceeding the fail budget quiets the soft class for one whole window and
    no longer: the state becomes failed_quiet, every plain soft batch is refused
    until the window ends, and the first query afterwards returns to need_probe
    with an empty budget. *)
Theorem fail_budget_quiet id why now s soft_id now' :
  let '(s', r) := recordFail id why now s in
  overBudget r = true ->
  plain_soft soft_id = true ->
  let w := pol (POLICY s) "fail_budget_window_ms" in
  state s' = FAILED_QUIET /\
  (now' < now + w -> snd (allowEnqueue soft_id now' s') = false) /\
  (now + w <= now' ->
     snd (softQuietActive now' s') = false /\
     state (fst (softQuietActive now' s')) = NEED_PROBE /\
     failTimes (fst (softQuietActive now' s')) = []).
Proof.
  destruct (recordFail id why now s) as [s' r] eqn:E. intros Hover Hsoft w.
  unfold recordFail in E. injection E as Es' Er. rewrite <- Er in Hover. simpl in Hover.
  set (s4 := deepen_exhaust_step id why now _) in *.
  assert (state s' = FAILED_QUIET /\ quietUntil s' = now + w) as [Hst Hq].
  { rewrite <- Es'. unfold budget_step. rewrite Hover.
    assert (POLICY s4 = POLICY s) as Hpol.
    { subst s4. repeat first
        [ rewrite (proj1 (proj2 (deepen_exhaust_step_frame _ _ _ _)))
        | rewrite (proj1 (proj2 (rpa_exhaust_step_frame _ _ _ _)))
        | rewrite (proj1 (push_fail_frame _ _ _)) ]. done. }
    unfold report_fail_budget. branches; by rewrite Hpol. }
  split; [done|]. split.
  - intros Hlt. unfold plain_soft in Hsoft. breflect.
    unfold allowEnqueue, guard_test, softQuietActive.
    repeat match goal with H : _ = false |- _ => rewrite H end.
    destruct (isTimingSensitiveBatch soft_id && negb (timingProbesAllowed s')); [done|].
    rewrite Hst, Hq, bool_decide_true by done. apply Z.ltb_lt in Hlt. rewrite Hlt. simpl.
    repeat match goal with H : _ = false |- _ => rewrite H end. done.
  - intros Hge. unfold softQuietActive. rewrite Hst, Hq, bool_decide_true by done.
    destruct (Z.ltb_spec now' (now + w)); [lia|]. destruct (Z.leb_spec (now + w) now'); [done|lia].
Qed.

Lemma fail_budget_quiet_witness :
  let s := init win0 |> set_failTimes (repeat 1000 17) in
  let s' := fst (recordFail "B19_media" "http_500" 1001 s) in
  overBudget (snd (recordFail "B19_media" "http_500" 1001 s)) = true /\
  state s' = FAILED_QUIET /\ snd (allowEnqueue "B19_media" 50000 s') = false.
Proof.
  intros s s'. split; [vm_compute; reflexivity|].
  pose proof (fail_budget_quiet "B19_media" "http_500" 1001 s "B19_media" 50000) as H.
  destruct (H ltac:(vm_compute; reflexivity) ltac:(vm_compute; reflexivity)) as (H1 & H2 & _).
  split; [exact H1 | apply H2; vm_compute; reflexivity].
Defined.

(** hard commercial anchors and the secondary silicon batches are admitted
    in every state: no quiet window, fail budget or compute pressure (for the
    hard ones) can refuse them. *)
Theorem hard_always_allowed id now s :
  isHardBatch id = true \/ isSecondaryInfraBatch id = true ->
  snd (allowEnqueue id now s) = true.
Proof.
  unfold allowEnqueue. intros H. destruct (isSecondaryInfraBatch id) eqn:Esec; [done|].
  destruct H as [H|H]; [|done].
  assert (isTimingSensitiveBatch id = false) as Ht by (hard_cases H).
  rewrite (hard_not_rpa id H), (hard_not_deepen id H), Ht. simpl.
  destruct (softQuietActive now s) as [s3 q3]. rewrite H. by destruct q3.
Qed.

Lemma hard_always_allowed_witness :
  isHardBatch "B10_hw_curves" = true /\
  snd (allowEnqueue "B10_hw_curves" 5 (init win0 |> set_state FAILED_QUIET |> set_quietUntil 100)) = true.
Proof.
  split; [reflexivity|]. apply hard_always_allowed. left. reflexivity.
Defined.

(** ** State machine *)

Lemma softQuietActive_state now s :
  state (fst (softQuietActive now s)) = state s \/
  state s = FAILED_QUIET /\ state (fst (softQuietActive now s)) = NEED_PROBE.
Proof. unfold softQuietActive. branches; simpl; auto. Qed.

Lemma allowEnqueue_cool id now s :
  state s = COMPLETE_COOL -> state (fst (allowEnqueue id now s)) = COMPLETE_COOL.
Proof.
  intros Hs. unfold allowEnqueue. destruct (isSecondaryInfraBatch id); [done|].
  assert (forall g f s, (forall s, state (fst (f s)) = state s) -> state s = COMPLETE_COOL ->
    state (fst (guard_test g f s)) = COMPLETE_COOL) as Hg.
  { intros g f s0 Hf <-. by apply state_guard_test. }
  pose proof (Hg (isRpaBatch id) (rpaQuietActive now) s) as H1.
  destruct (guard_test (isRpaBatch id) (rpaQuietActive now) s) as [s1 q1]. simpl in H1.
  assert (state s1 = COMPLETE_COOL) as Hs1.
  { apply H1; [|done]. intros s0. by destruct (rpaQuietActive_frame now s0) as [z ->]. }
  destruct q1; [done|]. destruct (_ && negb (timingProbesAllowed s1)); [done|].
  pose proof (Hg (isDeepenBatch id) (deepenQuietActive now) s1) as H2.
  destruct (guard_test (isDeepenBatch id) (deepenQuietActive now) s1) as [s2 q2]. simpl in H2.
  assert (state s2 = COMPLETE_COOL) as Hs2.
  { apply H2; [|done]. intros s0. by destruct (deepenQuietActive_frame now s0) as [z ->]. }
  destruct (q2 && _); [done|].
  pose proof (softQuietActive_state now s2) as H3.
  destruct (softQuietActive now s2) as [s3 q3]. simpl in H3.
  assert (state s3 = COMPLETE_COOL) by (destruct H3 as [?|[? ?]]; congruence).
  by destruct (q3 && _ && _).
Qed.

Lemma recordFail_state id why now s :
  state (fst (recordFail id why now s)) = FAILED_QUIET \/
  (soft_reason why = true /\ state (fst (recordFail id why now s)) = state s) \/
  (soft_reason why = false /\ state (fst (recordFail id why now s)) = RETRY_BACKOFF).
Proof.
  rewrite recordFail_fst. unfold budget_step. destruct (over_budget _).
  - left. unfold report_fail_budget. by branches.
  - right. destruct (soft_reason why) eqn:E; [left | right; done]. split; [done|].
    rewrite (proj2 (proj2 (proj2 (deepen_exhaust_step_frame _ _ _ _)))).
    rewrite (proj2 (proj2 (proj2 (rpa_exhaust_step_frame _ _ _ _)))).
    by rewrite (proj1 (proj2 (push_fail_frame _ _ _))).
Qed.

(** complete_cool is left only by an explicit [markNeedProbe] or by a
    recorded failure; every other handler (probing, cool, open, policy, queue
    admission, snapshot) keeps it. *)
Theorem complete_cool_stable o now s :
  state s = COMPLETE_COOL ->
  state (run o now s) = COMPLETE_COOL \/
  (exists reason, o = OpNeedProbe reason /\ state (run o now s) = NEED_PROBE) \/
  (exists id why, o = OpRecordFail id why /\
     (state (run o now s) = RETRY_BACKOFF \/ state (run o now s) = FAILED_QUIET)).
Proof.
  intros Hs. destruct o as [src|id why|id| |reason|source|opened|]; cbn [run]; auto.
  - destruct (recordFail_state id why now s) as [H|[[_ H]|[_ H]]]; eauto 10.
    left. congruence.
  - left. by apply allowEnqueue_cool.
  - left. unfold markProbing. rewrite Hs. done.
  - eauto.
  - left. unfold deriveFromOpen. destruct (open_is_cool _); [done|]. simpl.
    unfold markProbing. by rewrite Hs.
Qed.

Lemma complete_cool_stable_witness :
  state (markCool "open" (init win0)) = COMPLETE_COOL /\
  (state (run OpProbing 7 (markCool "open" (init win0))) = COMPLETE_COOL \/
   (exists reason, OpProbing = OpNeedProbe reason /\
      state (run OpProbing 7 (markCool "open" (init win0))) = NEED_PROBE) \/
   (exists id why, OpProbing = OpRecordFail id why /\
     (state (run OpProbing 7 (markCool "open" (init win0))) = RETRY_BACKOFF \/
      state (run OpProbing 7 (markCool "open" (init win0))) = FAILED_QUIET))).
Proof. split; [reflexivity|]. apply complete_cool_stable. reflexivity. Defined.

(** [deriveFromOpen] goes cool exactly when the open response asks for cool
    (phase, skip flag or business state), the brain schedule is final (or the
    business state already says identity_complete_cool), and neither a hard
    anchor nor a forced probe is requested; otherwise it keeps probing unless
    already cool.  In particular a thin [phase=cool] never stops the probe. *)
Theorem deriveFromOpen_spec opened s :
  truthy opened = true ->
  let '(s', r) := deriveFromOpen opened s in
  (r = IDLE_COOL <-> open_is_cool opened = true) /\
  (r = IDLE_COOL -> state s' = COMPLETE_COOL /\
     truthy (prop opened "need_hard_anchor") = false /\
     truthy (prop opened "force_identity_probe") = false) /\
  (r = PROBING -> state s <> COMPLETE_COOL -> state s <> IDLE_COOL -> state s' = PROBING) /\
  (opened = VObj [("phase", VStr "cool")] -> r = PROBING).
Proof.
  intros Ht. unfold deriveFromOpen, jor. rewrite Ht.
  destruct (open_is_cool opened) eqn:E.
  - repeat split; try done.
    + unfold open_is_cool in E. by breflect.
    + unfold open_is_cool in E. by breflect.
    + intros ->. vm_compute in E. discriminate.
  - repeat split; try done. intros _ H1 H2. unfold markProbing.
    by rewrite !bool_decide_false by done.
Qed.

Lemma deriveFromOpen_spec_witness :
  let opened := VObj [("phase", VStr "cool"); ("brain_schedule_final", VBool true)] in
  truthy opened = true /\ open_is_cool opened = true /\
  snd (deriveFromOpen opened (init win0)) = IDLE_COOL.
Proof.
  intros opened. split; [reflexivity|]. split; [vm_compute; reflexivity|].
  apply (proj1 (deriveFromOpen_spec opened (init win0) eq_refl)). vm_compute. reflexivity.
Defined.
