(* ===== verification/Scheduler.v ===== *)
(** * Session scheduler ([probe/fe/session_scheduler.js])

    The single arbiter of probe kicks: plan-epoch freshness, cool, busy,
    debounce, then kick.  The scheduler calls the lifecycle, the upload queue
    and the kick functions of the page through the interface [SchedWorld]; its
    theorems hold for every implementation of it ([ProbeLoop] gives the real one, [Demo] a small one).

    The scheduler's own variables are [t]; the rest of the page is the world
    [W].  A call into the page may throw: [outcome].  A kick function does not
    re-enter the scheduler. *)

From Stdlib Require Import QArith Lqa.
From S2P Require Import Prelude JsVal Window.
#[local] Open Scope Z_scope.

(** A call that returns normally or throws an [Error] with a message. *)
Inductive outcome (W : Type) :=
| Ret (w : W)
| Throw (w : W) (msg : string).
Arguments Ret {W}. Arguments Throw {W}.

Definition world_of {W} (o : outcome W) : W := match o with Ret w => w | Throw w _ => w end.

(** [{ force, plan_epoch, session_id }] given to the bound kick handler. *)
Record kick_opts := mkKickOpts { ko_force : bool; ko_epoch : Q; ko_session : string }.

(** What the scheduler needs from the rest of the page. *)
Class SchedWorld (W : Type) := {
  sw_win : W -> Win;
  sw_set_win : Win -> W -> W;
  (** [GRProbeLifecycle.getState()], [None] when the module is not loaded *)
  sw_getState : W -> option string;
  (** [markNeedProbe], [markProbing]: [None] when absent *)
  sw_markNeedProbe : W -> option (val -> W -> outcome W);
  sw_markProbing : W -> option (W -> outcome W);
  (** [GRUploadQueue.stats()]: pending and inflight counts *)
  sw_queue : W -> option (num * num);
  (** [grResumeProbeCycle], [grKickRoutePlan], [GRBoot.resumeProbe] *)
  sw_resume : W -> option (val -> W -> outcome W);
  sw_route : W -> option (val -> W -> outcome W);
  sw_boot : W -> option (val -> W -> outcome W)
}.

Record pend := mkPend { p_reason : val; p_epoch : Q; p_force : bool; p_at : Z }.

Record counters := mkCounters {
  events : Z; kicked : Z; deferred_busy : Z; deferred_debounce : Z;
  dropped_stale_epoch : Z; dropped_cool : Z; kick_errors : Z
}.

Definition eta_counters (c : counters) : counters :=
  mkCounters (events c) (kicked c) (deferred_busy c) (deferred_debounce c)
    (dropped_stale_epoch c) (dropped_cool c) (kick_errors c).
Definition bump_events (c : counters) : counters := ltac:(upd eta_counters events c (events c + 1)).
Definition bump_kicked (c : counters) : counters := ltac:(upd eta_counters kicked c (kicked c + 1)).
Definition bump_busy (c : counters) : counters :=
  ltac:(upd eta_counters deferred_busy c (deferred_busy c + 1)).
Definition bump_debounce (c : counters) : counters :=
  ltac:(upd eta_counters deferred_debounce c (deferred_debounce c + 1)).
Definition bump_stale (c : counters) : counters :=
  ltac:(upd eta_counters dropped_stale_epoch c (dropped_stale_epoch c + 1)).
Definition bump_cool (c : counters) : counters :=
  ltac:(upd eta_counters dropped_cool c (dropped_cool c + 1)).
Definition bump_errors (c : counters) : counters :=
  ltac:(upd eta_counters kick_errors c (kick_errors c + 1)).

Section Scheduler.
Context {W : Type} `{!SchedWorld W}.

Definition kick_fn := val -> kick_opts -> W -> outcome W.
Definition event_fn := string -> list (string * val) -> W -> outcome W.

(** The module's variables. *)
Record t := mk {
  sessionId : string;
  planEpoch : Q;
  lastArmMs : Z;
  pending : option pend;
  debounceMs : num;
  h_kick : option kick_fn;
  h_onEvent : option event_fn;
  stats : counters
}.

Definition eta (s : t) : t :=
  mk (sessionId s) (planEpoch s) (lastArmMs s) (pending s) (debounceMs s) (h_kick s)
     (h_onEvent s) (stats s).
Definition set_sessionId (v : string) (s : t) : t := ltac:(upd eta sessionId s v).
Definition set_planEpoch (v : Q) (s : t) : t := ltac:(upd eta planEpoch s v).
Definition set_lastArmMs (v : Z) (s : t) : t := ltac:(upd eta lastArmMs s v).
Definition set_pending (v : option pend) (s : t) : t := ltac:(upd eta pending s v).
Definition set_debounceMs (v : num) (s : t) : t := ltac:(upd eta debounceMs s v).
Definition set_h_kick (v : option kick_fn) (s : t) : t := ltac:(upd eta h_kick s v).
Definition set_h_onEvent (v : option event_fn) (s : t) : t := ltac:(upd eta h_onEvent s v).
Definition set_stats (f : counters -> counters) (s : t) : t := ltac:(upd eta stats s (f (stats s))).

Definition init : t :=
  mk "" 0 0 None (num_Z 5000) None None (mkCounters 0 0 0 0 0 0 0).

(** ** Tests on the page *)

Definition isCool (w : W) : bool :=
  let g := sw_win w in
  if gtrue "__GR_BRAIN_SCHEDULE_FINAL__" g || gtrue "__GR_HARD_FINAL__" g then true else
  if gtrue "__GR_HALT_UPLOADS__" g && gtrue "__GR_SKIP_IDENTITY__" g then true else
  match sw_getState w with
  | Some st => (st =s "complete_cool") || (st =s "idle_cool")
  | None => false
  end.

Definition uploadIsBusy (w : W) : bool :=
  match sw_queue w with
  | Some (p, i) => num_ltb (num_Z 0) p || num_ltb (num_Z 0) i
  | None => false
  end.

Definition isBusy (w : W) : bool := gtrue "__GR_MULTI_TICK_ACTIVE__" (sw_win w).

(** ** Session and epoch *)

Definition setSession (sid : string) (s : t) : t :=
  if (sid <>s "") && (sid <>s sessionId s) then
    s |> set_sessionId sid |> set_planEpoch 0 |> set_pending None
  else if sid <>s "" then s |> set_sessionId sid
  else s.

Definition setPlanEpoch (ep : val) (s : t) : t * Q :=
  match to_num ep with
  | Fin n =>
    if Qltb n 0 then (s, planEpoch s) else
    let s' := if Qltb (planEpoch s) n then s |> set_planEpoch n else s in
    (s', planEpoch s')
  | _ => (s, planEpoch s)
  end.

Definition getPlanEpoch (s : t) : Q := planEpoch s.

(** ** Execute *)

(** [String((e && e.message) || e || "").slice(0, 120)] *)
Definition err_text (msg : string) : string := String.substring 0 120 msg.

Definition report_err (code sev : string) (reason : val) (msg : string) (w : W) : W :=
  sw_set_win (ops_report code "scheduler" [("reason", reason); ("err", VStr (err_text msg))] sev
    (sw_win w)) w.

(** The two lifecycle marks: the second is skipped when the first throws. *)
Definition lifecycle_marks (reason : val) (w : W) : outcome W :=
  match sw_getState w with
  | None => Ret w
  | Some _ =>
    let o := match sw_markNeedProbe w with Some f => f reason w | None => Ret w end in
    match o with
    | Throw w' m => Throw w' m
    | Ret w' => match sw_markProbing w' with Some f => f w' | None => Ret w' end
    end
  end.

(** The kick target: the bound handler, else the page's functions in order. *)
Definition call_kick (reason : val) (force : bool) (s : t) (w : W) : outcome W :=
  match h_kick s with
  | Some f => f reason (mkKickOpts force (planEpoch s) (sessionId s)) w
  | None =>
    match sw_resume w with
    | Some f => f reason w
    | None =>
      match sw_route w with
      | Some f => f reason w
      | None => match sw_boot w with Some f => f reason w | None => Ret w end
      end
    end
  end.

Inductive result :=
| RStale (epoch : Q)
| RCool
| RBusy
| RDebounce
| RError (err : string) (reason : val) (epoch : Q)
| ROk (reason : val) (epoch : Q).

Definition notify (name : string) (detail : list (string * val)) (s : t) (w : W) : W :=
  match h_onEvent s with
  | Some f => world_of (f name detail w)
  | None => w
  end.

Definition execute (reason : val) (force : bool) (now : Z) (sw : t * W) : t * W * result :=
  let '(s, w) := sw in
  let s1 := s |> set_lastArmMs now |> set_pending None |> set_stats bump_kicked in
  let '(s2, w2) :=
    match lifecycle_marks reason w with
    | Ret w' => (s1, w')
    | Throw w' m => (s1 |> set_stats bump_errors,
                     report_err "scheduler_lifecycle_fail" "warn" reason m w')
    end in
  match call_kick reason force s2 w2 with
  | Ret w3 => (s2, w3, ROk reason (planEpoch s2))
  | Throw w3 m =>
    let s3 := s2 |> set_stats bump_errors in
    let w4 := report_err "scheduler_kick_fail" "error" reason m w3 in
    let w5 := notify "kick_error" [("reason", reason); ("err", VStr (err_text m))] s3 w4 in
    (s3, w5, RError (err_text m) reason (planEpoch s3))
  end.

(** ** Submit *)

Record submit_opts := mkOpts {
  o_force : bool; o_plan_epoch : val; o_wait_for_upload : bool
}.

(** [opts.plan_epoch != null ? Number(opts.plan_epoch) : null], kept when finite. *)
Definition opt_epoch (o : submit_opts) : option Q :=
  if nonnull (o_plan_epoch o) then
    match to_num (o_plan_epoch o) with Fin q => Some q | _ => None end
  else None.

Definition is_stale (o : submit_opts) (s : t) : bool :=
  match opt_epoch o with
  | Some ep => Qltb 0 ep && Qltb ep (planEpoch s) && negb (o_force o)
  | None => false
  end.

Definition adopt_epoch (o : submit_opts) (s : t) : t :=
  match opt_epoch o with
  | Some ep => if Qltb (planEpoch s) ep then s |> set_planEpoch ep else s
  | None => s
  end.

Definition defer (dflt : string) (reason : val) (now : Z) (s : t) : t :=
  s |> set_pending (Some (mkPend (jor reason (VStr dflt)) (planEpoch s) false now)).

(** [!force && (isBusy() || (opts.wait_for_upload && uploadIsBusy()))] *)
Definition busy_now (o : submit_opts) (w : W) : bool :=
  negb (o_force o) && (isBusy w || (o_wait_for_upload o && uploadIsBusy w)).

Definition debounced_now (reason : val) (o : submit_opts) (now : Z) (s : t) : bool :=
  negb (o_force o) && num_ltb (num_Z (now - lastArmMs s)) (debounceMs s) &&
  negb (is_str reason "server_incomplete") && negb (is_str reason "route_plan").

Definition cool_now (o : submit_opts) (w : W) : bool :=
  isCool w && negb (o_force o) && negb (gtrue "__GR_FORCE_REPROBE__" (sw_win w)).

Definition submit (reason : val) (o : submit_opts) (now : Z) (sw : t * W) : t * W * result :=
  let '(s0, w) := sw in
  let s := s0 |> set_stats bump_events in
  if is_stale o s then
    let s1 := s |> set_stats bump_stale in
    let ep := match opt_epoch o with Some q => VNum (Fin q) | None => VNull end in
    (s1, notify "stale_epoch" [("reason", reason); ("ep", ep);
                               ("planEpoch", VNum (Fin (planEpoch s)))] s1 w,
     RStale (planEpoch s))
  else
  let s1 := adopt_epoch o s in
  if cool_now o w then (s1 |> set_stats bump_cool, w, RCool) else
  if busy_now o w then (s1 |> defer "busy" reason now |> set_stats bump_busy, w, RBusy) else
  if debounced_now reason o now s1 then
    (s1 |> defer "debounce" reason now |> set_stats bump_debounce, w, RDebounce)
  else execute (jor reason (VStr "submit")) (o_force o) now (s1, w).

(** ** Tick: flush the deferred event if idle *)

Definition tick (now : Z) (sw : t * W) : t * W * option result :=
  let '(s, w) := sw in
  match pending s with
  | None => (s, w, None)
  | Some p =>
    if isCool w && negb (p_force p) then (s |> set_pending None, w, None) else
    if isBusy w then (s, w, None) else
    let '(sw', r) := execute (p_reason p) (p_force p) now (s |> set_pending None, w) in
    (sw', Some r)
  end.

(** ** Route plans *)

Definition plan_epoch_of (plan analysisRev : val) : num :=
  if nonnull (prop plan "plan_epoch") then to_num (prop plan "plan_epoch") else
  if nonnull (prop plan "plan_version") then to_num (prop plan "plan_version") else
  if nonnull analysisRev then to_num analysisRev else num_Z 0.

Inductive accept_result :=
| ANoEpoch (epoch : Q)
| AStale (epoch got : Q)
| AOk (epoch : Q).

Definition acceptRoutePlan (plan0 analysisRev : val) (sw : t * W) : t * W * accept_result :=
  let '(s, w) := sw in
  let plan := jor plan0 empty_obj in
  match plan_epoch_of plan analysisRev with
  | Fin ep =>
    if Qle_bool ep 0 then (s, w, ANoEpoch (planEpoch s)) else
    if Qltb ep (planEpoch s) then
      (s |> set_stats bump_stale, w, AStale (planEpoch s) ep)
    else
      (s |> set_planEpoch ep,
       sw_set_win (gset "__GR_PLAN_EPOCH__" (VNum (Fin ep)) (sw_win w)) w, AOk ep)
  | _ => (s, w, ANoEpoch (planEpoch s))
  end.

(** ** Bind *)

Record bind_opts := mkBind {
  b_kick : option kick_fn; b_onEvent : option event_fn;
  b_debounce_ms : val; b_session_id : string
}.

(** [Math.max(0, x)] on a number that is not NaN *)
Definition num_max0 (n : num) : num := if num_ltb n (num_Z 0) then num_Z 0 else n.

Definition bind (o : bind_opts) (s : t) : t :=
  let s1 := match b_kick o with Some f => s |> set_h_kick (Some f) | None => s end in
  let s2 := match b_onEvent o with Some f => s1 |> set_h_onEvent (Some f) | None => s1 end in
  let s3 := if nonnull (b_debounce_ms o)
            then s2 |> set_debounceMs (num_max0 (to_num_or (b_debounce_ms o) (num_Z 0)))
            else s2 in
  if b_session_id o <>s "" then setSession (b_session_id o) s3 else s3.

(** [snapshot()]: the variables, the three tests and the counters. *)
Definition snapshot (sw : t * W) :=
  let '(s, w) := sw in
  (sessionId s, planEpoch s, pending s, debounceMs s, isBusy w, uploadIsBusy w, isCool w, stats s).

(** ** Step function *)

Inductive op :=
| OpSubmit (reason : val) (o : submit_opts)
| OpTick
| OpAccept (plan rev : val)
| OpSetEpoch (ep : val)
| OpSetSession (sid : string)
| OpBind (o : bind_opts).

Definition run (o : op) (now : Z) (sw : t * W) : t * W :=
  match o with
  | OpSubmit reason opts => fst (submit reason opts now sw)
  | OpTick => fst (tick now sw)
  | OpAccept plan rev => fst (acceptRoutePlan plan rev sw)
  | OpSetEpoch ep => (fst (setPlanEpoch ep (fst sw)), snd sw)
  | OpSetSession sid => (setSession sid (fst sw), snd sw)
  | OpBind b => (bind b (fst sw), snd sw)
  end.

(** The page may change between two handlers: any [W]. *)
Inductive step : t * W -> t * W -> Prop :=
| step_op o now sw : step sw (run o now sw)
| step_page s w w' : step (s, w) (s, w').

(** ** Vocabulary of the theorems *)

(** What every execution does to the scheduler's variables. *)
Definition executed (now : Z) (s s' : t) : Prop :=
  planEpoch s' = planEpoch s /\ sessionId s' = sessionId s /\ pending s' = None /\
  lastArmMs s' = now /\ kicked (stats s') = kicked (stats s) + 1 /\
  events (stats s') = events (stats s) /\
  deferred_busy (stats s') = deferred_busy (stats s) /\
  deferred_debounce (stats s') = deferred_debounce (stats s) /\
  dropped_stale_epoch (stats s') = dropped_stale_epoch (stats s) /\
  dropped_cool (stats s') = dropped_cool (stats s).

(** Outcomes recorded so far. *)
Definition outcomes (c : counters) : Z :=
  kicked c + deferred_busy c + deferred_debounce c + dropped_stale_epoch c + dropped_cool c.

(** A submission was turned into a kick. *)
Definition is_kick (r : result) : bool :=
  match r with RError _ _ _ | ROk _ _ => true | _ => false end.

(** The arbitration rule of [submit] as one formula. *)
Definition may_kick (reason : val) (o : submit_opts) (now : Z) (s : t) (w : W) : bool :=
  o_force o ||
  negb (is_stale o s) && negb (isCool w && negb (gtrue "__GR_FORCE_REPROBE__" (sw_win w))) &&
  negb (isBusy w || (o_wait_for_upload o && uploadIsBusy w)) &&
  (negb (num_ltb (num_Z (now - lastArmMs s)) (debounceMs s)) ||
   is_str reason "server_incomplete" || is_str reason "route_plan").

(** A [setSession] or [bind] that names a session other than the current one. *)
Definition changes_session (o : op) (s : t) : bool :=
  match o with
  | OpSetSession sid => (sid <>s "") && (sid <>s sessionId s)
  | OpBind b => (b_session_id b <>s "") && (b_session_id b <>s sessionId s)
  | _ => false
  end.

(** Steps of one session. *)
Inductive session_step : t * W -> t * W -> Prop :=
| session_op o now sw : changes_session o (fst sw) = false -> session_step sw (run o now sw)
| session_page s w w' : session_step (s, w) (s, w').

(** ** Lemmas *)

Lemma execute_frame reason force now s w :
  let '(s', w', r) := execute reason force now (s, w) in
  executed now s s' /\ is_kick r = true.
Proof.
  unfold execute, executed. destruct (lifecycle_marks reason w) as [w1|w1 m1];
    destruct (call_kick _ _ _ _) as [w2|w2 m2]; by simpl.
Qed.

Lemma adopt_epoch_frame o s :
  stats (adopt_epoch o s) = stats s /\ lastArmMs (adopt_epoch o s) = lastArmMs s /\
  debounceMs (adopt_epoch o s) = debounceMs s /\ sessionId (adopt_epoch o s) = sessionId s /\
  (planEpoch s <= planEpoch (adopt_epoch o s))%Q.
Proof.
  unfold adopt_epoch. destruct (opt_epoch o) as [ep|]; [|repeat split; apply Qle_refl].
  destruct (Qltb _ ep) eqn:E; repeat split; try apply Qle_refl.
  simpl. by apply Qlt_le_weak, Qltb_lt.
Qed.

(** [submit] takes the kick branch exactly when [may_kick] says so. *)
Lemma submit_cases reason o now s w :
  let s0 := s |> set_stats bump_events in
  let s1 := adopt_epoch o s0 in
  let '(s', w', r) := submit reason o now (s, w) in
  is_kick r = may_kick reason o now s w /\
  if is_kick r then (s', w', r) = execute (jor reason (VStr "submit")) (o_force o) now (s1, w)
  else
    (r = RStale (planEpoch s) /\ is_stale o s = true /\ s' = (s0 |> set_stats bump_stale)) \/
    w' = w /\
    ((r = RCool /\ s' = (s1 |> set_stats bump_cool)) \/
     (r = RBusy /\ s' = (s1 |> defer "busy" reason now |> set_stats bump_busy)) \/
     (r = RDebounce /\ s' = (s1 |> defer "debounce" reason now |> set_stats bump_debounce))).
Proof.
  intros s0 s1. unfold submit. fold s0.
  assert (is_stale o s0 = is_stale o s) as Hst by done. rewrite Hst.
  destruct (is_stale o s) eqn:Estale.
  { split; [|left; done]. unfold may_kick. rewrite Estale.
    assert (o_force o = false) as ->; [|done].
    unfold is_stale in Estale. destruct (opt_epoch o); by breflect. }
  fold s1. unfold cool_now, busy_now, debounced_now.
  destruct (adopt_epoch_frame o s0) as (_ & Harm & Hdeb & _). fold s1 in Harm, Hdeb.
  rewrite Harm, Hdeb. unfold may_kick. rewrite Estale.
  change (lastArmMs s0) with (lastArmMs s). change (debounceMs s0) with (debounceMs s).
  destruct (o_force o) eqn:Ef; rewrite ?andb_false_r, ?andb_true_r; cbn [andb orb negb].
  { pose proof (execute_frame (jor reason (VStr "submit")) true now s1 w) as Hx.
    destruct (execute _ _ _ _) as [[s' w'] r]. destruct Hx as [_ ->]. done. }
  destruct (isCool w && negb (gtrue _ _)) eqn:Ec; cbn [andb orb negb].
  { split; [done|]. right. split; [done|]. by left. }
  destruct (isBusy w || _) eqn:Eb; cbn [andb orb negb].
  { split; [done|]. right. split; [done|]. right. by left. }
  destruct (num_ltb _ _ && _ && _) eqn:Ed; cbn [andb orb negb].
  { breflect. repeat match goal with H : _ = _ |- _ => rewrite H end.
    split; [done|]. right. split; [done|]. right. by right. }
  assert (negb (num_ltb (num_Z (now - lastArmMs s)) (debounceMs s)) ||
    is_str reason "server_incomplete" || is_str reason "route_plan" = true) as ->.
  { destruct (num_ltb _ _), (is_str reason "server_incomplete"), (is_str reason "route_plan"); done. }
  pose proof (execute_frame (jor reason (VStr "submit")) false now s1 w) as Hx.
  destruct (execute _ _ _ _) as [[s' w'] r]. by destruct Hx as [_ ->].
Qed.

Lemma setSession_same sid s :
  (sid <>s "") && (sid <>s sessionId s) = false ->
  planEpoch (setSession sid s) = planEpoch s /\ pending (setSession sid s) = pending s.
Proof. intros H. unfold setSession. rewrite H. by destruct (sid <>s ""). Qed.

Lemma bind_epoch b s :
  changes_session (OpBind b) s = false -> planEpoch (bind b s) = planEpoch s.
Proof.
  intros H. unfold bind. destruct (b_session_id b <>s "") eqn:E;
    [|by destruct (b_kick b), (b_onEvent b), (nonnull _)].
  match goal with |- planEpoch (setSession ?i ?x) = _ =>
    assert (sessionId x = sessionId s /\ planEpoch x = planEpoch s) as [H1 H2]
      by (by destruct (b_kick b), (b_onEvent b), (nonnull _));
    destruct (setSession_same i x) as [-> _]; [|done] end.
  rewrite H1. exact H.
Qed.

(** ** Theorems *)

(** [submit] kicks exactly when the arbitration rule allows it (forced; or
    the plan epoch is not stale, the session is not cool unless a reprobe is
    forced, no probe cycle is running, and the debounce has elapsed or the
    reason is exempt), and a submission that does not kick leaves the page
    untouched except for the stale-epoch notification. *)
Theorem submit_kicks_iff reason o now s w :
  let '(s', w', r) := submit reason o now (s, w) in
  is_kick r = may_kick reason o now s w /\
  (is_kick r = false -> lastArmMs s' = lastArmMs s /\
     (w' = w \/ r = RStale (planEpoch s))).
Proof.
  pose proof (submit_cases reason o now s w) as H. cbv zeta in H.
  destruct (submit reason o now (s, w)) as [[s' w'] r]. destruct H as [Hk H].
  split; [done|]. intros Hr. rewrite Hr in H.
  destruct (adopt_epoch_frame o (set_stats bump_events s)) as (_ & Harm & _).
  destruct H as [(-> & _ & ->)|[-> [[-> ->]|[[-> ->]|[-> ->]]]]]; simpl; rewrite ?Harm; auto.
Qed.

(** within one session the plan epoch never decreases, whatever events,
    ticks, plans and page changes happen in whatever order. *)
Theorem plan_epoch_monotone sw sw' :
  star session_step sw sw' -> (planEpoch (fst sw) <= planEpoch (fst sw'))%Q.
Proof.
  intros H. induction H as [sw|sw1 sw2 sw3 Hstep _ IH]; [apply Qle_refl|].
  eapply Qle_trans; [|exact IH]. clear IH.
  destruct Hstep as [o now [s w] Hch|]; [|apply Qle_refl].
  destruct o as [reason o| |plan rev|ep|sid|b]; cbn [run fst].
  - pose proof (submit_cases reason o now s w) as H. cbv zeta in H.
    destruct (submit reason o now (s, w)) as [[s' w'] r]. destruct H as [_ H]. cbn [fst].
    destruct (adopt_epoch_frame o (set_stats bump_events s)) as (_ & _ & _ & _ & Hle).
    destruct (is_kick r).
    + pose proof (execute_frame (jor reason (VStr "submit")) (o_force o) now
        (adopt_epoch o (set_stats bump_events s)) w) as Hx.
      rewrite <- H in Hx. destruct Hx as [(-> & _) _]. exact Hle.
    + destruct H as [(_ & _ & ->)|[_ [[_ ->]|[[_ ->]|[_ ->]]]]]; try exact Hle. apply Qle_refl.
  - unfold tick. destruct (pending s) as [p|]; [|apply Qle_refl].
    destruct (isCool w && _); [apply Qle_refl|]. destruct (isBusy w); [apply Qle_refl|].
    pose proof (execute_frame (p_reason p) (p_force p) now (set_pending None s) w) as Hx.
    destruct (execute _ _ _ _) as [[s' w'] r]. cbn [fst]. destruct Hx as [(-> & _) _]. apply Qle_refl.
  - unfold acceptRoutePlan. destruct (plan_epoch_of _ _) as [| |q]; try apply Qle_refl.
    destruct (Qle_bool q 0); [apply Qle_refl|].
    destruct (Qltb q (planEpoch s)) eqn:E; [apply Qle_refl|]. by apply Qltb_ge.
  - unfold setPlanEpoch. destruct (to_num ep) as [| |q]; try apply Qle_refl.
    destruct (Qltb q 0); [apply Qle_refl|].
    destruct (Qltb (planEpoch s) q) eqn:E; [|apply Qle_refl]. by apply Qlt_le_weak, Qltb_lt.
  - destruct (setSession_same sid s Hch) as [-> _]. apply Qle_refl.
  - rewrite (bind_epoch b s Hch). apply Qle_refl.
Qed.

(** every submission is accounted for exactly once: the sum of the kicked,
    deferred and dropped counters grows by one, as does the event counter. *)
Theorem submit_accounting reason o now s w :
  let '(s', w', r) := submit reason o now (s, w) in
  events (stats s') = events (stats s) + 1 /\
  outcomes (stats s') = outcomes (stats s) + 1.
Proof.
  pose proof (submit_cases reason o now s w) as H. cbv zeta in H.
  destruct (submit reason o now (s, w)) as [[s' w'] r]. destruct H as [_ H].
  destruct (adopt_epoch_frame o (set_stats bump_events s)) as (Hst & _).
  unfold outcomes. destruct (is_kick r).
  - pose proof (execute_frame (jor reason (VStr "submit")) (o_force o) now
        (adopt_epoch o (set_stats bump_events s)) w) as Hx.
    rewrite <- H in Hx. destruct Hx as [(_ & _ & _ & _ & Hk & He & Hb & Hd & Hs & Hc) _].
    rewrite Hst in *. simpl in *. lia.
  - destruct H as [(_ & _ & ->)|[_ [[_ ->]|[[_ ->]|[_ ->]]]]]; simpl; rewrite ?Hst; simpl; lia.
Qed.

(** no wake-up is lost: a submission deferred as busy or debounced is
    pending, and the first tick on a page that is neither cool nor running a
    cycle executes exactly that reason, unforced, and clears it. *)
Theorem deferred_is_drained reason o now s w now' w_later :
  let '(s', _, r) := submit reason o now (s, w) in
  r = RBusy \/ r = RDebounce ->
  isCool w_later = false -> isBusy w_later = false ->
  exists dflt,
    fst (tick now' (s', w_later)) =
      fst (execute (jor reason (VStr dflt)) false now' (s' |> set_pending None, w_later)) /\
    pending (fst (fst (tick now' (s', w_later)))) = None /\
    kicked (stats (fst (fst (tick now' (s', w_later))))) = kicked (stats s') + 1.
Proof.
  pose proof (submit_cases reason o now s w) as H. cbv zeta in H.
  destruct (submit reason o now (s, w)) as [[s' w'] r]. destruct H as [_ H].
  intros Hr Hcool Hbusy.
  assert (exists dflt, pending s' = Some (mkPend (jor reason (VStr dflt))
    (planEpoch (adopt_epoch o (set_stats bump_events s))) false now)) as [dflt Hp].
  { destruct Hr as [-> | ->]; simpl in H;
      destruct H as [(H & _)|[_ [[H _]|[[H ->]|[H ->]]]]]; try discriminate H;
      [by exists "busy" | by exists "debounce"]. }
  clear H. exists dflt. unfold tick. rewrite Hp, Hcool, Hbusy. cbn [andb negb p_reason p_force].
  pose proof (execute_frame (jor reason (VStr dflt)) false now' (set_pending None s') w_later) as Hx.
  destruct (execute _ _ _ _) as [[s2 w2] r2]. by destruct Hx as [(_ & _ & ? & _ & ? & _) _].
Qed.

(** a route plan is accepted exactly when it carries no positive epoch or an
    epoch at least the current one; a stale plan changes nothing but its
    counter, and an accepted epoch is published as [__GR_PLAN_EPOCH__]. *)
Theorem acceptRoutePlan_spec plan rev s w :
  let '(s', w', r) := acceptRoutePlan plan rev (s, w) in
  match r with
  | AStale ep got =>
      ep = planEpoch s /\ (0 < got)%Q /\ (got < planEpoch s)%Q /\ w' = w /\
      s' = (s |> set_stats bump_stale)
  | AOk ep =>
      (0 < ep)%Q /\ (planEpoch s <= ep)%Q /\ s' = (s |> set_planEpoch ep) /\
      w' = sw_set_win (gset "__GR_PLAN_EPOCH__" (VNum (Fin ep)) (sw_win w)) w
  | ANoEpoch ep => ep = planEpoch s /\ s' = s /\ w' = w
  end.
Proof.
  unfold acceptRoutePlan. destruct (plan_epoch_of _ _) as [| |q]; try done.
  destruct (Qle_bool q 0) eqn:E0; [done|].
  assert (0 < q)%Q as Hq.
  { apply Qnot_le_lt. intros Hle%Qle_bool_iff. congruence. }
  destruct (Qltb q (planEpoch s)) eqn:E.
  - apply Qltb_lt in E. done.
  - apply Qltb_ge in E. done.
Qed.

(** Starting a new session forgets the deferred event and the old epoch. *)
Theorem new_session_resets sid s :
  sid <> "" -> sid <> sessionId s ->
  sessionId (setSession sid s) = sid /\ planEpoch (setSession sid s) = 0%Q /\
  pending (setSession sid s) = None.
Proof.
  intros H1%String.eqb_neq H2%String.eqb_neq. unfold setSession. by rewrite H1, H2.
Qed.

End Scheduler.

Arguments t : clear implicits.

(** ** A small page, for concrete runs *)
Module Demo.
Record page := mkPage { pg_win : Win; pg_state : string; pg_kicks : list val }.

#[export] Instance page_world : SchedWorld page := {
  sw_win := pg_win;
  sw_set_win g p := mkPage g (pg_state p) (pg_kicks p);
  sw_getState p := Some (pg_state p);
  sw_markNeedProbe _ := Some (fun _ p => Ret (mkPage (pg_win p) "need_probe" (pg_kicks p)));
  sw_markProbing _ := Some (fun p => Ret (mkPage (pg_win p) "probing" (pg_kicks p)));
  sw_queue _ := None;
  sw_resume _ := Some (fun r p => Ret (mkPage (pg_win p) (pg_state p) (pg_kicks p ++ [r])));
  sw_route _ := None;
  sw_boot _ := None
}.

Definition page0 : page := mkPage win0 "need_probe" [].
Definition o0 : submit_opts := mkOpts false VUndef false.

Lemma deferred_is_drained_witness :
  let sw1 := fst (submit (VStr "focus") o0 10000 (init, page0)) in
  snd (submit (VStr "online") o0 10100 sw1) = RDebounce /\
  exists dflt,
    fst (tick 10200 (fst (fst (submit (VStr "online") o0 10100 sw1)), page0)) =
    fst (execute (jor (VStr "online") (VStr dflt)) false 10200
      (fst (fst (submit (VStr "online") o0 10100 sw1)) |> set_pending None, page0)) .
Proof.
  intros sw1. split; [vm_compute; reflexivity|].
  pose proof (deferred_is_drained (VStr "online") o0 10100 (fst sw1) (snd sw1) 10200 page0) as H.
  destruct (H (or_intror eq_refl) eq_refl eq_refl) as (d & Hd & _). exists d. exact Hd.
Defined.

Lemma plan_epoch_monotone_witness :
  star session_step (init, page0) (run (OpSetEpoch (vint 3)) 5 (init, page0)) /\
  (planEpoch (@init page) <= planEpoch (fst (run (OpSetEpoch (vint 3)) 5 (init, page0))))%Q.
Proof.
  assert (star session_step (init, page0) (run (OpSetEpoch (vint 3)) 5 (init, page0))) as H.
  { eapply star_step; [|apply star_refl]. by apply session_op. }
  split; [exact H|]. exact (plan_epoch_monotone _ _ H).
Defined.

Lemma new_session_resets_witness :
  sessionId (setSession "cycle_2" (@init page)) = "cycle_2".
Proof. apply (new_session_resets "cycle_2" (@init page)); discriminate. Defined.

(** the debounce only holds until the next tick: a kick, a second event one
    millisecond later that is deferred as debounced, and a tick one millisecond
    after that produce two kicks two milliseconds apart, although the debounce
    is five seconds. *)
Theorem tick_ignores_debounce :
  exists sw1 sw2 sw3 : t page * page,
    debounceMs (fst sw1) = num_Z 5000 /\
    sw1 = run (OpSubmit (VStr "window_focus") o0) 100000 (init, page0) /\
    sw2 = run (OpSubmit (VStr "network_online") o0) 100001 sw1 /\
    sw3 = run OpTick 100002 sw2 /\
    pg_kicks (snd sw1) = [VStr "window_focus"] /\
    snd (submit (VStr "network_online") o0 100001 sw1) = RDebounce /\
    pg_kicks (snd sw3) = [VStr "window_focus"; VStr "network_online"].
Proof.
  eexists _, _, _. split; [|split; [reflexivity|split; [reflexivity|split; [reflexivity|]]]];
    vm_compute; repeat split.
Qed.
End Demo.
