(* ===== verification/Registry.v ===== *)
(** * Material registry and server acknowledgements ([probe/fe/upload_queue.js])

    The canonical JSON of a payload ([stableStringify]) and its hash, the
    registry of material records keyed by session, batch, source and
    generation, and [applyAck], which decides from a server response whether
    a batch counts as landed. *)

From S2P Require Import Prelude JsVal Window Sha256 Json.

(** ** Canonical JSON *)

(** [Object.keys(v).sort()] on string keys, by code units *)
Fixpoint insert_key (x : string * string) (l : list (string * string)) : list (string * string) :=
  match l with
  | [] => [x]
  | y :: l' => if String.leb (fst x) (fst y) then x :: l else y :: insert_key x l'
  end.

Definition sort_keys (l : list (string * string)) : list (string * string) :=
  foldr insert_key [] l.

(** [None] is [undefined], which [+] prints and [join] drops. *)
Definition opt_concat (o : option string) : string :=
  match o with Some s => s | None => "undefined" end.
Definition opt_join (o : option string) : string :=
  match o with Some s => s | None => "" end.

(** The sorted key loop, over the members already printed. *)
Definition members (l : list (string * string)) : string :=
  "{" +:+ join "," (map (fun kv => json_string (fst kv) +:+ ":" +:+ snd kv) (sort_keys l)) +:+ "}".

Fixpoint stableStringify (v : val) : option string :=
  match v with
  | VUndef => None
  | VNull => Some "null"
  | VBool true => Some "true"
  | VBool false => Some "false"
  | VNum n => Some (json_num n)
  | VStr s => Some (json_string s)
  | VArr l => Some ("[" +:+ join "," (map (fun x => opt_join (stableStringify x)) l) +:+ "]")
  | VObj o => Some (members (map (fun kv => (fst kv, opt_concat (stableStringify (snd kv)))) o))
  end.

(** [payload && payload.fields != null ? payload.fields : payload || {}] *)
Definition payload_fields (payload : val) : val :=
  if truthy payload && nonnull (prop payload "fields") then prop payload "fields"
  else jor payload empty_obj.

Definition payloadHashOf (payload : val) : string :=
  "sha256:" +:+ sha256Hex (opt_concat (stableStringify (payload_fields payload))).

(** ** Items *)

(** A queued batch.  [uid] is the object's identity; the other fields are the
    properties the queue reads and writes ([source] empty when absent,
    numeric properties 0 when absent, [payload] undefined when absent). *)
Record item := mkItem {
  uid : nat;
  i_session : string;
  batch_id : string;
  i_source : string;
  priority : Z;
  force : bool;
  force_after_halt : bool;
  allow_during_stop : bool;
  pagehide_flush : bool;
  recollect : bool;
  reset_attempts : bool;
  material_generation : option Z;
  capture_id : string;
  payload : val;
  payload_hash : string;
  capture_frozen : bool;
  transport_attempts : Z;
  retry_after_ms : Z;
  seal_waits : Z;
  cap_block_ms : Z;
  rpa_seq_end : val;
  rpa_segment_id : val;
  collected_at_ms : Z;
  frozen_json : string;
  hard_anchor_flush : bool
}.

Definition eta_item (x : item) : item :=
  mkItem (uid x) (i_session x) (batch_id x) (i_source x) (priority x) (force x)
    (force_after_halt x) (allow_during_stop x) (pagehide_flush x) (recollect x) (reset_attempts x)
    (material_generation x) (capture_id x) (payload x) (payload_hash x) (capture_frozen x)
    (transport_attempts x) (retry_after_ms x) (seal_waits x) (cap_block_ms x) (rpa_seq_end x)
    (rpa_segment_id x) (collected_at_ms x) (frozen_json x) (hard_anchor_flush x).
Definition set_i_session v x : item := ltac:(upd eta_item i_session x v).
Definition set_priority v x : item := ltac:(upd eta_item priority x v).
Definition set_force v x : item := ltac:(upd eta_item force x v).
Definition set_force_after_halt v x : item := ltac:(upd eta_item force_after_halt x v).
Definition set_allow_during_stop v x : item := ltac:(upd eta_item allow_during_stop x v).
Definition set_material_generation v x : item := ltac:(upd eta_item material_generation x v).
Definition set_capture_id v x : item := ltac:(upd eta_item capture_id x v).
Definition set_payload v x : item := ltac:(upd eta_item payload x v).
Definition set_payload_hash v x : item := ltac:(upd eta_item payload_hash x v).
Definition set_capture_frozen v x : item := ltac:(upd eta_item capture_frozen x v).
Definition set_transport_attempts v x : item := ltac:(upd eta_item transport_attempts x v).
Definition set_retry_after_ms v x : item := ltac:(upd eta_item retry_after_ms x v).
Definition set_seal_waits v x : item := ltac:(upd eta_item seal_waits x v).
Definition set_cap_block_ms v x : item := ltac:(upd eta_item cap_block_ms x v).
Definition set_collected_at_ms v x : item := ltac:(upd eta_item collected_at_ms x v).
Definition set_frozen_json v x : item := ltac:(upd eta_item frozen_json x v).
Definition set_hard_anchor_flush v x : item := ltac:(upd eta_item hard_anchor_flush x v).

(** [item.source || "main"] *)
Definition src_of (it : item) : string := if i_source it =s "" then "main" else i_source it.
(** [item.material_generation != null ? item.material_generation : 1] *)
Definition gen_of (it : item) : Z := default 1 (material_generation it).

(** ** The registry *)

Record mrec := mkRec {
  r_batch : string;
  r_source : string;
  r_session : string;
  r_capture : string;
  r_generation : Z;
  r_material_hash : string;
  r_payload_hash : string;
  r_request_hash : string;
  r_state : string;
  r_ack_type : string;
  r_durability : string;
  r_transport_attempts : Z;
  r_updated_ms : Z
}.

Definition sor (a b : string) : string := if a =s "" then b else a.

Section Registry.
(** [cfg.session_id] *)
Variable cfg_session : string.

Definition registryKey (sessionId batchId source : string) (generation : Z) : string :=
  sor sessionId cfg_session +:+ "|" +:+ batchId +:+ "|" +:+ sor source "main" +:+ "|" +:+
  Z_to_string generation.

Definition registryGet (batchId source sessionId : string) (generation : Z)
    (reg : gmap string mrec) : option mrec :=
  reg !! registryKey sessionId batchId source generation.

Definition registryPut (r : mrec) (reg : gmap string mrec) : gmap string mrec :=
  if r_batch r =s "" then reg else
  <[registryKey (sor (r_session r) cfg_session) (r_batch r) (r_source r) (r_generation r) := r]> reg.

Definition blank_rec (bid src sid : string) (gen : Z) : mrec :=
  mkRec bid src sid "" gen "" "" "" "" "" "" 0 0.

(** The registry does not keep the durability of an upserted record. *)
Definition registryUpsertFromItem (it : item) (st : string) (now : Z)
    (reg : gmap string mrec) : gmap string mrec :=
  if batch_id it =s "" then reg else
  let src := src_of it in
  let sid := sor (i_session it) cfg_session in
  let gen := gen_of it in
  let prev := default (blank_rec (batch_id it) src sid gen) (registryGet (batch_id it) src sid gen reg) in
  registryPut (mkRec (batch_id it) src sid
    (sor (capture_id it) (r_capture prev)) gen
    (sor (payload_hash it) (r_material_hash prev)) (sor (payload_hash it) (r_payload_hash prev))
    (r_request_hash prev) (sor st (sor (r_state prev) "collected")) (r_ack_type prev) ""
    (if transport_attempts it =? 0 then r_transport_attempts prev else transport_attempts it) now) reg.

(** ** Acknowledgements *)

(** [j.ack && typeof j.ack === "object" ? j.ack : null] *)
Definition ack_of (j : val) : val :=
  if truthy (prop j "ack") && is_object (prop j "ack") then prop j "ack" else VNull.

Definition explicit_type (ack : val) : string :=
  if truthy ack && truthy (prop ack "type") then to_string (prop ack "type") else "".

(** The type inferred from the response's flags when no explicit one is given. *)
Definition inferred_type (j ack : val) : string :=
  if is_true (prop j "conflict") || is_true (prop j "ack_conflict") then "conflict" else
  if is_true (prop j "duplicate") || is_true (prop j "cold_skipped_unchanged") then "duplicate" else
  if is_true (prop j "merged") then "merged" else
  if is_false (prop j "ok") && truthy (prop j "error") then "rejected" else
  "transport_ok_unverified".

Definition server_ok (type : string) : bool :=
  (type =s "stored") || (type =s "duplicate") || (type =s "merged").

(** A field the server echoed differs from the item's. *)
Definition echo_differs (ack : val) (it : item) (bid src sid : string) : bool :=
  (truthy (prop ack "batch_id") && (to_string (prop ack "batch_id") <>s bid)) ||
  (truthy (prop ack "source") && (to_string (prop ack "source") <>s src)) ||
  (truthy (prop ack "session_id") && (to_string (prop ack "session_id") <>s sid)) ||
  (nonnull (prop ack "material_generation") &&
   negb (num_eqb (to_num (prop ack "material_generation")) (num_Z (gen_of it)))).

Definition ack_type (j ack : val) (it : item) (bid src sid : string) : string :=
  let t0 := sor (explicit_type ack) (inferred_type j ack) in
  let t1 := if truthy ack && negb (server_ok t0) && echo_differs ack it bid src sid
            then "rejected" else t0 in
  if (t1 <>s "conflict") && (is_true (prop j "conflict") || is_true (prop j "ack_conflict"))
  then "conflict" else t1.

Definition ingest_of (j : val) : val :=
  if truthy (prop j "ingest") && is_object (prop j "ingest") then prop j "ingest" else empty_obj.

Definition durability_of (j ack : val) : string :=
  to_string (jor (prop j "durability_state")
    (jor (jand ack (prop ack "durability_state"))
    (jor (prop (ingest_of j) "durability_state") (VStr "")))).

Definition cold_ok (j ack : val) : bool :=
  let ingest := ingest_of j in
  let cw := match prop j "cold_written" with VUndef => prop ingest "cold_written" | v => v end in
  let dur := durability_of j ack in
  (negb (is_false cw) || is_true (prop j "cold_skipped_unchanged") ||
   is_true (prop ingest "cold_skipped_unchanged") || is_true (prop j "same_capture") ||
   is_true (prop ingest "same_capture") || (dur =s "duplicate_durable")) &&
  negb ((dur =s "stored_primary_only") || (dur =s "accepted_pending_durability") ||
        (dur =s "failed")).

Record ack_counts := mkAckCounts {
  ackStored : Z; ackDuplicate : Z; ackMerged : Z; ackConflict : Z
}.

Record ack_result := mkAckResult {
  a_type : string; a_verified : bool; a_material_hash : string; a_request_hash : string;
  a_segment : option (string * val * val)
}.

(** [( ... ) | 0] of the generation the record is kept under *)
Definition ack_generation (ack : val) (it : item) : Z :=
  if truthy ack && nonnull (prop ack "material_generation")
  then num_int32 (to_num (prop ack "material_generation")) else to_int32 (gen_of it).

Definition count_ack (type : string) (verified : bool) (c : ack_counts) : ack_counts :=
  if verified then
    mkAckCounts (ackStored c + if type =s "stored" then 1 else 0)
      (ackDuplicate c + if type =s "duplicate" then 1 else 0)
      (ackMerged c + if type =s "merged" then 1 else 0) (ackConflict c)
  else mkAckCounts (ackStored c) (ackDuplicate c) (ackMerged c)
         (ackConflict c + if type =s "conflict" then 1 else 0).

Definition ack_state (type : string) (verified : bool) : string :=
  if verified then "acked" else
  if type =s "conflict" then "conflict" else
  if type =s "transport_ok_unverified" then "transport_ok_unverified" else "rejected".

(** The [GRRpaMonitor.ackSegment] call made for a verified page-RPA batch. *)
Definition rpa_segment (ack : val) (it : item) (bid src : string) (verified : bool)
    : option (string * val * val) :=
  if verified && (bid =s "B11_interaction")
  then Some (src, jor (jand ack (prop ack "seq_end")) (rpa_seq_end it),
             jor (jand ack (prop ack "segment_id")) (rpa_segment_id it))
  else None.

Definition applyAck (it : item) (j0 : val) (now : Z)
    (st : gmap string mrec * ack_counts) : gmap string mrec * ack_counts * ack_result :=
  let '(reg, c) := st in
  let j := jor j0 empty_obj in
  let ack := ack_of j in
  let bid := batch_id it in
  let src := src_of it in
  let sid := sor (i_session it) cfg_session in
  let gen := ack_generation ack it in
  let materialHash :=
    to_string (jor (jand ack (jor (prop ack "material_hash") (prop ack "client_payload_hash")))
      (VStr (payload_hash it))) in
  let requestHash :=
    to_string (jor (jand ack (prop ack "payload_hash")) (jor (prop j "payload_hash") (VStr ""))) in
  let type0 := ack_type j ack it bid src sid in
  let durability := durability_of j ack in
  let coldOk := cold_ok j ack in
  let verified := server_ok type0 && coldOk in
  let type := if negb coldOk && server_ok type0 then "transport_ok_unverified" else type0 in
  let r0 := default (blank_rec bid src sid gen) (registryGet bid src sid gen reg) in
  let r := mkRec (r_batch r0) (r_source r0) (r_session r0) (sor (capture_id it) (r_capture r0))
    (r_generation r0) (sor materialHash (r_material_hash r0)) (sor materialHash (r_payload_hash r0))
    (sor requestHash (r_request_hash r0)) (ack_state type verified) type
    (sor durability (if coldOk then "stored_durable" else "stored_primary_only"))
    (r_transport_attempts r0) now in
  (registryPut r reg, count_ack type verified c, mkAckResult type verified materialHash requestHash
     (rpa_segment ack it bid src verified)).
End Registry.

(** ** Canonical JSON: lemmas *)

Lemma ascii_compare_N (a b : ascii) : Ascii.compare a b = N.compare (N_of_ascii a) (N_of_ascii b).
Proof. done. Qed.

Lemma string_leb_trans a b c :
  String.leb a b = true -> String.leb b c = true -> String.leb a c = true.
Proof.
  unfold String.leb. revert b c. induction a as [|x a IH]; intros [|y b] [|z c]; simpl; try done.
  rewrite !ascii_compare_N.
  destruct (N.compare_spec (N_of_ascii x) (N_of_ascii y)) as [Exy|Hxy|Hxy],
    (N.compare_spec (N_of_ascii y) (N_of_ascii z)) as [Eyz|Hyz|Hyz]; try done;
    destruct (N.compare_spec (N_of_ascii x) (N_of_ascii z)); try done; try lia.
  apply IH.
Qed.

Lemma string_leb_flip a b : String.leb a b = false -> String.leb b a = true.
Proof. destruct (String.leb_total a b); congruence. Qed.

Lemma insert_key_comm x y l :
  fst x <> fst y -> insert_key x (insert_key y l) = insert_key y (insert_key x l).
Proof.
  intros Hne.
  assert (String.leb (fst x) (fst y) = negb (String.leb (fst y) (fst x))) as Hxy.
  { destruct (String.leb (fst x) (fst y)) eqn:E1, (String.leb (fst y) (fst x)) eqn:E2; try done.
    - destruct Hne. by apply String.leb_antisym.
    - apply string_leb_flip in E1. congruence. }
  induction l as [|z l IH]; simpl.
  - rewrite Hxy. by destruct (String.leb (fst y) (fst x)).
  - pose proof (string_leb_trans (fst x) (fst y) (fst z)).
    pose proof (string_leb_trans (fst y) (fst x) (fst z)).
    destruct (String.leb (fst y) (fst z)) eqn:Eyz, (String.leb (fst x) (fst z)) eqn:Exz; simpl;
      rewrite ?Hxy, ?Eyz, ?Exz; destruct (String.leb (fst y) (fst x)) eqn:Eyx; simpl in *;
      rewrite ?Eyz, ?Exz; try done; try (by rewrite IH); naive_solver.
Qed.

Lemma sort_keys_perm l l' : NoDup (map fst l) -> l ≡ₚ l' -> sort_keys l = sort_keys l'.
Proof.
  intros Hnd Hp. induction Hp as [|x l l' Hp IH|x y l|l1 l2 l3 H12 IH12 H23 IH23]; simpl in *.
  - done.
  - apply NoDup_cons in Hnd as [_ Hnd]. by rewrite IH.
  - apply NoDup_cons in Hnd as [Hx _]. apply insert_key_comm. intros E. apply Hx. rewrite E. by left.
  - rewrite IH12 by done. apply IH23. by rewrite <- H12.
Qed.

(** Values that differ only in the order of object keys. *)
#[warnings="-register-all"]
Inductive jeq : val -> val -> Prop :=
| jeq_refl v : jeq v v
| jeq_arr l l' : Forall2 jeq l l' -> jeq (VArr l) (VArr l')
| jeq_obj o o' o'' :
    NoDup (map fst o) ->
    Forall2 (fun a b => fst a = fst b /\ jeq (snd a) (snd b)) o o' ->
    o' ≡ₚ o'' -> jeq (VObj o) (VObj o'').

Fixpoint stableStringify_jeq v v' (H : jeq v v') {struct H} :
  stableStringify v = stableStringify v'.
Proof.
  destruct H as [v | l l' HF | o o' o'' Hnd HF Hp]; simpl.
  - done.
  - do 4 f_equal. induction HF as [|x y l l' Hxy HF IH]; simpl; [done|].
    by rewrite (stableStringify_jeq x y Hxy), IH.
  - unfold members. do 5 f_equal.
    transitivity (sort_keys (map (fun kv => (fst kv, opt_concat (stableStringify (snd kv)))) o')).
    + f_equal. clear Hnd Hp. induction HF as [|x y l l' [Hk Hxy] HF IH]; simpl; [done|].
      by rewrite (stableStringify_jeq _ _ Hxy), Hk, IH.
    + apply sort_keys_perm; [|by apply Permutation_map].
      rewrite map_map. simpl.
      replace (map (fun x => fst x) o') with (map fst o); [done|].
      clear -HF. induction HF as [|x y l l' [Hk _] HF IH]; simpl; [done|]. by rewrite Hk, IH.
Qed.

#[export] Instance stableStringify_proper : Proper (jeq ==> eq) stableStringify.
Proof. intros v v'. apply stableStringify_jeq. Qed.

(** The material hash identifies the fields' content: it does not depend on the
    order in which the collector wrote the keys at any depth, the canonical text it
    hashes begins with an unambiguous prefix for every string and member name, and
    values outside [fields] (timestamps, transport data) do not enter. *)
Theorem payloadHashOf_canonical fields fields' rest rest' :
  jeq fields fields' -> nonnull fields = true -> nonnull fields' = true ->
  payloadHashOf (VObj (("fields", fields) :: rest)) =
    payloadHashOf (VObj (("fields", fields') :: rest')) /\
  (forall s s' t t', json_string s +:+ t = json_string s' +:+ t' -> s = s' /\ t = t').
Proof.
  intros Hj Hn Hn'. split; [|apply json_string_inj].
  unfold payloadHashOf, payload_fields. simpl. rewrite Hn, Hn'.
  by rewrite Hj.
Qed.

Definition fields1 : val := VObj [("b", vint 2); ("a", VArr [VStr "x"; VNull])].
Definition fields2 : val := VObj [("a", VArr [VStr "x"; VNull]); ("b", vint 2)].

Lemma payloadHashOf_canonical_witness :
  payloadHashOf (VObj [("fields", fields1); ("t", vint 1)]) =
    payloadHashOf (VObj [("fields", fields2); ("t", vint 2)]) /\
  (forall s s' t t', json_string s +:+ t = json_string s' +:+ t' -> s = s' /\ t = t').
Proof.
  apply (payloadHashOf_canonical fields1 fields2); [|reflexivity|reflexivity].
  apply (jeq_obj _ [("b", vint 2); ("a", VArr [VStr "x"; VNull])]).
  - simpl. repeat (apply NoDup_cons; split; [set_solver|]). apply NoDup_nil_2.
  - repeat constructor.
  - apply perm_swap.
Defined.

Example stableStringify_ex :
  stableStringify fields1 = stableStringify fields2 /\
  stableStringify (VArr [VUndef; VBool true; vint (-3)]) = Some "[,true,-3]".
Proof. split; reflexivity. Qed.

(** ** Acknowledgements: lemmas *)

Lemma sor_idem a b : sor (sor a b) b = sor a b.
Proof. unfold sor. destruct (a =s "") eqn:E; [|by rewrite E]. by destruct (b =s ""). Qed.

Lemma sor_ne a b : (b =s "") = false -> (sor a b =s "") = false.
Proof. unfold sor. by destruct (a =s "") eqn:E. Qed.

(** Conflict flags on the response. *)
Definition conflict_flag (j : val) : bool :=
  is_true (prop j "conflict") || is_true (prop j "ack_conflict").

(** Success flags that stand in for a missing type. *)
Definition success_flag (j : val) : bool :=
  is_true (prop j "duplicate") || is_true (prop j "cold_skipped_unchanged") ||
  is_true (prop j "merged").

Lemma explicit_no_ack : explicit_type VNull = "".
Proof. reflexivity. Qed.

(** Which responses carry a success type, in terms of the response itself. *)
Lemma server_ok_ack_type j ack it bid src sid :
  server_ok (ack_type j ack it bid src sid) =
  negb (conflict_flag j) &&
  (server_ok (explicit_type ack) || ((explicit_type ack =s "") && success_flag j)).
Proof.
  unfold ack_type, success_flag, conflict_flag, sor.
  set (cf := _ || is_true (prop j "ack_conflict")).
  destruct (explicit_type ack =s "") eqn:E0.
  - apply String.eqb_eq in E0. rewrite E0. cbn [andb orb server_ok]. unfold inferred_type.
    fold cf. destruct cf; [by repeat case_match|].
    destruct (is_true (prop j "duplicate")), (is_true (prop j "cold_skipped_unchanged")),
      (is_true (prop j "merged")); cbn -[echo_differs prop]; rewrite ?andb_false_r; try done;
      repeat case_match; done.
  - cbn [andb orb]. rewrite orb_false_r.
    destruct (server_ok (explicit_type ack)) eqn:Eok.
    + cbn [negb]. rewrite andb_false_r. cbn [andb].
      destruct cf; [|by rewrite andb_false_r].
      rewrite andb_true_r. destruct (explicit_type ack =s "conflict") eqn:Ec; [|done].
      apply String.eqb_eq in Ec. by rewrite Ec in Eok.
    + rewrite andb_false_r. cbn [negb]. rewrite andb_true_r.
      repeat case_match; done.
Qed.

Lemma cold_ok_durability j ack :
  cold_ok j ack = true ->
  durability_of j ack <> "stored_primary_only" /\
  durability_of j ack <> "accepted_pending_durability" /\ durability_of j ack <> "failed".
Proof. unfold cold_ok. intros H. breflect. done. Qed.

(** Every record sits under its own key. *)
Definition wf_reg (cfg : string) (reg : gmap string mrec) : Prop :=
  forall k r, reg !! k = Some r ->
    r_batch r <> "" /\
    k = registryKey cfg (r_session r) (r_batch r) (r_source r) (r_generation r).

Lemma registryKey_sor cfg s b src g :
  registryKey cfg (sor s cfg) b src g = registryKey cfg s b src g.
Proof. unfold registryKey. by rewrite sor_idem. Qed.

Lemma registryKey_main cfg s b src g :
  registryKey cfg s b (sor src "main") g = registryKey cfg s b src g.
Proof. unfold registryKey. by rewrite sor_idem. Qed.

Lemma wf_reg_insert cfg reg r :
  wf_reg cfg reg -> r_batch r <> "" ->
  wf_reg cfg (<[registryKey cfg (r_session r) (r_batch r) (r_source r) (r_generation r) := r]> reg).
Proof.
  intros Hwf Hb k r'. rewrite lookup_insert_Some. intros [[<- <-]|[_ Hk]]; [done|]. by apply Hwf.
Qed.

Lemma registryPut_wf cfg reg r : wf_reg cfg reg -> wf_reg cfg (registryPut cfg r reg).
Proof.
  intros Hwf. unfold registryPut. destruct (r_batch r =s "") eqn:Hb; [done|]. breflect.
  rewrite registryKey_sor. by apply wf_reg_insert.
Qed.

(** The record an operation starts from: the one already there, or a blank one. *)
Lemma lookup_or_blank cfg reg b src sid g :
  wf_reg cfg reg ->
  let r := default (blank_rec b src sid g) (registryGet cfg b src sid g reg) in
  registryKey cfg (r_session r) (r_batch r) (r_source r) (r_generation r) =
    registryKey cfg sid b src g /\ (b <> "" -> r_batch r <> "").
Proof.
  intros Hwf. unfold registryGet. simpl.
  destruct (reg !! _) as [r|] eqn:E; simpl; [|done].
  destruct (Hwf _ _ E) as [Hb Hk]. by rewrite <- Hk.
Qed.

(** [applyAck] reads and writes one record, that of the item's key at the
    generation the server acknowledged. *)
Definition ack_key (cfg : string) (it : item) (j0 : val) : string :=
  registryKey cfg (i_session it) (batch_id it) (i_source it)
    (ack_generation (ack_of (jor j0 empty_obj)) it).

Lemma applyAck_put cfg it j0 now reg c :
  wf_reg cfg reg -> batch_id it <> "" ->
  exists r, (applyAck cfg it j0 now (reg, c)).1.1 = <[ack_key cfg it j0 := r]> reg /\
    wf_reg cfg (<[ack_key cfg it j0 := r]> reg) /\
    r_ack_type r = a_type (applyAck cfg it j0 now (reg, c)).2 /\
    r_state r = ack_state (a_type (applyAck cfg it j0 now (reg, c)).2)
                          (a_verified (applyAck cfg it j0 now (reg, c)).2).
Proof.
  intros Hwf Hb. unfold applyAck. set (j := jor j0 empty_obj). cbn zeta. simpl fst.
  set (g := ack_generation (ack_of j) it).
  destruct (lookup_or_blank cfg reg (batch_id it) (src_of it) (sor (i_session it) cfg) g Hwf)
    as [Hk Hb'].
  set (r0 := default _ _) in *. unfold registryPut. cbn [r_batch r_session r_source r_generation].
  destruct (r_batch r0 =s "") eqn:E; [apply String.eqb_eq in E; by destruct (Hb' Hb)|].
  assert (registryKey cfg (sor (r_session r0) cfg) (r_batch r0) (r_source r0) (r_generation r0) =
          ack_key cfg it j0) as Hkey.
  { rewrite registryKey_sor, Hk, registryKey_sor. unfold ack_key. fold j. fold g.
    apply (registryKey_main cfg (i_session it) (batch_id it) (i_source it) g). }
  rewrite Hkey. eexists. split; [reflexivity|]. split; [|split; reflexivity].
  rewrite <- Hkey, registryKey_sor.
  match goal with |- wf_reg _ (<[_ := ?r]> _) => apply (wf_reg_insert cfg reg r Hwf) end.
  simpl. by apply Hb'.
Qed.

Lemma applyAck_verified_eq cfg it j0 now st :
  let j := jor j0 empty_obj in
  let r := (applyAck cfg it j0 now st).2 in
  a_verified r = cold_ok j (ack_of j) && negb (conflict_flag j) &&
    (server_ok (explicit_type (ack_of j)) ||
     ((explicit_type (ack_of j) =s "") && success_flag j)).
Proof.
  destruct st as [reg c]. cbn zeta. unfold applyAck. cbn [snd a_verified].
  rewrite server_ok_ack_type. by rewrite andb_comm, andb_assoc.
Qed.

Lemma applyAck_type_ok cfg it j0 now st :
  let r := (applyAck cfg it j0 now st).2 in server_ok (a_type r) = a_verified r.
Proof.
  destruct st as [reg c]. cbn zeta. unfold applyAck. cbn [snd a_verified a_type].
  set (t := ack_type _ _ _ _ _ _). set (co := cold_ok _ _).
  destruct co, (server_ok t) eqn:E; simpl; rewrite ?E; done.
Qed.

Lemma ack_state_acked t v : ack_state t v = "acked" <-> v = true.
Proof. unfold ack_state. destruct v; [done|]. repeat case_match; done. Qed.

(** A response marks material as landed exactly when it carries no conflict flag,
    a success type (explicit stored/duplicate/merged, or, with no explicit type, one of
    the flags duplicate, cold_skipped_unchanged, merged) and durable storage; only then
    does the registry record of that session, batch, source and generation become acked,
    and a response whose durability is primary-only, pending or failed never does it. *)
Theorem applyAck_acked_iff cfg it j0 now reg c :
  wf_reg cfg reg -> batch_id it <> "" ->
  let j := jor j0 empty_obj in let ack := ack_of j in
  exists r, (applyAck cfg it j0 now (reg, c)).1.1 !! ack_key cfg it j0 = Some r /\
    (r_state r = "acked" <->
       cold_ok j ack = true /\ conflict_flag j = false /\
       (server_ok (explicit_type ack) = true \/
        explicit_type ack = "" /\ success_flag j = true)) /\
    (r_state r = "acked" -> durability_of j ack <> "stored_primary_only" /\
       durability_of j ack <> "accepted_pending_durability" /\ durability_of j ack <> "failed").
Proof.
  intros Hwf Hb. cbn zeta.
  destruct (applyAck_put cfg it j0 now reg c Hwf Hb) as (r & Hreg & _ & _ & Hst).
  exists r. rewrite Hreg, lookup_insert_eq. split; [done|].
  rewrite Hst, ack_state_acked, applyAck_verified_eq, !andb_true_iff, orb_true_iff,
    andb_true_iff, negb_true_iff, String.eqb_eq.
  split; [tauto|]. intros [[Hc _] _]. by apply cold_ok_durability.
Qed.

(** [applyAck] leaves every other record alone, keeps records under their own keys
    and counts each response once: a verified one in exactly one of the stored, duplicate
    and merged counters, a conflict in its own, anything else nowhere. *)
Theorem applyAck_frame_and_counts cfg it j0 now reg c :
  wf_reg cfg reg -> batch_id it <> "" ->
  let '(reg', c', res) := applyAck cfg it j0 now (reg, c) in
  wf_reg cfg reg' /\
  (forall k, k <> ack_key cfg it j0 -> reg' !! k = reg !! k) /\
  ackStored c' + ackDuplicate c' + ackMerged c' =
    ackStored c + ackDuplicate c + ackMerged c + (if a_verified res then 1 else 0) /\
  ackConflict c' = ackConflict c + (if a_type res =s "conflict" then 1 else 0).
Proof.
  intros Hwf Hb.
  destruct (applyAck_put cfg it j0 now reg c Hwf Hb) as (r & Hreg & Hwf' & _ & _).
  pose proof (applyAck_type_ok cfg it j0 now (reg, c)) as Ht.
  assert (Hc : (applyAck cfg it j0 now (reg, c)).1.2 =
    count_ack (a_type (applyAck cfg it j0 now (reg, c)).2)
              (a_verified (applyAck cfg it j0 now (reg, c)).2) c) by reflexivity.
  destruct (applyAck cfg it j0 now (reg, c)) as [[reg' c'] res]. cbn [fst snd] in *.
  subst reg' c'. split; [done|]. split.
  { intros k Hk. by rewrite lookup_insert_ne. }
  unfold count_ack, server_ok in *. destruct (a_verified res).
  - simpl. destruct (a_type res =s "stored") eqn:E1, (a_type res =s "duplicate") eqn:E2,
      (a_type res =s "merged") eqn:E3; breflect; try congruence; simpl in *;
      (destruct (a_type res =s "conflict") eqn:E4; breflect; [congruence|lia]).
  - simpl. lia.
Qed.

(** Upserting also writes only the item's own key. *)
Lemma registryUpsertFromItem_spec cfg it st now reg :
  wf_reg cfg reg ->
  wf_reg cfg (registryUpsertFromItem cfg it st now reg) /\
  (forall k, k <> registryKey cfg (i_session it) (batch_id it) (i_source it) (gen_of it) ->
     registryUpsertFromItem cfg it st now reg !! k = reg !! k) /\
  (batch_id it <> "" -> st <> "" -> exists r,
     registryUpsertFromItem cfg it st now reg !!
       registryKey cfg (i_session it) (batch_id it) (i_source it) (gen_of it) = Some r /\
     r_state r = st).
Proof.
  intros Hwf. unfold registryUpsertFromItem.
  destruct (batch_id it =s "") eqn:E.
  { apply String.eqb_eq in E. done. }
  split; [by apply registryPut_wf|].
  unfold registryPut. cbn [r_batch]. rewrite E. cbn [r_session r_batch r_source r_generation].
  rewrite !registryKey_sor. change (src_of it) with (sor (i_source it) "main").
  rewrite registryKey_main. split.
  - intros k Hk. by rewrite lookup_insert_ne.
  - intros _ Hst. eexists. rewrite lookup_insert_eq. split; [reflexivity|]. simpl.
    unfold sor. apply String.eqb_neq in Hst. by rewrite Hst.
Qed.

(** ** Concrete responses *)

Definition item0 : item :=
  mkItem 0 "cycle_1" "B2_hardware" "" 50 false false false false false false (Some 1) "cap_1"
    (VObj [("fields", fields1)]) "sha256:aa" true 0 0 0 0 VUndef VUndef 0 "" false.

Definition resp_stored : val := VObj [("ok", VBool true); ("ack", VObj [("type", VStr "stored")])].
Definition resp_flag : val := VObj [("ok", VBool true); ("duplicate", VBool true)].
Definition resp_pending : val :=
  VObj [("ack", VObj [("type", VStr "stored"); ("durability_state", VStr "stored_primary_only")])].

Lemma wf_reg_empty cfg : wf_reg cfg ∅.
Proof. intros k r. by rewrite lookup_empty. Qed.

Definition counts0 : ack_counts := mkAckCounts 0 0 0 0.

Lemma applyAck_acked_iff_witness :
  exists r, (applyAck "cycle_1" item0 resp_stored 1000 (∅, counts0)).1.1 !!
      ack_key "cycle_1" item0 resp_stored = Some r /\ r_state r = "acked".
Proof.
  destruct (applyAck_acked_iff "cycle_1" item0 resp_stored 1000 ∅ counts0
    (wf_reg_empty _) ltac:(discriminate)) as (r & Hr & Hiff & _).
  exists r. split; [exact Hr|]. apply Hiff. repeat split; try reflexivity. left. reflexivity.
Defined.

Lemma applyAck_frame_and_counts_witness :
  let '(reg', c', res) := applyAck "cycle_1" item0 resp_stored 1000 (∅, counts0) in
  wf_reg "cycle_1" reg' /\
  (forall k, k <> ack_key "cycle_1" item0 resp_stored -> reg' !! k = (∅ : gmap string mrec) !! k) /\
  ackStored c' + ackDuplicate c' + ackMerged c' = 0 + 0 + 0 + (if a_verified res then 1 else 0) /\
  ackConflict c' = 0 + (if a_type res =s "conflict" then 1 else 0).
Proof.
  exact (applyAck_frame_and_counts "cycle_1" item0 resp_stored 1000 ∅ counts0
    (wf_reg_empty _) ltac:(discriminate)).
Defined.

(** A response with no [ack] object at all is verified, and the batch acked, when it
    carries a success flag: the inferred type replaces the explicit acknowledgement. *)
Theorem flag_without_ack_verified cfg it now reg c o :
  let j := VObj o in
  ack_of j = VNull -> success_flag j = true -> conflict_flag j = false ->
  cold_ok j VNull = true -> wf_reg cfg reg -> batch_id it <> "" ->
  exists r, (applyAck cfg it j now (reg, c)).1.1 !! ack_key cfg it j = Some r /\
    r_state r = "acked".
Proof.
  cbn zeta. intros Hack Hs Hc Hcold Hwf Hb.
  destruct (applyAck_put cfg it (VObj o) now reg c Hwf Hb) as (r & Hreg & _ & _ & Hst).
  exists r. rewrite Hreg, lookup_insert_eq. split; [done|].
  rewrite Hst, ack_state_acked, applyAck_verified_eq. change (jor (VObj o) empty_obj) with (VObj o).
  by rewrite Hack, Hcold, Hc, Hs.
Qed.

Lemma flag_without_ack_verified_witness :
  exists r, (applyAck "cycle_1" item0 resp_flag 1000 (∅, counts0)).1.1 !!
      ack_key "cycle_1" item0 resp_flag = Some r /\ r_state r = "acked".
Proof.
  apply (flag_without_ack_verified "cycle_1" item0 1000 ∅ counts0
    [("ok", VBool true); ("duplicate", VBool true)]); try reflexivity; [apply wf_reg_empty|discriminate].
Defined.

Example primary_only_not_verified :
  (applyAck "cycle_1" item0 resp_pending 1000 (∅, counts0)).2 =
    mkAckResult "transport_ok_unverified" false "sha256:aa" "" None.
Proof. reflexivity. Qed.
