(* ===== verification/Terminal.v ===== *)
(** * Terminal responses ([probe/fe/upload_queue.js])

    [hardFinalComplete] and [parseTerminal]: when a server response ends the
    cycle and stops identity uploads, and when a thin "complete" flag must not.
    [batches_ok] is the set of batches the session has landed. *)

From S2P Require Import Prelude JsVal.

(** The elements a [for (i < v.length) v[i]] loop visits. *)
Fixpoint chars (s : string) : list val :=
  match s with EmptyString => [] | String c s' => VStr (String c EmptyString) :: chars s' end.

Definition elems (v : val) : list val :=
  match v with VArr l => l | VStr s => chars s | _ => [] end.

Definition sub (v : val) (k : string) : val := jor (prop v k) empty_obj.

Definition is_primary_b10 (v : val) : bool := is_str v "B10_hw_curves" || is_str v "mid.curves".

(** [typeof ids[i] === "string" ? ids[i] : ids[i] && ids[i].batch_id] *)
Definition received_id (v : val) : val :=
  match v with VStr _ => v | _ => jand v (prop v "batch_id") end.

(** The EDH block: B10x material is still required or missing. *)
Definition pack_id_of (p : val) : string :=
  to_string (jor (jand p (jor (prop p "pack_id") (prop p "id"))) (VStr "")).

Definition edh_blocks (j : val) : bool :=
  let edh := jor (prop j "edh") (sub j "device_hypothesis") in
  let rg := sub edh "research_gate" in
  let miss := jor (jand (prop j "route_plan") (prop (prop j "route_plan") "b10x_missing"))
                  (jor (prop j "b10x_missing") (VArr [])) in
  let rp := jor (prop j "route_plan")
    (jor (jand (prop j "brain") (prop (prop j "brain") "route_plan")) empty_obj) in
  (is_true (prop rg "b10x_required") && is_false (prop rg "b10x_complete")) ||
  is_true (prop j "b10x_must_land") ||
  (truthy miss && truthy (prop miss "length")) ||
  existsb (fun p => starts_with "B10x_silicon_" (pack_id_of p)) (elems (jor (prop rp "packs") (VArr []))).

Section Terminal.
Variable batches_ok : strset.

Definition has_b10 (j cps : val) : bool :=
  existsb (fun v => is_primary_b10 (received_id v))
    (elems (jor (prop cps "received_batch_ids") (jor (prop j "received_batch_ids") (VArr [])))) ||
  bool_decide ("B10_hw_curves" ∈ batches_ok) || bool_decide ("mid.curves" ∈ batches_ok) ||
  (is_true (prop j "b10_present") && bool_decide ("B10_hw_curves" ∈ batches_ok)).

Definition coverage_complete (j cps cov : val) : bool :=
  is_true (prop cov "coverage_complete") || is_true (prop cps "coverage_complete") ||
  is_true (prop j "coverage_complete") ||
  (truthy (prop j "coverage") && is_true (prop (prop j "coverage") "coverage_complete")) ||
  (truthy (prop j "brain") && truthy (prop (prop j "brain") "coverage") &&
   is_true (prop (prop (prop j "brain") "coverage") "coverage_complete")).

Definition stop_probe (j cps cov : val) : bool :=
  is_true (prop j "stop_probe") ||
  (truthy (prop j "route_plan") && is_true (prop (prop j "route_plan") "stop_probe")) ||
  (is_true (prop cps "probe_complete") && coverage_complete j cps cov).

Definition brain_term (j cps cov : val) : bool :=
  is_true (prop j "analysis_terminal") || is_true (prop cps "analysis_terminal") ||
  (truthy (prop j "analysis") && is_true (prop (prop j "analysis") "analysis_terminal")) ||
  (stop_probe j cps cov && coverage_complete j cps cov).

Definition cycle_flags_closed (j cps : val) : bool :=
  is_str (prop cps "cycle_status") "complete" || is_true (prop j "cycle_complete") ||
  is_true (prop cps "cycle_closed") || is_true (prop j "cycle_closes") ||
  (truthy (prop j "analysis") &&
   (is_true (prop (prop j "analysis") "cycle_closes") ||
    is_true (prop (prop j "analysis") "cycle_complete"))).

Definition schedule_final (j cps cov : val) : bool :=
  is_true (prop cov "brain_schedule_final") || is_true (prop cps "brain_schedule_final") ||
  is_true (prop j "brain_schedule_final") || is_true (prop cov "final_analysis_ok") ||
  is_true (prop cps "final_analysis_ok") || is_true (prop j "final_analysis_ok").

Definition hardFinalComplete (j cps0 : val) : bool :=
  let cps := jor cps0 empty_obj in
  let cov := jor (prop cps "identity_coverage") (sub j "identity_coverage") in
  if edh_blocks j then false else
  if negb (has_b10 j cps) then false else
  if schedule_final j cps cov then true else
  if brain_term j cps cov || cycle_flags_closed j cps then true else
  is_true (prop cov "hard_complete").

(** ** [parseTerminal] *)

Inductive decision :=
| NotTerminal
| Terminal (code : val) (status : Z) (business_state : val) (soft_close : bool).

Definition code_of (j : val) : val :=
  jor (prop j "code") (jor (prop j "expired_reason") (VStr "")).
Definition err_of (j : val) : val :=
  jor (prop j "error") (jor (prop j "code") (jor (prop j "expired_reason") (VStr ""))).

Definition text_of (j cps : val) : string :=
  to_string (err_of j) +:+ " " +:+ to_string (code_of j) +:+ " " +:+
  to_string_or_empty (prop cps "cycle_status") +:+ " " +:+
  to_string_or_empty (prop cps "business_state") +:+ " " +:+
  to_string_or_empty (prop cps "expired_reason").

Definition soft_closed (status : Z) (j : val) : bool :=
  (status =? 200) &&
  (is_false (prop j "accepted") || is_false (prop j "identity_accepted") ||
   (is_true (prop j "halt_uploads") &&
    (is_true (prop j "cycle_closed") || is_str (prop j "code") "cycle_complete" ||
     is_str (prop j "code") "cycle_purged" || is_str (prop j "code") "incomplete_ttl" ||
     is_str (prop j "code") "session_expired" ||
     (truthy (prop j "cycle_probe_status") &&
      truthy (prop (prop j "cycle_probe_status") "http_soft_close"))))).

Definition halt_flag (j cps analysis : val) : bool :=
  is_true (prop j "halt_uploads") || is_true (prop cps "halt_uploads") ||
  is_true (prop analysis "halt_uploads").

Definition closed_flag (j cps analysis : val) : bool :=
  is_true (prop j "cycle_closes") || truthy (prop j "cycle_complete") ||
  is_true (prop cps "cycle_closed") || is_str (prop cps "cycle_status") "complete" ||
  is_str (prop cps "cycle_status") "purged" || truthy (prop analysis "cycle_complete") ||
  is_true (prop analysis "cycle_closes").

Definition analysis_flag (j cps analysis : val) : bool :=
  is_true (prop j "analysis_terminal") || is_true (prop analysis "analysis_terminal") ||
  is_true (prop cps "analysis_terminal").

Definition cool_flag (j cps : val) : bool :=
  let cool := is_str (prop j "phase") "cool" in
  let icc := is_str (prop cps "business_state") "identity_complete_cool" in
  cool || icc ||
  (is_true (prop j "skip_identity_probe") &&
   (cool || is_str (prop cps "cycle_status") "complete" || is_true (prop cps "halt_uploads") ||
    is_true (prop j "halt_uploads"))) ||
  (is_true (prop j "skip_session_probe") && (cool || icc)).

Definition purged (cps : val) : bool := is_str (prop cps "cycle_status") "purged".

(** [code || (analysis.cycle_complete || j.cycle_complete ? ... : ...)] *)
Definition halt_code (j cps analysis : val) : val :=
  jor (code_of j)
    (if truthy (prop analysis "cycle_complete") || truthy (prop j "cycle_complete")
     then VStr "cycle_complete"
     else jor (prop cps "expired_reason") (jor (prop cps "cycle_status")
            (jor (prop cps "business_state") (VStr "halt_uploads")))).

Definition parseTerminal (status : Z) (j0 : val) : decision :=
  let j := jor j0 empty_obj in
  let code := code_of j in
  let cps := sub j "cycle_probe_status" in
  let analysis := sub j "analysis" in
  let icc := VStr "identity_complete_cool" in
  let hard := hardFinalComplete j cps in
  if soft_closed status j then
    Terminal (jor code (jor (prop j "code") (jor (prop cps "expired_reason") (VStr "cycle_complete"))))
      200 (jor (prop j "business_state") (jor (prop cps "business_state") icc)) true
  else if status =? 410 then
    Terminal (jor code (jor (prop cps "expired_reason") (VStr "session_expired"))) 410
      (jor (prop cps "business_state") (jor code (VStr "cycle_closed"))) false
  else if hard then Terminal (jor code (VStr "identity_final_complete")) (zor status 200) icc false
  else if halt_flag j cps analysis then
    if negb hard && negb (purged cps) && negb (status =? 410) then NotTerminal
    else Terminal (halt_code j cps analysis) (zor status 200)
           (jor (prop cps "business_state") (VStr "halt_uploads")) false
  else if closed_flag j cps analysis then
    if purged cps then Terminal (VStr "cycle_purged") (zor status 200) (VStr "purged") false
    else if negb hard then NotTerminal
    else Terminal (jor code (VStr "cycle_complete")) (zor status 200) icc false
  else if analysis_flag j cps analysis then
    if negb hard then NotTerminal
    else Terminal (VStr "analysis_terminal") (zor status 200) (VStr "analysis_terminal") false
  else if cool_flag j cps then
    if is_false (prop j "cool_silicon_ok") || is_false (prop cps "cool_silicon_ok") then NotTerminal
    else if negb hard && negb (is_true (prop j "cool_silicon_ok")) && negb (is_true (prop cps "has_b10"))
    then NotTerminal
    else Terminal (jor code (VStr "cool")) (zor status 200) icc false
  else if test_words ["session_expired"; "cycle_purged"; "incomplete_ttl"] (text_of j cps) then
    Terminal (jor code (VStr "session_expired")) status
      (jor (prop cps "business_state") (jor code (VStr "cycle_closed"))) false
  else NotTerminal.

(** [phaseForCode] *)
Definition phaseForCode (code reason : string) : string :=
  let c := if code =s "" then reason else code in
  if test_words ["incomplete_ttl"; "purged"; "cycle_purged"] c then "expired" else "cool".

Definition is_terminal (d : decision) : bool :=
  match d with Terminal _ _ _ _ => true | NotTerminal => false end.

(** ** Theorems *)

(** Evidence that primary B10 material exists, from the server or this session. *)
Definition b10_evidence (j cps : val) : Prop :=
  (exists v, In v (elems (jor (prop cps "received_batch_ids")
                    (jor (prop j "received_batch_ids") (VArr [])))) /\
     is_primary_b10 (received_id v) = true) \/
  "B10_hw_curves" ∈ batches_ok \/ "mid.curves" ∈ batches_ok.

Lemma has_b10_evidence j cps : has_b10 j cps = true <-> b10_evidence j cps.
Proof.
  unfold has_b10, b10_evidence. rewrite !orb_true_iff, andb_true_iff, existsb_exists.
  rewrite !bool_decide_eq_true. tauto.
Qed.

Lemma jor_obj a : truthy a = true -> jor a empty_obj = a.
Proof. unfold jor. by intros ->. Qed.

Lemma jor_self a : jor (jor a empty_obj) empty_obj = jor a empty_obj.
Proof. apply jor_obj. unfold jor. by destruct (truthy a) eqn:E; rewrite ?E. Qed.

(** [hardFinalComplete] never ends a cycle thinly: it holds exactly when primary
    B10 material is known to have landed (listed by the server or landed in this
    session), no B10x material is required, missing or still routed, and the schedule,
    the brain, the cycle or the coverage says final.  In particular no combination of
    server flags ends the cycle without B10. *)
Theorem hardFinalComplete_iff j cps0 :
  let cps := jor cps0 empty_obj in
  let cov := jor (prop cps "identity_coverage") (sub j "identity_coverage") in
  hardFinalComplete j cps0 = true <->
  edh_blocks j = false /\ b10_evidence j cps /\
  (schedule_final j cps cov = true \/ brain_term j cps cov = true \/
   cycle_flags_closed j cps = true \/ is_true (prop cov "hard_complete") = true).
Proof.
  cbn zeta. unfold hardFinalComplete. rewrite <- has_b10_evidence.
  set (cps := jor cps0 empty_obj). set (cov := jor _ _).
  destruct (edh_blocks j), (has_b10 j cps), (schedule_final j cps cov), (brain_term j cps cov),
    (cycle_flags_closed j cps), (is_true (prop cov "hard_complete")); cbn [negb orb]; intuition congruence.
Qed.

(** Every way a response can be terminal without final B10 material. *)
Definition thin_reason (status : Z) (j cps analysis : val) : Prop :=
  soft_closed status j = true \/ status = 410 \/
  ((halt_flag j cps analysis = true \/ closed_flag j cps analysis = true) /\ purged cps = true) \/
  (cool_flag j cps = true /\ (is_true (prop j "cool_silicon_ok") = true \/
                              is_true (prop cps "has_b10") = true)) \/
  test_words ["session_expired"; "cycle_purged"; "incomplete_ttl"] (text_of j cps) = true.

(** A response that is terminal although the session is not finally complete is one
    of: an explicit soft close on HTTP 200, HTTP 410, a purged cycle, a cool phase for
    which the server vouches for the silicon material, or an expiry code.  Every other
    halt, closed, analysis-terminal or cool flag leaves uploads running. *)
Theorem parseTerminal_thin status j0 :
  let j := jor j0 empty_obj in
  let cps := sub j "cycle_probe_status" in let analysis := sub j "analysis" in
  hardFinalComplete j cps = false ->
  is_terminal (parseTerminal status j0) = true -> thin_reason status j cps analysis.
Proof.
  cbn zeta. intros Hhard. unfold parseTerminal, thin_reason. rewrite Hhard. cbn [negb andb].
  set (j := jor j0 empty_obj). set (cps := sub j "cycle_probe_status"). set (an := sub j "analysis").
  destruct (soft_closed status j); [by left|]. destruct (Z.eqb_spec status 410); [by right; left|].
  rewrite andb_true_r.
  destruct (halt_flag j cps an); [destruct (purged cps); [tauto|done]|].
  destruct (closed_flag j cps an); [destruct (purged cps); [tauto|done]|].
  destruct (analysis_flag j cps an); [done|].
  destruct (cool_flag j cps).
  - destruct (is_false _ || is_false _); [done|].
    destruct (is_true (prop j "cool_silicon_ok")), (is_true (prop cps "has_b10")); try done; tauto.
  - destruct (test_words _ _); [tauto|done].
Qed.

(** What ends a cycle for certain: final completeness is terminal whatever else the
    response says, HTTP 410 is terminal with status 410 unless it is a soft close (which
    needs HTTP 200), a soft close reports status 200, and [accepted:false] on HTTP 200
    is a soft close by itself, with or without [halt_uploads]. *)
Theorem parseTerminal_status status j0 :
  let j := jor j0 empty_obj in
  (hardFinalComplete j (sub j "cycle_probe_status") = true ->
     is_terminal (parseTerminal status j0) = true) /\
  (status = 410 -> exists c b, parseTerminal status j0 = Terminal c 410 b false) /\
  (forall c st b, parseTerminal status j0 = Terminal c st b true ->
     st = 200 /\ soft_closed status j = true) /\
  (forall c st b, parseTerminal status j0 = Terminal c st b false -> st = zor status 200 \/ st = status) /\
  (status = 200 -> is_false (prop j "accepted") = true ->
     exists c b, parseTerminal status j0 = Terminal c 200 b true).
Proof.
  cbn zeta. unfold parseTerminal. split; [|split; [|split; [|split]]].
  - intros ->. by repeat case_match.
  - intros ->. unfold soft_closed. cbn [Z.eqb Pos.eqb andb]. eauto.
  - intros c st b. repeat case_match; intros [=]; subst; auto.
  - intros c st b. repeat case_match; intros [=]; subst; breflect; auto.
  - intros -> Ha. unfold soft_closed. rewrite Ha. simpl. eauto.
Qed.
End Terminal.

(** ** Concrete responses *)

Definition resp_410 : val := VObj [("error", VStr "session_expired")].
Definition resp_thin_halt : val :=
  VObj [("halt_uploads", VBool true); ("cycle_complete", VBool true); ("coverage_complete", VBool true)].
Definition resp_final : val :=
  VObj [("final_analysis_ok", VBool true);
        ("received_batch_ids", VArr [VObj [("batch_id", VStr "B10_hw_curves")]])].

Lemma parseTerminal_thin_witness :
  thin_reason 410 resp_410 empty_obj empty_obj.
Proof.
  exact (parseTerminal_thin ∅ 410 resp_410 eq_refl eq_refl).
Defined.

Example thin_halt_keeps_uploading : parseTerminal ∅ 200 resp_thin_halt = NotTerminal.
Proof. reflexivity. Qed.

Example final_with_b10 :
  parseTerminal ∅ 200 resp_final =
    Terminal (VStr "identity_final_complete") 200 (VStr "identity_complete_cool") false.
Proof. reflexivity. Qed.
