(* ===== verification/QueueState.v ===== *)
(** * Upload queue: state and predicates ([probe/fe/upload_queue.js])

    The queue's configuration, counters and module variables; the batch
    classes it consults; keys, priorities, the concurrency budget and the
    in-flight bookkeeping.  The operations that drive them are in
    [QueuePump] and [QueueApi]. *)

From Stdlib Require Import QArith Qround.
From S2P Require Import Prelude JsVal Window Lifecycle Registry Terminal.
#[local] Open Scope Z_scope.

(** ** State *)

(** [cfg]; numeric options are integers. *)
Record conf := mkConf {
  concurrency : Z;
  concurrency_max : Z;
  concurrency_floor : Z;
  ramp_after_first : Z;
  mid_ramp_concurrency : Z;
  c_apiBase : string;
  c_session : string;
  max_attempts_alive : Z;
  max_attempts_hide : Z;
  hard_anchor_batches : list string;
  hard_anchor_priority_boost : Z;
  b10x_post_b10_boost : Z
}.

Definition conf0 : conf := mkConf 3 6 1 4 4 "" "" 5 5
  ["B10_hw_curves"; "B0_bootstrap"; "B2_hardware"; "B3_system"; "B1_conflict";
   "B12_anti_camouflage"; "B8_gateway"; "B8_gateway_early"; "B10x_silicon_ulp";
   "B10x_silicon_noderiv"; "B10x_silicon_rint"] 1000 1500.

Definition eta_conf (c : conf) : conf :=
  mkConf (concurrency c) (concurrency_max c) (concurrency_floor c) (ramp_after_first c)
    (mid_ramp_concurrency c) (c_apiBase c) (c_session c) (max_attempts_alive c)
    (max_attempts_hide c) (hard_anchor_batches c) (hard_anchor_priority_boost c)
    (b10x_post_b10_boost c).
Definition set_concurrency v (c : conf) : conf := ltac:(upd eta_conf concurrency c v).
Definition set_concurrency_max v (c : conf) : conf := ltac:(upd eta_conf concurrency_max c v).
Definition set_mid_ramp v (c : conf) : conf := ltac:(upd eta_conf mid_ramp_concurrency c v).
Definition set_c_session v (c : conf) : conf := ltac:(upd eta_conf c_session c v).

Record counters := mkCnt {
  sent : Z; failed : Z; skipped : Z; hardFlushed : Z; hardRetries : Z;
  transportRetryCount : Z; captureFreezeCount : Z; aimdDowns : Z; aimdUps : Z;
  recentUploadOk : Z; recentUploadFail : Z;
  haltedDrops : Z; pagehideDropped : Z; successShortCircuit : Z; softAbortOnUnload : Z
}.

Definition cnt0 : counters := mkCnt 0 0 0 0 0 0 0 0 0 0 0 0 0 0 0.

Definition eta_cnt (c : counters) : counters :=
  mkCnt (sent c) (failed c) (skipped c) (hardFlushed c) (hardRetries c) (transportRetryCount c)
    (captureFreezeCount c) (aimdDowns c) (aimdUps c) (recentUploadOk c) (recentUploadFail c)
    (haltedDrops c) (pagehideDropped c) (successShortCircuit c) (softAbortOnUnload c).
Definition add_sent (c : counters) : counters := ltac:(upd eta_cnt sent c (sent c + 1)).
Definition add_failed (c : counters) : counters := ltac:(upd eta_cnt failed c (failed c + 1)).
Definition add_skipped (c : counters) : counters := ltac:(upd eta_cnt skipped c (skipped c + 1)).
Definition add_hardFlushed (c : counters) : counters :=
  ltac:(upd eta_cnt hardFlushed c (hardFlushed c + 1)).
Definition add_hardRetries (c : counters) : counters :=
  ltac:(upd eta_cnt hardRetries c (hardRetries c + 1)).
Definition add_transportRetry (c : counters) : counters :=
  ltac:(upd eta_cnt transportRetryCount c (transportRetryCount c + 1)).
Definition add_captureFreeze (c : counters) : counters :=
  ltac:(upd eta_cnt captureFreezeCount c (captureFreezeCount c + 1)).
Definition add_aimdDowns (c : counters) : counters := ltac:(upd eta_cnt aimdDowns c (aimdDowns c + 1)).
Definition add_aimdUps (c : counters) : counters := ltac:(upd eta_cnt aimdUps c (aimdUps c + 1)).
Definition set_recentOk v (c : counters) : counters := ltac:(upd eta_cnt recentUploadOk c v).
Definition set_recentFail v (c : counters) : counters := ltac:(upd eta_cnt recentUploadFail c v).
Definition add_haltedDrops (n : Z) (c : counters) : counters :=
  ltac:(upd eta_cnt haltedDrops c (haltedDrops c + n)).
Definition add_pagehideDropped (n : Z) (c : counters) : counters :=
  ltac:(upd eta_cnt pagehideDropped c (pagehideDropped c + n)).
Definition add_shortCircuit (c : counters) : counters :=
  ltac:(upd eta_cnt successShortCircuit c (successShortCircuit c + 1)).
Definition add_softAbort (n : Z) (c : counters) : counters :=
  ltac:(upd eta_cnt softAbortOnUnload c (softAbortOnUnload c + n)).

(** [sessionOutcome] *)
Record outcomes := mkOut {
  sealed_ok : Z; sealed_reject : Z; plain_ok : Z; network_n : Z; other_fail : Z;
  batches_ok : strset; batches_started : strset
}.
Definition out0 : outcomes := mkOut 0 0 0 0 0 ∅ ∅.

Record halt := mkHalt {
  h_reason : string; h_session : string; h_code : string; h_at_ms : Z;
  h_business : string; h_status : Z; h_soft : bool
}.

(** A value of [sentKeys]: [true], or the time stored under [k + "|ts"]. *)
Inductive sentval := SentTrue | SentAt (ms : Z).

(** What the queue hands to the outside: an upload started, a timer armed,
    an event dispatched, a seal grant refresh, requests aborted (by batch), a call of
    [GROps.uploadHttp] or [uploadRecovered], a session open, a script. *)
Inductive effect :=
| EPost (it : item) (heavy : bool) (k : string)
| EPostHalted (it : item) (heavy : bool) (k : string)
| ERetryTimer (it : item) (delay : Z)
| EPumpTimer (it : option item) (delay : Z)
| EDispatch (name : string)
| ERefreshSeal (sid : string)
| EAbort (ctrls : list string)
| ESetCool (until : Z) (version : val)
| EAdoptSeal
| EUploadHttp (status : Z) (bid : string) (detail : list (string * val))
| EUploadRecovered (bid : string) (detail : list (string * val))
| EOpenSession (url : string) (same : bool) (body : val)
| ELoadScript (src : string).

Record queue := mkQ {
  cfg : conf;
  pending : list item;
  inflight : Z;
  inflightItems : list item;
  heavyInflight : Z;
  cnt : counters;
  registry : gmap string mrec;
  acks : ack_counts;
  attempts : gmap string Z;
  sentKeys : gmap string sentval;
  flushReason : option string;
  hiding : bool;
  ramped : bool;
  haltState : option halt;
  inflightCtrls : list string;
  outc : outcomes;
  outcomeReported : bool;
  forceRecollectUsed : strset;
  has_lifecycle : bool;
  lc : Lifecycle.t;
  effects : list effect
}.

Definition eta_q (q : queue) : queue :=
  mkQ (cfg q) (pending q) (inflight q) (inflightItems q) (heavyInflight q) (cnt q) (registry q)
    (acks q) (attempts q) (sentKeys q) (flushReason q) (hiding q) (ramped q) (haltState q)
    (inflightCtrls q) (outc q) (outcomeReported q) (forceRecollectUsed q) (has_lifecycle q) (lc q)
    (effects q).
Definition set_cfg v (q : queue) : queue := ltac:(upd eta_q cfg q v).
Definition set_pending v (q : queue) : queue := ltac:(upd eta_q pending q v).
Definition set_inflight v (q : queue) : queue := ltac:(upd eta_q inflight q v).
Definition set_inflightItems v (q : queue) : queue := ltac:(upd eta_q inflightItems q v).
Definition set_heavyInflight v (q : queue) : queue := ltac:(upd eta_q heavyInflight q v).
Definition set_cnt v (q : queue) : queue := ltac:(upd eta_q cnt q v).
Definition set_registry v (q : queue) : queue := ltac:(upd eta_q registry q v).
Definition set_acks v (q : queue) : queue := ltac:(upd eta_q acks q v).
Definition set_attempts v (q : queue) : queue := ltac:(upd eta_q attempts q v).
Definition set_sentKeys v (q : queue) : queue := ltac:(upd eta_q sentKeys q v).
Definition set_flushReason v (q : queue) : queue := ltac:(upd eta_q flushReason q v).
Definition set_hiding v (q : queue) : queue := ltac:(upd eta_q hiding q v).
Definition set_ramped v (q : queue) : queue := ltac:(upd eta_q ramped q v).
Definition set_haltState v (q : queue) : queue := ltac:(upd eta_q haltState q v).
Definition set_inflightCtrls v (q : queue) : queue := ltac:(upd eta_q inflightCtrls q v).
Definition set_outc v (q : queue) : queue := ltac:(upd eta_q outc q v).
Definition set_outcomeReported v (q : queue) : queue := ltac:(upd eta_q outcomeReported q v).
Definition set_forceUsed v (q : queue) : queue := ltac:(upd eta_q forceRecollectUsed q v).
Definition set_lc v (q : queue) : queue := ltac:(upd eta_q lc q v).
Definition set_effects v (q : queue) : queue := ltac:(upd eta_q effects q v).

Definition count (f : counters -> counters) (q : queue) : queue := set_cnt (f (cnt q)) q.
Definition emit (e : effect) (q : queue) : queue := set_effects (e :: effects q) q.
Definition conf_upd (f : conf -> conf) (q : queue) : queue := set_cfg (f (cfg q)) q.

(** The window is the one the lifecycle component writes to. *)
Definition win (q : queue) : Win := Lifecycle.win (lc q).
Definition set_win (w : Win) (q : queue) : queue := set_lc (Lifecycle.set_win w (lc q)) q.
Definition report (code : string) (detail : list (string * val)) (sev : string) (q : queue) : queue :=
  set_win (ops_report code "upload" detail sev (win q)) q.

(** [GRUploadQueue] as the module creates it; [lifecycle] tells whether
    [GRProbeLifecycle] is loaded. *)
Definition q0 (lifecycle : bool) (w : Win) : queue :=
  mkQ conf0 [] 0 [] 0 cnt0 ∅ (mkAckCounts 0 0 0 0) ∅ ∅ None false false None [] out0 false ∅
    lifecycle (Lifecycle.init w) [].

(** ** Keys *)

Definition keyOf (q : queue) (it : item) : string :=
  join "|" [sor (i_session it) (c_session (cfg q)); batch_id it; src_of it].

(** [(item && item.session_id) || cfg.session_id || global.__GR_SESSION_ID__ || ""] *)
Definition sessionOf (q : queue) (it : item) : string :=
  sor (i_session it) (sor (c_session (cfg q))
    (to_string_or_empty (gget "__GR_SESSION_ID__" (win q)))).

Definition attempts_of (q : queue) (k : string) : Z := default 0 (attempts q !! k).
Definition set_attempt (k : string) (n : Z) (q : queue) : queue := set_attempts (<[k := n]> (attempts q)) q.
Definition is_sent (q : queue) (k : string) : bool := bool_decide (is_Some (sentKeys q !! k)).

(** ** Batch classes *)

Definition B10X_MUST : list string :=
  ["B10x_silicon_ulp"; "B10x_silicon_noderiv"; "B10x_silicon_rint"].

Definition batchAlreadyOk (q : queue) (id : string) : bool := bool_decide (id ∈ batches_ok (outc q)).
Definition b10_ok (q : queue) : bool := batchAlreadyOk q "B10_hw_curves".

Definition isPageUnloading (q : queue) : bool :=
  gtrue "__GR_PAGE_HIDING__" (win q) || gtrue "__GR_PAGE_UNLOADING__" (win q).
Definition isPageBackgrounded (q : queue) : bool := gtrue "__GR_PAGE_BACKGROUNDED__" (win q).

Definition isB10xMustLand (id : string) : bool := mem_str id B10X_MUST.

Definition pagehide_list : list string :=
  ["B0_bootstrap"; "B2_hardware"; "B3_system"; "B1_conflict"; "B12_anti_camouflage";
   "B8_gateway"; "B8_gateway_early"; "B47_sab_clock"; "B18_webgpu"; "B46_audio_deep"; "B7_sandbox"].

Definition isPagehideAllowlisted (q : queue) (id : string) : bool :=
  if id =s "" then false else
  if (id =s "mid.curves") || (id =s "B10_hw_curves") then true else
  if starts_with "B10x_silicon_" id then
    if id =s "B10x_silicon_deep" then
      if negb (isPageUnloading q) then true
      else negb (existsb (fun b => negb (batchAlreadyOk q b)) B10X_MUST)
    else true
  else mem_str id pagehide_list.

Definition isSecondaryInfraBatch (id : string) : bool :=
  mem_str id ["B47_sab_clock"; "B18_webgpu"; "B46_audio_deep"; "B10x_silicon_deep"].
Definition isB10xBatch (id : string) : bool := starts_with "B10x_" id.

Definition isHardAnchorBatch (q : queue) (id : string) : bool :=
  if id =s "" then false else
  if isSecondaryInfraBatch id then isPageUnloading q || b10_ok q else
  if starts_with "B10x_silicon_" id then isPageUnloading q || b10_ok q else
  mem_str id (hard_anchor_batches (cfg q)) || (id =s "mid.curves") || (id =s "B10_hw_curves").

Definition isCommercialHardForOps (q : queue) (id : string) : bool :=
  if id =s "" then false else
  if starts_with "B10x_" id then false else
  if mem_str id ["B47_sab_clock"; "B18_webgpu"; "B46_audio_deep"; "B15_cross_curves"] then false else
  (id =s "mid.curves") || (id =s "B10_hw_curves") || mem_str id (hard_anchor_batches (cfg q)).

Definition isDeepenBatch (q : queue) (id : string) : bool :=
  if has_lifecycle q then Lifecycle.isDeepenBatch id
  else starts_with "B10x_" id || (id =s "B15_cross_curves").

Definition isHeavyBatch (q : queue) (id : string) : bool :=
  if has_lifecycle q then Lifecycle.isHeavyBatch id
  else isDeepenBatch q id || (id =s "B7_sandbox") || (id =s "B18_webgpu") || (id =s "B46_audio_deep").

Definition heavyMaxInflight (q : queue) : Z :=
  if has_lifecycle q then Z.max 1 (to_int32 (Lifecycle.heavyMaxInflight (Lifecycle.POLICY (lc q)))) else 1.

Definition isRpaBatch (q : queue) (id : string) : bool :=
  if has_lifecycle q then Lifecycle.isRpaBatch id
  else (id =s "B11_interaction") || starts_with "B11_" id.

Definition isCommercialLandFast (id : string) : bool :=
  mem_str id ["B10_hw_curves"; "mid.curves"; "B10x_silicon_noderiv"; "B10x_silicon_rint";
              "B10x_silicon_ulp"].

(** A start marker or heartbeat, not a final payload. *)
Definition isStartHeartbeatItem (it : item) : bool :=
  let f := jand (payload it) (prop (payload it) "fields") in
  truthy f && is_object f &&
  ((to_string_or_empty (prop f "b10x_phase") =s "start") ||
   (to_string_or_empty (prop f "b10x_err") =s "started") ||
   (to_string_or_empty (prop f "b10x_err") =s "helpers_missing")).

(** [GRProbeLifecycle.allowEnqueue], true when the component is not loaded. *)
Definition allow_enqueue (id : string) (now : Z) (q : queue) : queue * bool :=
  if has_lifecycle q then
    let '(l, b) := Lifecycle.allowEnqueue id now (lc q) in (set_lc l q, b)
  else (q, true).

(** ** Attempts and delays *)

Definition maxAttempts (q : queue) : Z :=
  if hiding q then max_attempts_hide (cfg q) else max_attempts_alive (cfg q).

Definition maxAttemptsForItem (q : queue) (it : item) : Z :=
  if has_lifecycle q then
    let cap := Lifecycle.maxAttemptsFor (Lifecycle.POLICY (lc q)) (batch_id it) in
    if hiding q then Z.min cap (zor (max_attempts_hide (cfg q)) 4) else
    if isRpaBatch q (batch_id it) then Z.min cap (if hiding q then 2 else 3) else cap
  else if isRpaBatch q (batch_id it) then (if hiding q then 2 else 3) else maxAttempts q.

Definition backoffMsForItem (q : queue) (it : item) (attempt : Z) (rnd : Q) : Z :=
  let a := Z.max 0 (zor attempt 1 - 1) in
  if isCommercialLandFast (batch_id it) then Z.min 2000 (120 + a * 240 + a * a * 40) else
  if has_lifecycle q then Lifecycle.backoffMsFor (Lifecycle.POLICY (lc q)) (batch_id it) attempt rnd
  else Z.min 20000 (1000 * 2 ^ a).

(** ** Halting *)

Definition allowDespiteHalt (it : item) : bool :=
  force_after_halt it || allow_during_stop it || isB10xBatch (batch_id it) ||
  isSecondaryInfraBatch (batch_id it).

Definition halt_flags (q : queue) : bool :=
  gtrue "__GR_HALT_UPLOADS__" (win q) || gtrue "__GR_CYCLE_CLOSED__" (win q).

Definition isHaltedFor (q : queue) (it : item) : bool :=
  if halt_flags q then true else
  match haltState q with
  | None => false
  | Some h =>
    let sid := sessionOf q it in
    if h_session h =s "" then true else if sid =s "" then true else sid =s h_session h
  end.

Definition is_some {A} (o : option A) : bool := match o with Some _ => true | None => false end.

Definition uploadsBlocked (q : queue) (it : item) : bool :=
  if allowDespiteHalt it then false else
  if is_some (haltState q) || halt_flags q then true else isHaltedFor q it.

(** ** Concurrency budget *)

Definition cap_floor (c : conf) : Z := Z.max 1 (zor (concurrency_floor c) 1).

Definition life_cap (q : queue) (hardMax : Z) : Z :=
  if isPageUnloading q || hiding q || gtrue "__GR_PAGE_UNLOADING__" (win q) then 2 else
  if gtrue "__GR_PAGE_BACKGROUNDED__" (win q) || isPageBackgrounded q then 2 else hardMax.

Definition pressure_high (q : queue) : bool :=
  let st := lower (to_string_or_empty (gget "__GR_COMPUTE_PRESSURE_STATE__" (win q))) in
  (st =s "serious") || (st =s "critical").

Definition effectiveUploadCap (q : queue) : Z :=
  let c := cfg q in
  let floor := cap_floor c in
  let hardMax := Z.max floor (zor (concurrency_max c) 6) in
  let base := Z.max floor (zor (concurrency c) 3) in
  let l0 := life_cap q hardMax in
  let l1 := if pressure_high q then Z.min l0 floor else l0 in
  let l2 := if (3 <=? recentUploadFail (cnt q)) && (recentUploadOk (cnt q) <? recentUploadFail (cnt q))
            then Z.min l1 (Z.max floor (zor (base / 2) floor)) else l1 in
  Z.max floor (Z.min (Z.min hardMax base) l2).

Definition aimdOnSuccess (q : queue) : queue :=
  let n := cnt q |> set_recentOk (recentUploadOk (cnt q) + 1)
                 |> set_recentFail (Z.max 0 (recentUploadFail (cnt q) - 1)) in
  let maxC := Z.max 1 (zor (concurrency_max (cfg q)) 6) in
  if (3 <=? recentUploadOk n) && (recentUploadFail n =? 0) then
    let next := Z.min maxC (zor (concurrency (cfg q)) 3 + 1) in
    if concurrency (cfg q) <? next
    then q |> set_cnt (n |> add_aimdUps |> set_recentOk 0) |> conf_upd (set_concurrency next)
    else q |> set_cnt (n |> set_recentOk 0)
  else set_cnt n q.

Definition aimdOnFail (q : queue) : queue :=
  let n := cnt q |> set_recentFail (recentUploadFail (cnt q) + 1) |> set_recentOk 0 in
  let floor := cap_floor (cfg q) in
  let cur := zor (concurrency (cfg q)) 3 in
  let next := Z.max floor (zor (cur / 2) floor) in
  if next <? cur then q |> set_cnt (add_aimdDowns n) |> conf_upd (set_concurrency next)
  else set_cnt n q.

(** What the first-party page suggests: the [Number(...)] of each hint, [None]
    for an absent [brain_hints] member. *)
Record hints := mkHints {
  hint_upload : Z; hint_mid : Z; bh_upload : option Z; bh_mid : option Z
}.

Definition raise_max (req : Z) (q : queue) : queue :=
  if 0 <? req then
    conf_upd (set_concurrency_max
      (Z.min 8 (Z.max (zor (concurrency_max (cfg q)) 6) (Z.min req 8)))) q
  else q.

Definition raise_mid (max req : Z) (q : queue) : queue :=
  if 0 <? req then
    conf_upd (set_mid_ramp (Z.min max (Z.max (mid_ramp_concurrency (cfg q)) (Z.min req 6)))) q
  else q.

Definition applyFirstPartyPerfHints (first_party : bool) (h : hints) (q : queue) : queue :=
  if negb first_party then q else
  let q1 := raise_max (hint_upload h) q in
  let q2 := raise_mid (concurrency_max (cfg q1)) (hint_mid h) q1 in
  let q3 := match bh_upload h with Some r => raise_max r q2 | None => q2 end in
  let q4 := match bh_mid h with
            | Some r => raise_mid (zor (concurrency_max (cfg q3)) 6) r q3
            | None => q3
            end in
  conf_upd (set_concurrency
    (Z.min (zor (concurrency_max (cfg q4)) 6)
           (Z.max (zor (concurrency_floor (cfg q4)) 1) (zor (concurrency (cfg q4)) 3)))) q4.

(** [isFirstPartyMode]; [same_origin] is the URL parser's origin test. *)
Definition isFirstPartyMode (same_origin : string -> bool) (q : queue) : bool :=
  let b := jor (gget "__GR_BOOT__" (win q)) empty_obj in
  let raw := trim (sor (c_apiBase (cfg q)) (to_string_or_empty (prop b "apiBase"))) in
  if gtrue "__GR_FIRST_PARTY__" (win q) then true else
  if truthy (prop b "first_party") || truthy (prop b "firstParty") then true else
  if starts_with "/" raw then true else (raw <>s "") && same_origin raw.

(** ** In-flight bookkeeping *)

Definition removeInflightItem (it : item) (q : queue) : queue :=
  let k := keyOf q it in
  let gone c := Nat.eqb (uid c) (uid it) || ((k <>s "") && (keyOf q c =s k)) in
  let kept := List.filter (fun c => negb (gone c)) (inflightItems q) in
  let removed := Z.of_nat (length (inflightItems q)) - Z.of_nat (length kept) in
  let n0 := if 0 <? removed then Z.max 0 (inflight q - removed) else inflight q in
  let n1 := if Z.of_nat (length kept) <? n0 then Z.of_nat (length kept) else n0 in
  q |> set_inflightItems kept |> set_inflight (if n1 <? 0 then 0 else n1).

Definition prune_cap (c : conf) : Z := Z.max (zor (concurrency_max c) 6) (zor (concurrency c) 3) * 2.

Definition pruneStaleInflight (q : queue) : queue :=
  let cap := prune_cap (cfg q) in
  let len := Z.of_nat (length (inflightItems q)) in
  if (len <=? cap) && (inflight q <=? cap) then q else
  let items := if cap <? len then drop (Z.to_nat (len - cap)) (inflightItems q) else inflightItems q in
  let len' := Z.of_nat (length items) in
  q |> set_inflightItems items
    |> set_inflight (if len' <? inflight q then len' else inflight q)
    |> set_heavyInflight (if 1 <? heavyInflight q then 1 else heavyInflight q).

(** ** Captures and material state *)

Definition same_capture (bid sid : string) (it : item) : bool :=
  (batch_id it =s bid) &&
  negb ((sid <>s "") && (i_session it <>s "") && (i_session it <>s sid)).

Definition hasPendingCapture (bid sid : string) (q : queue) : bool :=
  if bid =s "" then false else
  existsb (same_capture bid sid) (pending q) || existsb (same_capture bid sid) (inflightItems q).

Definition materialState (bid sid src : string) (gen : option Z) (now : Z) (q : queue) : string :=
  if bid =s "" then "absent" else
  if batchAlreadyOk q bid then "acked" else
  let src' := sor src "main" in
  let rec := registryGet (c_session (cfg q)) bid src' sid (default 1 gen) (registry q) in
  let rstate := match rec with Some r => r_state r | None => "" end in
  if rstate =s "acked" then "acked" else
  if rstate =s "conflict" then "conflict" else
  let matches it := same_capture bid sid it &&
    negb ((i_source it <>s "") && (i_source it <>s src')) in
  if existsb matches (inflightItems q) then "uploading" else
  match List.find matches (pending q) with
  | Some it =>
    if negb (retry_after_ms it =? 0) && (now <? retry_after_ms it) then "retry_wait" else "queued"
  | None => sor rstate "absent"
  end.

(** ** Priorities and the pending list *)

Definition effectivePriority (q : queue) (it : item) : Z :=
  let bid := batch_id it in
  let b10 := (bid =s "B10_hw_curves") || (bid =s "mid.curves") in
  let p0 := priority it in
  let p1 := if b10 then p0 + 2200 else if bid =s "B2_hardware" then p0 + 1800
            else if isCommercialLandFast bid then p0 + 1600 else p0 in
  let p2 := if hiding q && isHardAnchorBatch q bid
            then p1 + zor (hard_anchor_priority_boost (cfg q)) 1000 else p1 in
  let away := hiding q || isPageUnloading q in
  let p3 := if negb away then
      if isB10xBatch bid then p2 + (if b10_ok q then zor (b10x_post_b10_boost (cfg q)) 1500 else 900)
      else if isSecondaryInfraBatch bid then p2 + (if b10_ok q then 1200 else 700) else p2
    else p2 in
  if away then
    if isB10xMustLand bid then p3 + 2500 else if b10 then p3 + 3000 else
    if bid =s "B10x_silicon_deep" then p3 - 400 else
    if negb (isPagehideAllowlisted q bid) then p3 - 5000 else p3
  else p3.

(** [sort((a, b) => f(b) - f(a))]: stable, highest first. *)
Fixpoint insert_desc {A} (f : A -> Z) (x : A) (l : list A) : list A :=
  match l with
  | [] => [x]
  | y :: l' => if f y <=? f x then x :: l else y :: insert_desc f x l'
  end.
Definition sort_desc {A} (f : A -> Z) (l : list A) : list A := foldr (insert_desc f) [] l.

Inductive queued := Pushed | Replaced | Dropped.

(** [(item.material_generation || 1) | 0] *)
Definition gen32 (it : item) : Z := to_int32 (zor (default 0 (material_generation it)) 1).

(** The coalescing loop of [queuePending] over the pending list. *)
Fixpoint coalesce (key : item -> string) (it : item) (l : list item) : option (list item) * queued :=
  match l with
  | [] => (Some [it], Pushed)
  | cur :: l' =>
    if key cur =s key it then
      if gen32 it <? gen32 cur then (None, Dropped) else (Some (it :: l'), Replaced)
    else let '(r, s) := coalesce key it l' in (option_map (cons cur) r, s)
  end.

Definition queuePending (it : item) (q : queue) : queue * queued :=
  if batch_id it =s "" then (q, Dropped) else
  let '(l, s) := coalesce (keyOf q) it (pending q) in
  let q1 := match l with Some l' => set_pending l' q | None => q end in
  (match s with Pushed => q1 | _ => count add_skipped q1 end, s).

(** ** The seal circuit breaker *)

Definition circuit_var (q : queue) : val := gget "__GR_SEAL_CIRCUIT__" (win q).

Definition circuit_until (c : val) : num := to_num (prop c "until").

Definition sealCircuitOpen (now : Z) (q : queue) : queue * bool :=
  if gtrue "__GR_SEAL_WASM_DEAD__" (win q) then (q, true) else
  let c := circuit_var q in
  let armed := truthy c && truthy (prop c "open") && truthy (prop c "until") in
  if armed && num_ltb (num_Z now) (circuit_until c) then (q, true) else
  if armed && negb (num_ltb (num_Z now) (circuit_until c)) && num_isfinite (circuit_until c) then
    (set_win (gset "__GR_SEAL_CIRCUIT__"
       (VObj [("open", VBool false); ("fails", vint 0); ("until", vint 0)]) (win q)) q, false)
  else (q, false).

Definition sealCircuitTrip (why : string) (now : Z) (q : queue) : queue :=
  let c := jor (circuit_var q) (VObj [("fails", vint 0)]) in
  let n := match to_num_or (prop c "fails") (num_Z 0) with Fin x => Qfloor x | _ => 0 end + 1 in
  if 3 <=? n then
    let why' := sor why "seal_fail" in
    let c' := VObj [("open", VBool true); ("fails", vint n); ("until", vint (now + 30000));
                    ("why", VStr why')] in
    q |> report "seal_circuit_open" [("fails", vint n); ("until", vint (now + 30000));
                                     ("why", VStr why')] "warn"
      |> (fun q => set_win (gset "__GR_SEAL_CIRCUIT__" c' (win q)) q)
  else
    set_win (gset "__GR_SEAL_CIRCUIT__"
      (VObj [("open", VBool (truthy (prop c "open"))); ("fails", vint n); ("until", prop c "until")])
      (win q)) q.

(** ** Lemmas: the budget *)

Lemma zor_cases x d : zor x d = x /\ x <> 0 \/ zor x d = d /\ x = 0.
Proof. unfold zor. destruct (Z.eqb_spec x 0); auto. Qed.

Lemma cap_floor_pos c : 1 <= cap_floor c.
Proof. unfold cap_floor. lia. Qed.

(** The upload budget is always at least the floor (so at least one) and at most the
    configured maximum; on unload, hiding or in a background tab it is at most two (or the
    floor), and under serious or critical compute pressure it is exactly the floor.  A
    configured concurrency of zero does not stop uploads. *)
Theorem effectiveUploadCap_bounds q :
  let floor := cap_floor (cfg q) in let cap := effectiveUploadCap q in
  1 <= floor <= cap /\ cap <= Z.max floor (zor (concurrency_max (cfg q)) 6) /\
  cap <= Z.max floor (zor (concurrency (cfg q)) 3) /\
  (isPageUnloading q || hiding q || isPageBackgrounded q = true -> cap <= Z.max floor 2) /\
  (pressure_high q = true -> cap = floor) /\ 0 < cap.
Proof.
  cbn zeta. pose proof (cap_floor_pos (cfg q)).
  unfold effectiveUploadCap, life_cap. fold (isPageBackgrounded q).
  set (f := cap_floor _) in *. set (b := zor (concurrency _) _). set (m := zor (concurrency_max _) _).
  set (z := zor (_ / 2) _). set (st := (3 <=? _) && _).
  destruct (isPageUnloading q), (hiding q), (gtrue "__GR_PAGE_UNLOADING__" (win q)),
    (isPageBackgrounded q), (pressure_high q), st; cbn [orb]; repeat split; intros; try lia.
Qed.

(** AIMD keeps the concurrency between the floor and the maximum: a success raises it
    by at most one and never above the maximum, a failure at least halves it (down to the
    floor) and never raises it. *)
Theorem aimd_bounds q :
  let lo := cap_floor (cfg q) in let hi := Z.max 1 (zor (concurrency_max (cfg q)) 6) in
  let c := concurrency (cfg q) in
  lo <= c <= hi ->
  let up := concurrency (cfg (aimdOnSuccess q)) in let down := concurrency (cfg (aimdOnFail q)) in
  lo <= up <= hi /\ c <= up <= c + 1 /\ lo <= down <= hi /\ (down = lo \/ down = c / 2) /\ down <= c.
Proof.
  cbn zeta. pose proof (cap_floor_pos (cfg q)). intros Hc.
  assert (zor (concurrency (cfg q)) 3 = concurrency (cfg q)) as Hz by (unfold zor; destruct (Z.eqb_spec (concurrency (cfg q)) 0); lia).
  assert (0 <= concurrency (cfg q) / 2 <= concurrency (cfg q)) as Hd.
  { split; [apply Z.div_pos; lia|]. apply Z.div_le_upper_bound; lia. }
  unfold aimdOnSuccess, aimdOnFail. rewrite Hz.
  set (lo := cap_floor _) in *. set (hi := Z.max 1 _) in *. set (c := concurrency _) in *.
  assert (zor (c / 2) lo = c / 2 \/ zor (c / 2) lo = lo /\ c / 2 = 0) as Hzc
    by (destruct (zor_cases (c / 2) lo) as [[? ?]|[? ?]]; auto).
  split; [|split].
  - destruct (_ && _); [destruct (c <? Z.min hi (c + 1)) eqn:E|]; simpl; fold c; breflect; lia.
  - destruct (_ && _); [destruct (c <? Z.min hi (c + 1)) eqn:E|]; simpl; fold c; breflect; lia.
  - destruct (Z.max lo (zor (c / 2) lo) <? c) eqn:E; simpl; fold c; breflect; lia.
Qed.

(** ** Lemmas: sorting *)

Lemma insert_desc_perm {A} (f : A -> Z) x l : insert_desc f x l ≡ₚ x :: l.
Proof.
  induction l as [|y l IH]; simpl; [done|]. destruct (f y <=? f x); [done|].
  rewrite IH. apply perm_swap.
Qed.

Lemma sort_desc_perm {A} (f : A -> Z) l : sort_desc f l ≡ₚ l.
Proof. induction l as [|x l IH]; simpl; [done|]. by rewrite insert_desc_perm, IH. Qed.

Lemma sort_desc_length {A} (f : A -> Z) l : length (sort_desc f l) = length l.
Proof. apply Permutation_length, sort_desc_perm. Qed.

Lemma insert_desc_sorted {A} (f : A -> Z) x l :
  StronglySorted (fun a b => f b <= f a) l -> StronglySorted (fun a b => f b <= f a) (insert_desc f x l).
Proof.
  induction 1 as [|y l Hl IH Hy]; simpl; [repeat constructor|].
  destruct (Z.leb_spec (f y) (f x)).
  - constructor; [by constructor|]. constructor; [done|].
    eapply Forall_impl; [exact Hy|]. simpl. lia.
  - constructor; [done|]. rewrite Forall_forall in *. intros z Hz.
    rewrite insert_desc_perm in Hz. apply elem_of_cons in Hz as [->|Hz]; [lia|auto].
Qed.

Lemma sort_desc_sorted {A} (f : A -> Z) l : StronglySorted (fun a b => f b <= f a) (sort_desc f l).
Proof. induction l as [|x l IH]; simpl; [constructor|]. by apply insert_desc_sorted. Qed.

(** The head of a sorted pending list has the highest priority. *)
Lemma sort_desc_head {A} (f : A -> Z) l x l' :
  sort_desc f l = x :: l' -> x :: l' ≡ₚ l /\ Forall (fun y => f y <= f x) l'.
Proof.
  intros E. rewrite <- E. split; [apply sort_desc_perm|].
  pose proof (sort_desc_sorted f l) as H. rewrite E in H. by apply StronglySorted_inv in H as [_ H].
Qed.

(** ** Lemmas: keys and coalescing *)

(** At most one pending item per key. *)
Definition unique_keys (key : item -> string) (l : list item) : Prop := NoDup (map key l).

Lemma coalesce_spec key it l :
  let '(r, s) := coalesce key it l in
  match s with
  | Pushed => r = Some (l ++ [it]) /\ Forall (fun c => key c <> key it) l
  | Replaced => exists l1 c l2, l = l1 ++ c :: l2 /\ r = Some (l1 ++ it :: l2) /\
      key c = key it /\ gen32 c <= gen32 it /\ Forall (fun c => key c <> key it) l1
  | Dropped => r = None /\ exists c, c ∈ l /\ key c = key it /\ gen32 it < gen32 c
  end.
Proof.
  induction l as [|c l IH]; simpl; [done|].
  destruct (key c =s key it) eqn:E; breflect.
  - destruct (gen32 it <? gen32 c) eqn:G; breflect.
    + split; [done|]. exists c. split; [left|]; done.
    + exists [], c, l. by repeat split.
  - destruct (coalesce key it l) as [r s]. destruct s.
    + destruct IH as [-> H]. split; [done|]. by constructor.
    + destruct IH as (l1 & d & l2 & -> & -> & ? & ? & ?). exists (c :: l1), d, l2.
      by repeat split; try constructor.
    + destruct IH as (-> & d & ? & ? & ?). split; [done|]. exists d. split; [by right|done].
Qed.

Lemma coalesce_unique key it l r s :
  coalesce key it l = (Some r, s) -> unique_keys key l -> unique_keys key r.
Proof.
  pose proof (coalesce_spec key it l) as H. intros E. rewrite E in H. unfold unique_keys. intros Hl.
  destruct s.
  - destruct H as [[= ->] H]. rewrite map_app. apply NoDup_app. split; [done|]. split.
    + intros x Hx Hx'%list_elem_of_singleton. subst x. apply list_elem_of_fmap in Hx as (c & Hc & Hin).
      rewrite Forall_forall in H. by apply (H c Hin).
    + apply NoDup_singleton.
  - destruct H as (l1 & c & l2 & -> & [= ->] & Hk & _). rewrite map_app in *. simpl in *. by rewrite <- Hk.
  - by destruct H as [[=] _].
Qed.

Lemma queuePending_frame it q :
  let q' := fst (queuePending it q) in
  cfg q' = cfg q /\ inflight q' = inflight q /\ inflightItems q' = inflightItems q /\
  heavyInflight q' = heavyInflight q /\ haltState q' = haltState q /\ lc q' = lc q /\
  hiding q' = hiding q /\ outc q' = outc q /\ has_lifecycle q' = has_lifecycle q /\
  registry q' = registry q /\ attempts q' = attempts q /\ effects q' = effects q.
Proof.
  unfold queuePending. destruct (batch_id it =s ""); [repeat split|].
  destruct (coalesce _ it (pending q)) as [[l|] s]; destruct s; repeat split.
Qed.

(** Inserting into the pending list keeps one item per session, batch and source,
    never replaces a capture of a higher generation, and when it neither drops nor
    replaces, appends; every outcome but an append is counted as skipped. *)
Theorem queuePending_spec it q :
  batch_id it <> "" -> unique_keys (keyOf q) (pending q) ->
  let '(q', s) := queuePending it q in
  unique_keys (keyOf q) (pending q') /\
  match s with
  | Pushed => pending q' = pending q ++ [it] /\ cnt q' = cnt q
  | Replaced => exists l1 c l2, pending q = l1 ++ c :: l2 /\ pending q' = l1 ++ it :: l2 /\
      keyOf q c = keyOf q it /\ gen32 c <= gen32 it /\ skipped (cnt q') = skipped (cnt q) + 1
  | Dropped => pending q' = pending q /\ skipped (cnt q') = skipped (cnt q) + 1 /\
      exists c, c ∈ pending q /\ keyOf q c = keyOf q it /\ gen32 it < gen32 c
  end.
Proof.
  intros Hb Hu. unfold queuePending. apply String.eqb_neq in Hb. rewrite Hb.
  pose proof (coalesce_spec (keyOf q) it (pending q)) as H.
  destruct (coalesce (keyOf q) it (pending q)) as [r s] eqn:E.
  destruct s.
  - destruct H as [-> H]. split; [by apply (coalesce_unique _ _ _ _ _ E)|]. done.
  - destruct H as (l1 & c & l2 & Hp & -> & Hk & Hg & _).
    split; [by apply (coalesce_unique _ _ _ _ _ E)|]. exists l1, c, l2. by repeat split.
  - destruct H as (-> & c & ? & ? & ?). split; [done|]. by repeat split; try exists c.
Qed.

(** Two items share a key only if they are for the same session, batch and source,
    provided the session and batch names contain no separator. *)
Theorem keyOf_inj q a b :
  no_char "|" (sor (i_session a) (c_session (cfg q))) = true ->
  no_char "|" (sor (i_session b) (c_session (cfg q))) = true ->
  no_char "|" (batch_id a) = true -> no_char "|" (batch_id b) = true ->
  keyOf q a = keyOf q b ->
  sor (i_session a) (c_session (cfg q)) = sor (i_session b) (c_session (cfg q)) /\
  batch_id a = batch_id b /\ src_of a = src_of b.
Proof.
  unfold keyOf. cbn [join]. intros Ha Hb Hba Hbb H.
  apply split_at_sep in H as [-> H]; [|done|done].
  by apply split_at_sep in H as [-> ->].
Qed.

(** ** Lemmas: in-flight bookkeeping *)

(** The in-flight counter never exceeds the tracked items. *)
Definition inflight_ok (q : queue) : Prop := 0 <= inflight q <= Z.of_nat (length (inflightItems q)).

Lemma removeInflightItem_ok it q : inflight_ok q -> inflight_ok (removeInflightItem it q).
Proof.
  unfold inflight_ok, removeInflightItem. cbv zeta. simpl.
  set (kept := List.filter _ _).
  assert (length kept <= length (inflightItems q))%nat as Hle by apply filter_length_le. intros H.
  repeat case_match; breflect; lia.
Qed.

Lemma pruneStaleInflight_ok q : inflight_ok q -> inflight_ok (pruneStaleInflight q).
Proof.
  unfold inflight_ok, pruneStaleInflight. cbv zeta. intros H.
  destruct (_ && _); [done|]. simpl. destruct (_ <? inflight q) eqn:E; breflect; lia.
Qed.

(** ** Witnesses *)

Definition demo_item (n : nat) (bid : string) (g : option Z) : item :=
  mkItem n "cycle_1" bid "" 10 false false false false false false g "" VUndef "" true 0 0 0 0
    VUndef VUndef 0 "" false.

Definition demo_state : queue := q0 true win0 |> set_pending [demo_item 1 "B2_hardware" (Some 1)].

Lemma aimd_bounds_witness :
  cap_floor conf0 <= concurrency (cfg (aimdOnSuccess (q0 true win0))) <= 6.
Proof. apply (aimd_bounds (q0 true win0)). vm_compute. split; discriminate. Defined.

Lemma queuePending_spec_witness :
  let '(q', s) := queuePending (demo_item 2 "B2_hardware" (Some 2)) demo_state in
  unique_keys (keyOf demo_state) (pending q') /\
  match s with
  | Pushed => pending q' = pending demo_state ++ [demo_item 2 "B2_hardware" (Some 2)] /\
      cnt q' = cnt demo_state
  | Replaced => exists l1 c l2, pending demo_state = l1 ++ c :: l2 /\
      pending q' = l1 ++ demo_item 2 "B2_hardware" (Some 2) :: l2 /\
      keyOf demo_state c = keyOf demo_state (demo_item 2 "B2_hardware" (Some 2)) /\
      gen32 c <= gen32 (demo_item 2 "B2_hardware" (Some 2)) /\
      skipped (cnt q') = skipped (cnt demo_state) + 1
  | Dropped => pending q' = pending demo_state /\ skipped (cnt q') = skipped (cnt demo_state) + 1 /\
      exists c, c ∈ pending demo_state /\
        keyOf demo_state c = keyOf demo_state (demo_item 2 "B2_hardware" (Some 2)) /\
        gen32 (demo_item 2 "B2_hardware" (Some 2)) < gen32 c
  end.
Proof.
  apply (queuePending_spec (demo_item 2 "B2_hardware" (Some 2)) demo_state); [discriminate|].
  apply NoDup_singleton.
Defined.

Lemma keyOf_inj_witness :
  let a := demo_item 1 "B2_hardware" None in let b := demo_item 2 "B2_hardware" None in
  batch_id a = batch_id b.
Proof. apply (keyOf_inj demo_state (demo_item 1 "B2_hardware" None) (demo_item 2 "B2_hardware" None)); reflexivity. Defined.
