(* ===== verification/Freeze.v ===== *)
(** * Capture freezing ([probe/fe/upload_queue.js], [freezeCapture])

    At the capture boundary a batch's fields are cloned, completed with
    product, timing and cohort values the page offers, hashed, and never
    changed again.  What the page offers is an [env]. *)

From Stdlib Require Import QArith Qround.
From S2P Require Import Prelude JsVal Window Lifecycle Sha256 Registry QueueState.
#[local] Open Scope Z_scope.

(** What a handler reads from the page besides [window] variables: the clock,
    [Math.random()], the optional browser interfaces ([None] when absent or
    throwing), and the answers of the other modules: whether [GRSeal] holds a
    valid grant, the session it resolves (empty when it does not), what
    [GRStorage.getCoolUntil] returns ([None] when storage is not loaded) and
    [navigator.onLine]. *)
Record env := mkEnv {
  now : Z;
  rnd : Q;
  e_perf : option Q;
  e_match : option (string -> bool);
  e_dpr : option Q;
  e_intl : option (string * string * string);
  e_voices : option Z;
  e_seal_valid : bool;
  e_seal_session : string;
  e_cool_until : option (option Z);
  e_online : val
}.

(** ** Object helpers *)

(** [o.k = v] *)
Fixpoint set_prop (k : string) (v : val) (o : list (string * val)) : list (string * val) :=
  match o with
  | [] => [(k, v)]
  | (k', v') :: o' => if k =s k' then (k, v) :: o' else (k', v') :: set_prop k v o'
  end.

(** [if (!o.k) o.k = v] and [if (o.k == null) o.k = v] *)
Definition fill_falsy (k : string) (v : val) (o : list (string * val)) : list (string * val) :=
  if truthy (assoc k o) then o else set_prop k v o.
Definition fill_null (k : string) (v : val) (o : list (string * val)) : list (string * val) :=
  if nonnull (assoc k o) then o else set_prop k v o.

(** [JSON.parse(JSON.stringify(v))] *)
Fixpoint json_clone (v : val) : val :=
  match v with
  | VNum (Fin q) => v
  | VNum _ => VNull
  | VArr l => VArr (map (fun x => match x with VUndef => VNull | _ => json_clone x end) l)
  | VObj o => VObj ((fix go (o : list (string * val)) : list (string * val) :=
      match o with
      | [] => []
      | (k, VUndef) :: o' => go o'
      | (k, x) :: o' => (k, json_clone x) :: go o'
      end) o)
  | _ => v
  end.

(** The own members of an object; the fields of a batch are an object. *)
Definition members_of (v : val) : list (string * val) := match v with VObj o => o | _ => [] end.

Definition num_round (x : Q) : Q := inject_Z (Qfloor (Qplus x (1 # 2))).

(** ** The steps of [freezeCapture] *)

Definition boot_version (w : Win) : val :=
  let b := gget "__GR_BOOT__" w in
  jand b (jor (prop b "product_version") (prop b "version")).

Definition product_ver (w : Win) : string :=
  to_string (jor (gget "__GR_PRODUCT_VERSION__" w) (jor (boot_version w) (VStr ""))).

Definition prod_epoch (w : Win) : string :=
  to_string (jor (gget "__GR_SERVER_PRODUCT_VERSION__" w)
    (jor (gget "__GR_PRODUCT_VERSION__" w) (jor (boot_version w) (VStr "")))).

Definition stamp_product (v : string) (o : list (string * val)) : list (string * val) :=
  if v =s "" then o else fill_falsy "product_version" (VStr v) o.

Definition stamp_timing (e : env) (pf : list (string * val)) : list (string * val) :=
  match e_perf e with
  | Some t => if nonnull (assoc "t_perf" pf) then pf else
      set_prop "t_wall_ms" (vint (now e))
        (set_prop "t_perf" (VNum (Fin (Qred (num_round (t * 1000) / 1000)%Q))) pf)
  | None => pf
  end.

Definition stamp_pressure (w : Win) (pf : list (string * val)) : list (string * val) :=
  let g := gget "__GR_COMPUTE_PRESSURE_STATE__" w in
  if truthy g then fill_falsy "compute_pressure_state" (VStr (to_string g)) pf else pf.

Definition gamut (m : string -> bool) : string :=
  if m "(color-gamut: rec2020)" then "rec2020" else
  if m "(color-gamut: p3)" then "p3" else
  if m "(color-gamut: srgb)" then "srgb" else "unknown".
Definition pointer (m : string -> bool) : string :=
  if m "(pointer: fine)" then "fine" else if m "(pointer: coarse)" then "coarse" else "none".

Definition stamp_match (k : string) (f : (string -> bool) -> string) (e : env)
    (pf : list (string * val)) : list (string * val) :=
  match e_match e with Some m => fill_falsy k (VStr (f m)) pf | None => pf end.

Definition stamp_dpr (e : env) (pf : list (string * val)) : list (string * val) :=
  match e_dpr e with
  | Some d => fill_null "cohort_dpr_bucket" (VNum (Fin (Qred (num_round (d * 4) / 4)%Q))) pf
  | None => pf
  end.

Definition stamp_intl (e : env) (pf : list (string * val)) : list (string * val) :=
  match e_intl e with
  | Some (loc, cal, nu) => if truthy (assoc "cohort_intl_locale" pf) then pf else
      pf |> set_prop "cohort_intl_locale" (VStr loc) |> set_prop "cohort_intl_calendar" (VStr cal)
         |> set_prop "cohort_intl_numbering" (VStr nu)
  | None => pf
  end.

Definition stamp_voices (e : env) (pf : list (string * val)) : list (string * val) :=
  match e_voices e with
  | Some n => fill_null "cohort_speech_voices_n" (vint n) pf
  | None => pf
  end.

Definition stamp_packs (w : Win) (pf : list (string * val)) : list (string * val) :=
  let p := to_string (jor (gget "__GR_FE_PACKS_VERSION__" w)
             (jor (gget "__GR_FE_CODE_VERSION__" w) (VStr ""))) in
  if p =s "" then pf else
  pf |> fill_falsy "fe_packs_version" (VStr p) |> fill_falsy "fe_code_version" (VStr p).

(** The server's product epoch replaces the module's own stamp. *)
Definition stamp_impl (w : Win) (pf : list (string * val)) : list (string * val) * Win :=
  let p := prod_epoch w in
  let g := gget "__GR_FE_IMPL_VERSION__" w in
  if p <>s "" then (set_prop "fe_impl_version" (VStr p) pf, gset "__GR_FE_IMPL_VERSION__" (VStr p) w)
  else if negb (truthy (assoc "fe_impl_version" pf)) && truthy g
  then (set_prop "fe_impl_version" (VStr (to_string g)) pf, w) else (pf, w).

Definition stamp_build (w : Win) (pf : list (string * val)) : list (string * val) :=
  let g := gget "__GR_BUILD_IMPL__" w in
  if truthy g then fill_falsy "fe_build_impl" (VStr (to_string g)) pf else pf.

(** All the fields a capture is completed with, in the source's order. *)
Definition stamp_page (e : env) (w : Win) (pf : list (string * val)) : list (string * val) :=
  pf |> stamp_product (product_ver w) |> stamp_timing e |> stamp_pressure w
     |> stamp_match "cohort_color_gamut" gamut e |> stamp_dpr e
     |> stamp_match "cohort_pointer" pointer e |> stamp_intl e |> stamp_voices e
     |> stamp_packs w.

Definition complete_fields (e : env) (w : Win) (pf : list (string * val)) : list (string * val) * Win :=
  let '(pf1, w1) := stamp_impl w (stamp_page e w pf) in
  (stamp_build w1 pf1, w1).

Definition new_capture_id (e : env) (bid : string) : string :=
  "cap_" +:+ sor bid "b" +:+ "_" +:+ Z_to_string (now e) +:+ "_" +:+
  Z_to_string (Qfloor (rnd e * inject_Z 1000000)).

(** The frozen item and the window after it. *)
Definition freeze_item (e : env) (w : Win) (it : item) : item * Win :=
  let base := stamp_product (product_ver w) (members_of (payload it)) in
  let pf0 := members_of (json_clone (VObj (members_of (assoc "fields" (members_of (payload it)))))) in
  let '(pf, w') := complete_fields e w pf0 in
  let p := VObj (set_prop "fields" (VObj pf) base) in
  (it |> set_payload p
      |> set_capture_id (sor (capture_id it) (new_capture_id e (batch_id it)))
      |> set_material_generation (Some (gen_of it))
      |> set_collected_at_ms (zor (collected_at_ms it) (now e))
      |> set_payload_hash (payloadHashOf p)
      |> set_capture_frozen true
      |> set_frozen_json (opt_concat (stableStringify (json_clone (VObj pf)))), w').

Definition freezeCapture (e : env) (it : item) (q : queue) : item * queue :=
  if capture_frozen it then (it, q) else
  let '(it', w') := freeze_item e (win q) it in
  (it', q |> set_win w' |> count add_captureFreeze
          |> set_registry (registryUpsertFromItem (c_session (cfg q)) it' "collected" (now e) (registry q))).

(** ** Lemmas *)

Lemma assoc_set_prop k k' v o : assoc k (set_prop k' v o) = if k =s k' then v else assoc k o.
Proof.
  induction o as [|[k1 v1] o IH]; simpl; [done|].
  destruct (k' =s k1) eqn:E1; simpl; breflect.
  - subst k1. by destruct (k =s k').
  - destruct (k =s k1) eqn:E2; breflect; [|done]. subst k1.
    destruct (k =s k') eqn:E3; breflect; congruence.
Qed.

(** A capture value the collector supplied: kept by every stamp. *)
Definition kept_by (f : list (string * val) -> list (string * val)) (k : string) : Prop :=
  forall o, truthy (assoc k o) = true -> assoc k (f o) = assoc k o.

Lemma truthy_nonnull v : truthy v = true -> nonnull v = true.
Proof. by destruct v. Qed.

Lemma fill_falsy_keeps k k' v : kept_by (fill_falsy k' v) k.
Proof.
  intros o Ho. unfold fill_falsy. destruct (truthy (assoc k' o)) eqn:E; [done|].
  rewrite assoc_set_prop. destruct (k =s k') eqn:Ek; breflect; congruence.
Qed.

Lemma fill_null_keeps k k' v : kept_by (fill_null k' v) k.
Proof.
  intros o Ho. unfold fill_null. destruct (nonnull (assoc k' o)) eqn:E; [done|].
  rewrite assoc_set_prop. destruct (k =s k') eqn:Ek; breflect; [|done]. subst.
  apply truthy_nonnull in Ho. congruence.
Qed.

Lemma set_prop_keeps k k' v : k <> k' -> kept_by (set_prop k' v) k.
Proof. intros Hne o _. rewrite assoc_set_prop. apply String.eqb_neq in Hne. by rewrite Hne. Qed.

Lemma kept_step f o k v :
  kept_by f k -> truthy v = true -> assoc k o = v -> assoc k (f o) = v.
Proof. intros Hf Hv <-. by apply Hf. Qed.

Lemma kept_by_id k : kept_by (fun o => o) k.
Proof. by intros o Ho. Qed.

#[export] Hint Resolve fill_falsy_keeps fill_null_keeps kept_by_id : grdb.

(** Fields that a stamp may replace although they are set: [t_wall_ms] with
    [t_perf], the other locale fields with the locale, and the product epoch. *)
Definition replaced_fields : list string :=
  ["t_perf"; "t_wall_ms"; "cohort_intl_locale"; "cohort_intl_calendar"; "cohort_intl_numbering";
   "fe_impl_version"].

Ltac not_replaced :=
  intros ->; match goal with H : mem_str _ _ = false |- _ => by vm_compute in H end.

(** Prove [kept_by f k] for a stamp [f] made of fills and of writes of replaced fields. *)
Ltac keeps f :=
  unfold f; repeat case_match; auto with grdb;
  let x := fresh in let Hx := fresh in intros x Hx; simpl; repeat case_match;
  repeat (apply kept_step; [first [apply fill_falsy_keeps | apply fill_null_keeps |
                                   apply set_prop_keeps; not_replaced] | done | ]); done.

Lemma stamp_page_keeps e w k : mem_str k replaced_fields = false -> kept_by (stamp_page e w) k.
Proof.
  intros Hk o Ho. unfold stamp_page.
  apply kept_step; [keeps stamp_packs|done|]. apply kept_step; [keeps stamp_voices|done|].
  apply kept_step; [keeps stamp_intl|done|]. apply kept_step; [keeps stamp_match|done|].
  apply kept_step; [keeps stamp_dpr|done|]. apply kept_step; [keeps stamp_match|done|].
  apply kept_step; [keeps stamp_pressure|done|]. apply kept_step; [keeps stamp_timing|done|].
  apply kept_step; [keeps stamp_product|done|]. done.
Qed.

Lemma complete_fields_keeps e w k o :
  mem_str k replaced_fields = false ->
  truthy (assoc k o) = true -> assoc k (fst (complete_fields e w o)) = assoc k o.
Proof.
  intros Hk Ho. unfold complete_fields.
  pose proof (stamp_page_keeps e w k Hk o Ho) as H9. set (o9 := stamp_page e w o) in *.
  destruct (stamp_impl w o9) as [pf1 w1] eqn:E. cbn [fst].
  assert (assoc k pf1 = assoc k o) as H1.
  { rewrite <- H9. unfold stamp_impl in E. repeat case_match; injection E as <- _; [| |done].
    all: apply set_prop_keeps; [not_replaced|by rewrite H9]. }
  unfold stamp_build. case_match; [|done].
  apply kept_step; [apply fill_falsy_keeps|done|done].
Qed.

(** ** Theorems *)

(** Freezing happens once and fixes the material: a second freeze changes nothing;
    after the first, the item keeps its batch, session and source, has a capture id and a
    generation, and its hash is the hash of the payload it carries; the registry record of
    the item becomes collected and no other record changes. *)
Theorem freezeCapture_spec e it q :
  let '(it', q') := freezeCapture e it q in
  freezeCapture e it' q' = (it', q') /\ capture_frozen it' = true /\
  batch_id it' = batch_id it /\ i_session it' = i_session it /\ i_source it' = i_source it /\
  uid it' = uid it /\
  (capture_frozen it = false ->
     payload_hash it' = payloadHashOf (payload it') /\ capture_id it' <> "" /\
     material_generation it' = Some (gen_of it) /\
     captureFreezeCount (cnt q') = captureFreezeCount (cnt q) + 1) /\
  pending q' = pending q /\ inflightItems q' = inflightItems q /\ inflight q' = inflight q.
Proof.
  unfold freezeCapture. destruct (capture_frozen it) eqn:Hf.
  - rewrite Hf. by repeat split.
  - unfold freeze_item. destruct (complete_fields _ _ _) as [pf w'].
    simpl. repeat split. unfold sor. destruct (capture_id it =s "") eqn:E; breflect; done.
Qed.

(** Freezing never overwrites what a collector reported: every field with a truthy
    value reaches the frozen material unchanged (up to the JSON round trip), except the
    timing, locale and implementation-version stamps. *)
Theorem freeze_keeps_fields e it q k v :
  capture_frozen it = false -> mem_str k replaced_fields = false ->
  assoc k (members_of (json_clone (assoc "fields" (members_of (payload it))))) = v ->
  truthy v = true ->
  assoc k (members_of (assoc "fields" (members_of (payload (fst (freezeCapture e it q)))))) = v.
Proof.
  intros Hf Hk Hv Ht. unfold freezeCapture. rewrite Hf. unfold freeze_item.
  set (f := assoc "fields" (members_of (payload it))) in *.
  assert (members_of (json_clone (VObj (members_of f))) = members_of (json_clone f)) as Hm.
  { destruct f as [| | |[]| | |]; try done. }
  rewrite Hm. destruct (complete_fields e _ _) as [pf w'] eqn:E.
  simpl. rewrite assoc_set_prop. simpl.
  pose proof (complete_fields_keeps e (win q) k (members_of (json_clone f)) Hk) as H.
  rewrite E in H. simpl in H. rewrite H; congruence.
Qed.

(** ** A concrete page *)

Definition env0 : env :=
  mkEnv 1000 (1 # 2) (Some (123 # 10)) (Some (fun m => m =s "(color-gamut: p3)")) (Some (2 # 1))
    (Some ("en-US", "gregory", "latn")) None false "" None VNull.

Definition raw_item : item :=
  mkItem 7 "cycle_1" "B0_bootstrap" "" 50 false false false false false false None ""
    (VObj [("fields", VObj [("ua", VStr "x"); ("cohort_pointer", VStr "custom")])]) "" false 0 0 0 0
    VUndef VUndef 0 "" false.

Definition win1 : Win := gset "__GR_PRODUCT_VERSION__" (VStr "5.9.1") win0.

Lemma freeze_keeps_fields_witness :
  assoc "cohort_pointer" (members_of (assoc "fields" (members_of (payload
    (fst (freezeCapture env0 raw_item (q0 true win1))))))) = VStr "custom".
Proof. apply (freeze_keeps_fields env0 raw_item (q0 true win1)); reflexivity. Defined.

Example frozen_fields :
  let it := fst (freezeCapture env0 raw_item (q0 true win1)) in
  map fst (members_of (assoc "fields" (members_of (payload it)))) =
    ["ua"; "cohort_pointer"; "product_version"; "t_perf"; "t_wall_ms"; "cohort_color_gamut";
     "cohort_dpr_bucket"; "cohort_intl_locale"; "cohort_intl_calendar"; "cohort_intl_numbering";
     "fe_impl_version"] /\
  capture_id it = "cap_B0_bootstrap_1000_500000".
Proof. split; reflexivity. Qed.
