(* ===== verification/QueuePump.v ===== *)
(** * Upload queue: pump and halting ([probe/fe/upload_queue.js])

    [pump] starts uploads within the budget; [noteOutcome] records what became
    of one; [applyHalt] ends the cycle.  The continuations of an upload are in
    [QueueOutcome]. *)

From Stdlib Require Import QArith Qround.
From S2P Require Import Prelude JsVal Window Lifecycle Sha256 Registry Terminal QueueState Freeze.
#[local] Open Scope Z_scope.

(** ** Starting uploads *)

(** The same object occurs in the in-flight list: its fields change there too. *)
Definition update_uid (it : item) (l : list item) : list item :=
  map (fun c => if Nat.eqb (uid c) (uid it) then it else c) l.

(** The synchronous part of [postOne]: refuse when blocked, freeze, register the
    abort controller.  What follows is asynchronous. *)
Definition postOne (e : env) (it : item) (heavy : bool) (k : string) (q : queue) : queue :=
  if uploadsBlocked q it then emit (EPostHalted it heavy k) q else
  let '(it', q1) := freezeCapture e it q in
  q1 |> set_inflightItems (update_uid it' (inflightItems q1))
     |> set_inflightCtrls (inflightCtrls q1 ++ [batch_id it'])
     |> emit (EPost it' heavy k).

(** The tail of the pump loop's body. *)
Definition start (e : env) (it : item) (heavy : bool) (q : queue) : queue :=
  let k := keyOf q it in
  let n := attempts_of q k + 1 in
  let q1 := set_attempt k n q in
  let q2 := if hiding q && isHardAnchorBatch q (batch_id it) && (1 <? n)
            then count add_hardRetries q1 else q1 in
  let q3 := q2 |> set_inflight (inflight q2 + 1) |> set_inflightItems (inflightItems q2 ++ [it]) in
  let q4 := set_registry
    (registryUpsertFromItem (c_session (cfg q3)) it "uploading" (now e) (registry q3)) q3 in
  let q5 := if heavy then set_heavyInflight (heavyInflight q4 + 1) q4 else q4 in
  postOne e it heavy k q5.

(** The first pending item that is not heavy, and the rest. *)
Fixpoint take_light (heavy : string -> bool) (l : list item) : option (item * list item) :=
  match l with
  | [] => None
  | it :: l' =>
    if heavy (batch_id it) then
      match take_light heavy l' with Some (x, r) => Some (x, it :: r) | None => None end
    else Some (it, l')
  end.

Inductive turn := Continue (q : queue) | Break (q : queue).
Definition turn_queue (t : turn) : queue := match t with Continue q | Break q => q end.

(** [item._retry_after_ms && item._retry_after_ms > Date.now()] *)
Definition deferred (now : Z) (it : item) : bool :=
  negb (retry_after_ms it =? 0) && (now <? retry_after_ms it).

Definition pump_item (e : env) (it : item) (q : queue) : turn :=
  if uploadsBlocked q it then Continue (count (add_haltedDrops 1) q) else
  let '(q1, allowed) := allow_enqueue (batch_id it) (now e) q in
  if negb allowed && negb (isHardAnchorBatch q1 (batch_id it)) then Continue (count add_failed q1) else
  if deferred (now e) it then Break (fst (queuePending it q1)) else
  let heavy := isHeavyBatch q1 (batch_id it) in
  if heavy && (heavyMaxInflight q1 <=? heavyInflight q1) then
    match take_light (isHeavyBatch q1) (pending q1) with
    | Some (light, rest) => Continue (start e light false (fst (queuePending it (set_pending rest q1))))
    | None => Break (set_pending (it :: pending q1) q1)
    end
  else Continue (start e it heavy q1).

(** One turn of the [while] loop, entered with a nonempty pending list. *)
Definition pump_turn (e : env) (q : queue) : turn :=
  match sort_desc (effectivePriority q) (pending q) with
  | [] => Break q
  | it :: rest => pump_item e it (set_pending rest q)
  end.

Fixpoint pump_loop (fuel : nat) (e : env) (conc : Z) (q : queue) : queue :=
  match fuel with
  | O => q
  | S f =>
    if (inflight q <? conc) && negb (Nat.eqb (length (pending q)) 0) then
      match pump_turn e q with
      | Continue q' => pump_loop f e conc q'
      | Break q' => q'
      end
    else q
  end.

(** [if (inflight > conc) inflight = Math.min(inflight, inflightItems.length, conc)] *)
Definition clamp_inflight (conc : Z) (q : queue) : queue :=
  if conc <? inflight q
  then set_inflight (Z.min (Z.min (inflight q) (Z.of_nat (length (inflightItems q)))) conc) q
  else q.

Definition pump (e : env) (q : queue) : queue :=
  let q1 := pruneStaleInflight q in
  let conc := effectiveUploadCap q1 in
  if conc <=? 0 then q1 else
  if is_some (haltState q1) && negb (existsb allowDespiteHalt (pending q1)) then q1 else
  pump_loop (length (pending q1)) e conc (clamp_inflight conc q1).

(** ** Session outcome *)

Inductive outcome_kind := KSealedOk | KSealedReject | KPlainOk | KNetwork | KOther.

Definition bump (k : outcome_kind) (o : outcomes) : outcomes :=
  let d x := match x, k with
             | KSealedOk, KSealedOk | KSealedReject, KSealedReject | KPlainOk, KPlainOk
             | KNetwork, KNetwork | KOther, KOther => 1 | _, _ => 0 end in
  mkOut (sealed_ok o + d KSealedOk) (sealed_reject o + d KSealedReject) (plain_ok o + d KPlainOk)
    (network_n o + d KNetwork) (other_fail o + d KOther) (batches_ok o) (batches_started o).

Definition mark_started (b : string) (o : outcomes) : outcomes :=
  mkOut (sealed_ok o) (sealed_reject o) (plain_ok o) (network_n o) (other_fail o) (batches_ok o)
    ({[b]} ∪ batches_started o).
Definition mark_ok (b : string) (o : outcomes) : outcomes :=
  mkOut (sealed_ok o) (sealed_reject o) (plain_ok o) (network_n o) (other_fail o)
    ({[b]} ∪ batches_ok o) (batches_started o).

Definition boostPendingB10x (e : env) (q : queue) : queue :=
  let boost := zor (b10x_post_b10_boost (cfg q)) 1500 in
  let l := map (fun it => if starts_with "B10x_silicon_" (batch_id it)
                          then set_priority (Z.max (priority it) boost) it else it) (pending q) in
  pump e (set_pending (sort_desc priority l) q).

Definition noteOutcome (e : env) (kind : outcome_kind) (bid : string) (it : option item)
    (q : queue) : queue :=
  let q1 := set_outc (bump kind (outc q)) q in
  match kind with
  | KSealedOk | KPlainOk =>
    if bid =s "" then q1 else
    if match it with Some i => isStartHeartbeatItem i | None => false end
    then set_outc (mark_started bid (outc q1)) q1
    else
      let q2 := set_outc (mark_ok bid (outc q1)) q1 in
      if bid =s "B10_hw_curves" then boostPendingB10x e q2 else q2
  | _ => q1
  end.

(** The depth class of the session summary. *)
Definition depth_class (ok : strset) : string :=
  let has b := bool_decide (b ∈ ok) in
  let hasB0 := has "B0_bootstrap" in
  let hasB10 := has "B10_hw_curves" in
  let hasB8 := has "B8_gateway" || has "B8_gateway_early" in
  let hasB10x := existsb (starts_with "B10x_silicon_") (elements ok) in
  if hasB8 && negb hasB0 && (Z.of_nat (size ok) <=? 2) then "gateway_only" else
  if hasB0 && hasB10 && hasB10x then "browser_b0_b10_silicon" else
  if hasB0 && hasB10 then "browser_b0_b10" else
  if hasB0 then "browser_partial" else
  if Nat.eqb (size ok) 0 then "empty" else "browser_lite".

Definition reportSessionUploadSummary (force : bool) (q : queue) : queue :=
  if outcomeReported q && negb force then q else
  if negb (gtrue "GROps" (win q)) then q else
  let o := outc q in
  let has b := bool_decide (b ∈ batches_ok o) in
  q |> set_outcomeReported true
    |> report "upload_session_summary"
      [("sealed_ok", vint (sealed_ok o)); ("sealed_reject", vint (sealed_reject o));
       ("plain_ok", vint (plain_ok o)); ("network", vint (network_n o));
       ("other_fail", vint (other_fail o)); ("batches_ok_n", vint (Z.of_nat (size (batches_ok o))));
       ("has_b0", VBool (has "B0_bootstrap")); ("has_b10", VBool (has "B10_hw_curves"));
       ("has_b10x", VBool (existsb (starts_with "B10x_silicon_") (elements (batches_ok o))));
       ("probe_depth_class", VStr (depth_class (batches_ok o)))] "info".

(** ** Local completion signals *)

Definition window_session (q : queue) : string :=
  sor (c_session (cfg q)) (to_string_or_empty (gget "__GR_SESSION_ID__" (win q))).

(** The hard anchors whose keys are sent, [B8_gateway_early] standing in for
    [B8_gateway]. *)
Definition hard_present (q : queue) : list string :=
  let sid := window_session q in
  let k b := join "|" [sid; b; "main"] in
  List.filter (fun b => is_sent q (k b) || ((b =s "B8_gateway") && is_sent q (k "B8_gateway_early")))
    (List.filter (fun b => b <>s "B8_gateway_early") (hard_anchor_batches (cfg q))).

Definition set_var (k : string) (v : val) (q : queue) : queue := set_win (gset k v (win q)) q.
Definition set_vars (l : list (string * val)) (q : queue) : queue :=
  fold_left (fun q kv => set_var (fst kv) (snd kv) q) l q.

Definition maybeLocalIdentityDone (e : env) (q : queue) : queue :=
  let sid := window_session q in
  let present := hard_present q in
  let idle := Nat.eqb (length (pending q)) 0 && (inflight q <=? 1) in
  let q1 := if (5 <=? Z.of_nat (length present)) && idle then
      q |> set_var "__GR_IDENTITY_UPLOADS_DONE__" (VObj
            [("at_ms", vint (now e)); ("hard_sent", vint (Z.of_nat (length present)));
             ("present", VArr (map VStr present)); ("session_id", VStr sid);
             ("local_only", VBool true);
             ("cycle_closed", VBool (is_some (haltState q) || gtrue "__GR_CYCLE_CLOSED__" (win q)))])
        |> emit (EDispatch "gr-identity-uploads-done")
    else q in
  if Nat.eqb (length (pending q1)) 0 && (inflight q1 =? 0) then
    q1 |> set_var "__GR_UPLOAD_QUEUE_IDLE__" (VObj
            [("at_ms", vint (now e)); ("sent", vint (sent (cnt q1))); ("session_id", VStr sid);
             ("halted", VBool (is_some (haltState q1)))])
       |> emit (EDispatch "gr-upload-queue-idle")
  else q1.

(** ** Halting *)

Definition soft_terminal (c : string) : bool :=
  let l := lower c in
  contains "cycle_complete" l || contains "identity_complete" l || contains "identity_final" l ||
  mem_str l ["cool"; "probe_complete"; "analysis_terminal"; "incomplete_ttl"; "cycle_purged";
             "session_expired"].

Definition cool_ok_halt (c : string) (q : queue) : bool :=
  let l := lower c in
  contains "identity_complete" l || contains "identity_final" l || contains "schedule_final" l ||
  contains "cycle_complete" l || mem_str l ["cool"; "probe_complete"; "analysis_terminal"] ||
  gtrue "__GR_BRAIN_SCHEDULE_FINAL__" (win q) || gtrue "__GR_HARD_FINAL__" (win q).

Definition halt_val (h : halt) : val :=
  VObj [("reason", VStr (h_reason h)); ("session_id", VStr (h_session h)); ("code", VStr (h_code h));
        ("at_ms", vint (h_at_ms h)); ("business_state", VStr (h_business h));
        ("status", vint (h_status h)); ("soft_close", VBool (h_soft h))].

Definition cool_version (q : queue) : val :=
  let b := gget "__GR_BOOT__" (win q) in
  jor (gget "__GR_SERVER_PRODUCT_VERSION__" (win q))
    (jor (jand b (jor (prop b "version") (prop b "product_version")))
      (jor (gget "__GR_PRODUCT_VERSION__" (win q)) VUndef)).

Definition stamp_cool (e : env) (c : string) (q : queue) : queue :=
  match e_cool_until e with
  | Some u =>
    if cool_ok_halt c q && negb (isPageUnloading q) then
      let u' := default 0 u in
      if u' <=? now e then emit (ESetCool (now e + 24 * 60 * 60 * 1000) (cool_version q)) q
      else emit (ESetCool u' (cool_version q)) q
    else q
  | None => q
  end.

Definition drop_halted (q : queue) : queue :=
  let keep := List.filter allowDespiteHalt (pending q) in
  q |> count (add_haltedDrops (Z.of_nat (length (pending q)) - Z.of_nat (length keep)))
    |> set_pending keep.

Definition halt_concurrency (q : queue) : queue :=
  match pending q with
  | [] => conf_upd (set_concurrency 0) q
  | _ => q |> conf_upd (fun c => if concurrency c <? 2 then set_concurrency 2 c else c)
           |> emit (EPumpTimer None 0)
  end.

(** [reason], [sessionId] and [code] are empty when absent. *)
Definition make_halt (e : env) (reason sid code : string) (q : queue) : halt :=
  let c := sor code (sor reason "halt") in
  mkHalt (sor reason "halt") (sor sid (window_session q)) c (now e) (phaseForCode c reason)
    (if soft_terminal c then 200 else 410) (soft_terminal c).

Definition applyHalt (e : env) (reason sid code : string) (q : queue) : queue :=
  let c := sor code (sor reason "halt") in
  let q1 := reportSessionUploadSummary true q in
  let h := make_halt e reason sid code q in
  let q2 := q1 |> set_haltState (Some h)
    |> set_vars [("__GR_STOP_PROBE__", VBool true); ("__GR_SKIP_IDENTITY__", VBool true);
                 ("__GR_HALT_UPLOADS__", VBool true); ("__GR_PHASE__", VStr (phaseForCode c reason));
                 ("__GR_UPLOAD_HALT__", halt_val h);
                 ("__GR_CYCLE_CLOSED__", VObj [("session_id", VStr (h_session h)); ("code", VStr c);
                    ("reason", VStr reason); ("at_ms", vint (now e));
                    ("soft_close", VBool (soft_terminal c))])] in
  let q3 := q2 |> stamp_cool e c |> drop_halted |> halt_concurrency in
  q3 |> emit (EAbort (inflightCtrls q3)) |> set_inflightCtrls []
     |> emit (EDispatch "gr-cycle-closed").

(** ** Lemmas: one turn *)

Lemma update_uid_length it l : length (update_uid it l) = length l.
Proof. apply length_map. Qed.

Lemma freezeCapture_frame e it q :
  let '(it', q') := freezeCapture e it q in
  cfg q' = cfg q /\ pending q' = pending q /\ inflight q' = inflight q /\
  inflightItems q' = inflightItems q /\ heavyInflight q' = heavyInflight q /\
  haltState q' = haltState q /\ attempts q' = attempts q /\ effects q' = effects q /\
  hiding q' = hiding q /\ has_lifecycle q' = has_lifecycle q /\ outc q' = outc q /\
  allowDespiteHalt it' = allowDespiteHalt it /\ batch_id it' = batch_id it /\ uid it' = uid it.
Proof.
  unfold freezeCapture. destruct (capture_frozen it); [by repeat split|].
  unfold freeze_item. destruct (complete_fields _ _ _) as [pf w']. by repeat split.
Qed.

(** The effect of starting an upload of [it], as far as the pump is concerned. *)
Lemma start_frame e it heavy q :
  let q' := start e it heavy q in
  cfg q' = cfg q /\ pending q' = pending q /\ haltState q' = haltState q /\
  hiding q' = hiding q /\ has_lifecycle q' = has_lifecycle q /\
  inflight q' = inflight q + 1 /\
  length (inflightItems q') = S (length (inflightItems q)) /\
  heavyInflight q' = heavyInflight q + (if heavy then 1 else 0) /\
  (exists it', uid it' = uid it /\ batch_id it' = batch_id it /\
     allowDespiteHalt it' = allowDespiteHalt it /\
     (effects q' = EPostHalted it' heavy (keyOf q it) :: effects q \/
      effects q' = EPost it' heavy (keyOf q it) :: effects q /\ uploadsBlocked q it = false)).
Proof.
  unfold start. cbv zeta.
  set (q2 := if hiding q && _ && _ then _ else _).
  assert (q2 = set_attempt (keyOf q it) (attempts_of q (keyOf q it) + 1) q \/
          q2 = count add_hardRetries (set_attempt (keyOf q it) (attempts_of q (keyOf q it) + 1) q))
    as Hq2 by (subst q2; destruct (_ && _); auto).
  set (q5 := if heavy then _ else _).
  assert (cfg q5 = cfg q /\ pending q5 = pending q /\ haltState q5 = haltState q /\
    hiding q5 = hiding q /\ has_lifecycle q5 = has_lifecycle q /\ inflight q5 = inflight q + 1 /\
    inflightItems q5 = inflightItems q ++ [it] /\
    heavyInflight q5 = heavyInflight q + (if heavy then 1 else 0) /\ effects q5 = effects q /\
    lc q5 = lc q) as (Hc & Hp & Hh & Hhi & Hl & Hi & Hit & Hhv & Hef & Hlc).
  { subst q5. destruct Hq2 as [-> | ->]; destruct heavy; repeat split; simpl; lia. }
  assert (uploadsBlocked q5 it = uploadsBlocked q it) as Hub.
  { unfold uploadsBlocked, isHaltedFor, halt_flags, sessionOf, win. by rewrite Hh, Hlc, Hc. }
  unfold postOne. rewrite Hub. destruct (uploadsBlocked q it) eqn:Eb.
  - simpl. rewrite Hc, Hp, Hh, Hhi, Hl, Hi, Hit, Hhv, Hef, length_app. simpl.
    repeat split; [lia|]. exists it. repeat split. by left.
  - pose proof (freezeCapture_frame e it q5) as Hf. destruct (freezeCapture e it q5) as [it' q6].
    destruct Hf as (Hc6 & Hp6 & Hi6 & Hit6 & Hh6 & Hs6 & _ & He6 & Hd6 & Hl6 & _ & Ha6 & Hb6 & Hu6).
    simpl. rewrite update_uid_length, Hit6, Hc6, Hp6, Hi6, Hh6, Hs6, He6, Hd6, Hl6, Hc, Hp, Hh, Hhi,
      Hl, Hi, Hit, Hhv, Hef, length_app. simpl.
    repeat split; [lia|]. exists it'. repeat split; auto.
Qed.

Lemma allow_enqueue_frame id t q :
  let '(q', b) := allow_enqueue id t q in
  cfg q' = cfg q /\ pending q' = pending q /\ inflight q' = inflight q /\
  inflightItems q' = inflightItems q /\ heavyInflight q' = heavyInflight q /\
  haltState q' = haltState q /\ effects q' = effects q /\ hiding q' = hiding q /\
  has_lifecycle q' = has_lifecycle q /\ cnt q' = cnt q /\ outc q' = outc q.
Proof.
  unfold allow_enqueue. destruct (has_lifecycle q) eqn:E; [|by rewrite E].
  destruct (Lifecycle.allowEnqueue _ _ _) as [l b]. by repeat split.
Qed.

Lemma take_light_spec heavy l :
  match take_light heavy l with
  | Some (x, r) => heavy (batch_id x) = false /\ l ≡ₚ x :: r
  | None => Forall (fun it => heavy (batch_id it) = true) l
  end.
Proof.
  induction l as [|it l IH]; simpl; [constructor|].
  destruct (heavy (batch_id it)) eqn:E; [|done].
  destruct (take_light heavy l) as [[x r]|].
  - destruct IH as [Hx ->]. split; [done|]. apply perm_swap.
  - by constructor.
Qed.

Lemma queuePending_length it q :
  (length (pending (fst (queuePending it q))) <= S (length (pending q)))%nat.
Proof.
  unfold queuePending. destruct (batch_id it =s ""); [simpl; lia|].
  pose proof (coalesce_spec (keyOf q) it (pending q)) as H.
  destruct (coalesce _ it (pending q)) as [r s]. destruct s.
  - destruct H as [-> _]. simpl. rewrite length_app. simpl. lia.
  - destruct H as (l1 & c & l2 & Hp & -> & _). simpl. rewrite Hp, !length_app. simpl. lia.
  - destruct H as [-> _]. simpl. lia.
Qed.

Lemma pump_turn_head e q :
  pending q <> [] ->
  exists it rest, sort_desc (effectivePriority q) (pending q) = it :: rest /\
    it :: rest ≡ₚ pending q /\
    Forall (fun y => effectivePriority q y <= effectivePriority q it) rest /\
    pump_turn e q = pump_item e it (set_pending rest q).
Proof.
  intros Hne. destruct (sort_desc (effectivePriority q) (pending q)) as [|it rest] eqn:E.
  - apply (f_equal length) in E. rewrite sort_desc_length in E. by destruct (pending q).
  - exists it, rest. destruct (sort_desc_head _ _ _ _ E). unfold pump_turn. by rewrite E.
Qed.

(** A turn that goes on has consumed a pending item. *)
Lemma pump_turn_decreases e q q' :
  pump_turn e q = Continue q' -> (length (pending q') < length (pending q))%nat.
Proof.
  intros H. destruct (decide (pending q = [])) as [Hnil|Hne].
  { unfold pump_turn in H. by rewrite Hnil in H. }
  destruct (pump_turn_head e q Hne) as (it & rest & _ & Hp & _ & Heq). rewrite Heq in H.
  apply Permutation_length in Hp. rewrite <- Hp. simpl. unfold pump_item in H.
  destruct (uploadsBlocked _ it); [injection H as <-; simpl; lia|].
  pose proof (allow_enqueue_frame (batch_id it) (now e) (set_pending rest q)) as Hf.
  destruct (allow_enqueue _ _ _) as [q1 b]. destruct Hf as (_ & Hp1 & _). simpl in Hp1.
  destruct (_ && _); [injection H as <-; simpl; rewrite Hp1; lia|].
  destruct (deferred _ _); [done|].
  destruct (isHeavyBatch q1 (batch_id it) && _).
  - pose proof (take_light_spec (isHeavyBatch q1) (pending q1)) as Ht.
    destruct (take_light _ _) as [[x r]|]; [|done]. injection H as <-.
    destruct Ht as [_ Ht%Permutation_length]. simpl in Ht. rewrite Hp1 in Ht.
    pose proof (start_frame e x false (fst (queuePending it (set_pending r q1)))) as (_ & -> & _).
    pose proof (queuePending_length it (set_pending r q1)) as Hq.
    change (pending (set_pending r q1)) with r in Hq. cbn [length]. lia.
  - injection H as <-. pose proof (start_frame e it (isHeavyBatch q1 (batch_id it)) q1) as (_ & -> & _).
    rewrite Hp1. lia.
Qed.

Lemma pump_loop_fuel e conc f1 f2 q :
  (length (pending q) <= f1)%nat -> (length (pending q) <= f2)%nat ->
  pump_loop f1 e conc q = pump_loop f2 e conc q.
Proof.
  revert f2 q. induction f1 as [|f1 IH]; intros f2 q H1 H2.
  - destruct f2 as [|f2]; [done|]. simpl. replace (length (pending q)) with O by lia.
    by rewrite andb_false_r.
  - destruct f2 as [|f2].
    { simpl. replace (length (pending q)) with O by lia. by rewrite andb_false_r. }
    simpl. destruct (_ && _); [|done].
    destruct (pump_turn e q) as [q'|q'] eqn:Et; [|done].
    apply pump_turn_decreases in Et. apply IH; lia.
Qed.

(** How a run of the loop with enough fuel ends. *)
Definition loop_end (e : env) (conc : Z) (q' : queue) : Prop :=
  conc <= inflight q' \/ pending q' = [] \/ exists q1, pump_turn e q1 = Break q'.

Lemma pump_loop_end e conc f q :
  (length (pending q) <= f)%nat -> loop_end e conc (pump_loop f e conc q).
Proof.
  revert q. induction f as [|f IH]; intros q Hf; simpl.
  - right; left. destruct (pending q); [done|simpl in Hf; lia].
  - destruct (inflight q <? conc) eqn:Ei; simpl; breflect; [|by left].
    destruct (length (pending q)) eqn:El; simpl.
    + right; left. by destruct (pending q).
    + destruct (pump_turn e q) as [q'|q'] eqn:Et.
      * apply pump_turn_decreases in Et. apply IH. lia.
      * right; right. by exists q.
Qed.

(** C30: The pump loop terminates: as many turns as there are pending items are enough
    fuel, more fuel gives the same result, and the loop then ended because the budget is
    used up, nothing is pending, or a turn broke out. *)
Theorem pump_loop_terminates e conc q fuel :
  (length (pending q) <= fuel)%nat ->
  pump_loop fuel e conc q = pump_loop (length (pending q)) e conc q /\
  loop_end e conc (pump_loop fuel e conc q).
Proof. intros Hf. split; [by apply pump_loop_fuel | by apply pump_loop_end]. Qed.

(** ** Lemmas: bounds *)

Lemma lifecycle_allow_frame id t s :
  Lifecycle.POLICY (fst (Lifecycle.allowEnqueue id t s)) = Lifecycle.POLICY s /\
  Lifecycle.win (fst (Lifecycle.allowEnqueue id t s)) = Lifecycle.win s.
Proof.
  unfold Lifecycle.allowEnqueue, Lifecycle.guard_test, Lifecycle.rpaQuietActive,
    Lifecycle.deepenQuietActive, Lifecycle.softQuietActive.
  repeat (case_match; simplify_eq/=); done.
Qed.

(** What an operation leaves alone between two turns: configuration, halt
    state, hiding, the lifecycle policy and the window's halt flags. *)
Definition same_context (q q' : queue) : Prop :=
  cfg q' = cfg q /\ haltState q' = haltState q /\ hiding q' = hiding q /\
  has_lifecycle q' = has_lifecycle q /\ Lifecycle.POLICY (lc q') = Lifecycle.POLICY (lc q) /\
  halt_flags q' = halt_flags q /\
  to_string_or_empty (gget "__GR_SESSION_ID__" (win q')) = to_string_or_empty (gget "__GR_SESSION_ID__" (win q)).

#[export] Instance same_context_preorder : PreOrder same_context.
Proof.
  split; [by intros q|]. intros a b c (? & ? & ? & ? & ? & ? & ?) (? & ? & ? & ? & ? & ? & ?).
  repeat split; congruence.
Qed.

Lemma same_context_blocked q q' it : same_context q q' -> uploadsBlocked q' it = uploadsBlocked q it.
Proof.
  intros (Hc & Hh & _ & _ & _ & Hf & Hs). unfold uploadsBlocked, isHaltedFor, sessionOf.
  by rewrite Hh, Hf, Hc, Hs.
Qed.

Lemma same_context_heavy q q' : same_context q q' ->
  heavyMaxInflight q' = heavyMaxInflight q /\ forall id, isHeavyBatch q' id = isHeavyBatch q id.
Proof.
  intros (_ & _ & _ & Hl & Hp & _). unfold heavyMaxInflight, isHeavyBatch, isDeepenBatch.
  by rewrite Hl, Hp.
Qed.

Lemma stamp_impl_win w pf k :
  k <> "__GR_FE_IMPL_VERSION__" -> gget k (snd (stamp_impl w pf)) = gget k w.
Proof.
  intros Hk. unfold stamp_impl. case_match; simpl; [by apply gget_gset_ne|]. by case_match.
Qed.

Lemma freezeCapture_context e it q : same_context q (snd (freezeCapture e it q)).
Proof.
  unfold freezeCapture. destruct (capture_frozen it); [done|].
  unfold freeze_item, complete_fields.
  pose proof (stamp_impl_win (win q)) as Hw.
  destruct (stamp_impl (win q) _) as [pf w'] eqn:E.
  assert (forall k, k <> "__GR_FE_IMPL_VERSION__" -> gget k w' = gget k (win q)) as Hk.
  { intros k Hk.
    match type of E with stamp_impl _ ?p = _ => specialize (Hw p k Hk); rewrite E in Hw end.
    exact Hw. }
  repeat split; unfold halt_flags, gtrue, win; simpl; rewrite !Hk by discriminate; done.
Qed.

Lemma allow_enqueue_context id t q : same_context q (fst (allow_enqueue id t q)).
Proof.
  unfold allow_enqueue. destruct (has_lifecycle q) eqn:E; [|done].
  pose proof (lifecycle_allow_frame id t (lc q)) as [Hp Hw].
  destruct (Lifecycle.allowEnqueue _ _ _) as [l b]. simpl in *.
  repeat split; unfold halt_flags, gtrue, win; simpl; by rewrite ?Hw, ?Hp.
Qed.

Lemma queuePending_context it q : same_context q (fst (queuePending it q)).
Proof.
  unfold queuePending. destruct (batch_id it =s ""); [done|].
  by destruct (coalesce _ it (pending q)) as [[l|] []].
Qed.

Lemma start_context e it heavy q : same_context q (start e it heavy q).
Proof.
  unfold start, postOne. cbv zeta.
  set (q5 := if heavy then _ else _).
  assert (same_context q q5) as H5 by (subst q5; destruct heavy, (hiding q && _ && _); done).
  destruct (uploadsBlocked q5 it); [etrans; [exact H5|done]|].
  pose proof (freezeCapture_context e it q5) as H6. destruct (freezeCapture e it q5) as [it' q6].
  etrans; [exact H5|]. etrans; [exact H6|]. done.
Qed.

(** One upload started, or none. *)
Definition started (q q' : queue) : Prop :=
  exists (it : item) (heavy : bool) (k : string),
    inflight q' = inflight q + 1 /\
    length (inflightItems q') = S (length (inflightItems q)) /\
    heavyInflight q' = heavyInflight q + (if heavy then 1 else 0) /\
    (heavy = true -> heavyInflight q < heavyMaxInflight q) /\
    (effects q' = EPostHalted it heavy k :: effects q \/
     effects q' = EPost it heavy k :: effects q /\ uploadsBlocked q it = false).

Definition not_started (q q' : queue) : Prop :=
  inflight q' = inflight q /\ inflightItems q' = inflightItems q /\
  heavyInflight q' = heavyInflight q /\ effects q' = effects q.

Lemma start_started e it heavy q0 q :
  same_context q0 q -> not_started q0 q ->
  (heavy = true -> heavyInflight q0 < heavyMaxInflight q0) ->
  started q0 (start e it heavy q).
Proof.
  intros Hc (Hi & Hit & Hh & Hef) Hheavy.
  destruct (start_frame e it heavy q) as (_ & _ & _ & _ & _ & Hi' & Hit' & Hh' & it' & _ & Hb & Ha & He').
  rewrite Hi in Hi'. rewrite Hit in Hit'. rewrite Hh in Hh'. rewrite Hef in He'.
  exists it', heavy, (keyOf q it). repeat split; try done.
  destruct He' as [He'|[He' Hub]]; [by left|right]. split; [done|].
  rewrite <- (same_context_blocked _ _ it' Hc).
  destruct (same_context_blocked _ _ it' Hc). revert Hub. unfold uploadsBlocked. rewrite Ha.
  destruct (allowDespiteHalt it); [done|].
  destruct (is_some (haltState q) || halt_flags q) eqn:E; [done|].
  apply orb_false_iff in E as [E1 E2]. unfold isHaltedFor. rewrite E2.
  by destruct (haltState q).
Qed.

Lemma pump_item_frame e it q :
  let q' := turn_queue (pump_item e it q) in
  same_context q q' /\ (not_started q q' \/ started q q').
Proof.
  unfold pump_item. destruct (uploadsBlocked q it); [by split; [|left]|].
  pose proof (allow_enqueue_context (batch_id it) (now e) q) as Hc1.
  pose proof (allow_enqueue_frame (batch_id it) (now e) q) as Hf1.
  destruct (allow_enqueue _ _ _) as [q1 b]. simpl in Hc1.
  destruct Hf1 as (_ & _ & Hi1 & Hit1 & Hh1 & _ & Hef1 & _).
  assert (not_started q q1) as Hn1 by done.
  destruct (_ && _); [by split; [|left]|].
  destruct (deferred _ _).
  { simpl. split; [etrans; [exact Hc1|apply queuePending_context]|]. left.
    destruct (queuePending_frame it q1) as (_ & Hi & Hit & Hh & _ & _ & _ & _ & _ & _ & _ & Hef).
    unfold not_started. by rewrite Hi, Hit, Hh, Hef. }
  destruct (same_context_heavy _ _ Hc1) as [Hhm _].
  destruct (isHeavyBatch q1 (batch_id it) && (heavyMaxInflight q1 <=? heavyInflight q1)) eqn:Ehv.
  - destruct (take_light _ _) as [[x r]|]; simpl; [|by split; [|left]].
    set (q2 := set_pending r q1).
    assert (same_context q (fst (queuePending it q2))) as Hc2.
    { etrans; [exact Hc1|]. apply (queuePending_context it q2). }
    split; [etrans; [exact Hc2|apply start_context]|]. right. apply start_started; [done| |done].
    destruct (queuePending_frame it q2) as (_ & Hi & Hit & Hh & _ & _ & _ & _ & _ & _ & _ & Hef).
    unfold not_started. by rewrite Hi, Hit, Hh, Hef.
  - simpl. split; [etrans; [exact Hc1|apply start_context]|]. right. apply start_started; [done|done|].
    intros Hhv. rewrite Hhv in Ehv. simpl in Ehv. breflect. rewrite Hhm, Hh1 in *. lia.
Qed.

Lemma pump_turn_frame e q :
  let q' := turn_queue (pump_turn e q) in
  same_context q q' /\ (not_started q q' \/ started q q').
Proof.
  unfold pump_turn. destruct (sort_desc _ _) as [|it rest]; [by split; [|left]|].
  exact (pump_item_frame e it (set_pending rest q)).
Qed.

(** Induction over the loop. *)
Lemma pump_loop_ind (I : queue -> Prop) e conc :
  (forall q, I q -> inflight q < conc -> I (turn_queue (pump_turn e q))) ->
  forall f q, I q -> I (pump_loop f e conc q).
Proof.
  intros HI. induction f as [|f IH]; intros q Hq; simpl; [done|].
  destruct (inflight q <? conc) eqn:Ei; simpl; [|done]. breflect.
  destruct (negb _); [|done]. specialize (HI q Hq Ei).
  destruct (pump_turn e q) as [q'|q']; simpl in HI; auto.
Qed.

Lemma pruneStaleInflight_context q :
  same_context q (pruneStaleInflight q) /\ effects (pruneStaleInflight q) = effects q.
Proof.
  unfold pruneStaleInflight. cbv zeta.
  by destruct ((Z.of_nat (length (inflightItems q)) <=? _) && _).
Qed.

Definition n_effects (q : queue) : Z := Z.of_nat (length (effects q)).

(** The invariant of the loop between its start [q] and now. *)
Definition loop_inv (conc : Z) (q q' : queue) : Prop :=
  same_context q q' /\ inflight_ok q' /\ heavyInflight q' <= heavyMaxInflight q /\
  (inflight q' = inflight q \/ inflight q' <= conc) /\
  n_effects q' - n_effects q = inflight q' - inflight q.

Lemma loop_inv_turn e conc q q' :
  loop_inv conc q q' -> inflight q' < conc -> loop_inv conc q (turn_queue (pump_turn e q')).
Proof.
  intros (Hc & Hok & Hh & Hi & Hn) Hlt.
  destruct (pump_turn_frame e q') as [Hc' Hs]. set (q2 := turn_queue _) in *.
  destruct (same_context_heavy _ _ Hc) as [Hhm _].
  assert (same_context q q2) as Hc2 by (etrans; eassumption).
  destruct Hs as [(Hi2 & Hit2 & Hh2 & Hef2) | (it & hv & k & Hi2 & Hl2 & Hh2 & Hhv & Hef2)].
  - unfold loop_inv, inflight_ok, n_effects in *. rewrite Hi2, Hit2, Hh2, Hef2. by split.
  - unfold loop_inv, inflight_ok, n_effects in *. split; [done|].
    split; [lia|]. split; [destruct hv; [specialize (Hhv eq_refl)|]; cbn [Z.add] in Hh2; lia|]. split; [lia|].
    destruct Hef2 as [He2 | [He2 _]]; rewrite He2; simpl; lia.
Qed.

Lemma clamp_inflight_ok conc q :
  inflight_ok q -> 0 < conc ->
  inflight_ok (clamp_inflight conc q) /\ inflight (clamp_inflight conc q) = Z.min (inflight q) conc.
Proof.
  unfold inflight_ok, clamp_inflight. intros H Hc. destruct (conc <? inflight q) eqn:E; breflect; simpl; lia.
Qed.

(** C19: [pump] never starts more uploads than the budget leaves room for (none when the
    counter is at or above it), keeps the counter within the tracked items, and never runs
    more heavy uploads than the lifecycle policy allows. *)
Theorem pump_bounds e q :
  inflight_ok q -> heavyInflight q <= heavyMaxInflight q -> inflight q <= prune_cap (cfg q) ->
  Z.of_nat (length (inflightItems q)) <= prune_cap (cfg q) ->
  let q' := pump e q in
  inflight_ok q' /\ heavyInflight q' <= heavyMaxInflight q' /\
  0 <= n_effects q' - n_effects q <= Z.max 0 (effectiveUploadCap q - inflight q) /\
  inflight q' <= Z.max (inflight q) (effectiveUploadCap q).
Proof.
  cbn zeta. intros Hok Hh Hcap1 Hcap2. unfold pump.
  assert (pruneStaleInflight q = q) as ->.
  { unfold pruneStaleInflight. cbv zeta. destruct (_ <=? _) eqn:E1; breflect; [|lia].
    by destruct (inflight q <=? prune_cap (cfg q)) eqn:E2; breflect; [|lia]. }
  destruct (effectiveUploadCap q <=? 0) eqn:Ec; breflect;
    [unfold inflight_ok in *; repeat split; lia|].
  destruct (_ && _); [unfold inflight_ok in *; repeat split; lia|].
  set (conc := effectiveUploadCap q) in *.
  destruct (clamp_inflight_ok conc q Hok Ec) as [Hok1 Hi1].
  set (q1 := clamp_inflight conc q) in *.
  assert (same_context q q1 /\ heavyInflight q1 = heavyInflight q /\ effects q1 = effects q) as (Hc1 & Hh1 & He1)
    by (subst q1; unfold clamp_inflight; by destruct (conc <? inflight q)).
  destruct (same_context_heavy _ _ Hc1) as [Hhm1 _].
  assert (loop_inv conc q1 (pump_loop (length (pending q)) e conc q1)) as (Hc' & Hok' & Hh' & Hi' & Hn').
  { apply (pump_loop_ind (loop_inv conc q1)); [intros; by apply loop_inv_turn|].
    unfold loop_inv. repeat split; try done; [apply Hok1|apply Hok1|lia|auto|lia]. }
  destruct (same_context_heavy _ _ Hc') as [Hhm' _].
  unfold n_effects in *. rewrite He1 in Hn'. split; [done|]. split; [lia|].
  set (q2 := pump_loop _ _ _ _) in *. split; [|lia]. split; [|lia].
  enough (inflight q1 <= inflight q2) by lia.
  assert (n_effects q1 <= n_effects q2); [|unfold n_effects in *; rewrite He1 in *; lia].
  subst q2. apply (pump_loop_ind (fun q' => n_effects q1 <= n_effects q')); [|lia].
  intros q3 H3 _. destruct (pump_turn_frame e q3) as [_ [(_ & _ & _ & He)|(it & hv & k & _ & _ & _ & _ & He)]];
    unfold n_effects in *; [by rewrite He|]. destruct He as [-> | [-> _]]; simpl; lia.
Qed.

(** Every upload handed to the network since [q] was not blocked. *)
Definition posts_unblocked (q q' : queue) : Prop :=
  same_context q q' /\
  forall it heavy k, EPost it heavy k ∈ effects q' ->
    EPost it heavy k ∈ effects q \/ uploadsBlocked q it = false.

Lemma posts_unblocked_turn e q q' :
  posts_unblocked q q' -> posts_unblocked q (turn_queue (pump_turn e q')).
Proof.
  intros [Hc Hef]. destruct (pump_turn_frame e q') as [Hc' Hs].
  split; [etrans; eassumption|].
  destruct Hs as [(_ & _ & _ & ->)|(i2 & h2 & k2 & _ & _ & _ & _ & He)]; [done|].
  destruct He as [-> | [-> Hub]]; intros it heavy k [Heq|Hi]%elem_of_cons; auto; [done|].
  injection Heq as -> -> ->. right. by rewrite <- (same_context_blocked _ _ _ Hc).
Qed.

Lemma pump_posts e q : posts_unblocked q (pump e q).
Proof.
  unfold pump. destruct (pruneStaleInflight_context q) as [Hc1 He1]. set (q1 := pruneStaleInflight q) in *.
  assert (posts_unblocked q q1) as Hp1 by (split; [done|]; rewrite He1; auto).
  destruct (effectiveUploadCap q1 <=? 0); [done|].
  destruct (is_some (haltState q1) && _); [done|].
  set (conc := effectiveUploadCap q1). apply (pump_loop_ind (posts_unblocked q)).
  { intros q' H _. by apply posts_unblocked_turn. }
  unfold clamp_inflight. by destruct (_ <? _).
Qed.

(** After a halt only must-land material is sent: every upload that [pump] hands to
    the network was not blocked, and while the queue is halted (by its own state or the
    window's flags) that means a B10x batch, a secondary silicon batch, or an item marked
    to survive the halt. *)
Theorem pump_respects_halt e q it heavy k :
  is_some (haltState q) || halt_flags q = true ->
  EPost it heavy k ∈ effects (pump e q) -> EPost it heavy k ∉ effects q ->
  force_after_halt it = true \/ allow_during_stop it = true \/
  isB10xBatch (batch_id it) = true \/ isSecondaryInfraBatch (batch_id it) = true.
Proof.
  intros Hh Hin Hnin.
  enough (uploadsBlocked q it = false) as Hb.
  { unfold uploadsBlocked in Hb. rewrite Hh in Hb. destruct (allowDespiteHalt it) eqn:E; [|done].
    unfold allowDespiteHalt in E. rewrite !orb_true_iff in E. tauto. }
  destruct (pump_posts e q) as [_ H]. by destruct (H it heavy k Hin).
Qed.

(** ** What the pump leaves alone

    A relation between states that every primitive update of the pump respects
    relates the states before and after a whole [pump].  Instances: equality of
    a component the pump does not write, [same_context]. *)
Class PumpStable (R : queue -> queue -> Prop) : Prop := {
  ps_preorder :: PreOrder R;
  ps_pending v q : R q (set_pending v q);
  ps_inflight v q : R q (set_inflight v q);
  ps_items v q : R q (set_inflightItems v q);
  ps_heavy v q : R q (set_heavyInflight v q);
  ps_cnt v q : R q (set_cnt v q);
  ps_registry v q : R q (set_registry v q);
  ps_attempts v q : R q (set_attempts v q);
  ps_post it heavy k q : R q (emit (EPost it heavy k) q);
  ps_post_halted it heavy k q : R q (emit (EPostHalted it heavy k) q);
  ps_ctrls v q : R q (set_inflightCtrls v q);
  ps_allow id t q : R q (fst (allow_enqueue id t q));
  ps_freeze e it q : R q (snd (freezeCapture e it q))
}.

Section Stable.
Context (R : queue -> queue -> Prop) `{!PumpStable R}.

Lemma ps_step q q1 q2 : R q q1 -> R q1 q2 -> R q q2.
Proof. apply transitivity. Qed.

Lemma ps_count f q : R q (count f q).
Proof. apply ps_cnt. Qed.

Lemma queuePending_stable it q : R q (fst (queuePending it q)).
Proof.
  unfold queuePending. destruct (batch_id it =s ""); [done|].
  destruct (coalesce _ it (pending q)) as [r s].
  set (q1 := match r with Some l => set_pending l q | None => q end).
  assert (R q q1) as H by (subst q1; destruct r; [apply ps_pending|done]).
  destruct s; simpl; [exact H| |]; (etrans; [exact H|apply ps_count]).
Qed.

Lemma postOne_stable e it heavy k q : R q (postOne e it heavy k q).
Proof.
  unfold postOne. destruct (uploadsBlocked q it); [apply ps_post_halted|].
  pose proof (ps_freeze (R := R) e it q) as H. destruct (freezeCapture e it q) as [it' q1].
  etrans; [exact H|]. etrans; [|apply ps_post]. etrans; [|apply ps_ctrls]. apply ps_items.
Qed.

Lemma start_stable e it heavy q : R q (start e it heavy q).
Proof.
  unfold start. cbv zeta. etrans; [|apply postOne_stable].
  set (q1 := if hiding q && _ && _ then _ else _).
  assert (R q q1) as H1.
  { subst q1. destruct (hiding q && _ && _); [etrans; [|apply ps_count]|]; apply ps_attempts. }
  clearbody q1. etrans; [exact H1|].
  destruct heavy; [etrans; [|apply ps_heavy]|]; (etrans; [|apply ps_registry]);
    (etrans; [|apply ps_items]); apply ps_inflight.
Qed.

Lemma pump_turn_stable e q : R q (turn_queue (pump_turn e q)).
Proof.
  unfold pump_turn. destruct (sort_desc _ _) as [|it rest]; [done|].
  etrans; [apply (ps_pending rest)|]. generalize (set_pending rest q). clear q. intros q.
  unfold pump_item. destruct (uploadsBlocked q it); [apply ps_count|].
  pose proof (ps_allow (R := R) (batch_id it) (now e) q) as H.
  destruct (allow_enqueue _ _ _) as [q1 b]. simpl in H.
  destruct (_ && _); [etrans; [exact H|apply ps_count]|].
  destruct (deferred _ _); [etrans; [exact H|apply queuePending_stable]|].
  destruct (isHeavyBatch q1 (batch_id it) && _).
  - destruct (take_light _ _) as [[x r]|]; simpl; [|etrans; [exact H|apply ps_pending]].
    etrans; [exact H|]. etrans; [apply (ps_pending r)|].
    etrans; [apply (queuePending_stable it)|apply start_stable].
  - etrans; [exact H|apply start_stable].
Qed.

Lemma pruneStaleInflight_stable q : R q (pruneStaleInflight q).
Proof.
  unfold pruneStaleInflight. cbv zeta.
  destruct ((Z.of_nat (length (inflightItems q)) <=? _) && _); [done|].
  etrans; [|apply ps_heavy]. etrans; [|apply ps_inflight]. apply ps_items.
Qed.

Lemma pump_stable e q : R q (pump e q).
Proof.
  unfold pump. pose proof (pruneStaleInflight_stable q) as H. set (q1 := pruneStaleInflight q) in *.
  destruct (effectiveUploadCap q1 <=? 0); [done|].
  destruct (is_some (haltState q1) && _); [done|].
  etrans; [exact H|]. set (conc := effectiveUploadCap q1).
  apply (pump_loop_ind (R q1)).
  - intros q2 H2 _. etrans; [exact H2|apply pump_turn_stable].
  - unfold clamp_inflight. destruct (_ <? _); [apply ps_inflight|done].
Qed.
End Stable.

#[export] Instance same_context_stable : PumpStable same_context.
Proof.
  split; try done; [apply _|apply allow_enqueue_context|apply freezeCapture_context].
Qed.

(** Components the pump never writes. *)
Definition keeps {A} (f : queue -> A) (q q' : queue) : Prop := f q' = f q.

#[export] Instance keeps_preorder {A} (f : queue -> A) : PreOrder (keeps f).
Proof. unfold keeps. split; [done|]. intros a b c H1 H2. congruence. Qed.

Ltac pump_stable_keeps :=
  split; try done; try apply _;
  [ intros id t q; unfold keeps, allow_enqueue;
    destruct (has_lifecycle q); [by destruct (Lifecycle.allowEnqueue _ _ _)|done]
  | intros e it q; unfold keeps, freezeCapture, freeze_item;
    destruct (capture_frozen it); [done|]; by destruct (complete_fields _ _ _) ].

#[export] Instance keeps_outc : PumpStable (keeps outc).
Proof. pump_stable_keeps. Qed.
#[export] Instance keeps_sentKeys : PumpStable (keeps sentKeys).
Proof. pump_stable_keeps. Qed.
#[export] Instance keeps_acks : PumpStable (keeps acks).
Proof. pump_stable_keeps. Qed.
#[export] Instance keeps_forceUsed : PumpStable (keeps forceRecollectUsed).
Proof. pump_stable_keeps. Qed.
#[export] Instance keeps_ramped : PumpStable (keeps ramped).
Proof. pump_stable_keeps. Qed.

(** Window variables other than the frozen implementation version. *)
Definition keeps_var (k : string) : queue -> queue -> Prop := keeps (fun q => gget k (win q)).

Lemma keeps_var_stable k : k <> "__GR_FE_IMPL_VERSION__" -> PumpStable (keeps_var k).
Proof.
  intros Hk. unfold keeps_var. split; try done; try apply _; unfold keeps.
  - intros id t q. unfold allow_enqueue, win. destruct (has_lifecycle q); [|done].
    pose proof (lifecycle_allow_frame id t (lc q)) as [_ Hw].
    destruct (Lifecycle.allowEnqueue _ _ _) as [l b]. simpl in *. by rewrite Hw.
  - intros e it q. unfold freezeCapture. destruct (capture_frozen it); [done|].
    unfold freeze_item, complete_fields. pose proof (stamp_impl_win (win q)) as Hw.
    destruct (stamp_impl (win q) _) as [pf w'] eqn:E.
    match type of E with stamp_impl _ ?p = _ => specialize (Hw p k Hk); rewrite E in Hw end.
    exact Hw.
Qed.

(** ** A deferred head blocks the queue *)

(** The turn that finds the highest-priority item deferred ends the loop: nothing is
    started, whatever else is pending and ready and however much of the budget is free. *)
Theorem deferred_head_blocks e q it rest :
  pruneStaleInflight q = q ->
  sort_desc (effectivePriority (clamp_inflight (effectiveUploadCap q) q)) (pending q) = it :: rest ->
  uploadsBlocked q it = false -> snd (allow_enqueue (batch_id it) (now e) q) = true ->
  deferred (now e) it = true ->
  effects (pump e q) = effects q.
Proof.
  intros Hpr Hs Hb Hh Hd. unfold pump. rewrite Hpr. destruct (_ <=? 0); [done|].
  destruct (is_some (haltState q) && _); [done|]. set (conc := effectiveUploadCap q) in *.
  set (q2 := clamp_inflight conc q) in *.
  assert (effects q2 = effects q /\ pending q2 = pending q /\ same_context q q2 /\ lc q2 = lc q)
    as (He & Hp & Hc & Hl) by (subst q2; unfold clamp_inflight; by destruct (_ <? _)).
  rewrite <- He. clearbody q2. rewrite <- Hp in *.
  destruct (length (pending q2)) eqn:El; simpl; [done|].
  rewrite El. destruct ((inflight q2 <? conc) && _); [|done]. unfold pump_turn. rewrite Hs.
  unfold pump_item. rewrite (same_context_blocked q _ it), Hb by (etrans; [exact Hc|done]).
  pose proof (allow_enqueue_frame (batch_id it) (now e) (set_pending rest q2)) as Hf.
  assert (snd (allow_enqueue (batch_id it) (now e) (set_pending rest q2)) = true) as Ha.
  { revert Hh. unfold allow_enqueue. destruct Hc as (_ & _ & _ & Hhl & _). simpl. rewrite Hhl, Hl.
    destruct (has_lifecycle q); [|done]. by destruct (Lifecycle.allowEnqueue _ _ _). }
  destruct (allow_enqueue (batch_id it) (now e) (set_pending rest q2)) as [q3 b]. cbn [snd] in Ha.
  rewrite Ha. cbn [negb andb]. rewrite Hd. cbn [turn_queue].
  destruct (queuePending_frame it q3) as (_ & _ & _ & _ & _ & _ & _ & _ & _ & _ & _ & ->).
  by destruct Hf as (_ & _ & _ & _ & _ & _ & -> & _).
Qed.

(** ** Concrete queues *)

Definition mk_item (n : nat) (bid : string) (p : Z) : item :=
  mkItem n "cycle_1" bid "" p false false false false false false None "" (VObj [("fields", VObj [])])
    "" false 0 0 0 0 VUndef VUndef 0 "" false.

Definition demo_env (t : Z) : env := mkEnv t (1 # 2) None None None None None false "" None VNull.

(** A queue with the given pending items and room for [c] uploads. *)
Definition demo_queue (c : Z) (l : list item) : queue :=
  q0 true win0 |> conf_upd (set_concurrency c) |> conf_upd (set_c_session "cycle_1") |> set_pending l.

Definition soft_items : list item :=
  [mk_item 1 "R1" 10; mk_item 2 "R2" 10; mk_item 3 "R3" 10; mk_item 4 "R4" 10; mk_item 5 "R5" 10;
   mk_item 6 "R6" 10; mk_item 7 "R7" 10].

Lemma pump_loop_terminates_witness :
  pump_loop 10 (demo_env 1000) 3 (demo_queue 3 soft_items) =
    pump_loop 7 (demo_env 1000) 3 (demo_queue 3 soft_items) /\
  loop_end (demo_env 1000) 3 (pump_loop 10 (demo_env 1000) 3 (demo_queue 3 soft_items)).
Proof. apply (pump_loop_terminates (demo_env 1000) 3 (demo_queue 3 soft_items) 10). simpl. lia. Defined.

Lemma pump_bounds_witness :
  let q' := pump (demo_env 1000) (demo_queue 3 soft_items) in
  inflight_ok q' /\ heavyInflight q' <= heavyMaxInflight q' /\
  0 <= n_effects q' - n_effects (demo_queue 3 soft_items) <=
    Z.max 0 (effectiveUploadCap (demo_queue 3 soft_items) - inflight (demo_queue 3 soft_items)) /\
  inflight q' <= Z.max (inflight (demo_queue 3 soft_items)) (effectiveUploadCap (demo_queue 3 soft_items)).
Proof.
  apply (pump_bounds (demo_env 1000) (demo_queue 3 soft_items));
    unfold inflight_ok; vm_compute; repeat split; discriminate.
Defined.

(** A halted queue with one must-land item. *)
Definition halted_queue : queue :=
  demo_queue 3 [mk_item 1 "R1" 99; mk_item 2 "B10x_silicon_ulp" 10]
  |> set_haltState (Some (mkHalt "x" "cycle_1" "cool" 0 "cool" 200 true)).

Definition halted_item : item := Eval vm_compute in
  match effects (pump (demo_env 1000) halted_queue) with EPost it _ _ :: _ => it | _ => mk_item 0 "" 0 end.

Lemma halted_pump :
  effects (pump (demo_env 1000) halted_queue) = [EPost halted_item true "cycle_1|B10x_silicon_ulp|main"].
Proof. vm_compute. reflexivity. Qed.

Lemma pump_respects_halt_witness :
  force_after_halt halted_item = true \/ allow_during_stop halted_item = true \/
  isB10xBatch (batch_id halted_item) = true \/ isSecondaryInfraBatch (batch_id halted_item) = true.
Proof.
  apply (pump_respects_halt (demo_env 1000) halted_queue halted_item true "cycle_1|B10x_silicon_ulp|main");
    [reflexivity|rewrite halted_pump; left|intros Hin; inversion Hin].
Defined.

Definition deferred_queue : queue :=
  demo_queue 3 [set_retry_after_ms 5000 (mk_item 1 "B2_hardware" 50); mk_item 2 "R1" 10; mk_item 3 "R2" 10].

(** Two ready items wait behind a deferred one. *)
Lemma deferred_sorted :
  sort_desc (effectivePriority (clamp_inflight (effectiveUploadCap deferred_queue) deferred_queue))
    (pending deferred_queue) =
  [set_retry_after_ms 5000 (mk_item 1 "B2_hardware" 50); mk_item 2 "R1" 10; mk_item 3 "R2" 10].
Proof. vm_compute. reflexivity. Qed.

Lemma deferred_head_blocks_witness :
  effects (pump (demo_env 1000) deferred_queue) = [] /\ length (pending deferred_queue) = 3%nat.
Proof.
  split; [|reflexivity].
  apply (deferred_head_blocks (demo_env 1000) deferred_queue _ _ eq_refl deferred_sorted); reflexivity.
Defined.
