(* ===== verification/QueueOutcome.v ===== *)
(** * Upload queue: continuations of an upload ([probe/fe/upload_queue.js], [startUpload])

    [on_success] and [on_fail] are the two handlers [startUpload] attaches to
    [postOne]; [scheduleRetry], its timer and the seal-race timer re-enter the
    queue.  Each runs to completion before the next event. *)

From Stdlib Require Import QArith Qround.
From S2P Require Import Prelude JsVal Window Lifecycle Sha256 Registry Terminal QueueState Freeze QueuePump.
#[local] Open Scope Z_scope.

(** The fields of the rejection the handlers read; texts empty when absent. *)
Record uerr := mkErr {
  e_status : Z; e_code : string; e_message : string; e_terminal : bool; e_silent : bool;
  e_network : bool; e_seal_required : bool; e_seal_failed : bool; e_timeout_abort : bool;
  e_cf_challenge : bool; e_seal_wasm_dead : bool
}.

(** ** Shared steps *)

(** [inflightCtrls.splice(indexOf(ctrl), 1)] *)
Fixpoint remove_first (b : string) (l : list string) : list string :=
  match l with [] => [] | x :: l' => if x =s b then l' else x :: remove_first b l' end.

(** The response of the fetch, or its failure, drops its controller.  A beacon
    and a failed seal never reach a fetch: theirs stays in the list. *)
Definition drop_ctrl (it : item) (q : queue) : queue :=
  set_inflightCtrls (remove_first (batch_id it) (inflightCtrls q)) q.

Definition finish (it : item) (heavy : bool) (q : queue) : queue :=
  let q1 := if heavy then set_heavyInflight (Z.max 0 (heavyInflight q - 1)) q else q in
  removeInflightItem it q1.

Definition upsert (it : item) (st : string) (e : env) (q : queue) : queue :=
  set_registry (registryUpsertFromItem (c_session (cfg q)) it st (now e) (registry q)) q.

(** ** Success *)

(** [global.__GR_RECEIVED_BATCHES__.push(...)] *)
Definition push_received (it : item) (q : queue) : queue :=
  let l := match gget "__GR_RECEIVED_BATCHES__" (win q) with VArr l => l | _ => [] end in
  set_var "__GR_RECEIVED_BATCHES__"
    (VArr (l ++ [VObj [("batch_id", VStr (batch_id it)); ("source", VStr (src_of it))]])) q.

Definition ramp (q : queue) : queue :=
  if negb (ramped q) && negb (ramp_after_first (cfg q) =? 0) then
    let rampT := Z.min (zor (concurrency_max (cfg q)) 6) (zor (ramp_after_first (cfg q)) 4) in
    let q1 := set_ramped true q in
    if concurrency (cfg q) <? rampT then conf_upd (set_concurrency rampT) q1 else q1
  else q.

(** The acknowledgement branch: only a verified one marks the key sent. *)
Definition settle_ack (e : env) (it : item) (k : string) (resp : val) (q : queue) : queue :=
  let '(reg, ac, r) := applyAck (c_session (cfg q)) it resp (now e) (registry q, acks q) in
  let q1 := q |> set_registry reg |> set_acks ac in
  if a_type r =s "conflict" then
    report "upload_ack_conflict"
      [("batch_id", VStr (batch_id it));
       ("generation", match material_generation it with Some g => vint g | None => VUndef end);
       ("payload_hash", VStr (payload_hash it))] "warn" q1
  else if a_verified r then
    q1 |> set_sentKeys (<[k +:+ "|ts" := SentAt (now e)]> (<[k := SentTrue]> (sentKeys q1)))
       |> noteOutcome e (if truthy resp && is_false (prop resp "sealed") then KPlainOk else KSealedOk)
            (batch_id it) (Some it)
       |> upsert it "acked" e
  else upsert it "transport_ok_unverified" e q1.

Definition settle_terminal (e : env) (it : item) (resp : val) (q : queue) : queue :=
  match parseTerminal (batches_ok (outc q)) 200 resp with
  | Terminal code _ _ _ =>
    applyHalt e (to_string (jor code (VStr "probe_complete"))) (sessionOf q it) (to_string code) q
  | NotTerminal => maybeLocalIdentityDone e q
  end.

Definition on_success (e : env) (it : item) (heavy : bool) (k : string) (resp : val) (q : queue) : queue :=
  let q1 := finish it heavy q in
  if is_some (haltState q1) then pump e q1 else
  let q2 := count add_sent q1 in
  let q3 := if isHardAnchorBatch q2 (batch_id it) then count add_hardFlushed q2 else q2 in
  q3 |> settle_ack e it k resp |> aimdOnSuccess |> ramp |> settle_terminal e it resp
     |> push_received it |> emit (EDispatch "gr-upload-ok") |> pump e.

(** ** Failure *)

Definition fail_kind (x : uerr) : option outcome_kind :=
  if e_seal_required x || (e_status x =? 426) then Some KSealedReject else
  if e_network x then Some KNetwork else if e_silent x then None else Some KOther.

Definition retriable_fail (q : queue) (bid : string) (x : uerr) : bool :=
  e_network x || e_cf_challenge x ||
  ((e_code x =s "seal_failed") || (e_code x =s "sealed_required") || e_seal_failed x || e_seal_required x) ||
  e_timeout_abort x || (e_status x =? 426) ||
  (((e_status x =? 403) || (e_status x =? 503) || (e_status x =? 429)) &&
   (isHardAnchorBatch q bid || isDeepenBatch q bid)).

Definition resend_list : list string :=
  ["B27_storage_privacy"; "B65_client_hints_full"; "B18_webgpu"; "B46_audio_deep";
   "B55_webrtc_ice_deep"; "B2_hardware"; "B3_system"; "B0_bootstrap"; "B1_conflict";
   "B11_interaction"; "B12_anti_camouflage"; "B7_sandbox"].

Definition clear_sent_on_fail (bid k : string) (x : uerr) (q : queue) : queue :=
  if retriable_fail q bid x &&
     (e_seal_failed x || e_seal_required x || (e_status x =? 426) || isHardAnchorBatch q bid ||
      isDeepenBatch q bid || mem_str bid resend_list)
  then set_sentKeys (delete k (sentKeys q)) q else q.

Definition is_seal_race (x : uerr) : bool :=
  (e_code x =s "seal_failed") || (e_code x =s "sealed_required") || e_seal_failed x ||
  e_seal_required x || (e_status x =? 426) ||
  test_words ["seal_grant"; "seal_timeout"; "seal_module"] (e_message x).

Definition wasm_dead (q : queue) (x : uerr) : bool :=
  e_seal_wasm_dead x || gtrue "__GR_SEAL_WASM_DEAD__" (win q) ||
  test_words ["seal_wasm_unsupported"; "wasm_not_binary"; "seal_wasm_required"] (e_message x).

(** The seal-race branch.  [sealCircuitTrip] and [sealCircuitOpen] are local to
    [postOne]: naming them here raises a ReferenceError that the surrounding
    [try] swallows, so the circuit breaker has no effect. *)
Definition seal_race (e : env) (it : item) (k : string) (x : uerr) (q : queue) : queue * item :=
  let waits := seal_waits it + 1 in
  let it1 := set_seal_waits waits it in
  let q1 := if wasm_dead q x && (2 <=? waits) then q
            else if 0 <? attempts_of q k then set_attempt k (Z.max 0 (attempts_of q k - 1)) q else q in
  let fixSid := sor (to_string_or_empty (gget "__GR_SESSION_ID__" (win q1)))
                  (sor (e_seal_session e) (c_session (cfg q1))) in
  let it2 := if starts_with "cycle_" fixSid then set_i_session fixSid it1 else it1 in
  (emit (ERefreshSeal (sessionOf q1 it2)) q1, it2).

(** Attempt cap and count after the seal-race and 413 adjustments. *)
Definition attempt_budget (it : item) (k : string) (x : uerr) (race : bool) (q : queue)
    : queue * Z * Z :=
  let cap0 := maxAttemptsForItem q it in
  let n0 := zor (attempts_of q k) 1 in
  let cap := if race then
      Z.max cap0 (if isHardAnchorBatch q (batch_id it) || isB10xBatch (batch_id it) then 14 else 10)
    else cap0 in
  let '(q1, n1) := if race && (seal_waits it <? 16) && (cap <=? n0)
                   then (set_attempt k (cap - 1) q, cap - 1) else (q, n0) in
  if (e_status x =? 413) && negb race
  then (set_attempt k (Z.max (attempts_of q1 k) cap) q1, cap, cap) else (q1, cap, n1).

Definition record_fail (id why : string) (e : env) (q : queue) : queue :=
  if has_lifecycle q then set_lc (fst (Lifecycle.recordFail id why (now e) (lc q))) q else q.

Definition bump_priority (it : item) : item :=
  if 70 <=? priority it then set_priority (Z.min 100 (zor (priority it) 70 + 1)) it else it.

Definition retry_delay (e : env) (it : item) (attempt : Z) (q : queue) : Z :=
  let d := backoffMsForItem q it attempt (rnd e) in
  if negb (isCommercialLandFast (batch_id it)) && isHeavyBatch q (batch_id it)
  then Z.max d (4000 + Z.min 20000 (zor attempt 1 * 3000)) else d.

Definition scheduleRetry (e : env) (it : item) (attempt : Z) (q : queue) : queue :=
  let d := retry_delay e it attempt q in
  let '(it1, q1) := freezeCapture e it q in
  q1 |> count add_transportRetry
     |> emit (ERetryTimer (set_transport_attempts (transport_attempts it1 + 1) it1) d).

(** The report of an exhausted batch: class, severity and the deduplication
    window of 30 seconds kept in [__GR_EXHAUST_REPORT__]. *)
Definition exhaust_code (q : queue) (bid : string) (too_large : bool) : string :=
  let commercial := isCommercialHardForOps q bid in
  if too_large then "upload_body_too_large" else
  if commercial then "upload_hard_exhausted" else
  if isDeepenBatch q bid || (isHeavyBatch q bid && negb commercial) then "upload_deepen_exhausted"
  else "upload_soft_exhausted".

Definition exhaust_severity (q : queue) (bid : string) (too_large : bool) : string :=
  let commercial := isCommercialHardForOps q bid in
  if negb commercial && b10_ok q then "warn" else
  if too_large || commercial then "error" else "warn".

Definition api_host (q : queue) : string :=
  let ab := sor (c_apiBase (cfg q)) (to_string (jor (gget "__GR_API_BASE__" (win q)) (VStr "/g5"))) in
  if starts_with "http" ab then join "/" (take 3 (split_on "/" ab)) else ab.

Definition exhaust_detail (e : env) (q : queue) (bid : string) (n : Z) (x : uerr) (over : bool)
    : list (string * val) :=
  let commercial := isCommercialHardForOps q bid in
  let deepenish := isDeepenBatch q bid || (isHeavyBatch q bid && negb commercial) in
  let nc := prop (gget "__GR_NET_CLASS_LAST__" (win q)) bid in
  [("batch_id", VStr bid); ("attempts", vint n); ("http_status", vint (e_status x));
   ("over_budget", VBool over); ("commercial_hard", VBool commercial); ("deepen", VBool deepenish);
   ("b10_already_ok", VBool (b10_ok q)); ("api_base", VStr (api_host q)); ("online", e_online e);
   ("net_class", jor (prop nc "net_class") VUndef); ("transport", jor (prop nc "transport") VUndef);
   ("fail_class_hint", VStr (if commercial then "hard_exhaust" else
                             if deepenish then "deepen_exhaust" else "soft_exhaust"));
   ("impact_band_hint", VStr (if commercial then "commercial_critical" else "deepen_optional"))].

Definition exhaust_table (q : queue) : list (string * val) :=
  members_of (jor (gget "__GR_EXHAUST_REPORT__" (win q)) empty_obj).

Definition exhausted (e : env) (it : item) (n : Z) (x : uerr) (too_large : bool) (q : queue) : queue :=
  let q1 := count add_failed q in
  if negb (has_lifecycle q1) then q1 else
  let bid := batch_id it in
  let '(l, fr) := Lifecycle.recordFail bid "attempts_exhausted" (now e) (lc q1) in
  let q2 := set_lc l q1 in
  let key := "ex:" +:+ bid in
  let q3 := set_var "__GR_EXHAUST_REPORT__" (VObj (exhaust_table q2)) q2 in
  let last := to_num (jor (assoc key (exhaust_table q2)) (vint 0)) in
  let due := match last with Fin t => Qltb (inject_Z 30000) (inject_Z (now e) - t) | _ => false end in
  if due && gtrue "GROps" (win q3) then
    q3 |> set_var "__GR_EXHAUST_REPORT__" (VObj (set_prop key (vint (now e)) (exhaust_table q3)))
       |> report (exhaust_code q3 bid too_large)
            (exhaust_detail e q3 bid n x (Lifecycle.overBudget fr)) (exhaust_severity q3 bid too_large)
  else q3.

(** The retry decision, after the error has been classified. *)
Definition retry_or_exhaust (e : env) (it : item) (k : string) (x : uerr) (q : queue) : queue :=
  let race := is_seal_race x in
  let '(q1, it1) := if race then seal_race e it k x q else (q, it) in
  let '(q2, cap, n) := attempt_budget it1 k x race q1 in
  if (n <? cap) || (race && (seal_waits it1 <? 16)) then
    let q3 := if isHardAnchorBatch q2 (batch_id it1) && negb race then count add_hardRetries q2 else q2 in
    let it2 := bump_priority it1 in
    let q4 := if race then q3 else
      record_fail (batch_id it2)
        (sor (e_code x) (if e_timeout_abort x then "upload_timeout_abort" else sor (e_message x) "upload_fail"))
        e q3 in
    if race then
      let d := Z.min 4000 (300 + seal_waits it2 * 400) in
      let it3 := set_retry_after_ms (now e + d) it2 in
      q4 |> (fun q => fst (queuePending it3 q)) |> emit (EPumpTimer (Some it3) (d + 20)) |> pump e
    else q4 |> scheduleRetry e it2 n |> pump e
  else q2 |> exhausted e it1 n x ((e_status x =? 413) && negb race) |> pump e.

Definition on_fail (e : env) (it : item) (heavy : bool) (k : string) (x : uerr) (q : queue) : queue :=
  let q1 := finish it heavy q in
  let q2 := match fail_kind x with Some kd => noteOutcome e kd (batch_id it) None q1 | None => q1 end in
  let q3 := if e_silent x then q2 else aimdOnFail q2 in
  let q4 := upsert it "retry_wait" e q3 in
  if e_terminal x then
    let c := sor (e_code x) "session_expired" in
    let q5 := applyHalt e c (sessionOf q4 it) c q4 in
    if e_silent x then count (add_haltedDrops 1) q5
    else q5 |> count add_failed |> emit (EDispatch "gr-upload-terminal")
  else if uploadsBlocked q4 it || is_some (haltState q4) then count (add_haltedDrops 1) q4 else
  let q5 := if e_silent x then q4 else emit (EDispatch "gr-upload-fail") q4 in
  let q6 := clear_sent_on_fail (batch_id it) k x q5 in
  retry_or_exhaust e it k x q6.

(** ** Timers *)

(** The [scheduleRetry] timer fires. *)
Definition retry_fire (e : env) (it : item) (q : queue) : queue :=
  if is_some (haltState q) && negb (allowDespiteHalt it) then q else
  if uploadsBlocked q it then q else
  let '(q1, ok) := allow_enqueue (batch_id it) (now e) q in
  if negb ok then q1 else q1 |> (fun q => fst (queuePending it q)) |> pump e.

(** The seal-race timer (and [applyHalt]'s) fires: the item object, if it is
    still pending, loses an elapsed deferral. *)
Definition pump_fire (e : env) (it : option item) (q : queue) : queue :=
  let clear c := match it with
    | Some i => if Nat.eqb (uid c) (uid i) && negb (retry_after_ms c =? 0) && (retry_after_ms c <=? now e)
                then set_retry_after_ms 0 c else c
    | None => c
    end in
  pump e (set_pending (map clear (pending q)) q).

(** ** What the handlers leave alone

    [OpStable]: a relation that [pump], the completion bookkeeping and the other
    updates of the handlers respect.  Every [PumpStable] relation is one; so is
    preservation of an invariant of the counters, which the single updates
    inside [pump] break and [pump] as a whole keeps. *)

Class OpStable (R : queue -> queue -> Prop) : Prop := {
  os_preorder :: PreOrder R;
  os_pump e q : R q (pump e q);
  os_finish it heavy q : R q (finish it heavy q);
  os_pending v q : R q (set_pending v q);
  os_cnt v q : R q (set_cnt v q);
  os_registry v q : R q (set_registry v q);
  os_attempts v q : R q (set_attempts v q);
  os_ctrls v q : R q (set_inflightCtrls v q);
  os_allow id t q : R q (fst (allow_enqueue id t q));
  os_freeze e it q : R q (snd (freezeCapture e it q))
}.

#[export] Instance pump_op_stable R : PumpStable R -> OpStable R.
Proof.
  intros H. split; try apply H.
  - intros e q. apply (pump_stable R).
  - intros it heavy q. unfold finish. cbv zeta.
    etrans; [|etrans; [apply ps_items|apply ps_inflight]].
    destruct heavy; [apply ps_heavy|done].
Qed.

Section OpStable.
Context (R : queue -> queue -> Prop) `{!OpStable R}.

Lemma os_count f q : R q (count f q).
Proof. apply os_cnt. Qed.

Lemma os_queue it q : R q (fst (queuePending it q)).
Proof.
  unfold queuePending. destruct (batch_id it =s ""); [done|].
  destruct (coalesce _ it (pending q)) as [r s].
  set (q1 := match r with Some l => set_pending l q | None => q end).
  assert (R q q1) as H by (subst q1; destruct r; [apply os_pending|done]).
  destruct s; simpl; [exact H| |]; (etrans; [exact H|apply os_count]).
Qed.
End OpStable.

(** The window variables the upload handlers write. *)
Definition written_vars : list string :=
  ["__GR_STOP_PROBE__"; "__GR_SKIP_IDENTITY__"; "__GR_HALT_UPLOADS__"; "__GR_PHASE__";
   "__GR_UPLOAD_HALT__"; "__GR_CYCLE_CLOSED__"; "__GR_EXHAUST_REPORT__";
   "__GR_IDENTITY_UPLOADS_DONE__"; "__GR_UPLOAD_QUEUE_IDLE__"; "__GR_RECEIVED_BATCHES__"].

(** Effects other than a retry timer and an upload. *)
Definition is_plain (x : effect) : bool :=
  match x with ERetryTimer _ _ | EPost _ _ _ => false | _ => true end.

(** The updates of a halt and of the local completion signals. *)
Class HaltStable (R : queue -> queue -> Prop) : Prop := {
  hs_op :: OpStable R;
  hs_cfg v q : R q (set_cfg v q);
  hs_halt h q : R q (set_haltState (Some h) q);
  hs_reported v q : R q (set_outcomeReported v q);
  hs_ramped v q : R q (set_ramped v q);
  hs_var k v q : mem_str k written_vars = true -> R q (set_var k v q);
  hs_report c d s q : R q (report c d s q);
  hs_emit x q : is_plain x = true -> R q (emit x q)
}.

(** The updates of the failure handler. *)
Class FailStable (R : queue -> queue -> Prop) : Prop := {
  fs_halt :: HaltStable R;
  fs_bump kd q : R q (set_outc (bump kd (outc q)) q);
  fs_sent v q : R q (set_sentKeys v q);
  fs_record id why t q : R q (set_lc (fst (Lifecycle.recordFail id why t (lc q))) q)
}.

(** A relation that also allows arming a retry timer. *)
Class RetryStable (R : queue -> queue -> Prop) : Prop := {
  rs_fail :: FailStable R;
  rs_retry it d q : R q (emit (ERetryTimer it d) q)
}.

Section HaltStable.
Context (R : queue -> queue -> Prop) `{!HaltStable R}.

Lemma reportSummary_stable f q : R q (reportSessionUploadSummary f q).
Proof.
  unfold reportSessionUploadSummary. destruct (_ && negb f); [done|].
  destruct (negb _); [done|]. etrans; [apply (hs_reported true)|apply hs_report].
Qed.

Lemma set_vars_stable l q :
  forallb (fun kv => mem_str (fst kv) written_vars) l = true -> R q (set_vars l q).
Proof.
  revert q. induction l as [|[k v] l IH]; intros q Hl; simpl in *; [done|]. breflect.
  etrans; [by apply (hs_var k v)|]. by apply IH.
Qed.

Lemma applyHalt_stable e reason sid code q : R q (applyHalt e reason sid code q).
Proof.
  unfold applyHalt. cbv zeta.
  etrans; [apply (reportSummary_stable true)|]. set (q1 := reportSessionUploadSummary true q).
  etrans; [apply (hs_halt (make_halt e reason sid code q))|].
  set (qh := set_haltState _ q1). set (q2 := set_vars _ qh).
  assert (R qh q2) as H2 by (apply set_vars_stable; reflexivity).
  etrans; [exact H2|]. clearbody q2. etrans; [|by apply hs_emit]. etrans; [|apply os_ctrls].
  etrans; [|by apply hs_emit].
  assert (R q2 (stamp_cool e (sor code (sor reason "halt")) q2)) as H3.
  { unfold stamp_cool. repeat case_match; try done; by apply hs_emit. }
  etrans; [exact H3|]. set (q3 := stamp_cool _ _ q2).
  assert (R q3 (drop_halted q3)) as H4.
  { unfold drop_halted. cbv zeta. etrans; [|apply os_pending]. apply (os_count R). }
  etrans; [exact H4|]. unfold halt_concurrency.
  destruct (pending (drop_halted q3)); [apply hs_cfg|]. etrans; [|by apply hs_emit]. apply hs_cfg.
Qed.

Lemma maybeLocal_stable e q : R q (maybeLocalIdentityDone e q).
Proof.
  unfold maybeLocalIdentityDone. cbv zeta.
  set (q1 := if (5 <=? _) && _ then _ else q).
  assert (R q q1) as H1.
  { subst q1. case_match; [|done]. etrans; [|by apply hs_emit]. by apply hs_var. }
  etrans; [exact H1|]. clearbody q1. case_match; [|done].
  etrans; [|by apply hs_emit]. by apply hs_var.
Qed.

Lemma aimdOnSuccess_stable q : R q (aimdOnSuccess q).
Proof.
  unfold aimdOnSuccess. cbv zeta. destruct (_ && _); [destruct (_ <? _)|]; try apply os_cnt.
  etrans; [apply os_cnt|apply hs_cfg].
Qed.

Lemma aimdOnFail_stable q : R q (aimdOnFail q).
Proof.
  unfold aimdOnFail. cbv zeta. destruct (_ <? _); [|apply os_cnt].
  etrans; [apply os_cnt|apply hs_cfg].
Qed.

Lemma ramp_stable q : R q (ramp q).
Proof.
  unfold ramp. destruct (_ && _); [|done]. cbv zeta. etrans; [apply (hs_ramped true)|].
  destruct (_ <? _); [apply hs_cfg|done].
Qed.

Lemma upsert_stable it st e q : R q (upsert it st e q).
Proof. apply os_registry. Qed.

Lemma settle_terminal_stable e it resp q : R q (settle_terminal e it resp q).
Proof. unfold settle_terminal. case_match; [apply maybeLocal_stable|apply applyHalt_stable]. Qed.

Lemma push_received_stable it q : R q (push_received it q).
Proof. by apply hs_var. Qed.

(** Everything after the acknowledgement. *)
Lemma success_tail_stable e it resp q :
  R q (q |> aimdOnSuccess |> ramp |> settle_terminal e it resp
         |> push_received it |> emit (EDispatch "gr-upload-ok") |> pump e).
Proof.
  etrans; [apply aimdOnSuccess_stable|]. etrans; [apply ramp_stable|].
  etrans; [apply (settle_terminal_stable e it resp)|]. etrans; [apply (push_received_stable it)|].
  etrans; [by apply (hs_emit (EDispatch "gr-upload-ok"))|]. apply os_pump.
Qed.

End HaltStable.

Section FailStable.
Context (R : queue -> queue -> Prop) `{!FailStable R}.

Lemma noteOutcome_stable e x bid q :
  R q (match fail_kind x with Some kd => noteOutcome e kd bid None q | None => q end).
Proof.
  unfold fail_kind. destruct (_ || _); [apply (fs_bump KSealedReject)|].
  destruct (e_network x); [apply (fs_bump KNetwork)|].
  destruct (e_silent x); [done|apply (fs_bump KOther)].
Qed.

Lemma exhausted_stable e it n x b q : R q (exhausted e it n x b q).
Proof.
  unfold exhausted. cbv zeta. etrans; [apply (os_count R add_failed)|]. set (q1 := count _ q).
  destruct (negb _); [done|].
  pose proof (fs_record (R := R) (batch_id it) "attempts_exhausted" (now e) q1) as H.
  destruct (Lifecycle.recordFail _ _ _ _) as [l fr]. simpl in H. etrans; [exact H|].
  set (q2 := set_lc l q1). etrans; [by apply (hs_var "__GR_EXHAUST_REPORT__" (VObj (exhaust_table q2)))|].
  destruct (_ && _); [|done]. etrans; [|apply hs_report]. by apply hs_var.
Qed.

Lemma seal_race_stable e it k x q : R q (fst (seal_race e it k x q)).
Proof.
  unfold seal_race. cbv zeta. simpl. etrans; [|by apply hs_emit].
  destruct (_ && _); [done|]. destruct (_ <? _); [apply os_attempts|done].
Qed.

Lemma attempt_budget_stable it k x race q : R q (fst (fst (attempt_budget it k x race q))).
Proof.
  unfold attempt_budget. cbv zeta.
  set (cap := if race then _ else _).
  destruct (race && _ && (cap <=? _)); simpl; destruct (_ && negb race); simpl;
    try done; try apply os_attempts; etrans; apply os_attempts.
Qed.

End FailStable.

Section RetryStable.
Context (R : queue -> queue -> Prop) `{!RetryStable R}.

Lemma scheduleRetry_stable e it n q : R q (scheduleRetry e it n q).
Proof.
  unfold scheduleRetry. cbv zeta. pose proof (os_freeze (R := R) e it q) as H.
  destruct (freezeCapture e it q) as [it1 q1]. etrans; [exact H|].
  etrans; [|apply rs_retry]. apply (os_count R).
Qed.
Lemma retry_or_exhaust_stable e it k x q : R q (retry_or_exhaust e it k x q).
Proof.
  unfold retry_or_exhaust. cbv zeta.
  set (p := if is_seal_race x then _ else _).
  assert (R q (fst p)) as H1.
  { subst p. destruct (is_seal_race x); [apply (seal_race_stable R)|done]. }
  destruct p as [q1 it1]. simpl in H1. etrans; [exact H1|].
  pose proof (attempt_budget_stable R it1 k x (is_seal_race x) q1) as H2.
  destruct (attempt_budget it1 k x (is_seal_race x) q1) as [[q2 cap] n]. simpl in H2.
  etrans; [exact H2|].
  destruct ((n <? cap) || _).
  - set (q3 := if isHardAnchorBatch q2 _ && _ then _ else q2).
    assert (R q2 q3) as H3 by (subst q3; destruct (_ && _); [apply (os_count R)|done]).
    etrans; [exact H3|]. destruct (is_seal_race x).
    + etrans; [|apply os_pump]. etrans; [|by apply hs_emit].
      apply (os_queue R).
    + etrans; [|apply os_pump]. etrans; [|apply scheduleRetry_stable].
      unfold record_fail. destruct (has_lifecycle q3); [apply fs_record|done].
  - etrans; [|apply os_pump]. apply (exhausted_stable R).
Qed.

Lemma on_fail_stable e it heavy k x q : R q (on_fail e it heavy k x q).
Proof.
  unfold on_fail. cbv zeta. etrans; [apply (os_finish it heavy)|]. set (q1 := finish it heavy q).
  set (q2 := match fail_kind x with Some _ => _ | None => q1 end).
  assert (R q1 q2) as H2 by apply (noteOutcome_stable R).
  etrans; [exact H2|]. set (q3 := if e_silent x then q2 else aimdOnFail q2).
  assert (R q2 q3) as H3 by (subst q3; destruct (e_silent x); [done|apply (aimdOnFail_stable R)]).
  etrans; [exact H3|]. etrans; [apply (upsert_stable R it "retry_wait" e)|].
  set (q4 := upsert it "retry_wait" e q3). clearbody q4.
  destruct (e_terminal x).
  - etrans; [apply (applyHalt_stable R)|]. destruct (e_silent x); [apply (os_count R)|].
    etrans; [|by apply hs_emit]. apply (os_count R).
  - destruct (_ || _); [apply (os_count R)|].
    etrans; [|apply retry_or_exhaust_stable]. unfold clear_sent_on_fail.
    set (q5 := if e_silent x then q4 else _).
    assert (R q4 q5) as H5 by (subst q5; destruct (e_silent x); [done|by apply hs_emit]).
    etrans; [exact H5|]. destruct (_ && _); [apply fs_sent|done].
Qed.
End RetryStable.

(** ** Instances *)

Lemma gget_set_var k k' v q : k <> k' -> gget k (win (set_var k' v q)) = gget k (win q).
Proof. intros H. unfold set_var, win, set_win. simpl. rewrite gget_gset_ne; [done|congruence]. Qed.

Lemma mem_str_neq k k' l : mem_str k l = false -> mem_str k' l = true -> k <> k'.
Proof. intros H H' ->. congruence. Qed.

Lemma keeps_var_halt k :
  k <> "__GR_FE_IMPL_VERSION__" -> mem_str k written_vars = false -> HaltStable (keeps_var k).
Proof.
  intros Hk Hw. pose proof (keeps_var_stable k Hk). split; try done; try apply _; intros.
  - apply gget_set_var. by apply (mem_str_neq _ _ _ Hw).
  - unfold keeps_var, keeps, report, set_win, win. simpl. apply gget_ops_report.
Qed.

Lemma recordFail_var k id why t s :
  k <> "__GR_LAST_FAIL_BUDGET_MS__" ->
  gget k (Lifecycle.win (fst (Lifecycle.recordFail id why t s))) = gget k (Lifecycle.win s).
Proof.
  intros Hk. unfold Lifecycle.recordFail. cbn [fst].
  assert (forall s, gget k (Lifecycle.win (Lifecycle.budget_step id why t s)) = gget k (Lifecycle.win s)) as H1.
  { intros s1. unfold Lifecycle.budget_step. destruct (Lifecycle.over_budget s1).
    - unfold Lifecycle.report_fail_budget. cbv zeta. case_match; [|done].
      simpl. rewrite gget_ops_report, gget_gset_ne; [done|congruence].
    - by destruct (Lifecycle.soft_reason why). }
  assert (forall s, gget k (Lifecycle.win (Lifecycle.deepen_exhaust_step id why t s)) = gget k (Lifecycle.win s)) as H2.
  { intros s1. unfold Lifecycle.deepen_exhaust_step. by case_match. }
  assert (forall s, gget k (Lifecycle.win (Lifecycle.rpa_exhaust_step id why t s)) = gget k (Lifecycle.win s)) as H3.
  { intros s1. unfold Lifecycle.rpa_exhaust_step, Lifecycle.report_rpa_quiet. case_match; [|done].
    simpl. by rewrite gget_ops_report. }
  rewrite H1, H2, H3. unfold Lifecycle.push_fail. by case_match.
Qed.

Lemma keeps_var_fail k :
  k <> "__GR_FE_IMPL_VERSION__" -> k <> "__GR_LAST_FAIL_BUDGET_MS__" ->
  mem_str k written_vars = false -> RetryStable (keeps_var k).
Proof.
  intros Hk Hk2 Hw. pose proof (keeps_var_halt k Hk Hw). split; [|done].
  split; try done; try apply _; intros. by apply recordFail_var.
Qed.

#[export] Instance keeps_outc_halt : HaltStable (keeps outc).
Proof. by split; [apply _|..]. Qed.
(** The landed set is written only by the success handler. *)
#[export] Instance keeps_landed_fail : RetryStable (keeps (fun q => batches_ok (outc q))).
Proof.
  split; [|done]. split; try done. split; try done. apply pump_op_stable. split; try done; try apply _.
  - intros id t q. unfold keeps, allow_enqueue.
    destruct (has_lifecycle q); [by destruct (Lifecycle.allowEnqueue _ _ _)|done].
  - intros e it q. unfold keeps, freezeCapture, freeze_item.
    destruct (capture_frozen it); [done|]; by destruct (complete_fields _ _ _).
Qed.
#[export] Instance keeps_forceUsed_fail : RetryStable (keeps forceRecollectUsed).
Proof. split; [|done]. split; try done. by split; [apply _|..]. Qed.

(** ** Theorems *)

(** The seal circuit breaker never trips: no upload failure, seal race or not, changes
    [__GR_SEAL_CIRCUIT__], however often the seal fails. *)
Theorem seal_circuit_never_trips e it heavy k x q :
  gget "__GR_SEAL_CIRCUIT__" (win (on_fail e it heavy k x q)) = gget "__GR_SEAL_CIRCUIT__" (win q).
Proof.
  assert (RetryStable (keeps_var "__GR_SEAL_CIRCUIT__")) by by apply keeps_var_fail.
  apply (on_fail_stable (keeps_var "__GR_SEAL_CIRCUIT__")).
Qed.

Lemma noteOutcome_ok e kd bid it q :
  batches_ok (outc (noteOutcome e kd bid it q)) =
  match kd with
  | KSealedOk | KPlainOk =>
    if (bid =s "") || match it with Some i => isStartHeartbeatItem i | None => false end
    then batches_ok (outc q) else {[bid]} ∪ batches_ok (outc q)
  | _ => batches_ok (outc q)
  end.
Proof.
  assert (forall q', outc (boostPendingB10x e q') = outc q') as Hb.
  { intros q'. unfold boostPendingB10x. cbv zeta. by rewrite (pump_stable (keeps outc)). }
  unfold noteOutcome. cbv zeta.
  destruct kd; try done; (destruct (bid =s ""); [done|]);
    (destruct (match it with Some i => isStartHeartbeatItem i | None => false end); [done|]);
    simpl; case_match; rewrite ?Hb; done.
Qed.

Lemma settle_ack_ok e it k resp q :
  batches_ok (outc (settle_ack e it k resp q)) =
  if a_verified (applyAck (c_session (cfg q)) it resp (now e) (registry q, acks q)).2 &&
     negb (batch_id it =s "") && negb (isStartHeartbeatItem it)
  then {[batch_id it]} ∪ batches_ok (outc q) else batches_ok (outc q).
Proof.
  unfold settle_ack. pose proof (applyAck_type_ok (c_session (cfg q)) it resp (now e) (registry q, acks q)) as Ht.
  destruct (applyAck _ _ _ _ _) as [[reg ac] r]. simpl in Ht. cbn [snd].
  destruct (a_type r =s "conflict") eqn:Ec.
  { apply String.eqb_eq in Ec. rewrite Ec in Ht. by rewrite <- Ht. }
  destruct (a_verified r); simpl; [|done].
  rewrite noteOutcome_ok. destruct (truthy resp && _); simpl;
    destruct (batch_id it =s ""), (isStartHeartbeatItem it); done.
Qed.

(** C18: A batch counts as landed only through a verified acknowledgement of a final
    payload: the success handler adds exactly the uploaded batch to the landed set, and
    only when the queue is not halted, [applyAck] verified the response and the payload is
    not a start heartbeat; failures of any kind never add a batch. *)
Theorem landed_only_if_verified e it heavy k resp x q :
  batches_ok (outc (on_fail e it heavy k x q)) = batches_ok (outc q) /\
  batches_ok (outc (on_success e it heavy k resp q)) =
    (if negb (is_some (haltState q)) &&
        a_verified (applyAck (c_session (cfg q)) it resp (now e) (registry q, acks q)).2 &&
        negb (batch_id it =s "") && negb (isStartHeartbeatItem it)
     then {[batch_id it]} ∪ batches_ok (outc q) else batches_ok (outc q)).
Proof.
  split; [apply (on_fail_stable (keeps (fun q => batches_ok (outc q))))|].
  unfold on_success. cbv zeta.
  pose proof (os_finish (R := keeps outc) it heavy q : outc _ = outc q) as Ho.
  assert (haltState (finish it heavy q) = haltState q /\ cfg (finish it heavy q) = cfg q /\
    registry (finish it heavy q) = registry q /\ acks (finish it heavy q) = acks q) as (Hh & Hc & Hr & Ha)
    by (unfold finish; by destruct heavy).
  set (q1 := finish it heavy q) in *. clearbody q1. rewrite Hh.
  destruct (is_some (haltState q)); cbn [negb andb].
  { by rewrite (pump_stable (keeps outc) e q1), Ho. }
  set (q3 := if isHardAnchorBatch _ _ then _ else _).
  assert (outc q3 = outc q /\ cfg q3 = cfg q /\ registry q3 = registry q /\ acks q3 = acks q)
    as (Ho3 & Hc3 & Hr3 & Ha3) by (subst q3; destruct (isHardAnchorBatch _ _); simpl; by rewrite Ho, Hc, Hr, Ha).
  rewrite <- Hc3, <- Hr3, <- Ha3, <- Ho3. clearbody q3. rewrite <- settle_ack_ok with (k := k).
  by rewrite (success_tail_stable (keeps outc) e it resp (settle_ack e it k resp q3)).
Qed.

(** ** Halting *)

Lemma reportSummary_frame f q :
  let q' := reportSessionUploadSummary f q in
  pending q' = pending q /\ cfg q' = cfg q /\ cnt q' = cnt q /\ inflightItems q' = inflightItems q.
Proof. unfold reportSessionUploadSummary. destruct (_ && negb f); [done|]. by destruct (negb _). Qed.

Lemma set_vars_frame l q :
  let q' := set_vars l q in
  pending q' = pending q /\ cfg q' = cfg q /\ cnt q' = cnt q /\ haltState q' = haltState q /\
  inflightItems q' = inflightItems q.
Proof.
  revert q. induction l as [|[k v] l IH]; intros q; simpl; [done|].
  destruct (IH (set_var k v q)) as (-> & -> & -> & -> & ->). done.
Qed.

Lemma stamp_cool_frame e c q :
  let q' := stamp_cool e c q in
  pending q' = pending q /\ cfg q' = cfg q /\ cnt q' = cnt q /\ haltState q' = haltState q /\
  inflightItems q' = inflightItems q.
Proof. unfold stamp_cool. by repeat case_match. Qed.

(** The controllers are kept, and more is said. *)
Definition says (q q' : queue) : Prop :=
  inflightCtrls q' = inflightCtrls q /\ exists l, effects q' = l ++ effects q.

Instance says_preorder : PreOrder says.
Proof.
  split; [intros q; split; [done|by exists []]|]. intros a b c [H1 [l Hl]] [H2 [l' Hl']].
  split; [congruence|]. exists (l' ++ l). by rewrite Hl', Hl, app_assoc.
Qed.

Lemma says_emit x q : says q (emit x q).
Proof. split; [done|by exists [x]]. Qed.

Lemma says_quiet q q' : inflightCtrls q' = inflightCtrls q -> effects q' = effects q -> says q q'.
Proof. intros Hc He. split; [done|by exists []]. Qed.

Lemma reportSummary_says f q : says q (reportSessionUploadSummary f q).
Proof. unfold reportSessionUploadSummary. destruct (_ && negb f); [done|]. destruct (negb _); [done|]. by apply says_quiet. Qed.

Lemma set_vars_says l q : says q (set_vars l q).
Proof. revert q. induction l as [|[k v] l IH]; intros q; [done|]. etrans; [|apply IH]. by apply says_quiet. Qed.

Lemma stamp_cool_says e c q : says q (stamp_cool e c q).
Proof. unfold stamp_cool. repeat case_match; try done; apply says_emit. Qed.

(** A halt first records itself and its flags, then drops, throttles and aborts. *)
Lemma applyHalt_tail e reason sid code q :
  exists q3,
    applyHalt e reason sid code q =
      (let q4 := halt_concurrency (drop_halted q3) in
       q4 |> emit (EAbort (inflightCtrls q4)) |> set_inflightCtrls []
          |> emit (EDispatch "gr-cycle-closed")) /\
    pending q3 = pending q /\ cnt q3 = cnt q /\ haltState q3 = Some (make_halt e reason sid code q) /\ says q q3.
Proof.
  unfold applyHalt. cbv zeta. eexists. split; [reflexivity|].
  set (q1 := reportSessionUploadSummary true q).
  assert (says q q1) as H1 by apply reportSummary_says.
  set (q2 := set_vars _ _). assert (says q1 q2) as H2 by apply (set_vars_says _ (set_haltState _ q1)).
  assert (says q (stamp_cool e (sor code (sor reason "halt")) q2)) as Hs by (etrans; [exact H1|]; etrans; [exact H2|apply stamp_cool_says]).
  subst q2. revert Hs.
  repeat match goal with
  | |- context [stamp_cool ?e ?c ?q] => destruct (stamp_cool_frame e c q) as (-> & _ & -> & -> & _)
  | |- context [set_vars ?l ?q] => destruct (set_vars_frame l q) as (-> & _ & -> & -> & _)
  end.
  subst q1. destruct (reportSummary_frame true q) as (Hp & _ & Hn & _). simpl. by rewrite Hp, Hn.
Qed.

(** C29: A halt records its reason and code, keeps exactly the pending must-land items and
    counts the others, aborts every request in flight, and from then on blocks every item
    that is not must-land; landed batches are not forgotten, and the status it reports is
    410 exactly for codes that are not soft terminal.  The abort of every registered request is
    what the halt does last but for the announcement, and it forgets them. *)
Theorem applyHalt_spec e reason sid code q :
  let q' := applyHalt e reason sid code q in
  haltState q' = Some (make_halt e reason sid code q) /\
  (h_status (make_halt e reason sid code q) = 410 <->
     soft_terminal (sor code (sor reason "halt")) = false) /\
  pending q' = List.filter allowDespiteHalt (pending q) /\
  haltedDrops (cnt q') - haltedDrops (cnt q) =
    Z.of_nat (length (pending q)) - Z.of_nat (length (pending q')) /\
  inflightCtrls q' = [] /\
  (exists l, effects q' = EDispatch "gr-cycle-closed" :: EAbort (inflightCtrls q) :: l ++ effects q) /\
  batches_ok (outc q') = batches_ok (outc q) /\
  forall it, uploadsBlocked q' it = negb (allowDespiteHalt it).
Proof.
  cbn zeta. pose proof (applyHalt_stable (keeps outc) e reason sid code q : outc _ = outc q) as Ho.
  rewrite Ho.
  assert (haltState (applyHalt e reason sid code q) = Some (make_halt e reason sid code q) /\
    pending (applyHalt e reason sid code q) = List.filter allowDespiteHalt (pending q) /\
    haltedDrops (cnt (applyHalt e reason sid code q)) = haltedDrops (cnt q) +
      (Z.of_nat (length (pending q)) - Z.of_nat (length (List.filter allowDespiteHalt (pending q)))) /\
    inflightCtrls (applyHalt e reason sid code q) = [] /\
    exists l, effects (applyHalt e reason sid code q) =
      EDispatch "gr-cycle-closed" :: EAbort (inflightCtrls q) :: l ++ effects q) as (Hh & Hp & Hd & Hi & He).
  { destruct (applyHalt_tail e reason sid code q) as (q3 & -> & Hp3 & Hn3 & Hh3 & Hc3 & l & Hl3).
    unfold halt_concurrency, drop_halted. rewrite Hp3.
    set (keep := List.filter allowDespiteHalt (pending q)).
    cbv zeta. cbn [pending set_pending]. destruct keep as [|i keep'];
      cbn -[Z.of_nat length make_halt]; rewrite Hn3, Hh3, Hc3, Hl3; (split; [done|]); (split; [done|]);
      (split; [done|]); (split; [done|]); [by exists l|by exists (EPumpTimer None 0 :: l)]. }
  rewrite Hh, Hp, Hd, Hi. repeat split; try lia; try done.
  - unfold make_halt. cbn [h_status]. by destruct (soft_terminal _).
  - unfold make_halt. cbn [h_status]. by intros ->.
  - intros it. unfold uploadsBlocked. rewrite Hh. simpl. by destruct (allowDespiteHalt it).
Qed.

(** ** Attempts *)

Definition no_new_retry (q q' : queue) : Prop :=
  forall it d, ERetryTimer it d ∈ effects q' -> ERetryTimer it d ∈ effects q.

#[export] Instance no_new_retry_fail : FailStable no_new_retry.
Proof.
  assert (PreOrder no_new_retry) by (split; unfold no_new_retry; [by intros q|]; intros a b c H1 H2 it d H; auto).
  split; try (unfold no_new_retry; by intros).
  split; try (unfold no_new_retry; by intros).
  - apply pump_op_stable. split; try (unfold no_new_retry; by intros); try done.
    + intros it h k q it' d [?|?]%elem_of_cons; done.
    + intros it h k q it' d [?|?]%elem_of_cons; done.
    + intros id t q it d. pose proof (allow_enqueue_frame id t q) as Hf.
      destruct (allow_enqueue id t q). destruct Hf as (_ & _ & _ & _ & _ & _ & Hf & _). simpl. by rewrite Hf.
    + intros e it q it' d. pose proof (freezeCapture_frame e it q) as Hf.
      destruct (freezeCapture e it q). destruct Hf as (_ & _ & _ & _ & _ & _ & _ & Hf & _). simpl. by rewrite Hf.
  - intros x q Hx it d [Heq|?]%elem_of_cons; [|done]. by subst x.
Qed.

(** Retries are bounded: outside a seal race, a batch whose attempts have reached its
    cap, or whose body the server called too large (413), is never scheduled again; it is
    counted as failed. *)
Theorem attempts_capped e it k x q :
  is_seal_race x = false ->
  (1 <= attempts_of q k /\ maxAttemptsForItem q it <= attempts_of q k) \/ e_status x = 413 ->
  let q' := retry_or_exhaust e it k x q in
  (forall it' d, ERetryTimer it' d ∈ effects q' -> ERetryTimer it' d ∈ effects q) /\
  exists n q1, q' = pump e (exhausted e it n x (e_status x =? 413) q1) /\ maxAttemptsForItem q it <= n.
Proof.
  intros Hr Hc. cbn zeta. unfold retry_or_exhaust. rewrite Hr. cbn [andb orb negb].
  pose proof (attempt_budget_stable no_new_retry it k x false q) as H2.
  assert (exists n, (attempt_budget it k x false q).1.2 <= (attempt_budget it k x false q).2 /\
    (attempt_budget it k x false q).1.2 = maxAttemptsForItem q it /\
    n = (attempt_budget it k x false q).2) as (n & Hle & Hcap & Hn).
  { exists (attempt_budget it k x false q).2. unfold attempt_budget. cbv zeta. cbn [andb negb]. rewrite andb_true_r.
    destruct (Z.eqb_spec (e_status x) 413) as [|Hne]; cbn [fst snd].
    - split; [apply Z.le_refl|by split].
    - split; [|by split]. destruct Hc as [[H1 Hm]|]; [|done].
      unfold zor. destruct (Z.eqb_spec (attempts_of q k) 0); lia. }
  destruct (attempt_budget it k x false q) as [[q2 cap] n']. cbn [fst snd] in *. subst n' cap.
  destruct (n <? maxAttemptsForItem q it) eqn:E; breflect; [lia|]. cbn [orb]. rewrite andb_true_r. split.
  - intros it' d Hin. apply H2. apply (exhausted_stable no_new_retry e it n x (e_status x =? 413)).
    by apply (os_pump (R := no_new_retry) e).
  - by exists n, q2.
Qed.

(** ** A concrete run *)

Definition net_err : uerr :=
  mkErr 0 "upload_network" "Failed to fetch" false false true false false false false false.

Definition resp_ok : val := VObj [("ok", VBool true); ("ack", VObj [("type", VStr "stored")])].

(** Seven soft packs, six uploads allowed at once. *)
Definition run1 : queue := pump (demo_env 1000) (set_ramped true (demo_queue 6 soft_items)).
(** The first upload fails: the budget is halved to three while five still run. *)
Definition run2 : queue :=
  on_fail (demo_env 2000) (mk_item 1 "R1" 10) false "cycle_1|R1|main" net_err run1.
(** The second succeeds. *)
Definition run3 : queue :=
  on_success (demo_env 3000) (mk_item 2 "R2" 10) false "cycle_1|R2|main" resp_ok run2.

(** After the budget shrinks, [pump] forgets uploads that are still running: it lowers
    the counter to the budget without removing items, so the next completion makes room
    for a new upload although more uploads than the budget are already running (here five
    run at a budget of three, one completes, and a sixth is started). *)
Theorem cap_overshoot :
  length (inflightItems run1) = 6%nat /\ effectiveUploadCap run1 = 6 /\
  length (inflightItems run2) = 5%nat /\ inflight run2 = 3 /\ effectiveUploadCap run2 = 3 /\
  effectiveUploadCap run3 = 3 /\ length (inflightItems run3) = 5%nat /\
  n_effects (pump (demo_env 3000) (finish (mk_item 2 "R2" 10) false run2)) = n_effects run2 + 1.
Proof. vm_compute. repeat split; reflexivity. Qed.

Lemma attempts_capped_witness :
  let q := set_attempt "cycle_1|R1|main" 9 run1 in
  let q' := retry_or_exhaust (demo_env 2000) (mk_item 1 "R1" 10) "cycle_1|R1|main" net_err q in
  (forall it' d, ERetryTimer it' d ∈ effects q' -> ERetryTimer it' d ∈ effects q) /\
  exists n q1, q' = pump (demo_env 2000) (exhausted (demo_env 2000) (mk_item 1 "R1" 10) n net_err
                      (e_status net_err =? 413) q1) /\
    maxAttemptsForItem q (mk_item 1 "R1" 10) <= n.
Proof.
  intros q q'.
  apply (attempts_capped (demo_env 2000) (mk_item 1 "R1" 10) "cycle_1|R1|main" net_err q);
    [reflexivity|left; vm_compute; split; discriminate].
Defined.
