(* ===== verification/QueueApi.v ===== *)
(** * Upload queue: the public interface ([probe/fe/upload_queue.js], [api])

    Every method of [GRUploadQueue] that changes state, and the snapshots the
    other modules read. *)

From Stdlib Require Import QArith Qround.
From S2P Require Import Prelude JsVal Window Lifecycle Sha256 Registry Terminal QueueState Freeze QueuePump QueueOutcome.
#[local] Open Scope Z_scope.

(** ** [configure] and session reset *)

(** The options given to [configure]: a value for each key of [cfg], [None]
    when it is [undefined]. *)
Record options := mkOptions {
  o_concurrency : option Z;
  o_concurrency_max : option Z;
  o_concurrency_floor : option Z;
  o_ramp_after_first : option Z;
  o_mid_ramp : option Z;
  o_apiBase : option string;
  o_session : option string;
  o_max_alive : option Z;
  o_max_hide : option Z;
  o_hard_anchors : option (list string);
  o_hard_boost : option Z;
  o_b10x_boost : option Z
}.

(** [if (o[k] !== undefined) cfg[k] = o[k]], for every key. *)
Definition assign (o : options) (c : conf) : conf :=
  mkConf (default (concurrency c) (o_concurrency o))
    (default (concurrency_max c) (o_concurrency_max o))
    (default (concurrency_floor c) (o_concurrency_floor o))
    (default (ramp_after_first c) (o_ramp_after_first o))
    (default (mid_ramp_concurrency c) (o_mid_ramp o))
    (default (c_apiBase c) (o_apiBase o))
    (default (c_session c) (o_session o))
    (default (max_attempts_alive c) (o_max_alive o))
    (default (max_attempts_hide c) (o_max_hide o))
    (default (hard_anchor_batches c) (o_hard_anchors o))
    (default (hard_anchor_priority_boost c) (o_hard_boost o))
    (default (b10x_post_b10_boost c) (o_b10x_boost o)).

(** [configure({session_id: s})] *)
Definition session_opts (s : string) : options :=
  mkOptions None None None None None None (Some s) None None None None None.

Definition resetSessionState (reason : string) (q : queue) : queue :=
  q |> set_registry ∅ |> set_outc out0 |> set_forceUsed ∅ |> set_sentKeys ∅ |> set_attempts ∅
    |> set_outcomeReported false |> set_var "__GR_RECEIVED_BATCHES__" (VArr [])
    |> set_pending (List.filter (fun it => i_session it =s c_session (cfg q)) (pending q))
    |> report "queue_session_reset" [("reason", VStr (sor reason "session_change"))] "info".

(** The session named by the options differs from the configured one. *)
Definition new_session (o : options) (q : queue) : option string :=
  match o_session o with
  | Some s => if (s <>s "") && (s <>s c_session (cfg q)) then Some s else None
  | None => None
  end.

Definition configure (fp : bool) (h : hints) (o : options) (q : queue) : queue :=
  let q1 := conf_upd (assign o) q in
  let q2 := match new_session o q with
    | Some s =>
      let q1' := match haltState q1 with
        | Some hs => if h_session hs <>s s
                     then q1 |> set_haltState None |> set_var "__GR_UPLOAD_HALT__" VNull else q1
        | None => q1
        end in
      resetSessionState "configure_session_id" q1'
    | None => q1
    end in
  applyFirstPartyPerfHints fp h q2.

(** ** Sent keys and recollection *)

(** An element of the lists given to [seedSentKeys] and [clearSentKeys]. *)
Inductive key_or_item := AKey (k : string) | AnItem (it : item).

Definition seedSentKeys (l : list key_or_item) (q : queue) : queue :=
  fold_left (fun q x =>
    match x with
    | AKey k => set_sentKeys (<[k := SentTrue]> (sentKeys q)) q
    | AnItem it => if batch_id it =s "" then q
                   else set_sentKeys (<[keyOf q it := SentTrue]> (sentKeys q)) q
    end) l q.

Definition unmark (b : string) (o : outcomes) : outcomes :=
  mkOut (sealed_ok o) (sealed_reject o) (plain_ok o) (network_n o) (other_fail o)
    (batches_ok o ∖ {[b]}) (batches_started o ∖ {[b]}).

Definition clear_one (x : key_or_item) (q : queue) : queue :=
  match x with
  | AKey k => set_sentKeys (delete k (sentKeys q)) q
  | AnItem it =>
    let b := batch_id it in
    if b =s "" then q else
    if batchAlreadyOk q b && bool_decide (b ∈ forceRecollectUsed q) then q else
    let q1 := if batchAlreadyOk q b then set_forceUsed ({[b]} ∪ forceRecollectUsed q) q else q in
    q1 |> set_sentKeys (delete (keyOf q1 it) (sentKeys q1)) |> set_outc (unmark b (outc q1))
  end.

Definition clearSentKeys (l : list key_or_item) (q : queue) : queue :=
  fold_left (fun q x => clear_one x q) l q.

Definition allowForceRecollect (b : string) (q : queue) : queue * bool :=
  if b =s "" then (q, false) else
  if negb (batchAlreadyOk q b) then (q, true) else
  if bool_decide (b ∈ forceRecollectUsed q) then (q, false) else
  (set_forceUsed ({[b]} ∪ forceRecollectUsed q) q, true).

(** ** [enqueue]

    The gates run in order on the queue and the item; each passes both on or
    stops with a queue. *)

Inductive gate := Go (q : queue) (it : item) | Stop (q : queue).

Definition gbind (g : gate) (f : queue -> item -> gate) : gate :=
  match g with Go q it => f q it | Stop q => Stop q end.
Notation "g >>> f" := (gbind g f) (at level 50, left associativity) : js_scope.

Definition wants_recollect (it : item) : bool := recollect it || reset_attempts it.

(** A new material generation on an explicit recollection. *)
Definition renew (it : item) : item :=
  if wants_recollect it then
    it |> set_capture_frozen false
       |> set_material_generation (Some (zor (default 0 (material_generation it)) 1 + 1))
       |> set_capture_id ""
  else it.

Definition gate_ok (q : queue) (it : item) : gate :=
  if batchAlreadyOk q (batch_id it) && negb (wants_recollect it)
  then Stop (q |> count add_shortCircuit |> count add_skipped) else Go q it.

Definition gate_pagehide (q : queue) (it : item) : gate :=
  if (hiding q || isPageUnloading q) && negb (isPagehideAllowlisted q (batch_id it)) &&
     negb (wants_recollect it)
  then Stop (q |> count (add_pagehideDropped 1) |> count add_skipped) else Go q it.

Definition mark_force (q : queue) (it : item) : gate :=
  let open_ := negb (batchAlreadyOk q (batch_id it)) || wants_recollect it in
  if (isB10xBatch (batch_id it) || isSecondaryInfraBatch (batch_id it)) && open_
  then Go q (it |> set_force true |> set_force_after_halt true |> set_allow_during_stop true)
  else Go q it.

Definition report_cap (e : env) (id k : string) (rearm : Z) (q : queue) : queue :=
  if negb (gtrue "GROps" (win q)) then q else
  let key := "excap:" +:+ id in
  let q1 := set_var "__GR_EXHAUST_REPORT__" (VObj (exhaust_table q)) q in
  let last := to_num (jor (assoc key (exhaust_table q)) (vint 0)) in
  let due := match last with Fin t => Qltb (inject_Z 60000) (inject_Z (now e) - t) | _ => false end in
  if due then
    q1 |> set_var "__GR_EXHAUST_REPORT__" (VObj (set_prop key (vint (now e)) (exhaust_table q1)))
       |> report "upload_hard_exhausted"
            [("batch_id", VStr id); ("attempts", vint (attempts_of q1 k));
             ("reason", VStr "enqueue_cap"); ("rearm_ms", vint rearm)] "warn"
  else q1.

Definition gate_attempts (e : env) (q : queue) (it : item) : gate :=
  let id := batch_id it in
  let k := keyOf q it in
  let cap0 := maxAttemptsForItem q it in
  let cap := if isB10xBatch id || isHardAnchorBatch q id then Z.max cap0 16 else cap0 in
  let '(q1, it1) := if reset_attempts it
    then (set_attempts (delete k (attempts q)) q, set_seal_waits 0 it) else (q, it) in
  let '(q2, it2) := if (cap <=? attempts_of q1 k) && e_seal_valid e
    then (set_attempt k (Z.max 0 (cap - 4)) q1, set_seal_waits 0 it1) else (q1, it1) in
  let cap' := if isSecondaryInfraBatch id then Z.max cap 16 else cap in
  if (cap' <=? attempts_of q2 k) && negb (reset_attempts it) then
    if isB10xBatch id || isHardAnchorBatch q2 id || isSecondaryInfraBatch id then
      let rearm := if isHardAnchorBatch q2 id && negb (isB10xBatch id) then 6000 else 8000 in
      if rearm <? now e - cap_block_ms it2 then
        let it3 := it2 |> set_cap_block_ms (now e) |> set_seal_waits 0 in
        let q3 := set_attempt k (Z.max 0 (cap' - 5)) q2 in
        Go (emit (ERefreshSeal (sessionOf q3 it3)) q3) it3
      else Stop (q2 |> count add_skipped |> report_cap e id k rearm)
    else Stop (count add_skipped q2)
  else Go q2 it2.

Definition gate_halt (q : queue) (it : item) : gate :=
  if (uploadsBlocked q it || gtrue "__GR_STOP_PROBE__" (win q) || halt_flags q) &&
     negb (allowDespiteHalt it)
  then Stop (q |> count (add_haltedDrops 1) |> count add_skipped) else Go q it.

Definition gate_lifecycle (e : env) (q : queue) (it : item) : gate :=
  let '(q1, ok) := allow_enqueue (batch_id it) (now e) q in
  if negb ok && negb (isHardAnchorBatch q1 (batch_id it)) then Stop (count add_skipped q1) else Go q1 it.

Definition gate_sent (q : queue) (it : item) : gate :=
  let k := keyOf q it in
  let again := wants_recollect it in
  let ok := batchAlreadyOk q (batch_id it) in
  if ok && negb again then Stop (q |> count add_shortCircuit |> count add_skipped) else
  if is_sent q k && negb (force it) && negb again && ok then Stop (count add_skipped q) else
  if is_sent q k && negb (force it) && negb again && negb (isStartHeartbeatItem it) then
    if negb (bool_decide (batch_id it ∈ batches_started (outc q))) || ok
    then Stop (count add_skipped q) else Go q (set_force true it)
  else Go q it.

Definition sent_at (q : queue) (k : string) : Z :=
  match sentKeys q !! (k +:+ "|ts") with Some (SentAt t) => t | _ => 0 end.

Definition gate_rpa (e : env) (q : queue) (it : item) : gate :=
  let k := keyOf q it in
  let rpa := isRpaBatch q (batch_id it) in
  if rpa && (hiding q || isPageUnloading q)
  then Stop (q |> count (add_pagehideDropped 1) |> count add_skipped) else
  if rpa && is_sent q k && negb (pagehide_flush it) && negb (wants_recollect it) &&
     (now e - sent_at q k <? 30000)
  then Stop (count add_skipped q) else Go q it.

Definition enqueue_gates (e : env) (q : queue) (it : item) : gate :=
  Go q (renew it) >>> gate_ok >>> gate_pagehide >>> mark_force >>> gate_attempts e >>> gate_halt
    >>> gate_lifecycle e >>> gate_sent >>> gate_rpa e.

Definition enqueue (e : env) (it : item) (q : queue) : queue :=
  if batch_id it =s "" then q else
  match enqueue_gates e q it with
  | Stop q' => q'
  | Go q' it' =>
    let '(it2, q2) := if truthy (payload it') then freezeCapture e it' q' else (it', q') in
    q2 |> (fun q => fst (queuePending it2 q)) |> pump e
  end.

(** ** Session changes and halts *)

Definition drop_session_keys (from : string) (m : gmap string sentval) : gmap string sentval :=
  filter (fun kv => starts_with (from +:+ "|") kv.1 = false) m.

Definition clear_halt (e : env) (from : string) (q : queue) : queue :=
  match haltState q with
  | Some h =>
    if h_session h =s from then
      q |> set_haltState None
        |> set_vars [("__GR_HALT_UPLOADS__", VBool false); ("__GR_STOP_PROBE__", VBool false);
                     ("__GR_SKIP_IDENTITY__", VBool false); ("__GR_CYCLE_CLOSED__", VNull);
                     ("__GR_UPLOAD_HALT__", VNull); ("__GR_PHASE__", VStr "active")]
        |> conf_upd (fun c => if concurrency c <? 1 then set_concurrency 3 c else c)
        |> (fun q => match e_cool_until e with Some _ => emit (ESetCool 0 VUndef) q | None => q end)
        |> pump e
    else q
  | None => q
  end.

Definition rewriteSessionId (e : env) (from to : string) (q : queue) : queue * Z :=
  if (from =s "") || (to =s "") || (from =s to) then (q, 0) else
  let hit it := (sor (i_session it) (c_session (cfg q)) =s from) || (i_session it =s "") in
  let n := Z.of_nat (length (List.filter hit (pending q))) in
  let q1 := q |> set_pending (map (fun it => if hit it then set_i_session to it else it) (pending q))
              |> conf_upd (set_c_session to)
              |> set_sentKeys (drop_session_keys from (sentKeys q)) in
  (q1 |> clear_halt e from |> pump e, n).

(** [adoptFromGlobals] of the seal module runs first. *)
Definition kick (e : env) (q : queue) : queue :=
  q |> emit EAdoptSeal |> set_pending (map (set_retry_after_ms 0) (pending q)) |> pump e.

Definition halt_ (e : env) (reason sid code : string) (q : queue) : queue :=
  applyHalt e (sor reason "halt") sid code q.

Definition isHalted (sid : string) (q : queue) : bool :=
  match haltState q with
  | None => false
  | Some h => if sid =s "" then true else (h_session h =s "") || (h_session h =s sid)
  end.

Definition resume (sid : string) (q : queue) : queue * option halt :=
  let same := match haltState q with Some h => (sid <>s "") && (h_session h =s sid) | None => false end in
  if same then (q, haltState q) else
  (q |> set_haltState None
     |> (fun q => if concurrency (cfg q) <? 1
                  then q |> conf_upd (set_concurrency 3) |> set_ramped false else q)
     |> set_vars [("__GR_UPLOAD_HALT__", VNull); ("__GR_CYCLE_CLOSED__", VNull);
                  ("__GR_HALT_UPLOADS__", VBool false)], None).

Definition softRamp (e : env) (n : Z) (q : queue) : queue :=
  let maxC := zor (concurrency_max (cfg q)) 6 in
  let target := Z.min maxC (zor n (zor (mid_ramp_concurrency (cfg q)) 4)) in
  pump e (if negb (ramped q) && (concurrency (cfg q) <? target)
          then conf_upd (set_concurrency target) q else q).

(** ** Server corrections *)

Definition primary_ok (q : queue) : bool :=
  batchAlreadyOk q "B10_hw_curves" || batchAlreadyOk q "mid.curves".

Definition refuse_halt (c body : val) (q : queue) : bool :=
  let hard it := isHardAnchorBatch q (batch_id it) in
  let hardPending := existsb hard (pending q) || existsb hard (inflightItems q) in
  let reason := to_string (jor (prop c "reason") (jor (prop body "business_state") (VStr ""))) in
  negb (primary_ok q) &&
  (hardPending || contains "identity_complete" reason || contains "cycle_status=complete" reason).

Definition correct_one (e : env) (sid : string) (body c0 : val) (st : queue * list string)
    : queue * list string :=
  let '(q, applied) := st in
  let c := jor c0 empty_obj in
  let act := prop c "action" in
  let push s := applied ++ [s] in
  if is_str act "fe_halt_uploads" || truthy (prop body "fe_should_halt") then
    if refuse_halt c body q then (q, push "fe_halt_uploads_refused_missing_b10") else
    (applyHalt e (to_string (jor (prop c "reason") (VStr "reconcile_halt"))) sid
       (to_string (jor (prop c "reason") (VStr "reconcile"))) q, push "fe_halt_uploads")
  else if is_str act "fe_resume_if_same_active_cycle" || is_str act "fe_clear_false_cool" ||
          truthy (prop body "fe_should_resume") then
    (q |> set_haltState None
       |> set_vars [("__GR_UPLOAD_HALT__", VNull); ("__GR_CYCLE_CLOSED__", VNull);
                    ("__GR_STOP_PROBE__", VBool false); ("__GR_SKIP_IDENTITY__", VBool false);
                    ("__GR_PHASE__", VStr "active")],
     push (to_string (jor act (VStr "fe_resume"))))
  else if is_str act "fe_mark_local_done_only" then
    (maybeLocalIdentityDone e q, push "fe_mark_local_done_only")
  else if is_str act "rebind_session_id" then (q, push "rebind_session_id")
  else if is_str act "be_completed_cycle" || is_str act "be_complete_cycle" then
    (applyHalt e "be_complete" sid "cycle_complete" q, push (to_string act))
  else (q, applied).

Definition applyCorrections (e : env) (body : val) (q : queue) : queue * list string :=
  if negb (truthy body) then (q, []) else
  let sid := to_string (jor (prop body "session_id") (VStr (window_session q))) in
  let q1 := if truthy (prop body "cycle_probe_status")
            then set_var "__GR_CYCLE_PROBE_STATUS__" (prop body "cycle_probe_status") q else q in
  let q2 := if truthy (prop body "business_state")
            then set_var "__GR_BUSINESS_STATE__" (prop body "business_state") q1 else q1 in
  let '(q3, a3) := fold_left (fun st c => correct_one e sid body c st)
                     (elems (jor (prop body "corrections") (VArr []))) (q2, []) in
  let bstate := to_string (jor (prop body "business_state") (VStr "halt")) in
  let '(q4, a4) := if truthy (prop body "fe_should_halt") && negb (is_some (haltState q3))
    then (applyHalt e "reconcile_halt" sid bstate q3, a3 ++ ["fe_should_halt"]) else (q3, a3) in
  let '(q5, a5) := if truthy (prop body "aligned") && truthy (prop body "halt_uploads") &&
                      negb (is_some (haltState q4))
    then (applyHalt e "aligned_halt" sid bstate q4, a4 ++ ["aligned_halt"]) else (q4, a4) in
  (emit (EDispatch "gr-status-reconciled") q5, a5).

(** ** Page lifecycle *)

Definition is_unload_reason (r : string) : bool :=
  mem_str r ["pagehide"; "beforeunload"; "unload"; "close"].
Definition is_background_reason (r : string) : bool :=
  mem_str r ["hidden"; "background"; "visibility_hidden"].

(** Requests for batches that are not worth the unload window are aborted. *)
Definition abort_on_unload (q : queue) : queue :=
  let keep b := (b <>s "") && isPagehideAllowlisted q b in
  let kept := List.filter keep (inflightCtrls q) in
  let n := Z.of_nat (length (inflightCtrls q)) - Z.of_nat (length kept) in
  q |> count (add_softAbort n) |> emit (EAbort (List.filter (fun b => negb (keep b)) (inflightCtrls q))) |> set_inflightCtrls kept.

Definition drop_on_unload (q : queue) : queue :=
  let keep it := isPagehideAllowlisted q (batch_id it) && negb (batchAlreadyOk q (batch_id it)) in
  let kept := List.filter keep (pending q) in
  q |> count (add_pagehideDropped (Z.of_nat (length (pending q)) - Z.of_nat (length kept)))
    |> set_pending kept.

Definition enter_unload (q : queue) : queue :=
  q |> set_hiding true
    |> set_vars [("__GR_PAGE_HIDING__", VBool true); ("__GR_PAGE_UNLOADING__", VBool true)]
    |> abort_on_unload |> drop_on_unload
    |> conf_upd (fun c => set_concurrency
         (Z.max (zor (concurrency c) 3) (Z.min (zor (concurrency_max c) 6) 6)) c).

Definition enter_background (q : queue) : queue :=
  q |> set_hiding false
    |> set_vars [("__GR_PAGE_BACKGROUNDED__", VBool true); ("__GR_PAGE_HIDING__", VBool false)]
    |> conf_upd (fun c => set_concurrency (Z.min (zor (concurrency c) 3) 2) c).

Definition boost_hard (q : queue) : queue :=
  set_pending (map (fun it =>
    let hard := isHardAnchorBatch q (batch_id it) in
    if hard || isDeepenBatch q (batch_id it) then
      it |> set_priority (priority it + if hard then zor (hard_anchor_priority_boost (cfg q)) 1000 else 200)
         |> set_hard_anchor_flush hard
    else it) (pending q)) q.

Definition flush (e : env) (reason : string) (q : queue) : queue :=
  let q1 := set_flushReason (Some (sor reason "flush")) q in
  let q2 := if is_unload_reason reason then enter_unload q1
            else if is_background_reason reason then enter_background q1 else q1 in
  q2 |> boost_hard |> pump e.

Definition markVisible (e : env) (fp : bool) (h : hints) (q : queue) : queue :=
  let q1 := q |> set_hiding false |> set_var "__GR_PAGE_BACKGROUNDED__" (VBool false) in
  let q2 := if gtrue "__GR_PAGE_UNLOADING__" (win q1) then q1
            else set_var "__GR_PAGE_HIDING__" (VBool false) q1 in
  let q3 := applyFirstPartyPerfHints fp h q2 in
  let mid := zor (mid_ramp_concurrency (cfg q3)) 8 in
  pump e (if negb (ramped q3) && (concurrency (cfg q3) <? mid)
          then conf_upd (set_concurrency (Z.max (concurrency (cfg q3)) mid)) q3 else q3).

Definition markHiding (q : queue) : queue :=
  if negb (isPageUnloading q)
  then q |> set_hiding false |> set_var "__GR_PAGE_BACKGROUNDED__" (VBool true)
  else set_hiding true q.

(** ** Queries and nudges *)

Definition alreadySent (it : item) (q : queue) : bool := is_sent q (keyOf q it).

Definition nudgeTransport (e : env) (bid sid : string) (q : queue) : queue * bool :=
  if bid =s "" then (pump e q, false) else
  let q1 := pump e (set_pending (map (fun it =>
    if same_capture bid sid it then set_retry_after_ms 0 it else it) (pending q)) q) in
  (q1, hasPendingCapture bid sid q1).

(** The distinct names of the pending batches, in order of first occurrence. *)
Fixpoint distinct (seen l : list string) : list string :=
  match l with
  | [] => []
  | x :: l' => if (x =s "") || mem_str x seen then distinct seen l' else x :: distinct (x :: seen) l'
  end.

Definition stats (q : queue) : list (string * val) :=
  let c := cnt q in
  let h f := match haltState q with Some h => VStr (f h) | None => VNull end in
  [("pending", vint (Z.of_nat (length (pending q))));
   ("pending_batches", VArr (map VStr (take 32 (distinct [] (map batch_id (pending q))))));
   ("inflight", vint (inflight q)); ("inflight_items", vint (Z.of_nat (length (inflightItems q))));
   ("concurrency", vint (concurrency (cfg q))); ("concurrency_max", vint (concurrency_max (cfg q)));
   ("effective_cap", vint (effectiveUploadCap q)); ("sent", vint (sent c)); ("failed", vint (failed c));
   ("skipped_dedupe", vint (skipped c)); ("success_short_circuit", vint (successShortCircuit c));
   ("pagehide_dropped", vint (pagehideDropped c)); ("soft_abort_on_unload", vint (softAbortOnUnload c));
   ("flush_reason", match flushReason q with Some r => VStr r | None => VNull end);
   ("hard_anchor_pending", vint (Z.of_nat (length
      (List.filter (fun it => isHardAnchorBatch q (batch_id it)) (pending q)))));
   ("hard_anchor_flushed", vint (hardFlushed c)); ("hard_anchor_retries", vint (hardRetries c));
   ("hard_anchor_priority_boost", vint (zor (hard_anchor_priority_boost (cfg q)) 1000));
   ("transport_retries", vint (transportRetryCount c)); ("capture_freezes", vint (captureFreezeCount c));
   ("ack_stored", vint (ackStored (acks q))); ("ack_duplicate", vint (ackDuplicate (acks q)));
   ("ack_merged", vint (ackMerged (acks q))); ("ack_conflict", vint (ackConflict (acks q)));
   ("aimd_ups", vint (aimdUps c)); ("aimd_downs", vint (aimdDowns c));
   ("registry_n", vint (Z.of_nat (size (registry q)))); ("hiding", VBool (hiding q));
   ("halted", VBool (is_some (haltState q))); ("halt_reason", h h_reason); ("halt_code", h h_code);
   ("halt_session_id", h h_session); ("halted_drops", vint (haltedDrops c))].

(** [(batch_id, priority, effective, hard)] of each item, best first, as if
    hiding when [hide]; the queue itself is unchanged. *)
Definition sortPreview (items : list item) (hide : bool) (q : queue) : list (string * Z * Z * bool) :=
  let q' := if hide then set_hiding true q else q in
  sort_desc (fun x => snd (fst x))
    (map (fun it => (batch_id it, priority it, effectivePriority q' it, isHardAnchorBatch q' (batch_id it))) items).

Definition probeDepthClass (q : queue) : string :=
  let has b := batchAlreadyOk q b in
  let n := Z.of_nat (size (batches_ok (outc q))) in
  if has "B8_gateway" && negb (has "B0_bootstrap") && (n <=? 2) then "gateway_only" else
  if has "B0_bootstrap" && has "B10_hw_curves" then "browser_b0_b10" else
  if has "B0_bootstrap" then "browser_partial" else
  if negb (n =? 0) then "browser_lite" else "empty".

(** The part of [completenessSnapshot] the self-heal loop decides on. *)
Record completeness := mkComplete {
  k_depth : string; k_hard_ok : list string; k_hard_missing : list string; k_ok_n : Z;
  k_pending : Z; k_inflight : Z; k_halted : bool; k_hiding : bool; k_sealed_ok : Z;
  k_network_fail : Z; k_main_complete : bool
}.

Definition completenessSnapshot (q : queue) : completeness :=
  let ok b := batchAlreadyOk q b in
  mkComplete (probeDepthClass q)
    (List.filter ok (hard_anchor_batches (cfg q)))
    (List.filter (fun b => negb (ok b)) (hard_anchor_batches (cfg q)))
    (Z.of_nat (size (batches_ok (outc q)))) (Z.of_nat (length (pending q))) (inflight q)
    (is_some (haltState q)) (hiding q) (sealed_ok (outc q)) (network_n (outc q))
    (ok "B0_bootstrap" && ok "B10_hw_curves").

Definition pumpWhileOpen (e : env) (why : string) (q : queue) : queue * completeness :=
  if is_some (haltState q) then (q, completenessSnapshot q) else
  let q1 := q |> flush e (sor why "progressive_open") |> pump e in
  (q1, completenessSnapshot q1).

(** What the queue reports to the server for reconciliation. *)
Record client_view := mkView {
  v_session : string; v_stop_probe : bool; v_skip_identity : bool; v_halted : bool; v_phase : val;
  v_local_done : bool; v_sent : list string; v_last_status : option Z; v_last_code : option string
}.

Definition clientView (q : queue) : client_view :=
  let sid := window_session q in
  let done := gget "__GR_IDENTITY_UPLOADS_DONE__" (win q) in
  mkView sid (gtrue "__GR_STOP_PROBE__" (win q)) (gtrue "__GR_SKIP_IDENTITY__" (win q))
    (is_some (haltState q)) (jor (gget "__GR_PHASE__" (win q)) VNull)
    (truthy done && is_str (prop done "session_id") sid)
    (omap (fun kv => nth_error (split_on "|" kv.1) 1) (map_to_list (sentKeys q)))
    (option_map h_status (haltState q)) (option_map h_code (haltState q)).

(** ** Lemmas: the gates *)

(** What a passed gate leaves alone. *)
Definition gate_frame (q q' : queue) : Prop :=
  pending q' = pending q /\ inflightItems q' = inflightItems q /\ inflight q' = inflight q /\
  outc q' = outc q /\ hiding q' = hiding q /\ haltState q' = haltState q /\ cfg q' = cfg q /\
  win q' = win q /\ has_lifecycle q' = has_lifecycle q.

#[export] Instance gate_frame_preorder : PreOrder gate_frame.
Proof.
  split; [by intros q|]. unfold gate_frame. intros a b c H1 H2. destruct_and!. repeat split; congruence.
Qed.

(** A gate started in [q] that, when passed, establishes [P] of the item. *)
Definition gate_sat (P : item -> Prop) (q : queue) (g : gate) : Prop :=
  match g with
  | Go q' it' => gate_frame q q' /\ P it'
  | Stop q' => pending q' = pending q /\ inflightItems q' = inflightItems q /\ inflight q' = inflight q
  end.

Lemma gbind_sat (P P' : item -> Prop) q g f :
  gate_sat P q g ->
  (forall q' it', gate_frame q q' -> P it' -> gate_sat P' q' (f q' it')) ->
  gate_sat P' q (gbind g f).
Proof.
  destruct g as [q' it'|q']; simpl; [|done]. intros [Hq HP] Hf. specialize (Hf q' it' Hq HP).
  destruct (f q' it') as [q2 it2|q2]; simpl in *.
  - destruct Hf. split; [by etrans|done].
  - destruct Hq as (? & ? & ? & _). destruct Hf as (? & ? & ?). repeat split; congruence.
Qed.

Definition same_item (it it' : item) : Prop :=
  batch_id it' = batch_id it /\ wants_recollect it' = wants_recollect it /\
  (allowDespiteHalt it = true -> allowDespiteHalt it' = true).

Lemma same_item_trans a b c : same_item a b -> same_item b c -> same_item a c.
Proof. intros (? & ? & ?) (? & ? & ?). repeat split; [congruence|congruence|auto]. Qed.

Lemma same_item_of it it' :
  batch_id it' = batch_id it -> recollect it' = recollect it -> reset_attempts it' = reset_attempts it ->
  force_after_halt it' = force_after_halt it -> allow_during_stop it' = allow_during_stop it ->
  same_item it it'.
Proof. intros H1 H2 H3 H4 H5. unfold same_item, wants_recollect, allowDespiteHalt. by rewrite H1, H2, H3, H4, H5. Qed.

Lemma renew_same it : same_item it (renew it).
Proof. unfold renew. destruct (wants_recollect it); by apply same_item_of. Qed.

Lemma gate_ok_sat q it :
  gate_sat (fun it' => it' = it /\ (batchAlreadyOk q (batch_id it) = true -> wants_recollect it = true)) q (gate_ok q it).
Proof.
  unfold gate_ok. destruct (batchAlreadyOk q (batch_id it)), (wants_recollect it); by repeat split.
Qed.

Lemma gate_pagehide_sat q it :
  gate_sat (fun it' => it' = it /\ (hiding q || isPageUnloading q = true ->
    isPagehideAllowlisted q (batch_id it) = true \/ wants_recollect it = true)) q (gate_pagehide q it).
Proof.
  unfold gate_pagehide.
  destruct (hiding q || isPageUnloading q), (isPagehideAllowlisted q (batch_id it)), (wants_recollect it);
    simpl; repeat split; auto.
Qed.

Lemma mark_force_sat q it : gate_sat (same_item it) q (mark_force q it).
Proof.
  unfold mark_force. cbv zeta. destruct (_ && _); simpl; (split; [done|]); [|by apply same_item_of].
  repeat split.
Qed.

Lemma report_cap_frame e id k r q :
  let q' := report_cap e id k r q in
  pending q' = pending q /\ inflightItems q' = inflightItems q /\ inflight q' = inflight q.
Proof. unfold report_cap. cbv zeta. destruct (negb _); [done|]. by destruct (match to_num _ with Fin _ => _ | _ => _ end). Qed.

Lemma gate_attempts_sat e q it : gate_sat (same_item it) q (gate_attempts e q it).
Proof.
  unfold gate_attempts. cbv zeta.
  set (cap := if isB10xBatch (batch_id it) || _ then _ else _).
  set (p1 := if reset_attempts it then _ else (q, it)).
  assert (gate_frame q p1.1 /\ same_item it p1.2) as [Hf1 Hs1]
    by (subst p1; destruct (reset_attempts it); (split; [done|by apply same_item_of])).
  destruct p1 as [q1 it1]. simpl in Hf1, Hs1.
  set (p2 := if (cap <=? _) && e_seal_valid e then _ else (q1, it1)).
  assert (gate_frame q p2.1 /\ same_item it p2.2) as [Hf2 Hs2].
  { subst p2. destruct (_ && e_seal_valid e); [|done]. split; [by etrans; [exact Hf1|]|].
    eapply same_item_trans; [exact Hs1|by apply same_item_of]. }
  destruct p2 as [q2 it2]. simpl in Hf2, Hs2. pose proof Hf2 as (Hp & Hit & Hi & _).
  destruct (_ && negb (reset_attempts it)); [|done].
  destruct (_ || isSecondaryInfraBatch (batch_id it)); [|done].
  destruct (_ <? now e - cap_block_ms it2).
  - split; [by etrans; [exact Hf2|]|]. eapply same_item_trans; [exact Hs2|by apply same_item_of].
  - simpl. edestruct report_cap_frame as (-> & -> & ->). done.
Qed.

Lemma gate_halt_sat q it :
  gate_sat (fun it' => it' = it /\ (is_some (haltState q) = true \/ gtrue "__GR_STOP_PROBE__" (win q) = true \/
      halt_flags q = true -> allowDespiteHalt it = true)) q (gate_halt q it).
Proof.
  unfold gate_halt, uploadsBlocked. destruct (allowDespiteHalt it); simpl.
  { rewrite andb_false_r. by repeat split. }
  destruct (is_some (haltState q)), (gtrue "__GR_STOP_PROBE__" (win q)), (halt_flags q) eqn:E; simpl;
    rewrite ?andb_true_r, ?orb_true_r; try by repeat split.
  destruct (isHaltedFor q it); simpl; [by repeat split|]. repeat split. intros [?|[?|?]]; done.
Qed.

Lemma gate_lifecycle_sat e q it : gate_sat (same_item it) q (gate_lifecycle e q it).
Proof.
  unfold gate_lifecycle. pose proof (allow_enqueue_frame (batch_id it) (now e) q) as Hf.
  assert (win (fst (allow_enqueue (batch_id it) (now e) q)) = win q) as Hw.
  { unfold allow_enqueue, win. destruct (has_lifecycle q); [|done].
    pose proof (lifecycle_allow_frame (batch_id it) (now e) (lc q)) as [_ Hw].
    by destruct (Lifecycle.allowEnqueue _ _ _). }
  destruct (allow_enqueue _ _ _) as [q1 b]. simpl in Hw. destruct_and! Hf.
  destruct (negb b && _); simpl; [done|]. split; [repeat split; congruence|by apply same_item_of].
Qed.

Lemma gate_sent_sat q it : gate_sat (same_item it) q (gate_sent q it).
Proof.
  unfold gate_sent. cbv zeta.
  repeat (case_match; [by repeat split|]); try (split; [done|by apply same_item_of]).
  case_match; [case_match|]; try (by repeat split); split; try done; by apply same_item_of.
Qed.

Lemma gate_rpa_sat e q it :
  gate_sat (fun it' => it' = it /\ (isRpaBatch q (batch_id it) = true ->
    hiding q = false /\ isPageUnloading q = false)) q (gate_rpa e q it).
Proof.
  unfold gate_rpa. cbv zeta.
  destruct (isRpaBatch q (batch_id it)), (hiding q), (isPageUnloading q); simpl;
    try (by repeat split); case_match; by repeat split.
Qed.

(** What an admitted item satisfies, in terms of the queue it was offered to. *)
Definition admissible (q : queue) (it it' : item) : Prop :=
  batch_id it' = batch_id it /\
  (batchAlreadyOk q (batch_id it) = true -> wants_recollect it = true) /\
  (hiding q || isPageUnloading q = true ->
     isPagehideAllowlisted q (batch_id it) = true \/ wants_recollect it = true) /\
  (is_some (haltState q) = true \/ gtrue "__GR_STOP_PROBE__" (win q) = true \/ halt_flags q = true ->
     allowDespiteHalt it' = true) /\
  (isRpaBatch q (batch_id it) = true -> hiding q = false /\ isPageUnloading q = false).

Lemma frame_tests q q' : gate_frame q q' ->
  (forall b, batchAlreadyOk q' b = batchAlreadyOk q b) /\ isPageUnloading q' = isPageUnloading q /\
  (forall b, isPagehideAllowlisted q' b = isPagehideAllowlisted q b) /\
  halt_flags q' = halt_flags q /\ (forall b, isRpaBatch q' b = isRpaBatch q b).
Proof.
  intros (_ & _ & _ & Ho & _ & _ & _ & Hw & Hl).
  unfold isPagehideAllowlisted, batchAlreadyOk, isPageUnloading, halt_flags, isRpaBatch.
  by rewrite Ho, Hw, Hl.
Qed.

(** The conditions the gates accumulate. *)
Definition adm_ok (q : queue) (it : item) : Prop :=
  batchAlreadyOk q (batch_id it) = true -> wants_recollect it = true.
Definition adm_page (q : queue) (it : item) : Prop :=
  hiding q || isPageUnloading q = true ->
  isPagehideAllowlisted q (batch_id it) = true \/ wants_recollect it = true.
Definition adm_halt (q : queue) (i : item) : Prop :=
  is_some (haltState q) = true \/ gtrue "__GR_STOP_PROBE__" (win q) = true \/ halt_flags q = true ->
  allowDespiteHalt i = true.

Definition P1 q it (i : item) : Prop := same_item it i /\ adm_ok q it.
Definition P2 q it (i : item) : Prop := P1 q it i /\ adm_page q it.
Definition P3 q it (i : item) : Prop := P2 q it i /\ adm_halt q i.

(** A gate that only changes the item keeps what was established. *)
Lemma same_step (P : item -> Prop) q i g :
  (forall j, same_item i j -> P i -> P j) -> P i ->
  gate_sat (same_item i) q g -> gate_sat P q g.
Proof. intros HP Hi. destruct g as [q' j|q']; simpl; [|done]. intros [Hf Hs]. split; [done|eauto]. Qed.

Lemma P2_same q it i j : same_item i j -> P2 q it i -> P2 q it j.
Proof. intros Hs [[H1 H2] H3]. repeat split; [eapply same_item_trans; eauto..|done|done]. Qed.

Lemma P3_same q it i j : same_item i j -> P3 q it i -> P3 q it j.
Proof.
  intros Hs [H2 Hh]. split; [by eapply P2_same|]. intros H. apply Hs. by apply Hh.
Qed.

Lemma enqueue_gates_sat e q it : gate_sat (admissible q it) q (enqueue_gates e q it).
Proof.
  unfold enqueue_gates.
  apply (gbind_sat (P3 q it)).
  2: { intros q' i Hq [[[(Hb & Hw & _) H1] H2] H3]. destruct (frame_tests q q' Hq) as (_ & Hu & _ & _ & Hr).
       pose proof (gate_rpa_sat e q' i) as H. destruct (gate_rpa e q' i) as [q2 i2|q2]; [|done].
       destruct H as [Hf [-> H]]. split; [done|].
       rewrite Hr, Hu, Hb in H. destruct Hq as (_ & _ & _ & _ & Hh & _). rewrite Hh in H. exact (conj Hb (conj H1 (conj H2 (conj H3 H)))). }
  apply (gbind_sat (P3 q it)).
  2: { intros q' i _ Hi. apply (same_step _ _ i); [intros; by eapply P3_same|done|apply gate_sent_sat]. }
  apply (gbind_sat (P3 q it)).
  2: { intros q' i _ Hi. apply (same_step _ _ i); [intros; by eapply P3_same|done|apply gate_lifecycle_sat]. }
  apply (gbind_sat (P2 q it)).
  2: { intros q' i Hq Hi. destruct (frame_tests q q' Hq) as (_ & _ & _ & Hf & _).
       pose proof (gate_halt_sat q' i) as H. destruct (gate_halt q' i) as [q2 i2|q2]; [|done].
       destruct H as [Hg [-> H]]. split; [done|]. split; [done|]. unfold adm_halt.
       destruct Hq as (_ & _ & _ & _ & _ & Hh & _ & Hw & _). by rewrite <- Hh, <- Hw, <- Hf. }
  apply (gbind_sat (P2 q it)).
  2: { intros q' i _ Hi. apply (same_step _ _ i); [intros; by eapply P2_same|done|apply gate_attempts_sat]. }
  apply (gbind_sat (P2 q it)).
  2: { intros q' i _ Hi. apply (same_step _ _ i); [intros; by eapply P2_same|done|apply mark_force_sat]. }
  apply (gbind_sat (P1 q it)).
  2: { intros q' i Hq [Hs Hok]. destruct (frame_tests q q' Hq) as (_ & Hu & Ha & _).
       pose proof (gate_pagehide_sat q' i) as H. destruct (gate_pagehide q' i) as [q2 i2|q2]; [|done].
       destruct H as [Hg [-> H]]. split; [done|]. split; [done|]. unfold adm_page.
       destruct Hq as (_ & _ & _ & _ & Hh & _). destruct Hs as (Hb & Hw & _).
       by rewrite <- Hh, <- Hu, <- Ha, <- Hb, <- Hw. }
  apply (gbind_sat (same_item it)); [split; [done|apply renew_same]|].
  intros q' i Hq Hs. destruct (frame_tests q q' Hq) as (Hok & _).
  pose proof (gate_ok_sat q' i) as H. destruct (gate_ok q' i) as [q2 i2|q2]; [|done].
  destruct H as [Hg [-> H]]. split; [done|]. split; [done|]. unfold adm_ok.
  destruct Hs as (Hb & Hw & _). by rewrite <- Hok, <- Hb, <- Hw.
Qed.

(** ** Theorems *)

(** C17: [enqueue] either turns the item away, leaving the pending and in-flight lists as they
    were, or queues it and pumps.  An item that does not ask for recollection is queued only
    if its batch is not already landed and, when the page is going away, is on the list of
    batches worth the unload window; an item that asks for recollection is exempt from both
    checks.  With or without recollection, only a must-land item is queued when uploads are
    halted or stopped, and no page RPA during unload. *)
Theorem enqueue_admission e it q :
  batch_id it <> "" ->
  (pending (enqueue e it q) = pending q /\ inflightItems (enqueue e it q) = inflightItems q /\
   inflight (enqueue e it q) = inflight q) \/
  (exists q1 it1, batch_id it1 = batch_id it /\ admissible q it it1 /\ pending q1 = pending q /\
     inflightItems q1 = inflightItems q /\ enqueue e it q = pump e (fst (queuePending it1 q1))).
Proof.
  intros Hb. unfold enqueue. apply String.eqb_neq in Hb. rewrite Hb.
  pose proof (enqueue_gates_sat e q it) as H. destruct (enqueue_gates e q it) as [q' it'|q']; simpl in H.
  - right. destruct H as [(Hp & Hi & _) Ha].
    destruct (truthy (payload it')).
    + pose proof (freezeCapture_frame e it' q') as Hf. destruct (freezeCapture e it' q') as [it2 q2].
      destruct Hf as (_ & Hp2 & _ & Hi2 & _ & _ & _ & _ & _ & _ & _ & Hal & Hb2 & _).
      exists q2, it2. destruct Ha as (Hb1 & H1 & H2 & H3 & H4).
      assert (admissible q it it2) as Ha2.
      { refine (conj _ (conj H1 (conj H2 (conj _ H4)))); [congruence|]. rewrite Hal. exact H3. }
      split; [congruence|]. split; [exact Ha2|]. split; [congruence|]. split; [congruence|done].
    + exists q', it'. split; [apply Ha|]. by repeat split; try apply Ha.
  - left. done.
Qed.

(** Once a batch has landed, enqueueing it again without asking for recollection does
    nothing but count. *)
Theorem enqueue_landed_noop e it q :
  batch_id it <> "" -> batchAlreadyOk q (batch_id it) = true -> wants_recollect it = false ->
  enqueue e it q = count add_skipped (count add_shortCircuit q).
Proof.
  intros Hb Hok Hw. unfold enqueue. apply String.eqb_neq in Hb. rewrite Hb.
  unfold enqueue_gates, renew. rewrite Hw. cbn [gbind]. unfold gate_ok. by rewrite Hok, Hw.
Qed.

(** The force-recollect budget defeats itself: when [allowForceRecollect] grants a landed
    batch its one recollection, it marks the budget used, and the [clearSentKeys] call that
    is to perform it then refuses, leaving the whole queue as it was. *)
Theorem force_recollect_self_defeating b it q q' :
  batchAlreadyOk q b = true -> batch_id it = b ->
  allowForceRecollect b q = (q', true) -> clearSentKeys [AnItem it] q' = q'.
Proof.
  intros Hok Hb. unfold allowForceRecollect. destruct (b =s "") eqn:E; [done|].
  rewrite Hok. cbn [negb]. case_bool_decide; [done|]. intros [= <-].
  unfold clearSentKeys. simpl. rewrite Hb, E. unfold batchAlreadyOk in *. simpl. rewrite Hok.
  rewrite bool_decide_true by set_solver. done.
Qed.

(** A session change empties the registry, the landed set, the dedupe keys, the attempt
    counts and the recollection budget, keeps only the pending items of the new session and
    lifts a halt that belonged to another one. *)
Theorem configure_new_session fp h o s q :
  new_session o q = Some s ->
  let q' := configure fp h o q in
  c_session (cfg q') = s /\ registry q' = ∅ /\ batches_ok (outc q') = ∅ /\ sentKeys q' = ∅ /\
  attempts q' = ∅ /\ forceRecollectUsed q' = ∅ /\
  pending q' = List.filter (fun it => i_session it =s s) (pending q) /\
  (forall hs, haltState q' = Some hs -> haltState q = Some hs /\ h_session hs = s).
Proof.
  intros Hn. cbn zeta. unfold configure. rewrite Hn.
  assert (o_session o = Some s) as Ho.
  { unfold new_session in Hn. destruct (o_session o); [|done]. case_match; [|done]. congruence. }
  set (q1 := conf_upd (assign o) q).
  set (q1' := match haltState q1 with Some _ => _ | None => _ end).
  assert (cfg q1' = cfg q1 /\ pending q1' = pending q /\
    (forall hs, haltState q1' = Some hs -> haltState q = Some hs /\ h_session hs = s)) as (Hc & Hp & Hh).
  { subst q1'. change (haltState q1) with (haltState q). destruct (haltState q) as [hs|] eqn:E.
    2: { split; [done|split; [done|intros hs' H']]. change (haltState q = Some hs') in H'. congruence. }
    destruct (h_session hs =s s) eqn:Es; cbn [negb]; (split; [done|split; [done|intros hs' H']]).
    - change (haltState q = Some hs') in H'. rewrite E in H'. breflect. naive_solver.
    - done. }
  assert (c_session (cfg q1) = s) as Hs by (subst q1; simpl; by rewrite Ho).
  clearbody q1'. set (q2 := resetSessionState _ _).
  assert (forall q3, q3 = applyFirstPartyPerfHints fp h q2 ->
    c_session (cfg q3) = c_session (cfg q2) /\ registry q3 = registry q2 /\ outc q3 = outc q2 /\
    sentKeys q3 = sentKeys q2 /\ attempts q3 = attempts q2 /\
    forceRecollectUsed q3 = forceRecollectUsed q2 /\ pending q3 = pending q2 /\
    haltState q3 = haltState q2) as H3.
  { intros q3 ->. unfold applyFirstPartyPerfHints, raise_max, raise_mid. destruct fp; [|done]. simpl.
    repeat (case_match; simpl); done. }
  destruct (H3 _ eq_refl) as (-> & -> & -> & -> & -> & -> & -> & ->).
  subst q2. unfold resetSessionState, report. simpl.
  rewrite Hc, Hs, Hp. repeat split; try done; by apply Hh.
Qed.

(** ** Witnesses *)

Definition api_item : item := mk_item 1 "B10x_silicon_ulp" 10.
Definition landed_queue : queue := set_outc (mark_ok "B10x_silicon_ulp" out0) (demo_queue 3 []).

Example enqueue_starts :
  effects (enqueue (demo_env 1000) api_item (demo_queue 3 [])) <> [] /\
  enqueue (demo_env 1000) api_item landed_queue = count add_skipped (count add_shortCircuit landed_queue).
Proof. split; [by vm_compute|reflexivity]. Qed.

Lemma enqueue_admission_witness :
  let e := demo_env 1000 in let it := api_item in let q := halted_queue in
  batch_id it <> "" /\
  ((pending (enqueue e it q) = pending q /\ inflightItems (enqueue e it q) = inflightItems q /\
    inflight (enqueue e it q) = inflight q) \/
   (exists q1 it1, batch_id it1 = batch_id it /\ admissible q it it1 /\ pending q1 = pending q /\
      inflightItems q1 = inflightItems q /\ enqueue e it q = pump e (fst (queuePending it1 q1)))).
Proof. split; [discriminate|]. apply (enqueue_admission (demo_env 1000) api_item halted_queue). discriminate. Defined.

Lemma enqueue_landed_noop_witness :
  enqueue (demo_env 1000) api_item landed_queue = count add_skipped (count add_shortCircuit landed_queue).
Proof. apply (enqueue_landed_noop (demo_env 1000) api_item landed_queue); [discriminate|reflexivity|reflexivity]. Defined.

Lemma force_recollect_self_defeating_witness :
  let q' := fst (allowForceRecollect "B10x_silicon_ulp" landed_queue) in
  batchAlreadyOk q' "B10x_silicon_ulp" = true /\ clearSentKeys [AnItem api_item] q' = q'.
Proof.
  split; [reflexivity|].
  apply (force_recollect_self_defeating "B10x_silicon_ulp" api_item landed_queue); reflexivity.
Defined.

Definition new_opts : options := session_opts "cycle_2".

Lemma configure_new_session_witness :
  let q := landed_queue |> set_pending [mk_item 1 "R1" 10; set_i_session "cycle_2" (mk_item 2 "R2" 10)] in
  let q' := configure false (mkHints 0 0 None None) new_opts q in
  map batch_id (pending q') = ["R2"] /\ batches_ok (outc q') = ∅ /\ c_session (cfg q') = "cycle_2".
Proof.
  set (q := landed_queue |> _).
  destruct (configure_new_session false (mkHints 0 0 None None) new_opts "cycle_2" q eq_refl)
    as (Hc & _ & Hb & _ & _ & _ & Hp & _).
  split; [rewrite Hp; reflexivity|]. split; [exact Hb|exact Hc].
Defined.
