(* ===== verification/QueueSystem.v ===== *)
(** * Upload queue: the system of handlers ([probe/fe/upload_queue.js])

    Every entry point of the queue (the methods of [GRUploadQueue], the two
    continuations of an upload, the timers) as one labelled step, interleaved
    with arbitrary changes of the window and of the lifecycle state by the other
    modules.  The theorems hold along every run. *)

From Stdlib Require Import QArith Qround.
From S2P Require Import Prelude JsVal Window Lifecycle Sha256 Registry Terminal QueueState Freeze QueuePump QueueOutcome QueueApi.
#[local] Open Scope Z_scope.

(** ** Steps *)

Inductive op :=
| OConfigure (fp : bool) (h : hints) (o : options)
| OSeedSentKeys (l : list key_or_item)
| OClearSentKeys (l : list key_or_item)
| OAllowForceRecollect (b : string)
| OEnqueue (it : item)
| ORewriteSessionId (from to : string)
| OKick
| OHalt (reason sid code : string)
| OApplyCorrections (body : val)
| OResume (sid : string)
| OSoftRamp (n : Z)
| OFlush (reason : string)
| OMarkVisible (fp : bool) (h : hints)
| OMarkHiding
| ONudgeTransport (bid sid : string)
| OPumpWhileOpen (why : string)
| OPump
| OFetchSettled (it : item)
| OSuccess (it : item) (heavy : bool) (k : string) (resp : val)
| OFail (it : item) (heavy : bool) (k : string) (x : uerr)
| ORetryFire (it : item)
| OPumpFire (it : option item)
| OSummary (force : bool).

(** One handler runs to completion, reading the environment [e]. *)
Definition run_op (e : env) (o : op) (q : queue) : queue :=
  match o with
  | OConfigure fp h o => configure fp h o q
  | OSeedSentKeys l => seedSentKeys l q
  | OClearSentKeys l => clearSentKeys l q
  | OAllowForceRecollect b => fst (allowForceRecollect b q)
  | OEnqueue it => enqueue e it q
  | ORewriteSessionId from to => fst (rewriteSessionId e from to q)
  | OKick => kick e q
  | OHalt reason sid code => halt_ e reason sid code q
  | OApplyCorrections body => fst (applyCorrections e body q)
  | OResume sid => fst (resume sid q)
  | OSoftRamp n => softRamp e n q
  | OFlush reason => flush e reason q
  | OMarkVisible fp h => markVisible e fp h q
  | OMarkHiding => markHiding q
  | ONudgeTransport bid sid => fst (nudgeTransport e bid sid q)
  | OPumpWhileOpen why => fst (pumpWhileOpen e why q)
  | OPump => pump e q
  | OFetchSettled it => drop_ctrl it q
  | OSuccess it heavy k resp => on_success e it heavy k resp q
  | OFail it heavy k x => on_fail e it heavy k x q
  | ORetryFire it => retry_fire e it q
  | OPumpFire it => pump_fire e it q
  | OSummary force => reportSessionUploadSummary force q
  end.

(** Handlers that lift a halt, and handlers that forget landed batches. *)
Definition reopens (o : op) : bool :=
  match o with
  | OConfigure _ _ _ | ORewriteSessionId _ _ | OApplyCorrections _ | OResume _ => true
  | _ => false
  end.
Definition forgets (o : op) : bool :=
  match o with OConfigure _ _ _ | OClearSentKeys _ => true | _ => false end.

(** [step_env]: another module changes the window or the lifecycle state, the policy
    included ([applyServerPolicy]).  [step_grant]: the answer to a grant refresh moves the
    queue to the session of the grant. *)
Inductive qstep (P : op -> bool) : queue -> queue -> Prop :=
| step_op e o q : P o = true -> qstep P q (run_op e o q)
| step_env l q : qstep P q (set_lc l q)
| step_grant sid q : qstep P q (conf_upd (set_c_session sid) q).

Definition any_op (o : op) : bool := true.

Definition reachable (q : queue) : Prop :=
  exists lifecycle w, rtc (qstep any_op) (q0 lifecycle w) q.

(** A step after which the limit of heavy uploads is at most [n]. *)
Definition qstep_within (n : Z) (q q' : queue) : Prop := qstep any_op q q' /\ heavyMaxInflight q' <= n.

(** ** Relations every handler respects *)

Class ApiStable (R : queue -> queue -> Prop) : Prop := {
  as_preorder :: PreOrder R;
  as_pump e q : R q (pump e q);
  as_finish it heavy q : R q (finish it heavy q);
  as_freeze e it q : R q (snd (freezeCapture e it q));
  as_pending v q : R q (set_pending v q);
  as_cnt v q : R q (set_cnt v q);
  as_registry v q : R q (set_registry v q);
  as_attempts v q : R q (set_attempts v q);
  as_ctrls v q : R q (set_inflightCtrls v q);
  as_cfg v q : R q (set_cfg v q);
  as_halt h q : R q (set_haltState (Some h) q);
  as_reported v q : R q (set_outcomeReported v q);
  as_ramped v q : R q (set_ramped v q);
  as_hiding v q : R q (set_hiding v q);
  as_flush v q : R q (set_flushReason v q);
  as_force v q : R q (set_forceUsed v q);
  as_sent v q : R q (set_sentKeys v q);
  as_acks v q : R q (set_acks v q);
  as_lc l q : Lifecycle.POLICY l = Lifecycle.POLICY (lc q) -> R q (set_lc l q);
  as_emit x q : match x with EPost _ _ _ => False | _ => True end -> R q (emit x q);
  as_outc o q : batches_ok (outc q) ⊆ batches_ok o -> R q (set_outc o q)
}.

(** ... and those that also allow lifting a halt, or forgetting landed batches. *)
Class OpenStable (R : queue -> queue -> Prop) : Prop := os_unhalt q : R q (set_haltState None q).
Class ForgetStable (R : queue -> queue -> Prop) : Prop := fs_outc o q : R q (set_outc o q).

Lemma recordFail_POLICY id why t s :
  Lifecycle.POLICY (fst (Lifecycle.recordFail id why t s)) = Lifecycle.POLICY s.
Proof.
  unfold Lifecycle.recordFail, Lifecycle.budget_step, Lifecycle.deepen_exhaust_step,
    Lifecycle.rpa_exhaust_step, Lifecycle.push_fail, Lifecycle.report_fail_budget.
  cbn [fst]. cbv zeta. repeat (case_match; simpl); done.
Qed.

Section Api.
Context (R : queue -> queue -> Prop) `{!ApiStable R}.

Lemma as_allow id t q : R q (fst (allow_enqueue id t q)).
Proof.
  unfold allow_enqueue. destruct (has_lifecycle q); [|done].
  pose proof (lifecycle_allow_frame id t (lc q)) as [Hp _].
  destruct (Lifecycle.allowEnqueue id t (lc q)) as [l b]. by apply as_lc.
Qed.

Lemma as_win w q : R q (set_win w q).
Proof. by apply as_lc. Qed.

#[export] Instance api_retry_stable : RetryStable R.
Proof.
  split; [|intros; by apply as_emit]. split.
  - split; intros; try apply as_win; try apply as_cfg; try apply as_halt; try apply as_reported;
      try apply as_ramped; [|by apply as_emit; destruct x].
    split; intros; try apply _; try apply as_allow; try apply (as_pump (R := R)); try apply (as_finish (R := R));
      try apply (as_freeze (R := R)); try apply as_pending; try apply as_cnt; try apply as_registry;
      try apply as_attempts; try apply as_ctrls.
  - intros kd q. apply as_outc. by destruct kd.
  - intros. apply as_sent.
  - intros. apply as_lc, recordFail_POLICY.
Qed.

Lemma set_vars_win l q : R q (set_vars l q).
Proof.
  revert q. induction l as [|[k v] l IH]; intros q; simpl; [done|].
  etrans; [apply as_win|apply IH].
Qed.
End Api.

(** A chain of updates, each closed by a field of the class or a lemma. *)
Ltac stable R :=
  repeat (cbv beta; match goal with
  | |- R ?q ?q => reflexivity
  | |- R _ (set_win _ _) => etrans; [|apply (as_win R)]
  | |- R _ (set_var _ _ _) => etrans; [|apply (as_win R)]
  | |- R _ (set_vars _ _) => etrans; [|apply (set_vars_win R)]
  | |- R _ (report _ _ _ _) => etrans; [|apply (as_win R)]
  | |- R _ (set_pending _ _) => etrans; [|apply as_pending]
  | |- R _ (count _ _) => etrans; [|apply as_cnt]
  | |- R _ (set_registry _ _) => etrans; [|apply as_registry]
  | |- R _ (set_attempts _ _) => etrans; [|apply as_attempts]
  | |- R _ (set_attempt _ _ _) => etrans; [|apply as_attempts]
  | |- R _ (set_inflightCtrls _ _) => etrans; [|apply as_ctrls]
  | |- R _ (conf_upd _ _) => etrans; [|apply as_cfg]
  | |- R _ (set_ramped _ _) => etrans; [|apply as_ramped]
  | |- R _ (set_hiding _ _) => etrans; [|apply as_hiding]
  | |- R _ (set_flushReason _ _) => etrans; [|apply as_flush]
  | |- R _ (set_forceUsed _ _) => etrans; [|apply as_force]
  | |- R _ (set_sentKeys _ _) => etrans; [|apply as_sent]
  | |- R _ (set_outcomeReported _ _) => etrans; [|apply as_reported]
  | |- R _ (set_acks _ _) => etrans; [|apply as_acks]
  | |- R _ (set_haltState None _) => etrans; [|apply os_unhalt]
  | |- R _ (emit _ _) => etrans; [|by apply as_emit]
  | |- R _ (pump _ _) => etrans; [|apply as_pump]
  | |- R _ (fst (queuePending _ _)) => etrans; [|apply (os_queue R)]
  | |- R _ (applyHalt _ _ _ _ _) => etrans; [|apply (applyHalt_stable R)]
  | |- R _ (maybeLocalIdentityDone _ _) => etrans; [|apply (maybeLocal_stable R)]
  | |- R _ (if ?b then _ else _) => destruct b
  | |- R _ (match ?x with Some _ => _ | None => _ end) => destruct x
  end).

Section Methods.
Context (R : queue -> queue -> Prop) `{!ApiStable R}.

Lemma fold_stable {A} (f : queue -> A -> queue) l q :
  (forall q x, R q (f q x)) -> R q (fold_left f l q).
Proof. intros H. revert q. induction l as [|x l IH]; intros q; simpl; [done|]. etrans; [apply H|apply IH]. Qed.

Lemma hints_stable fp h q : R q (applyFirstPartyPerfHints fp h q).
Proof. unfold applyFirstPartyPerfHints, raise_max, raise_mid. cbv zeta. stable R. Qed.

(** *** Enqueueing *)

Definition gate_rel (q : queue) (g : gate) : Prop := match g with Go q' _ | Stop q' => R q q' end.

Lemma gbind_rel q g f : gate_rel q g -> (forall q' it', gate_rel q' (f q' it')) -> gate_rel q (gbind g f).
Proof.
  destruct g as [q' it'|q']; simpl; [|done]. intros H Hf. specialize (Hf q' it').
  destruct (f q' it'); simpl in *; by etrans.
Qed.

Lemma report_cap_stable e id k r q : R q (report_cap e id k r q).
Proof. unfold report_cap. cbv zeta. stable R; case_match; stable R. Qed.

Lemma gate_attempts_rel e q it : gate_rel q (gate_attempts e q it).
Proof.
  unfold gate_attempts. cbv zeta. set (cap := if isB10xBatch (batch_id it) || _ then _ else _).
  destruct (reset_attempts it), (_ && e_seal_valid e); (destruct (_ && negb _);
    [destruct (_ || isSecondaryInfraBatch (batch_id it)); [destruct (_ <? now e - _)|]|]); simpl; stable R;
    (etrans; [|apply report_cap_stable]); stable R.
Qed.

Lemma enqueue_gates_rel e q it : gate_rel q (enqueue_gates e q it).
Proof.
  unfold enqueue_gates. repeat (apply gbind_rel; [|intros q' it']); [by simpl|..].
  - unfold gate_ok. destruct (_ && _); simpl; stable R.
  - unfold gate_pagehide. destruct (_ && _); simpl; stable R.
  - unfold mark_force. cbv zeta. destruct (_ && _); simpl; stable R.
  - apply gate_attempts_rel.
  - unfold gate_halt. destruct (_ && _); simpl; stable R.
  - unfold gate_lifecycle. pose proof (as_allow R (batch_id it') (now e) q') as H.
    destruct (allow_enqueue _ _ _) as [q1 b]. destruct (_ && _); simpl in *; [|done].
    etrans; [exact H|]. stable R.
  - unfold gate_sent. cbv zeta. repeat case_match; simpl; stable R.
  - unfold gate_rpa. cbv zeta. repeat case_match; simpl; stable R.
Qed.

Lemma enqueue_stable e it q : R q (enqueue e it q).
Proof.
  unfold enqueue. destruct (batch_id it =s ""); [done|].
  pose proof (enqueue_gates_rel e q it) as H. destruct (enqueue_gates e q it) as [q' it'|q']; [|done].
  simpl in H. etrans; [exact H|]. destruct (truthy (payload it')); [|stable R].
  pose proof (as_freeze (R := R) e it' q') as Hf. destruct (freezeCapture e it' q') as [it2 q2].
  simpl in Hf. etrans; [exact Hf|]. stable R.
Qed.

(** *** The other methods that keep halts and landed batches *)

Lemma seed_stable l q : R q (seedSentKeys l q).
Proof. apply fold_stable. intros q1 [k|it]; stable R. Qed.

Lemma allowForce_stable b q : R q (fst (allowForceRecollect b q)).
Proof. unfold allowForceRecollect. repeat (case_match; simpl); stable R. Qed.

Lemma flush_stable e r q : R q (flush e r q).
Proof.
  unfold flush, boost_hard. cbv zeta. stable R;
    unfold enter_unload, enter_background, drop_on_unload, abort_on_unload; cbv zeta; stable R;
    (etrans; [|apply set_vars_win]); stable R.
Qed.

Lemma markVisible_stable e fp h q : R q (markVisible e fp h q).
Proof. unfold markVisible. cbv zeta. stable R; (etrans; [|apply hints_stable]); stable R. Qed.

Lemma softRamp_stable e n q : R q (softRamp e n q).
Proof. unfold softRamp. cbv zeta. stable R. Qed.

Lemma nudge_stable e b sid q : R q (fst (nudgeTransport e b sid q)).
Proof. unfold nudgeTransport. destruct (b =s ""); simpl; stable R. Qed.

Lemma pumpWhileOpen_stable e why q : R q (fst (pumpWhileOpen e why q)).
Proof.
  unfold pumpWhileOpen. destruct (is_some (haltState q)); simpl; stable R. apply flush_stable.
Qed.

Lemma retry_fire_stable e it q : R q (retry_fire e it q).
Proof.
  unfold retry_fire. destruct (_ && _); [done|]. destruct (uploadsBlocked q it); [done|].
  pose proof (as_allow R (batch_id it) (now e) q) as H. destruct (allow_enqueue _ _ _) as [q1 b]. simpl in H.
  destruct (negb b); [exact H|]. stable R. exact H.
Qed.

(** *** The success handler *)

Lemma noteOutcome_any e kd b it q : R q (noteOutcome e kd b it q).
Proof.
  assert (forall o, batches_ok (outc q) ⊆ batches_ok o -> R q (set_outc o q)) as Ho by (intros; by apply as_outc).
  unfold noteOutcome. cbv zeta. destruct kd; try by apply Ho.
  all: destruct (b =s ""); [by apply Ho|].
  all: match goal with |- R _ (if ?c then _ else _) => destruct c end;
    [etrans; [|apply as_outc]; [by apply Ho|done]|].
  all: set (q2 := set_outc _ _); assert (R q q2) as H2
    by (subst q2; etrans; [|apply as_outc]; [by apply Ho|simpl; set_solver]).
  all: unfold boostPendingB10x; cbv zeta; stable R; done.
Qed.

Lemma settle_ack_stable e it k resp q : R q (settle_ack e it k resp q).
Proof.
  unfold settle_ack. destruct (applyAck _ _ _ _ _) as [[reg ac] r]. cbv zeta.
  stable R; (etrans; [|apply (upsert_stable R)]); stable R.
  etrans; [|apply noteOutcome_any]. stable R.
Qed.

Lemma on_success_stable e it heavy k resp q : R q (on_success e it heavy k resp q).
Proof.
  unfold on_success. cbv zeta. pose proof (as_finish (R := R) it heavy q) as H.
  set (q1 := finish it heavy q) in *. destruct (is_some (haltState q1)); [stable R; done|].
  etrans; [|apply (success_tail_stable R e it resp)]. etrans; [|apply settle_ack_stable].
  stable R; done.
Qed.
End Methods.

(** *** The methods that lift halts or forget landed batches *)

Section Reopen.
Context (R : queue -> queue -> Prop) `{!ApiStable R}.

Lemma resume_stable sid q : OpenStable R -> R q (fst (resume sid q)).
Proof. intros Ho. unfold resume. case_match; simpl; stable R. Qed.

Lemma rewrite_stable e from to q : OpenStable R -> R q (fst (rewriteSessionId e from to q)).
Proof.
  intros Ho. unfold rewriteSessionId. destruct (_ || _); [done|]. simpl. unfold clear_halt. stable R.
Qed.

Lemma correct_one_stable e sid body c st : OpenStable R -> R st.1 (correct_one e sid body c st).1.
Proof.
  intros Ho. destruct st as [q a]. unfold correct_one. cbv zeta.
  repeat match goal with |- R _ (fst (if ?b then _ else _)) => destruct b end; simpl; stable R.
Qed.

Lemma corrections_stable e body q : OpenStable R -> R q (fst (applyCorrections e body q)).
Proof.
  intros Ho. unfold applyCorrections. destruct (negb (truthy body)); [done|]. cbv zeta.
  set (q2 := if truthy (prop body "business_state") then _ else _).
  assert (R q q2) as H2 by (subst q2; stable R). set (sid := to_string _). clearbody q2 sid.
  set (l := elems _). clearbody l.
  assert (forall l (st : queue * list string),
    R st.1 (fold_left (fun st c => correct_one e sid body c st) l st).1) as Hf.
  { clear l q2 H2. intros l. induction l as [|c l IH]; intros st; simpl; [done|].
    etrans; [by apply (correct_one_stable e sid body c)|apply IH]. }
  specialize (Hf l (q2, [])). destruct (fold_left _ l _) as [q3 a3]. simpl in Hf.
  set (p4 := if truthy (prop body "fe_should_halt") && _ then _ else (q3, a3)).
  assert (R q3 p4.1) as H4 by (subst p4; destruct (_ && _); simpl; stable R).
  destruct p4 as [q4 a4]. simpl in H4.
  set (p5 := if _ && negb (is_some (haltState q4)) then _ else (q4, a4)).
  assert (R q4 p5.1) as H5 by (subst p5; destruct (_ && negb _); simpl; stable R).
  destruct p5 as [q5 a5]. simpl in *. stable R. by do 3 (etrans; [eassumption|]).
Qed.

Lemma clear_one_stable x q : ForgetStable R -> R q (clear_one x q).
Proof.
  intros Hf. destruct x as [k|it]; simpl; [apply as_sent|].
  destruct (batch_id it =s ""); [done|]. destruct (batchAlreadyOk q (batch_id it)); cbn [andb].
  - destruct (bool_decide _); [done|]. etrans; [|apply fs_outc]. stable R.
  - etrans; [|apply fs_outc]. stable R.
Qed.

Lemma configure_stable fp h o q : OpenStable R -> ForgetStable R -> R q (configure fp h o q).
Proof.
  intros Ho Hf. unfold configure. cbv zeta. etrans; [|apply (hints_stable R)].
  destruct (new_session o q); [|apply as_cfg].
  unfold resetSessionState. stable R. all: etrans; [|apply fs_outc]; stable R.
Qed.

(** Every handler respects the relation, given what its kind needs. *)
Lemma run_op_stable e o q :
  (reopens o = true -> OpenStable R) -> (forgets o = true -> ForgetStable R) -> R q (run_op e o q).
Proof.
  intros Ho Hf. destruct o; simpl in *.
  - apply configure_stable; auto.
  - by apply (seed_stable R).
  - apply (fold_stable R). intros. apply clear_one_stable. auto.
  - by apply (allowForce_stable R).
  - by apply (enqueue_stable R).
  - apply rewrite_stable; auto.
  - unfold kick. stable R.
  - by apply (applyHalt_stable R).
  - apply corrections_stable; auto.
  - apply resume_stable; auto.
  - by apply (softRamp_stable R).
  - by apply (flush_stable R).
  - by apply (markVisible_stable R).
  - unfold markHiding. stable R.
  - by apply (nudge_stable R).
  - by apply (pumpWhileOpen_stable R).
  - apply as_pump.
  - apply as_ctrls.
  - by apply (on_success_stable R).
  - by apply (on_fail_stable R).
  - by apply (retry_fire_stable R).
  - unfold pump_fire. stable R.
  - by apply (reportSummary_stable R).
Qed.

Lemma run_stable P q q' :
  (forall o, P o = true -> reopens o = true -> OpenStable R) ->
  (forall o, P o = true -> forgets o = true -> ForgetStable R) ->
  (forall l q, R q (set_lc l q)) ->
  rtc (qstep P) q q' -> R q q'.
Proof.
  intros Ho Hf Hl. induction 1 as [|q q1 q2 H _ IH]; [done|]. etrans; [|exact IH].
  destruct H as [e o q Hp|l q|sid q]; [apply run_op_stable; eauto|done|apply as_cfg].
Qed.
End Reopen.

(** ** Invariants *)

(** What a handler does to the load: the limit of heavy uploads stays, the in-flight counter
    stays between zero and the number of tracked items, and the heavy counter stays
    nonnegative and rises to the limit at most. *)
Record keeps_load (q q' : queue) : Prop := KeepsLoad {
  kl_limit : heavyMaxInflight q' = heavyMaxInflight q;
  kl_inflight : inflight_ok q -> inflight_ok q';
  kl_heavy : 0 <= heavyInflight q -> 0 <= heavyInflight q' <= Z.max (heavyInflight q) (heavyMaxInflight q)
}.

#[export] Instance keeps_load_preorder : PreOrder keeps_load.
Proof.
  split; [intros q; constructor; [done|done|lia]|]. intros a b c [H1 H2 H3] [G1 G2 G3].
  constructor; [congruence|auto|]. intros Ha. specialize (H3 Ha). specialize (G3 ltac:(lia)). lia.
Qed.

(** Anything that leaves the counters and the policy alone. *)
Lemma load_frame q q' :
  inflight q' = inflight q -> inflightItems q' = inflightItems q -> heavyInflight q' = heavyInflight q ->
  has_lifecycle q' = has_lifecycle q -> Lifecycle.POLICY (lc q') = Lifecycle.POLICY (lc q) ->
  keeps_load q q'.
Proof.
  intros Hi Hit Hh Hl Hp. constructor; unfold inflight_ok, heavyMaxInflight; rewrite ?Hi, ?Hit, ?Hh, ?Hl, ?Hp; done || lia.
Qed.

Lemma heavyMaxInflight_pos q : 1 <= heavyMaxInflight q.
Proof. unfold heavyMaxInflight. destruct (has_lifecycle q); lia. Qed.

Lemma prune_load q : keeps_load q (pruneStaleInflight q).
Proof.
  destruct (pruneStaleInflight_context q) as [Hc _]. destruct (same_context_heavy _ _ Hc) as [Hm _].
  constructor; [done|by apply pruneStaleInflight_ok|]. intros Hh. unfold pruneStaleInflight. cbv zeta.
  destruct (_ && _); simpl; [lia|]. case_match; breflect; lia.
Qed.

Lemma pump_turn_load e q : keeps_load q (turn_queue (pump_turn e q)).
Proof.
  destruct (pump_turn_frame e q) as [Hc Hs]. destruct (same_context_heavy _ _ Hc) as [Hm _].
  unfold inflight_ok in *. constructor; [done|..]; unfold inflight_ok;
    (destruct Hs as [(Hi & Hl & Hh & _)|(it & hv & k & Hi & Hl & Hh & Hhv & _)]; rewrite ?Hi, ?Hl, ?Hh; [done || lia|]);
    (destruct hv; [specialize (Hhv eq_refl)|]; lia).
Qed.

Lemma pump_load e q : keeps_load q (pump e q).
Proof.
  unfold pump. pose proof (prune_load q) as Hp. set (q1 := pruneStaleInflight q) in *.
  destruct (effectiveUploadCap q1 <=? 0) eqn:Ec; [done|]. breflect.
  destruct (is_some (haltState q1) && _); [done|].
  apply (pump_loop_ind (keeps_load q)); [intros; etrans; [done|by apply pump_turn_load]|].
  etrans; [exact Hp|]. constructor; unfold clamp_inflight.
  - by destruct (_ <? _).
  - intros Hok. by apply clamp_inflight_ok.
  - destruct (_ <? _); simpl; lia.
Qed.

Lemma finish_load it heavy q : keeps_load q (finish it heavy q).
Proof.
  unfold finish. cbv zeta. set (q2 := if heavy then _ else q).
  assert (keeps_load q q2) as H2.
  { subst q2. destruct heavy; [|done]. constructor; [done|done|]. simpl. lia. }
  etrans; [exact H2|]. constructor; [done|intros H; by apply removeInflightItem_ok|]. simpl. lia.
Qed.

#[export] Instance load_api : ApiStable keeps_load.
Proof.
  split; try (intros; by apply load_frame); [apply _|apply pump_load|apply finish_load|].
  intros e it q. pose proof (freezeCapture_frame e it q) as Hf.
  pose proof (freezeCapture_context e it q) as (_ & _ & _ & Hl & Hp & _).
  destruct (freezeCapture e it q) as [it' q']. simpl in *.
  destruct_and! Hf. by apply (load_frame q q').
Qed.
#[export] Instance load_open : OpenStable keeps_load.
Proof. intros q. by apply load_frame. Qed.
#[export] Instance load_forget : ForgetStable keeps_load.
Proof. intros o q. by apply load_frame. Qed.

Lemma op_load e o q : keeps_load q (run_op e o q).
Proof. apply (run_op_stable keeps_load); intros; apply _. Qed.

(** The counters are in range, and the heavy one has not passed [n]. *)
Definition load_inv (n : Z) (q : queue) : Prop := inflight_ok q /\ 0 <= heavyInflight q <= n.

Lemma step_load n q q' : qstep any_op q q' -> heavyMaxInflight q <= n -> load_inv n q -> load_inv n q'.
Proof.
  intros Hs Hn [Hok Hh]. destruct Hs as [e o q _|l q|sid q]; [|by split|by split].
  destruct (op_load e o q) as [_ H1 H2]. split; [auto|]. specialize (H2 ltac:(lia)). lia.
Qed.

(** Landed batches only accumulate. *)
Definition landed_le (q q' : queue) : Prop := batches_ok (outc q) ⊆ batches_ok (outc q').

#[export] Instance landed_preorder : PreOrder landed_le.
Proof. unfold landed_le. split; [by intros q|]. intros a b c. apply transitivity. Qed.

Lemma landed_eq q q' : batches_ok (outc q') = batches_ok (outc q) -> landed_le q q'.
Proof. unfold landed_le. by intros ->. Qed.

#[export] Instance landed_api : ApiStable landed_le.
Proof.
  split; try (intros; by apply landed_eq); [apply _| | | |by intros].
  - intros e q. apply landed_eq. apply (os_pump (R := keeps (fun q => batches_ok (outc q)))).
  - intros it h q. apply landed_eq. apply (os_finish (R := keeps (fun q => batches_ok (outc q)))).
  - intros e it q. apply landed_eq. apply (os_freeze (R := keeps (fun q => batches_ok (outc q)))).
Qed.
#[export] Instance landed_open : OpenStable landed_le.
Proof. intros q. by apply landed_eq. Qed.

(** A halt stays, and what is sent under it is must-land. *)
Definition halted_quiet (q q' : queue) : Prop :=
  is_some (haltState q) = true ->
  is_some (haltState q') = true /\
  forall it heavy k, EPost it heavy k ∈ effects q' ->
    EPost it heavy k ∈ effects q \/ allowDespiteHalt it = true.

#[export] Instance halted_preorder : PreOrder halted_quiet.
Proof.
  unfold halted_quiet. split; [intros q H; split; auto|]. intros a b c H1 H2 H.
  destruct (H1 H) as [Hb Hpb]. destruct (H2 Hb) as [Hc Hpc]. split; [done|].
  intros it heavy k Hin. destruct (Hpc _ _ _ Hin) as [Hin'|]; [|by right]. by apply Hpb in Hin'.
Qed.

Lemma halted_frame q q' :
  haltState q' = haltState q -> effects q' = effects q -> halted_quiet q q'.
Proof. unfold halted_quiet. intros -> -> H. auto. Qed.

#[export] Instance halted_api : ApiStable halted_quiet.
Proof.
  split; try (intros; by apply halted_frame); [apply _| | | | |].
  - intros e q H. destruct (pump_posts e q) as [Hc Hp]. split; [by destruct Hc as (_ & -> & _)|].
    intros it heavy k Hin. destruct (Hp it heavy k Hin) as [|Hb]; [by left|right].
    unfold uploadsBlocked in Hb. rewrite H in Hb. by destruct (allowDespiteHalt it).
  - intros it heavy q. apply halted_frame; unfold finish; by destruct heavy.
  - intros e it q. pose proof (freezeCapture_frame e it q) as Hf.
    destruct (freezeCapture_context e it q) as (_ & Hh & _).
    destruct (freezeCapture e it q) as [it' q']. simpl in *. destruct_and! Hf. by apply halted_frame.
  - intros h q _. split; [done|]. by left.
  - intros x q Hx H. split; [done|]. intros it heavy k [Heq|]%elem_of_cons; [|by left]. by subst x.
Qed.
#[export] Instance halted_forget : ForgetStable halted_quiet.
Proof. intros o q. by apply halted_frame. Qed.

(** ** Theorems *)

(** C1: The load invariant: in every state the queue can reach, by any interleaving of its
    methods, upload completions, timers, grant refreshes and other modules' changes of the
    window, the lifecycle state and its policy, the in-flight counter lies between zero and
    the number of tracked items, and the heavy counter between zero and the largest limit
    that has been in force; and no handler raises the heavy counter past the limit in force
    when it runs, so that a lowered limit holds again as soon as the uploads above it have
    finished. *)
Theorem load_invariant (n : Z) (lifecycle : bool) (w : Win) q :
  heavyMaxInflight (q0 lifecycle w) <= n -> rtc (qstep_within n) (q0 lifecycle w) q ->
  inflight_ok q /\ 0 <= heavyInflight q <= n /\
  forall e o, heavyInflight (run_op e o q) <= Z.max (heavyInflight q) (heavyMaxInflight q).
Proof.
  intros H0 H. assert (load_inv n q) as [Hok Hh].
  { assert (load_inv n (q0 lifecycle w)) as Hi.
    { pose proof (heavyMaxInflight_pos (q0 lifecycle w)). unfold load_inv, inflight_ok. simpl. lia. }
    revert H0 Hi. induction H as [|q q1 q2 [Hs Hn] _ IH]; [done|]. intros H0 Hi. apply IH; [done|]. by apply (step_load n q). }
  split; [done|]. split; [done|]. intros e o. destruct (op_load e o q) as [_ _ H1]. apply H1. lia.
Qed.

(** C3: Landed batches persist: whatever happens between, other than a new configuration and
    an explicit [clearSentKeys], a batch once acknowledged as landed stays landed. *)
Theorem landed_persists q q' :
  rtc (qstep (fun o => negb (forgets o))) q q' -> batches_ok (outc q) ⊆ batches_ok (outc q').
Proof.
  apply (run_stable landed_le); [intros; apply _| |intros l q1; by apply landed_eq]. intros o H1 H2. by rewrite H2 in H1.
Qed.

(** C2: A halt holds along every run: until the queue is reconfigured, resumed, moved to
    another session or corrected by the server, a halted queue stays halted, and every
    upload it hands to the network is must-land material. *)
Theorem halt_holds q q' :
  rtc (qstep (fun o => negb (reopens o))) q q' -> is_some (haltState q) = true ->
  is_some (haltState q') = true /\
  forall it heavy k, EPost it heavy k ∈ effects q' ->
    EPost it heavy k ∈ effects q \/ allowDespiteHalt it = true.
Proof.
  apply (run_stable halted_quiet); [|intros; apply _|intros; by apply halted_frame]. intros o H1 H2. by rewrite H2 in H1.
Qed.

(** ** Witnesses *)

(** A run: two batches queued, one uploaded, then a halt and a late completion. *)
Definition sys_ops : list op :=
  [OConfigure false (mkHints 0 0 None None) (session_opts "cycle_1");
   OEnqueue (mk_item 1 "R1" 10); OEnqueue (mk_item 2 "B10x_silicon_ulp" 20);
   OSuccess (mk_item 2 "B10x_silicon_ulp" 20) true "cycle_1|B10x_silicon_ulp|main" resp_ok;
   OHalt "be_complete" "cycle_1" "cycle_complete";
   OEnqueue (mk_item 3 "R3" 10); OEnqueue (mk_item 4 "B10x_silicon_rint" 20);
   OFail (mk_item 1 "R1" 10) false "cycle_1|R1|main" net_err].

Definition run_ops (l : list op) (q : queue) : queue := fold_left (fun q o => run_op (demo_env 1000) o q) l q.

Lemma run_ops_steps P l q : forallb P l = true -> rtc (qstep P) q (run_ops l q).
Proof.
  revert q. induction l as [|o l IH]; intros q H; simpl in *; [done|]. breflect.
  econstructor; [by apply (step_op P (demo_env 1000) o)|]. by apply IH.
Qed.

Definition sys0 : queue := q0 false win0.

(** With the lifecycle module the limit is one, then the server allows two. *)
Definition two_heavy : Lifecycle.t -> Lifecycle.t :=
  fun l => Lifecycle.set_POLICY (Lifecycle.applyServerPolicy (VObj [("heavy_max_inflight", vint 2)]) (Lifecycle.POLICY l)) l.
Definition raised : queue := let q := q0 true win0 in set_lc (two_heavy (lc q)) q.
Definition loaded : queue := run_ops (take 3 sys_ops) raised.

Lemma ops_within n l q : heavyMaxInflight q <= n -> rtc (qstep_within n) q (run_ops l q).
Proof.
  revert q. induction l as [|o l IH]; intros q Hn; simpl; [done|]. econstructor.
  - split; [by apply (step_op any_op (demo_env 1000) o)|]. by rewrite (kl_limit _ _ (op_load _ o q)).
  - apply IH. by rewrite (kl_limit _ _ (op_load _ o q)).
Qed.

Lemma load_invariant_witness :
  heavyInflight loaded = 1 /\ inflight_ok loaded /\ 0 <= heavyInflight loaded <= 2 /\
  heavyInflight (run_op (demo_env 1000) OPump loaded) <= 2.
Proof.
  assert (rtc (qstep_within 2) (q0 true win0) loaded) as H.
  { eapply rtc_l; [split; [apply (step_env any_op (two_heavy (lc (q0 true win0))))|vm_compute; discriminate]|].
    apply ops_within. vm_compute. discriminate. }
  assert (heavyMaxInflight (q0 true win0) <= 2) as H0 by (vm_compute; discriminate).
  destruct (load_invariant 2 true win0 loaded H0 H) as (H1 & H2 & H3).
  split; [by vm_compute|]. split; [exact H1|]. split; [exact H2|].
  etrans; [apply (H3 (demo_env 1000) OPump)|]. vm_compute. discriminate.
Defined.

Lemma landed_persists_witness :
  let q := run_ops (take 4 sys_ops) sys0 in let q' := run_ops (drop 4 sys_ops) q in
  batchAlreadyOk q "B10x_silicon_ulp" = true /\ batches_ok (outc q) ⊆ batches_ok (outc q').
Proof.
  split; [by vm_compute|].
  apply (landed_persists (run_ops (take 4 sys_ops) sys0)
           (run_ops (drop 4 sys_ops) (run_ops (take 4 sys_ops) sys0))).
  apply run_ops_steps. reflexivity.
Defined.

Lemma halt_holds_witness :
  let q := run_ops (take 5 sys_ops) sys0 in let q' := run_ops (drop 5 sys_ops) q in
  is_some (haltState q') = true /\
  (forall it heavy k, EPost it heavy k ∈ effects q' ->
     EPost it heavy k ∈ effects q \/ allowDespiteHalt it = true).
Proof.
  apply (halt_holds (run_ops (take 5 sys_ops) sys0)
           (run_ops (drop 5 sys_ops) (run_ops (take 5 sys_ops) sys0))).
  - apply run_ops_steps. reflexivity.
  - vm_compute. reflexivity.
Defined.
