(* ===== verification/ProbeLoop.v ===== *)
(** * The probe loop ([probe/fe/probe_lifecycle.js], [installReprobeTriggers])

    The triggers that re-arm probing (page events, the 45 s interval, the
    server's status) and their arbiter: the session scheduler when it is loaded,
    a lite debounce otherwise.  Here the scheduler's page is the real one: the
    upload queue, which contains the lifecycle and the window.  The functions
    that resume probing belong to the boot script and are parameters. *)

From Stdlib Require Import QArith Qround.
From S2P Require Import Prelude JsVal Window Lifecycle Scheduler Registry Terminal QueueState Freeze QueuePump QueueApi.
#[local] Open Scope Z_scope.

(** [markNeedProbe], [markProbing] on the page. *)
Definition mark_need (reason : val) (q : queue) : queue := set_lc (Lifecycle.markNeedProbe reason (lc q)) q.
Definition mark_probing (q : queue) : queue := set_lc (Lifecycle.markProbing (lc q)) q.

Section ProbeLoop.
(** [grResumeProbeCycle], [grKickRoutePlan], [GRBoot.resumeProbe]; [None] when
    the page has no such function. *)
Context (resume route boot : option (val -> queue -> outcome queue)).

Instance queue_world : SchedWorld queue := {
  sw_win := win;
  sw_set_win := set_win;
  sw_getState q := Some (lstate_str (Lifecycle.state (lc q)));
  sw_markNeedProbe _ := Some (fun r q => Ret (mark_need r q));
  sw_markProbing _ := Some (fun q => Ret (mark_probing q));
  sw_queue q := Some (num_Z (Z.of_nat (length (pending q))), num_Z (inflight q));
  sw_resume _ := resume;
  sw_route _ := route;
  sw_boot _ := boot
}.

(** The scheduler, when it is in the pack, and the closure's variables. *)
Record t := mk {
  sched : option (Scheduler.t queue);
  bound : bool;
  lastArmMs : Z;
  pendingArmReason : val
}.

(** ** Kicking *)

(** The default [kick]: an exception marks need_probe and is swallowed. *)
Definition kick (reason : val) (q : queue) : queue :=
  let r := jor reason (VStr "reprobe") in
  let call f := match f r q with Ret q' => q' | Throw q' _ => mark_need r q' end in
  match resume with
  | Some f => call f
  | None =>
    match route with
    | Some f => call f
    | None =>
      match boot with
      | Some f => call f
      | None => q |> set_vars [("__GR_NEED_REPROBE__", VBool true); ("__GR_REPROBE_REASON__", r)]
                  |> mark_need r
      end
    end
  end.

(** The handler bound into the scheduler. *)
Definition bound_kick (r : val) (_ : kick_opts) (q : queue) : outcome queue :=
  Ret (kick r (mark_probing (mark_need r q))).

Definition isBusy (q : queue) : bool :=
  gtrue "__GR_MULTI_TICK_ACTIVE__" (win q) ||
  ((0 <? Z.of_nat (length (pending q))) || (0 <? inflight q)).

(** ** Arming *)

Definition bind_once (s : Scheduler.t queue) (l : t) : Scheduler.t queue :=
  if bound l then s
  else Scheduler.bind (mkBind (Some bound_kick) None (vint 5000) "") s.

Definition arm_opts (reason : val) (q : queue) : submit_opts :=
  Scheduler.mkOpts
    (is_str reason "server_incomplete" || is_str reason "route_plan" ||
     gtrue "__GR_FORCE_REPROBE__" (win q))
    (let ep := gget "__GR_PLAN_EPOCH__" (win q) in if nonnull ep then VNum (to_num ep) else VNull)
    false.

Definition deferred_result (r : result) : option string :=
  match r with RBusy => Some "busy" | RDebounce => Some "debounce" | _ => None end.

Definition arm_lite (reason : val) (now : Z) (l : t) (q : queue) : t * queue :=
  let defer dflt := (mk (sched l) (bound l) (lastArmMs l) (jor reason (VStr dflt)), q) in
  if isBusy q then defer "busy_pending" else
  if (now - lastArmMs l <? 5000) && negb (is_str reason "server_incomplete") then defer "debounce" else
  (mk (sched l) (bound l) now VNull, kick reason (mark_probing (mark_need reason q))).

Definition arm (reason : val) (now : Z) (l : t) (q : queue) : t * queue :=
  if bool_decide (Lifecycle.state (lc q) = COMPLETE_COOL) && negb (gtrue "__GR_FORCE_REPROBE__" (win q))
  then (l, q) else
  match sched l with
  | Some s =>
    let '(s', q', r) := submit (jor reason (VStr "reprobe")) (arm_opts reason q) now (bind_once s l, q) in
    let p := match deferred_result r with Some d => jor reason (VStr d) | None => pendingArmReason l end in
    (mk (Some s') true (lastArmMs l) p, q')
  | None => arm_lite reason now l q
  end.

(** ** The interval and the server's status *)

(** One run of the 45 s interval; [visible] is [document.visibilityState]. *)
Definition interval (visible : bool) (now : Z) (l : t) (q : queue) : t * queue :=
  if gtrue "__GR_HALT_UPLOADS__" (win q) || gtrue "__GR_BRAIN_SCHEDULE_FINAL__" (win q) then (l, q) else
  if bool_decide (Lifecycle.state (lc q) = COMPLETE_COOL) then (l, q) else
  if negb visible then (l, q) else
  if truthy (pendingArmReason l) && negb (isBusy q) then
    arm (pendingArmReason l) now (mk (sched l) (bound l) (lastArmMs l) VNull) q
  else
    let '(l1, q1) := match sched l with
      | Some s => let '(s', q', _) := tick now (s, q) in
                  (mk (Some s') (bound l) (lastArmMs l) (pendingArmReason l), q')
      | None => (l, q)
      end in
    arm (VStr "interval_maximize_probe") now l1 q1.

Definition onServerProbeStatus (cps0 : val) (now : Z) (l : t) (q : queue) : t * queue * bool :=
  let cps := jor cps0 empty_obj in
  if server_wants_probe cps then
    let r := jor (prop cps "reprobe_reason") (VStr "server_incomplete") in
    let q1 := q |> mark_need r |> mark_probing |> set_var "__GR_FORCE_REPROBE__" (VBool true) in
    (arm r now l q1, true)
  else (l, q, false).

(** The scheduler's own 2 s interval. *)
Definition sched_tick (now : Z) (l : t) (q : queue) : t * queue :=
  match sched l with
  | Some s => let '(s', q', _) := tick now (s, q) in
              (mk (Some s') (bound l) (lastArmMs l) (pendingArmReason l), q')
  | None => (l, q)
  end.

(** ** Lemmas *)

Definition kicks (l : t) : Z := match sched l with Some s => kicked (Scheduler.stats s) | None => 0 end.

Lemma bind_once_stats s l :
  Scheduler.stats (bind_once s l) = Scheduler.stats s /\ planEpoch (bind_once s l) = planEpoch s /\
  Scheduler.lastArmMs (bind_once s l) = Scheduler.lastArmMs s.
Proof. unfold bind_once. by destruct (bound l). Qed.

(** [arm] through the scheduler, as one submission. *)
Lemma arm_submit reason now l q s :
  sched l = Some s ->
  (Lifecycle.state (lc q) = COMPLETE_COOL -> gtrue "__GR_FORCE_REPROBE__" (win q) = true) ->
  let r := jor reason (VStr "reprobe") in
  let '(l', q') := arm reason now l q in
  exists s' res, (s', q', res) = submit r (arm_opts reason q) now (bind_once s l, q) /\
    sched l' = Some s' /\ bound l' = true /\ lastArmMs l' = lastArmMs l /\
    pendingArmReason l' =
      match deferred_result res with Some d => jor reason (VStr d) | None => pendingArmReason l end.
Proof.
  intros Hs Hf. cbn zeta. unfold arm. rewrite Hs.
  assert (bool_decide (Lifecycle.state (lc q) = COMPLETE_COOL) &&
          negb (gtrue "__GR_FORCE_REPROBE__" (win q)) = false) as ->.
  { case_bool_decide as Hc; [|done]. by rewrite (Hf Hc). }
  destruct (submit _ _ _ _) as [[s' q'] res] eqn:E. exists s', res. by rewrite <- E.
Qed.

(** A submission adds one kick exactly when the arbitration rule allows it. *)
Lemma submit_count reason o now s (q : queue) :
  let '(s', _, r) := submit reason o now (s, q) in
  kicked (Scheduler.stats s') = kicked (Scheduler.stats s) + (if may_kick reason o now s q then 1 else 0) /\
  is_kick r = may_kick reason o now s q /\
  (may_kick reason o now s q = true -> Scheduler.lastArmMs s' = now /\ Scheduler.pending s' = None).
Proof.
  pose proof (submit_cases reason o now s q) as H. cbv zeta in H.
  destruct (submit reason o now (s, q)) as [[s' q'] r]. destruct H as [Hk H].
  assert (kicked (Scheduler.stats (adopt_epoch o (s |> set_stats bump_events))) = kicked (Scheduler.stats s)) as Ha.
  { unfold adopt_epoch. destruct (opt_epoch o); [|done]. by destruct (Qltb _ _). }
  rewrite <- Hk. destruct (is_kick r).
  - pose proof (execute_frame (jor reason (VStr "submit")) (o_force o) now
      (adopt_epoch o (s |> set_stats bump_events)) q) as Hx.
    rewrite <- H in Hx. destruct Hx as [(_ & _ & Hp & Hl & Hc & _) _]. split; [lia|done].
  - split; [|done]. rewrite Z.add_0_r. rewrite <- Ha.
    destruct H as [(_ & _ & ->)|[_ [[_ ->]|[[_ ->]|[_ ->]]]]]; done.
Qed.

Lemma forced_may_kick reason now s q :
  gtrue "__GR_FORCE_REPROBE__" (win q) = true ->
  may_kick (jor reason (VStr "reprobe")) (arm_opts reason q) now s q = true.
Proof. intros H. unfold may_kick, arm_opts. simpl. by rewrite H, !orb_true_r. Qed.

(** ** Theorems *)

(** The trigger rule: with the scheduler loaded, a page trigger kicks probing exactly
    when the lifecycle is not cool (or a reprobe is forced) and the scheduler's arbitration
    rule allows the event; an event deferred as busy or debounced is also remembered by the
    loop itself, and nothing else changes what it remembers. *)
Theorem arm_rule reason now l q s :
  sched l = Some s ->
  let '(l', _) := arm reason now l q in
  let cool := bool_decide (Lifecycle.state (lc q) = COMPLETE_COOL) &&
              negb (gtrue "__GR_FORCE_REPROBE__" (win q)) in
  let go := negb cool &&
    may_kick (jor reason (VStr "reprobe")) (arm_opts reason q) now (bind_once s l) q in
  kicks l' = kicks l + (if go then 1 else 0) /\
  (go = true -> pendingArmReason l' = pendingArmReason l) /\
  (pendingArmReason l' = pendingArmReason l \/ exists d, pendingArmReason l' = jor reason (VStr d)).
Proof.
  intros Hs. destruct (bool_decide (Lifecycle.state (lc q) = COMPLETE_COOL) && negb _) eqn:Ec.
  { unfold arm. rewrite Ec. cbn [negb andb]. rewrite Z.add_0_r. auto. }
  pose proof (arm_submit reason now l q s Hs) as H. cbn zeta in H.
  destruct (arm reason now l q) as [l' q']. destruct H as (s' & res & Hsub & Hs' & _ & _ & Hp).
  { intros Hc. rewrite bool_decide_true in Ec by done. by apply negb_false_iff in Ec. }
  pose proof (submit_count (jor reason (VStr "reprobe")) (arm_opts reason q) now (bind_once s l) q) as Hk.
  rewrite <- Hsub in Hk. destruct (bind_once_stats s l) as (Hst & _). rewrite Hst in Hk.
  destruct Hk as (Hk & Hr & _). cbn [negb andb]. unfold kicks. rewrite Hs, Hs', Hp.
  split; [exact Hk|]. rewrite <- Hr. destruct res; simpl; split; eauto; done.
Qed.

(** When the server reports an unfinished cycle that wants probing, probing is kicked at
    once whatever the lifecycle state, the debounce, a running cycle or a halt say; and as
    long as the force flag this sets stands, every trigger of the page kicks as
    unconditionally. *)
Theorem server_status_forces cps now l q s :
  sched l = Some s -> server_wants_probe (jor cps empty_obj) = true ->
  let '(l', _, b) := onServerProbeStatus cps now l q in
  b = true /\ kicks l' = kicks l + 1 /\
  (forall reason now2 l2 q2 s2,
     sched l2 = Some s2 -> gtrue "__GR_FORCE_REPROBE__" (win q2) = true ->
     kicks (fst (arm reason now2 l2 q2)) = kicks l2 + 1).
Proof.
  intros Hs Hw.
  assert (forall reason now2 l2 q2 s2,
     sched l2 = Some s2 -> gtrue "__GR_FORCE_REPROBE__" (win q2) = true ->
     kicks (fst (arm reason now2 l2 q2)) = kicks l2 + 1) as Hall.
  { clear. intros reason now l q s Hs Hf. pose proof (arm_submit reason now l q s Hs (fun _ => Hf)) as H.
    cbn zeta in H. destruct (arm reason now l q) as [l' q']. destruct H as (s' & res & Hsub & Hs' & _).
    pose proof (submit_count (jor reason (VStr "reprobe")) (arm_opts reason q) now (bind_once s l) q) as Hk.
    rewrite <- Hsub, forced_may_kick in Hk by done. destruct (bind_once_stats s l) as (Hst & _).
    rewrite Hst in Hk. simpl. unfold kicks. rewrite Hs, Hs'. apply Hk. }
  unfold onServerProbeStatus. cbv zeta. rewrite Hw. set (q1 := set_var _ _ _).
  assert (gtrue "__GR_FORCE_REPROBE__" (win q1) = true) as Hf.
  { subst q1. unfold gtrue, set_var, win, set_win. simpl. by rewrite gget_gset_eq. }
  pose proof (Hall (jor (prop (jor cps empty_obj) "reprobe_reason") (VStr "server_incomplete"))
    now l q1 s Hs Hf) as Hk.
  destruct (arm _ now l q1) as [l' q']. by repeat split.
Qed.

(** The lite loop, without a scheduler, kicks exactly when the page is idle and either
    five seconds have passed since its last kick or the server asked; otherwise it
    remembers the trigger and leaves the page alone. *)
Theorem lite_rule reason now l q :
  let '(l', q') := arm_lite reason now l q in
  if negb (isBusy q) && ((5000 <=? now - lastArmMs l) || is_str reason "server_incomplete")
  then lastArmMs l' = now /\ pendingArmReason l' = VNull /\
       q' = kick reason (mark_probing (mark_need reason q))
  else lastArmMs l' = lastArmMs l /\ q' = q /\ truthy (pendingArmReason l') = true.
Proof.
  assert (forall d, d <> "" -> truthy (jor reason (VStr d)) = true) as Hd.
  { intros d Hne. unfold jor. destruct (truthy reason) eqn:E; [done|]. simpl. by destruct (String.eqb_spec d ""). }
  unfold arm_lite. cbv zeta. destruct (isBusy q); simpl.
  { repeat split. by apply Hd. }
  destruct (now - lastArmMs l <? 5000) eqn:E1, (5000 <=? now - lastArmMs l) eqn:E2; breflect; try lia;
    destruct (is_str reason "server_incomplete"); simpl; repeat split; by apply Hd.
Qed.
End ProbeLoop.

(** ** Concrete runs *)
Module Demo.
(** A resume function that records its reasons in the window. *)
Definition log (q : queue) : list val :=
  match gget "kicks" (win q) with VArr l => l | _ => [] end.
Definition resume (r : val) (q : queue) : outcome queue := Ret (set_var "kicks" (VArr (log q ++ [r])) q).

Definition loop0 : t := mk (Some (@Scheduler.init queue)) false 0 VNull.
Definition page (multi_tick : bool) (q : queue) : queue := set_var "__GR_MULTI_TICK_ACTIVE__" (VBool multi_tick) q.
Definition page0 : queue := page true (q0 true win0).

Definition arm' := arm (Some resume) None None.
Definition tick' := sched_tick (Some resume) None None.
Definition interval' := interval (Some resume) None None.

(** An event deferred as busy is kicked twice: the scheduler's tick kicks it when the
    cycle ends, and the loop's interval, which keeps its own copy, kicks it again. *)
Theorem deferred_kicked_twice :
  exists lq1 lq2 lq3 : t * queue,
    lq1 = arm' (VStr "window_focus") 100000 loop0 page0 /\ log (snd lq1) = [] /\
    lq2 = tick' 102000 (fst lq1) (page false (snd lq1)) /\ log (snd lq2) = [VStr "window_focus"] /\
    lq3 = interval' true 145000 (fst lq2) (snd lq2) /\
    log (snd lq3) = [VStr "window_focus"; VStr "window_focus"].
Proof.
  eexists _, _, _. split; [reflexivity|]. split; [vm_compute; reflexivity|].
  split; [reflexivity|]. split; [vm_compute; reflexivity|]. split; [reflexivity|]. vm_compute. reflexivity.
Qed.

Definition incomplete : val := VObj [("need_hard_anchor", VBool true)].

Lemma server_status_forces_witness :
  server_wants_probe (jor incomplete empty_obj) = true /\
  let '(l', _, b) := onServerProbeStatus (Some resume) None None incomplete 1000 loop0 page0 in
  b = true /\ kicks l' = kicks loop0 + 1 /\
  (forall reason now2 l2 q2 s2,
     sched l2 = Some s2 -> gtrue "__GR_FORCE_REPROBE__" (win q2) = true ->
     kicks (fst (arm (Some resume) None None reason now2 l2 q2)) = kicks l2 + 1).
Proof.
  split; [reflexivity|].
  exact (server_status_forces (Some resume) None None incomplete 1000 loop0 page0 _ eq_refl eq_refl).
Defined.

Lemma arm_rule_witness :
  kicks (fst (arm' (VStr "online") 100000 loop0 (page false page0))) = 1.
Proof.
  pose proof (arm_rule (Some resume) None None (VStr "online") 100000 loop0 (page false page0) _ eq_refl) as H.
  unfold arm'. destruct (arm _ _ _ _ _ _ _) as [l' q'].
  destruct H as (Hk & _). simpl fst. rewrite Hk. vm_compute. reflexivity.
Defined.
End Demo.
