(* ===== verification/Storage.v ===== *)
(** * Visitor, cycle and cool-down storage ([probe/fe/storage.js])

    The visitor terminal id, the cycle id stamped with the product version and
    the cool-down window, each kept in [localStorage] and in cookies, with the
    legacy names still read.  [ensureProbeStateForVersion] decides at page
    start whether the visit is cool, resumes a cycle or starts a new one.

    The functions run in a state monad over the window and the browser's
    stores ([Browser]).  An absent argument is [""] for a version; an absent
    [maxAgeSec] is [None].  Cool-until times are integers. *)

From Stdlib Require Import QArith Qround.
From S2P Require Import Prelude JsVal Uri Window Browser Json.
#[local] Open Scope Z_scope.

Definition VT_KEY := "_g5_vt".
Definition VT_KEY_LEGACY := "gr_visitor_terminal_v1".
Definition CYCLE_KEY := "_g5_cy".
Definition CYCLE_KEY_LEGACY := "gr_probe_cycle_v1".
Definition CYCLE_COOKIE := "_g5_c".
Definition CYCLE_COOKIE_LEGACY := "gr_cycle_v1".
Definition CYCLE_VER_KEY := "_g5_cv".
Definition CYCLE_VER_KEY_LEGACY := "gr_cycle_product_version_v1".
Definition CYCLE_VER_COOKIE := "_g5_cv".
Definition CYCLE_VER_COOKIE_LEGACY := "gr_cycle_product_version_v1".
Definition COOL_KEY := "_g5_k".
Definition COOL_KEY_LEGACY := "gr_probe_cool_until_v1".
Definition COOL_COOKIE := "_g5_k".
Definition COOL_COOKIE_LEGACY := "gr_cool_until_v1".
Definition PROD_VER_KEY := "_g5_pv".
Definition PROD_VER_KEY_LEGACY := "gr_product_version_v1".
Definition PROD_VER_COOKIE := "_g5_pv".
Definition PROD_VER_COOKIE_LEGACY := "gr_product_version_v1".
Definition BIND_KEY := "_g5_b".
Definition BIND_COOKIE := "_g5_b".
Definition VT_COOKIE := "_g5_vt".
Definition VT_COOKIE_LEGACY := "gr_vt_v1".
Definition FUZZY_HELPER_KEY := "_g5_fh".
Definition FUZZY_HELPER_MAX_AGE_MS : Z := 30 * 24 * 3600 * 1000.

(** What a call sees besides the state: the clock, the location, and the text
    [Math.random().toString(r).slice(2, 10)] for radix 36 and 16. *)
Record env := mkEnv {
  now : Z;
  hostname : string;
  https : bool;
  rand36 : string;
  rand16 : string
}.

(** ** Host names *)

(** Own and inherited names of the object: a look-up by them is truthy. *)
Definition RESERVED_PARENT_SUFFIX : list string :=
  ["local"; "test"; "invalid"; "localhost"; "internal"; "lan"; "home"; "corp"; "localdomain";
   "constructor"; "__proto__"].

Definition all_digits (s : string) : bool :=
  let '(_, n, r) := take_digits s 0 0 in negb (Nat.eqb n 0) && (r =s "").

(** [/^\d+\.\d+\.\d+\.\d+$/] *)
Definition is_ipv4 (h : string) : bool :=
  match split_on "." h with
  | [a; b; c; d] => all_digits a && all_digits b && all_digits c && all_digits d
  | _ => false
  end.

(** [[a-z0-9-]] with the [i] flag *)
Definition label_char (c : ascii) : bool :=
  let n := N_of_ascii (lower_ascii c) in
  (((48 <=? n) && (n <=? 57)) || ((97 <=? n) && (n <=? 122)) || (n =? 45))%N.

Definition letter (c : ascii) : bool :=
  let n := N_of_ascii (lower_ascii c) in ((97 <=? n) && (n <=? 122))%N.

Fixpoint all_chars_of (f : ascii -> bool) (s : string) : bool :=
  match s with EmptyString => true | String c s' => f c && all_chars_of f s' end.

(** The longest suffix of label characters. *)
Fixpoint label_suffix (s : string) : string :=
  match s with
  | EmptyString => EmptyString
  | String _ s' => if all_chars_of label_char s then s else label_suffix s'
  end.

(** [h.match(/([a-z0-9-]+\.(?:com|net|org|edu|co)\.[a-z]{2})$/i)[1]] on the labels *)
Definition second_level (parts : list string) : option string :=
  match rev parts with
  | tld :: sld :: own :: _ =>
    if Nat.eqb (String.length tld) 2 && all_chars_of letter tld &&
       mem_str (lower sld) ["com"; "net"; "org"; "edu"; "co"] && negb (label_suffix own =s "")
    then Some (label_suffix own +:+ "." +:+ sld +:+ "." +:+ tld) else None
  | _ => None
  end.

(** [parts.slice(-2)] *)
Definition last2 {A} (l : list A) : list A := List.skipn (length l - 2) l.

Definition parentCookieDomain (h : string) : string :=
  if (h =s "") || (h =s "localhost") || is_ipv4 h || contains ":" h then "" else
  let parts := split_on "." h in
  if (length parts <? 2)%nat then "" else
  if mem_str (lower (List.last parts "")) RESERVED_PARENT_SUFFIX then "" else
  match second_level parts with
  | Some m => "." +:+ m
  | None => "." +:+ join "." (last2 parts)
  end.

(** The [domain] attributes [expireCookieEverywhere] visits after the host-only cookie. *)
Definition expire_domains (h : string) : list string :=
  if (h =s "") || negb (contains "." h) then [] else
  let parts := split_on "." h in
  map (fun i => "." +:+ join "." (List.skipn i parts)) (seq 0 (length parts - 1)).

(** [s.replace(/[^a-zA-Z0-9_-]/g, "")] *)
Fixpoint token_chars (s : string) : string :=
  match s with
  | EmptyString => EmptyString
  | String c s' => if label_char c || Ascii.eqb c "_" then String c (token_chars s') else token_chars s'
  end.

(** [global.__GR_BOOT__ || {}] *)
Definition boot (w : Win) : val := jor (gget "__GR_BOOT__" w) empty_obj.

Definition siteToken (w : Win) : string :=
  stake 48 (token_chars (to_string (jor (prop (boot w) "site_id")
    (jor (prop (boot w) "siteId") (jor (gget "__GR_SITE_ID__" w) (VStr "")))))).

Definition scopedCookieName (w : Win) (base : string) : string :=
  let s := siteToken w in if s =s "" then base else base +:+ "." +:+ s.

(** Unified product version: explicit, then boot, then the global. *)
Definition resolveProductVersion (explicit : string) (w : Win) : string :=
  if explicit <>s "" then explicit else
  if truthy (prop (boot w) "version") then to_string (prop (boot w) "version") else
  if truthy (prop (boot w) "product_version") then to_string (prop (boot w) "product_version") else
  if gtrue "__GR_PRODUCT_VERSION__" w then to_string (gget "__GR_PRODUCT_VERSION__" w) else "".

(** [s || d] on strings *)
Definition sor (a d : string) : string := if a =s "" then d else a.

(** [o.k = v] on an object; on a primitive the assignment throws and is caught. *)
Definition put (k : string) (v : val) (x : val) : val :=
  match x with VObj o => VObj (obj_put k v o) | _ => x end.

(** ** The state monad *)

Record st (B : Type) := mkSt { win : Win; br : B }.
Arguments mkSt {B}. Arguments win {B}. Arguments br {B}.

Definition M (B A : Type) : Type := st B -> A * st B.

Definition ret {B A} (x : A) : M B A := fun s => (x, s).
Definition bind {B A C} (m : M B A) (k : A -> M B C) : M B C :=
  fun s => let '(x, s') := m s in k x s'.

Declare Scope storage_scope.
Delimit Scope storage_scope with st.
#[local] Open Scope storage_scope.
Notation "'let*' x := m 'in' k" := (bind m (fun x => k))
  (at level 10, x name, m at level 100, k at level 200) : storage_scope.
Notation "m ;; k" := (bind m (fun _ => k)) (at level 100, right associativity) : storage_scope.

Section Storage.
Context {B : Type} `{Browser B}.
Variable e : env.

Definition asks {A} (f : Win -> A) : M B A := fun s => (f (win s), s).
Definition modify (f : Win -> Win) : M B unit := fun s => (tt, mkSt (f (win s)) (br s)).

(** [try { op1; op2; ... } catch (e) {}]: the first write that throws ends the block. *)
Fixpoint try_ops (ops : list (B -> option B)) : M B unit := fun s =>
  match ops with
  | [] => (tt, s)
  | op :: ops' => match op (br s) with Some b => try_ops ops' (mkSt (win s) b) | None => (tt, s) end
  end.

(** ** Cookies *)

Definition assign_cookie (c : cookie) : M B unit := fun s =>
  (tt, mkSt (win s) (set_cookie (now e) c (br s))).

Fixpoint assign_all (cs : list cookie) : M B unit :=
  match cs with [] => ret tt | c :: cs' => assign_cookie c ;; assign_all cs' end.

Definition expireCookieEverywhere (name : string) : M B unit :=
  assign_all (map (fun d => mkCookie name "" 0 d (https e)) ("" :: expire_domains (hostname e))).

Definition writeCookie (name v : string) (maxAgeSec : option Z) : M B unit :=
  let age := if v =s "" then 0 else default 86400 maxAgeSec in
  let c d := mkCookie name (encodeURIComponent v) age d (https e) in
  let pd := parentCookieDomain (hostname e) in
  assign_all (if pd =s "" then [c ""] else [c pd; c ""]).

(** The first part that starts with [name=]. *)
Fixpoint find_cookie (name : string) (parts : list string) : option string :=
  match parts with
  | [] => None
  | p :: ps =>
    let p := ltrim p in
    if starts_with (name +:+ "=") p then Some (sdrop (String.length name + 1) p) else find_cookie name ps
  end.

Definition read_text (name text : string) : string :=
  match find_cookie name (split_on ";" text) with
  | Some raw => default "" (decodeURIComponent raw)
  | None => ""
  end.

Definition readCookie (name : string) : M B string := fun s =>
  (read_text name (cookie_text (now e) (br s)), s).

(** ** Getters that migrate a legacy value *)

Definition ls_read (k : string) : M B string := fun s => (ls_get k (br s), s).

Definition lsGet (primary legacy : string) : M B string :=
  let* v := ls_read primary in
  if v <>s "" then ret v else
  if legacy =s "" then ret "" else
  let* v2 := ls_read legacy in
  if v2 =s "" then ret "" else
  try_ops [ls_set primary v2] ;; ret v2.

Definition ckGet (primary legacy : string) : M B string :=
  let* c := readCookie primary in
  if c <>s "" then ret c else
  if legacy =s "" then ret "" else
  let* c := readCookie legacy in
  if c =s "" then ret "" else
  writeCookie primary c (Some (86400 * 30)) ;; ret c.

(** ** Versions *)

Definition getCoolProductVersion : M B string :=
  let* v := lsGet PROD_VER_KEY PROD_VER_KEY_LEGACY in
  if v <>s "" then ret v else ckGet PROD_VER_COOKIE PROD_VER_COOKIE_LEGACY.

Definition setCoolProductVersion (v : string) (maxAgeSec : option Z) : M B unit :=
  try_ops (if v <>s "" then [ls_set PROD_VER_KEY v; ls_set PROD_VER_KEY_LEGACY v]
           else [ls_remove PROD_VER_KEY; ls_remove PROD_VER_KEY_LEGACY]) ;;
  let age := Some (default 86400 maxAgeSec) in
  writeCookie PROD_VER_COOKIE v age ;; writeCookie PROD_VER_COOKIE_LEGACY v age.

Definition getCycleProductVersion : M B string :=
  let* v := lsGet CYCLE_VER_KEY CYCLE_VER_KEY_LEGACY in
  if v <>s "" then ret v else ckGet CYCLE_VER_COOKIE CYCLE_VER_COOKIE_LEGACY.

Definition setCycleProductVersion (v : string) (maxAgeSec : option Z) : M B unit :=
  try_ops (if v <>s "" then [ls_set CYCLE_VER_KEY v; ls_set CYCLE_VER_KEY_LEGACY v]
           else [ls_remove CYCLE_VER_KEY; ls_remove CYCLE_VER_KEY_LEGACY]) ;;
  let age := Some (default 86400 maxAgeSec) in
  writeCookie CYCLE_VER_COOKIE v age ;; writeCookie CYCLE_VER_COOKIE_LEGACY v age.

(** ** Visitor terminal *)

Definition persistVt (v : string) : M B unit :=
  if negb (starts_with "vt_" v) then ret tt else
  try_ops [ls_set VT_KEY v; ls_set VT_KEY_LEGACY v] ;;
  writeCookie VT_COOKIE v (Some (86400 * 30)) ;;
  writeCookie VT_COOKIE_LEGACY v (Some (86400 * 30)).

Definition vt_ok (v : string) : bool := starts_with "vt_" v && (12 <=? String.length v)%nat.

Definition mintVt : string := "vt_" +:+ to_radix 36 (now e) +:+ "_" +:+ rand36 e.

(** [GROps.vtMint] of [ops_report.js], or [GROps.report] *)
Definition report_vt (nid : string) (w : Win) : Win :=
  let d := [("reason", VStr "fresh_local"); ("vt_mint_reason", VStr "fresh_local")] in
  if truthy (prop (gget "GROps" w) "vtMint")
  then ops_report "vt_mint" "lifecycle" (d ++ [("vt", VStr (stake 64 nid)); ("source", VStr "storage")]) "info" w
  else ops_report "vt_mint" "storage" (d ++ [("vt", VStr nid)]) "info" w.

Definition getVt : M B string :=
  let* v := lsGet VT_KEY VT_KEY_LEGACY in
  if vt_ok v then persistVt v ;; ret v else
  let* ck := ckGet VT_COOKIE VT_COOKIE_LEGACY in
  if vt_ok ck then persistVt ck ;; ret ck else
  persistVt mintVt ;; modify (report_vt mintVt) ;; ret mintVt.

Definition adoptVt (serverVt : string) : M B string :=
  if negb (starts_with "vt_" serverVt) then getVt else persistVt serverVt ;; ret serverVt.

(** ** Cycle *)

Definition cycle_ok (c : string) : bool := starts_with "cycle_" c && (12 <=? String.length c)%nat.

(** [null] is [""]. *)
Definition getCycleId : M B string :=
  let* c := lsGet CYCLE_KEY CYCLE_KEY_LEGACY in
  if (8 <=? String.length c)%nat then ret c else
  let* n1 := asks (fun w => scopedCookieName w CYCLE_COOKIE) in
  let* n2 := asks (fun w => scopedCookieName w CYCLE_COOKIE_LEGACY) in
  let* scoped := ckGet n1 n2 in
  if cycle_ok scoped then ret scoped else
  let* tok := asks siteToken in
  if tok =s "" then
    let* ck := ckGet CYCLE_COOKIE CYCLE_COOKIE_LEGACY in
    if cycle_ok ck then ret ck else ret ""
  else ret "".

(** [writeCookie(scopedCookieName(name), v, age)] *)
Definition writeScoped (name v : string) (age : option Z) : M B unit :=
  let* n := asks (fun w => scopedCookieName w name) in writeCookie n v age.

Definition setCycleId (id productVersion : string) : M B unit :=
  if id =s "" then ret tt else
  try_ops [ls_set CYCLE_KEY id; ls_set CYCLE_KEY_LEGACY id] ;;
  writeScoped CYCLE_COOKIE id (Some 86400) ;;
  writeScoped CYCLE_COOKIE_LEGACY id (Some 86400) ;;
  expireCookieEverywhere CYCLE_COOKIE ;;
  expireCookieEverywhere CYCLE_COOKIE_LEGACY ;;
  let* ver := asks (resolveProductVersion productVersion) in
  if ver <>s "" then setCycleProductVersion ver (Some 86400) else ret tt.

Definition clearCycleId : M B unit :=
  try_ops [ls_remove CYCLE_KEY; ls_remove CYCLE_KEY_LEGACY] ;;
  writeScoped CYCLE_COOKIE "" (Some 0) ;;
  writeScoped CYCLE_COOKIE_LEGACY "" (Some 0) ;;
  expireCookieEverywhere CYCLE_COOKIE ;;
  expireCookieEverywhere CYCLE_COOKIE_LEGACY ;;
  setCycleProductVersion "" (Some 0).

Definition mintCycleId : string := "cycle_" +:+ to_radix 16 (now e) +:+ rand16 e.

(** ** Cool-down *)

Definition getCoolUntil : M B Z :=
  let* t := lsGet COOL_KEY COOL_KEY_LEGACY in
  let n := parse_int0 (sor t "0") in
  if negb (n =? 0) then ret n else
  let* n1 := asks (fun w => scopedCookieName w COOL_COOKIE) in
  let* n2 := asks (fun w => scopedCookieName w COOL_COOKIE_LEGACY) in
  let* ck := ckGet n1 n2 in
  let* tok := asks siteToken in
  let* ck := (if (ck =s "") && (tok =s "") then ckGet COOL_COOKIE COOL_COOKIE_LEGACY else ret ck) in
  let m := parse_int0 ck in
  ret (if 0 <? m then m else n).

Definition cool_max_age (n : Z) : Z :=
  if now e <? n then Z.max 60 ((n - now e) / 1000) else 0.

Definition setCoolUntil (n : Z) (productVersion : string) : M B unit :=
  let v := if n =? 0 then "" else Z_to_string n in
  try_ops (if negb (n =? 0) then [ls_set COOL_KEY v; ls_set COOL_KEY_LEGACY v]
           else [ls_remove COOL_KEY; ls_remove COOL_KEY_LEGACY]) ;;
  writeScoped COOL_COOKIE v (Some (cool_max_age n)) ;;
  writeScoped COOL_COOKIE_LEGACY v (Some (cool_max_age n)) ;;
  expireCookieEverywhere COOL_COOKIE ;;
  expireCookieEverywhere COOL_COOKIE_LEGACY ;;
  if now e <? n then
    let* ver := asks (resolveProductVersion productVersion) in
    if ver <>s "" then setCoolProductVersion ver (Some (cool_max_age n)) else ret tt
  else setCoolProductVersion "" (Some 0).

Definition clearCoolIfExpired : M B bool :=
  let* until := getCoolUntil in
  if (0 <? until) && (until <=? now e) then setCoolUntil 0 "" ;; ret true else ret false.

(** [global.__GR_KICK_MS__ = global.__GR_KICK_MS__ || {}; global.__GR_KICK_MS__.k = v] *)
Definition kick_ms (k : string) (v : val) (w : Win) : Win :=
  gset "__GR_KICK_MS__" (put k v (jor (gget "__GR_KICK_MS__" w) empty_obj)) w.

(** The UTF-8 bytes of the arrow. *)
Definition arrow : string :=
  String (ascii_of_N 226) (String (ascii_of_N 134) (String (ascii_of_N 146) EmptyString)).

Definition clearCoolIfVersionMismatch (productVersion : string) : M B bool :=
  let* cur := asks (resolveProductVersion productVersion) in
  if cur =s "" then ret false else
  let* until := getCoolUntil in
  if negb (now e <? until) then ret false else
  let* stored := getCoolProductVersion in
  if (stored =s "") || (stored <>s cur) then
    setCoolUntil 0 "" ;;
    clearCycleId ;;
    modify (fun w => w |> kick_ms "cool_cleared_version" (VStr (sor stored "(none)" +:+ arrow +:+ cur))
                       |> kick_ms "cycle_cleared_version" (VBool true)) ;;
    ret true
  else ret false.

Definition isCoolActive (productVersion : string) : M B bool :=
  clearCoolIfExpired ;;
  clearCoolIfVersionMismatch productVersion ;;
  let* until := getCoolUntil in
  if negb (now e <? until) then ret false else
  let* cur := asks (resolveProductVersion productVersion) in
  if cur =s "" then ret true else
  let* stored := getCoolProductVersion in
  ret ((stored <>s "") && (stored =s cur)).

(** ** The page gate *)

Record probe_state := mkProbeState {
  ps_coolActive : bool;
  ps_cycleId : string;
  ps_reminted : bool;
  ps_coolCleared : bool;
  ps_reason : string
}.

(** [ver || null], [String(ver || "dev")] *)
Definition ver_val (ver : string) : val := if ver =s "" then VNull else VStr ver.
Definition tab_key (ver : string) : string := "gr_page_cycle_" +:+ sor ver "dev".
Definition remint_key (ver : string) : string := "gr_remint_reported_" +:+ sor ver "dev".

Definition note_state (o : probe_state) (ver : string) : Win -> Win :=
  kick_ms "probe_state" (VObj [("reminted", VBool (ps_reminted o)); ("coolCleared", VBool (ps_coolCleared o));
                               ("reason", VStr (ps_reason o)); ("version", ver_val ver)]).

(** Cool-down and cycle of another version are dropped: whether cool was
    cleared, whether the cycle was, and the reason. *)
Definition align_version (ver : string) : M B (bool * bool * string) :=
  if ver =s "" then ret (false, false, "") else
  let* coolCleared := clearCoolIfVersionMismatch ver in
  let reason := if coolCleared then "product_version_mismatch" else "" in
  let* cycVer := getCycleProductVersion in
  let* cyc := getCycleId in
  if (cyc <>s "") && (cycVer <>s "") && (cycVer <>s ver) then
    clearCycleId ;; ret (coolCleared, true, sor reason "cycle_version_mismatch")
  else if (cyc <>s "") && (cycVer =s "") then
    clearCycleId ;; ret (coolCleared, true, sor reason "cycle_unstamped_legacy")
  else ret (coolCleared, false, reason).

(** The cycle of the micro-kick, when the page has one. *)
Definition micro_sid (w : Win) : string :=
  let sid := to_string (jor (gget "__GR_CYCLE_HINT__" w) (jor (gget "__GR_SESSION_ID__" w) (VStr ""))) in
  if gtrue "__GR_MICRO_KICK__" w && cycle_ok sid then sid else "".

(** The cycle minted earlier on the same page. *)
Definition page_mint (w : Win) : string :=
  let c := to_string (gget "__GR_PAGE_CYCLE_MINTED__" w) in
  if gtrue "__GR_PAGE_CYCLE_MINTED__" w && cycle_ok c then c else "".

Definition ss_read (k : string) : M B string := fun s => (ss_get k (br s), s).

(** At most one remint report per tab and version. *)
Definition report_remint (reason ver : string) : M B unit :=
  let* seen := ss_read (remint_key ver) in
  if seen =s "1" then ret tt else
  try_ops [ss_set (remint_key ver) "1"] ;;
  modify (fun w =>
    let d := [("reason", VStr reason); ("version", ver_val ver)] in
    let sev := if (reason =s "fresh_cycle") || (reason =s "session_storage_page_budget") then "info" else "warn" in
    ops_report "cycle_remint"
      (if truthy (prop (gget "GROps" w) "cycleRemint") then "lifecycle" else "storage") d sev w).

Definition fresh_cycle (ver reason : string) (coolCleared : bool) : M B probe_state :=
  let nid := mintCycleId in
  modify (gset "__GR_PAGE_CYCLE_MINTED__" (VStr nid)) ;;
  try_ops [ss_set (tab_key ver) nid] ;;
  setCycleId nid ver ;;
  let out := mkProbeState false nid true coolCleared (sor reason "fresh_cycle") in
  modify (note_state out ver) ;;
  report_remint (ps_reason out) ver ;;
  ret out.

(** Resume a cycle of this version, a cycle of this page or tab, or mint one. *)
Definition choose_cycle (ver reason : string) (coolCleared reminted : bool) : M B probe_state :=
  let* micro := asks micro_sid in
  if micro <>s "" then
    setCycleId micro ver ;; ret (mkProbeState false micro reminted coolCleared (sor reason "micro_kick_join"))
  else
  let* sticky := getCycleId in
  let* stickyVer := getCycleProductVersion in
  if cycle_ok sticky && ((ver =s "") || (stickyVer =s "") || (stickyVer =s ver)) then
    (if (ver <>s "") && (stickyVer =s "") then setCycleProductVersion ver (Some 86400) else ret tt) ;;
    let out := mkProbeState false sticky false coolCleared (sor reason "resume_incomplete_sticky") in
    modify (note_state out ver) ;; ret out
  else
  let* pageC := asks page_mint in
  if pageC <>s "" then
    setCycleId pageC ver ;; ret (mkProbeState false pageC false coolCleared (sor reason "page_mint_budget"))
  else
  let* tabMint := ss_read (tab_key ver) in
  if cycle_ok tabMint then
    setCycleId tabMint ver ;;
    modify (gset "__GR_PAGE_CYCLE_MINTED__" (VStr tabMint)) ;;
    ret (mkProbeState false tabMint false coolCleared (sor reason "session_storage_page_budget"))
  else fresh_cycle ver reason coolCleared.

Definition ensureProbeStateForVersion (productVersion : string) : M B probe_state :=
  let* ver := asks (resolveProductVersion productVersion) in
  clearCoolIfExpired ;;
  let* a := align_version ver in
  let '(coolCleared, reminted, reason) := a in
  let* cool := isCoolActive ver in
  if cool then let* c := getCycleId in ret (mkProbeState true c reminted coolCleared reason)
  else choose_cycle ver reason coolCleared reminted.

(** ** Storage bind *)

Definition getStorageBind : M B string :=
  let* b := lsGet BIND_KEY "" in
  if b <>s "" then ret b else ckGet BIND_COOKIE "".

Definition setStorageBind (v : string) (maxAgeSec : option Z) : M B unit :=
  try_ops [if v <>s "" then ls_set BIND_KEY v else ls_remove BIND_KEY] ;;
  writeCookie BIND_COOKIE v (Some (default 86400 maxAgeSec)).

(** ** Fuzzy helper data *)

(** What [a.length] and [a[i]] yield for [i < 256]: the elements of an array,
    the characters of a string, the numbered members of an object with a
    [length]. *)
Definition chars_of (s : string) : list val := map (fun c => VStr (String c "")) (String.list_ascii_of_string s).

Definition indexed (v : val) : list val :=
  match v with
  | VArr l => firstn 256 l
  | VStr s => firstn 256 (chars_of s)
  | VObj o =>
    let n := match to_num (assoc "length" o) with
             | Fin q => Z.to_nat (Z.min 256 (Qceiling q))
             | Inf false => 256%nat
             | _ => 0%nat
             end in
    map (fun i => assoc (Z_to_string (Z.of_nat i)) o) (seq 0 n)
  | _ => []
  end.

(** Every element a number in [0, 65535], rounded down. *)
Fixpoint sanitize_elems (l : list val) : option (list val) :=
  match l with
  | x :: l' =>
    let n := to_num x in
    if negb (num_isfinite n) || num_ltb n (num_Z 0) || num_ltb (num_Z 65535) n then None
    else option_map (cons (VNum (num_floor n))) (sanitize_elems l')
  | [] => Some []
  end.

(** [None] is [null]. *)
Definition sanitizeHelperArr (a : val) : option (list val) :=
  match sanitize_elems (indexed a) with
  | Some (x :: l) => Some (x :: l)
  | _ => None
  end.

Definition opt_arr (o : option (list val)) : val := match o with Some l => VArr l | None => VNull end.

Definition helper_obj (wg au : option (list val)) (ts : val) : val :=
  VObj [("v", vint 1); ("wg", opt_arr wg); ("au", opt_arr au); ("ts", ts)].

(** [v === 1] *)
Definition is_one (v : val) : bool := match v with VNum n => num_eqb n (num_Z 1) | _ => false end.

(** [j.ts && Date.now() - j.ts > FUZZY_HELPER_MAX_AGE_MS] *)
Definition num_sub (a b : num) : num :=
  match a, b with
  | Fin p, Fin q => Fin (Qminus p q)
  | Fin _, Inf s => Inf (negb s)
  | _, _ => NaN
  end.

Definition helper_stale (ts : val) : bool :=
  truthy ts && num_ltb (num_Z FUZZY_HELPER_MAX_AGE_MS) (num_sub (num_Z (now e)) (to_num ts)).

(** [null] is [None]. *)
Definition helper_of (j : val) : option val :=
  if negb (truthy j) || negb (is_one (prop j "v")) then None else
  if helper_stale (prop j "ts") then None else
  match sanitizeHelperArr (prop j "wg"), sanitizeHelperArr (prop j "au") with
  | None, None => None
  | wg, au => Some (helper_obj wg au (jor (prop j "ts") (vint 0)))
  end.

Definition getFuzzyHelper : M B (option val) := fun s =>
  let raw := ls_get FUZZY_HELPER_KEY (br s) in
  (if raw =s "" then None else match json_parse raw with Some j => helper_of j | None => None end, s).

Definition setFuzzyHelper (h : val) : M B bool := fun s =>
  if negb (truthy h) || negb (is_one (prop h "v")) then (false, s) else
  match sanitizeHelperArr (prop h "wg"), sanitizeHelperArr (prop h "au") with
  | None, None => (false, s)
  | wg, au =>
    match ls_set FUZZY_HELPER_KEY (default "" (json_stringify (helper_obj wg au (vint (now e))))) (br s) with
    | Some b => (true, mkSt (win s) b)
    | None => (false, s)
    end
  end.

End Storage.

Definition cacheBust (url version : string) : string :=
  if version =s "" then url
  else url +:+ (if contains "?" url then "&" else "?") +:+ "v=" +:+ encodeURIComponent version.

(** ** Examples *)

Definition env1 : env := mkEnv 1700000000000 "shop.example.com" true "4fzyo82m" "8a3f2c91".
Definition br1 : mem := mkMem (Some ∅) (Some ∅) "shop.example.com" true [].
Definition st1 : st mem := mkSt win0 br1.

(** The stores when tracking prevention blocks [localStorage]. *)
Definition br_ck : mem := mkMem None None "shop.example.com" true [].
Definition win_site : Win := gset "__GR_SITE_ID__" (VStr "s1") win0.

Example parentCookieDomain_ex :
  parentCookieDomain "www.example.com" = ".example.com" /\ parentCookieDomain "a.shop.com.cn" = ".shop.com.cn" /\
  parentCookieDomain "10.0.0.1" = "" /\ parentCookieDomain "box.local" = "" /\ parentCookieDomain "localhost" = "".
Proof. repeat split. Qed.

Example ensure_ex :
  fst (ensureProbeStateForVersion env1 "1.2.3" st1) =
    mkProbeState false "cycle_18bcfe568008a3f2c91" true false "fresh_cycle".
Proof. vm_compute. reflexivity. Qed.

Example ensure_twice :
  let '(o, s) := ensureProbeStateForVersion env1 "1.2.3" st1 in
  fst (ensureProbeStateForVersion env1 "1.2.3" s) =
    mkProbeState false (ps_cycleId o) false false "resume_incomplete_sticky".
Proof. vm_compute. reflexivity. Qed.

Example ensure_cookies :
  let '(o, s) := ensureProbeStateForVersion env1 "1.2.3" (mkSt win_site br_ck) in
  fst (ensureProbeStateForVersion env1 "1.2.3" s) =
    mkProbeState false (ps_cycleId o) false false "resume_incomplete_sticky".
Proof. vm_compute. reflexivity. Qed.
