(* ===== verification/StorageSpec.v ===== *)
(** * What the storage module promises

    Through a browser that keeps what it is given ([good]: [localStorage]
    works, or it is blocked and the page has a site token for its cookies), the
    functions of [Storage] act on four values, [abs]: the cool-until time and
    the version it holds for, the cycle and the version it is stamped with.
    [ensure_refines] shows that the page gate is [spec_ensure] on them. *)

From Stdlib Require Import QArith Qround.
From S2P Require Import Prelude JsVal Uri Window Browser Json Storage.
#[local] Open Scope Z_scope.

(** ** Texts *)

Lemma jar_of_cons n e l :
  jar_of n (e :: l) = if e_name e =s n then e_raw e :: jar_of n l else jar_of n l.
Proof. unfold jar_of. simpl. by destruct (e_name e =s n). Qed.

Lemma find_cookie_entries n l : name_ok n = true -> forallb entry_ok l = true ->
  forall ps, map ltrim ps = map entry_text l -> find_cookie n ps = head (jar_of n l).
Proof.
  intros Hn. induction l as [|e l IH]; intros Hl [|p ps] Hp; simpl in Hp; try done.
  simpl in Hl. breflect. injection Hp as Hp Hps. cbn [find_cookie]. rewrite Hp, jar_of_cons.
  rewrite entry_prefix by done. destruct (String.eqb_spec (e_name e) n) as [<-|].
  - simpl. f_equal. unfold entry_text.
    replace (String.length (e_name e) + 1)%nat with (String.length (e_name e +:+ "=")).
    + rewrite <- append_assoc. apply sdrop_app.
    + rewrite Json.string_length_app. done.
  - by apply IH.
Qed.

Lemma find_cookie_jar n l : name_ok n = true -> forallb entry_ok l = true ->
  find_cookie n (split_on ";" (jar_text l)) = head (jar_of n l).
Proof.
  intros Hn Hl. destruct l as [|e l].
  - by destruct n.
  - apply find_cookie_entries; [done..|]. by apply split_jar_text.
Qed.

Section Stores.
Context {B : Type} `{BrowserLaws B}.
Variable e : env.

Abbreviation pd := (parentCookieDomain (hostname e)).

(** The cookie named [n] as the page reads it. *)
Definition ck (n : string) (s : st B) : string := read_text n (cookie_text (now e) (br s)).

Lemma read_text_jar t n b : name_ok n = true ->
  read_text n (cookie_text t b) =
  match jar_of n (jar t b) with raw :: _ => default "" (decodeURIComponent raw) | [] => "" end.
Proof.
  intros Hn. destruct (cookie_text_law t b) as [-> Hok]. unfold read_text.
  rewrite find_cookie_jar by done. by destruct (jar_of n (jar t b)).
Qed.

(** Every cookie of the name holds [v], and there is one unless [v] is empty. *)
Definition holds (n v : string) (l : list entry) : Prop :=
  (forall en, In en l -> e_name en = n -> v <> "" /\ e_raw en = encodeURIComponent v) /\
  (v <> "" -> exists en, In en l /\ e_name en = n).

Lemma read_text_holds t n v b : name_ok n = true -> holds n v (jar t b) ->
  read_text n (cookie_text t b) = v.
Proof.
  intros Hn [Hall Hex]. rewrite read_text_jar by done. unfold jar_of.
  destruct (List.filter (fun en => e_name en =s n) (jar t b)) as [|en l] eqn:Hf; simpl.
  - destruct (String.eqb_spec v "") as [->|Hv]; [done|]. destruct (Hex Hv) as (en & Hin & Hen).
    assert (In en []) as []. rewrite <- Hf. apply filter_In. split; [done|]. by apply String.eqb_eq.
  - assert (In en (en :: l)) as Hin by (by left). rewrite <- Hf in Hin. apply filter_In in Hin as [Hin Hen].
    apply String.eqb_eq in Hen. destruct (Hall en Hin Hen) as [_ ->]. by rewrite decode_encode.
Qed.

Lemma set_cookie_in t t' c b en : t <= t' -> In en (jar t' (set_cookie t c b)) ->
  In en (jar t' b) \/
  (same_key c en = true /\ e_raw en = ck_raw c /\ t' < t + 1000 * ck_age c).
Proof.
  intros Ht Hin. destruct (same_key c en) eqn:Hk.
  - destruct (ck_ok c b) eqn:Hok.
    + apply (set_cookie_accept t c b Hok t' en Ht Hk) in Hin as [? ?]. by right.
    + rewrite set_cookie_reject in Hin by done. by left.
  - left. destruct (set_cookie_frame t c b) as (_ & _ & _ & Hf). specialize (Hf t' Ht).
    assert (In en (List.filter (fun en => negb (same_key c en)) (jar t' (set_cookie t c b)))) as Hf'
      by (apply filter_In; by rewrite Hk).
    rewrite Hf in Hf'. by apply filter_In in Hf' as [? _].
Qed.

Lemma set_cookie_keep t t' c b en : t <= t' -> same_key c en = false ->
  In en (jar t' b) -> In en (jar t' (set_cookie t c b)).
Proof.
  intros Ht Hk Hin. destruct (set_cookie_frame t c b) as (_ & _ & _ & Hf). specialize (Hf t' Ht).
  assert (In en (List.filter (fun en => negb (same_key c en)) (jar t' b))) as Hf'
    by (apply filter_In; by rewrite Hk).
  rewrite <- Hf in Hf'. by apply filter_In in Hf' as [? _].
Qed.

(** ** Good browsers *)

Definition rules (s s' : st B) : Prop := same_rules (br s) (br s').

#[local] Instance rules_pre : PreOrder rules.
Proof.
  split.
  - intros s. repeat split.
  - intros s1 s2 s3 (a1 & a2 & a3 & a4) (b1 & b2 & b3 & b4). unfold rules, same_rules.
    repeat split; try congruence; intros c; by rewrite b4, a4.
Qed.

(** At the time of the call the page's cookies are host-only or of its parent
    domain, and cookies of both kinds are accepted. *)
Record good (s : st B) : Prop := {
  g_mode : ls_ok (br s) = true \/ ls_off (br s) = true;
  g_accept : forall c, name_ok (ck_name c) = true -> no_char ";" (ck_raw c) = true ->
    (ck_domain c = "" \/ ck_domain c = pd) -> ck_ok c (br s) = true;
  g_tidy : forall en, In en (jar (now e) (br s)) -> e_dom en = "" \/ e_dom en = pd
}.

(** The effect of an operation on cookies alone. *)
Record ck_step (s s' : st B) : Prop := {
  cs_win : win s' = win s;
  cs_ls : forall k, ls_get k (br s') = ls_get k (br s);
  cs_ss : forall k, ss_get k (br s') = ss_get k (br s);
  cs_rules : rules s s';
  cs_tidy : forall en t, now e <= t -> In en (jar t (br s')) ->
    In en (jar t (br s)) \/ e_dom en = "" \/ e_dom en = pd
}.

#[local] Instance ck_step_pre : PreOrder ck_step.
Proof.
  split.
  - intros s. split; try done. by left.
  - intros s1 s2 s3 [w l ss r t] [w' l' ss' r' t']. split.
    + congruence.
    + intros k. by rewrite l', l.
    + intros k. by rewrite ss', ss.
    + by etrans.
    + intros en x Hx Hin. destruct (t' en x Hx Hin); eauto.
Qed.

Lemma good_ck_step s s' : ck_step s s' -> good s -> good s'.
Proof.
  intros [w l ss (r1 & r2 & r3 & r4) t] [Hm Ha Ht]. split.
  - by rewrite r1, r2.
  - intros c. rewrite r4. apply Ha.
  - intros en Hin. destruct (t en (now e) ltac:(lia) Hin); eauto.
Qed.

Definition assign (c : cookie) (s : st B) : st B := mkSt (win s) (set_cookie (now e) c (br s)).

Lemma assign_all_fold cs s : assign_all e cs s = (tt, foldl (fun s c => assign c s) s cs).
Proof. revert s. induction cs as [|c cs IH]; intros s; [done|]. cbn. by rewrite IH. Qed.

Lemma assign_step c s : (ck_domain c = "" \/ ck_domain c = pd \/ ck_age c <= 0) -> ck_step s (assign c s).
Proof.
  intros Hd. destruct (set_cookie_frame (now e) c (br s)) as (Hl & Hs & Hr & _). split; try done.
  intros en t Ht Hin. apply set_cookie_in in Hin as [|(Hk & _ & Hx)]; [by left| |done].
  unfold same_key in Hk. breflect. right. destruct Hd as [|[|]]; [left; congruence|right; congruence|lia].
Qed.

Lemma assign_other t c s n : name_ok n = true -> n <> ck_name c -> now e <= t ->
  read_text n (cookie_text t (br (assign c s))) = read_text n (cookie_text t (br s)).
Proof. intros Hn Hc Ht. rewrite !read_text_jar by done. simpl. by rewrite jar_of_frame. Qed.

Definition assigns (cs : list cookie) (s : st B) : st B := foldl (fun s c => assign c s) s cs.

Lemma assign_ck_ok c c' s : ck_ok c' (br (assign c s)) = ck_ok c' (br s).
Proof. destruct (set_cookie_frame (now e) c (br s)) as (_ & _ & (_ & _ & _ & Hr) & _). apply Hr. Qed.

(** Where an entry of the jar after some assignments comes from. *)
Lemma assigns_in cs s t en : now e <= t -> In en (jar t (br (assigns cs s))) ->
  (In en (jar t (br s)) /\ forall c, In c cs -> ck_ok c (br s) = true -> same_key c en = false) \/
  exists c, In c cs /\ same_key c en = true /\ e_raw en = ck_raw c /\ t < now e + 1000 * ck_age c.
Proof.
  intros Ht. unfold assigns. revert s. induction cs as [|c cs IH]; intros s Hin; [by left|].
  simpl in Hin. destruct (IH _ Hin) as [[Hin' Hk]|(c' & Hc' & Hx)]; [|by right; exists c'; split; [right|]].
  destruct (same_key c en) eqn:Hce.
  - destruct (ck_ok c (br s)) eqn:Hok.
    + apply (set_cookie_accept (now e) c (br s) Hok t en Ht Hce) in Hin' as [? ?].
      right. exists c. by split; [left|].
    + simpl in Hin'. rewrite set_cookie_reject in Hin' by done. left. split; [done|].
      intros c' [<-|Hc'] Hok'; [congruence|]. apply Hk; [done|]. by rewrite assign_ck_ok.
  - apply set_cookie_in in Hin' as [|(? & _)]; [|congruence|done]. left. split; [done|].
    intros c' [<-|Hc'] Hok'; [done|]. apply Hk; [done|]. by rewrite assign_ck_ok.
Qed.

Lemma assigns_step cs s :
  (forall c, In c cs -> ck_domain c = "" \/ ck_domain c = pd \/ ck_age c <= 0) -> ck_step s (assigns cs s).
Proof.
  unfold assigns. revert s. induction cs as [|c cs IH]; intros s Hc; [done|]. simpl.
  etrans; [apply assign_step; apply Hc; by left|]. apply IH. intros c' Hc'. apply Hc. by right.
Qed.

Lemma assigns_other cs s t n : name_ok n = true -> (forall c, In c cs -> n <> ck_name c) -> now e <= t ->
  read_text n (cookie_text t (br (assigns cs s))) = read_text n (cookie_text t (br s)).
Proof.
  intros Hn Hc Ht. unfold assigns. revert s. induction cs as [|c cs IH]; intros s; [done|]. simpl.
  rewrite IH by (intros c' Hc'; apply Hc; by right). apply assign_other; [done| |done]. apply Hc. by left.
Qed.

(** *** Writing a cookie *)

Definition write_cookies (n v : string) (maxAgeSec : option Z) : list cookie :=
  let age := if v =s "" then 0 else default 86400 maxAgeSec in
  let c d := mkCookie n (encodeURIComponent v) age d (https e) in
  if pd =s "" then [c ""] else [c pd; c ""].

Lemma writeCookie_assigns n v age s :
  writeCookie e n v age s = (tt, assigns (write_cookies n v age) s).
Proof. unfold writeCookie, write_cookies, assigns. apply assign_all_fold. Qed.

Lemma write_cookies_in n v age c : In c (write_cookies n v age) ->
  ck_name c = n /\ ck_raw c = encodeURIComponent v /\
  ck_age c = (if v =s "" then 0 else default 86400 age) /\ (ck_domain c = "" \/ ck_domain c = pd).
Proof.
  unfold write_cookies. destruct (pd =s "") eqn:E; simpl; intros Hc;
    repeat destruct Hc as [<-|Hc]; simpl; auto; done.
Qed.

Lemma semicolon_free v : no_char ";" (encodeURIComponent v) = true.
Proof. by apply encode_free. Qed.

(** What a name reads as after a write, at that time or later. *)
Lemma write_holds n v age s t : name_ok n = true -> now e <= t ->
  (forall c, In c (write_cookies n v (Some age)) -> ck_ok c (br s) = true) ->
  (forall en, In en (jar t (br s)) -> e_name en = n -> e_dom en = "" \/ e_dom en = pd) ->
  holds n (if t <? now e + 1000 * age then v else "") (jar t (br (assigns (write_cookies n v (Some age)) s))).
Proof.
  intros Hn Ht Hok Hdom. split.
  - intros en Hin Hen. apply assigns_in in Hin as [[Hin Hk]|(c & Hc & Hk & Hr & Hx)]; [|..|done].
    + exfalso. specialize (Hdom en Hin Hen).
      assert (forall d, e_dom en = d -> In (mkCookie n (encodeURIComponent v)
        (if v =s "" then 0 else age) d (https e)) (write_cookies n v (Some age)) -> False) as Hno.
      { intros d <- Hc. specialize (Hk _ Hc (Hok _ Hc)). unfold same_key in Hk. simpl in Hk.
        rewrite Hen, !String.eqb_refl in Hk. done. }
      unfold write_cookies in Hno. destruct (String.eqb_spec pd "") as [Hpd|Hpd].
      * apply (Hno ""); [destruct Hdom; congruence|by left].
      * destruct Hdom as [Hd|Hd]; [apply (Hno "" Hd)|apply (Hno pd Hd)]; simpl; auto.
    + apply write_cookies_in in Hc as (_ & Hcr & Hca & _). rewrite Hca in Hx. simpl in Hx.
      destruct (String.eqb_spec v "") as [->|Hv]; [lia|]. destruct (Z.ltb_spec t (now e + 1000 * age)); [|lia].
      split; congruence.
  - intros Hv. destruct (Z.ltb_spec t (now e + 1000 * age)) as [Hx|]; [|done].
    exists (mkEntry "" n (encodeURIComponent v)). split; [|done].
    assert (exists cs c, write_cookies n v (Some age) = cs ++ [c] /\
      c = mkCookie n (encodeURIComponent v) (if v =s "" then 0 else age) "" (https e)) as (cs & c & Hcs & Hc).
    { unfold write_cookies. destruct (pd =s ""); [by eexists [], _|by eexists [_], _]. }
    rewrite Hcs in *. unfold assigns. rewrite foldl_app. simpl.
    apply set_cookie_accept; [|done|subst c; unfold same_key; simpl; by rewrite String.eqb_refl|].
    + assert (forall cs s, ck_ok c (br (foldl (fun s c => assign c s) s cs)) = ck_ok c (br s)) as ->.
      { clear. induction cs as [|c' cs IH]; intros s; [done|]. simpl. rewrite IH. apply assign_ck_ok. }
      apply Hok. apply in_app_iff. right. by left.
    + subst c. simpl. destruct (String.eqb_spec v ""); [done|]. split; [done|lia].
Qed.

Lemma write_accepted n v age s : name_ok n = true -> good s ->
  forall c, In c (write_cookies n v age) -> ck_ok c (br s) = true.
Proof.
  intros Hn Hg c Hc. apply write_cookies_in in Hc as (<- & Hr & _ & Hd).
  apply (g_accept s Hg); [done| |done]. rewrite Hr. apply semicolon_free.
Qed.

Lemma write_step n v age s : ck_step s (assigns (write_cookies n v age) s).
Proof. apply assigns_step. intros c Hc. apply write_cookies_in in Hc as (_ & _ & _ & []); auto. Qed.

(** After a write the name reads as the value, if it lives at all. *)
Lemma write_ck n v age s : name_ok n = true -> good s -> (v <> "" -> 0 < age) ->
  ck n (assigns (write_cookies n v (Some age)) s) = v.
Proof.
  intros Hn Hg Hv. apply read_text_holds; [done|].
  pose proof (write_holds n v age s (now e) Hn ltac:(lia) (write_accepted n v (Some age) s Hn Hg)) as Hh.
  destruct (String.eqb_spec v "") as [->|Hne].
  - destruct (now e <? _); apply Hh; intros en Hin _; by apply (g_tidy s Hg).
  - destruct (Z.ltb_spec (now e) (now e + 1000 * age)); [|specialize (Hv Hne); lia].
    apply Hh. intros en Hin _. by apply (g_tidy s Hg).
Qed.

Lemma write_ck_other n v age s n' : name_ok n' = true -> n' <> n ->
  ck n' (assigns (write_cookies n v age) s) = ck n' s.
Proof.
  intros Hn' Hne. apply assigns_other; [done| |lia].
  intros c Hc. by apply write_cookies_in in Hc as (-> & _).
Qed.

(** *** Expiring a cookie *)

Definition expired (n : string) : list cookie :=
  map (fun d => mkCookie n "" 0 d (https e)) ("" :: expire_domains (hostname e)).

Lemma expire_assigns n s : expireCookieEverywhere e n s = (tt, assigns (expired n) s).
Proof. apply assign_all_fold. Qed.

Lemma expired_in n c : In c (expired n) -> ck_name c = n /\ ck_age c = 0.
Proof. unfold expired. rewrite in_map_iff. by intros (d & <- & _). Qed.

Lemma expire_step n s : ck_step s (assigns (expired n) s).
Proof. apply assigns_step. intros c Hc. apply expired_in in Hc as [_ ->]. right. right. done. Qed.

Lemma expire_ck_other n s n' : name_ok n' = true -> n' <> n -> ck n' (assigns (expired n) s) = ck n' s.
Proof. intros Hn' Hne. apply assigns_other; [done| |lia]. intros c Hc. by apply expired_in in Hc as [-> _]. Qed.

Lemma expire_ck n s : pd = "" \/ In pd (expire_domains (hostname e)) -> name_ok n = true -> good s ->
  ck n (assigns (expired n) s) = "".
Proof.
  intros Hpd Hn Hg. apply read_text_holds; [done|]. split; [|done]. intros en Hin Hen. exfalso.
  apply assigns_in in Hin as [[Hin Hk]|(c & Hc & _ & _ & Hx)]; [|..|lia].
  - assert (In (e_dom en) ("" :: expire_domains (hostname e))) as Hd.
    { destruct (g_tidy s Hg en Hin) as [->| ->]; [by left|]. destruct Hpd as [->|]; [by left|by right]. }
    assert (same_key (mkCookie n "" 0 (e_dom en) (https e)) en = false) as Hno.
    { apply Hk; [unfold expired; by apply (in_map (fun d => mkCookie n "" 0 d (https e)))|].
      apply (g_accept s Hg); [done|done|]. by apply (g_tidy s Hg). }
    unfold same_key in Hno. simpl in Hno. by rewrite Hen, !String.eqb_refl in Hno.
  - apply expired_in in Hc as [_ Ha]. rewrite Ha in Hx. lia.
Qed.

(** ** [localStorage] *)

Definition ls_op (o : string * option string) : B -> option B :=
  match snd o with Some v => ls_set (fst o) v | None => ls_remove (fst o) end.

(** The effect of an operation on [localStorage] alone. *)
Record ls_step (s s' : st B) : Prop := {
  lst_win : win s' = win s;
  lst_ss : forall k, ss_get k (br s') = ss_get k (br s);
  lst_jar : forall t, jar t (br s') = jar t (br s);
  lst_rules : rules s s'
}.

#[local] Instance ls_step_pre : PreOrder ls_step.
Proof.
  split; [done|]. intros s1 s2 s3 [w ss j r] [w' ss' j' r']. split.
  - congruence.
  - intros k. by rewrite ss', ss.
  - intros t. by rewrite j', j.
  - by etrans.
Qed.

Lemma good_ls_step s s' : ls_step s s' -> good s -> good s'.
Proof.
  intros [w ss j (r1 & r2 & r3 & r4)] [Hm Ha Ht]. split.
  - by rewrite r1, r2.
  - intros c. rewrite r4. apply Ha.
  - intros en. rewrite j. apply Ht.
Qed.

Lemma ls_step_ck s s' n : ls_step s s' -> ck n s' = ck n s.
Proof.
  intros [w ss j r]. unfold ck. destruct (cookie_text_law (now e) (br s)) as [-> _].
  destruct (cookie_text_law (now e) (br s')) as [-> _]. by rewrite j.
Qed.

(** What a key holds after some writes. *)
Fixpoint after_ops (ops : list (string * option string)) (k d : string) : string :=
  match ops with
  | [] => d
  | (k', v) :: ops' => after_ops ops' k (if k' =s k then default "" v else d)
  end.

Lemma try_ops_ls ops s : let s' := snd (try_ops (map ls_op ops) s) in
  ls_step s s' /\
  (ls_ok (br s) = true -> forall k, ls_get k (br s') = after_ops ops k (ls_get k (br s))) /\
  (ls_off (br s) = true -> s' = s).
Proof.
  revert s. induction ops as [|[k v] ops IH]; intros s; [done|]. simpl.
  assert (forall b, ls_op (k, v) (br s) = Some b -> ls_step s (mkSt (win s) b) /\
    forall k', ls_get k' b = if k =s k' then default "" v else ls_get k' (br s)) as Hs.
  { intros b Hb. destruct v as [v|].
    - apply ls_set_law in Hb as (? & ? & ? & ?). by split.
    - apply ls_remove_law in Hb as (? & ? & ? & ?). by split. }
  destruct (ls_op (k, v) (br s)) as [b|] eqn:Hb.
  - destruct (Hs b eq_refl) as [Hst Hget]. destruct (IH (mkSt (win s) b)) as (Hl & Hok & Hoff). split; [by etrans|].
    split.
    + intros Hok'. destruct Hst as [_ _ _ (r1 & _)]. intros k'. rewrite Hok by (simpl in *; congruence).
      simpl. by rewrite Hget.
    + intros Hoff'. exfalso. destruct (ls_off_law (br s) Hoff' k (default "" v)) as (_ & H1 & H2).
      destruct v; unfold ls_op in Hb; simpl in *; congruence.
  - split; [done|]. split; [|done]. intros Hok. exfalso.
    destruct (ls_ok_law (br s) Hok k (default "" v)) as [[x H1] [y H2]].
    destruct v; unfold ls_op in Hb; simpl in *; congruence.
Qed.

(** ** Reading: a primary name, then the legacy one *)

Definition ls2 (p l : string) (s : st B) : string := sor (ls_get p (br s)) (ls_get l (br s)).
Definition ck2 (p l : string) (s : st B) : string := sor (ck p s) (ck l s).

Definition ls_pairs : list (string * string) :=
  [(VT_KEY, VT_KEY_LEGACY); (CYCLE_KEY, CYCLE_KEY_LEGACY); (CYCLE_VER_KEY, CYCLE_VER_KEY_LEGACY);
   (COOL_KEY, COOL_KEY_LEGACY); (PROD_VER_KEY, PROD_VER_KEY_LEGACY)].

Definition ck_pairs (w : Win) : list (string * string) :=
  [(VT_COOKIE, VT_COOKIE_LEGACY);
   (scopedCookieName w CYCLE_COOKIE, scopedCookieName w CYCLE_COOKIE_LEGACY);
   (CYCLE_VER_COOKIE, CYCLE_VER_COOKIE_LEGACY);
   (scopedCookieName w COOL_COOKIE, scopedCookieName w COOL_COOKIE_LEGACY);
   (PROD_VER_COOKIE, PROD_VER_COOKIE_LEGACY)].

(** No name is used by two pairs. *)
Definition apart (ps : list (string * string)) : Prop :=
  forall p l p' l', In (p, l) ps -> In (p', l') ps -> p <> l' /\ (p = p' <-> l = l').

Lemma ls_pairs_apart : apart ls_pairs.
Proof.
  intros p l p' l' Hp Hp'. unfold ls_pairs in *. simpl in *.
  repeat (destruct Hp as [[= <- <-]|Hp]; [repeat (destruct Hp' as [[= <- <-]|Hp']; [by repeat split|]); done|]). done.
Qed.

Lemma ck_pairs_apart w : apart (ck_pairs w).
Proof.
  intros p l p' l' Hp Hp'. unfold ck_pairs, scopedCookieName in *. cbv zeta in *.
  destruct (siteToken w =s ""); simpl in *;
    repeat (destruct Hp as [[= <- <-]|Hp]; [repeat (destruct Hp' as [[= <- <-]|Hp']; [by split|]); done|]); done.
Qed.

Lemma token_free c s : label_char c = false -> Ascii.eqb c "_" = false -> no_char c (token_chars s) = true.
Proof.
  intros Hc Hu. induction s as [|d s IH]; [done|]. simpl.
  destruct (label_char d || Ascii.eqb d "_") eqn:E; [|done]. simpl. rewrite IH, andb_true_r.
  destruct (Ascii.eqb_spec c d) as [->|]; [|done]. by rewrite Hc, Hu in E.
Qed.

Lemma stake_free c n s : no_char c s = true -> no_char c (stake n s) = true.
Proof.
  revert s. induction n as [|n IH]; intros [|d s] Hs; try done. simpl in *. breflect.
  apply andb_true_iff. split; [by apply negb_true_iff|auto].
Qed.

Lemma scoped_name_ok w n : name_ok n = true -> name_ok (scopedCookieName w n) = true.
Proof.
  intros Hn. unfold scopedCookieName. cbv zeta. destruct (siteToken w =s ""); [done|].
  unfold name_ok in *. breflect. rewrite !no_char_app.
  assert (forall c, label_char c = false -> Ascii.eqb c "_" = false -> no_char c (siteToken w) = true) as Ht.
  { intros c Hc Hu. apply stake_free. by apply token_free. }
  rewrite !Ht by done. repeat match goal with H : no_char _ n = true |- _ => rewrite H; clear H end.
  destruct n as [|c n]; [done|]. simpl in *. by rewrite !andb_true_r.
Qed.

Lemma ck_pairs_ok w p l : In (p, l) (ck_pairs w) -> name_ok p = true /\ name_ok l = true.
Proof.
  unfold ck_pairs. intros Hp. simpl in Hp.
  repeat (destruct Hp as [[= <- <-]|Hp]; [split; try done; by apply scoped_name_ok|]). done.
Qed.

(** Nothing the module reads has changed. *)
Record obs (s s' : st B) : Prop := {
  o_win : win s' = win s;
  o_ss : forall k, ss_get k (br s') = ss_get k (br s);
  o_ls : forall p l, In (p, l) ls_pairs -> ls2 p l s' = ls2 p l s;
  o_ck : forall p l, In (p, l) (ck_pairs (win s)) -> ck2 p l s' = ck2 p l s;
  o_ok : ls_ok (br s') = ls_ok (br s);
  o_good : good s -> good s'
}.

#[local] Instance obs_pre : PreOrder obs.
Proof.
  split; [done|]. intros s1 s2 s3 [w ss l c o g] [w' ss' l' c' o' g']. split.
  - congruence.
  - intros k. by rewrite ss', ss.
  - intros p q Hp. by rewrite l', l.
  - intros p q Hp. rewrite c', c by (done || by rewrite w). done.
  - congruence.
  - auto.
Qed.

Lemma sor_assoc_legacy a b : a = "" -> sor b b = sor a b.
Proof. intros ->. unfold sor. simpl. by destruct (b =s ""). Qed.

Lemma ls_legacy_name p l : In (p, l) ls_pairs -> (l =s "") = false.
Proof. unfold ls_pairs. simpl. intros Hin. by repeat (destruct Hin as [[= <- <-]|Hin]; [done|]). Qed.

(** A getter that finds a legacy value stores it under the primary name. *)
Lemma lsGet_spec p l s : In (p, l) ls_pairs -> good s ->
  exists s', lsGet p l s = (ls2 p l s, s') /\ obs s s'.
Proof.
  intros Hin Hg. unfold lsGet, bind, ls_read, ls2, sor, ret.
  destruct (String.eqb_spec (ls_get p (br s)) "") as [Hp|Hp]; cbn [negb]; [|by exists s].
  rewrite (ls_legacy_name p l Hin).
  destruct (String.eqb_spec (ls_get l (br s)) "") as [Hl|Hl]; [by exists s; rewrite Hl|].
  pose proof (try_ops_ls [(p, Some (ls_get l (br s)))] s) as (Hst & Hok & Hoff).
  cbn [map ls_op fst snd] in *. unfold ls_op in *. cbn [fst snd] in *.
  destruct (try_ops _ s) as [[] s'] eqn:Ht. cbn [snd] in *. exists s'. split; [done|].
  split; [by destruct Hst|by destruct Hst| | |by destruct Hst as [_ _ _ (r & _)]|by apply good_ls_step].
  - intros p' l' Hin'. destruct (g_mode s Hg) as [Hm|Hm]; [|by rewrite (Hoff Hm)].
    unfold ls2. rewrite !(Hok Hm). simpl. destruct (ls_pairs_apart p l p' l' Hin Hin') as [Hne Heq].
    destruct (String.eqb_spec p l') as [|_]; [done|].
    destruct (String.eqb_spec p p') as [<-|_]; [|done]. rewrite <- (proj1 Heq eq_refl). by apply sor_assoc_legacy.
  - intros p' l' _. unfold ck2. by rewrite !(ls_step_ck s s') by done.
Qed.

Lemma ck_step_obs s s' : good s -> ck_step s s' ->
  (forall p l, In (p, l) (ck_pairs (win s)) -> ck2 p l s' = ck2 p l s) -> obs s s'.
Proof.
  intros Hg Hs Hc. split; [by destruct Hs|by destruct Hs| |done|by destruct Hs as [_ _ _ (r & _) _]|intros _; by eapply good_ck_step].
  intros p l _. unfold ls2. destruct Hs as [_ Hl _ _ _]. by rewrite !Hl.
Qed.

Lemma ckGet_spec p l s : In (p, l) (ck_pairs (win s)) -> good s ->
  exists s', ckGet e p l s = (ck2 p l s, s') /\ obs s s'.
Proof.
  intros Hin Hg. destruct (ck_pairs_ok _ p l Hin) as [Hnp Hnl].
  unfold ckGet, bind, readCookie, ck2, sor, ret. fold (ck p s). fold (ck l s).
  destruct (String.eqb_spec (ck p s) "") as [Hp|Hp]; cbn [negb]; [|by exists s].
  destruct (String.eqb_spec l "") as [->|_]; [done|].
  change (read_text l (cookie_text (now e) (br s))) with (ck l s).
  destruct (String.eqb_spec (ck l s) "") as [Hl|Hl]; [by exists s; rewrite Hl|].
  rewrite writeCookie_assigns. eexists. split; [done|]. apply ck_step_obs; [done|apply write_step|].
  intros p' l' Hin'. destruct (ck_pairs_ok _ p' l' Hin') as [Hnp' Hnl'].
  destruct (ck_pairs_apart _ p l p' l' Hin Hin') as [Hne Heq]. unfold ck2.
  rewrite (write_ck_other p _ _ s l') by (done || congruence).
  destruct (String.eqb_spec p p') as [<-|Hpp].
  - rewrite <- (proj1 Heq eq_refl). rewrite write_ck by (done || lia). by apply sor_assoc_legacy.
  - by rewrite write_ck_other by (done || congruence).
Qed.

(** ** Writing both names of a pair *)

(** What [localStorage] keeps of a value. *)
Definition lsv (s : st B) (v : string) : string := if ls_ok (br s) then v else "".

(** The pair of [localStorage] named [P] now reads [v], the pair of cookies
    named [Q] reads [w], and nothing else the module reads has changed. *)
Record upd (P v Q w : string) (s s' : st B) : Prop := {
  u_win : win s' = win s;
  u_ss : forall k, ss_get k (br s') = ss_get k (br s);
  u_ok : ls_ok (br s') = ls_ok (br s);
  u_good : good s';
  u_ls : forall p l, In (p, l) ls_pairs -> ls2 p l s' = if p =s P then lsv s v else ls2 p l s;
  u_ck : forall p l, In (p, l) (ck_pairs (win s)) -> ck2 p l s' = if p =s Q then w else ck2 p l s
}.

Lemma ls_primary p l : In (p, l) ls_pairs -> (p =s "") = false.
Proof. unfold ls_pairs. simpl. intros Hin. by repeat (destruct Hin as [[= <- <-]|Hin]; [done|]). Qed.

Lemma ck_primary w p l : In (p, l) (ck_pairs w) -> (p =s "") = false.
Proof. intros Hin. apply ck_pairs_ok in Hin as [Hp _]. by destruct p. Qed.

Lemma ls2_off s p l : ls_off (br s) = true -> ls2 p l s = "".
Proof.
  intros Hm. unfold ls2. destruct (ls_off_law (br s) Hm p "") as [-> _].
  by destruct (ls_off_law (br s) Hm l "") as [-> _].
Qed.

(** A browser does not both keep and refuse. *)
Lemma ok_not_off (s : st B) : ls_ok (br s) = true -> ls_off (br s) = true -> False.
Proof.
  intros Hok Hoff. destruct (ls_ok_law (br s) Hok "" "") as [[x Hx] _].
  destruct (ls_off_law (br s) Hoff "" "") as (_ & Hy & _). congruence.
Qed.

Lemma upd_ls p l v s : In (p, l) ls_pairs -> good s ->
  upd p (default "" v) "" "" s (snd (try_ops (map ls_op [(p, v); (l, v)]) s)).
Proof.
  intros Hin Hg. pose proof (try_ops_ls [(p, v); (l, v)] s) as (Hst & Hok & Hoff). cbv zeta in *.
  set (s' := snd _) in *. clearbody s'.
  assert (ls_ok (br s') = ls_ok (br s)) as Hsame by (destruct Hst as [_ _ _ (r & _)]; exact r).
  split; [by destruct Hst|by destruct Hst|done|by eapply good_ls_step|..].
  - intros p' l' Hin'. destruct (ls_pairs_apart p l p' l' Hin Hin') as [Hne Heq].
    destruct (ls_pairs_apart p' l' p l Hin' Hin) as [Hne' _]. unfold lsv.
    destruct (g_mode s Hg) as [Hm|Hm].
    + rewrite Hm. unfold ls2. rewrite !(Hok Hm). simpl.
      destruct (String.eqb_spec p l') as [|_]; [done|]. destruct (String.eqb_spec l p') as [->|_]; [done|].
      destruct (String.eqb_spec p' p) as [->|Hpp].
      * destruct (String.eqb_spec p p); [|done]. destruct (String.eqb_spec l l') as [|Hl]; [|by destruct Hl; apply Heq].
        unfold sor. by destruct (default "" v =s "") eqn:E.
      * destruct (String.eqb_spec p p'); [congruence|]. destruct (String.eqb_spec l l') as [Hl|]; [|done].
        destruct Hpp. symmetry. by apply Heq.
    + rewrite (Hoff Hm). rewrite ls2_off by done. destruct (ls_ok (br s)) eqn:E; [|by destruct (p' =s p)].
      destruct (ok_not_off s E Hm).
  - intros p' l' Hin'. unfold ck2. rewrite !(ls_step_ck s s') by done. by rewrite (ck_primary _ _ _ Hin').
Qed.

Lemma ck_step_upd s s' Q w : good s -> ck_step s s' ->
  (forall p l, In (p, l) (ck_pairs (win s)) -> ck2 p l s' = if p =s Q then w else ck2 p l s) ->
  upd "" "" Q w s s'.
Proof.
  intros Hg Hs Hc. split; [by destruct Hs|by destruct Hs| |by eapply good_ck_step| |done].
  - destruct Hs as [_ _ _ (r & _) _]. exact r.
  - intros p l Hin. rewrite (ls_primary _ _ Hin). unfold ls2. destruct Hs as [_ Hl _ _ _]. by rewrite !Hl.
Qed.

Lemma upd_ck p l v age s : In (p, l) (ck_pairs (win s)) -> good s -> (v <> "" -> 0 < age) ->
  upd "" "" p v s (assigns (write_cookies l v (Some age)) (assigns (write_cookies p v (Some age)) s)).
Proof.
  intros Hin Hg Hv. destruct (ck_pairs_ok _ p l Hin) as [Hnp Hnl].
  assert (good (assigns (write_cookies p v (Some age)) s)) as Hg'
    by (eapply good_ck_step; [apply write_step|done]).
  apply ck_step_upd; [done|etrans; apply write_step|]. intros p' l' Hin'.
  destruct (ck_pairs_ok _ p' l' Hin') as [Hnp' Hnl'].
  destruct (ck_pairs_apart _ p l p' l' Hin Hin') as [Hne Heq].
  destruct (ck_pairs_apart _ p' l' p l Hin' Hin) as [Hne' _]. unfold ck2.
  rewrite (write_ck_other l _ _ _ p') by done.
  destruct (String.eqb_spec p' p) as [->|Hpp].
  - rewrite write_ck by done. rewrite <- (proj1 Heq eq_refl). rewrite write_ck by done.
    unfold sor. by destruct (v =s "") eqn:E.
  - assert (l' <> l) by (intros ->; by apply Hpp, eq_sym, Heq).
    by rewrite !write_ck_other by (done || congruence).
Qed.

Lemma upd_trans P v Q w s s1 s2 : P <> "" -> Q <> "" ->
  upd P v "" "" s s1 -> upd "" "" Q w s1 s2 -> upd P v Q w s s2.
Proof.
  intros HP HQ [w1 ss1 k1 g1 l1 c1] [w2 ss2 k2 g2 l2 c2]. split; [congruence| |congruence|done|..].
  - intros k. by rewrite ss2, ss1.
  - intros p l Hin. rewrite l2 by done. rewrite (ls_primary _ _ Hin). by apply l1.
  - intros p l Hin. rewrite c2 by (by rewrite w1). rewrite c1 by done. by rewrite (ck_primary _ _ _ Hin).
Qed.

(** ** The four values *)

Record abs_st := Abs {
  a_cool : Z;
  a_coolver : string;
  a_cycle : string;
  a_cyclever : string
}.

Definition cool_of (s : st B) : Z :=
  let n := parse_int0 (sor (ls2 COOL_KEY COOL_KEY_LEGACY s) "0") in
  if negb (n =? 0) then n else
  let m := parse_int0 (ck2 (scopedCookieName (win s) COOL_COOKIE) (scopedCookieName (win s) COOL_COOKIE_LEGACY) s) in
  if 0 <? m then m else n.

Definition coolver_of (s : st B) : string :=
  sor (ls2 PROD_VER_KEY PROD_VER_KEY_LEGACY s) (ck2 PROD_VER_COOKIE PROD_VER_COOKIE_LEGACY s).

Definition cycle_of (s : st B) : string :=
  let c := ls2 CYCLE_KEY CYCLE_KEY_LEGACY s in
  if (8 <=? String.length c)%nat then c else
  let d := ck2 (scopedCookieName (win s) CYCLE_COOKIE) (scopedCookieName (win s) CYCLE_COOKIE_LEGACY) s in
  if cycle_ok d then d else "".

Definition cyclever_of (s : st B) : string :=
  sor (ls2 CYCLE_VER_KEY CYCLE_VER_KEY_LEGACY s) (ck2 CYCLE_VER_COOKIE CYCLE_VER_COOKIE_LEGACY s).

Definition abs (s : st B) : abs_st := Abs (cool_of s) (coolver_of s) (cycle_of s) (cyclever_of s).

Lemma obs_abs s s' : obs s s' -> abs s' = abs s.
Proof.
  intros [w ss l c o g]. unfold abs, cool_of, coolver_of, cycle_of, cyclever_of. rewrite w.
  rewrite !l, !c by (unfold ls_pairs, ck_pairs; simpl; tauto). done.
Qed.

(** *** Getters *)

(** [m] reads [f] and disturbs nothing. *)
Definition reads_as {A} (m : M B A) (f : st B -> A) : Prop :=
  forall s, good s -> exists s', m s = (f s, s') /\ obs s s'.

Lemma good_obs s s' : obs s s' -> good s -> good s'.
Proof. intros []; auto. Qed.

Lemma getCoolProductVersion_spec : reads_as (getCoolProductVersion e) coolver_of.
Proof.
  intros s Hg. unfold getCoolProductVersion, bind, coolver_of.
  destruct (lsGet_spec PROD_VER_KEY PROD_VER_KEY_LEGACY s) as (s1 & -> & O1); [simpl; tauto|done|].
  unfold sor at 1. destruct (String.eqb_spec (ls2 PROD_VER_KEY PROD_VER_KEY_LEGACY s) "") as [E|]; cbn [negb]; [|by exists s1].
  destruct (ckGet_spec PROD_VER_COOKIE PROD_VER_COOKIE_LEGACY s1) as (s2 & -> & O2);
    [simpl; tauto|by eapply good_obs|].
  exists s2. split; [|by etrans]. f_equal. apply (o_ck _ _ O1). simpl; tauto.
Qed.

Lemma getCycleProductVersion_spec : reads_as (getCycleProductVersion e) cyclever_of.
Proof.
  intros s Hg. unfold getCycleProductVersion, bind, cyclever_of.
  destruct (lsGet_spec CYCLE_VER_KEY CYCLE_VER_KEY_LEGACY s) as (s1 & -> & O1); [simpl; tauto|done|].
  unfold sor at 1. destruct (String.eqb_spec (ls2 CYCLE_VER_KEY CYCLE_VER_KEY_LEGACY s) "") as [E|]; cbn [negb]; [|by exists s1].
  destruct (ckGet_spec CYCLE_VER_COOKIE CYCLE_VER_COOKIE_LEGACY s1) as (s2 & -> & O2);
    [simpl; tauto|by eapply good_obs|].
  exists s2. split; [|by etrans]. f_equal. apply (o_ck _ _ O1). simpl; tauto.
Qed.

Lemma unscoped w n : siteToken w = "" -> scopedCookieName w n = n.
Proof. unfold scopedCookieName. by intros ->. Qed.

Lemma getCycleId_spec : reads_as (getCycleId e) cycle_of.
Proof.
  intros s Hg. unfold getCycleId, bind, cycle_of, asks, ret. cbv zeta.
  destruct (lsGet_spec CYCLE_KEY CYCLE_KEY_LEGACY s) as (s1 & -> & O1); [simpl; tauto|done|].
  destruct (8 <=? _)%nat; [by exists s1|]. rewrite (o_win _ _ O1).
  set (p := scopedCookieName (win s) CYCLE_COOKIE). set (l := scopedCookieName (win s) CYCLE_COOKIE_LEGACY).
  assert (In (p, l) (ck_pairs (win s))) as Hin by (simpl; tauto).
  destruct (ckGet_spec p l s1) as (s2 & -> & O2); [by rewrite (o_win _ _ O1)|by eapply good_obs|].
  rewrite (o_ck _ _ O1) by done. assert (obs s s2) as O by by etrans.
  destruct (cycle_ok (ck2 p l s)) eqn:Ec; [by exists s2|]. rewrite (o_win _ _ O).
  destruct (String.eqb_spec (siteToken (win s)) "") as [Et|]; [|by exists s2].
  rewrite <- (unscoped _ CYCLE_COOKIE Et), <- (unscoped _ CYCLE_COOKIE_LEGACY Et). fold p l.
  destruct (ckGet_spec p l s2) as (s3 & -> & O3); [by rewrite (o_win _ _ O)|by eapply good_obs|].
  rewrite (o_ck _ _ O) by done. rewrite Ec. exists s3. split; [done|by etrans].
Qed.

Lemma getCoolUntil_spec : reads_as (getCoolUntil e) cool_of.
Proof.
  intros s Hg. unfold getCoolUntil, bind, cool_of, asks, ret. cbv zeta.
  destruct (lsGet_spec COOL_KEY COOL_KEY_LEGACY s) as (s1 & -> & O1); [simpl; tauto|done|].
  destruct (negb _); [by exists s1|]. rewrite (o_win _ _ O1).
  set (p := scopedCookieName (win s) COOL_COOKIE). set (l := scopedCookieName (win s) COOL_COOKIE_LEGACY).
  assert (In (p, l) (ck_pairs (win s))) as Hin by (simpl; tauto).
  destruct (ckGet_spec p l s1) as (s2 & -> & O2); [by rewrite (o_win _ _ O1)|by eapply good_obs|].
  rewrite (o_ck _ _ O1) by done. assert (obs s s2) as O by by etrans. rewrite (o_win _ _ O).
  destruct (ck2 p l s =s "") eqn:Ec; [|by exists s2].
  destruct (String.eqb_spec (siteToken (win s)) "") as [Et|]; simpl; [|by exists s2].
  rewrite <- (unscoped _ COOL_COOKIE Et), <- (unscoped _ COOL_COOKIE_LEGACY Et). fold p l.
  destruct (ckGet_spec p l s2) as (s3 & -> & O3); [by rewrite (o_win _ _ O)|by eapply good_obs|].
  rewrite (o_ck _ _ O) by done. exists s3. split; [done|by etrans].
Qed.

(** *** Setters *)

(** The scoped cookies: written, then removed under their unscoped names. *)
Definition scoped_pair (a al : string) : Prop :=
  (a = CYCLE_COOKIE /\ al = CYCLE_COOKIE_LEGACY) \/ (a = COOL_COOKIE /\ al = COOL_COOKIE_LEGACY).

Lemma scoped_pair_in a al w : scoped_pair a al ->
  In (scopedCookieName w a, scopedCookieName w al) (ck_pairs w).
Proof. intros [[-> ->]|[-> ->]]; simpl; tauto. Qed.

Lemma unscoped_apart w a al p l : siteToken w <> "" -> scoped_pair a al -> In (p, l) (ck_pairs w) ->
  (p <> a /\ l <> a) /\ p <> al /\ l <> al.
Proof.
  intros Ht Ha Hin. apply String.eqb_neq in Ht. unfold ck_pairs, scopedCookieName in Hin. cbv zeta in Hin.
  rewrite Ht in Hin. simpl in Hin.
  destruct Ha as [[-> ->]|[-> ->]];
    (repeat (destruct Hin as [[= <- <-]|Hin]; [by repeat split|])); done.
Qed.

Definition scoped_write (a al v : string) (age : Z) (s : st B) : st B :=
  let w := win s in
  s |> assigns (write_cookies (scopedCookieName w a) v (Some age))
    |> assigns (write_cookies (scopedCookieName w al) v (Some age))
    |> assigns (expired a) |> assigns (expired al).

Hypothesis Hpd : pd = "" \/ In pd (expire_domains (hostname e)).

Lemma scoped_write_upd a al v age s : scoped_pair a al -> good s -> (v <> "" -> 0 < age) ->
  upd "" "" (scopedCookieName (win s) a) (if siteToken (win s) =s "" then "" else v) s (scoped_write a al v age s).
Proof.
  intros Ha Hg Hv. unfold scoped_write. cbv zeta.
  set (p := scopedCookieName (win s) a). set (l := scopedCookieName (win s) al).
  assert (In (p, l) (ck_pairs (win s))) as Hin by (by apply scoped_pair_in).
  pose proof (upd_ck p l v age s Hin Hg Hv) as Hu. set (s2 := assigns _ (assigns _ s)) in *.
  assert (ck_step s s2) as Hs2 by (etrans; apply write_step).
  assert (good s2) as Hg2 by (by eapply good_ck_step). destruct Hu as [_ _ _ _ _ Hck].
  assert (good (assigns (expired a) s2)) as Hg3 by (eapply good_ck_step; [apply expire_step|done]).
  apply ck_step_upd; [done|by etrans; [|etrans; apply expire_step]|].
  intros p' l' Hin'. destruct (ck_pairs_ok _ p' l' Hin') as [Hnp' Hnl'].
  destruct (String.eqb_spec (siteToken (win s)) "") as [Et|Et].
  - assert (p = a /\ l = al) as [Hpa Hla] by (split; by apply unscoped).
    destruct (ck_pairs_apart _ p l p' l' Hin Hin') as [Hne Heq].
    destruct (ck_pairs_apart _ p' l' p l Hin' Hin) as [Hne' _].
    rewrite Hpa, Hla in *. specialize (Hck p' l' Hin'). unfold ck2 in *.
    destruct (String.eqb_spec p' a) as [->|Hpp].
    + rewrite <- (proj1 Heq eq_refl) in *. rewrite expire_ck_other by (done || congruence).
      by rewrite !expire_ck.
    + assert (l' <> al) by (intros ->; by apply Hpp, eq_sym, Heq).
      by rewrite !expire_ck_other by (done || congruence).
  - destruct (unscoped_apart _ a al p' l' Et Ha Hin') as [[] []]. specialize (Hck p' l' Hin').
    unfold ck2 in *. by rewrite !expire_ck_other by done.
Qed.

Lemma assigns_win cs s : win (assigns cs s) = win s.
Proof. unfold assigns. revert s. induction cs as [|c cs IH]; intros s; [done|]. simpl. by rewrite IH. Qed.

Lemma run {A C} (m : M B A) (k : A -> M B C) s x s' : m s = (x, s') -> bind m k s = k x s'.
Proof. unfold bind. by intros ->. Qed.

Lemma scoped_write_run {A} a al v age s (k : M B A) :
  (writeScoped e a v (Some age) ;; writeScoped e al v (Some age) ;;
   expireCookieEverywhere e a ;; expireCookieEverywhere e al ;; k)%st s = k (scoped_write a al v age s).
Proof.
  erewrite run; [|unfold writeScoped, asks, bind; apply writeCookie_assigns].
  erewrite run; [|unfold writeScoped, asks, bind; apply writeCookie_assigns].
  rewrite assigns_win. erewrite run; [|apply expire_assigns]. erewrite run; [|apply expire_assigns]. done.
Qed.

(** The cookie a scoped value survives in: none without a site token. *)
Definition scv (s : st B) (v : string) : string := if siteToken (win s) =s "" then "" else v.


Definition keep_or_drop (v : string) : option string := if v =s "" then None else Some v.

Lemma keep_or_drop_ops k l v :
  (if v <>s "" then [ls_set k v; ls_set l v] else [ls_remove k; ls_remove l]) =
  map ls_op [(k, keep_or_drop v); (l, keep_or_drop v)].
Proof. unfold keep_or_drop. by destruct (v =s ""). Qed.

Lemma keep_or_drop_value v : default "" (keep_or_drop v) = v.
Proof. unfold keep_or_drop. by destruct (String.eqb_spec v "") as [->|]. Qed.

Lemma upd_keep k l v s : In (k, l) ls_pairs -> good s ->
  exists s1, try_ops (map ls_op [(k, keep_or_drop v); (l, keep_or_drop v)]) s = (tt, s1) /\ upd k v "" "" s s1.
Proof.
  intros Hin Hg. pose proof (upd_ls k l (keep_or_drop v) s Hin Hg) as Hu. rewrite keep_or_drop_value in Hu.
  destruct (try_ops _ s) as [[] s1]. by exists s1.
Qed.

(** A value written to both stores under both names. *)
Lemma dual_write k l c cl v age s : In (k, l) ls_pairs -> (forall w, In (c, cl) (ck_pairs w)) -> good s ->
  (v <> "" -> 0 < age) ->
  exists s', (try_ops (if v <>s "" then [ls_set k v; ls_set l v] else [ls_remove k; ls_remove l]) ;;
              writeCookie e c v (Some age) ;; writeCookie e cl v (Some age))%st s = (tt, s') /\ upd k v c v s s'.
Proof.
  intros Hk Hc Hg Hv. unfold bind. rewrite keep_or_drop_ops.
  destruct (upd_keep k l v s Hk Hg) as (s1 & -> & Hu1). rewrite !writeCookie_assigns. eexists. split; [done|].
  eapply upd_trans; [| |exact Hu1|].
  - apply ls_primary in Hk. by intros ->.
  - pose proof (ck_primary _ _ _ (Hc (win s))) as Hp. by intros ->.
  - apply upd_ck; [done|by destruct Hu1|done].
Qed.

Lemma setCycleProductVersion_upd v age s : good s -> (v <> "" -> 0 < age) ->
  exists s', setCycleProductVersion e v (Some age) s = (tt, s') /\ upd CYCLE_VER_KEY v CYCLE_VER_COOKIE v s s'.
Proof. intros Hg Hv. apply dual_write; [simpl; tauto|simpl; tauto|done|done]. Qed.

Lemma setCoolProductVersion_upd v age s : good s -> (v <> "" -> 0 < age) ->
  exists s', setCoolProductVersion e v (Some age) s = (tt, s') /\ upd PROD_VER_KEY v PROD_VER_COOKIE v s s'.
Proof. intros Hg Hv. apply dual_write; [simpl; tauto|simpl; tauto|done|done]. Qed.

(** A scoped value written to both stores. *)
Lemma scoped_dual k l a al v age s : In (k, l) ls_pairs -> scoped_pair a al -> good s -> (v <> "" -> 0 < age) ->
  exists s1, try_ops (if v <>s "" then [ls_set k v; ls_set l v] else [ls_remove k; ls_remove l]) s = (tt, s1) /\
    upd k v (scopedCookieName (win s) a) (scv s v) s (scoped_write a al v age s1).
Proof.
  intros Hk Ha Hg Hv. rewrite keep_or_drop_ops.
  destruct (upd_keep k l v s Hk Hg) as (s1 & Hs1 & Hu1). exists s1. split; [done|].
  eapply upd_trans; [| |exact Hu1|].
  - apply ls_primary in Hk. by intros ->.
  - pose proof (ck_primary _ _ _ (scoped_pair_in a al (win s) Ha)) as Hp. by intros E; rewrite E in Hp.
  - assert (win s1 = win s) as Hw by (by destruct Hu1). unfold scv. rewrite <- Hw.
    apply scoped_write_upd; [done|by destruct Hu1|done].
Qed.

(** *** Their effect on the four values *)

Lemma mode_value s v : good s -> sor (lsv s v) v = v.
Proof. intros Hg. unfold lsv, sor. destruct (ls_ok (br s)); simpl; [by destruct (v =s "") eqn:E|done]. Qed.

(** Whether a scoped value survives its own write: the cookies of a page
    without a site token are removed with the unscoped ones. *)
Definition kept (s : st B) : bool := ls_ok (br s) || (siteToken (win s) <>s "").

Lemma mode_scoped s v :
  if kept s then lsv s v = v \/ (lsv s v = "" /\ scv s v = v) else lsv s v = "" /\ scv s v = "".
Proof.
  unfold kept, lsv, scv. destruct (ls_ok (br s)); simpl; [by left|].
  destruct (siteToken (win s) =s ""); simpl; [done|by right].
Qed.

(** Scoped names of different bases differ. *)
Lemma scoped_eqb w a b : (scopedCookieName w a =s scopedCookieName w b) = (a =s b).
Proof.
  unfold scopedCookieName. cbv zeta. destruct (siteToken w =s ""); [done|].
  apply eq_iff_eq_true. rewrite !String.eqb_eq. split; [|by intros ->].
  generalize ("." +:+ siteToken w). intros t He.
  assert (String.length a = String.length b) as Hl.
  { apply (f_equal String.length) in He. rewrite !Json.string_length_app in He. lia. }
  revert b Hl He. induction a as [|x a IH]; intros [|y b] Hl He; simpl in Hl; try lia; [done|].
  rewrite !append_cons in He. injection He as -> He. f_equal. apply IH; [lia|done].
Qed.

Lemma scoped_plain w a : a = CYCLE_COOKIE \/ a = COOL_COOKIE ->
  (CYCLE_VER_COOKIE =s scopedCookieName w a) = false /\ (scopedCookieName w a =s CYCLE_VER_COOKIE) = false /\
  (PROD_VER_COOKIE =s scopedCookieName w a) = false /\ (scopedCookieName w a =s PROD_VER_COOKIE) = false.
Proof.
  intros [->| ->]; unfold scopedCookieName; cbv zeta; destruct (siteToken w =s "");
    repeat split; try reflexivity; simpl; by destruct (siteToken w).
Qed.

Ltac in_pairs := unfold ls_pairs, ck_pairs; simpl; tauto.

(** Rewrite what the getters see after an update, on literal names. *)
Ltac see_upd U :=
  rewrite ?(u_win _ _ _ _ _ _ U), ?(u_ls _ _ _ _ _ _ U), ?(u_ck _ _ _ _ _ _ U) by in_pairs;
  rewrite ?scoped_eqb, ?String.eqb_refl.

Lemma cool_upd v w s s' : upd COOL_KEY v (scopedCookieName (win s) COOL_COOKIE) w s s' ->
  coolver_of s' = coolver_of s /\ cycle_of s' = cycle_of s /\ cyclever_of s' = cyclever_of s /\
  ls2 COOL_KEY COOL_KEY_LEGACY s' = lsv s v /\
  ck2 (scopedCookieName (win s') COOL_COOKIE) (scopedCookieName (win s') COOL_COOKIE_LEGACY) s' = w.
Proof.
  intros U. destruct (scoped_plain (win s) COOL_COOKIE) as (E1 & _ & E2 & _); [by right|].
  unfold coolver_of, cycle_of, cyclever_of. cbv zeta. see_upd U. rewrite E1, E2. by repeat split.
Qed.

Lemma coolver_upd v s s' : good s -> upd PROD_VER_KEY v PROD_VER_COOKIE v s s' ->
  abs s' = Abs (cool_of s) v (cycle_of s) (cyclever_of s).
Proof.
  intros Hg U. destruct (scoped_plain (win s) COOL_COOKIE) as (_ & _ & _ & E1); [by right|].
  destruct (scoped_plain (win s) CYCLE_COOKIE) as (_ & _ & _ & E2); [by left|].
  unfold abs, cool_of, coolver_of, cycle_of, cyclever_of. cbv zeta. see_upd U. rewrite E1, E2.
  change (PROD_VER_KEY =s PROD_VER_KEY) with true. by rewrite mode_value.
Qed.

Lemma cyclever_upd v s s' : good s -> upd CYCLE_VER_KEY v CYCLE_VER_COOKIE v s s' ->
  abs s' = Abs (cool_of s) (coolver_of s) (cycle_of s) v.
Proof.
  intros Hg U. destruct (scoped_plain (win s) COOL_COOKIE) as (_ & E1 & _); [by right|].
  destruct (scoped_plain (win s) CYCLE_COOKIE) as (_ & E2 & _); [by left|].
  unfold abs, cool_of, coolver_of, cycle_of, cyclever_of. cbv zeta. see_upd U. rewrite E1, E2.
  by rewrite mode_value.
Qed.

Lemma cycle_upd v w s s' : upd CYCLE_KEY v (scopedCookieName (win s) CYCLE_COOKIE) w s s' ->
  cool_of s' = cool_of s /\ coolver_of s' = coolver_of s /\ cyclever_of s' = cyclever_of s /\
  ls2 CYCLE_KEY CYCLE_KEY_LEGACY s' = lsv s v /\
  ck2 (scopedCookieName (win s') CYCLE_COOKIE) (scopedCookieName (win s') CYCLE_COOKIE_LEGACY) s' = w.
Proof.
  intros U. destruct (scoped_plain (win s) CYCLE_COOKIE) as (E1 & _ & E2 & _); [by left|].
  unfold coolver_of, cool_of, cyclever_of. cbv zeta. see_upd U. rewrite E1, E2. by repeat split.
Qed.

Lemma cycle_ok_length c : cycle_ok c = true -> (8 <=? String.length c)%nat = true.
Proof. unfold cycle_ok. intros Hc. breflect. apply Nat.leb_le. lia. Qed.

Lemma cycle_of_upd v s s' : good s -> (v = "" \/ cycle_ok v = true) ->
  upd CYCLE_KEY v (scopedCookieName (win s) CYCLE_COOKIE) (scv s v) s s' ->
  abs s' = Abs (cool_of s) (coolver_of s) (if kept s then v else "") (cyclever_of s).
Proof.
  intros Hg Hv U. destruct (cycle_upd _ _ _ _ U) as (E1 & E2 & E3 & E4 & E5).
  unfold abs. rewrite E1, E2, E3. f_equal. unfold cycle_of. cbv zeta. rewrite E4, E5.
  destruct Hv as [->|Hv].
  - unfold lsv, scv. destruct (kept s), (ls_ok (br s)), (siteToken (win s) =s ""); done.
  - pose proof (mode_scoped s v) as Hm. destruct (kept s); [|by destruct Hm as [-> ->]].
    destruct Hm as [->|[-> ->]]; [by rewrite cycle_ok_length|]. simpl. by rewrite Hv.
Qed.

Lemma parse_int0_print n : 0 <= n -> parse_int0 (Z_to_string n) = n.
Proof. intros Hn. unfold parse_int0. by rewrite parse_int_print. Qed.

Definition cool_text (n : Z) : string := if n =? 0 then "" else Z_to_string n.

Lemma print_ne n : 0 <= n -> (Z_to_string n =s "") = false.
Proof.
  intros Hn. apply String.eqb_neq. intros E. pose proof (parse_int_print n Hn) as Hp. by rewrite E in Hp.
Qed.

Lemma cool_of_upd n s s' : good s -> 0 <= n ->
  upd COOL_KEY (cool_text n) (scopedCookieName (win s) COOL_COOKIE) (scv s (cool_text n)) s s' ->
  abs s' = Abs (if kept s then n else 0) (coolver_of s) (cycle_of s) (cyclever_of s).
Proof.
  intros Hg Hn U. destruct (cool_upd _ _ _ _ U) as (E1 & E2 & E3 & E4 & E5).
  unfold abs. rewrite E1, E2, E3. f_equal. unfold cool_of. cbv zeta. rewrite E4, E5. unfold cool_text.
  destruct (Z.eqb_spec n 0) as [->|Hne].
  - unfold lsv, scv. destruct (kept s), (ls_ok (br s)), (siteToken (win s) =s ""); done.
  - pose proof (mode_scoped s (Z_to_string n)) as Hm. destruct (kept s); [|by destruct Hm as [-> ->]].
    destruct Hm as [->|[-> ->]]; unfold sor.
    + rewrite print_ne, parse_int0_print by done. by destruct (Z.eqb_spec n 0).
    + rewrite parse_int0_print by done. change (parse_int0 _) with 0 at 1. simpl.
      destruct (Z.ltb_spec 0 n); [done|lia].
Qed.

(** The window but for the page's start-up notes. *)
Definition same_page (w w' : Win) : Prop := forall k, k <> "__GR_KICK_MS__" -> gget k w' = gget k w.

(** [s'] is [s] with the four values [a]. *)
Record becomes (s s' : st B) (a : abs_st) : Prop := {
  b_win : same_page (win s) (win s');
  b_ss : forall k, ss_get k (br s') = ss_get k (br s);
  b_ok : ls_ok (br s') = ls_ok (br s);
  b_good : good s';
  b_abs : abs s' = a
}.

Lemma upd_becomes P v Q w s s' a : upd P v Q w s s' -> abs s' = a -> becomes s s' a.
Proof. intros [Hw]. split; try done. intros k _. by rewrite Hw. Qed.

Lemma obs_becomes s s' : good s -> obs s s' -> becomes s s' (abs s).
Proof. intros Hg O. pose proof (obs_abs _ _ O). destruct O as [Hw]. split; auto. intros k _. by rewrite Hw. Qed.

Lemma becomes_trans s s1 s2 a b : becomes s s1 a -> becomes s1 s2 b -> becomes s s2 b.
Proof.
  intros [w ss o g h] [w' ss' o' g' h']. split; [|intros k; by rewrite ss', ss|congruence|done..].
  intros k Hk. by rewrite w', w.
Qed.

Lemma abs_eta s : Abs (cool_of s) (coolver_of s) (cycle_of s) (cyclever_of s) = abs s.
Proof. done. Qed.

Definition with_cycle (a : abs_st) (id ver : string) : abs_st := Abs (a_cool a) (a_coolver a) id ver.
Definition with_cool (a : abs_st) (n : Z) (ver : string) : abs_st := Abs n ver (a_cycle a) (a_cyclever a).

Lemma setCycleId_spec id pv s : good s -> cycle_ok id = true ->
  let ver := resolveProductVersion pv (win s) in
  exists s', setCycleId e id pv s = (tt, s') /\
    becomes s s' (with_cycle (abs s) (if kept s then id else "") (if ver =s "" then cyclever_of s else ver)).
Proof.
  intros Hg Hid ver. assert ((id =s "") = false) as Hne by (by destruct id).
  destruct (scoped_dual CYCLE_KEY CYCLE_KEY_LEGACY CYCLE_COOKIE CYCLE_COOKIE_LEGACY id 86400 s)
    as (s1 & Hs1 & U); [in_pairs|by left|done|done|].
  rewrite Hne in Hs1. cbn [negb] in Hs1. unfold setCycleId. rewrite Hne.
  erewrite run by exact Hs1. rewrite scoped_write_run. set (s2 := scoped_write _ _ _ _ _) in *.
  pose proof (cycle_of_upd id s s2 Hg (or_intror Hid) U) as Ha.
  unfold bind, asks. rewrite (u_win _ _ _ _ _ _ U). fold ver.
  destruct (String.eqb_spec ver "") as [Hv|Hv]; cbn [negb].
  - exists s2. split; [done|]. by eapply upd_becomes.
  - destruct (setCycleProductVersion_upd ver 86400 s2) as (s3 & -> & U3); [by destruct U|done|].
    exists s3. split; [done|]. eapply becomes_trans; [by eapply upd_becomes|].
    eapply upd_becomes; [exact U3|]. rewrite (cyclever_upd ver s2 s3) by (done || by destruct U).
    injection Ha as -> -> -> _. done.
Qed.

Lemma clearCycleId_spec s : good s ->
  exists s', clearCycleId e s = (tt, s') /\ becomes s s' (with_cycle (abs s) "" "").
Proof.
  intros Hg.
  destruct (scoped_dual CYCLE_KEY CYCLE_KEY_LEGACY CYCLE_COOKIE CYCLE_COOKIE_LEGACY "" 0 s)
    as (s1 & Hs1 & U); [in_pairs|by left|done|done|].
  unfold clearCycleId. erewrite run by exact Hs1. rewrite scoped_write_run.
  set (s2 := scoped_write _ _ _ _ _) in *.
  pose proof (cycle_of_upd "" s s2 Hg (or_introl eq_refl) U) as Ha.
  assert ((if kept s then "" else "") = "") as E0 by (by destruct (kept s)). rewrite E0 in Ha.
  destruct (setCycleProductVersion_upd "" 0 s2) as (s3 & -> & U3); [by destruct U|done|].
  exists s3. split; [done|]. eapply becomes_trans; [by eapply upd_becomes|].
  eapply upd_becomes; [exact U3|]. rewrite (cyclever_upd "" s2 s3) by (done || by destruct U).
  injection Ha as -> -> -> _. done.
Qed.

Lemma cool_max_age_pos n : now e < n -> 0 < cool_max_age e n.
Proof. intros Hn. unfold cool_max_age. destruct (Z.ltb_spec (now e) n); lia. Qed.

(** A cool-down of [n], cleared by zero, for the version in force. *)
Lemma setCoolUntil_spec n pv s : good s -> n = 0 \/ (0 <= n /\ now e < n) -> 0 <= now e ->
  let ver := resolveProductVersion pv (win s) in
  exists s', setCoolUntil e n pv s = (tt, s') /\
    becomes s s' (with_cool (abs s) (if kept s then n else 0)
      (if now e <? n then if ver =s "" then coolver_of s else ver else "")).
Proof.
  intros Hg Hn Hnow ver.
  assert (cool_text n <> "" -> 0 < cool_max_age e n) as Hage.
  { unfold cool_text. destruct Hn as [->|[_ Hn]]; [done|]. intros _. by apply cool_max_age_pos. }
  destruct (scoped_dual COOL_KEY COOL_KEY_LEGACY COOL_COOKIE COOL_COOKIE_LEGACY (cool_text n) (cool_max_age e n) s)
    as (s1 & Hs1 & U); [in_pairs|by right|done|done|].
  assert ((if cool_text n <>s "" then [ls_set COOL_KEY (cool_text n); ls_set COOL_KEY_LEGACY (cool_text n)]
           else [ls_remove COOL_KEY; ls_remove COOL_KEY_LEGACY]) =
          (if negb (n =? 0) then [ls_set COOL_KEY (cool_text n); ls_set COOL_KEY_LEGACY (cool_text n)]
           else [ls_remove (B := B) COOL_KEY; ls_remove COOL_KEY_LEGACY])) as Heq.
  { unfold cool_text. destruct (Z.eqb_spec n 0); [done|]. by rewrite print_ne by lia. }
  rewrite Heq in Hs1. unfold setCoolUntil. fold (cool_text n). cbv zeta.
  erewrite run by exact Hs1. rewrite scoped_write_run.
  set (s2 := scoped_write _ _ _ _ _) in *.
  pose proof (cool_of_upd n s s2 Hg ltac:(lia) U) as Ha.
  assert (good s2) as Hg2 by (by destruct U).
  destruct (Z.ltb_spec (now e) n) as [Hlt|Hge].
  - unfold bind, asks. rewrite (u_win _ _ _ _ _ _ U). fold ver.
    destruct (String.eqb_spec ver "") as [Hv|Hv]; cbn [negb].
    + exists s2. split; [done|]. by eapply upd_becomes.
    + destruct (setCoolProductVersion_upd ver (cool_max_age e n) s2) as (s3 & -> & U3); [done| |].
      { intros _. by apply cool_max_age_pos. }
      exists s3. split; [done|]. eapply becomes_trans; [by eapply upd_becomes|].
      eapply upd_becomes; [exact U3|]. rewrite (coolver_upd ver s2 s3) by done.
      injection Ha as -> _ -> ->. done.
  - destruct (setCoolProductVersion_upd "" 0 s2) as (s3 & -> & U3); [done|done|].
    exists s3. split; [done|]. eapply becomes_trans; [by eapply upd_becomes|].
    eapply upd_becomes; [exact U3|]. rewrite (coolver_upd "" s2 s3) by done.
    injection Ha as -> _ -> ->. done.
Qed.

Lemma clearCool_spec s : good s -> 0 <= now e ->
  exists s', setCoolUntil e 0 "" s = (tt, s') /\ becomes s s' (with_cool (abs s) 0 "").
Proof.
  intros Hg Hn. destruct (setCoolUntil_spec 0 "" s Hg (or_introl eq_refl) Hn) as (s' & Hs & Hb).
  exists s'. split; [done|]. cbv zeta in Hb. destruct (Z.ltb_spec (now e) 0); [lia|].
  assert ((if kept s then 0 else 0) = 0) as E0 by (by destruct (kept s)). by rewrite E0 in Hb.
Qed.

(** ** The page gate *)

Lemma same_page_reads w w' : same_page w w' ->
  siteToken w' = siteToken w /\ (forall v, resolveProductVersion v w' = resolveProductVersion v w) /\
  micro_sid w' = micro_sid w /\ page_mint w' = page_mint w.
Proof.
  intros Hs. unfold siteToken, resolveProductVersion, micro_sid, page_mint, boot, gtrue.
  rewrite !Hs by done. by repeat split.
Qed.

(** A change of the window that keeps the site token keeps the four values. *)
Lemma good_win w s : good s -> good (mkSt w (br s)).
Proof. intros [Hm Ha Hd]. by split. Qed.

Lemma abs_win w s : siteToken w = siteToken (win s) -> abs (mkSt w (br s)) = abs s.
Proof.
  intros Ht. unfold abs, cool_of, coolver_of, cycle_of, cyclever_of, scopedCookieName. cbn [win].
  rewrite Ht. done.
Qed.

Lemma becomes_win w s s' a : becomes s s' a -> same_page (win s') w -> becomes s (mkSt w (br s')) a.
Proof.
  intros [w' ss o g h] Hw. destruct (same_page_reads _ _ Hw) as (Ht & _). split.
  - intros k Hk. by rewrite Hw, w'.
  - done.
  - done.
  - by apply good_win.
  - by rewrite abs_win.
Qed.

Lemma kick_ms_same k v w : same_page w (kick_ms k v w).
Proof. intros k' Hk. unfold kick_ms. by rewrite gget_gset_ne. Qed.

(** *** The cool-down rules *)

Definition spec_expire (a : abs_st) : abs_st :=
  if (0 <? a_cool a) && (a_cool a <=? now e) then with_cool a 0 "" else a.

Definition mismatched (ver : string) (a : abs_st) : bool :=
  (ver <>s "") && (now e <? a_cool a) && (a_coolver a <>s ver).

Definition spec_mismatch (ver : string) (a : abs_st) : abs_st :=
  if mismatched ver a then Abs 0 "" "" "" else a.

Definition cool_active (ver : string) (a : abs_st) : bool :=
  (now e <? a_cool a) && ((ver =s "") || (a_coolver a =s ver)).

Hypothesis Hnow : 0 <= now e.

Lemma get_step {A} (m : M B A) f s : reads_as m f -> good s ->
  exists s', m s = (f s, s') /\ becomes s s' (abs s) /\ good s' /\ abs s' = abs s /\ win s' = win s.
Proof.
  intros Hm Hg. destruct (Hm s Hg) as (s' & Hs & O). exists s'.
  pose proof (obs_becomes _ _ Hg O) as Hb. split; [done|]. split; [done|]. destruct Hb, O. done.
Qed.

Lemma clearCoolIfExpired_spec s : good s ->
  exists b s', clearCoolIfExpired e s = (b, s') /\ becomes s s' (spec_expire (abs s)).
Proof.
  intros Hg. unfold clearCoolIfExpired.
  destruct (get_step _ _ s getCoolUntil_spec Hg) as (s1 & E1 & B1 & G1 & A1 & _).
  erewrite run by exact E1. unfold spec_expire. cbn [a_cool abs].
  destruct ((0 <? cool_of s) && (cool_of s <=? now e)); [|by eexists _, s1].
  destruct (clearCool_spec s1 G1 Hnow) as (s2 & E2 & B2).
  erewrite run by exact E2. eexists _, s2. split; [done|].
  rewrite A1 in B2. by eapply becomes_trans.
Qed.

Lemma clearCoolIfVersionMismatch_spec pv s : good s ->
  let ver := resolveProductVersion pv (win s) in
  exists s', clearCoolIfVersionMismatch e pv s = (mismatched ver (abs s), s') /\
    becomes s s' (spec_mismatch ver (abs s)).
Proof.
  intros Hg ver. unfold clearCoolIfVersionMismatch, mismatched, spec_mismatch.
  erewrite run by done. fold ver. destruct (String.eqb_spec ver "") as [Hv|Hv].
  { unfold mismatched. rewrite Hv. exists s. split; [done|]. by apply obs_becomes. }
  destruct (get_step _ _ s getCoolUntil_spec Hg) as (s1 & E1 & B1 & G1 & A1 & W1).
  erewrite run by exact E1. unfold mismatched. cbn [a_cool a_coolver abs].
  apply String.eqb_neq in Hv as Hv'. rewrite Hv'. cbn [negb andb].
  destruct (now e <? cool_of s); cbn [negb andb]; [|by exists s1].
  destruct (get_step _ _ s1 getCoolProductVersion_spec G1) as (s2 & E2 & B2 & G2 & A2 & W2).
  erewrite run by exact E2. assert (coolver_of s1 = coolver_of s) as -> by (by apply (f_equal a_coolver) in A1).
  assert ((coolver_of s =s "") || (coolver_of s <>s ver) = (coolver_of s <>s ver)) as ->.
  { destruct (String.eqb_spec (coolver_of s) "") as [->|]; [|done]. simpl. by destruct ver. }
  assert (becomes s s2 (abs s)) as B12 by (rewrite <- A1; by eapply becomes_trans).
  destruct (coolver_of s =s ver); cbn [negb]; [by exists s2|].
  destruct (clearCool_spec s2 G2 Hnow) as (s3 & E3 & B3).
  erewrite run by exact E3.
  destruct (clearCycleId_spec s3) as (s4 & E4 & B4); [by destruct B3|].
  erewrite run by exact E4. unfold bind, modify, ret. eexists. split; [done|].
  apply becomes_win; [|intros k Hk; by rewrite !kick_ms_same].
  pose proof (b_abs _ _ _ B3) as A3. rewrite A3 in B4.
  eapply becomes_trans; [exact B12|]. eapply becomes_trans; [exact B3|]. exact B4.
Qed.

Lemma isCoolActive_spec pv s : good s ->
  let ver := resolveProductVersion pv (win s) in
  let a := spec_mismatch ver (spec_expire (abs s)) in
  exists s', isCoolActive e pv s = (cool_active ver a, s') /\ becomes s s' a.
Proof.
  intros Hg ver a. unfold isCoolActive.
  destruct (clearCoolIfExpired_spec s Hg) as (b & s1 & E1 & B1). erewrite run by exact E1.
  destruct (same_page_reads _ _ (b_win _ _ _ B1)) as (_ & Hr & _).
  destruct (clearCoolIfVersionMismatch_spec pv s1) as (s2 & E2 & B2); [by destruct B1|].
  erewrite run by exact E2. rewrite Hr in B2. fold ver in B2. rewrite (b_abs _ _ _ B1) in B2. fold a in B2.
  assert (becomes s s2 a) as B02 by (by eapply becomes_trans).
  destruct (get_step _ _ s2 getCoolUntil_spec ltac:(by destruct B2)) as (s3 & E3 & B3 & G3 & A3 & W3).
  erewrite run by exact E3. unfold cool_active. pose proof (b_abs _ _ _ B2) as A2.
  assert (cool_of s2 = a_cool a) as -> by (by rewrite <- A2).
  assert (becomes s s3 a) as B03 by (rewrite A2 in B3; by eapply becomes_trans).
  destruct (now e <? a_cool a); cbn [negb andb]; [|by exists s3].
  erewrite run by done. destruct (same_page_reads _ _ (b_win _ _ _ B03)) as (_ & Hr3 & _). rewrite Hr3. fold ver.
  destruct (String.eqb_spec ver "") as [Hv|Hv]; [by exists s3|]. cbn [orb].
  destruct (get_step _ _ s3 getCoolProductVersion_spec G3) as (s4 & E4 & B4 & _).
  erewrite run by exact E4. exists s4.
  assert (coolver_of s3 = a_coolver a) as -> by (by rewrite <- A2, <- A3).
  split; [|by eapply becomes_trans; [exact B03|]; rewrite A3, A2 in B4].
  unfold ret. f_equal. destruct (String.eqb_spec (a_coolver a) ver) as [->|]; [|by rewrite andb_false_r].
  by apply String.eqb_neq in Hv as ->.
Qed.

(** *** The gate *)

Definition spec_align (ver : string) (a : abs_st) : (bool * bool * string) * abs_st :=
  if ver =s "" then ((false, false, ""), a) else
  let m := mismatched ver a in
  let a1 := spec_mismatch ver a in
  let r := if m then "product_version_mismatch" else "" in
  if (a_cycle a1 <>s "") && (a_cyclever a1 <>s ver) then
    ((m, true, sor r (if a_cyclever a1 =s "" then "cycle_unstamped_legacy" else "cycle_version_mismatch")),
     with_cycle a1 "" "")
  else ((m, false, r), a1).

(** The cycles the page can offer: the micro-kick's, the page's, the tab's, a new one. *)
Record offers := mkOffers { of_micro : string; of_page : string; of_tab : string; of_new : string }.

Definition spec_choose (keep : bool) (ver : string) (o : offers) (reason : string) (cleared reminted : bool) (a : abs_st)
    : probe_state * abs_st :=
  let stamp := if ver =s "" then a_cyclever a else ver in
  let take id := with_cycle a (if keep then id else "") stamp in
  if of_micro o <>s "" then
    (mkProbeState false (of_micro o) reminted cleared (sor reason "micro_kick_join"), take (of_micro o))
  else if cycle_ok (a_cycle a) && ((ver =s "") || (a_cyclever a =s "") || (a_cyclever a =s ver)) then
    (mkProbeState false (a_cycle a) false cleared (sor reason "resume_incomplete_sticky"),
     with_cycle a (a_cycle a) stamp)
  else if of_page o <>s "" then
    (mkProbeState false (of_page o) false cleared (sor reason "page_mint_budget"), take (of_page o))
  else if cycle_ok (of_tab o) then
    (mkProbeState false (of_tab o) false cleared (sor reason "session_storage_page_budget"), take (of_tab o))
  else (mkProbeState false (of_new o) true cleared (sor reason "fresh_cycle"), take (of_new o)).

Definition spec_ensure (keep : bool) (ver : string) (o : offers) (a : abs_st) : probe_state * abs_st :=
  let '((cleared, reminted, reason), a1) := spec_align ver (spec_expire a) in
  if cool_active ver a1 then (mkProbeState true (a_cycle a1) reminted cleared reason, a1)
  else spec_choose keep ver o reason cleared reminted a1.

Definition offers_of (ver : string) (s : st B) : offers :=
  mkOffers (micro_sid (win s)) (page_mint (win s)) (ss_get (tab_key ver) (br s)) (mintCycleId e).

(** What a later visit of the gate on the page depends on. *)
Record gate_same (w w' : Win) : Prop := {
  gs_token : siteToken w' = siteToken w;
  gs_ver : forall v, resolveProductVersion v w' = resolveProductVersion v w;
  gs_micro : micro_sid w' = micro_sid w
}.

#[local] Instance gate_same_pre : PreOrder gate_same.
Proof. split; [by split|]. intros w1 w2 w3 [] []. split; intros; congruence. Qed.

Lemma gate_same_except w w' : (forall k, k <> "__GR_KICK_MS__" -> k <> "__GR_PAGE_CYCLE_MINTED__" ->
  gget k w' = gget k w) -> gate_same w w'.
Proof.
  intros Hs. split; intros; unfold siteToken, resolveProductVersion, micro_sid, boot, gtrue; by rewrite !Hs.
Qed.

Record lands (s s' : st B) (a : abs_st) : Prop := {
  ld_gate : gate_same (win s) (win s');
  ld_ok : ls_ok (br s') = ls_ok (br s);
  ld_good : good s';
  ld_abs : abs s' = a
}.

Lemma becomes_lands s s' a : becomes s s' a -> lands s s' a.
Proof.
  intros [w ss o g h]. split; [|done..]. destruct (same_page_reads _ _ w) as (? & ? & ? & _). by split.
Qed.

Lemma lands_trans s s1 s2 a b : lands s s1 a -> lands s1 s2 b -> lands s s2 b.
Proof. intros [] []. split; [by etrans|congruence|done|done]. Qed.

Lemma lands_win f s s' a : lands s s' a ->
  (forall w k, k <> "__GR_KICK_MS__" -> k <> "__GR_PAGE_CYCLE_MINTED__" -> gget k (f w) = gget k w) ->
  lands s (mkSt (f (win s')) (br s')) a.
Proof.
  intros [g o h i] Hf. assert (gate_same (win s') (f (win s'))) as Hs by (apply gate_same_except; intros k Hk Hk'; by apply Hf).
  split; [by etrans|done|by apply good_win|]. rewrite abs_win; [done|apply Hs].
Qed.

Lemma lands_ss k v s : good s ->
  exists s', try_ops [ss_set k v] s = (tt, s') /\ lands s s' (abs s) /\ win s' = win s.
Proof.
  intros Hg. simpl. destruct (ss_set k v (br s)) as [b|] eqn:Hb; eexists; (split; [done|]).
  - apply ss_set_law in Hb as (_ & Hl & Hj & Hr). split; [|done]. split; [done|by destruct Hr|..].
    + destruct Hr as (r1 & r2 & r3 & r4). destruct Hg as [Hm Ha Ht]. split; cbn [win br].
      * by rewrite r1, r2.
      * intros c. rewrite r4. apply Ha.
      * intros en. rewrite Hj. apply Ht.
    + unfold abs, cool_of, coolver_of, cycle_of, cyclever_of, ls2, ck2, ck. cbn [win br].
      destruct (cookie_text_law (now e) (br s)) as [E1 _]. destruct (cookie_text_law (now e) b) as [E2 _].
      rewrite Hj in E2. rewrite E1, E2, !Hl. done.
  - by split.
Qed.

Lemma align_version_spec ver s : good s -> resolveProductVersion ver (win s) = ver ->
  exists s', align_version e ver s = (fst (spec_align ver (abs s)), s') /\
    becomes s s' (snd (spec_align ver (abs s))).
Proof.
  intros Hg Hver. unfold align_version, spec_align.
  destruct (String.eqb_spec ver "") as [->|Hv]; [exists s; split; [done|by apply obs_becomes]|].
  destruct (clearCoolIfVersionMismatch_spec ver s Hg) as (s1 & E1 & B1). rewrite Hver in *.
  erewrite run by exact E1. set (a1 := spec_mismatch ver (abs s)) in *. set (m := mismatched ver (abs s)) in *.
  pose proof (b_abs _ _ _ B1) as A1.
  destruct (get_step _ _ s1 getCycleProductVersion_spec ltac:(by destruct B1)) as (s2 & E2 & B2 & G2 & A2 & _).
  erewrite run by exact E2.
  destruct (get_step _ _ s2 getCycleId_spec G2) as (s3 & E3 & B3 & G3 & A3 & _).
  erewrite run by exact E3.
  assert (cyclever_of s1 = a_cyclever a1) as -> by (by rewrite <- A1).
  assert (cycle_of s2 = a_cycle a1) as -> by (by rewrite <- A1, <- A2).
  assert (becomes s s3 a1) as B13 by (rewrite A2, A1 in B3; by eapply becomes_trans; [|eapply becomes_trans]).
  assert (abs s3 = a1) as A13 by (by destruct B13).
  destruct (clearCycleId_spec s3 G3) as (s4 & E4 & B4). rewrite A13 in B4.
  assert (becomes s s4 (with_cycle a1 "" "")) as B14 by (by eapply becomes_trans).
  destruct (String.eqb_spec (a_cycle a1) "") as [Hc|Hc]; cbn [negb andb]; [by exists s3|].
  destruct (String.eqb_spec (a_cyclever a1) "") as [Hcv|Hcv]; cbn [negb andb].
  - rewrite Hcv. destruct (String.eqb_spec "" ver) as [<-|_]; [done|]. cbn [negb].
    erewrite run by exact E4. by exists s4.
  - destruct (a_cyclever a1 =s ver); cbn [negb]; [by exists s3|]. erewrite run by exact E4. by exists s4.
Qed.

(** Storing a well-formed cycle, as the branches of the gate do. *)
Lemma take_spec id ver s : good s -> resolveProductVersion ver (win s) = ver -> cycle_ok id = true ->
  exists s', setCycleId e id ver s = (tt, s') /\
    becomes s s' (with_cycle (abs s) (if kept s then id else "") (if ver =s "" then a_cyclever (abs s) else ver)).
Proof.
  intros Hg Hver Hid. destruct (setCycleId_spec id ver s Hg Hid) as (s' & Hs & Hb).
  cbv zeta in Hb. rewrite Hver in Hb. by exists s'.
Qed.

Lemma kept_lands s s' a : lands s s' a -> kept s' = kept s.
Proof. intros [[Ht _ _] Ho _ _]. unfold kept. by rewrite Ht, Ho. Qed.

Lemma micro_ok w : (micro_sid w =s "") = false -> cycle_ok (micro_sid w) = true.
Proof. unfold micro_sid. cbv zeta. destruct (_ && cycle_ok _) eqn:E; [by breflect|done]. Qed.

Lemma page_ok w : (page_mint w =s "") = false -> cycle_ok (page_mint w) = true.
Proof. unfold page_mint. cbv zeta. destruct (_ && cycle_ok _) eqn:E; [by breflect|done]. Qed.

Hypothesis Hmint : 16 ^ 5 <= now e.

Lemma mint_ok : cycle_ok (mintCycleId e) = true.
Proof.
  pose proof (to_radix_length 16 (now e) 5 ltac:(lia) Hmint) as Hl. unfold cycle_ok, mintCycleId.
  apply andb_true_iff. split; [apply prefix_iff; by eexists|]. apply Nat.leb_le. rewrite !Json.string_length_app. simpl String.length. lia.
Qed.

Lemma report_remint_lands r ver s : good s ->
  exists s', report_remint r ver s = (tt, s') /\ lands s s' (abs s).
Proof.
  intros Hg. unfold report_remint. erewrite run by done.
  destruct (_ =s "1"); [exists s; split; [done|]; by apply becomes_lands, obs_becomes|].
  destruct (lands_ss (remint_key ver) "1" s Hg) as (s1 & E1 & L1 & _). erewrite run by exact E1.
  eexists. split; [done|]. apply lands_win; [done|]. intros w k _ _. apply gget_ops_report.
Qed.

Lemma fresh_cycle_spec ver r c s : good s -> resolveProductVersion ver (win s) = ver ->
  exists s', fresh_cycle e ver r c s = (mkProbeState false (mintCycleId e) true c (sor r "fresh_cycle"), s') /\
    lands s s' (with_cycle (abs s) (if kept s then mintCycleId e else "") (if ver =s "" then a_cyclever (abs s) else ver)).
Proof.
  intros Hg Hver. unfold fresh_cycle. cbv zeta. erewrite run by done.
  set (f := gset "__GR_PAGE_CYCLE_MINTED__" (VStr (mintCycleId e))).
  set (s1 := mkSt (f (win s)) (br s)).
  assert (lands s s1 (abs s)) as L1.
  { apply lands_win; [by apply becomes_lands, obs_becomes|]. intros w k _ Hk. unfold f. by rewrite gget_gset_ne. }
  destruct (lands_ss (tab_key ver) (mintCycleId e) s1 ltac:(by destruct L1)) as (s2 & E2 & L2 & W2).
  erewrite run by exact E2. pose proof (lands_trans _ _ _ _ _ L1 L2) as L12.
  assert (resolveProductVersion ver (win s2) = ver) as Hver2 by (destruct L12 as [[_ -> _] _ _ _]; done).
  destruct (take_spec (mintCycleId e) ver s2 ltac:(by destruct L2) Hver2 mint_ok) as (s3 & E3 & B3).
  erewrite run by exact E3. erewrite run by done.
  assert (abs s2 = abs s) as A2 by (destruct L2 as [_ _ _ ->], L1 as [_ _ _ ->]; done). rewrite A2 in B3.
  rewrite (kept_lands _ _ _ L12) in B3.
  set (out := mkProbeState _ _ _ _ _). set (s4 := mkSt (note_state out ver (win s3)) (br s3)).
  assert (lands s s4 (with_cycle (abs s) (if kept s then mintCycleId e else "") (if ver =s "" then a_cyclever (abs s) else ver))) as L4.
  { apply lands_win; [by eapply lands_trans; [|apply becomes_lands]|]. intros w k Hk _. by apply kick_ms_same. }
  destruct (report_remint_lands (ps_reason out) ver s4 ltac:(by destruct L4)) as (s5 & E5 & L5).
  erewrite run by exact E5. exists s5. split; [done|].
  rewrite (ld_abs _ _ _ L4) in L5. by eapply lands_trans.
Qed.

Lemma choose_cycle_spec ver r c m s : good s -> resolveProductVersion ver (win s) = ver ->
  exists s', choose_cycle e ver r c m s = (fst (spec_choose (kept s) ver (offers_of ver s) r c m (abs s)), s') /\
    lands s s' (snd (spec_choose (kept s) ver (offers_of ver s) r c m (abs s))).
Proof.
  intros Hg Hver. unfold choose_cycle, spec_choose, offers_of. cbn [of_micro of_page of_tab of_new].
  erewrite run by done. destruct (micro_sid (win s) =s "") eqn:Em; cbn [negb].
  2: { destruct (take_spec _ ver s Hg Hver (micro_ok _ Em)) as (s1 & E1 & B1).
       erewrite run by exact E1. exists s1. split; [done|]. by apply becomes_lands. }
  destruct (get_step _ _ s getCycleId_spec Hg) as (s1 & E1 & B1 & G1 & A1 & W1). erewrite run by exact E1.
  destruct (get_step _ _ s1 getCycleProductVersion_spec G1) as (s2 & E2 & B2 & G2 & A2 & W2). erewrite run by exact E2.
  assert (abs s2 = abs s) as A by congruence. assert (win s2 = win s) as W by congruence.
  assert (becomes s s2 (abs s)) as B02 by (rewrite A1 in B2; by eapply becomes_trans).
  pose proof (kept_lands _ _ _ (becomes_lands _ _ _ B02)) as K.
  assert (cycle_of s = a_cycle (abs s)) as -> by done.
  assert (cyclever_of s1 = a_cyclever (abs s)) as -> by (by rewrite <- A1).
  assert (resolveProductVersion ver (win s2) = ver) as Hver2 by (by rewrite W).
  destruct (cycle_ok (a_cycle (abs s)) && _) eqn:Es.
  - cbv zeta. destruct ((ver <>s "") && (a_cyclever (abs s) =s "")) eqn:Est.
    + breflect. destruct (setCycleProductVersion_upd ver 86400 s2) as (s3 & E3 & U3); [done|done|].
      erewrite run by exact E3. erewrite run by done. eexists. split; [done|].
      apply lands_win; [|intros w k Hk _; by apply kick_ms_same].
      apply becomes_lands. eapply becomes_trans; [exact B02|]. eapply upd_becomes; [exact U3|].
      rewrite (cyclever_upd ver s2 s3) by done. cbn [snd].
      match goal with Hv : ver <> "" |- _ => apply String.eqb_neq in Hv; rewrite Hv end.
      rewrite <- A. done.
    + erewrite run by done. erewrite run by done. eexists. split; [done|].
      apply lands_win; [|intros w k Hk _; by apply kick_ms_same]. apply becomes_lands. cbn [snd].
      replace (with_cycle _ _ _) with (abs s); [done|]. unfold with_cycle, abs. cbn [a_cool a_coolver a_cycle a_cyclever].
      f_equal. cbn [abs a_cycle a_cyclever] in *. destruct (String.eqb_spec ver "") as [Hv|Hv]; [done|].
      cbn [negb andb orb] in *. breflect.
      match goal with Hx : _ || _ = true |- _ => apply orb_true_iff in Hx as [Hx%String.eqb_eq|Hx%String.eqb_eq] end; congruence.
  - erewrite run by done. rewrite W. destruct (page_mint (win s) =s "") eqn:Ep; cbn [negb].
    2: { destruct (take_spec _ ver s2 G2 Hver2 (page_ok _ Ep)) as (s3 & E3 & B3). rewrite A, K in B3.
         erewrite run by exact E3. exists s3. split; [done|]. apply becomes_lands. by eapply becomes_trans. }
    erewrite run by done. rewrite (b_ss _ _ _ B02).
    destruct (cycle_ok (ss_get (tab_key ver) (br s))) eqn:Et.
    + destruct (take_spec _ ver s2 G2 Hver2 Et) as (s3 & E3 & B3). rewrite A, K in B3.
      erewrite run by exact E3. erewrite run by done. eexists. split; [done|].
      apply lands_win; [|intros w k _ Hk; by rewrite gget_gset_ne].
      apply becomes_lands. by eapply becomes_trans.
    + destruct (fresh_cycle_spec ver r c s2 G2 Hver2) as (s3 & E3 & L3). rewrite A, K in L3.
      exists s3. split; [done|]. eapply lands_trans; [by apply becomes_lands|done].
Qed.

Lemma resolve_idem pv w : resolveProductVersion (resolveProductVersion pv w) w = resolveProductVersion pv w.
Proof.
  destruct (String.eqb_spec (resolveProductVersion pv w) "") as [Hv|Hv].
  - rewrite Hv. destruct (String.eqb_spec pv "") as [->|Hp]; [done|]. unfold resolveProductVersion in Hv.
    apply String.eqb_neq in Hp as Hp2. rewrite Hp2 in Hv. done.
  - apply String.eqb_neq in Hv. unfold resolveProductVersion at 1. by rewrite Hv.
Qed.

(** After alignment the cool-down rules have nothing left to do. *)
Lemma align_settled ver a : let a1 := snd (spec_align ver (spec_expire a)) in
  spec_expire a1 = a1 /\ spec_mismatch ver a1 = a1.
Proof.
  assert (forall a, spec_expire (spec_expire a) = spec_expire a) as He.
  { clear. intros a. destruct ((0 <? a_cool a) && (a_cool a <=? now e)) eqn:E; unfold spec_expire; rewrite E;
      [reflexivity|by rewrite E]. }
  unfold spec_align. destruct (String.eqb_spec ver "") as [->|Hv]; cbv zeta; [by split; [apply He|]|].
  set (a0 := spec_expire a). assert (spec_expire a0 = a0) as H0' by apply He. clearbody a0.
  unfold spec_mismatch. destruct (mismatched ver a0) eqn:Em; simpl.
  - split; [done|]. unfold mismatched. simpl. destruct (Z.ltb_spec (now e) 0); [lia|]. by rewrite andb_false_r.
  - destruct (_ && _); simpl; [|by rewrite Em]. split.
    + unfold spec_expire in *. cbn [a_cool with_cycle] in *. destruct (_ && _); [|done].
      apply (f_equal a_cool) in H0' as Hc. apply (f_equal a_coolver) in H0' as Hcv. simpl in *.
      unfold with_cool, with_cycle. simpl. by rewrite <- Hc, <- Hcv.
    + unfold mismatched in *. cbn [a_cool a_coolver with_cycle] in *. by rewrite Em.
Qed.

Lemma ensure_run pv s : good s ->
  let ver := resolveProductVersion pv (win s) in
  let r := spec_ensure (kept s) ver (offers_of ver s) (abs s) in
  exists s', ensureProbeStateForVersion e pv s = (fst r, s') /\ lands s s' (snd r).
Proof.
  intros Hg ver r. subst r. unfold ensureProbeStateForVersion, spec_ensure. erewrite run by done. fold ver.
  destruct (clearCoolIfExpired_spec s Hg) as (b & s1 & E1 & B1). erewrite run by exact E1.
  destruct (same_page_reads _ _ (b_win _ _ _ B1)) as (_ & Hr1 & _).
  assert (resolveProductVersion ver (win s1) = ver) as Hv1 by (rewrite Hr1; apply resolve_idem).
  destruct (align_version_spec ver s1 ltac:(by destruct B1) Hv1) as (s2 & E2 & B2).
  rewrite (b_abs _ _ _ B1) in *. erewrite run by exact E2.
  destruct (align_settled ver (abs s)) as [Hs1 Hs2]. cbv zeta in *.
  destruct (spec_align ver (spec_expire (abs s))) as [[[c m] rs] a1]. cbn [fst snd] in *.
  assert (becomes s s2 a1) as B02 by (by eapply becomes_trans).
  destruct (same_page_reads _ _ (b_win _ _ _ B02)) as (_ & Hr2 & _).
  assert (resolveProductVersion ver (win s2) = ver) as Hv2 by (rewrite Hr2; apply resolve_idem).
  destruct (isCoolActive_spec ver s2 ltac:(by destruct B02)) as (s3 & E3 & B3). cbv zeta in *.
  rewrite Hv2, (b_abs _ _ _ B02), Hs1, Hs2 in *. erewrite run by exact E3.
  assert (becomes s s3 a1) as B03 by (by eapply becomes_trans).
  assert (good s3) as G3 by (by destruct B03). pose proof (b_abs _ _ _ B03) as A3.
  destruct (cool_active ver a1).
  - destruct (get_step _ _ s3 getCycleId_spec G3) as (s4 & E4 & B4 & _). erewrite run by exact E4.
    exists s4. assert (cycle_of s3 = a_cycle a1) as -> by (by rewrite <- A3). split; [done|].
    rewrite A3 in B4. apply becomes_lands. by eapply becomes_trans.
  - destruct (same_page_reads _ _ (b_win _ _ _ B03)) as (_ & Hr3 & Hmi & Hpg).
    assert (resolveProductVersion ver (win s3) = ver) as Hv3 by (rewrite Hr3; apply resolve_idem).
    destruct (choose_cycle_spec ver rs c m s3 G3 Hv3) as (s4 & E4 & L4).
    rewrite A3, (kept_lands _ _ _ (becomes_lands _ _ _ B03)) in *.
    assert (offers_of ver s3 = offers_of ver s) as Ho.
    { unfold offers_of. by rewrite Hmi, Hpg, (b_ss _ _ _ B03). }
    rewrite Ho in *. exists s4. split; [done|]. eapply lands_trans; [by apply becomes_lands|done].
Qed.

(** *** What the rules give *)

Definition offers_ok (o : offers) : Prop :=
  (of_micro o = "" \/ cycle_ok (of_micro o) = true) /\ (of_page o = "" \/ cycle_ok (of_page o) = true) /\
  cycle_ok (of_new o) = true.

Lemma offers_of_ok ver s : offers_ok (offers_of ver s).
Proof.
  unfold offers_ok, offers_of. simpl. repeat split; [..|exact mint_ok].
  - destruct (micro_sid (win s) =s "") eqn:E; [left; by apply String.eqb_eq|right; by apply micro_ok].
  - destruct (page_mint (win s) =s "") eqn:E; [left; by apply String.eqb_eq|right; by apply page_ok].
Qed.

Lemma cycle_ok_ne id : cycle_ok id = true -> (id =s "") = false.
Proof. by destruct id. Qed.

(** The cycle chosen is well formed, remembered if the stores keep it, stamped. *)
Lemma spec_choose_taken keep ver o r c m a : offers_ok o ->
  let '(out, a') := spec_choose keep ver o r c m a in
  cycle_ok (ps_cycleId out) = true /\ ps_coolActive out = false /\ ps_coolCleared out = c /\
  a_cool a' = a_cool a /\ a_coolver a' = a_coolver a /\
  a_cyclever a' = (if ver =s "" then a_cyclever a else ver) /\
  (keep = true -> a_cycle a' = ps_cycleId out) /\
  (of_micro o = "" \/ ps_cycleId out = of_micro o).
Proof.
  intros ([Hm|Hm] & Hp & Hn); unfold spec_choose; cbv zeta; [rewrite Hm|rewrite (cycle_ok_ne _ Hm)]; cbn [negb].
  - simpl. destruct (cycle_ok (a_cycle a) && _) eqn:Es; [by breflect; repeat split; try done; left|].
    destruct (of_page o =s "") eqn:Ep; cbn [negb].
    + destruct (cycle_ok (of_tab o)) eqn:Et; repeat split; simpl; try done; try (by intros ->); by left.
    + destruct Hp as [Hp|Hp]; [by rewrite Hp in Ep|]. repeat split; simpl; try done; try (by intros ->); by left.
  - repeat split; simpl; try done; try (by intros ->); by right.
Qed.

(** A second visit of the gate on the same page changes nothing. *)
Lemma spec_again ver o o' a : offers_ok o -> of_micro o' = of_micro o ->
  let '(out, a1) := spec_ensure true ver o a in
  let '(out', a2) := spec_ensure true ver o' a1 in
  ps_coolActive out' = ps_coolActive out /\ ps_cycleId out' = ps_cycleId out /\
  ps_reminted out' = false /\ ps_coolCleared out' = false /\ a2 = a1.
Proof.
  intros Ho Hmi. unfold spec_ensure at 1. destruct (align_settled ver a) as [Hs1 Hs2]. cbv zeta in *.
  assert (forall a1 : abs_st, spec_expire a1 = a1 -> spec_mismatch ver a1 = a1 -> mismatched ver a1 = false ->
    (a_cycle a1 = "" \/ ver = "" \/ a_cyclever a1 = ver) -> spec_align ver (spec_expire a1) = ((false, false, ""), a1)) as Hal.
  { clear. intros a1 H1 H2 H3 H4. rewrite H1. unfold spec_align. cbv zeta. rewrite H2, H3.
    destruct (ver =s "") eqn:Ev; [done|]. destruct H4 as [->|[->| ->]]; [done|done|].
    rewrite String.eqb_refl. by rewrite andb_false_r. }
  assert (forall a1, spec_mismatch ver a1 = a1 -> mismatched ver a1 = false) as Hmm.
  { clear -Hnow. intros a1 H1. unfold spec_mismatch in H1. destruct (mismatched ver a1) eqn:E; [|done].
    rewrite <- H1 in E. unfold mismatched in E. simpl in E. destruct (Z.ltb_spec (now e) 0); [lia|].
    by rewrite andb_false_r in E. }
  assert (let a1 := snd (spec_align ver (spec_expire a)) in a_cycle a1 = "" \/ ver = "" \/ a_cyclever a1 = ver) as Hcv.
  { clear. unfold spec_align. cbv zeta. destruct (String.eqb_spec ver "") as [->|]; [by right; left|].
    set (a1 := spec_mismatch _ _). destruct (String.eqb_spec (a_cycle a1) "") as [E|]; cbn [negb andb snd]; [by left|].
    destruct (String.eqb_spec (a_cyclever a1) ver) as [E|]; cbn [negb snd]; [by right; right|by left]. }
  cbv zeta in Hcv. destruct (spec_align ver (spec_expire a)) as [[[c m] rs] a1]. cbn [fst snd] in *.
  destruct (cool_active ver a1) eqn:Eca.
  - unfold spec_ensure. rewrite Hal by auto. rewrite Eca. by repeat split.
  - pose proof (spec_choose_taken true ver o rs c m a1 Ho) as Ht.
    destruct (spec_choose true ver o rs c m a1) as [out a2].
    destruct Ht as (Hok & Hca & Hcc & E1 & E2 & E3 & E4 & E5). specialize (E4 eq_refl).
    assert (spec_expire a2 = a2 /\ spec_mismatch ver a2 = a2 /\ mismatched ver a2 = false /\ cool_active ver a2 = false)
      as (Hx1 & Hx2 & Hx3 & Hx4).
    { pose proof (Hmm a1 Hs2) as Hm1. unfold mismatched, cool_active in *. rewrite E1, E2.
      repeat split; [| |done|done].
      - unfold spec_expire in *. rewrite E1. destruct (_ && _) eqn:E; [|done].
        apply (f_equal a_cool) in Hs1 as Hc. simpl in Hc. rewrite <- Hc in E. simpl in E. done.
      - unfold spec_mismatch, mismatched. by rewrite E1, E2, Hm1. }
    unfold spec_ensure. rewrite Hal, Hx4; [|done|done|done|].
    2: { right. destruct (String.eqb_spec ver "") as [|]; [by left|by right]. }
    unfold spec_choose. rewrite Hmi. cbv zeta.
    destruct (of_micro o =s "") eqn:Em; cbn [negb].
    + rewrite E4, Hok. cbn [andb].
      assert ((ver =s "") || (a_cyclever a2 =s "") || (a_cyclever a2 =s ver) = true) as ->.
      { rewrite E3. destruct (ver =s "") eqn:Ev; [done|]. by rewrite String.eqb_refl, orb_true_r. }
      repeat split; simpl; try done. unfold with_cycle. rewrite <- E4. destruct a2 as [c2 cv2 cy2 cyv2]. simpl in *.
      rewrite E3. by destruct (ver =s "").
    + destruct E5 as [E5|E5]; [by rewrite E5 in Em|]. rewrite Hca, <- E5. repeat split; try done.
      rewrite <- E4. unfold with_cycle. destruct a2 as [c2 cv2 cy2 cyv2]. simpl in *. rewrite E3.
      by destruct (ver =s "").
Qed.
End Stores.

(** ** Host names *)

(** The host consists of labels of letters, digits and hyphens. *)
Definition host_ok (h : string) : bool := forallb (all_chars_of label_char) (split_on "." h).

Lemma contains_split h : contains "." h = false -> split_on "." h = [h].
Proof.
  induction h as [|c h IH]; [done|]. intros Hc. cbn [contains] in Hc. apply orb_false_iff in Hc as [Hp Hc].
  cbn [split_on]. rewrite IH by done. destruct (Ascii.eqb_spec "." c) as [<-|]; [|done].
  exfalso. revert Hp. by destruct h.
Qed.

Lemma skipn_rev3 {A} (l : list A) x y z r : rev l = z :: y :: x :: r ->
  List.skipn (length l - 3) l = [x; y; z] /\ (3 <= length l)%nat.
Proof.
  intros Hr. assert (l = rev r ++ [x; y; z]) as ->.
  { rewrite <- (rev_involutive l), Hr. simpl. by rewrite <- !app_assoc. }
  rewrite length_app. simpl. split; [|lia].
  replace (length (rev r) + 3 - 3)%nat with (length (rev r)) by lia. by rewrite List.skipn_app, skipn_all, Nat.sub_diag.
Qed.

(** The parent domain is among the domains whose cookies are removed. *)
Lemma parent_expired h : host_ok h = true ->
  parentCookieDomain h = "" \/ In (parentCookieDomain h) (expire_domains h).
Proof.
  intros Hh. unfold parentCookieDomain. destruct (h =s "") eqn:E0; [by left|].
  destruct ((h =s "localhost") || is_ipv4 h || contains ":" h) eqn:E1; cbn [orb]; [by rewrite E1; left|].
  rewrite E1. cbv zeta.
  destruct (Nat.ltb_spec (length (split_on "." h)) 2) as [|Hlen]; [by left|].
  destruct (mem_str _ _); [by left|]. right. unfold expire_domains. rewrite E0.
  destruct (contains "." h) eqn:Ec; [|rewrite contains_split in Hlen by done; simpl in Hlen; lia]. cbn [negb orb].
  unfold host_ok in Hh. set (parts := split_on "." h) in *. clearbody parts.
  assert (forall n, (2 <= n <= length parts)%nat -> In ("." +:+ join "." (List.skipn (length parts - n) parts))
    (map (fun i => "." +:+ join "." (List.skipn i parts)) (seq 0 (length parts - 1)))) as Hin.
  { intros n Hn. apply in_map_iff. eexists. split; [done|]. apply in_seq. lia. }
  unfold second_level. destruct (rev parts) as [|z [|y [|x r]]] eqn:Er; try (apply Hin; lia).
  destruct (_ && _) eqn:Em; [|apply Hin; lia]. breflect.
  destruct (skipn_rev3 parts x y z r Er) as [Hs Hl].
  assert (label_suffix x = x) as ->.
  { assert (In x parts) as Hx by (rewrite in_rev, Er; simpl; auto).
    rewrite forallb_forall in Hh. specialize (Hh x Hx). destruct x as [|c x]; [done|]. cbn [label_suffix]. by rewrite Hh. }
  specialize (Hin 3%nat ltac:(lia)). rewrite Hs in Hin. exact Hin.
Qed.

(** ** Properties *)

Definition hosted (e : env) : Prop := host_ok (hostname e) = true /\ 16 ^ 5 <= now e.

(** C13: The page gate [ensureProbeStateForVersion], for every browser that accepts the
    page's own cookies and whose [localStorage] either works or is blocked, does to the
    cool-down, the cycle and their version stamps what the rules [spec_ensure] say, and
    returns what they say, whatever legacy names, cookies and stores the values were
    read from. *)
Theorem ensure_refines {B} `{BrowserLaws B} e pv (s : st B) : hosted e -> good e s ->
  let ver := resolveProductVersion pv (win s) in
  let r := spec_ensure e (kept s) ver (offers_of e ver s) (abs e s) in
  exists s', ensureProbeStateForVersion e pv s = (fst r, s') /\ good e s' /\ abs e s' = snd r.
Proof.
  intros [Hh Hn] Hg ver r. destruct (ensure_run e (parent_expired _ Hh) ltac:(lia) Hn pv s Hg) as (s' & Hs & L).
  exists s'. split; [done|]. by destruct L.
Qed.

Definition env_later : env := mkEnv 1700000300000 "shop.example.com" true "x" "y".

(** A visit five minutes later. *)
Definition st2 : st mem := snd (ensureProbeStateForVersion env1 "1.2.3" st1).

Lemma good_mem e (s : st mem) :
  m_host (br s) = hostname e -> m_cookies (br s) = true ->
  domain_ok (hostname e) (parentCookieDomain (hostname e)) = true ->
  forallb (fun en => (e_dom en =s "") || (e_dom en =s parentCookieDomain (hostname e))) (mem_jar (now e) (br s)) = true ->
  good e s.
Proof.
  intros Hh Hc Hd Hj. split.
  - simpl. destruct (m_ls (br s)); [left|right]; by apply bool_decide_eq_true.
  - intros c Hn Hr Hdom. simpl. unfold mem_accepts. rewrite Hc, Hn, Hr, Hh. destruct Hdom as [->| ->]; [done|].
    by rewrite Hd.
  - intros en Hin. rewrite forallb_forall in Hj. specialize (Hj en Hin).
    apply orb_true_iff in Hj as [Hj%String.eqb_eq|Hj%String.eqb_eq]; auto.
Qed.

Lemma ensure_refines_witness :
  let r := spec_ensure env_later (kept st2) "1.2.4" (offers_of env_later "1.2.4" st2) (abs env_later st2) in
  ps_reason (fst r) = "cycle_version_mismatch" /\
  exists s', ensureProbeStateForVersion env_later "1.2.4" st2 = (fst r, s') /\
    good env_later s' /\ abs env_later s' = snd r.
Proof.
  split; [vm_compute; reflexivity|]. apply (ensure_refines env_later "1.2.4" st2).
  - split; vm_compute; [reflexivity|discriminate].
  - apply good_mem; vm_compute; reflexivity.
Defined.

(** Where scoped values are kept, a second visit of the gate on the same page (the
    micro-kick and the boot script both make one) finds the same cycle and the same
    cool-down, starts no new cycle and clears nothing. *)
Theorem ensure_resumes {B} `{BrowserLaws B} e pv (s : st B) : hosted e -> good e s -> kept s = true ->
  let '(out, s1) := ensureProbeStateForVersion e pv s in
  let '(out', s2) := ensureProbeStateForVersion e pv s1 in
  ps_cycleId out' = ps_cycleId out /\ ps_coolActive out' = ps_coolActive out /\
  ps_reminted out' = false /\ ps_coolCleared out' = false /\ abs e s2 = abs e s1.
Proof.
  intros [Hh Hn] Hg Hk. pose proof (parent_expired _ Hh) as Hpd.
  destruct (ensure_run e Hpd ltac:(lia) Hn pv s Hg) as (s1 & -> & L1). pose proof L1 as [[_ Hv Hm] _ G1 A1].
  destruct (ensure_run e Hpd ltac:(lia) Hn pv s1 G1) as (s2 & -> & [_ _ _ A2]).
  rewrite (kept_lands e _ _ _ L1), Hv, Hk, A1 in *. set (ver := resolveProductVersion pv (win s)) in *.
  pose proof (spec_again e ltac:(lia) ver (offers_of e ver s) (offers_of e ver s1) (abs e s)
    (offers_of_ok e Hn ver s) Hm) as Ha.
  destruct (spec_ensure e true ver (offers_of e ver s) (abs e s)) as [out a1]. cbn [snd fst] in *.
  rewrite A2. destruct (spec_ensure e true ver _ a1) as [out' a2]. cbn [snd fst] in *.
  by destruct Ha as (? & ? & ? & ? & ?).
Qed.

Lemma ensure_resumes_witness :
  let '(out, s1) := ensureProbeStateForVersion env1 "1.2.3" (mkSt win_site br_ck) in
  let '(out', s2) := ensureProbeStateForVersion env1 "1.2.3" s1 in
  ps_cycleId out' = ps_cycleId out /\ ps_coolActive out' = ps_coolActive out /\
  ps_reminted out' = false /\ ps_coolCleared out' = false /\ abs env1 s2 = abs env1 s1.
Proof.
  apply (ensure_resumes env1 "1.2.3" (mkSt win_site br_ck)).
  - split; vm_compute; [reflexivity|discriminate].
  - apply good_mem; vm_compute; reflexivity.
  - vm_compute. reflexivity.
Defined.

(** A cool-down that holds for another product version is dropped with its cycle:
    the visit is not cool, and its cycle comes from the page, the tab or is new, never
    from the stores. *)
Theorem version_change {B} `{BrowserLaws B} e pv (s : st B) : hosted e -> good e s ->
  let ver := resolveProductVersion pv (win s) in
  ver <> "" -> now e < a_cool (abs e s) -> a_coolver (abs e s) <> ver ->
  let '(out, s') := ensureProbeStateForVersion e pv s in
  ps_coolActive out = false /\ ps_coolCleared out = true /\ ps_reason out = "product_version_mismatch" /\
  In (ps_cycleId out) [micro_sid (win s); page_mint (win s); ss_get (tab_key ver) (br s); mintCycleId e] /\
  a_cool (abs e s') = 0 /\ a_cyclever (abs e s') = ver.
Proof.
  intros [Hh Hn] Hg ver Hver Hcool Hcv.
  destruct (ensure_run e (parent_expired _ Hh) ltac:(lia) Hn pv s Hg) as (s1 & -> & L1). fold ver in L1 |- *.
  rewrite (ld_abs _ _ _ _ L1). apply String.eqb_neq in Hver, Hcv.
  assert (mismatched e ver (abs e s) = true) as Hm.
  { unfold mismatched. rewrite Hver, Hcv. by apply Z.ltb_lt in Hcool as ->. }
  assert (spec_expire e (abs e s) = abs e s) as He.
  { unfold spec_expire. destruct (Z.leb_spec (a_cool (abs e s)) (now e)); [lia|]. by rewrite andb_false_r. }
  unfold spec_ensure. rewrite He. unfold spec_align, spec_mismatch. rewrite Hver, Hm. cbn -[spec_choose offers_of abs].
  unfold cool_active. cbn [a_cool]. destruct (Z.ltb_spec (now e) 0) as [|_]; [lia|]. cbn [andb].
  unfold spec_choose, offers_of. cbn [of_micro of_page of_tab of_new a_cycle a_cyclever a_cool with_cycle].
  rewrite Hver. destruct (micro_sid (win s) =s ""); cbn [negb]; [|simpl; tauto]. cbn [cycle_ok starts_with andb String.prefix].
  destruct (page_mint (win s) =s ""); cbn [negb]; [|simpl; tauto].
  destruct (cycle_ok (ss_get (tab_key ver) (br s))); simpl; tauto.
Qed.

Definition br_cool : mem := br (snd (setCoolUntil env1 1700003600000 "1.2.3" (snd (setCycleId env1 "cycle_old_00001" "1.2.3" st1)))).

Definition st_cool : st mem := mkSt win0 br_cool.

Lemma version_change_witness :
  let ver := resolveProductVersion "1.3.0" (win st_cool) in
  ver = "1.3.0" /\
  let '(out, s') := ensureProbeStateForVersion env1 "1.3.0" st_cool in
  ps_coolActive out = false /\ ps_coolCleared out = true /\ ps_reason out = "product_version_mismatch" /\
  In (ps_cycleId out) [micro_sid (win st_cool); page_mint (win st_cool); ss_get (tab_key ver) (br st_cool); mintCycleId env1] /\
  a_cool (abs env1 s') = 0 /\ a_cyclever (abs env1 s') = ver.
Proof.
  assert (hosted env1) as Hh by (split; vm_compute; [reflexivity|discriminate]).
  assert (good env1 st_cool) as Hg by (apply good_mem; vm_compute; reflexivity).
  split; [reflexivity|]. refine (version_change env1 "1.3.0" st_cool Hh Hg _ _ _); vm_compute; [discriminate|reflexivity|discriminate].
Defined.

(** A cool-down stored for a version is in force for that version and no other,
    where scoped values are kept.  With [localStorage] blocked on a page without a site
    token it is lost at once: the scoped cookie has the unscoped name, which the same
    call goes on to remove. *)
Theorem cool_round_trip {B} `{BrowserLaws B} e n pv pv' (s : st B) : hosted e -> good e s -> now e < n ->
  resolveProductVersion pv (win s) <> "" -> resolveProductVersion pv' (win s) <> "" ->
  let s1 := snd (setCoolUntil e n pv s) in
  fst (getCoolUntil e s1) = (if kept s then n else 0) /\
  fst (isCoolActive e pv' s1) =
    kept s && (resolveProductVersion pv (win s) =s resolveProductVersion pv' (win s)).
Proof.
  intros [Hh Hn] Hg Hlt Hv Hv'. pose proof (parent_expired _ Hh) as Hpd.
  destruct (setCoolUntil_spec e Hpd n pv s Hg ltac:(lia) ltac:(lia)) as (s1 & Hs & Hb). cbv zeta in Hb.
  rewrite Hs. cbn [snd]. destruct (Z.ltb_spec (now e) n) as [_|]; [|lia]. apply String.eqb_neq in Hv, Hv'. rewrite Hv in Hb.
  pose proof (b_abs _ _ _ _ Hb) as Ha. pose proof (b_good _ _ _ _ Hb) as Hg1.
  destruct (same_page_reads _ _ (b_win _ _ _ _ Hb)) as (_ & Hr & _). split.
  - destruct (getCoolUntil_spec e s1 Hg1) as (s2 & -> & _). apply (f_equal a_cool) in Ha. exact Ha.
  - destruct (isCoolActive_spec e Hpd ltac:(lia) pv' s1 Hg1) as (s2 & -> & _). cbn [fst]. rewrite Hr, Ha.
    assert ((now e <? n) = true) as L1 by (by apply Z.ltb_lt).
    assert ((n <=? now e) = false) as L2 by (apply Z.leb_gt; lia).
    assert ((now e <? 0) = false) as L3 by (apply Z.ltb_ge; lia).
    unfold cool_active, spec_mismatch, mismatched, spec_expire. cbn [a_cool a_coolver with_cool].
    destruct (kept s); [|by rewrite ?L3, ?andb_false_r; cbn; rewrite L3, ?andb_false_r; cbn; rewrite ?L3].
    rewrite L2, andb_false_r. cbn [a_cool a_coolver with_cool]. rewrite Hv', L1. cbn [negb andb].
    destruct (resolveProductVersion pv (win s) =s resolveProductVersion pv' (win s)) eqn:E;
      cbn [negb a_cool a_coolver with_cool orb]; [by rewrite L1, E|by rewrite L3].
Qed.

Lemma cool_round_trip_witness :
  let s := mkSt win0 br_ck in
  let s1 := snd (setCoolUntil env1 1700003600000 "1.2.3" s) in
  kept s = false /\
  fst (getCoolUntil env1 s1) = (if kept s then 1700003600000 else 0) /\
  fst (isCoolActive env1 "1.2.3" s1) =
    kept s && (resolveProductVersion "1.2.3" (win s) =s resolveProductVersion "1.2.3" (win s)).
Proof.
  split; [reflexivity|].
  apply (cool_round_trip env1 1700003600000 "1.2.3" "1.2.3" (mkSt win0 br_ck));
    [split; vm_compute; [reflexivity|discriminate]|apply good_mem; vm_compute; reflexivity|reflexivity|discriminate..].
Defined.

Example cool_kept :
  let s1 := snd (setCoolUntil env1 1700003600000 "1.2.3" st1) in
  fst (getCoolUntil env1 s1) = 1700003600000 /\ fst (isCoolActive env1 "1.2.3" s1) = true /\
  fst (isCoolActive env1 "1.2.4" s1) = false.
Proof. vm_compute. repeat split. Qed.

(** A cookie written by [writeCookie] reads back unchanged, whatever its characters,
    until its age has passed, and then reads as absent. *)
Theorem cookie_round_trip {B} `{BrowserLaws B} e e' n v age (s : st B) :
  name_ok n = true -> v <> "" -> now e <= now e' ->
  (forall c, In c (write_cookies e n v (Some age)) -> ck_ok c (br s) = true) ->
  (forall en, In en (jar (now e') (br s)) -> e_name en = n ->
     e_dom en = "" \/ e_dom en = parentCookieDomain (hostname e)) ->
  fst (readCookie e' n (snd (writeCookie e n v (Some age) s))) =
    (if now e' <? now e + 1000 * age then v else "").
Proof.
  intros Hn Hv Ht Hok Hdom. rewrite writeCookie_assigns. cbn [snd fst readCookie].
  apply read_text_holds; [done|]. by apply write_holds.
Qed.

Definition odd_value : string := "a;b=c %" +:+ String (ascii_of_N 200) "".

Lemma cookie_round_trip_witness :
  fst (readCookie env_later "k" (snd (writeCookie env1 "k" odd_value (Some 600) st1))) =
    (if now env_later <? now env1 + 1000 * 600 then odd_value else "").
Proof.
  apply cookie_round_trip; [reflexivity|discriminate|vm_compute; discriminate| |by intros en []].
  intros c [<-|[<-|[]]]; vm_compute; reflexivity.
Defined.

(** ** Fuzzy helper data *)

Lemma sanitize_elems_ok l l' : sanitize_elems l = Some l' ->
  Forall (fun v => exists z, v = vint z /\ 0 <= z <= 65535) l'.
Proof.
  revert l'. induction l as [|x l IH]; simpl; intros l' Hs; [by injection Hs as <-|].
  destruct (to_num x) as [|sg|q]; simpl in Hs; try done.
  destruct (_ || _) eqn:E; [done|]. destruct (sanitize_elems l) as [l1|]; [|done]. injection Hs as <-. breflect.
  constructor; [|by apply IH]. exists (Qfloor q). split; [done|].
  repeat match goal with H : Qltb _ _ = false |- _ => apply Qltb_ge in H end. split.
  - change 0 with (Qfloor (inject_Z 0)). by apply Qfloor_resp_le.
  - change 65535 with (Qfloor (inject_Z 65535)). by apply Qfloor_resp_le.
Qed.

Lemma sanitizeHelperArr_ok a l : sanitizeHelperArr a = Some l ->
  Forall (fun v => exists z, v = vint z /\ 0 <= z <= 65535) l /\ l <> [] /\ (length l <= 256)%nat.
Proof.
  unfold sanitizeHelperArr. destruct (sanitize_elems (indexed a)) as [[|x l1]|] eqn:E; try done. intros [= <-].
  split; [by eapply sanitize_elems_ok|]. split; [done|].
  assert (length (x :: l1) = length (indexed a)) as ->.
  { clear -E. revert x l1 E. induction (indexed a) as [|y m IH]; intros x l1 E; [done|]. simpl in E.
    destruct (_ || _); [done|]. destruct (sanitize_elems m) as [[|z m']|] eqn:Em; simpl in E; [..|done].
    - injection E as <- <-. destruct m; [done|]. simpl in Em. destruct (_ || _); [done|].
      by destruct (sanitize_elems m).
    - injection E as <- <-. simpl. f_equal. by apply (IH z m'). }
  destruct a; simpl; try lia.
  - rewrite length_firstn. lia.
  - rewrite length_firstn. lia.
  - rewrite length_map, length_seq. destruct (to_num _) as [|[]|]; lia.
Qed.

Lemma sanitize_clean l : Forall (fun v => exists z, v = vint z /\ 0 <= z <= 65535) l ->
  sanitize_elems l = Some l /\ forallb json_ok l = true.
Proof.
  induction 1 as [|x l (z & -> & Hz) Hl [IH IH']]; [done|]. cbn [sanitize_elems forallb]. rewrite IH, IH'.
  cbn [to_num vint]. rewrite !num_ltb_Z. destruct (Z.ltb_spec z 0), (Z.ltb_spec 65535 z); try lia.
  cbn [num_isfinite num_Z negb orb option_map]. change (num_floor (num_Z z)) with (num_Z (Qfloor (inject_Z z))). by rewrite Qfloor_Z.
Qed.

Lemma sanitize_again a : sanitizeHelperArr (opt_arr (sanitizeHelperArr a)) = sanitizeHelperArr a /\
  json_ok (opt_arr (sanitizeHelperArr a)) = true.
Proof.
  destruct (sanitizeHelperArr a) as [l|] eqn:E; [|done]. apply sanitizeHelperArr_ok in E as (Hf & Hne & Hlen).
  destruct (sanitize_clean l Hf) as [Hs Hj]. unfold sanitizeHelperArr. cbn [opt_arr indexed json_ok].
  rewrite firstn_all2 by done. rewrite Hs. split; [by destruct l|done].
Qed.

(** Helper data accepted by [setFuzzyHelper] comes back from [getFuzzyHelper] for
    thirty days: its arrays hold at most 256 integers in [0, 65535], survive the JSON
    text and a second sanitising, and after thirty days they are refused. *)
Theorem fuzzy_round_trip {B} `{BrowserLaws B} e e' h (s s' : st B) :
  0 < now e <= now e' -> setFuzzyHelper e h s = (true, s') ->
  let wg := sanitizeHelperArr (prop h "wg") in
  let au := sanitizeHelperArr (prop h "au") in
  fst (getFuzzyHelper e' s') =
    (if now e' - now e <=? FUZZY_HELPER_MAX_AGE_MS then Some (helper_obj wg au (vint (now e))) else None) /\
  (is_Some wg \/ is_Some au) /\
  forall l, wg = Some l \/ au = Some l ->
    Forall (fun v => exists z, v = vint z /\ 0 <= z <= 65535) l /\ (length l <= 256)%nat.
Proof.
  intros Hn Hset wg au. unfold setFuzzyHelper in Hset. destruct (_ || _); [done|]. fold wg au in Hset.
  destruct (sanitize_again (prop h "wg")) as [Hwg Jwg]. destruct (sanitize_again (prop h "au")) as [Hau Jau].
  fold wg in Hwg, Jwg. fold au in Hau, Jau.
  assert (forall l, wg = Some l \/ au = Some l ->
    Forall (fun v => exists z, v = vint z /\ 0 <= z <= 65535) l /\ (length l <= 256)%nat) as Hl.
  { intros l [Hl|Hl]; by destruct (sanitizeHelperArr_ok _ _ Hl) as (? & _ & ?). }
  assert (is_Some wg \/ is_Some au) as Hsome.
  { destruct wg; [left; by eexists|]. destruct au; [right; by eexists|done]. }
  split; [|done]. set (j := helper_obj wg au (vint (now e))) in *.
  assert (json_ok j = true) as Hj by (unfold j, helper_obj; cbn -[json_ok opt_arr]; cbn [json_ok forallb snd]; by rewrite Jwg, Jau).
  destruct (json_round_trip j Hj) as (t & Ht & Hp).
  assert (exists b, ls_set FUZZY_HELPER_KEY t (br s) = Some b /\ s' = mkSt (win s) b) as (b & Hb & ->).
  { assert (match ls_set FUZZY_HELPER_KEY (default "" (json_stringify j)) (br s) with
            | Some b => (true, mkSt (win s) b) | None => (false, s) end = (true, s')) as Hs.
    { rewrite <- Hset. unfold j. destruct wg, au; try done. }
    rewrite Ht in Hs. change (default "" (Some t)) with t in Hs.
    destruct (ls_set FUZZY_HELPER_KEY t (br s)) as [b|]; [|done]. injection Hs as <-. by exists b. }
  apply ls_set_law in Hb as [Hget _]. unfold getFuzzyHelper. cbn [br fst]. rewrite Hget, String.eqb_refl.
  assert ((t =s "") = false) as -> by (destruct (String.eqb_spec t "") as [->|]; [discriminate Hp|done]). rewrite Hp.
  unfold helper_of. change (truthy j) with true. change (is_one (prop j "v")) with true. cbn [negb orb].
  change (prop j "ts") with (vint (now e)). change (prop j "wg") with (opt_arr wg). change (prop j "au") with (opt_arr au).
  rewrite Hwg, Hau. unfold helper_stale. rewrite truthy_vint.
  destruct (Z.eqb_spec (now e) 0) as [|_]; [lia|]. cbn [negb andb].
  assert (num_sub (num_Z (now e')) (to_num (vint (now e))) = Fin (inject_Z (now e') - inject_Z (now e))) as -> by done.
  assert (num_ltb (num_Z FUZZY_HELPER_MAX_AGE_MS) (Fin (inject_Z (now e') - inject_Z (now e))) =
          (FUZZY_HELPER_MAX_AGE_MS <? now e' - now e)) as ->.
  { apply eq_iff_eq_true. simpl. rewrite Qltb_lt, Z.ltb_lt. unfold Qlt. simpl. lia. }
  unfold jor. rewrite truthy_vint. destruct (Z.eqb_spec (now e) 0) as [|_]; [lia|].
  destruct (Z.ltb_spec FUZZY_HELPER_MAX_AGE_MS (now e' - now e)), (Z.leb_spec (now e' - now e) FUZZY_HELPER_MAX_AGE_MS);
    try lia; [done|]. by destruct wg, au; try done; destruct Hsome as [[]|[]].
Qed.

Definition helper1 : val :=
  VObj [("v", vint 1); ("wg", VArr [vint 3; VNum (Fin (5 # 2)); VStr "70"]); ("au", VStr "12")].

Definition st_helper : st mem := snd (setFuzzyHelper env1 helper1 st1).

Lemma fuzzy_round_trip_witness :
  let wg := sanitizeHelperArr (prop helper1 "wg") in
  let au := sanitizeHelperArr (prop helper1 "au") in
  wg = Some [vint 3; vint 2; vint 70] /\
  fst (getFuzzyHelper env_later st_helper) =
    (if now env_later - now env1 <=? FUZZY_HELPER_MAX_AGE_MS
     then Some (helper_obj wg au (vint (now env1))) else None) /\
  (is_Some wg \/ is_Some au) /\
  forall l, wg = Some l \/ au = Some l ->
    Forall (fun v => exists z, v = vint z /\ 0 <= z <= 65535) l /\ (length l <= 256)%nat.
Proof.
  split; [vm_compute; reflexivity|].
  refine (fuzzy_round_trip env1 env_later helper1 st1 st_helper _ _); [split; vm_compute; (reflexivity || discriminate)|].
  vm_compute. reflexivity.
Defined.
