(* ===== verification/MethodMatrix.v ===== *)
(** * The probe method matrix ([probe/fe/probe_method_matrix.js])

    Which collection method a stalled batch tries next, per browser engine,
    when a reason says the capability is missing, and when a batch may be
    kicked again.

    An engine name is looked up in two JavaScript objects; a name inherited
    from [Object.prototype] is found there and has no [slice], so the call
    throws: [None]. *)

From Stdlib Require Import QArith Qround.
From S2P Require Import Prelude JsVal Window.
#[local] Open Scope Z_scope.

(** A method: [multipath_cap] and the flags absent when [None] or [false]. *)
Record pmethod := mkMethod {
  method_id : string;
  profile : string;
  multipath_cap : option Z;
  gl_hard_lose : bool;
  degrade : bool;
  honest_skip : bool
}.

Definition meth (id pr : string) (cap : Z) : pmethod := mkMethod id pr (Some cap) false false false.
Definition meth_lose (id pr : string) (cap : Z) : pmethod := mkMethod id pr (Some cap) true false false.
Definition meth_degrade (id pr : string) (cap : Z) : pmethod := mkMethod id pr (Some cap) false true false.
Definition meth_plain (id pr : string) : pmethod := mkMethod id pr None false false false.
Definition meth_skip (id : string) (cap : option Z) : pmethod := mkMethod id "skip" cap false false true.

(** ** Engines *)

(** [/unsupported|.../i]; the [.?] of [capability.?missing] is at most one
    character that is not a line terminator. *)
Definition UNSUPPORTED_WORDS : list string :=
  ["unsupported"; "no_webgl"; "no_multipath"; "no_adapter"; "webgpu_unavailable"; "not_available";
   "capabilitymissing"; "helpers_missing"; "no_sab"; "need_coop"].

Fixpoint capability_missing (s : string) : bool :=
  match s with
  | EmptyString => false
  | String _ s' =>
    (starts_with "capability" s &&
     match sdrop 10 s with
     | String c r => starts_with "missing" r && negb (mem_str (String c "") [String (ascii_of_N 10) ""; String (ascii_of_N 13) ""])
     | EmptyString => false
     end) || capability_missing s'
  end.

Definition UNSUPPORTED_RE (s : string) : bool :=
  test_words UNSUPPORTED_WORDS s || capability_missing (lower s).

Definition b10_lose (id : string) (cap : Z) : pmethod := meth_lose id "softgl" cap.
Definition b10_last : pmethod := meth_degrade "b10_cpu_audio_degrade" "cpu_audio_only" 0.

Definition B10_METHODS : list (string * list pmethod) :=
  [("blink", [meth "b10_default" "silicon_noderiv" 5; b10_lose "b10_softgl" 3;
              meth "b10_legacy" "legacy_webgl1" 2; b10_last]);
   ("gecko", [meth "b10_gecko_lite" "silicon_noderiv" 2; b10_lose "b10_softgl" 2;
              meth "b10_legacy" "legacy_webgl1" 1; b10_last]);
   ("webkit", [meth "b10_webkit" "webkit_deep" 3; meth "b10_webkit_wave2" "webkit_wave2" 3;
               b10_lose "b10_softgl" 2; b10_last]);
   ("unknown", [meth "b10_default" "silicon_noderiv" 3; meth "b10_webkit_safe" "webkit_safe" 2;
                meth "b10_legacy" "legacy_webgl1" 1; b10_lose "b10_softgl" 2; b10_last])].

Definition B10X_ORDER : list (string * list string) :=
  [("blink", ["B10x_silicon_noderiv"; "B10x_silicon_rint"; "B10x_silicon_ulp"; "B10x_angle_crosscheck";
              "B10x_silicon_deep"]);
   ("gecko", ["B10x_silicon_noderiv"; "B10x_silicon_rint"; "B10x_softgl_hedge"; "B10x_silicon_ulp";
              "B10x_legacy_webgl1"]);
   ("webkit", ["B10x_webkit_gl_noise"; "B10x_webkit_wave2_warm4"; "B10x_silicon_noderiv"; "B10x_silicon_rint";
               "B10x_softgl_hedge"]);
   ("unknown", ["B10x_silicon_noderiv"; "B10x_silicon_rint"; "B10x_silicon_ulp"; "B10x_webkit_safe";
                "B10x_legacy_webgl1"; "B10x_unknown_kernel"])].

(** Lower-case names every object inherits. *)
Definition inherited : list string := ["constructor"; "__proto__"].

Fixpoint row {A} (k : string) (t : list (string * A)) : option A :=
  match t with [] => None | (k', v) :: t' => if k =s k' then Some v else row k t' end.

(** [B10_METHODS[eng]] is truthy *)
Definition known_engine (eng : string) : bool :=
  mem_str eng (map fst B10_METHODS) || mem_str eng inherited.

(** [(table[eng] || table.unknown).slice()] *)
Definition row_or_unknown {A} (eng : string) (t : list (string * list A)) : option (list A) :=
  match row eng t with
  | Some l => Some l
  | None => if mem_str eng inherited then None else row "unknown" t
  end.

Definition normEngine (eng : string) : string :=
  let eng := lower (if eng =s "" then "unknown" else eng) in
  if contains "gecko" eng || (eng =s "firefox") then "gecko" else
  if contains "webkit" eng || (eng =s "safari") then "webkit" else
  if contains "blink" eng || (eng =s "chrome") || (eng =s "edge") || (eng =s "opera") then "blink" else
  if known_engine eng then eng else "unknown".

(** What the browser exposes; [css_moz] and [css_webkit] are [None] when
    [CSS.supports] throws. *)
Record caps := mkCaps {
  moz_inner_screen : bool;
  css_moz : option bool;
  chrome_runtime : bool;
  user_agent_data : bool;
  webkit_audio_ctx : bool;
  audio_ctx : bool;
  vendor : string;
  css_webkit : option bool
}.

(** The six probes in order; [None] ends the [try]. *)
Definition engine_probes (c : caps) : list (string * string * option bool) :=
  [("gecko", "moz_inner_screen", Some (moz_inner_screen c));
   ("gecko", "moz_css", css_moz c);
   ("blink", "chrome_runtime", Some (chrome_runtime c));
   ("blink", "user_agent_data", Some (user_agent_data c));
   ("webkit", "webkit_audio", Some (webkit_audio_ctx c || (audio_ctx c && (vendor c =s "Apple Computer, Inc."))));
   ("webkit", "webkit_css", css_webkit c)].

Fixpoint signals_of (ps : list (string * string * option bool)) : list (string * string) :=
  match ps with
  | (e, s, Some ok) :: ps' => if ok then (e, s) :: signals_of ps' else signals_of ps'
  | _ => []
  end.

Definition score (e : string) (sg : list (string * string)) : Z :=
  Z.of_nat (length (List.filter (fun p => fst p =s e) sg)).

Record evidence := mkEvidence { classified : string; confidence : Q; ev_signals : list (string * string) }.

(** The best score, from 1 and unknown, over the keys in order. *)
Definition best_of (sg : list (string * string)) : string * Z :=
  fold_left (fun b e => if snd b <? score e sg then (e, score e sg) else b)
    ["blink"; "gecko"; "webkit"] ("unknown", 1).

Definition engineEvidence (c : caps) : evidence :=
  let sg := signals_of (engine_probes c) in
  let '(best, bestScore) := best_of sg in
  let r := Qdiv (inject_Z bestScore) (inject_Z 3) in
  mkEvidence best (if Qle_bool 1 r then 1%Q else r) sg.

Definition detectEngine (c : caps) : string := classified (engineEvidence c).

(** [engine || detectEngine()] *)
Definition engine_of (c : caps) (engine : string) : string :=
  normEngine (if engine =s "" then detectEngine c else engine).

(** ** Methods *)

Definition is_b10 (bid : string) : bool := (bid =s "B10_hw_curves") || (bid =s "mid.curves").

Definition methodsFor (c : caps) (bid engine : string) : option (list pmethod) :=
  let eng := engine_of c engine in
  if is_b10 bid then row_or_unknown eng B10_METHODS else
  Some (
    if starts_with "B10x_" bid then
      [meth "b10x_native" bid (if eng =s "gecko" then 2 else 3); meth "b10x_compat" "compat_surface" 2;
       b10_lose "b10x_softgl" 2; meth "b10x_legacy" "legacy_webgl1" 1; meth_skip "b10x_skip" (Some 0)]
    else if bid =s "B18_webgpu" then
      [meth_plain "webgpu_compute" "compute_residual"; meth_plain "webgpu_adapter_only" "adapter_meta";
       meth_skip "webgpu_skip" None]
    else if bid =s "B46_audio_deep" then
      [meth_plain "audio_oac" "offline_audio"; meth_plain "audio_worklet" "worklet"; meth_skip "audio_skip" None]
    else [meth_plain "default" "default"; meth_skip "skip" None]).

Record next_method := mkNext {
  nm_engine : string;
  method_index : nat;
  methods_n : nat;
  nm_method : pmethod
}.

Definition default_method : pmethod := meth_plain "default" "default".

(** [Math.min(Math.max(0, Number(attempt) || 0), list.length - 1)] for an
    integer; the list is never empty. *)
Definition method_at (attempt : Z) (l : list pmethod) : nat :=
  Nat.min (Z.to_nat (Z.max 0 attempt)) (length l - 1).

Definition nextMethod (c : caps) (bid : string) (attempt : Z) (engine : string) : option next_method :=
  l ← methodsFor c bid engine;
  let i := method_at attempt l in
  Some (mkNext (engine_of c engine) i (length l) (nth i l default_method)).

(** ** Unsupported capabilities *)

Definition isUnsupported (r : val) : bool :=
  if negb (nonnull r) then false else
  match r with
  | VStr s => UNSUPPORTED_RE s
  | _ =>
    is_str (prop r "b10x_capability") "unsupported" ||
    (is_false (prop r "webgpu_available") && is_false (prop r "b18_ok")) ||
    UNSUPPORTED_RE (to_string (jor (prop r "b10x_err") (jor (prop r "error") (jor (prop r "err")
      (jor (prop r "skip_reason") (jor (prop r "webgpu_err") (VStr ""))))))) ||
    (is_false (prop r "webgl_support") && (is_false (prop r "b10x_ok") || is_false (prop r "residual_ok")))
  end.

Definition engineB10xOrder (c : caps) (engine : string) : option (list string) :=
  row_or_unknown (engine_of c engine) B10X_ORDER.

(** ** Kicks *)

(** [None] where [methodsFor] throws. *)
Definition shouldKick (c : caps) (bid : string) (attempt : Z) (lastErr : val) (m : option pmethod) : option bool :=
  if isUnsupported lastErr then Some false else
  if match m with Some m => honest_skip m | None => false end then Some false else
  if match m with Some m => degrade m && (0 <? attempt) | None => false end then Some (attempt <=? 1) else
  l ← methodsFor c bid "";
  Some (negb (Z.of_nat (length l) + 1 <=? attempt)).

(** The hints of a method as properties of the window. *)
Definition method_val (n : next_method) : val :=
  let m := nm_method n in
  VObj ([("engine", VStr (nm_engine n)); ("method_index", vint (Z.of_nat (method_index n)));
         ("methods_n", vint (Z.of_nat (methods_n n))); ("method_id", VStr (method_id m)); ("profile", VStr (profile m))] ++
        match multipath_cap m with Some k => [("multipath_cap", vint k)] | None => [] end ++
        (if gl_hard_lose m then [("gl_hard_lose", VBool true)] else []) ++
        (if degrade m then [("degrade", VBool true)] else []) ++
        (if honest_skip m then [("honest_skip", VBool true)] else [])).

Fixpoint set_member (k : string) (v : val) (o : list (string * val)) : list (string * val) :=
  match o with
  | [] => [(k, v)]
  | (k', v') :: o' => if k =s k' then (k, v) :: o' else (k', v') :: set_member k v o'
  end.

Definition publishMethod (bid : string) (n : next_method) (w : Win) : Win :=
  let o := match gget "__GR_PROBE_METHOD__" w with VObj o => o | _ => [] end in
  w |> gset "__GR_PROBE_METHOD__" (VObj (set_member bid (method_val n) o))
    |> gset "__GR_PROBE_METHOD_LAST__" (method_val n)
    |> (fun w => match multipath_cap (nm_method n) with
                 | Some k => gset "__GR_MULTIPATH_CAP_HINT__" (vint k) w
                 | None => w
                 end)
    |> (fun w => if profile (nm_method n) =s "" then w
                 else gset "__GR_PROBE_PROFILE_HINT__" (VStr (profile (nm_method n))) w).

(** ** Lemmas *)

Lemma engine_of_known c e : let eng := engine_of c e in
  In eng ["blink"; "gecko"; "webkit"; "unknown"; "constructor"; "__proto__"].
Proof.
  unfold engine_of, normEngine. cbv zeta.
  destruct (_ || _); [simpl; tauto|]. destruct (_ || _); [simpl; tauto|]. destruct (_ || _); [simpl; tauto|].
  destruct (known_engine _) eqn:E; [|simpl; tauto]. unfold known_engine in E.
  apply orb_true_iff in E as [E|E]; apply mem_str_In in E; simpl in *; tauto.
Qed.

Lemma best_of_cases sg : In (fst (best_of sg)) ["unknown"; "blink"; "gecko"; "webkit"].
Proof. unfold best_of. simpl. repeat destruct (_ <? _); simpl; tauto. Qed.

(** A detected engine has a row of methods. *)
Lemma detected_engine c : exists l, methodsFor c "B10_hw_curves" "" = Some l /\ (4 <= length l <= 5)%nat.
Proof.
  unfold methodsFor. cbn [is_b10 String.eqb Ascii.eqb orb]. unfold engine_of, detectEngine, engineEvidence.
  pose proof (best_of_cases (signals_of (engine_probes c))) as Hb.
  destruct (best_of _) as [b k]. cbn [fst] in Hb. simpl in Hb.
  destruct Hb as [<-|[<-|[<-|[<-|[]]]]]; eexists; (split; [reflexivity|simpl; lia]).
Qed.

(** Every list of methods has at most five entries, ends in the only one that
    degrades or skips, and no engine name but an inherited one is refused. *)
Lemma methodsFor_shape c bid e :
  match methodsFor c bid e with
  | Some l => (2 <= length l <= 5)%nat /\
      forallb (fun m => negb (degrade m || honest_skip m)) (removelast l) = true /\
      let m := List.last l default_method in
      degrade m = is_b10 bid /\ honest_skip m = negb (is_b10 bid)
  | None => is_b10 bid = true /\ mem_str (engine_of c e) inherited = true
  end.
Proof.
  unfold methodsFor. pose proof (engine_of_known c e) as He. cbv zeta in *. set (eng := engine_of c e) in *. clearbody eng.
  destruct (is_b10 bid).
  - simpl in He. destruct He as [<-|[<-|[<-|[<-|[<-|[<-|[]]]]]]]; vm_compute; repeat split; lia.
  - destruct (starts_with "B10x_" bid); [simpl; repeat split; lia|].
    destruct (bid =s "B18_webgpu"); [simpl; repeat split; lia|].
    destruct (bid =s "B46_audio_deep"); simpl; repeat split; lia.
Qed.

(** The methods of the primary curves are at least four. *)
Lemma b10_methods_long c bid e : is_b10 bid = true ->
  match methodsFor c bid e with Some l => (4 <= length l)%nat | None => True end.
Proof.
  intros Hb. unfold methodsFor. pose proof (engine_of_known c e) as He. cbv zeta in *.
  set (eng := engine_of c e) in *. clearbody eng. rewrite Hb.
  simpl in He. destruct He as [<-|[<-|[<-|[<-|[<-|[<-|[]]]]]]]; vm_compute; lia || done.
Qed.

Lemma nth_removelast {A} (l : list A) d i : (i < length l - 1)%nat -> In (nth i l d) (removelast l).
Proof.
  intros Hi. destruct l as [|x l] using rev_ind; [simpl in Hi; lia|]. rewrite removelast_last.
  rewrite length_app in Hi. simpl in Hi. rewrite app_nth1 by lia. apply nth_In. lia.
Qed.

Lemma nth_last {A} (l : list A) d : nth (length l - 1) l d = List.last l d.
Proof.
  destruct l as [|x l] using rev_ind; [done|]. rewrite last_last, length_app. simpl.
  rewrite app_nth2 by lia. by replace (length l + 1 - 1 - length l)%nat with 0%nat by lia.
Qed.

(** No batch is kicked without end: [shouldKick] refuses from the sixth attempt
    on, whatever the batch and the engine. *)
Lemma shouldKick_spec c bid k err m :
  exists b, shouldKick c bid k err m = Some b /\
  (b = true -> k <= 5 /\ isUnsupported err = false /\
     match m with
     | Some m => honest_skip m = false /\ (degrade m = true -> k <= 1)
     | None => True
     end).
Proof.
  assert (exists l, methodsFor c bid "" = Some l /\ (length l <= 5)%nat) as (l & Hl & Hlen).
  { pose proof (methodsFor_shape c bid "") as Hs. destruct (methodsFor c bid "") as [l|] eqn:E.
    - exists l. split; [done|lia].
    - destruct Hs as [Hb _]. destruct (detected_engine c) as (l & Hl & _).
      unfold methodsFor in E, Hl. rewrite Hb in E. cbn in Hl. congruence. }
  unfold shouldKick. rewrite Hl. simpl.
  destruct (isUnsupported err); [by exists false|].
  destruct m as [m|]; [|eexists; split; [done|]; intros Hb; breflect; repeat split; lia].
  destruct (honest_skip m); [by exists false|].
  destruct (degrade m) eqn:Ed; simpl.
  - destruct (Z.ltb_spec 0 k); eexists; (split; [done|]); intros Hb; breflect; repeat split; intros; lia.
  - eexists. split; [done|]. intros Hb. breflect. repeat split; [lia|done].
Qed.

(** ** Properties *)

(** Successive recoveries of a batch walk its list of methods: before the end each is
    a real collection method; from the last entry on, every recovery yields the terminal
    one, which degrades (primary curves) or skips (all others).  Only an engine name
    inherited from [Object.prototype] makes the call throw. *)
Theorem nextMethod_walk c bid k engine :
  match nextMethod c bid k engine with
  | Some n =>
    (method_index n < methods_n n <= 5)%nat /\
    (if k <? Z.of_nat (methods_n n) - 1
     then degrade (nm_method n) = false /\ honest_skip (nm_method n) = false /\
          method_index n = Z.to_nat (Z.max 0 k)
     else degrade (nm_method n) = is_b10 bid /\ honest_skip (nm_method n) = negb (is_b10 bid))
  | None => is_b10 bid = true /\ mem_str (engine_of c engine) inherited = true
  end.
Proof.
  unfold nextMethod. pose proof (methodsFor_shape c bid engine) as Hs.
  destruct (methodsFor c bid engine) as [l|]; [|done]. destruct Hs as (Hl & Hin & Hd & Hh). simpl.
  unfold method_at. split; [lia|]. destruct (Z.ltb_spec k (Z.of_nat (length l) - 1)) as [Hk|Hk].
  - rewrite Nat.min_l by lia.
    assert (In (nth (Z.to_nat (Z.max 0 k)) l default_method) (removelast l)) as Hn by (apply nth_removelast; lia).
    rewrite forallb_forall in Hin. specialize (Hin _ Hn). apply negb_true_iff, orb_false_iff in Hin as [].
    by repeat split.
  - rewrite Nat.min_r by lia. by rewrite nth_last.
Qed.
