(* ===== verification/SelfHeal.v ===== *)
(** * The self-heal supervisor ([probe/fe/probe_self_heal.js])

    A table of gaps (batches the server should have), filled by three loops:
    transport ([loopT]) nudges the upload queue, collect ([loopC]) kicks the
    collectors again and recovers from stalls with the methods of
    [MethodMatrix], brain ([loopB]) merges the server's route plan.

    The queue, the lifecycle and the window are the real ones; the pack loader,
    the collectors, the GL governor, the boot script and the origin coordinator
    are the class [Loader].  The supervisor's variables are the record [heal];
    [polls] lists the analyses requests started, newest first, whose answers
    arrive later as [on_analyses] steps.  Plan priorities are integers. *)

From Stdlib Require Import QArith Qround.
From S2P Require Import Prelude JsVal Window Json Uri MethodMatrix Lifecycle Scheduler Registry QueueState Freeze QueuePump QueueApi.
#[local] Open Scope Z_scope.

(** ** Interfaces *)

(** An entry of [GRPackLoader.health()]; [ph_ts] zero when absent. *)
Record pack_health := mkHealth { ph_run : string; ph_kick : string; ph_ts : Z }.

Record pack := mkPack { pk_id : string; pk_priority : Z; pk_force : bool }.

(** [GROriginCoordinator.snapshot()]: the lease is its tab and heartbeat. *)
Record coord := mkCoord { co_heavy : bool; co_started : bool; co_tab : string; co_lease : option (string * num) }.

Class Loader (L : Type) := {
  ld_kicked : string -> L -> bool;
  ld_health : string -> L -> option pack_health;
  ld_set_run : string -> string -> queue * L -> queue * L;
  ld_clear_kicked : string -> queue * L -> queue * L;
  ld_release : string -> string -> queue * L -> queue * L;
  ld_kick_all : list pack -> string -> queue * L -> outcome (queue * L);
  ld_apply_plan : val -> string -> queue * L -> queue * L;
  ld_collector : string -> L -> bool;
  ld_ensure_modules : queue * L -> queue * L;
  ld_hard_lose : string -> queue * L -> queue * L;
  ld_boot : bool -> queue * L -> queue * L;
  ld_coord_start : string -> queue * L -> queue * L;
  ld_coord : L -> option coord;
  ld_policy : L -> val
}.

(** What a handler sees of the browser: the queue's environment (clock), the
    page's visibility, [GROps.engineFamily()], the user agent, the capabilities
    the method matrix probes, whether [fetch] and the matrix are there, and
    [Math.random()] per gap. *)
Record henv := mkHenv {
  h_env : env;
  h_visible : bool;
  h_family : option string;
  h_ua : string;
  h_caps : caps;
  h_fetch : bool;
  h_matrix : bool;
  h_jitter : string -> Q
}.

Definition hnow (e : henv) : Z := now (h_env e).

(** ** State *)

Record hcfg := mkCfg {
  tick_hidden_ms : Z;
  tick_visible_ms : Z;
  brain_poll_visible_ms : Z;
  brain_poll_hidden_ms : Z;
  brain_poll_gap_ms : Z;
  b10_run_timeout_ms : Z;
  b10x_run_timeout_ms : Z;
  heavy_run_timeout_ms : Z;
  b10_soft_stall_ms : Z;
  heavy_soft_stall_ms : Z;
  collect_watchdog_ms : list Z;
  collect_max_attempts : Z;
  soft_collect_max_attempts : Z;
  deepen_collect_max_attempts : Z;
  brain_apply_budget : Z;
  collect_min_gap_ms : Z;
  transport_nudge_gap_ms : Z;
  adaptive_mode : string;
  timeline_max : Z;
  deepen_circuit_quiet_ms : Z
}.

Definition CFG0 : hcfg :=
  mkCfg 8000 2500 4000 20000 2500 90000 30000 45000 25000 18000
    [800; 2500; 6000; 15000; 30000; 60000; 120000; 180000] 10 3 4 12 4000 2000 "auto" 80 20000.

Definition eta_cfg (c : hcfg) : hcfg :=
  mkCfg (tick_hidden_ms c) (tick_visible_ms c) (brain_poll_visible_ms c) (brain_poll_hidden_ms c)
    (brain_poll_gap_ms c) (b10_run_timeout_ms c) (b10x_run_timeout_ms c) (heavy_run_timeout_ms c)
    (b10_soft_stall_ms c) (heavy_soft_stall_ms c) (collect_watchdog_ms c) (collect_max_attempts c)
    (soft_collect_max_attempts c) (deepen_collect_max_attempts c) (brain_apply_budget c)
    (collect_min_gap_ms c) (transport_nudge_gap_ms c) (adaptive_mode c) (timeline_max c)
    (deepen_circuit_quiet_ms c).
Definition set_tick_visible v (c : hcfg) : hcfg := ltac:(upd eta_cfg tick_visible_ms c v).
Definition set_b10_timeout v (c : hcfg) : hcfg := ltac:(upd eta_cfg b10_run_timeout_ms c v).
Definition set_b10x_timeout v (c : hcfg) : hcfg := ltac:(upd eta_cfg b10x_run_timeout_ms c v).
Definition set_soft_stall v (c : hcfg) : hcfg := ltac:(upd eta_cfg b10_soft_stall_ms c v).
Definition set_soft_max v (c : hcfg) : hcfg := ltac:(upd eta_cfg soft_collect_max_attempts c v).
Definition set_deepen_max v (c : hcfg) : hcfg := ltac:(upd eta_cfg deepen_collect_max_attempts c v).
Definition set_min_gap v (c : hcfg) : hcfg := ltac:(upd eta_cfg collect_min_gap_ms c v).
Definition set_nudge_gap v (c : hcfg) : hcfg := ltac:(upd eta_cfg transport_nudge_gap_ms c v).

(** [g_method] is [last_method]; [g_watch] the pair of the two watchdog
    properties, with the attempt it was drawn for. *)
Record gap := mkGap {
  g_batch : string;
  g_source : string;
  g_desired : bool;
  g_server_seen : bool;
  g_force : bool;
  g_generation : Z;
  g_attempts : Z;
  g_nudges : Z;
  g_last_collect : Z;
  g_last_transport : Z;
  g_run_started : Z;
  g_phase : string;
  g_priority : Z;
  g_reason : string;
  g_switches : Z;
  g_method : option next_method;
  g_terminal : string;
  g_last_err : val;
  g_stall_done : bool;
  g_watch : option (Z * Z)
}.

Definition eta_gap (g : gap) : gap :=
  mkGap (g_batch g) (g_source g) (g_desired g) (g_server_seen g) (g_force g) (g_generation g) (g_attempts g)
    (g_nudges g) (g_last_collect g) (g_last_transport g) (g_run_started g) (g_phase g) (g_priority g)
    (g_reason g) (g_switches g) (g_method g) (g_terminal g) (g_last_err g) (g_stall_done g) (g_watch g).
Definition set_desired v (g : gap) : gap := ltac:(upd eta_gap g_desired g v).
Definition set_server_seen v (g : gap) : gap := ltac:(upd eta_gap g_server_seen g v).
Definition set_force v (g : gap) : gap := ltac:(upd eta_gap g_force g v).
Definition set_generation v (g : gap) : gap := ltac:(upd eta_gap g_generation g v).
Definition set_attempts v (g : gap) : gap := ltac:(upd eta_gap g_attempts g v).
Definition set_nudges v (g : gap) : gap := ltac:(upd eta_gap g_nudges g v).
Definition set_last_collect v (g : gap) : gap := ltac:(upd eta_gap g_last_collect g v).
Definition set_last_transport v (g : gap) : gap := ltac:(upd eta_gap g_last_transport g v).
Definition set_run_started v (g : gap) : gap := ltac:(upd eta_gap g_run_started g v).
Definition set_phase v (g : gap) : gap := ltac:(upd eta_gap g_phase g v).
Definition set_gpriority v (g : gap) : gap := ltac:(upd eta_gap g_priority g v).
Definition set_reason v (g : gap) : gap := ltac:(upd eta_gap g_reason g v).
Definition set_switches v (g : gap) : gap := ltac:(upd eta_gap g_switches g v).
Definition set_method v (g : gap) : gap := ltac:(upd eta_gap g_method g v).
Definition set_terminal v (g : gap) : gap := ltac:(upd eta_gap g_terminal g v).
Definition set_stall_done v (g : gap) : gap := ltac:(upd eta_gap g_stall_done g v).
Definition set_watch v (g : gap) : gap := ltac:(upd eta_gap g_watch g v).

Record adapt := mkAdapt {
  ad_mode : string;
  ad_engine : string;
  max_light : Z;
  serial_heavy : bool;
  pause_deepen_until : Z;
  stall_recoveries : Z;
  last_stall_ms : Z;
  last_policy_ms : Z;
  multi_tab : bool;
  ad_peers : val
}.

Definition adapt0 : adapt := mkAdapt "balanced" "unknown" 2 false 0 0 0 0 false VUndef.

Definition eta_adapt (a : adapt) : adapt :=
  mkAdapt (ad_mode a) (ad_engine a) (max_light a) (serial_heavy a) (pause_deepen_until a) (stall_recoveries a)
    (last_stall_ms a) (last_policy_ms a) (multi_tab a) (ad_peers a).
Definition set_mode v (a : adapt) : adapt := ltac:(upd eta_adapt ad_mode a v).
Definition set_engine v (a : adapt) : adapt := ltac:(upd eta_adapt ad_engine a v).
Definition set_max_light v (a : adapt) : adapt := ltac:(upd eta_adapt max_light a v).
Definition set_serial v (a : adapt) : adapt := ltac:(upd eta_adapt serial_heavy a v).
Definition set_pause v (a : adapt) : adapt := ltac:(upd eta_adapt pause_deepen_until a v).
Definition set_recoveries v (a : adapt) : adapt := ltac:(upd eta_adapt stall_recoveries a v).
Definition set_last_stall v (a : adapt) : adapt := ltac:(upd eta_adapt last_stall_ms a v).
Definition set_last_policy v (a : adapt) : adapt := ltac:(upd eta_adapt last_policy_ms a v).
Definition set_multi v (a : adapt) : adapt := ltac:(upd eta_adapt multi_tab a v).
Definition set_peers v (a : adapt) : adapt := ltac:(upd eta_adapt ad_peers a v).

Record hstats := mkStats {
  ticks : Z; t_nudges : Z; c_kicks : Z; method_switches : Z; unsupported_stops : Z; b_applies : Z; b_polls : Z;
  satisfied : Z; stalls : Z; s_recoveries : Z; circuit_trips : Z; deepen_skipped : Z; boot_kicks : Z;
  last_boot_kick : Z; last_completeness : Z
}.

Definition stats0 : hstats := mkStats 0 0 0 0 0 0 0 0 0 0 0 0 0 0 0.
Definition eta_stats (c : hstats) : hstats :=
  mkStats (ticks c) (t_nudges c) (c_kicks c) (method_switches c) (unsupported_stops c) (b_applies c) (b_polls c)
    (satisfied c) (stalls c) (s_recoveries c) (circuit_trips c) (deepen_skipped c) (boot_kicks c)
    (last_boot_kick c) (last_completeness c).
Definition add_ticks (c : hstats) : hstats := ltac:(upd eta_stats ticks c (ticks c + 1)).
Definition add_nudges (c : hstats) : hstats := ltac:(upd eta_stats t_nudges c (t_nudges c + 1)).
Definition add_kicks (c : hstats) : hstats := ltac:(upd eta_stats c_kicks c (c_kicks c + 1)).
Definition add_switches (c : hstats) : hstats := ltac:(upd eta_stats method_switches c (method_switches c + 1)).
Definition add_unsupported (c : hstats) : hstats := ltac:(upd eta_stats unsupported_stops c (unsupported_stops c + 1)).
Definition add_applies (c : hstats) : hstats := ltac:(upd eta_stats b_applies c (b_applies c + 1)).
Definition add_polls (c : hstats) : hstats := ltac:(upd eta_stats b_polls c (b_polls c + 1)).
Definition add_satisfied (c : hstats) : hstats := ltac:(upd eta_stats satisfied c (satisfied c + 1)).
Definition add_stalls (c : hstats) : hstats := ltac:(upd eta_stats stalls c (stalls c + 1)).
Definition add_recoveries (c : hstats) : hstats := ltac:(upd eta_stats s_recoveries c (s_recoveries c + 1)).
Definition add_trips (c : hstats) : hstats := ltac:(upd eta_stats circuit_trips c (circuit_trips c + 1)).
Definition add_skipped (c : hstats) : hstats := ltac:(upd eta_stats deepen_skipped c (deepen_skipped c + 1)).
Definition add_boot (c : hstats) : hstats := ltac:(upd eta_stats boot_kicks c (boot_kicks c + 1)).
Definition set_last_boot v (c : hstats) : hstats := ltac:(upd eta_stats last_boot_kick c v).
Definition set_last_complete v (c : hstats) : hstats := ltac:(upd eta_stats last_completeness c v).

Definition timeline_row : Type := Z * string * list (string * val).

Record heal (L : Type) := mkHeal {
  CFG : hcfg;
  gaps : list gap;
  started : bool;
  timer : option Z;
  lastBrainPollMs : Z;
  lastBrainRev : num;
  brainApplyN : Z;
  lastPlanEpoch : val;
  eventTickTimer : option bool;
  listeners : bool;
  timeline : list timeline_row;
  adaptive : adapt;
  hst : hstats;
  polls : list string;
  world : queue * L
}.
Arguments mkHeal {L}. Arguments CFG {L}. Arguments gaps {L}. Arguments started {L}. Arguments timer {L}.
Arguments lastBrainPollMs {L}. Arguments lastBrainRev {L}. Arguments brainApplyN {L}. Arguments lastPlanEpoch {L}.
Arguments eventTickTimer {L}. Arguments listeners {L}. Arguments timeline {L}. Arguments adaptive {L}.
Arguments hst {L}. Arguments polls {L}. Arguments world {L}.

Section State.
Context {L : Type}.
Definition eta_heal (h : heal L) : heal L :=
  mkHeal (CFG h) (gaps h) (started h) (timer h) (lastBrainPollMs h) (lastBrainRev h) (brainApplyN h)
    (lastPlanEpoch h) (eventTickTimer h) (listeners h) (timeline h) (adaptive h) (hst h) (polls h) (world h).
Definition set_CFG v (h : heal L) : heal L := ltac:(upd eta_heal (@CFG L) h v).
Definition set_gaps v (h : heal L) : heal L := ltac:(upd eta_heal (@gaps L) h v).
Definition set_started v (h : heal L) : heal L := ltac:(upd eta_heal (@started L) h v).
Definition set_timer v (h : heal L) : heal L := ltac:(upd eta_heal (@timer L) h v).
Definition set_poll_ms v (h : heal L) : heal L := ltac:(upd eta_heal (@lastBrainPollMs L) h v).
Definition set_rev v (h : heal L) : heal L := ltac:(upd eta_heal (@lastBrainRev L) h v).
Definition set_applyN v (h : heal L) : heal L := ltac:(upd eta_heal (@brainApplyN L) h v).
Definition set_epoch v (h : heal L) : heal L := ltac:(upd eta_heal (@lastPlanEpoch L) h v).
Definition set_event_timer v (h : heal L) : heal L := ltac:(upd eta_heal (@eventTickTimer L) h v).
Definition set_listeners v (h : heal L) : heal L := ltac:(upd eta_heal (@listeners L) h v).
Definition set_timeline v (h : heal L) : heal L := ltac:(upd eta_heal (@timeline L) h v).
Definition set_adaptive v (h : heal L) : heal L := ltac:(upd eta_heal (@adaptive L) h v).
Definition set_hst v (h : heal L) : heal L := ltac:(upd eta_heal (@hst L) h v).
Definition set_polls v (h : heal L) : heal L := ltac:(upd eta_heal (@polls L) h v).
Definition set_world v (h : heal L) : heal L := ltac:(upd eta_heal (@world L) h v).

Definition cfg_upd (f : hcfg -> hcfg) (h : heal L) : heal L := set_CFG (f (CFG h)) h.
Definition adapt_upd (f : adapt -> adapt) (h : heal L) : heal L := set_adaptive (f (adaptive h)) h.
Definition tally (f : hstats -> hstats) (h : heal L) : heal L := set_hst (f (hst h)) h.
Definition hq (h : heal L) : queue := fst (world h).
Definition hl (h : heal L) : L := snd (world h).
Definition on_world (f : queue * L -> queue * L) (h : heal L) : heal L := set_world (f (world h)) h.
Definition on_queue (f : queue -> queue) (h : heal L) : heal L := on_world (fun w => (f (fst w), snd w)) h.
Definition hwin (h : heal L) : Win := win (hq h).
Definition set_global (k : string) (v : val) (h : heal L) : heal L := on_queue (set_var k v) h.

(** [GROps.report(code, "self_heal", detail, sev)] *)
Definition ops (code : string) (detail : list (string * val)) (sev : string) (h : heal L) : heal L :=
  on_queue (fun q => set_win (ops_report code "self_heal" detail sev (win q)) q) h.
End State.

Definition heal0 {L} (w : queue * L) : heal L :=
  mkHeal CFG0 [] false None 0 (num_Z 0) 0 VNull None false [] adapt0 stats0 [] w.

(** ** Reading the page *)

Section SelfHeal.
Context {L : Type} `{Loader L}.
Variable e : henv.

Definition sid (h : heal L) : string :=
  to_string (jor (gget "__GR_SESSION_ID__" (hwin h)) (jor (gget "__GR_CYCLE_ID__" (hwin h))
    (jor (VStr (c_session (QueueState.cfg (hq h)))) (VStr "")))).

(** [GRProbeLifecycle.snapshot()] forgets the failures outside its window. *)
Definition prune_lc (h : heal L) : heal L :=
  on_queue (fun q => set_lc (Lifecycle.pruneFails (hnow e) (lc q)) q) h.

Definition pageCool (h : heal L) : heal L * bool :=
  let w := hwin h in
  if gtrue "__GR_BRAIN_SCHEDULE_FINAL__" w || gtrue "__GR_HARD_FINAL__" w then (h, true) else
  if gtrue "__GR_SKIP_IDENTITY__" w && gtrue "__GR_STOP_PROBE__" w then (h, true) else
  if has_lifecycle (hq h) then
    let h1 := prune_lc h in (h1, bool_decide (Lifecycle.state (lc (hq h1)) = COMPLETE_COOL))
  else (h, false).

Definition pageUnloading (h : heal L) : bool :=
  gtrue "__GR_PAGE_UNLOADING__" (hwin h) || isPageUnloading (hq h).

Definition HARD_DEFAULT : list string :=
  ["B10_hw_curves"; "B0_bootstrap"; "B2_hardware"; "B3_system"; "B1_conflict"; "B12_anti_camouflage";
   "B8_gateway"; "B8_gateway_early"; "B7_sandbox"].

Definition isB10 (bid : string) : bool := (bid =s "B10_hw_curves") || (bid =s "mid.curves").
Definition isB10x (bid : string) : bool := starts_with "B10x_" bid.

Definition isHard (h : heal L) (bid : string) : bool :=
  if has_lifecycle (hq h) then Lifecycle.isHardBatch bid else
  if isB10x bid then false else mem_str bid HARD_DEFAULT || isB10 bid.

(** [/_spotcheck$/] *)
Definition ends_with (p s : string) : bool :=
  (String.length p <=? String.length s)%nat && (sdrop (String.length s - String.length p) s =s p).

Definition isDeepen (bid : string) : bool :=
  isB10x bid || mem_str bid ["B18_webgpu"; "B46_audio_deep"; "B47_sab_clock"] ||
  (starts_with "R" bid && ends_with "_spotcheck" bid).

Definition isSoft (h : heal L) (bid : string) : bool :=
  if isHard h bid || isB10 bid then false else negb (isDeepen bid).

(** ** The gap table *)

Definition same_gap (k : string * string) (g : gap) : bool := (g_batch g =s fst k) && (g_source g =s snd k).

Definition gap_at (k : string * string) (h : heal L) : option gap := List.find (same_gap k) (gaps h).

Definition upd_gap (k : string * string) (f : gap -> gap) (h : heal L) : heal L :=
  set_gaps (map (fun g => if same_gap k g then f g else g) (gaps h)) h.

Definition new_gap (h : heal L) (k : string * string) : gap :=
  mkGap (fst k) (snd k) true false false 1 0 0 0 0 0 "absent"
    (if isB10 (fst k) then 1000 else if isHard h (fst k) then 800 else 100) "seed" 0 None "" VUndef false None.

(** [ensureGap(batch, source || "main", patch)] for a batch that is not empty. *)
Definition gkey (bid src : string) : string * string := (bid, sor src "main").

Definition ensureGap (k : string * string) (patch : gap -> gap) (h : heal L) : heal L :=
  if fst k =s "" then h else
  let h1 := match gap_at k h with Some _ => h | None => set_gaps (gaps h ++ [new_gap h k]) h end in
  upd_gap k patch h1.

Definition B10_KEY : string * string := ("B10_hw_curves", "main").

(** ** Diagnostics *)

Definition row_val (r : timeline_row) : val :=
  let '(t, ev, d) := r in VObj [("t", vint t); ("ev", VStr ev); ("d", match d with [] => VNull | _ => VObj d end)].

Definition timelinePush (ev : string) (d : list (string * val)) (h : heal L) : heal L :=
  let l := timeline h ++ [(hnow e, ev, d)] in
  let n := zor (timeline_max (CFG h)) 80 in
  let l := if n <? Z.of_nat (length l) then List.skipn (length l - Z.to_nat n) l else l in
  h |> set_timeline l |> set_global "__GR_PROBE_TIMELINE__" (VArr (map row_val l)).

(** ** Engine and adaptive policy *)

Definition ua_any (ws : list string) : bool := existsb (fun w => contains w (h_ua e)) ws.

Definition detectEngine : string :=
  match h_family e with
  | Some f => if f =s "" then "unknown" else f
  | None =>
    if moz_inner_screen (h_caps e) then "gecko" else
    if ua_any ["Firefox/"] || (ua_any ["Gecko/"] && negb (ua_any ["like Gecko"]) && negb (ua_any ["Chrome/"]))
    then "gecko" else
    if ua_any ["AppleWebKit/"] && ua_any ["Safari/"] &&
       negb (ua_any ["Chrome/"; "Chromium/"; "Edg/"; "OPR/"; "CriOS/"]) then "webkit" else
    if ua_any ["Chrome/"; "Chromium/"; "Edg/"; "OPR/"] then "blink" else "unknown"
  end.

Definition policy_val (h : heal L) : val :=
  let a := adaptive h in let c := CFG h in
  VObj [("mode", VStr (ad_mode a)); ("engine", VStr (ad_engine a)); ("max_light", vint (max_light a));
        ("serial_heavy", VBool (serial_heavy a)); ("pause_deepen_until", vint (pause_deepen_until a));
        ("b10_soft_stall_ms", vint (b10_soft_stall_ms c)); ("b10_run_timeout_ms", vint (b10_run_timeout_ms c));
        ("collect_min_gap_ms", vint (collect_min_gap_ms c))].

Definition publishAdaptivePolicy (h : heal L) : heal L :=
  let h1 := set_global "__GR_ADAPTIVE_POLICY__" (policy_val h) h in
  if serial_heavy (adaptive h1) then
    h1 |> set_global "__GR_PACK_MAX_CONCURRENT__" (vint 1) |> set_global "__GR_PACK_MAX_LIGHT__" (vint 1)
  else
    let h2 := set_global "__GR_PACK_MAX_LIGHT__" (vint (max_light (adaptive h1))) h1 in
    let one := match gget "__GR_PACK_MAX_CONCURRENT__" (hwin h2) with
               | VNum n => num_eqb n (num_Z 1) | _ => false end in
    if one && (ad_mode (adaptive h2) <>s "recovery")
    then set_global "__GR_PACK_MAX_CONCURRENT__" VUndef h2 else h2.

(** The mode [auto] resolves to. *)
Definition policy_mode (c : hcfg) (a : adapt) (t : Z) : string :=
  let mode := sor (adaptive_mode c) "auto" in
  if mode =s "auto" then
    if (2 <=? stall_recoveries a) || (t <? pause_deepen_until a) then "recovery" else
    if (ad_engine a =s "gecko") || (ad_engine a =s "webkit") then "conservative" else "balanced"
  else mode.

Definition light (n : Z) (serial : bool) (a : adapt) : adapt := a |> set_max_light n |> set_serial serial.

Definition set_pace (stall timeout gap tick : Z) (c : hcfg) : hcfg :=
  c |> set_soft_stall stall |> set_b10_timeout timeout |> set_min_gap gap |> set_tick_visible tick.

Definition mode_rules (mode : string) (t : Z) (h : heal L) : heal L :=
  if mode =s "aggressive" then
    h |> adapt_upd (light 2 false) |> cfg_upd (set_pace 35000 90000 3000 2000)
  else if mode =s "conservative" then
    h |> adapt_upd (light 1 true)
      |> cfg_upd (fun c => c |> set_pace 20000 75000 6000 3000 |> set_b10x_timeout 25000
                             |> set_soft_max 2 |> set_deepen_max 3)
  else if mode =s "recovery" then
    h |> adapt_upd (light 1 true) |> cfg_upd (set_pace 15000 60000 8000 3500)
      |> adapt_upd (fun a => set_pause (Z.max (pause_deepen_until a) (t + 15000)) a)
  else
    h |> adapt_upd (fun a => light (if ad_engine a =s "blink" then 2 else 1) (ad_engine a <>s "blink") a)
      |> cfg_upd (set_pace 25000 90000 4000 2500).

(** The coordinator's multi-tab policy. *)
Definition gpi_policy (h : heal L) : val := jor (ld_policy (hl h)) (jor (gget "__GR_GPI_POLICY__" (hwin h)) VNull).

Definition gpi_peers (h : heal L) : val :=
  let n := to_num (jor (gget "__GR_GPI_PEER_COUNT__" (hwin h)) (vint 0)) in
  jor (prop (gpi_policy h) "peer_count") (if truthy (VNum n) then VNum n else vint 0).

Definition tab_rules (t : Z) (h : heal L) : heal L :=
  let pol := gpi_policy h in
  let peers := gpi_peers h in
  if num_ltb (num_Z 1) (to_num peers) || truthy (prop pol "multi_tab") then
    let h1 := adapt_upd (fun a => a |> set_multi true |> set_peers peers) h in
    if truthy (prop pol "defer_heavy_collect") then
      h1 |> adapt_upd (fun a => a |> light 1 true |> set_pause (Z.max (pause_deepen_until a) (t + 8000)))
         |> cfg_upd (fun c => c |> set_min_gap (Z.max (zor (collect_min_gap_ms c) 4000) 6000)
                                |> set_nudge_gap (Z.min (zor (transport_nudge_gap_ms c) 2000) 1200))
    else if truthy (prop pol "serial_heavy") then
      h1 |> adapt_upd (light 1 true)
         |> cfg_upd (fun c => set_min_gap (Z.max (zor (collect_min_gap_ms c) 4000) 5000) c)
    else h1
  else adapt_upd (fun a => a |> set_multi false |> set_peers (jor peers (vint 1))) h.

Definition policy_detail (a : adapt) : list (string * val) :=
  [("mode", VStr (ad_mode a)); ("engine", VStr (ad_engine a)); ("max_light", vint (max_light a));
   ("serial", VBool (serial_heavy a)); ("multi_tab", VBool (multi_tab a)); ("peers", jor (ad_peers a) (vint 0))].

Definition applyAdaptivePolicy (force : bool) (h : heal L) : heal L :=
  let t := hnow e in
  let last := last_policy_ms (adaptive h) in
  if negb force && negb (last =? 0) && (t - last <? 3000) then h else
  let h1 := adapt_upd (fun a => a |> set_last_policy t |> set_engine detectEngine) h in
  let mode := policy_mode (CFG h1) (adaptive h1) t in
  let h2 := h1 |> adapt_upd (set_mode mode) |> mode_rules mode t in
  let h3 := if gtrue "__GR_LAB_PRESSURE__" (hwin h2) then adapt_upd (light 1 true) h2 else h2 in
  let h4 := h3 |> tab_rules t |> publishAdaptivePolicy in
  timelinePush "adaptive_policy" (policy_detail (adaptive h4)) h4.

(** ** Whether to collect *)

Definition mayHeavyCollect (h : heal L) : bool :=
  match ld_coord (hl h) with
  | None => true
  | Some c =>
    if co_heavy c then true else
    if negb (co_started c) then true else
    match co_lease c with
    | None => true
    | Some (tab, hb) =>
      if tab =s "" then true else
      if tab =s co_tab c then true else
      negb (num_ltb (match hb with Fin q => Fin (Qminus (inject_Z (hnow e)) q) | Inf s => Inf (negb s) | NaN => NaN end)
                    (num_Z 6000))
    end
  end.

Definition materialState (h : heal L) (bid : string) : string :=
  sor (QueueState.materialState bid (sid h) "main" None (hnow e) (hq h)) "absent".

Definition hasPending (h : heal L) (bid : string) : bool := hasPendingCapture bid (sid h) (hq h).

(** The loop over the received batches; a [null] entry throws and ends it. *)
Fixpoint received_batch (bid : string) (l : list val) : bool :=
  match l with
  | [] => false
  | r :: l' => if negb (nonnull r) then false else
               (to_string_or_empty (prop r "batch_id") =s bid) || received_batch bid l'
  end.

Definition arr (v : val) : list val := match v with VArr l => l | _ => [] end.

Definition serverHasBatch (h : heal L) (bid : string) : bool :=
  received_batch bid (arr (gget "__GR_RECEIVED_BATCHES__" (hwin h))) ||
  let la := gget "__GR_LAST_ANALYZE__" (hwin h) in
  let res := jor (jand la (jor (prop la "result") la)) empty_obj in
  let cov := jor (prop res "coverage") empty_obj in
  let cps := jor (prop res "cycle_probe_status") empty_obj in
  (isB10 bid && (is_true (prop cov "has_b10") || is_true (prop cps "has_b10") || is_true (prop res "b10_present"))) ||
  existsb (fun v => to_string v =s bid)
    (arr (jor (prop cov "received_batch_ids") (jor (prop cps "received_batch_ids") (prop res "received_batch_ids")))).

(** The gap [k], absent or landed; a batch the server reports is remembered. *)
Definition isSatisfied (k : string * string) (h : heal L) : heal L * bool :=
  match gap_at k h with
  | None => (h, true)
  | Some g =>
    if g_server_seen g then (h, true) else
    if materialState h (g_batch g) =s "acked" then (h, true) else
    if serverHasBatch h (g_batch g) then (upd_gap k (set_server_seen true) h, true) else (h, false)
  end.

(** [ensureGap("B10_hw_curves", "main")], and whether it is still wanted and missing. *)
Definition b10_open (h : heal L) : heal L * bool :=
  let h1 := ensureGap B10_KEY id h in
  if match gap_at B10_KEY h1 with Some g => g_desired g | None => false end then
    let '(h2, sat) := isSatisfied B10_KEY h1 in (h2, negb sat)
  else (h1, false).

Definition shouldSkipCollect (bid : string) (h : heal L) : heal L * bool :=
  let skip h := (tally add_skipped h, true) in
  if (isB10 bid || isHard h bid) && negb (mayHeavyCollect h) then
    (h |> tally add_skipped |> timelinePush "skip_collect" [("batch_id", VStr bid); ("why", VStr "gpi_not_heavy")], true)
  else if isB10 bid || isHard h bid then (h, false)
  else
  let p := pause_deepen_until (adaptive h) in
  if negb (p =? 0) && (hnow e <? p) && (isDeepen bid || isSoft h bid) then skip h else
  let '(h1, b10_missing) := b10_open h in
  if b10_missing && isDeepen bid then skip h1 else
  if isDeepen bid && negb (mayHeavyCollect h1) then skip h1 else (h1, false).

Definition softStallMs (h : heal L) (bid : string) : Z :=
  let c := CFG h in
  if isB10 bid then zor (b10_soft_stall_ms c) 25000 else
  if isB10x bid || isDeepen bid then Z.min (zor (heavy_soft_stall_ms c) 18000) 20000 else
  zor (heavy_soft_stall_ms c) 18000.

Definition runTimeoutMs (h : heal L) (bid : string) : Z :=
  let c := CFG h in
  if isB10 bid then b10_run_timeout_ms c else if isB10x bid then b10x_run_timeout_ms c else heavy_run_timeout_ms c.

Definition collectMax (h : heal L) (bid : string) : Z :=
  let c := CFG h in
  let base := if isDeepen bid then zor (deepen_collect_max_attempts c) 4 else
              if isSoft h bid then zor (soft_collect_max_attempts c) 3 else collect_max_attempts c in
  if has_lifecycle (hq h) then
    let life := to_int32 (Lifecycle.maxAttemptsFor (POLICY (lc (hq h))) bid) in
    if isB10 bid || isHard h bid then Z.max base life else Z.min base (zor life base)
  else base.

(** ** Phases *)

Definition release_all (why bid : string) (h : heal L) : heal L :=
  fold_left (fun h c => on_world (ld_release c (why +:+ ":" +:+ bid)) h) ["gpu"; "audio"; "cpu"] h.

(** A pack that has been running for too long loses its resources. *)
Definition isRunning (bid : string) (h : heal L) : heal L * bool :=
  let locked := to_string_or_empty (prop (prop (jor (gget "__GR_RESOURCE_LOCKS__" (hwin h)) empty_obj) "gpu") "label") in
  let gpu := truthy (prop (jor (gget "__GR_RESOURCE_LOCKS__" (hwin h)) empty_obj) "gpu") in
  match ld_health bid (hl h) with
  | Some p =>
    if (ph_run p =s "running") || (ph_run p =s "pending") || (ph_kick p =s "started") then
      if negb (ph_ts p =? 0) && (softStallMs h bid + 2500 <? hnow e - ph_ts p)
      then (h |> release_all "stale_running" bid |> on_world (ld_set_run bid "stale_timeout"), false)
      else (h, true)
    else (h, gpu && (locked =s bid))
  | None => (h, gpu && (locked =s bid))
  end.

Definition refreshLocalPhase (k : string * string) (h : heal L) : heal L * string :=
  let put ph h := (upd_gap k (set_phase ph) h, ph) in
  let '(h, sat) := isSatisfied k h in
  if sat then put "acked" h else
  let bid := fst k in
  let ms := materialState h bid in
  if mem_str ms ["uploading"; "queued"; "retry_wait"] then put ms h else
  if (ms =s "collected") || hasPending h bid then put "collected" h else
  let '(h, run) := isRunning bid h in
  if run then
    put "running" (upd_gap k (fun g => if g_run_started g =? 0 then set_run_started (hnow e) g else g) h) else
  if ld_kicked bid (hl h) then
    if (ms =s "absent") && negb (hasPending h bid) then put "collect_orphan" h else put "kicked" h
  else put "absent" h.

(** ** Loop T *)

Definition gap_or (k : string * string) (h : heal L) : gap := default (new_gap h k) (gap_at k h).

Definition has_phase (ph : string) : bool := mem_str ph ["queued"; "uploading"; "retry_wait"; "collected"].

Definition loopT (k : string * string) (h : heal L) : heal L :=
  let g := gap_or k h in
  if negb (g_desired g) then h else
  let '(h, sat) := isSatisfied k h in
  if sat then h else
  let '(h, ph) := refreshLocalPhase k h in
  if negb (has_phase ph) then h else
  let t := hnow e in
  let last := g_last_transport (gap_or k h) in
  if negb (last =? 0) && (t - last <? transport_nudge_gap_ms (CFG h)) then h else
  let h := h |> upd_gap k (fun g => g |> set_last_transport t |> set_nudges (g_nudges g + 1)) |> tally add_nudges in
  let h := on_queue (fun q => fst (nudgeTransport (h_env e) (fst k) (sid h) q)) h in
  ops "gap_t_retry" [("batch_id", VStr (fst k)); ("phase", VStr ph); ("nudges", vint (g_nudges (gap_or k h)));
                     ("session_id", VStr (sid h))] "info" h.

(** ** Loop C *)

Definition watch_delay (c : hcfg) (n : Z) : Z :=
  let d := collect_watchdog_ms c in
  zor (nth_Z d (Z.min (Z.of_nat (length d) - 1) (Z.max 0 n))) 30000.

(** The jittered wait is drawn once per attempt. *)
Definition watchdogReady (k : string * string) (h : heal L) : heal L * bool :=
  let g := gap_or k h in
  let need := watch_delay (CFG h) (g_attempts g) in
  if (g_last_collect g =? 0) && (g_attempts g =? 0) then (h, true) else
  let fresh := match g_watch g with Some (_, n) => negb (n =? g_attempts g) | None => true end in
  let drawn := Qfloor (Qmult (inject_Z need) (Qplus (4 # 5) (Qmult (h_jitter e (fst k)) (2 # 5)))) in
  let w := match g_watch g with Some (w, _) => if fresh then drawn else w | None => drawn end in
  let h := if fresh then upd_gap k (set_watch (Some (drawn, g_attempts g))) h else h in
  (h, zor w need <=? hnow e - g_last_collect g).

(** [MM.shouldKick(...)] is [false]; a throw is caught. *)
Definition matrix_refuses (k : string * string) (m : option next_method) (h : heal L) : bool :=
  let g := gap_or k h in
  h_matrix e &&
  match shouldKick (h_caps e) (fst k) (g_attempts g) (g_last_err g) (option_map nm_method m) with
  | Some b => negb b
  | None => false
  end.

Definition skip_row (k : string * string) (why : string) (h : heal L) : heal L :=
  timelinePush "skip_collect" [("batch_id", VStr (fst k)); ("why", VStr why)] h.

Definition pack_unsupported (h : heal L) (bid : string) : bool :=
  let ph := prop (gget "__GR_PACK_HEALTH__" (hwin h)) bid in
  is_str (prop ph "run") "unsupported" || is_str (prop ph "capability") "unsupported".

(** Why a collect may not be kicked now, with the state after the checks. *)
Definition collect_refused (k : string * string) (h : heal L) : heal L * bool :=
  let bid := fst k in
  let '(h, cool) := pageCool h in
  if cool || pageUnloading h then (h, true) else
  let '(h, skip) := shouldSkipCollect bid h in
  if skip then (skip_row k "priority_or_circuit" h, true) else
  let g := gap_or k h in
  if mem_str (g_terminal g) ["unsupported"; "skipped_method"] then (skip_row k (g_terminal g) h, true) else
  if pack_unsupported h bid then
    (h |> upd_gap k (set_terminal "unsupported") |> tally add_unsupported, true) else
  if h_matrix e && isUnsupported (jor (g_last_err g) (VStr "")) then
    (upd_gap k (set_terminal "unsupported") h, true) else
  if matrix_refuses k (g_method g) h then (skip_row k "method_budget" h, true) else
  if collectMax h bid <=? g_attempts g then
    let h := upd_gap k (set_phase "collect_exhausted") h in
    ((if isDeepen bid || isSoft h bid
      then h |> adapt_upd (set_pause (hnow e + zor (deepen_circuit_quiet_ms (CFG h)) 20000)) |> tally add_trips
      else h), true) else
  if negb (g_last_collect g =? 0) && (hnow e - g_last_collect g <? collect_min_gap_ms (CFG h)) then (h, true) else
  if hasPending h bid then (h, true) else
  if materialState h bid =s "acked" then (h, true) else
  if negb (ld_collector bid (hl h)) then (on_world ld_ensure_modules h, true) else (h, false).

Definition key_item (sid bid src : string) : item :=
  mkItem 0 sid bid src 0 false false false false false false None "" VUndef "" false 0 0 0 0 VUndef VUndef 0 "" false.

(** [m && m.k] where [m] may be [dflt] *)
Definition method_str (dflt : val) (f : pmethod -> string) (m : option next_method) : val :=
  match m with Some n => VStr (f (nm_method n)) | None => dflt end.

(** The bookkeeping of a kick. *)
Definition start_collect (k : string * string) (why : string) (h : heal L) : heal L :=
  let t := hnow e in
  let g := gap_or k h in
  let h := on_world (ld_clear_kicked (fst k)) h in
  let h := if g_force g then on_queue (clearSentKeys [AnItem (key_item (sid h) (fst k) (snd k))]) h else h in
  let h := h |> upd_gap k (fun g => g |> set_attempts (g_attempts g + 1) |> set_last_collect t |> set_run_started t
                                      |> set_phase "running" |> set_reason (sor why "collect") |> set_stall_done false)
             |> tally add_kicks in
  timelinePush "kick_collect"
    [("batch_id", VStr (fst k)); ("attempt", vint (g_attempts g + 1)); ("why", VStr (sor why "collect"));
     ("mode", VStr (ad_mode (adaptive h))); ("method", method_str VUndef method_id (g_method g));
     ("profile", method_str VUndef profile (g_method g))] h.

(** The companion of the primary curves. *)
Definition companion (k : string * string) (h : heal L) : heal L * list pack :=
  if isB10 (fst k) && ld_collector "B7_sandbox" (hl h) then
    let h := ensureGap ("B7_sandbox", "main") id h in
    let '(h, sat) := isSatisfied ("B7_sandbox", "main") h in
    (h, if sat then [] else [mkPack "B7_sandbox" 900 false])
  else (h, []).

(** Thin stop flags do not hold against a gap. *)
Definition lift_stop (resume_queue : bool) (h : heal L) : heal L :=
  if gtrue "__GR_STOP_PROBE__" (hwin h) && negb (gtrue "__GR_SKIP_IDENTITY__" (hwin h)) then
    let h := h |> set_global "__GR_STOP_PROBE__" (VBool false) |> set_global "__GR_HALT_UPLOADS__" (VBool false) in
    if resume_queue then on_queue (fun q => fst (resume (sid h) q)) h else h
  else h.

Definition kickCollect (k : string * string) (why : string) (h : heal L) : heal L * bool :=
  let '(h, refused) := collect_refused k h in
  if refused then (h, false) else
  let h := start_collect k why h in
  let '(h, extra) := companion k h in
  let h := lift_stop true h in
  let g := gap_or k h in
  let h := ops "gap_c_retry" [("batch_id", VStr (fst k)); ("attempt", vint (g_attempts g)); ("why", VStr (sor why "collect"));
                              ("force", VBool (g_force g)); ("session_id", VStr (sid h))]
             (if 4 <=? g_attempts g then "warn" else "info") h in
  match ld_kick_all (mkPack (fst k) (zor (g_priority g) 1000) (g_force g) :: extra) (sid h) (world h) with
  | Ret w => (set_world w h, true)
  | Throw w msg =>
    (h |> set_world w |> ops "gap_c_kick_fail" [("batch_id", VStr (fst k)); ("err", VStr msg)] "warn", false)
  end.

(** ** Stalls *)

Inductive rotation := Stopped | Rotated (m : option next_method).

(** The next method of the matrix; [Stopped] when it ends the recovery. *)
Definition rotate (k : string * string) (why : string) (h : heal L) : heal L * rotation :=
  if negb (h_matrix e) then (h, Rotated None) else
  let t := hnow e in
  let bid := fst k in
  let n := g_switches (gap_or k h) in
  match nextMethod (h_caps e) bid (Z.max 0 n) (sor (ad_engine (adaptive h)) (sor (MethodMatrix.detectEngine (h_caps e)) "unknown")) with
  | None => (h, Rotated None)
  | Some m =>
    let h := h |> upd_gap k (fun g => g |> set_switches (n + 1) |> set_method (Some m))
               |> on_queue (fun q => set_win (publishMethod bid m (win q)) q) |> tally add_switches in
    let skip := honest_skip (nm_method m) in
    if skip || (degrade (nm_method m) && (2 <? n + 1)) then
      let h := h |> upd_gap k (fun g => g |> set_phase (if skip then "honest_skip" else "degrade_done")
                                          |> set_terminal (if skip then "skipped_method" else "degrade"))
                 |> timelinePush "method_stop" [("batch_id", VStr bid); ("method", VStr (method_id (nm_method m)));
                                                ("why", VStr (sor why "stall"))] in
      let h := ops "probe_method_stop" [("batch_id", VStr bid); ("method", VStr (method_id (nm_method m)));
                                        ("profile", VStr (profile (nm_method m))); ("session_id", VStr (sid h))] "warn" h in
      ((if isDeepen bid || isSoft h bid
        then adapt_upd (set_pause (t + zor (deepen_circuit_quiet_ms (CFG h)) 20000)) h else h), Stopped)
    else if isUnsupported (jor (g_last_err (gap_or k h)) (jor (VStr why) (VStr ""))) then
      (h |> upd_gap k (fun g => g |> set_phase "unsupported" |> set_terminal "unsupported") |> tally add_unsupported
         |> timelinePush "unsupported_stop" [("batch_id", VStr bid); ("err", jor (g_last_err (gap_or k h)) (VStr why))],
       Stopped)
    else (h, Rotated (Some m))
  end.

Definition recoverFromStall (k : string * string) (why : string) (h : heal L) : heal L * bool :=
  let t := hnow e in
  let bid := fst k in
  let last := last_stall_ms (adaptive h) in
  if negb (last =? 0) && (t - last <? 4000) then (h, false) else
  let h := h |> adapt_upd (fun a => a |> set_last_stall t |> set_recoveries (stall_recoveries a + 1))
             |> tally (fun s => s |> add_stalls |> add_recoveries) in
  let '(h, r) := rotate k why h in
  match r with
  | Stopped => (h, false)
  | Rotated m =>
    let label := match m with Some n => sor (method_id (nm_method n)) why | None => why end in
    let h := timelinePush "stall_recover"
      [("batch_id", VStr bid); ("why", VStr (sor why "stall")); ("phase", VStr (g_phase (gap_or k h)));
       ("engine", VStr (ad_engine (adaptive h))); ("n", vint (stall_recoveries (adaptive h)));
       ("method", method_str VNull method_id m); ("profile", method_str VNull profile m)] h in
    let h := h |> on_world (ld_clear_kicked bid)
               |> upd_gap k (fun g => g |> set_run_started 0 |> set_phase "stall_recover")
               |> on_world (ld_hard_lose ("stall:" +:+ bid +:+ ":" +:+ label))
               |> release_all "stall" bid in
    let h := if 2 <=? stall_recoveries (adaptive h) then
               let h := h |> adapt_upd (set_pause (t + zor (deepen_circuit_quiet_ms (CFG h)) 20000)) |> tally add_trips in
               h |> timelinePush "circuit_deepen_pause" [("until", vint (pause_deepen_until (adaptive h)))]
                 |> ops "probe_circuit_deepen"
                      [("until", vint (pause_deepen_until (adaptive h))); ("stalls", vint (stall_recoveries (adaptive h)));
                       ("session_id", VStr (sid h))] "warn"
             else h in
    let h := applyAdaptivePolicy true h in
    let h := ops "probe_stall_recover"
      [("batch_id", VStr bid); ("why", VStr (sor why "stall")); ("engine", VStr (ad_engine (adaptive h)));
       ("mode", VStr (ad_mode (adaptive h))); ("recoveries", vint (stall_recoveries (adaptive h)));
       ("method", method_str VNull method_id m); ("profile", method_str VNull profile m);
       ("multipath_cap", match m with Some n => match multipath_cap (nm_method n) with Some c => vint c | None => VUndef end
                                    | None => VNull end);
       ("session_id", VStr (sid h))] "warn" h in
    if isB10 bid || isHard h bid then
      if matrix_refuses k m h then (upd_gap k (set_phase "method_budget_exhausted") h, false) else
      kickCollect k ("stall_recover:" +:+ sor label "stall") (upd_gap k (set_force true) h)
    else (h, true)
  end.

Definition loopC (k : string * string) (h : heal L) : heal L :=
  let bid := fst k in
  if negb (g_desired (gap_or k h)) then h else
  let '(h, sat) := isSatisfied k h in
  if sat then h else
  let '(h, ph) := refreshLocalPhase k h in
  if has_phase ph then h else
  if ph =s "running" then
    let g := gap_or k h in
    let elapsed := if g_run_started g =? 0 then 0 else hnow e - g_run_started g in
    let soft := softStallMs h bid in
    let to := runTimeoutMs h bid in
    if (soft <? elapsed) && negb (g_stall_done g) then
      let h := h |> upd_gap k (set_stall_done true)
                 |> timelinePush "soft_stall" [("batch_id", VStr bid); ("elapsed", vint elapsed); ("soft", vint soft)] in
      let h := ops "probe_soft_stall" [("batch_id", VStr bid); ("elapsed_ms", vint elapsed); ("soft_ms", vint soft);
                                       ("session_id", VStr (sid h))] "warn" h in
      if isB10 bid || isHard h bid then fst (recoverFromStall k "soft_stall" h) else h
    else if negb (g_run_started g =? 0) && (to <? elapsed) then
      let h := h |> on_world (ld_clear_kicked bid)
                 |> upd_gap k (fun g => g |> set_run_started 0 |> set_phase "collect_timeout" |> set_stall_done false)
                 |> timelinePush "hard_timeout" [("batch_id", VStr bid); ("elapsed", vint elapsed); ("to", vint to)] in
      let h := fst (recoverFromStall k "run_timeout" h) in
      ops "gap_c_timeout" [("batch_id", VStr bid); ("timeout_ms", vint to); ("session_id", VStr (sid h));
                           ("gl_hard_lose", VBool (gtrue "__GR_LAST_GL_HARD_LOSE__" (hwin h)))] "warn" h
    else h
  else
  (* collect_orphan, kicked or absent *)
  if (ph =s "kicked") && hasPending h bid then h else
  let '(h, ready) := watchdogReady k h in
  if negb ready && (ph <>s "collect_orphan") && (0 <? g_attempts (gap_or k h)) then h else
  fst (kickCollect k (if ph =s "absent" then "missing" else ph) h).

(** ** Loop B *)

Definition plan_epoch_of (plan rev : val) : val :=
  if nonnull (prop plan "plan_epoch") then prop plan "plan_epoch" else
  if nonnull (prop plan "plan_version") then prop plan "plan_version" else rev.

(** An integer of the plan. *)
Definition plan_int (v : val) : Z := match to_num v with Fin q => Qfloor q | _ => 0 end.

Definition pack_key (p : val) (id : val) : string * string :=
  gkey (to_string id) (to_string_or_empty (prop p "source")).

(** One pack of the plan; a patch writes [force_recollect] even when it does not ask for it. *)
Definition merge_pack (h : heal L) (p0 : val) : heal L :=
  let p := jor p0 empty_obj in
  let id := jor (prop p "pack_id") (jor (prop p "id") (prop p "batch_id")) in
  if negb (truthy id) then h else
  let force := is_true (prop p "force_recollect") in
  let k := pack_key p id in
  let pr := if nonnull (prop p "priority") then plan_int (prop p "priority")
            else if isB10 (fst k) then 1000 else 200 in
  let h := ensureGap k (fun g => g |> set_desired true |> set_force force |> set_gpriority pr |> set_reason "route_plan") h in
  if force then upd_gap k (fun g => g |> set_force true |> set_generation (zor (g_generation g) 1 + 1)
                                      |> set_server_seen false) h
  else h.

Definition anchor (pr : Z) (reason : string) (g : gap) : gap :=
  g |> set_desired true |> set_gpriority pr |> set_reason reason.

Definition mergeRoutePlan (plan rev : val) (h : heal L) : heal L :=
  if negb (truthy plan) || negb (is_object plan) then h else
  let epoch := plan_epoch_of plan rev in
  let h := if nonnull (lastPlanEpoch h) && (to_string epoch <>s to_string (lastPlanEpoch h))
           then set_applyN 0 h else h in
  let h := h |> set_epoch epoch |> set_global "__GR_PLAN_EPOCH__" epoch |> set_global "__GR_ROUTE_PLAN__" plan in
  let h := fold_left merge_pack (arr (prop plan "packs")) h in
  let h := ensureGap B10_KEY (anchor 1000 "anchor") h in
  if is_true (prop (jor (prop plan "coverage") empty_obj) "has_b10")
  then ensureGap B10_KEY (set_server_seen true) h else h.

Definition applyPlan (plan : val) (h : heal L) : heal L :=
  if negb (truthy plan) then h else
  let '(h, cool) := pageCool h in
  if cool || pageUnloading h then h else
  if brain_apply_budget (CFG h) <=? brainApplyN h then h else
  let h := h |> set_applyN (brainApplyN h + 1) |> tally add_applies |> lift_stop false in
  let h := ops "gap_b_apply" [("plan_epoch", lastPlanEpoch h); ("packs_n", vint (Z.of_nat (length (arr (prop plan "packs")))));
                              ("n", vint (brainApplyN h)); ("session_id", VStr (sid h))] "info" h in
  on_world (ld_apply_plan plan (sid h)) h.

(** [s.replace(/\/$/, "")] *)
Definition strip_slash (s : string) : string :=
  if ends_with "/" s then stake (String.length s - 1) s else s.

Definition apiBase (h : heal L) : string :=
  strip_slash (to_string (jor (prop (gget "__GR_BOOT__" (hwin h)) "apiBase")
    (jor (gget "__GR_API_BASE__" (hwin h)) (VStr "")))).

(** The request started; its answer is a later [on_analyses]. *)
Definition pollAnalyses (h : heal L) : heal L :=
  if (apiBase h =s "") || (sid h =s "") || negb (h_fetch e) then h else
  h |> tally add_polls
    |> set_polls ((apiBase h +:+ "/v1/session/" +:+ encodeURIComponent (sid h) +:+ "/analyses") :: polls h).

(** Whether some wanted gap is open; every one is looked at. *)
Definition open_gaps (h : heal L) : heal L * bool :=
  fold_left (fun '(h, b) k =>
    if g_desired (gap_or k h) then let '(h', sat) := isSatisfied k h in (h', b || negb sat) else (h, b))
    (map (fun g => (g_batch g, g_source g)) (gaps h)) (h, false).

Definition loopB (force : bool) (h : heal L) : heal L :=
  let '(h, cool) := pageCool h in
  if cool || pageUnloading h then h else
  let t := hnow e in
  let '(h, open) := open_gaps h in
  let c := CFG h in
  let spacing := if negb (h_visible e) then brain_poll_hidden_ms c
                 else if open then brain_poll_gap_ms c else brain_poll_visible_ms c in
  if negb force && negb (lastBrainPollMs h =? 0) && (t - lastBrainPollMs h <? spacing) then h else
  pollAnalyses (set_poll_ms t h).

(** [j.latest], the first analysis, [j.result] or [j] *)
Definition result_of (j : val) : val :=
  if negb (truthy j) then VNull else
  let r := jor (prop j "result") j in
  let r := match prop j "analyses" with
           | VArr (a :: _) => jor (prop a "result") a
           | _ => r
           end in
  if truthy (prop j "latest") then jor (prop (prop j "latest") "result") (prop j "latest") else r.

Definition num_max (a b : num) : num := if num_ltb a b then b else a.

(** What the server says it has. *)
Definition mark_received (result : val) (h : heal L) : heal L :=
  let cps := jor (prop result "cycle_probe_status") empty_obj in
  let cov := jor (prop result "coverage") (jor (prop cps "identity_coverage") empty_obj) in
  let b10 := is_true (prop cov "has_b10") || is_true (prop cps "has_b10") in
  let terminal := is_true (prop result "analysis_terminal") || is_true (prop cps "analysis_terminal") ||
    (truthy (prop (prop result "route_plan") "stop_probe") && truthy (prop cov "coverage_complete")) ||
    is_true (prop cov "brain_schedule_final") || is_true (prop cps "brain_schedule_final") in
  let h := if terminal && (b10 || (materialState h "B10_hw_curves" =s "acked"))
           then ensureGap B10_KEY (set_server_seen true) h else h in
  let h := if b10 then ensureGap B10_KEY (set_server_seen true) h else h in
  fold_left (fun h id => ensureGap (to_string_or_empty id, "main") (set_server_seen true) h)
    (arr (jor (prop cov "received_batch_ids") (prop cps "received_batch_ids"))) h.

(** Whether a plan has a pack that is missing or forced; [None] when an entry
    is [null], which throws. *)
Fixpoint need_apply (ps : list val) (h : heal L) (b : bool) : heal L * option bool :=
  match ps with
  | [] => (h, Some b)
  | p :: ps' =>
    if negb (nonnull p) then (h, None) else
    let id := jor (prop p "pack_id") (prop p "id") in
    if negb (truthy id) then need_apply ps' h b else
    let k := pack_key p id in
    let '(h', sat) := isSatisfied k (ensureGap k Datatypes.id h) in
    need_apply ps' h' (b || negb sat || truthy (prop p "force_recollect"))
  end.

(** The continuation of a poll, with the parsed answer ([null] on any failure). *)
Definition on_analyses (j : val) (h : heal L) : heal L :=
  let result := result_of j in
  if negb (truthy result) then h else
  let h := set_global "__GR_LAST_ANALYZE__" (VObj [("result", result); ("route_plan", prop result "route_plan")]) h in
  let rev := jor (prop result "analysis_rev") (jor (prop result "rev") (vint 0)) in
  let h := if truthy rev then set_rev (num_max (lastBrainRev h) (to_num rev)) h else h in
  let h := mark_received result h in
  let plan := jor (prop result "route_plan") (jor (prop (prop result "brain") "route_plan")
                (gget "__GR_ROUTE_PLAN__" (hwin h))) in
  if negb (truthy plan) then h else
  let h := mergeRoutePlan plan rev h in
  let '(h, need) := need_apply (arr (prop plan "packs")) h false in
  if default false need then applyPlan plan h else h.

(** ** Supervisor *)

Definition kickBootIfNoSession (h : heal L) : heal L :=
  if sid h <>s "" then h else
  if pageUnloading h then h else
  let t := hnow e in
  let last := last_boot_kick (hst h) in
  if negb (last =? 0) && (t - last <? 4000) then h else
  let h := h |> tally (fun s => s |> set_last_boot t |> add_boot) |> timelinePush "boot_kick" [("why", VStr "no_session")] in
  on_world (ld_boot (gtrue "__GR_FORCE_IDENTITY__" (hwin h))) h.

(** The primary curves have landed: the pause of the deepening batches ends. *)
Definition lift_pause (h : heal L) : heal L := applyAdaptivePolicy true (adapt_upd (set_pause 0) h).

(** One gap of a tick. *)
Definition tick_gap (b10Ok : bool) (h : heal L) (k : string * string) : heal L :=
  if negb (g_desired (gap_or k h)) then h else
  let '(h, sat) := isSatisfied k h in
  if sat then
    if g_phase (gap_or k h) =s "acked" then h else
    let h := h |> upd_gap k (set_phase "acked") |> tally add_satisfied in
    let h := h |> ops "gap_satisfied" [("batch_id", VStr (fst k)); ("session_id", VStr (sid h))] "info"
               |> timelinePush "satisfied" [("batch_id", VStr (fst k))] in
    if isB10 (fst k) && negb (pause_deepen_until (adaptive h) =? 0)
    then lift_pause h else h
  else
  let '(h, cool) := pageCool h in
  if cool then loopT k h else
  if (ad_mode (adaptive h) =s "recovery") && negb b10Ok && negb (isB10 (fst k)) && negb (isHard h (fst k)) then h else
  let h := fst (refreshLocalPhase k h) in
  h |> loopT k |> loopC k.

(** The progressive pump and its report (less the product version and the
    number of hard anchors, which nothing here decides on). *)
Definition progressive (h : heal L) : heal L :=
  if pageUnloading h then h else
  let '(h, cool) := pageCool h in
  if cool then h else
  let h := on_queue (fun q => fst (pumpWhileOpen (h_env e) "self_heal_progressive" q)) h in
  let c := completenessSnapshot (hq h) in
  if k_main_complete c then h else
  let t := hnow e in
  let last := last_completeness (hst h) in
  if negb (last =? 0) && (t - last <? 10000) then h else
  let h := tally (set_last_complete t) h in
  ops "probe_completeness_progressive"
    [("session_id", VStr (sid h)); ("probe_depth_class", VStr (k_depth c));
     ("hard_ok_n", vint (Z.of_nat (length (k_hard_ok c))));
     ("hard_missing", VArr (map VStr (firstn 12 (k_hard_missing c)))); ("batches_ok_n", vint (k_ok_n c));
     ("pending", vint (k_pending c)); ("inflight", vint (k_inflight c)); ("progressive", VBool true)] "info" h.

(** A tick after the policy and the boot check: the anchors, every gap by
    priority, the brain, the pump. *)
Definition tick_gaps (forceBrain : bool) (h : heal L) : heal L :=
  let '(h, cool) := pageCool h in
  let h := if cool then h else h |> ensureGap B10_KEY (anchor 1000 "anchor")
                                 |> ensureGap ("B0_bootstrap", "main") (anchor 900 "anchor") in
  let keys := map (fun g => (g_batch g, g_source g)) (sort_desc g_priority (gaps h)) in
  let h := ensureGap B10_KEY Datatypes.id h in
  let '(h, b10Ok) := isSatisfied B10_KEY h in
  let h := fold_left (tick_gap b10Ok) keys h in
  let h := if (ad_mode (adaptive h) =s "recovery") && negb b10Ok then h else loopB forceBrain h in
  progressive h.

Definition tickOnce (forceBrain : bool) (h : heal L) : heal L :=
  if negb (started h) || pageUnloading h then h else
  h |> tally add_ticks |> applyAdaptivePolicy false |> kickBootIfNoSession |> tick_gaps forceBrain.

(** A completion event arms one tick 150 ms later. *)
Definition scheduleEventTick (upload_ok : bool) (h : heal L) : heal L :=
  match eventTickTimer h with
  | Some _ => h
  | None => if negb (started h) || pageUnloading h then h else set_event_timer (Some upload_ok) h
  end.

Definition event_tick (h : heal L) : heal L :=
  match eventTickTimer h with
  | Some b => tickOnce b (set_event_timer None h)
  | None => h
  end.

Definition next_tick_ms (h : heal L) : Z := if h_visible e then tick_visible_ms (CFG h) else tick_hidden_ms (CFG h).

Definition scheduleNext (h : heal L) : heal L := if negb (started h) then h else set_timer (Some (next_tick_ms h)) h.

(** The timer's callback. *)
Definition timer_tick (h : heal L) : heal L := scheduleNext (tickOnce false h).

Definition seed_missing (l : list val) (h : heal L) : heal L :=
  fold_left (fun h id => ensureGap (to_string_or_empty id, "main")
                           (fun g => g |> set_desired true |> set_reason "open_missing") h) l h.

(** [c] is the effect of [opts.cfg]; [role] is [GROriginCoordinator.getRole()]. *)
Definition starting (c : hcfg -> hcfg) (missing : list val) (need_hard_anchor : bool) (role : val) (h : heal L) : heal L :=
  let h := h |> cfg_upd c |> applyAdaptivePolicy true |> set_listeners true in
  let h := if gtrue "__GR_FORCE_IDENTITY__" (hwin h) || gtrue "__GR_FORCE_REPROBE__" (hwin h)
           then h |> adapt_upd (fun a => set_recoveries (Z.max (stall_recoveries a) 2) a) |> applyAdaptivePolicy true
           else h in
  let h := on_world (ld_coord_start (sid h)) h in
  let h := h |> ensureGap B10_KEY (anchor 1000 "start") |> ensureGap ("B0_bootstrap", "main") (anchor 900 "start")
             |> seed_missing missing in
  let h := if need_hard_anchor then ensureGap B10_KEY (anchor 1000 "need_hard_anchor") h else h in
  let h := h |> set_started true |> set_global "__GR_SELF_HEAL_ACTIVE__" (VBool true) in
  let a := adaptive h in
  h |> timelinePush "supervisor_start" [("engine", VStr (ad_engine a)); ("mode", VStr (ad_mode a)); ("gpi_role", role)]
    |> ops "gap_supervisor_start" [("session_id", VStr (sid h)); ("engine", VStr (ad_engine a));
         ("mode", VStr (ad_mode a)); ("max_light", vint (max_light a)); ("gpi_role", role)] "info".

Definition start (c : hcfg -> hcfg) (missing : list val) (need_hard_anchor : bool) (role : val) (h : heal L) : heal L :=
  h |> starting c missing need_hard_anchor role |> tickOnce false |> scheduleNext.

Definition stop (why : string) (h : heal L) : heal L :=
  let h := h |> set_started false |> set_timer None |> set_global "__GR_SELF_HEAL_ACTIVE__" (VBool false) in
  ops "gap_supervisor_stop" [("why", VStr (sor why "stop")); ("session_id", VStr (sid h))] "info" h.

Definition seeded (opened : val) (h : heal L) : heal L :=
  let h := seed_missing (arr (jor (prop opened "missing_batches") (prop opened "missing"))) h in
  let nha := truthy (prop opened "need_hard_anchor") in
  let h := if nha || truthy (prop opened "resumed")
           then ensureGap B10_KEY (anchor 1000 (if nha then "need_hard_anchor" else "resumed")) h else h in
  let lir := jor (prop opened "last_identity_result") empty_obj in
  let plan := jor (prop lir "route_plan") (prop (prop lir "brain") "route_plan") in
  let h := if truthy plan then mergeRoutePlan plan (jor (prop lir "analysis_rev") (vint 0)) h else h in
  if truthy (prop (jor (prop lir "coverage") empty_obj) "has_b10")
  then ensureGap B10_KEY (set_server_seen true) h else h.

Definition seedFromOpen (opened0 role : val) (h : heal L) : heal L :=
  let opened := jor opened0 empty_obj in
  let h := seeded opened h in
  if started h then tickOnce false h
  else start Datatypes.id [] (truthy (prop opened "need_hard_anchor")) role h.

(** The rows of [snapshot()]: each gap with whether it is satisfied. *)
Definition snapshot_rows (h : heal L) : heal L * list (gap * bool) :=
  fold_left (fun '(h, out) g =>
    let '(h', sat) := isSatisfied (g_batch g, g_source g) h in (h', out ++ [(g, sat)])) (gaps h) (h, []).

Definition onVisible (h : heal L) : heal L :=
  if negb (started h) then h else
  let '(h, cool) := pageCool h in
  if cool then h else
  h |> set_poll_ms 0 |> tickOnce false |> loopB true.
End SelfHeal.
