(* ===== verification/SelfHealSpec.v ===== *)
(** * What the self-heal supervisor guarantees

    One relation, [keeps], is preserved by every operation of [SelfHeal]: the
    configuration the proofs read, the monotone count of stall recoveries, the
    kick budget of a gap and the pause of the deepening batches.  From it
    follow the bound on kicks over any run and the behaviour after the second
    stall recovery. *)

From Stdlib Require Import QArith Qround.
From S2P Require Import Prelude JsVal Window Json Uri MethodMatrix Lifecycle Scheduler Registry QueueState Freeze QueuePump QueueApi SelfHeal.
#[local] Open Scope Z_scope.

(** ** The relation *)

Section Keeps.
Context {L : Type} `{Loader L}.
Variable b : bool.
Variable e : henv.
Implicit Types h : heal L.

(** How often the gap [k] has been kicked. *)
Definition attempts_of (k : string * string) h : Z :=
  match gap_at k h with Some g => g_attempts g | None => 0 end.

Definition within (n : Z) h : Prop := forall k, attempts_of k h <= n.

(** Two stall recoveries behind, the mode left to [auto]; the last policy of
    the clock's past still pauses the deepening batches for its three seconds. *)
Definition settled h : Prop :=
  sor (adaptive_mode (CFG h)) "auto" = "auto" /\
  (deepen_circuit_quiet_ms (CFG h) = 0 \/ 3000 <= deepen_circuit_quiet_ms (CFG h)) /\
  2 <= stall_recoveries (adaptive h) /\
  0 <= last_policy_ms (adaptive h) <= hnow e /\
  (last_policy_ms (adaptive h) = 0 \/ last_policy_ms (adaptive h) + 3000 <= pause_deepen_until (adaptive h)).

Definition paused h : Prop := settled h /\ hnow e < pause_deepen_until (adaptive h).

Record keeps h h' : Prop := Keeps {
  kp_mode : adaptive_mode (CFG h') = adaptive_mode (CFG h);
  kp_quiet : deepen_circuit_quiet_ms (CFG h') = deepen_circuit_quiet_ms (CFG h);
  kp_rec : stall_recoveries (adaptive h) <= stall_recoveries (adaptive h');
  kp_within : h_matrix e = true -> within 6 h -> within 6 h';
  kp_settled : settled h -> settled h';
  kp_still : b = false -> forall k, attempts_of k h' = attempts_of k h;
  kp_paused : paused h -> paused h' /\ forall k, isDeepen (fst k) = true -> attempts_of k h' = attempts_of k h
}.

#[export] Instance keeps_preorder : PreOrder keeps.
Proof.
  split.
  - intros h. by constructor.
  - intros x y z [m1 q1 r1 w1 s1 a1 p1] [m2 q2 r2 w2 s2 a2 p2]. constructor; auto; try congruence; try lia.
    { intros Hb k. by rewrite a2, a1. }
    intros Hp. destruct (p1 Hp) as [Hb Ha]. destruct (p2 Hb) as [Hc Hd]. split; [done|].
    intros k Hk. rewrite Hd, Ha; done.
Qed.

Lemma keeps_refl h : keeps h h.
Proof. reflexivity. Qed.

Lemma keeps_step h0 h h' : keeps h h' -> keeps h0 h -> keeps h0 h'.
Proof. intros A B. by transitivity h. Qed.

Lemma keeps_fst {A} (p : heal L * A) h h1 a : p = (h1, a) -> keeps h (fst p) -> keeps h h1.
Proof. by intros ->. Qed.

(** A change of the parts the relation does not read. *)
Lemma keeps_view h h' :
  gaps h' = gaps h -> adaptive h' = adaptive h ->
  adaptive_mode (CFG h') = adaptive_mode (CFG h) ->
  deepen_circuit_quiet_ms (CFG h') = deepen_circuit_quiet_ms (CFG h) -> keeps h h'.
Proof.
  intros Hg Ha Hm Hq.
  constructor; unfold settled, paused, settled, within, attempts_of, gap_at; rewrite ?Hg, ?Ha, ?Hm, ?Hq; auto; try lia.
Qed.

Lemma keeps_frame f h :
  (forall x, gaps (f x) = gaps x /\ adaptive (f x) = adaptive x /\
     adaptive_mode (CFG (f x)) = adaptive_mode (CFG x) /\
     deepen_circuit_quiet_ms (CFG (f x)) = deepen_circuit_quiet_ms (CFG x)) -> keeps h (f h).
Proof. intros Hf. by apply keeps_view; apply Hf. Qed.

Lemma keeps_adapt f h :
  stall_recoveries (adaptive h) <= stall_recoveries (f (adaptive h)) ->
  last_policy_ms (f (adaptive h)) = last_policy_ms (adaptive h) ->
  pause_deepen_until (adaptive h) <= pause_deepen_until (f (adaptive h)) -> keeps h (adapt_upd f h).
Proof.
  intros Hr Hl Hp. constructor; unfold paused, settled, within, attempts_of, gap_at; cbn; auto; rewrite ?Hl.
  - intros (?&?&?&?&[?|?]); repeat split; auto; try lia.
  - intros ((?&?&?&?&[?|?])&?); repeat split; auto; try lia.
Qed.

(** The circuit breaker's pause. *)
Lemma keeps_trip h :
  keeps h (adapt_upd (set_pause (hnow e + zor (deepen_circuit_quiet_ms (CFG h)) 20000)) h).
Proof.
  assert (forall q, q = 0 \/ 3000 <= q -> 3000 <= zor q 20000) as Hz.
  { intros q. unfold zor. destruct (Z.eqb_spec q 0); lia. }
  constructor; unfold paused, settled, within, attempts_of, gap_at; cbn; auto; try lia.
  - intros (?&Hq&?&?&?). pose proof (Hz _ Hq). repeat split; auto; lia.
  - intros ((?&Hq&?&?&?)&?). pose proof (Hz _ Hq). repeat split; auto; lia.
Qed.

(** *** The gap table *)

(** A change of a gap that neither renames it nor touches its attempts. *)
Definition tidy (f : gap -> gap) : Prop :=
  forall g, g_batch (f g) = g_batch g /\ g_source (f g) = g_source g /\ g_attempts (f g) = g_attempts g.

Lemma find_map_same k (f : gap -> gap) (l : list gap) :
  (forall g, g_batch (f g) = g_batch g /\ g_source (f g) = g_source g) ->
  List.find (same_gap k) (map f l) = option_map f (List.find (same_gap k) l).
Proof.
  intros Hf. induction l as [|g l IH]; [done|]. simpl.
  assert (same_gap k (f g) = same_gap k g) as ->.
  { unfold same_gap. by destruct (Hf g) as [-> ->]. }
  by destruct (same_gap k g).
Qed.

Lemma gap_at_upd k k' f h :
  (forall g, g_batch (f g) = g_batch g /\ g_source (f g) = g_source g) ->
  gap_at k (upd_gap k' f h) = option_map (fun g => if same_gap k' g then f g else g) (gap_at k h).
Proof. intros Hf. unfold gap_at, upd_gap. cbn. apply find_map_same. intros g. by destruct (same_gap k' g). Qed.

Lemma same_gap_spec k g : same_gap k g = true <-> k = (g_batch g, g_source g).
Proof.
  unfold same_gap. rewrite andb_true_iff, !String.eqb_eq. destruct k; simpl. split; [intros []|intros [= ]]; by subst.
Qed.

Lemma gap_at_same k h g : gap_at k h = Some g -> same_gap k g = true.
Proof. intros Hg. by apply find_some in Hg as [_ Hg]. Qed.

Lemma attempts_upd k k' f h : tidy f -> attempts_of k (upd_gap k' f h) = attempts_of k h.
Proof.
  intros Hf. unfold attempts_of. rewrite gap_at_upd by (intros g; by destruct (Hf g) as (?&?&?)).
  destruct (gap_at k h) as [g|]; [|done]. cbn. destruct (same_gap k' g); [|done]. apply Hf.
Qed.

Lemma keeps_upd k f h : tidy f -> keeps h (upd_gap k f h).
Proof.
  intros Hf. constructor; try done.
  - intros _ Hw k'. by rewrite attempts_upd.
  - intros _ k'. by apply attempts_upd.
  - intros Hp. split; [done|]. intros k' _. by apply attempts_upd.
Qed.

Lemma gap_at_app k g h :
  gap_at k (set_gaps (gaps h ++ [g]) h) =
  match gap_at k h with Some g' => Some g' | None => if same_gap k g then Some g else None end.
Proof.
  unfold gap_at. cbn. induction (gaps h) as [|g' l IH]; [done|]. simpl. by destruct (same_gap k g').
Qed.

Lemma attempts_new k k' h : attempts_of k (set_gaps (gaps h ++ [new_gap h k']) h) = attempts_of k h.
Proof. unfold attempts_of. rewrite gap_at_app. destruct (gap_at k h); [done|]. by destruct (same_gap k _). Qed.

Lemma attempts_ensure k k' f h : tidy f -> attempts_of k (ensureGap k' f h) = attempts_of k h.
Proof.
  intros Hf. unfold ensureGap. destruct (fst k' =s ""); [done|]. rewrite attempts_upd by done.
  destruct (gap_at k' h); [done|]. apply attempts_new.
Qed.

Lemma keeps_ensure k f h : tidy f -> keeps h (ensureGap k f h).
Proof.
  intros Hf. unfold ensureGap. destruct (fst k =s ""); [done|]. eapply keeps_step; [by apply keeps_upd|].
  destruct (gap_at k h); [done|]. constructor; try done.
  - intros _ Hw k'. by rewrite attempts_new.
  - intros _ k'. apply attempts_new.
  - intros Hp. split; [done|]. intros k' _. apply attempts_new.
Qed.

Lemma gap_or_attempts k h : g_attempts (gap_or k h) = attempts_of k h.
Proof. unfold gap_or, attempts_of. by destruct (gap_at k h). Qed.

(** *** Frames *)

Lemma keeps_world w h : keeps h (set_world w h).
Proof. by apply keeps_view. Qed.
Lemma keeps_tally f h : keeps h (tally f h).
Proof. by apply keeps_view. Qed.
Lemma keeps_timeline ev d h : keeps h (timelinePush e ev d h).
Proof. by apply keeps_view. Qed.
Lemma keeps_ops c d s h : keeps h (ops c d s h).
Proof. by apply keeps_view. Qed.
Lemma keeps_global k v h : keeps h (set_global k v h).
Proof. by apply keeps_view. Qed.
Lemma keeps_on_world f h : keeps h (on_world f h).
Proof. by apply keeps_view. Qed.
Lemma keeps_on_queue f h : keeps h (on_queue f h).
Proof. by apply keeps_view. Qed.
End Keeps.

Create HintDb keeps discriminated.
#[export] Hint Constants Opaque : keeps.

(** [tidy] of the concrete changes. *)
Ltac tidy_tac := let g := fresh in intros g; cbn; repeat case_match; cbn; repeat split; reflexivity.

(** One step of a chain of state changes: the outermost change is a frame, a
    change of the table, or an operation with a lemma in [keeps]. *)
Ltac keep1 :=
  lazymatch goal with
  | |- keeps _ _ ?h ?h => apply keeps_refl
  | |- keeps _ _ _ (set_world _ _) => eapply keeps_step; [apply keeps_world|]
  | |- keeps _ _ _ (tally _ _) => eapply keeps_step; [apply keeps_tally|]
  | |- keeps _ _ _ (timelinePush _ _ _ _) => eapply keeps_step; [apply keeps_timeline|]
  | |- keeps _ _ _ (ops _ _ _ _) => eapply keeps_step; [apply keeps_ops|]
  | |- keeps _ _ _ (set_global _ _ _) => eapply keeps_step; [apply keeps_global|]
  | |- keeps _ _ _ (on_world _ _) => eapply keeps_step; [apply keeps_on_world|]
  | |- keeps _ _ _ (on_queue _ _) => eapply keeps_step; [apply keeps_on_queue|]
  | |- keeps _ _ _ (upd_gap _ _ _) => eapply keeps_step; [apply keeps_upd; tidy_tac|]
  | |- keeps _ _ _ (ensureGap _ _ _) => eapply keeps_step; [apply keeps_ensure; tidy_tac|]
  | |- keeps _ _ _ (adapt_upd _ _) =>
    eapply keeps_step; [first [solve [eauto with keeps] | apply keeps_adapt; cbn; reflexivity || lia]|]
  | |- keeps ?b ?e ?h0 (set_applyN ?v ?h) =>
    apply (keeps_step b e h0 h); [apply (keeps_frame b e (set_applyN v)); done|]
  | |- keeps ?b ?e ?h0 (set_epoch ?v ?h) =>
    apply (keeps_step b e h0 h); [apply (keeps_frame b e (set_epoch v)); done|]
  | |- keeps ?b ?e ?h0 (set_rev ?v ?h) =>
    apply (keeps_step b e h0 h); [apply (keeps_frame b e (set_rev v)); done|]
  | |- keeps ?b ?e ?h0 (set_poll_ms ?v ?h) =>
    apply (keeps_step b e h0 h); [apply (keeps_frame b e (set_poll_ms v)); done|]
  | |- keeps ?b ?e ?h0 (set_polls ?v ?h) =>
    apply (keeps_step b e h0 h); [apply (keeps_frame b e (set_polls v)); done|]
  | |- keeps ?b ?e ?h0 (set_event_timer ?v ?h) =>
    apply (keeps_step b e h0 h); [apply (keeps_frame b e (set_event_timer v)); done|]
  | |- keeps ?b ?e ?h0 (set_listeners ?v ?h) =>
    apply (keeps_step b e h0 h); [apply (keeps_frame b e (set_listeners v)); done|]
  | |- keeps ?b ?e ?h0 (set_started ?v ?h) =>
    apply (keeps_step b e h0 h); [apply (keeps_frame b e (set_started v)); done|]
  | |- keeps ?b ?e ?h0 (set_timer ?v ?h) =>
    apply (keeps_step b e h0 h); [apply (keeps_frame b e (set_timer v)); done|]
  | |- keeps _ _ _ _ => first [eassumption | eapply keeps_step; [solve [eauto with keeps]|]]
  end.

Ltac keep := repeat keep1.

(** ** The adaptive policy *)

Section Policy.
Context {L : Type} `{Loader L}.
Variable kk : bool.
Variable e : henv.
Implicit Types h : heal L.

(** What every stage of the policy leaves alone. *)
Record calm h h' : Prop := Calm {
  cm_gaps : gaps h' = gaps h;
  cm_mode : adaptive_mode (CFG h') = adaptive_mode (CFG h);
  cm_quiet : deepen_circuit_quiet_ms (CFG h') = deepen_circuit_quiet_ms (CFG h);
  cm_rec : stall_recoveries (adaptive h') = stall_recoveries (adaptive h);
  cm_admode : ad_mode (adaptive h') = ad_mode (adaptive h);
  cm_last : last_policy_ms (adaptive h') = last_policy_ms (adaptive h);
  cm_pause : pause_deepen_until (adaptive h) <= pause_deepen_until (adaptive h')
}.

#[local] Instance calm_preorder : PreOrder calm.
Proof.
  split; [intros h; constructor; done || lia|].
  intros a b c [] []. constructor; try congruence; lia.
Qed.

Lemma calm_mode_rules mode t h : calm h (mode_rules mode t h).
Proof. unfold mode_rules. repeat case_match; constructor; try reflexivity; cbn; lia. Qed.

Lemma calm_tab_rules t h : calm h (tab_rules t h).
Proof. unfold tab_rules. cbv zeta. repeat case_match; constructor; try reflexivity; cbn; lia. Qed.

Lemma calm_publish h : calm h (publishAdaptivePolicy h).
Proof. unfold publishAdaptivePolicy. cbv zeta. repeat case_match; constructor; try reflexivity; cbn; lia. Qed.

(** The stages of a policy that is applied. *)
Lemma policy_stages h :
  exists h1 h2, h1 = adapt_upd (fun a => a |> set_last_policy (hnow e) |> set_engine (detectEngine e)) h /\
  let mode := policy_mode (CFG h1) (adaptive h1) (hnow e) in
  h2 = mode_rules mode (hnow e) (adapt_upd (set_mode mode) h1) /\
  calm h2 (applyAdaptivePolicy e true h).
Proof.
  eexists _, _. split; [reflexivity|]. split; [reflexivity|].
  unfold applyAdaptivePolicy. cbn [negb andb]. cbv zeta.
  match goal with |- calm ?a (timelinePush _ _ _ ?b) => transitivity b; [|constructor; done || reflexivity] end.
  etransitivity; [|apply calm_publish]. etransitivity; [|apply calm_tab_rules].
  case_match; constructor; reflexivity || (cbn; lia).
Qed.

(** What a policy that is applied decides. *)
Lemma policy_facts h : let h' := applyAdaptivePolicy e true h in
  gaps h' = gaps h /\ adaptive_mode (CFG h') = adaptive_mode (CFG h) /\
  deepen_circuit_quiet_ms (CFG h') = deepen_circuit_quiet_ms (CFG h) /\
  stall_recoveries (adaptive h') = stall_recoveries (adaptive h) /\
  last_policy_ms (adaptive h') = hnow e /\
  pause_deepen_until (adaptive h) <= pause_deepen_until (adaptive h') /\
  (sor (adaptive_mode (CFG h)) "auto" = "auto" -> 2 <= stall_recoveries (adaptive h) ->
   ad_mode (adaptive h') = "recovery" /\ hnow e + 15000 <= pause_deepen_until (adaptive h')).
Proof.
  cbv zeta. destruct (policy_stages h) as (h1 & h2 & H1 & H2 & [Hg Hc Hq Hr Hm Hl Hp]).
  set (mode := policy_mode _ _ _) in *.
  destruct (calm_mode_rules mode (hnow e) (adapt_upd (set_mode mode) h1)) as [G C Q R M T P]. rewrite <- H2 in *.
  rewrite Hg, Hc, Hq, Hr, Hl, G, C, Q, R, T, H1. repeat split; try reflexivity.
  - etransitivity; [|exact Hp]. etransitivity; [|exact P]. subst h1. cbn. lia.
  - rewrite Hm, M. unfold mode, policy_mode. subst h1. cbn. rewrite H0. cbn.
    by rewrite (proj2 (Z.leb_le _ _) ltac:(eassumption)).
  - assert (mode = "recovery") as Em.
    { unfold mode, policy_mode. subst h1. cbn. rewrite H0. cbn. by rewrite (proj2 (Z.leb_le _ _) ltac:(eassumption)). }
    etransitivity; [|exact Hp]. rewrite H2, Em. cbn. lia.
Qed.

(** The policy keeps everything; applied over a pause just cleared, it sets it again. *)
Lemma keeps_policy_over f h :
  (f = id \/ f = set_pause 0) ->
  (forall h0, keeps kk e h0 h -> keeps kk e h0 (applyAdaptivePolicy e true (adapt_upd f h))).
Proof.
  intros Hf h0 Hk. eapply keeps_step; [|exact Hk]. clear h0 Hk.
  pose proof (policy_facts (adapt_upd f h)) as HF. cbv zeta in HF. destruct HF as (Hg & Hm & Hq & Hr & Hl & _ & Hp).
  assert (stall_recoveries (f (adaptive h)) = stall_recoveries (adaptive h)) as Ef by (destruct Hf; by subst f).
  set (h' := applyAdaptivePolicy e true (adapt_upd f h)) in *. clearbody h'.
  change (adaptive (adapt_upd f h)) with (f (adaptive h)) in *. cbn in Hg, Hm, Hq, Hp. rewrite Ef in *.
  assert (settled e h -> settled e h' /\ hnow e + 15000 <= pause_deepen_until (adaptive h')) as Hs.
  { intros (Ha & Hq0 & H2 & Hle & _). destruct (Hp Ha H2) as [_ Hp']. split; [|done].
    unfold settled. rewrite Hm, Hq, Hr, Hl. repeat split; auto; lia. }
  constructor.
  - exact Hm.
  - exact Hq.
  - rewrite Hr. lia.
  - intros _ Hw k. unfold attempts_of, gap_at. rewrite Hg. apply Hw.
  - intros Hh. by apply Hs.
  - intros _ k. unfold attempts_of, gap_at. by rewrite Hg.
  - intros [Hh _]. destruct (Hs Hh). split; [split; [done|lia]|]. intros k _. unfold attempts_of, gap_at. by rewrite Hg.
Qed.

Definition policy_recent h : bool :=
  negb (last_policy_ms (adaptive h) =? 0) && (hnow e - last_policy_ms (adaptive h) <? 3000).

Lemma policy_unforced h :
  applyAdaptivePolicy e false h = if policy_recent h then h else applyAdaptivePolicy e true h.
Proof. unfold applyAdaptivePolicy, policy_recent. cbn [negb andb]. by destruct (_ && _). Qed.

Lemma keeps_policy force h : keeps kk e h (applyAdaptivePolicy e force h).
Proof.
  assert (keeps kk e h (applyAdaptivePolicy e true h)) as Ht.
  { pose proof (keeps_policy_over id h (or_introl eq_refl) h (keeps_refl kk e h)) as Hk.
    by replace (adapt_upd id h) with h in Hk by (by destruct h). }
  destruct force; [done|]. rewrite policy_unforced. destruct (policy_recent h); [apply keeps_refl|done].
Qed.

(** A tick starts by pausing the deepening batches. *)
Lemma policy_pauses h : settled e h -> paused e (applyAdaptivePolicy e false h).
Proof.
  intros Hs. split; [by apply (kp_settled kk e _ _ (keeps_policy false h))|].
  destruct Hs as (Ha & Hq & H2 & Hl & Hp). rewrite policy_unforced. unfold policy_recent.
  destruct (_ && _) eqn:E; [breflect; lia|].
  pose proof (policy_facts h) as (_ & _ & _ & _ & _ & _ & Hx). destruct (Hx Ha H2). lia.
Qed.
End Policy.
#[export] Hint Resolve keeps_policy : keeps.

(** ** The operations *)

Ltac kops := chain ltac:(progress keep1).

(** [unfold] would also reduce the [let]s. *)
Tactic Notation "kops_of" reference(f) := cbv delta [f]; cbv beta; kops.

Section Ops.
Context {L : Type} `{Loader L}.
Variable kk : bool.
Variable e : henv.
Implicit Types h : heal L.

Lemma keeps_pageCool h : keeps kk e h (fst (pageCool e h)).
Proof. unfold pageCool. repeat case_match; cbn [fst]; by apply keeps_view. Qed.

Lemma keeps_isSatisfied k h : keeps kk e h (fst (isSatisfied e k h)).
Proof. unfold isSatisfied. repeat case_match; cbn [fst]; keep. Qed.
#[local] Hint Resolve keeps_pageCool keeps_isSatisfied : keeps.

Lemma keeps_b10_open h : keeps kk e h (fst (b10_open e h)).
Proof. kops_of b10_open. Qed.
#[local] Hint Resolve keeps_b10_open : keeps.

Lemma keeps_shouldSkip bid h : keeps kk e h (fst (shouldSkipCollect e bid h)).
Proof. kops_of shouldSkipCollect. Qed.

Lemma keeps_release why bid h : keeps kk e h (release_all why bid h).
Proof. unfold release_all. cbn [fold_left]. keep. Qed.
#[local] Hint Resolve keeps_shouldSkip keeps_release : keeps.

Lemma keeps_isRunning bid h : keeps kk e h (fst (isRunning e bid h)).
Proof. kops_of isRunning. Qed.
#[local] Hint Resolve keeps_isRunning : keeps.

Lemma keeps_refresh k h : keeps kk e h (fst (refreshLocalPhase e k h)).
Proof. kops_of refreshLocalPhase. Qed.
#[local] Hint Resolve keeps_refresh : keeps.

Lemma keeps_loopT k h : keeps kk e h (loopT e k h).
Proof. kops_of loopT. Qed.

Lemma keeps_watchdog k h : keeps kk e h (fst (watchdogReady e k h)).
Proof. kops_of watchdogReady. Qed.
#[local] Hint Resolve keeps_loopT keeps_watchdog : keeps.
(** *** The guards of a kick *)

#[local] Hint Resolve keeps_trip : keeps.

Lemma keeps_refused k h : keeps kk e h (fst (collect_refused e k h)).
Proof. unfold collect_refused, skip_row. kops. Qed.
#[local] Hint Resolve keeps_refused : keeps.

(** What passing the checks may change: the lifecycle forgets old failures, a
    gap is created or learns that the server has its batch. *)
Definition looked h h1 : Prop :=
  (world h1 = world h \/ world h1 = world (prune_lc e h)) /\ CFG h1 = CFG h /\ adaptive h1 = adaptive h /\
  forall k g, gap_at k h = Some g -> exists g1, gap_at k h1 = Some g1 /\ (g1 = g \/ g1 = set_server_seen true g).

Lemma gap_at_ensure_id k k' h g : gap_at k h = Some g -> gap_at k (ensureGap k' id h) = Some g.
Proof.
  intros Hg. unfold ensureGap. destruct (fst k' =s ""); [done|]. rewrite gap_at_upd by done.
  assert (forall o : option gap, option_map (fun g => if same_gap k' g then id g else g) o = o) as Ho.
  { intros [g'|]; cbn; [|done]. by destruct (same_gap k' g'). }
  rewrite Ho. destruct (gap_at k' h); [done|]. by rewrite gap_at_app, Hg.
Qed.

Lemma hard_names bid : isB10 bid = true \/ Lifecycle.isHardBatch bid = true \/ mem_str bid HARD_DEFAULT = true ->
  isDeepen bid = false.
Proof.
  intros Hb. assert (In bid ("mid.curves" :: HARD_DEFAULT)) as Hi.
  { assert (mem_str bid HARD_DEFAULT = true -> In bid HARD_DEFAULT) as Hm by apply mem_str_In.
    destruct Hb as [Hb|[Hb|Hb]].
    - unfold isB10 in Hb. apply orb_true_iff in Hb as [Hb|Hb]; apply String.eqb_eq in Hb; subst; simpl; auto.
    - unfold Lifecycle.isHardBatch in Hb. destruct (bid =s ""); [done|]. destruct (starts_with _ _); [done|].
      destruct (_ || _) eqn:E; [|right; by apply Hm].
      apply orb_true_iff in E as [E|E]; apply String.eqb_eq in E; subst; simpl; auto.
    - right. by apply Hm. }
  clear Hb. revert bid Hi. apply List.Forall_forall. repeat constructor.
Qed.

Lemma deepen_not_hard h bid : isDeepen bid = true -> isB10 bid = false /\ isHard h bid = false.
Proof.
  intros Hd. split; apply not_true_iff_false; intros Hb; enough (isDeepen bid = false) by congruence; apply hard_names.
  - by left.
  - right. unfold isHard in Hb. destruct (has_lifecycle _); [by left|]. destruct (isB10x bid); [done|].
    apply orb_true_iff in Hb as [Hb|Hb]; [by right|]. left. unfold Lifecycle.isHardBatch. unfold isB10 in Hb.
    apply orb_true_iff in Hb as [Hb|Hb]; apply String.eqb_eq in Hb; by subst.
Qed.

Lemma b10_open_looks h : let h1 := fst (b10_open e h) in
  world h1 = world h /\ CFG h1 = CFG h /\ adaptive h1 = adaptive h /\
  forall k g, gap_at k h = Some g -> exists g1, gap_at k h1 = Some g1 /\ (g1 = g \/ g1 = set_server_seen true g).
Proof.
  unfold b10_open. cbv zeta. set (h0 := ensureGap B10_KEY id h).
  assert (world h0 = world h /\ CFG h0 = CFG h /\ adaptive h0 = adaptive h) as (Hw & Hc & Ha).
  { subst h0. unfold ensureGap. cbn. by destruct (gap_at B10_KEY h). }
  assert (forall k g, gap_at k h = Some g -> gap_at k h0 = Some g) as Hg by (intros; by apply gap_at_ensure_id).
  assert (forall k g, gap_at k h = Some g ->
    exists g1, gap_at k h0 = Some g1 /\ (g1 = g \/ g1 = set_server_seen true g)) as Hg' by eauto.
  clearbody h0. unfold isSatisfied. destruct (gap_at B10_KEY h0) as [g|]; cbn; [|auto].
  destruct (g_desired g); cbn; [|auto].
  repeat case_match; cbn in *; simplify_eq; auto. repeat split; auto. intros k g' Hk.
  rewrite gap_at_upd by done. rewrite (Hg _ _ Hk). cbn. eexists. split; [done|].
  destruct (same_gap B10_KEY g'); auto.
Qed.

Lemma shouldSkip_pass bid h h1 : shouldSkipCollect e bid h = (h1, false) ->
  world h1 = world h /\ CFG h1 = CFG h /\ adaptive h1 = adaptive h /\
  (forall k g, gap_at k h = Some g -> exists g1, gap_at k h1 = Some g1 /\ (g1 = g \/ g1 = set_server_seen true g)) /\
  (isDeepen bid = true -> pause_deepen_until (adaptive h) = 0 \/ pause_deepen_until (adaptive h) <= hnow e) /\
  (isB10 bid || isHard h bid || isDeepen bid = true -> mayHeavyCollect e h = true).
Proof.
  unfold shouldSkipCollect. pose proof (deepen_not_hard h bid) as Hd.
  destruct (isB10 bid || isHard h bid) eqn:Eb; cbn [andb].
  - assert (isDeepen bid = false) as Ed.
    { destruct (isDeepen bid); [|done]. destruct Hd as [Hb Hh]; [done|]. by rewrite Hb, Hh in Eb. }
    rewrite Ed. destruct (mayHeavyCollect e h) eqn:Em; cbn; intros [= <-]; repeat split; eauto; discriminate.
  - destruct (negb _ && _ && _) eqn:Ep; [discriminate|]. pose proof (b10_open_looks h) as Ho. cbv zeta in Ho.
    destruct (b10_open e h) as [h2 b]. cbn [fst] in Ho. destruct Ho as (Hw & Hc & Ha & Hg).
    destruct (b && isDeepen bid); [discriminate|]. destruct (isDeepen bid && negb _) eqn:Em; [discriminate|].
    intros [= <-]. repeat split; auto.
    + intros Hp. rewrite Hp in Ep. cbn [orb andb] in Ep. rewrite andb_true_r in Ep.
      apply andb_false_iff in Ep as [Ep|Ep]; breflect; lia.
    + cbn. intros Hp. rewrite Hp in Em. unfold mayHeavyCollect, hl in *. rewrite Hw in Em. by apply negb_false_iff.
Qed.
Lemma pageCool_world h : world (fst (pageCool e h)) = world h \/ world (fst (pageCool e h)) = world (prune_lc e h).
Proof. unfold pageCool. repeat case_match; auto. Qed.

Lemma pageCool_frame h : let h1 := fst (pageCool e h) in
  CFG h1 = CFG h /\ adaptive h1 = adaptive h /\ forall k, gap_at k h1 = gap_at k h.
Proof. unfold pageCool. cbv zeta. repeat case_match; repeat split; reflexivity. Qed.

(** The state a kick starts from. *)
Lemma refused_guard k h h1 : collect_refused e k h = (h1, false) ->
  looked h h1 /\ pageUnloading h1 = false /\
  (isDeepen (fst k) = true -> pause_deepen_until (adaptive h1) = 0 \/ pause_deepen_until (adaptive h1) <= hnow e) /\
  (isB10 (fst k) || isHard h1 (fst k) || isDeepen (fst k) = true -> mayHeavyCollect e h1 = true) /\
  matrix_refuses e k (g_method (gap_or k h1)) h1 = false /\
  attempts_of k h1 < collectMax h1 (fst k) /\
  (g_last_collect (gap_or k h1) = 0 \/ collect_min_gap_ms (CFG h1) <= hnow e - g_last_collect (gap_or k h1)) /\
  hasPending h1 (fst k) = false /\ materialState e h1 (fst k) <> "acked" /\
  ld_collector (fst k) (hl h1) = true.
Proof.
  unfold collect_refused. pose proof (pageCool_world h) as Hpw. pose proof (pageCool_frame h) as Hpf. cbv zeta in Hpf.
  destruct (pageCool e h) as [h2 cool]. cbn [fst] in *. destruct Hpf as (Hc & Ha & Hg).
  destruct (cool || pageUnloading h2) eqn:E1; [discriminate|]. apply orb_false_iff in E1 as [_ E1].
  destruct (shouldSkipCollect e (fst k) h2) as [h3 skip] eqn:E2. destruct skip; [discriminate|].
  destruct (shouldSkip_pass _ _ _ E2) as (Sw & Sc & Sa & Sg & Sp & Sm).
  destruct (mem_str _ _); [discriminate|]. destruct (pack_unsupported _ _); [discriminate|].
  destruct (_ && isUnsupported _); [discriminate|]. destruct (matrix_refuses _ _ _ _) eqn:E3; [discriminate|].
  destruct (_ <=? _) eqn:E4; [discriminate|]. destruct (negb _ && _) eqn:E5; [discriminate|].
  destruct (hasPending _ _) eqn:E6; [discriminate|]. destruct (materialState _ _ _ =s "acked") eqn:E7; [discriminate|].
  destruct (ld_collector _ _) eqn:E8; cbn; [|discriminate]. intros [= <-].
  rewrite <- gap_or_attempts. repeat split; auto.
  - rewrite Sw. tauto.
  - congruence.
  - congruence.
  - intros k' g'. rewrite <- Hg. apply Sg.
  - unfold pageUnloading, hwin, hq in *. by rewrite Sw.
  - by rewrite Sa.
  - unfold mayHeavyCollect, hl, isHard, hq in *. rewrite Sw. apply Sm.
  - breflect. lia.
  - apply andb_false_iff in E5 as [E5|E5]; breflect; lia.
  - by apply String.eqb_neq.
Qed.
(** *** Kicks *)

Lemma matrix_budget k m h : h_matrix e = true -> matrix_refuses e k m h = false -> attempts_of k h <= 5.
Proof.
  intros Hm. unfold matrix_refuses. rewrite Hm, gap_or_attempts. cbn [andb].
  destruct (shouldKick_spec (h_caps e) (fst k) (attempts_of k h) (g_last_err (gap_or k h)) (option_map nm_method m))
    as (b & -> & Hb). intros Hn. apply negb_false_iff in Hn. by destruct (Hb Hn).
Qed.

(** Raising the attempts of the gap [k]. *)
Lemma attempts_kick k k' f h : (forall g, g_batch (f g) = g_batch g /\ g_source (f g) = g_source g) ->
  k' <> k -> attempts_of k' (upd_gap k f h) = attempts_of k' h.
Proof.
  intros Hf Hk. unfold attempts_of. rewrite gap_at_upd by done. destruct (gap_at k' h) as [g|] eqn:Eg; [|done]. cbn.
  destruct (same_gap k g) eqn:E; [|done]. apply gap_at_same in Eg. apply same_gap_spec in E, Eg. congruence.
Qed.

Lemma keeps_companion k h : keeps kk e h (fst (companion e k h)).
Proof. kops_of companion. Qed.

Lemma keeps_lift b h : keeps kk e h (lift_stop b h).
Proof. kops_of lift_stop. Qed.
#[local] Hint Resolve keeps_companion keeps_lift : keeps.

Lemma keeps_rotate k why h : keeps kk e h (fst (rotate e k why h)).
Proof. kops_of rotate. Qed.
#[local] Hint Resolve keeps_rotate : keeps.
(** *** Plans *)

Lemma keeps_fold {A} (f : heal L -> A -> heal L) (l : list A) h h0 :
  (forall x h, keeps kk e h (f h x)) -> keeps kk e h0 h -> keeps kk e h0 (fold_left f l h).
Proof.
  intros Hf. revert h. induction l as [|x l IH]; intros h Hh; [done|]. cbn. apply IH. eapply keeps_step; [apply Hf|done].
Qed.

Lemma keeps_merge_pack p h : keeps kk e h (merge_pack h p).
Proof. kops_of merge_pack. Qed.

Lemma keeps_merge_packs l h : keeps kk e h (fold_left merge_pack l h).
Proof. apply keeps_fold; [apply keeps_merge_pack|apply keeps_refl]. Qed.
#[local] Hint Resolve keeps_merge_packs : keeps.

Lemma keeps_mergeRoutePlan plan rev h : keeps kk e h (mergeRoutePlan plan rev h).
Proof. kops_of mergeRoutePlan. Qed.

Lemma keeps_applyPlan plan h : keeps kk e h (applyPlan e plan h).
Proof. kops_of applyPlan. Qed.

Lemma keeps_poll h : keeps kk e h (pollAnalyses e h).
Proof. kops_of pollAnalyses. Qed.
#[local] Hint Resolve keeps_merge_pack keeps_mergeRoutePlan keeps_applyPlan keeps_poll : keeps.

Lemma keeps_open_gaps h : keeps kk e h (fst (open_gaps e h)).
Proof.
  unfold open_gaps. generalize (map (fun g => (g_batch g, g_source g)) (gaps h)), false.
  assert (forall l b h0, keeps kk e h h0 -> keeps kk e h (fst (fold_left (fun '(h, b) k =>
    if g_desired (gap_or k h) then let '(h', sat) := isSatisfied e k h in (h', b || negb sat) else (h, b)) l (h0, b)))) as Hf.
  { induction l as [|k l IH]; intros b h0 K; [done|]. cbn. destruct (g_desired _); [|by apply IH].
    destruct (isSatisfied e k h0) eqn:E. apply IH. eapply keeps_step; [|exact K].
    eapply keeps_fst; [exact E|apply keeps_isSatisfied]. }
  intros l b. by apply Hf.
Qed.
#[local] Hint Resolve keeps_open_gaps : keeps.

Lemma keeps_loopB force h : keeps kk e h (loopB e force h).
Proof. kops_of loopB. Qed.

Lemma keeps_received result h : keeps kk e h (mark_received e result h).
Proof.
  cbv delta [mark_received]. cbv beta. chain_steps ltac:(progress keep1). apply keeps_fold; [intros; keep|done].
Qed.

Lemma keeps_need ps h b : keeps kk e h (fst (need_apply e ps h b)).
Proof.
  enough (forall h0, keeps kk e h0 h -> keeps kk e h0 (fst (need_apply e ps h b))) as Hn by apply Hn, keeps_refl.
  revert h b. induction ps as [|p ps IH]; intros h b h0 K; [done|]. cbn [need_apply]. destruct (negb _); [done|].
  cbv zeta. destruct (negb _); [by apply IH|].
  destruct (isSatisfied e _ _) eqn:E. apply IH. eapply keeps_step; [eapply keeps_fst; [exact E|apply keeps_isSatisfied]|].
  keep.
Qed.
#[local] Hint Resolve keeps_loopB keeps_received keeps_need : keeps.

Lemma keeps_on_analyses j h : keeps kk e h (on_analyses e j h).
Proof. kops_of on_analyses. Qed.
#[local] Hint Resolve keeps_on_analyses : keeps.

(** *** Ticks *)

Lemma keeps_boot h : keeps kk e h (kickBootIfNoSession e h).
Proof. kops_of kickBootIfNoSession. Qed.

Lemma keeps_unpause h : keeps kk e h (lift_pause e h).
Proof. apply (keeps_policy_over kk e (set_pause 0)); [by right|apply keeps_refl]. Qed.
#[local] Hint Resolve keeps_boot keeps_unpause : keeps.

Lemma keeps_progressive h : keeps kk e h (progressive e h).
Proof. kops_of progressive. Qed.
#[local] Hint Resolve keeps_progressive : keeps.
End Ops.
#[export] Hint Resolve keeps_pageCool keeps_isSatisfied
  keeps_b10_open
  keeps_shouldSkip keeps_release
  keeps_isRunning
  keeps_refresh
  keeps_loopT keeps_watchdog
  keeps_trip
  keeps_refused
  keeps_companion keeps_lift
  keeps_rotate
  keeps_merge_packs
  keeps_merge_pack keeps_mergeRoutePlan keeps_applyPlan keeps_poll
  keeps_open_gaps
  keeps_loopB keeps_received keeps_need
  keeps_on_analyses
  keeps_boot keeps_unpause
  keeps_progressive : keeps.

(** ** Kicks *)

Section Kicks.
Context {L : Type} `{Loader L}.
Variable e : henv.
Implicit Types h : heal L.

Lemma keeps_kick k f h :
  (forall g, g_batch (f g) = g_batch g /\ g_source (f g) = g_source g /\ g_attempts (f g) = g_attempts g + 1) ->
  (h_matrix e = true -> attempts_of k h <= 5) ->
  (paused e h -> isDeepen (fst k) = false) -> keeps true e h (upd_gap k f h).
Proof.
  intros Hf Hm Hp. constructor; try done.
  - intros Hx Hw k'. destruct (decide (k' = k)) as [->|Hk].
    + specialize (Hm Hx). unfold attempts_of in *. rewrite gap_at_upd by (intros g; by destruct (Hf g) as (?&?&?)).
      destruct (gap_at k h) as [g|]; cbn; [|lia]. destruct (same_gap k g); [|lia]. destruct (Hf g) as (_&_&->). lia.
    + rewrite attempts_kick; [done| |done]. intros g; by destruct (Hf g) as (?&?&?).
  - intros Hh. split; [done|]. intros k' Hk'. apply attempts_kick; [intros g; by destruct (Hf g) as (?&?&?)|].
    intros ->. by rewrite (Hp Hh) in Hk'.
Qed.
Lemma keeps_start k why h :
  (h_matrix e = true -> attempts_of k h <= 5) -> (paused e h -> isDeepen (fst k) = false) ->
  keeps true e h (start_collect e k why h).
Proof.
  intros Hm Hp. unfold start_collect. cbv zeta. keep1. eapply keeps_step; [apply keeps_tally|].
  set (h1 := if g_force _ then _ else _).
  assert (keeps true e h h1) as Hk by (subst h1; kops).
  assert (gaps h1 = gaps h /\ adaptive h1 = adaptive h /\ CFG h1 = CFG h) as (Hg & Ha & Hc).
  { subst h1. by destruct (g_force _). }
  eapply keeps_step; [|exact Hk]. apply keeps_kick; [done| |].
  - unfold attempts_of, gap_at in *. by rewrite Hg.
  - unfold paused, settled in *. by rewrite Ha, Hc.
Qed.

Lemma keeps_kickCollect k why h : keeps true e h (fst (kickCollect e k why h)).
Proof.
  unfold kickCollect. pose proof (keeps_refused true e k h) as Hk. destruct (collect_refused e k h) as [h1 r] eqn:E.
  cbn [fst] in Hk. destruct r; [done|]. apply refused_guard in E as (_ & _ & Hp & _ & Hm & _).
  assert (keeps true e h (start_collect e k why h1)) as Hs.
  { eapply keeps_step; [apply keeps_start|done].
    - intros Hx. by eapply matrix_budget.
    - intros [(_ & _ & _ & Hl & _) Hlt]. apply not_true_is_false. intros Hd. destruct (Hp Hd); lia. }
  clear Hk Hp Hm. kops.
Qed.
#[local] Hint Resolve keeps_kickCollect : keeps.

Lemma keeps_recover k why h : keeps true e h (fst (recoverFromStall e k why h)).
Proof. kops_of recoverFromStall. Qed.
#[local] Hint Resolve keeps_recover : keeps.

Lemma keeps_loopC k h : keeps true e h (loopC e k h).
Proof. kops_of loopC. Qed.
#[local] Hint Resolve keeps_loopC : keeps.
Lemma keeps_tick_gap b k h : keeps true e h (tick_gap e b h k).
Proof. kops_of tick_gap. Qed.
#[local] Hint Resolve keeps_tick_gap : keeps.

Lemma keeps_gaps_fold b l h : keeps true e h (fold_left (tick_gap e b) l h).
Proof. apply keeps_fold; [intros; apply keeps_tick_gap|apply keeps_refl]. Qed.
#[local] Hint Resolve keeps_gaps_fold : keeps.

Lemma keeps_tick_gaps f h : keeps true e h (tick_gaps e f h).
Proof. kops_of tick_gaps. Qed.

(** *** Whole steps *)

(** What a step of the supervisor guarantees from a settled state. *)
Record turn h h' : Prop := Turn {
  tn_within : h_matrix e = true -> within 6 h -> within 6 h';
  tn_settled : settled e h -> settled e h';
  tn_deepen : settled e h -> forall k, isDeepen (fst k) = true -> attempts_of k h' = attempts_of k h
}.

#[local] Instance turn_preorder : PreOrder turn.
Proof.
  split; [by constructor|]. intros x y z [w1 s1 d1] [w2 s2 d2]. constructor; auto.
  intros Hs k Hk. rewrite d2, d1; auto.
Qed.

Lemma turn_still h h' : keeps false e h h' -> turn h h'.
Proof. intros [_ _ _ Hw Hs Ha _]. constructor; auto. Qed.

Lemma turn_step h0 h h' : turn h h' -> turn h0 h -> turn h0 h'.
Proof. intros A B. by transitivity h. Qed.

(** Kicks that come after the policy has paused the deepening batches. *)
Lemma turn_paused h h1 h' : keeps false e h h1 -> (settled e h -> paused e h1) -> keeps true e h1 h' -> turn h h'.
Proof.
  intros K1 Hp K2. destruct (turn_still _ _ K1) as [Tw Ts Td]. destruct K2 as [_ _ _ Kw Ks _ Kp]. constructor; auto.
  intros Hs k Hk. destruct (Kp (Hp Hs)) as [_ Ha]. rewrite Ha, Td; done.
Qed.

Lemma turn_tick f h : turn h (tickOnce e f h).
Proof.
  unfold tickOnce. destruct (_ || _); [reflexivity|]. set (h1 := applyAdaptivePolicy e false _).
  assert (keeps false e h h1) as K1 by (subst h1; keep).
  assert (settled e h -> paused e h1) as Hp.
  { intros Hs. apply (policy_pauses false). by apply (kp_settled false e _ _ (keeps_tally false e add_ticks h)). }
  clearbody h1.
  assert (keeps true e h1 (tick_gaps e f (kickBootIfNoSession e h1))) as K2.
  { eapply keeps_step; [apply keeps_tick_gaps|]. keep. }
  by apply (turn_paused _ h1).
Qed.

(** A recovery called from outside a tick. *)
Lemma turn_recover k why h : turn h (fst (recoverFromStall e k why h)).
Proof.
  unfold recoverFromStall. destruct (_ && _); [apply turn_still, keeps_refl|]. set (h1 := tally _ _).
  assert (keeps false e h h1) as K1 by (subst h1; keep). clearbody h1.
  destruct (rotate e k why h1) as [h2 m] eqn:Er.
  assert (keeps false e h h2) as K2 by (eapply keeps_step; [eapply keeps_fst; [exact Er|apply keeps_rotate]|exact K1]).
  destruct m as [|m]; [by apply turn_still|]. cbv zeta.
  match goal with |- context [applyAdaptivePolicy e true ?x] => set (h3 := x) end.
  assert (keeps false e h h3) as K3.
  { eapply keeps_step; [|exact K2]. subst h3. clear. kops. }
  set (h4 := applyAdaptivePolicy e true h3). assert (keeps false e h h4) as K4 by (eapply keeps_step; [apply keeps_policy|done]).
  assert (settled e h -> paused e h4) as Hp.
  { intros Hs. split; [by apply (kp_settled _ _ _ _ K4)|]. pose proof (kp_settled _ _ _ _ K3 Hs) as (Ha&_&H2&_).
    pose proof (policy_facts e h3) as (_&_&_&_&_&_&Hx). destruct (Hx Ha H2). subst h4. lia. }
  apply (turn_paused _ h4); [done|done|]. clearbody h4. clear. kops.
Qed.

Lemma turn_loopB f h : turn h (loopB e f h).
Proof. apply turn_still. keep. Qed.

Lemma keeps_seed kk l h : keeps kk e h (seed_missing l h).
Proof. apply keeps_fold; [intros; keep|apply keeps_refl]. Qed.

Lemma keeps_id kk h : keeps kk e h (cfg_upd Datatypes.id h).
Proof. by apply keeps_view. Qed.
#[local] Hint Resolve keeps_seed keeps_id : keeps.

Lemma keeps_starting kk missing nha role h : keeps kk e h (starting e Datatypes.id missing nha role h).
Proof. kops_of starting. Qed.

Lemma keeps_next kk h : keeps kk e h (scheduleNext e h).
Proof. kops_of scheduleNext. Qed.

Lemma keeps_seeded kk o h : keeps kk e h (seeded o h).
Proof. kops_of seeded. Qed.

Lemma turn_start missing nha role h : turn h (start e Datatypes.id missing nha role h).
Proof.
  unfold start. eapply turn_step; [apply turn_still, keeps_next|]. eapply turn_step; [apply turn_tick|].
  apply turn_still, keeps_starting.
Qed.
End Kicks.

(** ** Runs *)

Section Runs.
Context {L : Type} `{Loader L}.
Implicit Types h : heal L.

(** What happens to the supervisor: its timers, an answer, the page's calls, a recovery
    the pack loader asks for, and any change of the queue, the page and the loader by
    others. *)
Inductive event :=
| Timer
| CompletionEvent (upload_ok : bool)
| EventTimer
| Tick (force : bool)
| Answer (j : val)
| Visible
| Opened (o role : val)
| Stalled (k : string * string) (why : string)
| Started (missing : list val) (nha : bool) (role : val)
| Others (w : queue * L).

Definition hstep (h : heal L) (p : henv * event) : heal L :=
  let '(e, ev) := p in
  match ev with
  | Timer => timer_tick e h
  | CompletionEvent b => scheduleEventTick b h
  | EventTimer => event_tick e h
  | Tick f => tickOnce e f h
  | Answer j => on_analyses e j h
  | Visible => onVisible e h
  | Opened o role => seedFromOpen e o role h
  | Stalled k why => fst (recoverFromStall e k why (ensureGap k Datatypes.id h))
  | Started m nha role => start e Datatypes.id m nha role h
  | Others w => set_world w h
  end.

Definition hrun (evs : list (henv * event)) h : heal L := fold_left hstep evs h.

Lemma turn_hstep e ev h : turn e h (hstep h (e, ev)).
Proof.
  destruct ev; cbn [hstep].
  - unfold timer_tick. eapply turn_step; [apply turn_still, keeps_next|apply turn_tick].
  - apply turn_still. unfold scheduleEventTick. destruct (eventTickTimer h); [apply keeps_refl|].
    destruct (_ || _); [apply keeps_refl|]. keep.
  - unfold event_tick. destruct (eventTickTimer h); [|apply turn_still, keeps_refl].
    eapply turn_step; [apply turn_tick|]. apply turn_still. keep.
  - apply turn_tick.
  - apply turn_still. keep.
  - unfold onVisible. destruct (negb _); [apply turn_still, keeps_refl|].
    destruct (pageCool e h) as [h1 c] eqn:E.
    assert (keeps false e h h1) as K by (eapply keeps_fst; [exact E|apply keeps_pageCool]).
    destruct c; [by apply turn_still|]. eapply turn_step; [apply turn_loopB|]. eapply turn_step; [apply turn_tick|].
    apply turn_still. keep.
  - unfold seedFromOpen. cbv zeta. set (h1 := seeded _ h).
    assert (turn e h h1) as K by (apply turn_still, keeps_seeded).
    destruct (started h1); (eapply turn_step; [|exact K]); [apply turn_tick|apply turn_start].
  - eapply turn_step; [apply turn_recover|]. apply turn_still. keep.
  - apply turn_start.
  - apply turn_still. keep.
Qed.

(** The clock does not go back. *)
Fixpoint in_order (t : Z) (evs : list (henv * event)) : Prop :=
  match evs with
  | [] => True
  | (e, _) :: evs' => t <= hnow e /\ in_order (hnow e) evs'
  end.

Lemma settled_later e e' h : hnow e <= hnow e' -> settled e h -> settled e' h.
Proof. intros Ht (?&?&?&?&?). repeat split; auto; lia. Qed.


Lemma run_settled evs e h k :
  in_order (hnow e) evs -> settled e h -> isDeepen (fst k) = true ->
  attempts_of k (hrun evs h) = attempts_of k h.
Proof.
  intros Ho Hs Hk. unfold hrun. revert e h Ho Hs. induction evs as [|[e' ev] evs IH]; intros e h Ho Hs; [done|].
  cbn [fold_left]. destruct Ho as [Ht Ho]. pose proof (settled_later e e' h Ht Hs) as Hs'.
  destruct (turn_hstep e' ev h) as [_ Ts Td]. rewrite (IH e'); auto.
Qed.

(** *** What a kick of a batch has checked *)

Lemma looked_checks e h h1 bid : looked e h h1 ->
  hasPending h1 bid = hasPending h bid /\ materialState e h1 bid = materialState e h bid /\
  collectMax h1 bid = collectMax h bid /\ pageUnloading h1 = pageUnloading h /\
  mayHeavyCollect e h1 = mayHeavyCollect e h /\ isHard h1 bid = isHard h bid /\ hl h1 = hl h.
Proof.
  intros ([Hw|Hw] & Hc & Ha & _); unfold hasPending, materialState, collectMax, pageUnloading, mayHeavyCollect, isSoft,
    isHard, sid, hwin, hq, hl; rewrite ?Hw, ?Hc; repeat split; reflexivity.
Qed.

Lemma start_attempts e k why h g : gap_at k h = Some g ->
  attempts_of k (start_collect e k why h) = g_attempts g + 1.
Proof.
  intros Hg. set (h1 := on_world (ld_clear_kicked (fst k)) h).
  set (h2 := if g_force (gap_or k h) then on_queue (clearSentKeys [AnItem (key_item (sid h1) (fst k) (snd k))]) h1 else h1).
  assert (gap_at k h2 = Some g) as Hg2 by (subst h2; by destruct (g_force _)).
  transitivity (attempts_of k (upd_gap k (fun g => g |> set_attempts (g_attempts g + 1) |> set_last_collect (hnow e)
    |> set_run_started (hnow e) |> set_phase "running" |> set_reason (sor why "collect") |> set_stall_done false) h2));
    [reflexivity|].
  unfold attempts_of. rewrite gap_at_upd, Hg2 by done. cbn [option_map]. by rewrite (gap_at_same _ _ _ Hg2).
Qed.

(** The attempts after a kick, refused or not. *)
Lemma kick_attempts e k why h : attempts_of k (fst (kickCollect e k why h)) =
  let '(h1, refused) := collect_refused e k h in attempts_of k (if refused then h1 else start_collect e k why h1).
Proof.
  unfold kickCollect. destruct (collect_refused e k h) as [h1 []]; [done|].
  set (h2 := start_collect e k why h1). clearbody h2.
  pose proof (keeps_companion false e k h2) as K1. destruct (companion e k h2) as [h3 extra]. cbn [fst] in K1.
  cbv zeta. match goal with |- attempts_of k ?x = _ => assert (keeps false e h2 x) as K end.
  { destruct (ld_kick_all _ _ _); cbn [fst]; keep. }
  exact (kp_still _ _ _ _ K eq_refl k).
Qed.

(** A kick that returned [true] raised the attempts of its gap by one. *)
Lemma kick_counts e k why h h' :
  kickCollect e k why h = (h', true) ->
  exists h1, collect_refused e k h = (h1, false) /\ attempts_of k h' = attempts_of k (start_collect e k why h1).
Proof.
  intros Hk. pose proof (kick_attempts e k why h) as Ha. rewrite Hk in Ha. cbn [fst] in Ha.
  unfold kickCollect in Hk. destruct (collect_refused e k h) as [h1 []]; [discriminate|]. by exists h1.
Qed.

(** The gap itself, after the checks. *)
Lemma looked_gap e h h1 k g : looked e h h1 -> gap_at k h = Some g ->
  exists g1, gap_at k h1 = Some g1 /\ g_attempts g1 = g_attempts g /\ g_last_collect g1 = g_last_collect g.
Proof. intros (_ & _ & _ & Hl) Hg. destruct (Hl k g Hg) as (g1 & Hg1 & [->| ->]); eauto. Qed.

(** The degraded method is the last of at least four. *)
Lemma nextMethod_stops c bid i eng m : nextMethod c bid i eng = Some m ->
  degrade (nm_method m) = true -> 3 <= i.
Proof.
  unfold nextMethod. pose proof (methodsFor_shape c bid eng) as Hs. pose proof (b10_methods_long c bid eng) as Hlong.
  destruct (methodsFor c bid eng) as [l|]; [|discriminate]. cbn. intros [= <-]. cbn. destruct Hs as (Hn & Hin & Hd & _).
  intros Hdeg. unfold method_at in Hdeg.
  destruct (Nat.ltb_spec (Z.to_nat (Z.max 0 i)) (length l - 1)) as [Hi|Hi].
  - rewrite Nat.min_l in Hdeg by lia. pose proof (nth_removelast l default_method _ Hi) as Hx.
    rewrite forallb_forall in Hin. specialize (Hin _ Hx). by rewrite Hdeg in Hin.
  - rewrite Nat.min_r, nth_last in Hdeg by lia. rewrite Hd in Hdeg. specialize (Hlong Hdeg). lia.
Qed.
End Runs.

(** ** A concrete page *)

Module Demo.
(** A loader whose collectors never finish: every pack it is given runs. *)
Record loader := mkLoader { running : list string; kicks : list string }.

#[global] Instance demo_loader : Loader loader := {|
  ld_kicked bid l := mem_str bid (running l);
  ld_health bid l := if mem_str bid (running l) then Some (mkHealth "running" "" 0) else None;
  ld_set_run _ _ w := w;
  ld_clear_kicked bid '(q, l) :=
    (q, mkLoader (List.filter (fun b => b <>s bid) (running l)) (kicks l));
  ld_release _ _ w := w;
  ld_kick_all ps _ '(q, l) :=
    Ret (q, mkLoader (map pk_id ps ++ running l) (kicks l ++ map pk_id ps));
  ld_apply_plan _ _ w := w;
  ld_collector bid _ := mem_str bid ["B10_hw_curves"; "B0_bootstrap"; "B10x_silicon_ulp"];
  ld_ensure_modules w := w;
  ld_hard_lose _ w := w;
  ld_boot _ w := w;
  ld_coord_start _ w := w;
  ld_coord _ := None;
  ld_policy _ := VNull
|}.

Definition chrome : caps := mkCaps false (Some false) true true false true "Google Inc." (Some true).

Definition at_ms (t : Z) : henv :=
  mkHenv (mkEnv t (1 # 2) None None None None None false "" None VNull) true (Some "blink") "Chrome/120" chrome true true
    (fun _ => 1 # 2).

Definition page : heal loader :=
  heal0 (q0 true (gset "__GR_SESSION_ID__" (VStr "cycle_1") win0), mkLoader [] []).

Definition B10x : string * string := ("B10x_silicon_ulp", "main").

(** The supervisor starts and ticks while nothing ever lands. *)
Definition stalled : list (henv * event (L := loader)) :=
  [(at_ms 1000, Started [VStr "B10x_silicon_ulp"] true VUndef); (at_ms 30000, Timer); (at_ms 60000, Timer);
   (at_ms 100000, Timer)].

Definition later : list (henv * event (L := loader)) :=
  [(at_ms 200000, Timer); (at_ms 230000, Answer (VObj [("result", VObj [("coverage", VObj [("has_b10", VBool true)])])]));
   (at_ms 230100, Tick true); (at_ms 300000, Timer); (at_ms 400000, Timer)].

(** The primary curves are kicked at every stall; the deepening batch, which
    waits for them, is not kicked before they land. *)
Example stalled_kicks :
  let h := hrun stalled page in
  kicks (hl h) = ["B10_hw_curves"; "B0_bootstrap"; "B10_hw_curves"; "B10_hw_curves"; "B10_hw_curves"; "B0_bootstrap"] /\
  (attempts_of B10_KEY h, attempts_of B10x h, stall_recoveries (adaptive h)) = (4, 0, 3).
Proof. by vm_compute. Qed.

(** Landed before the second recovery, it is kicked at the next tick; after
    it, not in the three later ones. *)
Example landing :
  let land t := [(at_ms t, Answer (VObj [("result", VObj [("coverage", VObj [("has_b10", VBool true)])])]));
                 (at_ms (t + 100), Tick true); (at_ms (t + 20000), Timer)] in
  attempts_of B10x (hrun (firstn 2 stalled ++ land 40000) page) = 1 /\
  attempts_of B10x (hrun (stalled ++ later) page) = 0.
Proof. by vm_compute. Qed.
End Demo.

(** ** Properties *)

Section Properties.
Context {L : Type} `{Loader L}.

(** A collector is kicked only when every guard held at that moment: the page is not
    unloading, the batch is neither pending in the queue nor acknowledged, its attempts
    are below the bound of its class (and at most five when the method matrix is loaded),
    the minimum gap since its last kick has passed, a heavy batch has the origin's lease,
    and a deepening batch is not paused; and the kick is counted. *)
Theorem kick_guard e k why h h' g : gap_at k h = Some g ->
  kickCollect e k why h = (h', true) ->
  pageUnloading h = false /\ hasPending h (fst k) = false /\ materialState e h (fst k) <> "acked" /\
  g_attempts g < collectMax h (fst k) /\ (h_matrix e = true -> g_attempts g <= 5) /\
  (g_last_collect g = 0 \/ collect_min_gap_ms (CFG h) <= hnow e - g_last_collect g) /\
  ld_collector (fst k) (hl h) = true /\
  (isB10 (fst k) || isHard h (fst k) || isDeepen (fst k) = true -> mayHeavyCollect e h = true) /\
  (isDeepen (fst k) = true -> pause_deepen_until (adaptive h) = 0 \/ pause_deepen_until (adaptive h) <= hnow e) /\
  attempts_of k h' = g_attempts g + 1.
Proof.
  intros Hg Hk. destruct (kick_counts _ _ _ _ _ Hk) as (h1 & Hr & Hc).
  destruct (refused_guard _ _ _ _ Hr) as (Hl & Hu & Hp & Hm & Hx & Ha & Hgap & Hpe & Hms & Hcol).
  destruct (looked_checks _ _ _ (fst k) Hl) as (Q1 & Q2 & Q3 & Q4 & Q5 & Q6 & Q7).
  destruct (looked_gap _ _ _ _ _ Hl Hg) as (g1 & Hg1 & A & C).
  assert (attempts_of k h1 = g_attempts g) as Eat by (unfold attempts_of; by rewrite Hg1).
  assert (gap_or k h1 = g1) as Eg by (unfold gap_or; by rewrite Hg1).
  destruct Hl as (_ & Lc & La & _). rewrite Eg, C, Lc in Hgap. rewrite Eat, Q3 in Ha.
  rewrite Q1 in Hpe. rewrite Q2 in Hms. rewrite Q4 in Hu. rewrite Q7 in Hcol. rewrite Q5, Q6 in Hm. rewrite La in Hp.
  repeat split; auto.
  - intros Hmx. rewrite <- Eat. by eapply matrix_budget.
  - rewrite Hc, (start_attempts _ _ _ _ _ Hg1). by rewrite A.
Qed.


(** After the second stall recovery no deepening batch is ever collected again: once
    the policy is applied in mode [auto] it stays in recovery and renews the pause at
    every application, also right after the pause was cleared because the primary curves
    landed, over any later run of the supervisor. *)
Theorem recovery_absorbing e h evs k :
  sor (adaptive_mode (CFG h)) "auto" = "auto" ->
  deepen_circuit_quiet_ms (CFG h) = 0 \/ 3000 <= deepen_circuit_quiet_ms (CFG h) ->
  2 <= stall_recoveries (adaptive h) -> 0 <= hnow e -> in_order (hnow e) evs -> isDeepen (fst k) = true ->
  let h0 := applyAdaptivePolicy e true h in
  ad_mode (adaptive h0) = "recovery" /\ attempts_of k (hrun evs h0) = attempts_of k h.
Proof.
  intros Hm Hq Hr Ht Ho Hk h0. pose proof (policy_facts e h) as Hf. cbv zeta in Hf. fold h0 in Hf.
  destruct Hf as (Fg & Fm & Fq & Fr & Fl & _ & Fp). destruct (Fp Hm Hr) as [Fmode Fpause]. split; [done|].
  rewrite (run_settled evs e); [unfold attempts_of, gap_at; by rewrite Fg|done| |done].
  unfold settled. rewrite Fm, Fq, Fr, Fl. repeat split; auto; lia.
Qed.

(** The method a stall recovery hands to the collectors never degrades and never
    skips: the walk over the methods stops when it reaches one that does. *)
Theorem rotate_never_degrades e k why (h : heal L) :
  match snd (rotate e k why h) with
  | Rotated (Some m) => degrade (nm_method m) = false /\ honest_skip (nm_method m) = false
  | _ => True
  end.
Proof.
  unfold rotate. destruct (negb (h_matrix e)); [done|]. cbv zeta. destruct (nextMethod _ _ _ _) as [m|] eqn:Em; [|done].
  pose proof (nextMethod_stops _ _ _ _ _ Em) as Hs. set (n := g_switches (gap_or k h)) in *.
  destruct (honest_skip (nm_method m) || (degrade (nm_method m) && (2 <? n + 1))) eqn:Es; cbn [snd]; [done|].
  destruct (isUnsupported _); cbn [snd]; [done|]. apply orb_false_iff in Es as [Eh Ed]. split; [|done].
  apply not_true_is_false. intros Hd. rewrite Hd in Ed. cbn in Ed. breflect. specialize (Hs Hd). lia.
Qed.
End Properties.

(** ** Witnesses *)

Definition first_gap : gap := new_gap Demo.page B10_KEY.
Definition opened_page : heal Demo.loader := ensureGap B10_KEY id Demo.page.
Definition kicked_page : heal Demo.loader := fst (kickCollect (Demo.at_ms 1000) B10_KEY "missing" opened_page).

Lemma kick_guard_witness :
  pageUnloading opened_page = false /\ hasPending opened_page "B10_hw_curves" = false /\
  materialState (Demo.at_ms 1000) opened_page "B10_hw_curves" <> "acked" /\
  g_attempts first_gap < collectMax opened_page "B10_hw_curves" /\ (true = true -> g_attempts first_gap <= 5) /\
  (g_last_collect first_gap = 0 \/ collect_min_gap_ms (CFG opened_page) <= 1000 - g_last_collect first_gap) /\
  ld_collector "B10_hw_curves" (hl opened_page) = true /\
  (isB10 "B10_hw_curves" || isHard opened_page "B10_hw_curves" || isDeepen "B10_hw_curves" = true ->
   mayHeavyCollect (Demo.at_ms 1000) opened_page = true) /\
  (isDeepen "B10_hw_curves" = true -> pause_deepen_until (adaptive opened_page) = 0 \/
   pause_deepen_until (adaptive opened_page) <= 1000) /\
  attempts_of B10_KEY kicked_page = g_attempts first_gap + 1.
Proof.
  refine (kick_guard (Demo.at_ms 1000) B10_KEY "missing" opened_page kicked_page first_gap _ _);
    vm_compute; reflexivity.
Defined.


Definition stalled_page : heal Demo.loader := hrun Demo.stalled Demo.page.

Lemma recovery_absorbing_witness :
  let h0 := applyAdaptivePolicy (Demo.at_ms 100000) true stalled_page in
  ad_mode (adaptive h0) = "recovery" /\ attempts_of Demo.B10x (hrun Demo.later h0) = attempts_of Demo.B10x stalled_page.
Proof.
  refine (recovery_absorbing (Demo.at_ms 100000) stalled_page Demo.later Demo.B10x _ _ _ _ _ _).
  - vm_compute. reflexivity.
  - right. vm_compute. discriminate.
  - vm_compute. discriminate.
  - vm_compute. discriminate.
  - repeat split; vm_compute; discriminate.
  - reflexivity.
Defined.
