(* ===== verification/Coordinator.v ===== *)
(** * The origin coordinator ([probe/fe/origin_coordinator.js])

    The tabs of one origin agree on one that may collect the heavy batches: a
    Web Lock where the browser has them, a lease in [localStorage] otherwise;
    a closing tab leaves a handoff ticket there.

    A tab is the record [tab]; its page is the [heal] of [SelfHeal], with the
    real upload queue.  What the tabs share is the store of class [Browser];
    [otab] is a tab with that store, the messages it has sent and its
    asynchronous jobs: lock requests in flight, promises already settled whose
    continuation is due, the 80 ms timer of [start].  The scripts of the
    supervisor and the queue are loaded.  Console logs are not modelled. *)

From Stdlib Require Import QArith Qround.
From S2P Require Import Prelude JsVal Uri Window Browser Json Lifecycle Scheduler Registry QueueState Freeze QueuePump QueueApi SelfHeal.
#[local] Open Scope Z_scope.

Definition LS_LEASE : string := "_g5_gpi_lease".
Definition LS_PROGRESS : string := "_g5_gpi_prog".
Definition LS_HANDOFF : string := "_g5_gpi_handoff".
Definition LS_PEERS : string := "_g5_gpi_peers".
Definition LEASE_TTL_MS : Z := 6000.
Definition UPGRADE_AFTER_MS : Z := 10000.
Definition PROGRESS_STALE_MS : Z := 12000.
Definition HANDOFF_TTL_MS : Z := 120000.
Definition HANDOFF_CLAIM_STALE_MS : Z := 15000.
Definition PEER_TTL_MS : Z := 10000.

(** ** State *)

Record gstats := mkGstats {
  becomes_heavy : Z;
  becomes_light : Z;
  handoffs_sent : Z;
  handoffs_recv : Z;
  handoffs_durable_write : Z;
  handoffs_claim : Z;
  upload_handoffs : Z;
  upgrades : Z;
  heartbeats : Z;
  peer_max : Z
}.

Definition gstats0 : gstats := mkGstats 0 0 0 0 0 0 0 0 0 1.
Definition eta_gstats (c : gstats) : gstats :=
  mkGstats (becomes_heavy c) (becomes_light c) (handoffs_sent c) (handoffs_recv c) (handoffs_durable_write c)
    (handoffs_claim c) (upload_handoffs c) (upgrades c) (heartbeats c) (peer_max c).
Definition inc_heavy (c : gstats) : gstats := ltac:(upd eta_gstats becomes_heavy c (becomes_heavy c + 1)).
Definition inc_light (c : gstats) : gstats := ltac:(upd eta_gstats becomes_light c (becomes_light c + 1)).
Definition inc_sent (c : gstats) : gstats := ltac:(upd eta_gstats handoffs_sent c (handoffs_sent c + 1)).
Definition inc_recv (c : gstats) : gstats := ltac:(upd eta_gstats handoffs_recv c (handoffs_recv c + 1)).
Definition inc_durable (c : gstats) : gstats :=
  ltac:(upd eta_gstats handoffs_durable_write c (handoffs_durable_write c + 1)).
Definition inc_claim (c : gstats) : gstats := ltac:(upd eta_gstats handoffs_claim c (handoffs_claim c + 1)).
Definition inc_upload (c : gstats) : gstats := ltac:(upd eta_gstats upload_handoffs c (upload_handoffs c + 1)).
Definition inc_upgrades (c : gstats) : gstats := ltac:(upd eta_gstats upgrades c (upgrades c + 1)).
Definition inc_beats (c : gstats) : gstats := ltac:(upd eta_gstats heartbeats c (heartbeats c + 1)).
Definition max_peers n (c : gstats) : gstats := ltac:(upd eta_gstats peer_max c (Z.max (peer_max c) n)).

(** What follows an acquisition: its caller's [then]. *)
Inductive cont :=
| AfterCall
| AfterStart
| AfterUpgrade (dead : bool)
| AfterHandoff (source : string) (H : val).

Inductive job :=
| Request (why : string) (k : cont)
| Settled (ok : bool) (k : cont)
| Delayed.

Record tab (L B : Type) := mkTab {
  tabId : option string;
  role : string;
  o_started : bool;
  bc : bool;
  timers : bool;
  lockHeld : bool;
  lockRelease : bool;
  cycleId : string;
  claimingHandoff : bool;
  gst : gstats;
  session : B;
  page : heal L
}.
Arguments mkTab {L B}. Arguments tabId {L B}. Arguments role {L B}. Arguments o_started {L B}. Arguments bc {L B}.
Arguments timers {L B}. Arguments lockHeld {L B}. Arguments lockRelease {L B}. Arguments cycleId {L B}.
Arguments claimingHandoff {L B}. Arguments gst {L B}. Arguments session {L B}. Arguments page {L B}.

Record otab (L B : Type) := mkOtab { tb : tab L B; store : B; sent : list val; jobs : list job }.
Arguments mkOtab {L B}. Arguments tb {L B}. Arguments store {L B}. Arguments sent {L B}. Arguments jobs {L B}.

(** A tab as its script leaves it. *)
Definition tab0 {L B} (ss : B) (p : heal L) : tab L B :=
  mkTab None "light" false false false false false "" false gstats0 ss p.

(** The page's environment: the supervisor's, the location, whether there is
    [navigator.locks] and [BroadcastChannel], and three [Math.random()] texts. *)
Record genv := mkGenv {
  g_h : henv;
  g_path : string;
  g_href : string;
  g_locks : bool;
  g_bc : bool;
  g_rand8 : string;
  g_rand10 : string;
  g_rand6 : string
}.

Definition gnow (e : genv) : Z := hnow (g_h e).

Section State.
Context {L B : Type}.
Definition eta_tab (t : tab L B) : tab L B :=
  mkTab (tabId t) (role t) (o_started t) (bc t) (timers t) (lockHeld t) (lockRelease t) (cycleId t)
    (claimingHandoff t) (gst t) (session t) (page t).
Definition set_tabId v (t : tab L B) : tab L B := ltac:(upd eta_tab (@tabId L B) t v).
Definition set_role v (t : tab L B) : tab L B := ltac:(upd eta_tab (@role L B) t v).
Definition set_started v (t : tab L B) : tab L B := ltac:(upd eta_tab (@o_started L B) t v).
Definition set_bc v (t : tab L B) : tab L B := ltac:(upd eta_tab (@bc L B) t v).
Definition set_timers v (t : tab L B) : tab L B := ltac:(upd eta_tab (@timers L B) t v).
Definition set_lockHeld v (t : tab L B) : tab L B := ltac:(upd eta_tab (@lockHeld L B) t v).
Definition set_lockRelease v (t : tab L B) : tab L B := ltac:(upd eta_tab (@lockRelease L B) t v).
Definition set_cycleId v (t : tab L B) : tab L B := ltac:(upd eta_tab (@cycleId L B) t v).
Definition set_claiming v (t : tab L B) : tab L B := ltac:(upd eta_tab (@claimingHandoff L B) t v).
Definition set_gst v (t : tab L B) : tab L B := ltac:(upd eta_tab (@gst L B) t v).
Definition set_session v (t : tab L B) : tab L B := ltac:(upd eta_tab (@session L B) t v).
Definition set_page v (t : tab L B) : tab L B := ltac:(upd eta_tab (@page L B) t v).

Definition on_tab (f : tab L B -> tab L B) (g : otab L B) : otab L B := mkOtab (f (tb g)) (store g) (sent g) (jobs g).
Definition set_store b (g : otab L B) : otab L B := mkOtab (tb g) b (sent g) (jobs g).
Definition post m (g : otab L B) : otab L B := mkOtab (tb g) (store g) (sent g ++ [m]) (jobs g).
Definition add_job j (g : otab L B) : otab L B := mkOtab (tb g) (store g) (sent g) (jobs g ++ [j]).
Definition on_page (f : heal L -> heal L) (g : otab L B) : otab L B := on_tab (fun t => set_page (f (page t)) t) g.
Definition count (f : gstats -> gstats) (g : otab L B) : otab L B := on_tab (fun t => set_gst (f (gst t)) t) g.
Definition gwin (g : otab L B) : Win := hwin (page (tb g)).
Definition set_gvar (k : string) (v : val) (g : otab L B) : otab L B := on_page (SelfHeal.set_global k v) g.
End State.

(** [Object.assign(o, p)] for literal objects *)
Definition assign (o p : list (string * val)) : list (string * val) :=
  fold_left (fun o kv => obj_put (fst kv) (snd kv) o) p o.

(** [o.k = v] on a value read from the store *)
Definition put (k : string) (v : val) (o : val) : val :=
  match o with VObj l => VObj (obj_put k v l) | _ => o end.

(** [a && a.length] *)
Definition has_items (v : val) : bool :=
  match v with VArr l => negb (Nat.eqb (length l) 0) | VStr s => s <>s "" | _ => false end.

(** [t - Number(v)] *)
Definition since (t : Z) (v : val) : num :=
  match to_num v with Fin q => Fin (Qminus (inject_Z t) q) | Inf s => Inf (negb s) | NaN => NaN end.

Definition strs (l : list string) : val := VArr (map VStr l).

Definition b10_name (v : val) : bool := is_str v "B10_hw_curves" || is_str v "mid.curves".

(** [Array.isArray(l) && l.some(b10_name)] *)
Definition some_b10 (l : val) : bool := match l with VArr l => existsb b10_name l | _ => false end.

Section Coordinator.
Context {L B : Type} `{Loader L} `{Browser B}.
Variable e : genv.
Implicit Types g : otab L B.

(** ** The page *)

Definition tab_val g : val := match tabId (tb g) with Some s => VStr s | None => VNull end.

(** [v === tabId] *)
Definition is_tab (v : val) g : bool :=
  match tabId (tb g), v with Some s, VStr s' => s =s s' | None, VNull => true | _, _ => false end.

Definition sid g : string :=
  to_string (jor (VStr (cycleId (tb g))) (VStr (SelfHeal.sid (page (tb g))))).

(** [toString(36).slice(-4)] *)
Definition last4 (s : string) : string := sdrop (String.length s - 4) s.

Definition mintTabId g : string * otab L B :=
  let ex := ss_get "__gr_tab_win_id__" (session (tb g)) in
  if ex <>s "" then (ex, g) else
  let id := "t" +:+ g_rand8 e +:+ last4 (to_radix 36 (gnow e)) in
  match ss_set "__gr_tab_win_id__" id (session (tb g)) with
  | Some b => (id, on_tab (set_session b) g)
  | None => ("t" +:+ g_rand10 e, g)
  end.

Definition ops (code : string) (d : list (string * val)) (sev : string) g : otab L B :=
  on_page (on_queue (fun q => set_win (ops_report code "origin_coord" d sev (win q)) q)) g.

(** The array of [window] is the supervisor's own once it has pushed to it. *)
Definition gtimeline (ev : string) (d : list (string * val)) g : otab L B :=
  let row := (gnow e, "gpi_" +:+ ev, d) in
  let last100 {A} (l : list A) := List.skipn (length l - 100) l in
  on_page (fun h =>
    match SelfHeal.timeline h with
    | [] =>
      let old := match gget "__GR_PROBE_TIMELINE__" (hwin h) with VArr l => l | _ => [] end in
      SelfHeal.set_global "__GR_PROBE_TIMELINE__" (VArr (last100 (old ++ [row_val row]))) h
    | tl =>
      let tl' := last100 (tl ++ [row]) in
      h |> SelfHeal.set_timeline tl' |> SelfHeal.set_global "__GR_PROBE_TIMELINE__" (VArr (map row_val tl'))
    end) g.

(** ** The shared store *)

Definition readJson (key : string) g : val :=
  let s := ls_get key (store g) in
  if s =s "" then VNull else default VNull (json_parse s).

Definition writeJson (key : string) (v : val) g : otab L B :=
  match s ← json_stringify v; ls_set key s (store g) with Some b => set_store b g | None => g end.

Definition clearKey (key : string) g : otab L B :=
  match ls_remove key (store g) with Some b => set_store b g | None => g end.

Definition broadcast (m : list (string * val)) g : otab L B :=
  if bc (tb g) then post (VObj (assign [("t", vint (gnow e)); ("from", tab_val g)] m)) g else g.

(** ** Peers and the policy *)

(** A table that is not an object is replaced. *)
Definition prunePeers (m : val) : list (string * val) :=
  match m with
  | VObj l => List.filter (fun kv => truthy (snd kv) &&
      negb (num_ltb (num_Z PEER_TTL_MS) (since (gnow e) (jor (prop (snd kv) "hb") (vint 0))))) l
  | _ => []
  end.

Definition tab_key g : string := to_string (tab_val g).

Definition touchPeer g : otab L B :=
  let all := obj_put (tab_key g)
    (VObj [("hb", vint (gnow e)); ("role", VStr (role (tb g))); ("cycle", VStr (sid g)); ("href", VStr (stake 80 (g_path e)))])
    (prunePeers (readJson LS_PEERS g)) in
  g |> writeJson LS_PEERS (VObj all) |> count (max_peers (Z.of_nat (length all))).

Definition dropPeer g : otab L B :=
  writeJson LS_PEERS (VObj (List.filter (fun kv => fst kv <>s tab_key g) (prunePeers (readJson LS_PEERS g)))) g.

Definition peerCount g : Z :=
  zor (Z.of_nat (length (prunePeers (readJson LS_PEERS g)))) (if o_started (tb g) then 1 else 0).

Definition isHeavy g : bool := role (tb g) =s "heavy".

Definition policySnapshot g : val :=
  let n := peerCount g in
  let multi := 1 <? n in
  VObj [("peer_count", vint n); ("multi_tab", VBool multi); ("role", VStr (role (tb g))); ("heavy", VBool (isHeavy g));
        ("transport_assist", VBool (multi && negb (isHeavy g))); ("serial_heavy", VBool (multi && isHeavy g));
        ("defer_heavy_collect", VBool (multi && negb (isHeavy g)));
        ("transport_priority", vint (if multi then if isHeavy g then 1 else 2 else 1))].

Definition publishRole g : otab L B :=
  let pol := policySnapshot g in
  g |> set_gvar "__GR_GPI_ROLE__" (VStr (role (tb g))) |> set_gvar "__GR_GPI_TAB_ID__" (tab_val g)
    |> set_gvar "__GR_GPI_HEAVY__" (VBool (isHeavy g)) |> set_gvar "__GR_GPI_PEER_COUNT__" (prop pol "peer_count")
    |> set_gvar "__GR_GPI_POLICY__" pol |> set_gvar "__GR_GPI_MULTI_TAB__" (VBool (truthy (prop pol "multi_tab"))).

(** [GRProbeSelfHeal.tick()] *)
Definition tick g : otab L B := on_page (tickOnce (g_h e) false) g.

Definition valid_role (r : string) : string := if mem_str r ["heavy"; "light"; "transport"] then r else "light".

Definition setRole (next why : string) g : otab L B :=
  let next := valid_role next in
  if role (tb g) =s next then publishRole g else
  let prev := role (tb g) in
  let g := g |> on_tab (set_role next) |> publishRole |> count (if next =s "heavy" then inc_heavy else inc_light)
             |> gtimeline "role" [("from", VStr prev); ("to", VStr next); ("why", VStr why)] in
  let g := ops "gpi_role" [("tab", tab_val g); ("from", VStr prev); ("to", VStr next); ("why", VStr why);
                           ("cycle", VStr (stake 28 (sid g)))] "info" g in
  let g := broadcast [("type", VStr "role"); ("tab", tab_val g); ("role", VStr (role (tb g))); ("cycle", VStr (sid g));
                      ("why", VStr why)] g in
  tick g.

(** ** The lease *)

Definition leaseSnapshot g : val := readJson LS_LEASE g.

Definition leaseIsMine (l : val) g : bool := truthy l && is_tab (prop l "tab") g.

Definition leaseAlive (l : val) : bool :=
  if negb (truthy l) || negb (truthy (prop l "tab")) then false else
  num_ltb (since (gnow e) (jor (prop l "hb") (jor (prop l "at") (vint 0)))) (num_Z LEASE_TTL_MS).

Definition writeLease (extra : list (string * val)) g : otab L B :=
  writeJson LS_LEASE (VObj (assign [("tab", tab_val g); ("at", vint (gnow e)); ("hb", vint (gnow e)); ("cycle", VStr (sid g))]
                                   extra)) g.

Definition clearMyLease g : otab L B := if leaseIsMine (leaseSnapshot g) g then clearKey LS_LEASE g else g.

Definition material g (bid : string) : string :=
  QueueState.materialState bid (sid g) "main" None (gnow e) (hq (page (tb g))).

Definition writeProgress (patch : list (string * val)) g : otab L B :=
  let p := assign [("tab", tab_val g); ("role", VStr (role (tb g))); ("cycle", VStr (sid g)); ("at", vint (gnow e));
                   ("has_b10_local", VBool false); ("phase", VStr "")] patch in
  let p := if material g "B10_hw_curves" =s "acked" then obj_put "has_b10_local" (VBool true) p else p in
  let p := if truthy (prop (gget "__GR_CYCLE_PROBE_STATUS__" (gwin g)) "has_b10")
           then obj_put "has_b10_server" (VBool true) p else p in
  g |> writeJson LS_PROGRESS (VObj p) |> broadcast [("type", VStr "progress"); ("progress", VObj p)].

Definition serverHasB10 g : bool :=
  let cps := jor (gget "__GR_CYCLE_PROBE_STATUS__" (gwin g)) empty_obj in
  let so := jor (gget "__GR_SESSION_OUTCOME__" (gwin g)) empty_obj in
  let ok := prop so "batches_ok" in
  is_true (prop cps "has_b10") || is_true (prop (jor (prop cps "identity_coverage") empty_obj) "has_b10") ||
  (truthy ok && (truthy (prop ok "B10_hw_curves") || truthy (prop ok "mid.curves"))).

Definition canHeavyCollect g : bool :=
  if serverHasB10 g then false else
  if role (tb g) =s "heavy" then true else
  if negb (leaseAlive (leaseSnapshot g)) then role (tb g) =s "heavy" else false.

Definition releaseHeavy (why : string) g : otab L B :=
  let g := on_tab (set_lockRelease false) g in
  let g := g |> on_tab (set_lockHeld false) |> clearMyLease in
  let g := if role (tb g) =s "heavy" then setRole "light" (sor why "release") g else g in
  broadcast [("type", VStr "lease_free"); ("why", VStr (sor why "release")); ("tab", tab_val g)] g.

Definition becomeHeavy (why : string) g : otab L B :=
  let why := sor why "acquire" in
  g |> writeLease [("why", VStr why)] |> on_tab (set_lockHeld true) |> setRole "heavy" why
    |> writeProgress [("role", VStr "heavy"); ("phase", VStr "heavy_start")] |> count inc_heavy.

(** ** Acquiring the heavy role *)

Definition resolve (ok : bool) (k : cont) g : otab L B := add_job (Settled ok k) g.

Definition other_leader (l : val) g : bool := leaseAlive l && negb (leaseIsMine l g).

(** The claim of the storage lease, and its verification. *)
Definition storage_claim (why : string) g : otab L B :=
  writeLease [("why", VStr (sor why "storage_lease")); ("token", VStr (to_string (tab_val g) +:+ ":" +:+ g_rand6 e))] g.

Definition storage_verify (why : string) (k : cont) g : otab L B :=
  let l := leaseSnapshot g in
  if negb (truthy l) || negb (is_tab (prop l "tab") g)
  then g |> setRole "light" "storage_lost_race" |> resolve false k
  else g |> becomeHeavy (sor why "storage_lease") |> resolve true k.

Definition storageAcquire (why : string) (k : cont) g : otab L B :=
  if other_leader (leaseSnapshot g) g then g |> setRole "light" "storage_busy" |> resolve false k
  else g |> storage_claim why |> storage_verify why k.

Definition tryAcquireHeavy (why : string) (k : cont) g : otab L B :=
  if serverHasB10 g then g |> setRole "light" "server_has_b10" |> resolve false k else
  if other_leader (leaseSnapshot g) g then g |> setRole "light" "other_leader" |> resolve false k else
  if g_locks e then add_job (Request why k) g else storageAcquire why k g.

(** The callback of the lock request: granted, and whether the lock is kept;
    busy; the request failed. *)
Definition lock_granted (why : string) (k : cont) g : otab L B * bool :=
  if other_leader (leaseSnapshot g) g then (g |> setRole "light" "storage_peer" |> resolve false k, false) else
  (g |> on_tab (fun t => t |> set_lockHeld true |> set_lockRelease true) |> becomeHeavy (sor why "web_lock")
     |> resolve true k, true).

Definition lock_busy (k : cont) g : otab L B := g |> setRole "light" "lock_busy" |> resolve false k.

Definition lock_failed (why : string) (k : cont) g : otab L B := storageAcquire why k g.

(** The poll that ends the hold. *)
Definition hold_ends (t : tab L B) : bool := negb (lockHeld t) || (role t <>s "heavy").

Definition maybeUpgrade g : otab L B :=
  if role (tb g) =s "heavy" then g else
  if serverHasB10 g then g else
  let l := leaseSnapshot g in
  let prog := readJson LS_PROGRESS g in
  let leaderDead := negb (leaseAlive l) in
  let progressStale :=
    negb (truthy prog) || negb (truthy (prop prog "at")) ||
    num_ltb (num_Z PROGRESS_STALE_MS) (since (gnow e) (prop prog "at")) ||
    negb (match prop prog "tab", (if truthy l then prop l "tab" else l) with
          | VStr a, VStr b => a =s b | VNull, VNull => true | VUndef, VUndef => true | _, _ => false end) in
  let t0 := gget "__GR_GPI_START_MS__" (gwin g) in
  let waited := if o_started (tb g) then since (gnow e) (jor t0 (vint (gnow e))) else num_Z 0 in
  if leaderDead || (progressStale && num_ltb (num_Z UPGRADE_AFTER_MS) waited)
  then tryAcquireHeavy (if leaderDead then "upgrade_lease_dead" else "upgrade_stale_progress") (AfterUpgrade leaderDead) g
  else g.

(** ** Handoff tickets *)

Definition readHandoff g : val := readJson LS_HANDOFF g.

Definition need_collect (t : val) g : bool := negb (serverHasB10 g) && some_b10 (prop t "unfinished").

Definition need_upload (t : val) : bool := match prop t "upload_pending" with VArr l => negb (Nat.eqb (length l) 0) | _ => false end.

(** Another tab has the ticket and looks alive. *)
Definition claimed_elsewhere (t : val) g : bool :=
  let by_ := prop t "claimed_by" in
  truthy by_ && negb (is_tab by_ g) &&
  let cAt := jor (prop t "claimed_at") (vint 0) in
  let fresh := truthy (VNum (to_num cAt)) && num_ltb (since (gnow e) cAt) (num_Z HANDOFF_CLAIM_STALE_MS) in
  let l := leaseSnapshot g in
  let holds := leaseAlive l && match prop l "tab", by_ with VStr a, VStr b => a =s b | _, _ => false end in
  holds || (fresh && leaseAlive l && negb (is_tab (prop l "tab") g)).

Definition expired (t : val) : bool := num_ltb (num_Z HANDOFF_TTL_MS) (since (gnow e) (jor (prop t "at") (vint 0))).

Definition handoffIsActionable (t : val) g : bool :=
  if negb (truthy t) then false else
  if negb (truthy (VNum (to_num (jor (prop t "at") (vint 0))))) || expired t then false else
  if negb (need_collect t g) && negb (need_upload t) then false else
  negb (need_collect t g && claimed_elsewhere t g).

(** [prev.concat] of the strings of [l] not yet there *)
Definition merge_new (prev l : list val) : list val :=
  fold_left (fun acc u => match u with
    | VStr s => if existsb (fun x => is_str x s) acc then acc else acc ++ [u]
    | _ => acc ++ [u]
    end) l prev.

Definition same_cycle (a b : val) : bool := match a, b with VStr x, VStr y => x =s y | _, _ => false end.

(** The ticket a page leaves, when it leaves one. *)
Definition handoff_ticket (unfinished : list string) (why : string) (uploadPending : list string) g : option (list (string * val)) :=
  let needC := negb (Nat.eqb (length unfinished) 0) && negb (serverHasB10 g) in
  let needU := negb (Nat.eqb (length uploadPending) 0) in
  if negb needC && negb needU then None else
  let ticket :=
    [("v", vint 2); ("from", tab_val g); ("cycle", VStr (sid g)); ("unfinished", strs (if needC then unfinished else []));
     ("upload_pending", strs (if needU then firstn 24 uploadPending else [])); ("at", vint (gnow e));
     ("why", VStr (sor why "pagehide")); ("href", VStr (stake 160 (g_href e))); ("role_was", VStr (role (tb g)));
     ("claimed_by", VNull); ("claimed_at", vint 0)] in
  let prev := readHandoff g in
  if truthy prev && (handoffIsActionable prev g || has_items (prop prev "upload_pending")) &&
     same_cycle (prop prev "cycle") (VStr (sid g)) then
    let t1 := obj_put "unfinished" (VArr (merge_new (arr (prop prev "unfinished")) (arr (prop (VObj ticket) "unfinished")))) ticket in
    let t2 := obj_put "upload_pending"
      (VArr (firstn 24 (merge_new (arr (prop prev "upload_pending")) (arr (prop (VObj ticket) "upload_pending"))))) t1 in
    Some (if truthy (prop prev "claimed_by") && negb (is_tab (prop prev "claimed_by") g)
          then t2 |> obj_put "claimed_by" (prop prev "claimed_by") |> obj_put "claimed_at" (prop prev "claimed_at")
          else t2)
  else Some ticket.

Definition writeDurableHandoff (unfinished : list string) (why : string) (uploadPending : list string) g : otab L B :=
  match handoff_ticket unfinished why uploadPending g with
  | None => g
  | Some t =>
    let un := prop (VObj t) "unfinished" in
    let up := prop (VObj t) "upload_pending" in
    let g := g |> writeJson LS_HANDOFF (VObj t) |> count inc_durable in
    let g := if has_items up then count inc_upload g else g in
    g |> gtimeline "handoff_durable" [("unfinished", un); ("upload_pending", up); ("why", VStr (sor why "pagehide"))]
      |> ops "gpi_handoff_durable" [("unfinished", un); ("upload_pending", up); ("tab", tab_val g);
                                    ("why", VStr (sor why "pagehide"))] "warn"
  end.

Definition clearHandoff (why : string) g : otab L B :=
  let t := readHandoff g in
  if negb (truthy t) then g else
  if truthy (prop t "claimed_by") && negb (is_tab (prop t "claimed_by") g) && handoffIsActionable t g then g else
  g |> clearKey LS_HANDOFF |> gtimeline "handoff_clear" [("why", VStr (sor why "done"))].

(** [GRProbeSelfHeal.ensureGap(bid, "main", {desired, force_recollect, reason})] *)
Definition want (bid : string) (force : bool) (reason : string) g : otab L B :=
  on_page (ensureGap (bid, "main") (fun x => x |> set_desired true |> set_force force |> set_reason reason)) g.

Definition kickUploadAssist (up : list val) (reason : string) g : otab L B :=
  if Nat.eqb (length up) 0 then g else
  let g := fold_left (fun g bid =>
    on_page (on_queue (fun q => fst (nudgeTransport (h_env (g_h e)) (to_string bid) (sid g) q))) g) up g in
  let g := on_page (on_queue (flush (h_env (g_h e)) "handoff_assist")) g in
  let g := fold_left (fun g bid =>
    if truthy bid then want (to_string bid) (negb (serverHasB10 g) && b10_name bid) (sor reason "upload_handoff") g
    else g) up g in
  tick g.

(** The markers of a pack deferred because the tab was light. *)
Definition undefer (reason : string) (k : string) (ph : val) : val :=
  let p := prop ph k in
  if is_str (prop p "run") "deferred_gpi_light"
  then put k (p |> put "run" (VStr "handoff_pending") |> put "handoff_reason" (VStr (sor reason "handoff"))) ph
  else ph.

Definition kickHeavyWork (reason : string) g : otab L B :=
  let ph := gget "__GR_PACK_HEALTH__" (gwin g) in
  let g := match ph with
           | VObj _ => set_gvar "__GR_PACK_HEALTH__" (ph |> undefer reason "B10_hw_curves" |> undefer reason "mid.curves") g
           | _ => g
           end in
  let g := g |> want "B10_hw_curves" true (sor reason "handoff") |> tick in
  let t := readHandoff g in
  if truthy t then kickUploadAssist (arr (prop t "upload_pending")) reason g else g.

Definition claim_ticket (t : val) g : val := t |> put "claimed_by" (tab_val g) |> put "claimed_at" (vint (gnow e)).

Definition no_items (t : val) : bool := negb (has_items (prop t "unfinished")) && negb (has_items (prop t "upload_pending")).

Definition stale_handoff (t : val) g : otab L B :=
  let g := if truthy t && (no_items t || expired t) && (negb (truthy (prop t "claimed_by")) || is_tab (prop t "claimed_by") g)
           then clearKey LS_HANDOFF g else g in
  if serverHasB10 g && truthy t && negb (has_items (prop t "upload_pending")) then clearHandoff "server_has_b10" g else g.

Definition processHandoff (source : string) g : otab L B :=
  if claimingHandoff (tb g) then g else
  let t := readHandoff g in
  if negb (handoffIsActionable t g) then stale_handoff t g else
  let up := arr (prop t "upload_pending") in
  let g := kickUploadAssist up ("upload_handoff_" +:+ sor source "poll") g in
  if negb (need_collect t g) then
    if serverHasB10 g && negb (has_items (prop t "upload_pending")) then clearHandoff "upload_done" g else g
  else
  let t := claim_ticket t g in
  if role (tb g) =s "heavy" then g |> writeJson LS_HANDOFF t |> kickHeavyWork "handoff_already_heavy" else
  g |> on_tab (set_claiming true) |> writeJson LS_HANDOFF t
    |> tryAcquireHeavy (if source =s "start" then "handoff_resume" else "handoff") (AfterHandoff source t).

(** ** Promises *)

Definition after_handoff (ok : bool) (source : string) (t : val) g : otab L B :=
  let g := on_tab (set_claiming false) g in
  if negb ok then
    let t2 := readHandoff g in
    let g := if truthy t2 && is_tab (prop t2 "claimed_by") g
             then writeJson LS_HANDOFF (t2 |> put "claimed_by" VNull |> put "claimed_at" (vint 0)) g else g in
    kickUploadAssist (arr (prop t "upload_pending")) "light_upload_assist" g
  else
  let g := g |> count (fun c => c |> inc_claim |> inc_recv)
             |> gtimeline "handoff_claim" [("source", VStr (sor source "poll")); ("unfinished", prop t "unfinished")] in
  g |> ops "gpi_handoff_claim" [("tab", tab_val g); ("source", VStr (sor source "poll")); ("unfinished", prop t "unfinished")] "warn"
    |> kickHeavyWork "handoff_claim".

Definition run_cont (ok : bool) (k : cont) g : otab L B :=
  match k with
  | AfterCall => g
  | AfterStart =>
    let g := if ok then g else setRole "light" "start_follower" g in
    g |> publishRole |> add_job Delayed
  | AfterUpgrade dead =>
    if negb ok then g else
    let why := VStr (if dead then "lease_dead" else "stale") in
    g |> count inc_upgrades |> gtimeline "upgrade" [("why", why)] |> ops "gpi_upgrade" [("tab", tab_val g); ("why", why)] "warn"
  | AfterHandoff source t => after_handoff ok source t g
  end.

(** ** Timers, messages and the page's life *)

Definition heartbeat g : otab L B :=
  let g := g |> count inc_beats |> touchPeer |> publishRole |> on_page (applyAdaptivePolicy (g_h e) true) in
  if role (tb g) =s "heavy" then
    let g := writeLease [("hb", vint (gnow e)); ("cycle", VStr (sid g))] g in
    let g := writeProgress [("role", VStr "heavy"); ("phase", VStr "heartbeat"); ("peers", vint (peerCount g))] g in
    if serverHasB10 g && negb (truthy (readHandoff g) && has_items (prop (readHandoff g) "upload_pending"))
    then clearHandoff "heavy_server_b10" g else g
  else
    let g := writeProgress [("role", VStr (role (tb g))); ("phase", VStr "follower"); ("peers", vint (peerCount g))] g in
    let g := g |> maybeUpgrade |> processHandoff "heartbeat" in
    if truthy (prop (policySnapshot g) "transport_assist")
    then on_page (on_queue (flush (h_env (g_h e)) "gpi_transport_assist")) g else g.

Definition watch g : otab L B :=
  let g := g |> maybeUpgrade |> processHandoff "watch" in
  if serverHasB10 g then
    let g := clearHandoff "watch_server_b10" g in
    if role (tb g) =s "heavy"
    then let g := writeProgress [("has_b10_server", VBool true); ("phase", VStr "b10_done")] g in
         broadcast [("type", VStr "has_b10"); ("cycle", VStr (sid g))] g
    else g
  else g.

(** A ticket a peer only broadcast is stored. *)
Definition mirror_handoff (m : val) g : otab L B :=
  if (match prop m "unfinished" with VArr l => negb (Nat.eqb (length l) 0) | _ => false end) && negb (serverHasB10 g) &&
     negb (handoffIsActionable (readHandoff g) g)
  then writeJson LS_HANDOFF (VObj [("v", vint 1); ("from", prop m "from"); ("cycle", jor (prop m "cycle") (VStr (sid g)));
         ("unfinished", prop m "unfinished"); ("at", vint (gnow e)); ("why", VStr "bc_mirror"); ("claimed_by", VNull);
         ("claimed_at", vint 0)]) g
  else g.

Definition on_progress (m : val) g : otab L B :=
  let p := prop m "progress" in
  let g := set_gvar "__GR_GPI_PEER__" p g in
  if (truthy (prop p "has_b10_local") || truthy (prop p "has_b10_server")) && (role (tb g) =s "heavy") && serverHasB10 g
  then releaseHeavy "peer_or_server_b10" g else g.

Definition on_handoff (m : val) g : otab L B :=
  let g := g |> count inc_recv |> gtimeline "handoff_recv" (match m with VObj l => l | _ => [] end)
             |> ops "gpi_handoff_recv" [("from", prop m "from"); ("unfinished", jor (prop m "unfinished") (VArr []));
                  ("cycle", prop m "cycle"); ("durable", VBool (truthy (prop m "durable")))] "warn" in
  g |> mirror_handoff m |> processHandoff "bc".

Definition onMessage (m : val) g : otab L B :=
  if is_tab (prop m "from") g then g else
  let type := prop m "type" in
  let g := if is_str type "progress" && truthy (prop m "progress") then on_progress m g else g in
  let g := if is_str type "handoff" then on_handoff m g else g in
  let g := if is_str type "cool" || is_str type "has_b10" then
             let g := if serverHasB10 g then clearHandoff "peer_has_b10" g else g in
             if (role (tb g) =s "heavy") && serverHasB10 g then releaseHeavy "peer_cool" g else g
           else g in
  if is_str type "lease_free" then g |> maybeUpgrade |> processHandoff "lease_free" else g.

(** The wanted primary curves that are missing, from [GRProbeSelfHeal.snapshot()]. *)
Definition snapshot_gaps g : otab L B * list string :=
  let '(h, rows) := snapshot_rows (g_h e) (page (tb g)) in
  (on_tab (set_page h) g,
   map (fun r => g_batch (fst r))
     (List.filter (fun r => g_desired (fst r) && negb (snd r) && b10_name (VStr (g_batch (fst r)))) rows)).

Fixpoint dedup (seen l : list string) : list string :=
  match l with
  | [] => []
  | x :: l' => if mem_str x seen then dedup seen l' else x :: dedup (x :: seen) l'
  end.

Definition b10_in_flight g : bool :=
  let packs := jor (gget "__GR_PACK_HEALTH__" (gwin g)) empty_obj in
  let p := jor (prop packs "B10_hw_curves") (prop packs "mid.curves") in
  truthy p && (is_str (prop p "run") "running" || is_str (prop p "run") "queued" || is_str (prop p "state") "running").

Definition collectUnfinished g : otab L B * list string :=
  let '(g, out) := snapshot_gaps g in
  let out := if b10_in_flight g && negb (mem_str "B10_hw_curves" out) then out ++ ["B10_hw_curves"] else out in
  let out := if Nat.eqb (length out) 0 && negb (serverHasB10 g) && (role (tb g) =s "heavy")
             then ["B10_hw_curves"] else out in
  (g, dedup [] out).

Definition ANCHORS : list string := ["B10_hw_curves"; "mid.curves"; "B0_bootstrap"; "B2_hardware"; "B3_system"].

Definition add_pending (out : list string) (b : string) : list string := if mem_str b out then out else out ++ [b].

Definition collectUploadPending g : list string :=
  let out := fold_left (fun out v => if truthy v then add_pending out (to_string v) else out)
               (arr (assoc "pending_batches" (QueueApi.stats (hq (page (tb g)))))) [] in
  firstn 24 (fold_left (fun out bid =>
    if mem_str (material g bid) ["queued"; "uploading"; "retry_wait"; "collected"; "new"] then add_pending out bid else out)
    ANCHORS out).

Definition onPageHide g : otab L B :=
  let g := on_page (on_queue (flush (h_env (g_h e)) "pagehide")) g in
  let '(g, unfinished) := collectUnfinished g in
  let up := collectUploadPending g in
  let g := if negb (Nat.eqb (length unfinished) 0) || negb (Nat.eqb (length up) 0) then
    let g := g |> count inc_sent |> writeDurableHandoff unfinished (if role (tb g) =s "heavy" then "pagehide_heavy" else "pagehide") up in
    let g := broadcast [("type", VStr "handoff"); ("unfinished", strs unfinished); ("upload_pending", strs up);
                        ("cycle", VStr (sid g)); ("role", VStr (role (tb g))); ("durable", VBool true)] g in
    g |> gtimeline "handoff_send" [("unfinished", strs unfinished); ("upload_pending", strs up); ("durable", VBool true)]
      |> ops "gpi_handoff_send" [("unfinished", strs unfinished); ("upload_pending", strs up); ("tab", tab_val g);
                                 ("durable", VBool true)] "warn"
  else g in
  let g := dropPeer g in
  if role (tb g) =s "heavy" then releaseHeavy "pagehide" g else g.

Definition start (cycle why : string) g : otab L B :=
  if o_started (tb g) then g else
  let g := on_tab (set_started true) g in
  let '(id, g) := mintTabId g in
  let g := g |> on_tab (set_tabId (Some id)) |> set_gvar "__GR_GPI_START_MS__" (vint (gnow e)) in
  let g := if cycle <>s "" then on_tab (set_cycleId cycle) g else g in
  let g := on_tab (set_cycleId (sor (cycleId (tb g)) (sid g))) g in
  let g := if g_bc e then on_tab (set_bc true) g else g in
  let g := g |> tryAcquireHeavy (sor why "start") AfterStart |> on_tab (set_timers true) in
  g |> gtimeline "start" [("tab", tab_val g)] |> ops "gpi_start" [("tab", tab_val g)] "info".

Definition stop (why : string) g : otab L B :=
  let g := g |> on_tab (fun t => t |> set_started false |> set_timers false) |> onPageHide |> on_tab (set_bc false) in
  ops "gpi_stop" [("why", VStr (sor why "stop")); ("tab", tab_val g)] "info" g.

Definition onVisible g : otab L B := g |> heartbeat |> maybeUpgrade.

(** The [storage] event. *)
Definition onStorage (key : string) g : otab L B :=
  let g := if (key =s LS_LEASE) || (key =s LS_PROGRESS) then maybeUpgrade g else g in
  if key =s LS_HANDOFF then processHandoff "storage" g else g.
End Coordinator.
