(* ===== verification/CoordinatorSpec.v ===== *)
(** * What the origin coordinator guarantees

    The tabs of an origin as one transition system (shared store, lock
    manager, messages, jobs), and the properties of the heavy role and of the
    handoff tickets. *)

From Stdlib Require Import QArith Qround.
From S2P Require Import Prelude JsVal Uri Window Browser Json Lifecycle Scheduler Registry QueueState Freeze QueuePump QueueApi SelfHeal SelfHealSpec Coordinator.
#[local] Open Scope Z_scope.

(** ** Who becomes heavy *)

Section Tame.
Context {L B : Type} `{Loader L} `{Browser B}.
Implicit Types g : otab L B.

(** A handler that leaves the role, the hold of the lock and the name alone. *)
Definition idle g g' : Prop :=
  role (tb g') = role (tb g) /\ lockHeld (tb g') = lockHeld (tb g) /\ tabId (tb g') = tabId (tb g).

(** A handler that does not acquire: heavy afterwards means heavy before, with
    the hold of the lock unchanged. *)
Definition tame g g' : Prop :=
  role (tb g') = "heavy" -> role (tb g) = "heavy" /\ lockHeld (tb g') = lockHeld (tb g).

#[export] Instance idle_preorder : PreOrder idle.
Proof. split; [by intros g|]. intros x y z (?&?&?) (?&?&?). repeat split; congruence. Qed.

#[export] Instance tame_preorder : PreOrder tame.
Proof.
  split; [by intros g Hg|]. intros x y z A C Hz. destruct (C Hz) as [Hy Ly]. destruct (A Hy). split; [done|congruence].
Qed.

Lemma idle_step g0 g g' : idle g g' -> idle g0 g -> idle g0 g'.
Proof. intros A C. by transitivity g. Qed.

Lemma tame_step g0 g g' : tame g g' -> tame g0 g -> tame g0 g'.
Proof. intros A C. by transitivity g. Qed.

Lemma tame_idle g g' : idle g g' -> tame g g'.
Proof. intros (R & K & _) Hr. rewrite R in Hr. by rewrite K. Qed.

Lemma idle_frame (f : otab L B -> otab L B) g :
  (forall x, role (tb (f x)) = role (tb x) /\ lockHeld (tb (f x)) = lockHeld (tb x) /\ tabId (tb (f x)) = tabId (tb x)) ->
  idle g (f g).
Proof. intros Hf. apply Hf. Qed.

Lemma idle_on_page f g : idle g (on_page f g).
Proof. by apply (idle_frame (on_page f)). Qed.
Lemma idle_count f g : idle g (count f g).
Proof. by apply (idle_frame (count f)). Qed.
Lemma idle_job j g : idle g (add_job j g).
Proof. by apply (idle_frame (add_job j)). Qed.
Lemma idle_store b g : idle g (set_store b g).
Proof. by apply (idle_frame (set_store b)). Qed.
Lemma idle_post m g : idle g (post m g).
Proof. by apply (idle_frame (post m)). Qed.
Lemma idle_tab f g :
  (forall t : tab L B, role (f t) = role t /\ lockHeld (f t) = lockHeld t /\ tabId (f t) = tabId t) -> idle g (on_tab f g).
Proof. intros Hf. apply (idle_frame (on_tab f)). intros x. apply Hf. Qed.
Lemma tame_tab f g : (forall t : tab L B, role (f t) = role t /\ lockHeld (f t) = lockHeld t) -> tame g (on_tab f g).
Proof. intros Hf Hr. destruct (Hf (tb g)) as [R K]. cbn in *. rewrite R in Hr. by rewrite K. Qed.
Lemma tame_light r g : r <> "heavy" -> tame g (on_tab (set_role r) g).
Proof. by intros Hr Hx. Qed.
End Tame.

Create HintDb idle discriminated.
Create HintDb tame discriminated.
#[export] Hint Constants Opaque : idle tame.
#[export] Hint Resolve idle_on_page idle_count idle_job idle_store idle_post : idle.

Ltac idle1 :=
  lazymatch goal with
  | |- idle ?g ?g => reflexivity
  | |- idle _ (on_tab _ _) => eapply idle_step; [apply idle_tab; done|]
  | |- idle _ _ => first [eassumption | eapply idle_step; [solve [eauto with idle]|]]
  end.
Ltac idles := chain ltac:(progress idle1).
Tactic Notation "idles_of" reference(f) := cbv delta [f]; cbv beta; idles.

Ltac tame1 :=
  lazymatch goal with
  | |- tame ?g ?g => reflexivity
  | |- tame _ (on_tab (set_role _) _) => eapply tame_step; [apply tame_light; assumption|]
  | |- tame _ (on_tab _ _) => eapply tame_step; [apply tame_tab; done|]
  | |- tame _ _ =>
    first [eassumption
          | eapply tame_step; [solve [eauto with tame]|]
          | eapply tame_step; [apply tame_idle; solve [eauto with idle]|]]
  end.
Ltac tames := chain ltac:(progress tame1).
Tactic Notation "tames_of" reference(f) := cbv delta [f]; cbv beta; tames.

Section Handlers.
Context {L B : Type} `{Loader L} `{Browser B}.
Variable e : genv.
Implicit Types g : otab L B.

Lemma idle_set_gvar k v g : idle g (set_gvar k v g).
Proof. idles_of set_gvar. Qed.
#[local] Hint Resolve idle_set_gvar : idle.

Lemma idle_writeJson k v g : idle g (writeJson k v g).
Proof. idles_of writeJson. Qed.
Lemma idle_clearKey k g : idle g (clearKey k g).
Proof. idles_of clearKey. Qed.
Lemma idle_ops c d s g : idle g (ops c d s g).
Proof. idles_of ops. Qed.
Lemma idle_gtimeline ev d g : idle g (gtimeline e ev d g).
Proof. idles_of gtimeline. Qed.
Lemma idle_broadcast m g : idle g (broadcast e m g).
Proof. idles_of broadcast. Qed.
Lemma idle_publishRole g : idle g (publishRole e g).
Proof. idles_of publishRole. Qed.
Lemma idle_tick g : idle g (tick e g).
Proof. idles_of tick. Qed.
#[local] Hint Resolve idle_writeJson idle_clearKey idle_ops idle_gtimeline idle_broadcast idle_publishRole idle_tick : idle.

Lemma idle_touchPeer g : idle g (touchPeer e g).
Proof. idles_of touchPeer. Qed.
Lemma idle_dropPeer g : idle g (dropPeer e g).
Proof. idles_of dropPeer. Qed.
Lemma idle_writeLease x g : idle g (writeLease e x g).
Proof. idles_of writeLease. Qed.
Lemma idle_clearMyLease g : idle g (clearMyLease g).
Proof. idles_of clearMyLease. Qed.
Lemma idle_writeProgress p g : idle g (writeProgress e p g).
Proof. idles_of writeProgress. Qed.
#[local] Hint Resolve idle_touchPeer idle_dropPeer idle_writeLease idle_clearMyLease idle_writeProgress : idle.

Lemma idle_storage_claim why g : idle g (storage_claim e why g).
Proof. idles_of storage_claim. Qed.

(** *** Roles *)

Lemma setRole_role r why g :
  role (tb (setRole e r why g)) = valid_role r /\ lockHeld (tb (setRole e r why g)) = lockHeld (tb g) /\
  tabId (tb (setRole e r why g)) = tabId (tb g).
Proof.
  unfold setRole. destruct (role (tb g) =s valid_role r) eqn:E.
  - apply String.eqb_eq in E. rewrite <- E. apply idle_publishRole.
  - set (g1 := on_tab (set_role (valid_role r)) g).
    match goal with |- role (tb ?x) = _ /\ _ => assert (idle g1 x) as (R & K & T) end.
    { idle1. idle1. idle1. idle1. idle1. idle1. idle1. }
    rewrite R, K, T. done.
Qed.

Lemma tame_setRole r why g : valid_role r <> "heavy" -> tame g (setRole e r why g).
Proof. intros Hr Hx. destruct (setRole_role r why g) as (Hv & _). congruence. Qed.

Lemma tame_to_light why g : tame g (setRole e "light" why g).
Proof. by apply tame_setRole. Qed.
#[local] Hint Resolve tame_to_light : tame.

(** A tab that releases is not heavy. *)
Lemma releaseHeavy_role why g : role (tb (releaseHeavy e why g)) <> "heavy".
Proof.
  unfold releaseHeavy. cbv zeta.
  match goal with |- context [if role (tb ?x) =s "heavy" then _ else _] => set (g1 := x) end.
  set (g2 := if role (tb g1) =s "heavy" then _ else _).
  destruct (idle_broadcast [("type", VStr "lease_free"); ("why", VStr (sor why "release")); ("tab", tab_val g2)] g2) as [-> _].
  subst g2. destruct (role (tb g1) =s "heavy") eqn:E; [|by apply String.eqb_neq].
  by destruct (setRole_role "light" (sor why "release") g1) as [-> _].
Qed.

Lemma tame_releaseHeavy why g : tame g (releaseHeavy e why g).
Proof. intros Hr. by apply releaseHeavy_role in Hr. Qed.
#[local] Hint Resolve tame_releaseHeavy : tame.

Lemma becomeHeavy_role why g :
  role (tb (becomeHeavy e why g)) = "heavy" /\ lockHeld (tb (becomeHeavy e why g)) = true /\
  tabId (tb (becomeHeavy e why g)) = tabId (tb g).
Proof.
  unfold becomeHeavy. cbv zeta. set (w := sor why "acquire"). set (g1 := writeLease e _ g).
  set (g2 := setRole e "heavy" w (on_tab (set_lockHeld true) g1)).
  assert (idle g2 (count inc_heavy (writeProgress e [("role", VStr "heavy"); ("phase", VStr "heavy_start")] g2)))
    as (-> & -> & ->) by idles.
  destruct (setRole_role "heavy" w (on_tab (set_lockHeld true) g1)) as (R & K & T). subst g2. rewrite R, K, T. cbn.
  destruct (idle_writeLease [("why", VStr w)] g) as (_ & _ & T'). subst g1. by rewrite T'.
Qed.

(** *** Handoffs *)

Lemma idle_fold {A} (f : otab L B -> A -> otab L B) (l : list A) g :
  (forall x g, idle g (f g x)) -> idle g (fold_left f l g).
Proof.
  intros Hf. revert g. induction l as [|x l IH]; intros g; [done|]. cbn. eapply idle_step; [apply IH|apply Hf].
Qed.

Lemma idle_want bid f r g : idle g (want bid f r g).
Proof. idles_of want. Qed.
#[local] Hint Resolve idle_want : idle.

Lemma idle_assist up r g : idle g (kickUploadAssist e up r g).
Proof.
  unfold kickUploadAssist. destruct (Nat.eqb _ _); [done|]. cbv zeta.
  eapply idle_step; [apply idle_tick|]. eapply idle_step; [apply idle_fold|].
  - intros x g'. destruct (truthy x); idles.
  - eapply idle_step; [apply idle_on_page|]. apply idle_fold. intros. idles.
Qed.
#[local] Hint Resolve idle_assist : idle.

Lemma idle_kickHeavyWork r g : idle g (kickHeavyWork e r g).
Proof. idles_of kickHeavyWork. Qed.
#[local] Hint Resolve idle_kickHeavyWork : idle.

Lemma idle_clearHandoff why g : idle g (clearHandoff e why g).
Proof. idles_of clearHandoff. Qed.
Lemma idle_writeDurableHandoff u why up g : idle g (writeDurableHandoff e u why up g).
Proof. idles_of writeDurableHandoff. Qed.
#[local] Hint Resolve idle_clearHandoff idle_writeDurableHandoff : idle.

Lemma idle_stale_handoff t g : idle g (stale_handoff e t g).
Proof. idles_of stale_handoff. Qed.
Lemma idle_mirror_handoff m g : idle g (mirror_handoff e m g).
Proof. idles_of mirror_handoff. Qed.
#[local] Hint Resolve idle_stale_handoff idle_mirror_handoff : idle.

Lemma idle_snapshot g : idle g (fst (snapshot_gaps e g)).
Proof. unfold snapshot_gaps. destruct (snapshot_rows _ _) as [h out]. by apply idle_tab. Qed.
#[local] Hint Resolve idle_snapshot : idle.

Lemma idle_collectUnfinished g : idle g (fst (collectUnfinished e g)).
Proof. idles_of collectUnfinished. Qed.
#[local] Hint Resolve idle_collectUnfinished : idle.

(** *** With Web Locks *)

Hypothesis Hlocks : g_locks e = true.

Lemma tame_tryAcquire why k g : tame g (tryAcquireHeavy e why k g).
Proof. unfold tryAcquireHeavy, resolve. rewrite Hlocks. tames. Qed.
#[local] Hint Resolve tame_tryAcquire : tame.

Lemma tame_maybeUpgrade g : tame g (maybeUpgrade e g).
Proof. tames_of maybeUpgrade. Qed.
Lemma tame_processHandoff src g : tame g (processHandoff e src g).
Proof. tames_of processHandoff. Qed.
#[local] Hint Resolve tame_maybeUpgrade tame_processHandoff : tame.

Lemma tame_after_handoff ok src t g : tame g (after_handoff e ok src t g).
Proof. tames_of after_handoff. Qed.
#[local] Hint Resolve tame_after_handoff : tame.

Lemma tame_run_cont ok k g : tame g (run_cont e ok k g).
Proof. tames_of run_cont. Qed.
Lemma tame_heartbeat g : tame g (heartbeat e g).
Proof. tames_of heartbeat. Qed.
Lemma tame_watch g : tame g (watch e g).
Proof. tames_of watch. Qed.
Lemma tame_on_progress m g : tame g (on_progress e m g).
Proof. tames_of on_progress. Qed.
Lemma tame_on_handoff m g : tame g (on_handoff e m g).
Proof. tames_of on_handoff. Qed.
#[local] Hint Resolve tame_run_cont tame_heartbeat tame_watch tame_on_progress tame_on_handoff : tame.

Lemma tame_onMessage m g : tame g (onMessage e m g).
Proof. tames_of onMessage. Qed.
Lemma tame_onPageHide g : tame g (onPageHide e g).
Proof. tames_of onPageHide. Qed.
#[local] Hint Resolve tame_onMessage tame_onPageHide : tame.

Lemma tame_mint g : tame g (snd (mintTabId e g)).
Proof. unfold mintTabId. cbv zeta. destruct (_ <>s _); [done|]. destruct (ss_set _ _ _); [|done]. by apply tame_tab. Qed.

Lemma tame_start c why g : tame g (start e c why g).
Proof.
  cbv delta [start]. cbv beta. chain_step ltac:(tames); [reflexivity|]. chain_step ltac:(tames).
  match goal with |- context [mintTabId e ?x] =>
    pose proof (tame_mint x) as T; destruct (mintTabId e x) as [id g1]; cbn [snd] in T;
    assert (tame g g1) by (by transitivity x) end.
  tames.
Qed.
Lemma tame_stop why g : tame g (stop e why g).
Proof. tames_of stop. Qed.
Lemma tame_onVisible g : tame g (onVisible e g).
Proof. tames_of onVisible. Qed.
Lemma tame_onStorage key g : tame g (onStorage e key g).
Proof. tames_of onStorage. Qed.
End Handlers.
#[export] Hint Resolve idle_set_gvar
  idle_writeJson idle_clearKey idle_ops idle_gtimeline idle_broadcast idle_publishRole idle_tick
  idle_touchPeer idle_dropPeer idle_writeLease idle_clearMyLease idle_writeProgress
  idle_want
  idle_assist
  idle_kickHeavyWork
  idle_clearHandoff idle_writeDurableHandoff
  idle_stale_handoff idle_mirror_handoff
  idle_snapshot
  idle_collectUnfinished : idle.
#[export] Hint Resolve tame_to_light
  tame_releaseHeavy
  tame_tryAcquire
  tame_maybeUpgrade tame_processHandoff
  tame_after_handoff
  tame_run_cont tame_heartbeat tame_watch tame_on_progress tame_on_handoff
  tame_onMessage tame_onPageHide
  tame_start tame_stop tame_onVisible tame_onStorage : tame.

(** ** The tabs of an origin *)

Section System.
Context {L B : Type} `{Loader L} `{Browser B}.

(** A tab of the origin, with its jobs and the messages it has not handled. *)
Record seat := mkSeat { st : tab L B; sjobs : list job; inbox : list val }.

(** [holder] is the tab that holds the lock; a closed tab is [None]. *)
Record origin := mkOrigin { shared : B; holder : option nat; seats : list (option seat) }.

(** The entry points of a tab: the timers, the listeners and the API. *)
Inductive call :=
| CStart (cycle why : string)
| CStop (why : string)
| CBeat
| CWatch
| CVisible
| CStorage (key : string)
| CPageHide
| CAcquire (why : string)
| CRelease (why : string)
| CProcess (source : string)
| CClear (why : string)
| CProgress (patch : list (string * val)).

Definition run_call (e : genv) (c : call) (g : otab L B) : otab L B :=
  match c with
  | CStart cycle why => start e cycle why g
  | CStop why => stop e why g
  | CBeat => if timers (tb g) then heartbeat e g else g
  | CWatch => if timers (tb g) then watch e g else g
  | CVisible => onVisible e g
  | CStorage key => onStorage e key g
  | CPageHide => onPageHide e g
  | CAcquire why => tryAcquireHeavy e why AfterCall g
  | CRelease why => releaseHeavy e why g
  | CProcess source => processHandoff e source g
  | CClear why => clearHandoff e why g
  | CProgress patch => writeProgress e patch g
  end.

(** A call, a due job or one whose lock request fails, the delivery of a
    message, the poll that frees the lock, the end of the tab, and what other
    scripts do to the store and the page. *)
Inductive act :=
| Call (c : call)
| Job (n : nat)
| JobFails (n : nat)
| Deliver (n : nat)
| Unlock
| Close
| OthersStore (b : B)
| OthersPage (p : heal L).

Definition view (s : seat) (o : origin) : otab L B := mkOtab (st s) (shared o) [] (sjobs s).

Definition put_seat (i : nat) (g : otab L B) (mail : list val) (hold : option nat) (o : origin) : origin :=
  mkOrigin (store g) hold
    (imap (fun j x => if Nat.eqb j i then Some (mkSeat (tb g) (jobs g) mail)
                      else option_map (fun s => if bc (st s) then mkSeat (st s) (sjobs s) (inbox s ++ sent g) else s) x)
          (seats o)).

Definition drop_nth {A} (n : nat) (l : list A) : list A := firstn n l ++ List.skipn (S n) l.

Definition run_job (e : genv) (fails : bool) (i : nat) (j : job) (g : otab L B) (hold : option nat) : otab L B * option nat :=
  match j with
  | Request why k =>
    if fails then (lock_failed e why k g, hold) else
    match hold with
    | None => let '(g', kept) := lock_granted e why k g in (g', if kept then Some i else None)
    | Some _ => (lock_busy e k g, hold)
    end
  | Settled ok k => (run_cont e ok k g, hold)
  | Delayed => (processHandoff e "start" g, hold)
  end.

Definition ostep (o : origin) (p : genv * nat * act) : origin :=
  let '(e, i, a) := p in
  match seats o !! i with
  | Some (Some s) =>
    let job_step fails n :=
      match nth_error (sjobs s) n with
      | Some j =>
        let '(g, hold) := run_job e fails i j (mkOtab (st s) (shared o) [] (drop_nth n (sjobs s))) (holder o) in
        put_seat i g (inbox s) hold o
      | None => o
      end in
    match a with
    | Call c => put_seat i (run_call e c (view s o)) (inbox s) (holder o) o
    | Job n => job_step false n
    | JobFails n => job_step true n
    | Deliver n =>
      match nth_error (inbox s) n with
      | Some m => put_seat i (onMessage e m (view s o)) (drop_nth n (inbox s)) (holder o) o
      | None => o
      end
    | Unlock =>
      if bool_decide (holder o = Some i) && hold_ends (st s) then mkOrigin (shared o) None (seats o) else o
    | Close =>
      mkOrigin (shared o) (if bool_decide (holder o = Some i) then None else holder o) (<[i := None]> (seats o))
    | OthersStore b => mkOrigin b (holder o) (seats o)
    | OthersPage p => put_seat i (on_page (fun _ => p) (view s o)) (inbox s) (holder o) o
    end
  | _ => o
  end.

Definition orun (evs : list (genv * nat * act)) (o : origin) : origin := fold_left ostep evs o.

Definition heavy_at (o : origin) (i : nat) : Prop :=
  exists s, seats o !! i = Some (Some s) /\ role (st s) = "heavy".

(** A heavy tab holds the lock, and its poll would not free it. *)
Definition exclusive (o : origin) : Prop :=
  forall i s, seats o !! i = Some (Some s) -> role (st s) = "heavy" -> holder o = Some i /\ lockHeld (st s) = true.

(** Every tab has Web Locks and no request fails. *)
Definition locked_event (p : genv * nat * act) : Prop :=
  let '(e, _, a) := p in g_locks e = true /\ forall n, a <> JobFails n.

Lemma put_seat_at i g mail hold o j s :
  seats (put_seat i g mail hold o) !! j = Some (Some s) ->
  (j = i /\ st s = tb g) \/ (j <> i /\ exists s0, seats o !! j = Some (Some s0) /\ st s = st s0).
Proof.
  unfold put_seat. cbn. rewrite list_lookup_imap. destruct (seats o !! j) as [x|] eqn:E; [|discriminate]. cbn.
  destruct (Nat.eqb_spec j i) as [->|Hj]; [intros [= <-]; by left|]. destruct x as [s0|]; [|discriminate]. cbn.
  intros [= <-]. right. split; [done|]. exists s0. split; [done|]. by destruct (bc (st s0)).
Qed.

(** A handler that does not acquire keeps the exclusion. *)
Lemma exclusive_tame i s g0 g mail o :
  exclusive o -> seats o !! i = Some (Some s) -> tb g0 = st s -> tame g0 g ->
  exclusive (put_seat i g mail (holder o) o).
Proof.
  intros Hex Hs Hg Ht j s' Hj Hr. apply put_seat_at in Hj as [[-> E]|(Hne & s0 & Hj & E)]; rewrite E in *.
  - destruct (Ht Hr) as [Hr0 Hl]. rewrite Hg in *. destruct (Hex i s Hs Hr0) as [Hh Hk]. by rewrite Hl, Hk.
  - by apply (Hex j s0).
Qed.

Lemma exclusive_job e i s j n mail o :
  exclusive o -> seats o !! i = Some (Some s) -> g_locks e = true ->
  let '(g, hold) := run_job e false i j (mkOtab (st s) (shared o) [] (drop_nth n (sjobs s))) (holder o) in
  exclusive (put_seat i g mail hold o).
Proof.
  intros Hex Hs Hl. set (g0 := mkOtab _ _ _ _). assert (tb g0 = st s) as Hg0 by done. clearbody g0.
  destruct j as [why k|ok k|]; cbn [run_job].
  - destruct (holder o) as [h|] eqn:Eh.
    + rewrite <- Eh. apply (exclusive_tame i s g0); [done|done|done|]. unfold lock_busy, resolve. tames.
    + unfold lock_granted. destruct (other_leader e _ g0).
      * rewrite <- Eh. apply (exclusive_tame i s g0); [done|done|done|]. unfold resolve. tames.
      * set (g1 := on_tab _ g0). destruct (becomeHeavy_role e (sor why "web_lock") g1) as (_ & Hb & _).
        intros j s' Hj Hr. apply put_seat_at in Hj as [[-> E]|(Hne & s0 & Hj & E)]; rewrite E in *; [done|].
        destruct (Hex j s0 Hj Hr). congruence.
  - apply (exclusive_tame i s g0); [done|done|done|]. by apply tame_run_cont.
  - apply (exclusive_tame i s g0); [done|done|done|]. by apply tame_processHandoff.
Qed.

Lemma exclusive_step o p : locked_event p -> exclusive o -> exclusive (ostep o p).
Proof.
  destruct p as [[e i] a]. intros [Hl Hf] Hex. unfold ostep.
  destruct (seats o !! i) as [[s|]|] eqn:Hs; [|done|done].
  destruct a as [c|n|n|n| | |b|p].
  - apply (exclusive_tame i s (view s o)); [done|done|done|]. unfold run_call. 
    destruct c; tames.
  - destruct (nth_error (sjobs s) n) as [j|]; [|done].
    pose proof (exclusive_job e i s j n (inbox s) o Hex Hs Hl) as Hj. by destruct (run_job _ _ _ _ _ _).
  - by destruct (Hf n).
  - destruct (nth_error _ _); [|done]. apply (exclusive_tame i s (view s o)); [done|done|done|]. by apply tame_onMessage.
  - destruct (_ && _) eqn:E; [|done]. apply andb_true_iff in E as [Eh%bool_decide_eq_true Ee].
    intros j s' Hj Hr. cbn in *. destruct (Hex j s' Hj Hr) as [Hh Hk]. rewrite Eh in Hh. injection Hh as ->.
    rewrite Hs in Hj. injection Hj as ->. unfold hold_ends in Ee. by rewrite Hk, Hr in Ee.
  - intros j s' Hj Hr. cbn in *. destruct (decide (i = j)) as [->|Hne].
    + rewrite list_lookup_insert_eq in Hj; [done|]. by apply lookup_lt_Some in Hs.
    + rewrite list_lookup_insert_ne in Hj by done. destruct (Hex j s' Hj Hr) as [Hh Hk].
      rewrite bool_decide_eq_false_2 by congruence. done.
  - intros j s' Hj Hr. cbn in *. by apply (Hex j s').
  - apply (exclusive_tame i s (view s o)); [done|done|done|]. tames.
Qed.

Lemma exclusive_run evs o : List.Forall locked_event evs -> exclusive o -> exclusive (orun evs o).
Proof.
  intros Hf. revert o. unfold orun. induction Hf as [|p evs Hp Hf IH]; intros o Ho; [done|]. cbn. apply IH.
  by apply exclusive_step.
Qed.

(** The tabs just opened. *)
Definition opened (b : B) (pages : list (B * heal L)) : origin :=
  mkOrigin b None (map (fun p => Some (mkSeat (tab0 (fst p) (snd p)) [] [])) pages).

Lemma opened_exclusive b pages : exclusive (opened b pages).
Proof.
  intros i s Hs Hr. unfold opened in Hs. cbn in Hs. rewrite list_lookup_fmap in Hs.
  destruct (pages !! i); [|discriminate]. injection Hs as <-. discriminate.
Qed.
End System.

(** ** Tickets through the store *)

Section Tickets.
Context {L B : Type} `{Loader L} `{BrowserLaws B}.
Variable e : genv.
Implicit Types g : otab L B.

Lemma read_write_eq k v g : json_ok v = true -> ls_ok (store g) = true -> readJson k (writeJson k v g) = v.
Proof.
  intros Hv Hs. destruct (json_round_trip v Hv) as (t & Ht & Hp). destruct (ls_ok_law (store g) Hs k t) as [[b' Hb] _].
  unfold writeJson. rewrite Ht. cbn. rewrite Hb. unfold readJson. cbn.
  destruct (ls_set_law _ _ _ _ Hb) as [Hg _]. rewrite Hg, String.eqb_refl.
  destruct (String.eqb_spec t "") as [->|]; [by vm_compute in Hp|]. by rewrite Hp.
Qed.

Lemma read_write_ne k k' v g : k <> k' -> readJson k' (writeJson k v g) = readJson k' g.
Proof.
  intros Hk. unfold writeJson. destruct (json_stringify v) as [t|]; cbn; [|done].
  destruct (ls_set k t (store g)) as [b'|] eqn:E; [|done]. unfold readJson. cbn.
  destruct (ls_set_law _ _ _ _ E) as [Hg _]. rewrite Hg. apply String.eqb_neq in Hk. by rewrite Hk.
Qed.

Lemma read_clear_ne k k' g : k <> k' -> readJson k' (clearKey k g) = readJson k' g.
Proof.
  intros Hk. unfold clearKey. destruct (ls_remove k (store g)) as [b'|] eqn:E; [|done]. unfold readJson. cbn.
  destruct (ls_remove_law _ _ _ E) as [Hg _]. rewrite Hg. apply String.eqb_neq in Hk. by rewrite Hk.
Qed.

Lemma json_ok_strs l : json_ok (strs l) = true.
Proof. unfold strs. cbn. induction l; cbn; auto. Qed.

Lemma json_ok_arr v k : json_ok v = true -> forallb json_ok (arr (prop v k)) = true.
Proof. intros Hv. destruct (json_ok_prop v k Hv) as [-> | Hk]; [done|]. by destruct (prop v k). Qed.

Lemma merge_new_ok l p : forallb json_ok p = true -> forallb json_ok l = true -> forallb json_ok (merge_new p l) = true.
Proof.
  unfold merge_new. revert p. induction l as [|u l IH]; intros p Hp Hl; [done|]. cbn in *.
  apply andb_true_iff in Hl as [Hu Hl]. apply IH; [|done].
  assert (forallb json_ok (p ++ [u]) = true) by (rewrite forallb_app, Hp; cbn; by rewrite Hu).
  destruct u; auto. by destruct (existsb _ p).
Qed.

Lemma merge_new_prev l p x : In x p -> In x (merge_new p l).
Proof.
  unfold merge_new. revert p. induction l as [|u l IH]; intros p Hx; [done|]. cbn. apply IH.
  assert (In x (p ++ [u])) by (apply in_or_app; by left). destruct u; auto. by destruct (existsb _ p).
Qed.

(** Every string merged is there. *)
Lemma merge_new_in l p s : In (VStr s) l -> In (VStr s) (merge_new p l).
Proof.
  unfold merge_new. revert p. induction l as [|u l IH]; intros p Hx; [done|]. cbn in *. destruct Hx as [->|Hx]; [|by apply IH].
  apply (merge_new_prev l). destruct (existsb (fun x => is_str x s) p) eqn:E.
  - apply existsb_exists in E as (x & Hx & Hs). destruct x; try done. cbn in Hs. apply String.eqb_eq in Hs. by subst.
  - apply in_or_app. right. by left.
Qed.

(** The ticket is a JSON value that keeps the unfinished batches, the page's
    and those of the ticket of the same cycle it replaces. *)
Lemma ticket_ok u why up g t : handoff_ticket e u why up g = Some t ->
  json_ok (readHandoff g) = true ->
  (truthy (prop (readHandoff g) "claimed_by") = true -> json_ok (prop (readHandoff g) "claimed_at") = true) ->
  json_ok (VObj t) = true /\
  (serverHasB10 g = false -> forall x, In x u -> In (VStr x) (arr (prop (VObj t) "unfinished"))) /\
  (length (arr (prop (VObj t) "upload_pending")) <= 24)%nat /\
  (handoffIsActionable e (readHandoff g) g = true -> same_cycle (prop (readHandoff g) "cycle") (VStr (sid g)) = true ->
   forall x, In x (arr (prop (readHandoff g) "unfinished")) -> In x (arr (prop (VObj t) "unfinished"))).
Proof.
  unfold handoff_ticket. set (prev := readHandoff g).
  destruct (negb _ && negb _) eqn:E; [discriminate|]. clear E.
  set (needC := negb (Nat.eqb (length u) 0) && negb (serverHasB10 g)).
  set (needU := negb (Nat.eqb (length up) 0)).
  set (un := if needC then u else []). set (ul := if needU then firstn 24 up else []).
  assert (length ul <= 24)%nat as Hlen by (subst ul; destruct needU; [apply firstn_le_length|cbn; lia]).
  assert (serverHasB10 g = false -> forall x, In x u -> In x un) as Hun.
  { intros Hb x Hx. subst un needC. rewrite Hb. destruct u; [done|]. exact Hx. }
  clearbody un ul. set (base := _ :: _ :: _).
  assert (json_ok (VObj base) = true) as Hbase.
  { subst base. cbn [json_ok map fst distinct mem_str existsb]. 
    assert (json_ok (tab_val g) = true) as Ht by (unfold tab_val; by destruct (tabId (tb g))).
    cbn [forallb snd json_ok]. rewrite Ht, !json_ok_strs. reflexivity. }
  assert (prop (VObj base) "unfinished" = strs un) as Eun by reflexivity.
  assert (prop (VObj base) "upload_pending" = strs ul) as Eup by reflexivity.
  assert (forall l x, In x l -> In (VStr x) (arr (strs l))) as Hin by (intros; cbn; by apply in_map).
  clearbody base. rewrite Eun, Eup. intros Ht Hprev Hcl.
  destruct (truthy prev && _ && _) eqn:Ec.
  - set (mu := VArr (merge_new (arr (prop prev "unfinished")) (arr (strs un)))) in *.
    set (mp := VArr (firstn 24 (merge_new (arr (prop prev "upload_pending")) (arr (strs ul))))) in *.
    assert (json_ok mu = true) as Hmu by (apply merge_new_ok; [by apply json_ok_arr|apply (json_ok_strs un)]).
    assert (json_ok mp = true) as Hmp.
    { apply forallb_forall. intros x Hx. assert (forallb json_ok (merge_new (arr (prop prev "upload_pending")) (arr (strs ul))) = true)
        as Hf by (apply merge_new_ok; [by apply json_ok_arr|apply (json_ok_strs ul)]).
      rewrite forallb_forall in Hf. apply Hf. rewrite <- (firstn_skipn 24). apply in_or_app. by left. }
    set (t2 := obj_put "upload_pending" mp (obj_put "unfinished" mu base)) in *.
    assert (json_ok (VObj t2) = true) as Ht2 by (by apply json_ok_put; [apply json_ok_put|]).
    assert (json_ok (VObj t) = true /\ prop (VObj t) "unfinished" = mu /\ prop (VObj t) "upload_pending" = mp) as (Hok & Pu & Pp).
    { assert (prop (VObj t2) "unfinished" = mu /\ prop (VObj t2) "upload_pending" = mp) as [A C].
      { subst t2. by rewrite prop_put_ne, !prop_put_eq by discriminate. }
      destruct (truthy (prop prev "claimed_by") && _) eqn:Eb; injection Ht as <-; [|done].
      apply andb_true_iff in Eb as [Eb _]. rewrite !prop_put_ne by discriminate. split; [|done].
      apply json_ok_put; [apply json_ok_put; [done|]|by apply Hcl].
      destruct (json_ok_prop prev "claimed_by" Hprev) as [Eu|]; [by rewrite Eu in Eb|done]. }
    rewrite Pu, Pp. split; [done|]. split; [|split].
    + intros Hb x Hx. cbn. apply merge_new_in. apply Hin. by apply Hun.
    + cbn. apply firstn_le_length.
    + intros _ _ x Hx. cbn. by apply merge_new_prev.
  - injection Ht as <-. rewrite Eun, Eup. split; [done|]. split; [|split].
    + intros Hb x Hx. apply Hin. by apply Hun.
    + cbn. by rewrite length_map.
    + intros Ha Hs x Hx. exfalso. rewrite Ha, Hs in Ec. cbn in Ec. rewrite !andb_true_r in Ec.
      unfold handoffIsActionable in Ha. by rewrite Ec in Ha.
Qed.

Lemma written_ticket u why up g t : handoff_ticket e u why up g = Some t ->
  readHandoff (writeDurableHandoff e u why up g) = readHandoff (writeJson LS_HANDOFF (VObj t) g).
Proof.
  intros Ht. unfold writeDurableHandoff. rewrite Ht. unfold readHandoff, readJson.
  match goal with |- context [if has_items ?x then _ else _] => by destruct (has_items x) end.
Qed.

(** A ticket another live tab has claimed is not for this tab. *)
Lemma claimed_not_actionable t g : need_collect t g = true -> claimed_elsewhere e t g = true ->
  handoffIsActionable e t g = false.
Proof.
  intros Hn Hc. unfold handoffIsActionable. destruct (negb (truthy t)); [done|]. destruct (_ || expired e t); [done|].
  rewrite Hn, Hc. cbn. done.
Qed.

Lemma heartbeat_idle g : role (tb g) = "heavy" -> idle g (heartbeat e g).
Proof.
  intros Hr. unfold heartbeat. cbv zeta. set (g1 := on_page (applyAdaptivePolicy (g_h e) true) _).
  assert (idle g g1) as K by (subst g1; idles). clearbody g1. destruct K as (R & K & T). rewrite R, Hr. cbn.
  assert (idle g g1) as K0 by done. destruct (_ && _); idles.
Qed.
End Tickets.

(** ** Properties *)

Section Properties.
Context {L B : Type} `{Loader L} `{BrowserLaws B}.

(** C4: Where every tab has Web Locks and no request fails, at most one tab of the origin is
    heavy, whatever the calls, timers, messages, jobs, closed tabs and frozen clocks, and
    whatever other scripts write to the shared store and do to the pages. *)
Theorem heavy_exclusive evs (b : B) (pages : list (B * heal L)) i j :
  List.Forall locked_event evs -> i <> j ->
  heavy_at (orun evs (opened b pages)) i -> ~ heavy_at (orun evs (opened b pages)) j.
Proof.
  intros Hl Hij (s & Hs & Hr) (s' & Hs' & Hr').
  pose proof (exclusive_run evs _ Hl (opened_exclusive b pages)) as Hex.
  destruct (Hex i s Hs Hr) as [Hi _]. destruct (Hex j s' Hs' Hr') as [Hj _]. congruence.
Qed.

Definition is_beat (p : genv * nat * act (L := L) (B := B)) : Prop := snd p = Call CBeat.

Lemma beat_keeps o p i : is_beat p -> heavy_at o i -> heavy_at (ostep o p) i.
Proof.
  destruct p as [[e k] a]. unfold is_beat. cbn. intros -> (s & Hs & Hr). unfold ostep.
  destruct (seats o !! k) as [[s0|]|] eqn:Hk; [|by exists s..]. unfold heavy_at, put_seat. cbn.
  rewrite list_lookup_imap, Hs. cbn. destruct (Nat.eqb_spec i k) as [->|Hne]; eexists; (split; [done|]); cbn.
  - rewrite Hs in Hk. injection Hk as ->. destruct (timers (st s0)); [|done].
    by rewrite (proj1 (heartbeat_idle e (view s0 o) Hr)).
  - by destruct (bc (st s)).
Qed.

(** Two tabs that are heavy at the same time stay heavy over any sequence of heartbeats:
    a heavy tab renews the lease without looking whether it still owns it.  Without Web
    Locks a leader whose timers were delayed past the lease's six seconds makes such a
    pair. *)
Theorem split_brain_persists evs (o : origin) i j :
  heavy_at o i -> heavy_at o j -> List.Forall is_beat evs ->
  heavy_at (orun evs o) i /\ heavy_at (orun evs o) j.
Proof.
  intros Hi Hj Hf. unfold orun. revert o Hi Hj. induction Hf as [|p evs Hp Hf IH]; intros o Hi Hj; [done|].
  cbn. apply IH; by apply beat_keeps.
Qed.

(** C31: The ticket a closing tab writes is the one the survivors read back; it names all its
    unfinished batches and all those of an open ticket of the same cycle, and at most 24
    pending uploads. *)
Theorem handoff_round_trip e (g : otab L B) u why up t :
  handoff_ticket e u why up g = Some t -> ls_ok (store g) = true -> json_ok (readHandoff g) = true ->
  (truthy (prop (readHandoff g) "claimed_by") = true -> json_ok (prop (readHandoff g) "claimed_at") = true) ->
  readHandoff (writeDurableHandoff e u why up g) = VObj t /\
  (serverHasB10 g = false -> forall x, In x u -> In (VStr x) (arr (prop (VObj t) "unfinished"))) /\
  (handoffIsActionable e (readHandoff g) g = true -> same_cycle (prop (readHandoff g) "cycle") (VStr (sid g)) = true ->
   forall x, In x (arr (prop (readHandoff g) "unfinished")) -> In x (arr (prop (VObj t) "unfinished"))) /\
  (length (arr (prop (VObj t) "upload_pending")) <= 24)%nat.
Proof.
  intros Ht Hs Hp Hc. destruct (ticket_ok e u why up g t Ht Hp Hc) as (Hok & Hu & Hl & Hm).
  split; [|by repeat split]. rewrite (written_ticket e u why up g t Ht). by apply read_write_eq.
Qed.

(** A ticket whose claimer holds a live lease, or claimed it less than 15 s ago under
    another live leader, is left alone by every other tab: nothing of the tab, its page or
    the store changes. *)
Theorem claimed_ticket_left e source (g : otab L B) :
  need_collect (readHandoff g) g = true -> claimed_elsewhere e (readHandoff g) g = true ->
  processHandoff e source g = g.
Proof.
  intros Hn Hc. unfold processHandoff. destruct (claimingHandoff (tb g)); [done|]. cbv zeta.
  rewrite claimed_not_actionable by done. cbn [negb]. unfold stale_handoff. unfold need_collect in Hn.
  apply andb_true_iff in Hn as [Hb _]. apply negb_true_iff in Hb. unfold claimed_elsewhere in Hc. cbv zeta in Hc.
  apply andb_true_iff in Hc as [Hc _]. apply andb_true_iff in Hc as [Hby Hmine]. apply negb_true_iff in Hmine.
  rewrite Hby, Hmine, andb_false_r. cbv zeta. by rewrite Hb.
Qed.
End Properties.

(** ** Two tabs of one origin *)

Module Tabs.
Import SelfHealSpec.Demo.

Definition env_at (locks : bool) (t : Z) (rand : string) : genv :=
  mkGenv (at_ms t) "/" "https://shop.example.com/" locks true rand rand rand.

Definition disk : mem := mkMem (Some ∅) (Some ∅) "shop.example.com" true [].

Definition two : origin (L := loader) (B := mem) := opened disk [(disk, page); (disk, page)].

(** Each tab starts and its jobs run. *)
Definition started (locks : bool) : list (genv * nat * act (L := loader) (B := mem)) :=
  [(env_at locks 1000 "aaaa", 0%nat, Call (CStart "cycle_1" "")); (env_at locks 1000 "aaaa", 0%nat, Job 0);
   (env_at locks 1000 "aaaa", 0%nat, Job 0); (env_at locks 2000 "bbbb", 1%nat, Call (CStart "cycle_1" ""));
   (env_at locks 2000 "bbbb", 1%nat, Job 0); (env_at locks 2000 "bbbb", 1%nat, Job 0)].

(** The first tab's timers stop for eight seconds. *)
Definition delayed (locks : bool) : list (genv * nat * act (L := loader) (B := mem)) :=
  [(env_at locks 9000 "bbbb", 1%nat, Call CBeat); (env_at locks 9000 "bbbb", 1%nat, Job 0);
   (env_at locks 9000 "bbbb", 1%nat, Job 0)].

Definition roles (o : origin (L := loader) (B := mem)) : list string :=
  map (fun x => match x with Some s => role (st s) | None => "closed" end) (seats o).

Example with_locks : roles (orun (started true ++ delayed true) two) = ["heavy"; "light"].
Proof. vm_compute. reflexivity. Qed.

Example without_locks : roles (orun (started false ++ delayed false) two) = ["heavy"; "heavy"].
Proof. vm_compute. reflexivity. Qed.

Definition seat_at (o : origin (L := loader) (B := mem)) (i : nat) : seat :=
  match seats o !! i with Some (Some s) => s | _ => mkSeat (tab0 disk page) [] [] end.

Definition is_heavy_at (o : origin (L := loader) (B := mem)) (i : nat) : bool :=
  match seats o !! i with Some (Some s) => role (st s) =s "heavy" | _ => false end.

Lemma is_heavy_at_ok o i : is_heavy_at o i = true -> heavy_at o i.
Proof.
  unfold is_heavy_at, heavy_at. destruct (seats o !! i) as [[s|]|]; try done. intros Hr. apply String.eqb_eq in Hr.
  by exists s.
Qed.

Definition locked_run : list (genv * nat * act (L := loader) (B := mem)) := started true ++ delayed true.

Definition torn : origin (L := loader) (B := mem) := orun (started false ++ delayed false) two.

Definition beats : list (genv * nat * act (L := loader) (B := mem)) :=
  [(env_at false 9500 "aaaa", 0%nat, Call CBeat); (env_at false 11000 "bbbb", 1%nat, Call CBeat);
   (env_at false 11500 "aaaa", 0%nat, Call CBeat)].

(** The first tab is heavy; the second one is about to close, or sees a ticket
    the first one has claimed. *)
Definition running : origin (L := loader) (B := mem) := orun (started true) two.
Definition late : genv := env_at true 3000 "cccc".

Definition old_ticket : val :=
  VObj [("v", vint 2); ("cycle", VStr "cycle_1"); ("unfinished", strs ["mid.curves"]); ("upload_pending", strs []);
        ("at", vint 2500); ("claimed_by", VNull); ("claimed_at", vint 0)].

Definition closing : otab loader mem := writeJson LS_HANDOFF old_ticket (view (seat_at running 0) running).

Definition claimer : val := tab_val (view (seat_at running 0) running).

Definition watching : otab loader mem :=
  writeJson LS_HANDOFF (old_ticket |> put "claimed_by" claimer |> put "claimed_at" (vint 2900)) (view (seat_at running 1) running).
End Tabs.

Lemma heavy_exclusive_witness :
  heavy_at (orun Tabs.locked_run Tabs.two) 0 /\ ~ heavy_at (orun Tabs.locked_run Tabs.two) 1.
Proof.
  assert (heavy_at (orun Tabs.locked_run Tabs.two) 0) as H0 by (apply Tabs.is_heavy_at_ok; vm_compute; reflexivity).
  split; [exact H0|].
  refine (heavy_exclusive Tabs.locked_run Tabs.disk
    [(Tabs.disk, SelfHealSpec.Demo.page); (Tabs.disk, SelfHealSpec.Demo.page)] 0 1 _ _ H0); [|discriminate].
  repeat constructor; discriminate.
Defined.

Lemma split_brain_persists_witness :
  (heavy_at Tabs.torn 0 /\ heavy_at Tabs.torn 1) /\
  heavy_at (orun Tabs.beats Tabs.torn) 0 /\ heavy_at (orun Tabs.beats Tabs.torn) 1.
Proof.
  assert (heavy_at Tabs.torn 0) as H0 by (apply Tabs.is_heavy_at_ok; vm_compute; reflexivity).
  assert (heavy_at Tabs.torn 1) as H1 by (apply Tabs.is_heavy_at_ok; vm_compute; reflexivity).
  split; [split; [exact H0|exact H1]|]. refine (split_brain_persists Tabs.beats Tabs.torn 0 1 H0 H1 _).
  repeat constructor.
Defined.

Definition closing_ticket : list (string * val) :=
  default [] (handoff_ticket Tabs.late ["B10_hw_curves"] "pagehide" ["B0_bootstrap"] Tabs.closing).

Lemma handoff_round_trip_witness :
  readHandoff (writeDurableHandoff Tabs.late ["B10_hw_curves"] "pagehide" ["B0_bootstrap"] Tabs.closing) = VObj closing_ticket /\
  (serverHasB10 Tabs.closing = false -> forall x, In x ["B10_hw_curves"] ->
     In (VStr x) (arr (prop (VObj closing_ticket) "unfinished"))) /\
  (handoffIsActionable Tabs.late (readHandoff Tabs.closing) Tabs.closing = true ->
   same_cycle (prop (readHandoff Tabs.closing) "cycle") (VStr (sid Tabs.closing)) = true ->
   forall x, In x (arr (prop (readHandoff Tabs.closing) "unfinished")) ->
     In x (arr (prop (VObj closing_ticket) "unfinished"))) /\
  (length (arr (prop (VObj closing_ticket) "upload_pending")) <= 24)%nat.
Proof.
  refine (handoff_round_trip Tabs.late Tabs.closing ["B10_hw_curves"] "pagehide" ["B0_bootstrap"] closing_ticket _ _ _ _).
  - vm_compute. reflexivity.
  - vm_compute. reflexivity.
  - vm_compute. reflexivity.
  - intros Hc. exfalso. vm_compute in Hc. discriminate.
Defined.

(** The open ticket is merged. *)
Example closing_merges :
  prop (VObj closing_ticket) "unfinished" = strs ["mid.curves"; "B10_hw_curves"].
Proof. vm_compute. reflexivity. Qed.

Lemma claimed_ticket_left_witness : processHandoff Tabs.late "watch" Tabs.watching = Tabs.watching.
Proof.
  refine (claimed_ticket_left Tabs.late "watch" Tabs.watching _ _); vm_compute; reflexivity.
Defined.
