(* ===== verification/PackClass.v ===== *)
(** * Resource classes and kick order ([probe/fe/pack_loader.js])

    A pack of collectors holds the classes of hardware it touches; packs of one
    class must not run at the same time.  This file has the packs, the
    custom probes, [resourceClasses] with its normal form, the shuffle of a
    source and the order in which [kickAll] admits its packs. *)

From Stdlib Require Import Permutation Sorting.Sorted.
From S2P Require Import Prelude JsVal.
#[local] Open Scope Z_scope.

(** ** Data *)

(** A pack as the loader reads it: [p.id || p.pack_id], [p.batch_id], the
    class overrides ([resource_classes] or [resourceClasses] when a non-empty
    array, [resource_class || resourceClass]), whether [p.run] is a function,
    the server's [dag_v2] and the [_dagDepTried] mark of the pump. *)
Record lpack := mkLpack {
  p_id : string;
  p_batch : string;
  p_priority : Z;
  p_src : string;
  p_reason : string;
  p_schedule : string;
  p_classes : list string;
  p_class : string;
  p_run : bool;
  p_dag : val;
  p_tried : bool
}.

Definition eta_lpack (p : lpack) : lpack :=
  mkLpack (p_id p) (p_batch p) (p_priority p) (p_src p) (p_reason p) (p_schedule p) (p_classes p) (p_class p)
    (p_run p) (p_dag p) (p_tried p).
Definition set_priority v (p : lpack) : lpack := ltac:(upd eta_lpack p_priority p v).
Definition set_tried v (p : lpack) : lpack := ltac:(upd eta_lpack p_tried p v).

(** [p.id || p.pack_id || p.batch_id] *)
Definition any_id (p : lpack) : string := if p_id p =s "" then p_batch p else p_id p.

(** An entry of [customProbes]. *)
Record custom := mkCustom {
  cu_classes : list string;
  cu_class : string;
  cu_priority : num;
  cu_src : string;
  cu_batch : string;
  cu_schedule : string;
  cu_layer : string
}.

Fixpoint find_custom (id : string) (l : list (string * custom)) : option custom :=
  match l with
  | [] => None
  | (k, c) :: l' => if id =s k then Some c else find_custom id l'
  end.

Fixpoint put_custom (id : string) (c : custom) (l : list (string * custom)) : list (string * custom) :=
  match l with
  | [] => [(id, c)]
  | (k, d) :: l' => if id =s k then (k, c) :: l' else (k, d) :: put_custom id c l'
  end.

(** ** Classes *)

Definition EXCLUSIVE_CLASSES : list string := ["gpu"; "audio"; "rtc"; "cpu"; "nest"; "verify"].

(** [list.indexOf(x)] *)
Fixpoint index_from (i : Z) (x : string) (l : list string) : Z :=
  match l with
  | [] => -1
  | y :: l' => if x =s y then i else index_from (i + 1) x l'
  end.
Definition index_of (x : string) (l : list string) : Z := index_from 0 x l.

(** The rank of a class in the order of acquisition. *)
Definition rank (c : string) : Z := index_of c EXCLUSIVE_CLASSES.

Definition normalizeClass (c : string) : string :=
  let c := lower (if c =s "" then "light" else c) in
  if mem_str c ["gl"; "webgl"; "webgpu"] then "gpu" else
  if mem_str c ["webrtc"; "ice"; "network"] then "rtc" else
  if mem_str c EXCLUSIVE_CLASSES || (c =s "light") then c else "light".

(** [out.sort((a, b) => key(a) - key(b))]: a stable sort. *)
Fixpoint insert_by {A} (key : A -> Z) (x : A) (l : list A) : list A :=
  match l with
  | [] => [x]
  | y :: l' => if key x <? key y then x :: l else y :: insert_by key x l'
  end.
Definition sort_by {A} (key : A -> Z) (l : list A) : list A := fold_left (fun acc x => insert_by key x acc) l [].

(** The loop of [uniqueClasses]; [seen] is what it has pushed. *)
Fixpoint dedup_classes (l out : list string) : list string :=
  match l with
  | [] => out
  | c :: l' =>
    let c := normalizeClass c in
    if (c =s "") || (c =s "light") || mem_str c out then dedup_classes l' out else dedup_classes l' (out ++ [c])
  end.

Definition uniqueClasses (l : list string) : list string :=
  let out := dedup_classes l [] in
  sort_by rank (match out with [] => ["light"] | _ => out end).

Definition is_digit (c : ascii) : bool := let n := N_of_ascii c in ((48 <=? n) && (n <=? 57))%N.

(** [/^X\d{2}/.test(id)] *)
Definition letter_two_digits (x : ascii) (id : string) : bool :=
  match id with
  | String a (String b (String c _)) => Ascii.eqb a x && is_digit b && is_digit c
  | _ => false
  end.

Definition any_in (ws : list string) (s : string) : bool := existsb (fun w => contains w s) ws.

Definition gpu_ids : list string :=
  ["B15_cross_curves"; "B18_webgpu"; "B22_gpu_timer"; "B23_native_canvas_hedge"; "B30_gpu_bandwidth";
   "B84_gpu_bandwidth_ladder"; "B31_shader_numeric"; "B36_raster_msaa"; "B57_canvas_emoji_path";
   "B58_canvas_text_metrics"; "B59_webgl_params_full"; "B60_webgl_extensions_full"].

Definition cpu_ids : list string :=
  ["B2_hardware"; "B17_hw_physical"; "B20_challenge_seed"; "B33_caps_pressure"; "B34_cpu_cache_ladder";
   "B37_thermal_drift_lite"; "B42_thermal_drift_full"; "B47_sab_clock"; "B82_idb_write_ladder";
   "B83_eventloop_signature"].

Definition custom_style (id : string) : bool :=
  letter_two_digits "C" id || starts_with "custom_" id || starts_with "merchant_" id.

Definition custom_class (id : string) : string :=
  let cl := lower id in
  if contains "audio" cl then "audio" else
  if any_in ["webgl"; "gpu"; "canvas"] cl then "gpu" else
  if any_in ["webrtc"; "ice"] cl then "rtc" else
  if any_in ["cpu"; "hw"] cl then "cpu" else "light".

Definition word_class (id : string) : string :=
  let l := lower id in
  if any_in ["webgl"; "webgpu"; "gpu"; "canvas"; "shader"; "raster"; "msaa"] l then "gpu" else
  if contains "audio" l then "audio" else
  if any_in ["webrtc"; "ice"] l then "rtc" else
  if any_in ["hw_"; "thermal"; "cpu"] l then "cpu" else "light".

(** The class of an identifier that no override decides. *)
Definition id_class (id : string) : string :=
  if id =s "" then "light" else
  if letter_two_digits "R" id || contains "spotcheck" id then "verify" else
  if id =s "B7_sandbox" then "nest" else
  if (id =s "B10_hw_curves") || (id =s "mid.curves") then "gpu" else
  if starts_with "B10x_" id || mem_str id gpu_ids then "gpu" else
  if mem_str id ["B46_audio_deep"; "B61_audio_worklet"; "B62_offline_audio_moments"] then "audio" else
  if mem_str id ["B9_network"; "B55_webrtc_ice_deep"] then "rtc" else
  if id =s "B81_webcodecs_bitstream" then "gpu" else
  if mem_str id cpu_ids then "cpu" else
  if custom_style id then custom_class id else word_class id.

Section Classes.
Variable customProbes : list (string * custom).

(** [resourceClasses(id)] *)
Definition resourceClasses_id (id : string) : list string :=
  match (if id =s "" then None else find_custom id customProbes) with
  | Some cp =>
    match cu_classes cp with
    | [] => if cu_class cp =s "" then [id_class id] else [normalizeClass (cu_class cp)]
    | cs => uniqueClasses (map normalizeClass cs)
    end
  | None => [id_class id]
  end.

(** [resourceClasses(p)] *)
Definition resourceClasses (p : lpack) : list string :=
  match p_classes p with
  | [] => if p_class p =s "" then resourceClasses_id (any_id p) else [normalizeClass (p_class p)]
  | cs => uniqueClasses (map normalizeClass cs)
  end.

Definition first_class (cs : list string) : string := match cs with c :: _ => c | [] => "light" end.
Definition resourceClass (p : lpack) : string := first_class (resourceClasses p).

Definition is_light (cs : list string) : bool := match cs with [c] => c =s "light" | _ => false end.
Definition isHardwarePack (p : lpack) : bool := negb (is_light (resourceClasses p)).

(** ** Custom probes *)

(** The argument of [registerCustomProbe]; [run] tells whether it is a function. *)
Record spec := mkSpec {
  s_id : string;
  s_classes : list string;
  s_class : string;
  s_run : bool;
  s_priority : val;
  s_src : string;
  s_batch : string;
  s_schedule : string;
  s_layer : string
}.

Definition nonempty (s d : string) : string := if s =s "" then d else s.

(** [None] is the exception. *)
Definition registerCustomProbe (s : spec) : option (list (string * custom)) :=
  if (s_id s =s "") || negb (s_run s) then None else
  let classes := match s_classes s with
                 | [] => if s_class s =s "" then resourceClasses_id (s_id s) else uniqueClasses [s_class s]
                 | cs => uniqueClasses cs
                 end in
  Some (put_custom (s_id s)
    (mkCustom classes (first_class classes) (if nonnull (s_priority s) then to_num (s_priority s) else num_Z 35)
       (s_src s) (nonempty (s_batch s) (s_id s)) (nonempty (s_schedule s) "dynamic") (nonempty (s_layer s) "custom"))
    customProbes).

Definition listCustomProbes : list (string * list string * num) :=
  map (fun '(k, c) => (k, cu_classes c, cu_priority c)) customProbes.

(** Its priority is an integer for the loader's comparisons. *)
Definition customProbePack (id : string) : option lpack :=
  match find_custom id customProbes with
  | None => None
  | Some c => Some (mkLpack id (cu_batch c) (num_int32 (cu_priority c)) (cu_src c) "" (cu_schedule c) (cu_classes c)
                      (cu_class c) true VUndef false)
  end.
End Classes.

(** ** Order *)

Definition swap {A} (i j : nat) (l : list A) : list A :=
  match l !! i, l !! j with Some x, Some y => <[j := x]> (<[i := y]> l) | _, _ => l end.

(** [0xcbf29ce484222325] as the double it denotes; the first [^=] takes its low
    32 bits. *)
Definition FNV_SEED : Z := 0xcbf29ce484222000.
Definition FNV_PRIME : Z := 0x100000001b3.

(** [h ^ x] and [Math.imul(h, x)] *)
Definition xor32 (a b : Z) : Z := to_int32 (Z.lxor (to_int32 a) (to_int32 b)).
Definition imul (a b : Z) : Z := to_int32 (to_int32 a * to_int32 b).
(** [h << n], [h >>> n] and [h >>> 0] *)
Definition shl32 (a n : Z) : Z := to_int32 (Z.shiftl (to_int32 a) n).
Definition ushr32 (a n : Z) : Z := Z.shiftr (to_int32 a mod 2 ^ 32) n.

Fixpoint fnv (s : string) (h : Z) : Z :=
  match s with
  | EmptyString => h
  | String c s' => fnv s' (imul (xor32 h (Z.of_N (N_of_ascii c))) FNV_PRIME)
  end.

Definition next_h (h : Z) : Z :=
  let h := xor32 h (shl32 h 13) in
  let h := xor32 h (ushr32 h 7) in
  let h := xor32 h (shl32 h 17) in
  ushr32 h 0.

(** The loop from [i] down to 1. *)
Fixpoint fisher_yates {A} (i : nat) (h : Z) (l : list A) : list A :=
  match i with
  | O => l
  | S i' => let h := next_h h in fisher_yates i' h (swap i (Z.to_nat (h mod Z.of_nat (S i))) l)
  end.

Definition shufflePacksForSource {A} (l : list A) (sessionId source : string) : list A :=
  if (length l <=? 1)%nat then l else
  fisher_yates (length l - 1) (fnv (sessionId +:+ "|" +:+ nonempty source "main") FNV_SEED) l.

Definition is_primary (p : lpack) : bool := (p_id p =s "B10_hw_curves") || (p_id p =s "mid.curves").
Definition is_must_land (p : lpack) : bool :=
  (p_reason p =s "edh_b10x_silicon_must_land") || starts_with "B10x_silicon_" (p_id p).

(** [sort((a, b) => (b.priority || 0) - (a.priority || 0))] *)
Definition by_priority (l : list lpack) : list lpack := sort_by (fun p => - p_priority p) l.

(** The primary curves, then the silicon packs, then the rest. *)
Definition lead (l : list lpack) : list lpack :=
  if (length l <=? 1)%nat then l else
  let b10 := List.filter is_primary l in
  let ml := List.filter (fun p => negb (is_primary p) && is_must_land p) l in
  let other := List.filter (fun p => negb (is_primary p) && negb (is_must_land p)) l in
  match b10, ml with [], [] => l | _, _ => b10 ++ by_priority ml ++ other end.

Definition kick_order (shuffle : bool) (sessionId source : string) (l : list lpack) : list lpack :=
  lead (if shuffle && (1 <? length l)%nat then shufflePacksForSource l sessionId source else by_priority l).

(** ** Lemmas *)

(** *** Sorting and permuting *)

Lemma insert_by_perm {A} (key : A -> Z) x l : Permutation (insert_by key x l) (x :: l).
Proof.
  induction l as [|y l IH]; [done|]. simpl. destruct (key x <? key y); [done|].
  rewrite IH. apply perm_swap.
Qed.

Lemma insert_by_sorted {A} (key : A -> Z) x l :
  Sorted (fun a b => key a <= key b) l -> Sorted (fun a b => key a <= key b) (insert_by key x l).
Proof.
  induction 1 as [|y l Hs IH Hd]; simpl; [by repeat constructor|].
  destruct (Z.ltb_spec (key x) (key y)).
  - repeat constructor; [done|done|lia].
  - constructor; [done|]. destruct l as [|z l]; simpl; [by constructor|].
    inversion Hd; subst. destruct (key x <? key z); constructor; lia.
Qed.

Lemma sort_by_aux {A} (key : A -> Z) l acc :
  Sorted (fun a b => key a <= key b) acc ->
  Sorted (fun a b => key a <= key b) (fold_left (fun acc x => insert_by key x acc) l acc) /\
  Permutation (fold_left (fun acc x => insert_by key x acc) l acc) (l ++ acc).
Proof.
  revert acc. induction l as [|x l IH]; intros acc Hs; simpl; [done|].
  destruct (IH _ (insert_by_sorted key x acc Hs)) as [H1 H2]. split; [done|].
  rewrite H2, insert_by_perm. symmetry. apply Permutation_middle.
Qed.

Lemma sort_by_sorted {A} (key : A -> Z) l : Sorted (fun a b => key a <= key b) (sort_by key l).
Proof. apply sort_by_aux. constructor. Qed.

Lemma sort_by_perm {A} (key : A -> Z) l : Permutation (sort_by key l) l.
Proof. unfold sort_by. rewrite (proj2 (sort_by_aux key l [] (Sorted_nil _))). by rewrite app_nil_r. Qed.

Lemma Sorted_weaken {A} (R S : A -> A -> Prop) l : (forall a b, R a b -> S a b) -> Sorted R l -> Sorted S l.
Proof. intros H. induction 1 as [|x l _ IH Hd]; constructor; [done|]. destruct Hd; constructor; auto. Qed.

Lemma swap_perm {A} i j (l : list A) : Permutation (swap i j l) l.
Proof.
  unfold swap. destruct (l !! i) as [x|] eqn:Hi; [|done]. destruct (l !! j) as [y|] eqn:Hj; [|done].
  apply (Permutation_inj _ _). split; [by rewrite !length_insert|].
  pose proof (lookup_lt_Some _ _ _ Hi). pose proof (lookup_lt_Some _ _ _ Hj).
  exists (fun k => if decide (k = i) then j else if decide (k = j) then i else k). split.
  - intros a b. repeat case_decide; congruence.
  - intros k. cbv beta. destruct (decide (k = j)) as [->|Hkj].
    + rewrite list_lookup_insert_eq by (by rewrite length_insert).
      destruct (decide (j = i)) as [->|]; congruence.
    + rewrite list_lookup_insert_ne by congruence. destruct (decide (k = i)) as [->|Hki].
      * by rewrite list_lookup_insert_eq.
      * by rewrite list_lookup_insert_ne by congruence.
Qed.

Lemma fisher_yates_perm {A} i h (l : list A) : Permutation (fisher_yates i h l) l.
Proof.
  revert h l. induction i as [|i IH]; intros h l; [done|]. cbn [fisher_yates]. cbv zeta.
  rewrite IH. apply swap_perm.
Qed.

Lemma shuffle_perm {A} (l : list A) sid src : Permutation (shufflePacksForSource l sid src) l.
Proof. unfold shufflePacksForSource. case_match; [done|]. apply fisher_yates_perm. Qed.

Lemma filter_split {A} (f : A -> bool) (l : list A) :
  Permutation (List.filter f l ++ List.filter (fun x => negb (f x)) l) l.
Proof.
  induction l as [|x l IH]; [done|]. simpl. destruct (f x); simpl.
  - by rewrite IH.
  - by rewrite <- Permutation_middle, IH.
Qed.

Lemma filter_filter {A} (f g : A -> bool) (l : list A) :
  List.filter (fun x => f x && g x) l = List.filter g (List.filter f l).
Proof. induction l as [|x l IH]; [done|]. simpl. destruct (f x); simpl; [destruct (g x); by rewrite IH|done]. Qed.

Lemma lead_groups (l : list lpack) :
  Permutation (List.filter is_primary l ++ List.filter (fun p => negb (is_primary p) && is_must_land p) l ++
               List.filter (fun p => negb (is_primary p) && negb (is_must_land p)) l) l.
Proof.
  rewrite !(filter_filter (fun p => negb (is_primary p))), filter_split. apply filter_split.
Qed.

Lemma filter_Forall {A} (f : A -> bool) l : Forall (fun x => f x = true) (List.filter f l).
Proof. induction l as [|x l IH]; simpl; [constructor|]. destruct (f x) eqn:E; [by constructor|done]. Qed.

Lemma filter_all {A} (f : A -> bool) l : (forall x, In x l -> f x = true) -> List.filter f l = l.
Proof.
  induction l as [|x l IH]; intros H; [done|]. simpl. rewrite H by (by left). f_equal. apply IH. intros y Hy.
  apply H. by right.
Qed.

(** *** Classes *)

(** What the loader's class lists look like: [light] alone, or exclusive
    classes in the order of acquisition, each once. *)
Definition normal (cs : list string) : Prop :=
  cs = ["light"] \/
  (cs <> [] /\ Forall (fun c => In c EXCLUSIVE_CLASSES) cs /\ StronglySorted (fun a b => rank a < rank b) cs).

Lemma normalizeClass_in c : normalizeClass c = "light" \/ In (normalizeClass c) EXCLUSIVE_CLASSES.
Proof.
  unfold normalizeClass. cbv zeta. set (d := lower _).
  destruct (mem_str d ["gl"; "webgl"; "webgpu"]); [right; simpl; tauto|].
  destruct (mem_str d ["webrtc"; "ice"; "network"]); [right; simpl; tauto|].
  destruct (mem_str d EXCLUSIVE_CLASSES) eqn:E; [right; by apply mem_str_In in E|].
  cbn [orb]. destruct (d =s "light") eqn:E2; [left; by apply String.eqb_eq|by left].
Qed.

Lemma normal_one c : c = "light" \/ In c EXCLUSIVE_CLASSES -> normal [c].
Proof.
  intros [->|Hc]; [by left|]. right.
  split_and!; [done|by apply Forall_singleton|]. constructor; constructor.
Qed.

Lemma rank_inj a b : In a EXCLUSIVE_CLASSES -> In b EXCLUSIVE_CLASSES -> rank a = rank b -> a = b.
Proof. simpl. intros Ha Hb. decompose [or] Ha; decompose [or] Hb; subst; try done. Qed.

Lemma rank_bound c : -1 <= rank c < 6.
Proof. unfold rank, index_of. simpl. repeat case_match; lia. Qed.

Lemma dedup_classes_ok l out :
  Forall (fun c => In c EXCLUSIVE_CLASSES) out -> NoDup out ->
  Forall (fun c => In c EXCLUSIVE_CLASSES) (dedup_classes l out) /\ NoDup (dedup_classes l out).
Proof.
  revert out. induction l as [|c l IH]; intros out HF HN; simpl; [done|].
  destruct (normalizeClass c =s "") eqn:E1; simpl; [by apply IH|].
  destruct (normalizeClass c =s "light") eqn:E2; simpl; [by apply IH|].
  destruct (mem_str (normalizeClass c) out) eqn:E3; [by apply IH|].
  apply IH.
  - apply Forall_app_2; [done|]. constructor; [|constructor].
    destruct (normalizeClass_in c) as [H|]; [|done]. rewrite H in E2. done.
  - apply NoDup_app. split_and!; [done| |apply NoDup_singleton].
    intros x Hx Hy. apply list_elem_of_singleton in Hy as ->.
    apply list_elem_of_In, mem_str_In in Hx. congruence.
Qed.

Lemma ranked_strict l :
  Forall (fun c => In c EXCLUSIVE_CLASSES) l -> NoDup l -> Sorted (fun a b => rank a <= rank b) l ->
  StronglySorted (fun a b => rank a < rank b) l.
Proof.
  intros HF HN HS. apply Sorted_StronglySorted in HS; [|intros ???; lia].
  induction HS as [|x l HS IH Hx]; constructor.
  - apply IH; [by inversion HF|by inversion HN].
  - inversion HF; subst. inversion HN; subst. apply List.Forall_forall. intros y Hy.
    rewrite List.Forall_forall in Hx. pose proof (Hx _ Hy).
    destruct (Z.eq_dec (rank x) (rank y)) as [He|]; [|lia].
    rewrite List.Forall_forall in H2. rewrite (rank_inj _ _ H1 (H2 _ Hy) He) in *.
    exfalso. by apply H3, list_elem_of_In.
Qed.

Lemma uniqueClasses_normal l : normal (uniqueClasses l).
Proof.
  unfold uniqueClasses. destruct (dedup_classes_ok l [] (Forall_nil_2 _) (NoDup_nil_2)) as [HF HN].
  destruct (dedup_classes l []) as [|c out] eqn:E; [by left|]. right.
  pose proof (sort_by_perm rank (c :: out)) as HP. split_and!.
  - intros H. rewrite H in HP. by apply Permutation_nil in HP.
  - by rewrite HP.
  - apply ranked_strict; [by rewrite HP|by rewrite HP|apply sort_by_sorted].
Qed.

Lemma id_class_in id : id_class id = "light" \/ In (id_class id) EXCLUSIVE_CLASSES.
Proof.
  unfold id_class, custom_class, word_class.
  repeat match goal with |- context [if ?c then _ else _] => destruct c end; simpl; tauto.
Qed.

Lemma resourceClasses_id_normal cp id : normal (resourceClasses_id cp id).
Proof.
  unfold resourceClasses_id. repeat case_match; try apply uniqueClasses_normal; apply normal_one;
    auto using id_class_in, normalizeClass_in.
Qed.

Lemma resourceClasses_normal_lemma cp p : normal (resourceClasses cp p).
Proof.
  unfold resourceClasses. repeat case_match; try apply uniqueClasses_normal; auto using resourceClasses_id_normal.
  apply normal_one, normalizeClass_in.
Qed.

Lemma normal_NoDup cs : normal cs -> NoDup cs.
Proof.
  intros [->|(_&_&HS)]; [apply NoDup_singleton|].
  induction HS as [|x l HS IH Hx]; constructor; [|done].
  intros Hin%list_elem_of_In. rewrite List.Forall_forall in Hx. specialize (Hx _ Hin). lia.
Qed.

Lemma normal_light cs : normal cs -> In "light" cs -> cs = ["light"].
Proof.
  intros [->|(_&HF&_)]; [done|]. intros Hin. rewrite List.Forall_forall in HF.
  apply HF in Hin. simpl in Hin. exfalso. decompose [or] Hin; done.
Qed.

Lemma normal_nonempty cs : normal cs -> cs <> [].
Proof. by intros [->|(?&_&_)]. Qed.
#[export] Hint Resolve uniqueClasses_normal resourceClasses_normal_lemma resourceClasses_id_normal normal_NoDup
  normal_nonempty : grdb.

Lemma find_put_custom id c l : find_custom id (put_custom id c l) = Some c.
Proof.
  induction l as [|[k d] l IH]; cbn.
  - by rewrite String.eqb_refl.
  - destruct (id =s k) eqn:E; cbn; by rewrite E.
Qed.

Lemma normalizeClass_fix c : c = "light" \/ In c EXCLUSIVE_CLASSES -> normalizeClass c = c.
Proof. simpl. intros H. decompose [or] H; by subst. Qed.

Lemma dedup_classes_fix l out :
  Forall (fun c => In c EXCLUSIVE_CLASSES) l -> NoDup (out ++ l) -> dedup_classes l out = out ++ l.
Proof.
  revert out. induction l as [|c l IH]; intros out HF HN; cbn [dedup_classes]; [by rewrite app_nil_r|].
  inversion HF as [|?? Hc HF']; subst. rewrite normalizeClass_fix by tauto.
  assert (mem_str c out = false) as ->.
  { apply not_true_is_false. intros Hin%mem_str_In. apply NoDup_app in HN as (_&HN&_).
    apply (HN c); [by apply list_elem_of_In|left]. }
  assert ((c =s "") || (c =s "light") || false = false) as ->.
  { simpl in Hc. decompose [or] Hc; by subst. }
  rewrite IH; [by rewrite <- app_assoc|done|by rewrite <- app_assoc].
Qed.

Lemma insert_by_last {A} (key : A -> Z) x l : Forall (fun y => key y <= key x) l -> insert_by key x l = l ++ [x].
Proof.
  induction 1 as [|y l Hy _ IH]; [done|]. simpl. destruct (Z.ltb_spec (key x) (key y)); [lia|]. by rewrite IH.
Qed.

Lemma sort_by_fix {A} (key : A -> Z) l acc :
  StronglySorted (fun a b => key a < key b) (acc ++ l) ->
  fold_left (fun acc x => insert_by key x acc) l acc = acc ++ l.
Proof.
  revert acc. induction l as [|x l IH]; intros acc HS; simpl; [by rewrite app_nil_r|].
  assert (Forall (fun y => key y <= key x) acc) as Hx.
  { apply List.Forall_forall. intros y (l1&l2&->)%in_split. rewrite <- app_assoc in HS.
    clear -HS. induction l1 as [|z l1 IHl]; [|inversion HS; auto].
    inversion HS as [|?? _ Hf]; subst. rewrite List.Forall_forall in Hf.
    assert (key y < key x); [|lia]. apply Hf. apply in_or_app. right. by left. }
  rewrite insert_by_last by done. rewrite IH; rewrite <- app_assoc; done.
Qed.

(** Normal lists are fixed by another normalisation. *)
Lemma uniqueClasses_fixed cs : normal cs -> uniqueClasses (map normalizeClass cs) = cs.
Proof.
  intros Hn. pose proof (normal_NoDup _ Hn) as HN. destruct Hn as [->|(H0&HF&HS)]; [done|].
  assert (map normalizeClass cs = cs) as ->.
  { clear -HF. induction HF as [|c l Hc _ IH]; [done|]. simpl. rewrite normalizeClass_fix by tauto. by rewrite IH. }
  unfold uniqueClasses. rewrite dedup_classes_fix by done. cbn [app].
  destruct cs as [|c cs]; [done|]. apply (sort_by_fix rank (c :: cs) [] HS).
Qed.

Lemma filter_nil_false {A} (f : A -> bool) l : List.filter f l = [] -> forall x, In x l -> f x = false.
Proof.
  intros E x Hx. apply not_true_is_false. intros H. assert (In x (List.filter f l)) as Hin by (by apply filter_In).
  by rewrite E in Hin.
Qed.

Lemma lead_eq l :
  lead l = List.filter is_primary l ++
           by_priority (List.filter (fun p => negb (is_primary p) && is_must_land p) l) ++
           List.filter (fun p => negb (is_primary p) && negb (is_must_land p)) l.
Proof.
  unfold lead. destruct l as [|x [|y l]]; [done| |].
  - simpl. destruct (is_primary x); [done|]. by destruct (is_must_land x).
  - set (m := x :: y :: l). cbn [length Nat.leb]. cbv zeta.
    pose proof (lead_groups m) as HP.
    destruct (List.filter is_primary m) eqn:E1; [|done].
    destruct (List.filter (fun p => negb (is_primary p) && is_must_land p) m) eqn:E2; [|done].
    cbn [app by_priority sort_by fold_left]. symmetry. apply filter_all. intros p Hp.
    assert (is_primary p = false) as Hb by (by apply (filter_nil_false is_primary m)).
    rewrite Hb. apply negb_true_iff.
    pose proof (filter_nil_false _ _ E2 p Hp) as Hq. cbv beta in Hq. by rewrite Hb in Hq.
Qed.

Lemma lead_perm l : Permutation (lead l) l.
Proof. rewrite lead_eq. unfold by_priority. rewrite sort_by_perm. apply lead_groups. Qed.

(** ** Properties *)

(** C32: Well-formedness of the loader's classes: for any pack, whatever its identifier,
    overrides and custom registration say, [resourceClasses] is [light] alone or a
    non-empty list of the six exclusive classes, each once, in the one order in which
    every pack acquires them; and a registered probe keeps it. *)
Theorem resourceClasses_normal (customProbes : list (string * custom)) (p : lpack) (s : spec) :
  normal (resourceClasses customProbes p) /\
  match registerCustomProbe customProbes s with
  | None => s_id s = "" \/ s_run s = false
  | Some probes =>
    exists c, find_custom (s_id s) probes = Some c /\ normal (cu_classes c) /\
      cu_class c = first_class (cu_classes c) /\
      resourceClasses_id probes (s_id s) = cu_classes c
  end.
Proof.
  split; [auto with grdb|]. unfold registerCustomProbe.
  destruct ((s_id s =s "") || negb (s_run s)) eqn:E.
  { apply orb_true_iff in E as [E%String.eqb_eq|E%negb_true_iff]; tauto. }
  apply orb_false_iff in E as [E _]. cbv zeta. set (cs := match s_classes s with [] => _ | _ => _ end).
  assert (normal cs) as Hcs by (subst cs; repeat case_match; auto with grdb).
  eexists. rewrite find_put_custom. split; [done|]. cbn. split_and!; [done..|].
  unfold resourceClasses_id. rewrite E, find_put_custom. cbn [cu_classes].
  destruct cs as [|c cs'] eqn:Ec; [by apply normal_nonempty in Hcs|]. by apply uniqueClasses_fixed.
Qed.

(** [kickAll] admits every pack it is given exactly once, in an order that starts
    with the primary curves, goes on with the silicon packs by decreasing priority and
    ends with the others, whatever the shuffle of the source does. *)
Theorem kick_order_spec (shuffle : bool) (sid src : string) (l : list lpack) :
  Permutation (kick_order shuffle sid src l) l /\
  exists b10 ml other,
    kick_order shuffle sid src l = b10 ++ ml ++ other /\
    Forall (fun p => is_primary p = true) b10 /\
    Forall (fun p => is_primary p = false /\ is_must_land p = true) ml /\
    Forall (fun p => is_primary p = false /\ is_must_land p = false) other /\
    Sorted (fun p q => p_priority q <= p_priority p) ml.
Proof.
  unfold kick_order. set (m := if shuffle && _ then _ else _).
  assert (Permutation m l) as Hm.
  { subst m. case_match; [apply shuffle_perm|apply sort_by_perm]. }
  clearbody m. split; [by rewrite lead_perm|]. exists (List.filter is_primary m),
    (by_priority (List.filter (fun p => negb (is_primary p) && is_must_land p) m)),
    (List.filter (fun p => negb (is_primary p) && negb (is_must_land p)) m).
  split_and!.
  - apply lead_eq.
  - apply filter_Forall.
  - unfold by_priority. rewrite sort_by_perm. eapply List.Forall_impl; [|apply filter_Forall]. cbv beta.
    intros p Hp. by breflect.
  - eapply List.Forall_impl; [|apply filter_Forall]. cbv beta. intros p Hp. by breflect.
  - apply (Sorted_weaken (fun p q => - p_priority p <= - p_priority q)); [intros; lia|apply sort_by_sorted].
Qed.
