(* ===== verification/PackBus.v ===== *)
(** * The resource bus ([probe/fe/pack_loader.js], [withResourceLocks])

    One exclusive lock per resource class, shared by every caller of the page.
    A call of [withResourceLocks] is a request: it takes its classes one after
    the other in the order of [rank], each take a job of its own; the request
    whose function may run is [Entered]; when the function's promise settles,
    [leave] releases.  A release wakes one waiter through a timer, which is an
    element of [wakes] until it fires. *)

From Stdlib Require Import Sorting.Sorted.
From S2P Require Import Prelude JsVal Window PackClass.
#[local] Open Scope Z_scope.

(** ** State *)

(** The object [bus.holders[cls]]. *)
Record holder := mkHolder {
  ho_label : string;
  ho_source : string;
  ho_at : Z;
  ho_depth : Z;
  ho_multi : list string;
  ho_nested : bool
}.

(** How a function runs: without a lock, inside the locks another call holds,
    or as the owner of its locks. *)
Inductive mode := Free | Nested | Owner.

Inductive phase := Taking (i : nat) | Waiting (i : nat) | Entered (m : mode) | Gone.

Record req := mkReq {
  rq_classes : list string;
  rq_label : string;
  rq_source : string;
  rq_phase : phase
}.

Record bus := mkBus {
  holders : list (string * holder);
  waiters : gmap string (list nat);
  nestDepth : gmap string Z;
  reqs : list req;
  wakes : list nat
}.

Definition getBus0 : bus := mkBus [] ∅ ∅ [] [].

Definition eta_bus (b : bus) : bus := mkBus (holders b) (waiters b) (nestDepth b) (reqs b) (wakes b).
Definition set_holders v (b : bus) : bus := ltac:(upd eta_bus holders b v).
Definition set_waiters v (b : bus) : bus := ltac:(upd eta_bus waiters b v).
Definition set_depths v (b : bus) : bus := ltac:(upd eta_bus nestDepth b v).
Definition set_reqs v (b : bus) : bus := ltac:(upd eta_bus reqs b v).
Definition set_wakes v (b : bus) : bus := ltac:(upd eta_bus wakes b v).

Definition set_phase (r : nat) (p : phase) (b : bus) : bus :=
  set_reqs (alter (fun q => mkReq (rq_classes q) (rq_label q) (rq_source q) p) r (reqs b)) b.

Definition held (b : bus) (c : string) : bool := existsb (fun '(k, _) => c =s k) (holders b).
Definition depth (b : bus) (c : string) : Z := default 0 (nestDepth b !! c).
Definition waiting_for (b : bus) (c : string) : list nat := default [] (waiters b !! c).

Definition drop_holder (c : string) (b : bus) : bus :=
  set_holders (List.filter (fun '(k, _) => c <>s k) (holders b)) b.
Definition put_depth (c : string) (n : Z) (b : bus) : bus := set_depths (<[c := n]> (nestDepth b)) b.
Definition put_waiters (c : string) (l : list nat) (b : bus) : bus := set_waiters (<[c := l]> (waiters b)) b.

(** ** Acquiring *)

(** [bus.holders[c].nested = true; .depth = ...] *)
Definition mark_nested (c : string) (n : Z) (l : list (string * holder)) : list (string * holder) :=
  map (fun '(k, h) => if c =s k then (k, mkHolder (ho_label h) (ho_source h) (ho_at h) n (ho_multi h) true)
                      else (k, h)) l.

Definition nest_one (b : bus) (c : string) : bus :=
  let n := depth b c + 1 in b |> put_depth c n |> set_holders (mark_nested c n (holders b)).
Definition unnest_one (b : bus) (c : string) : bus := put_depth c (depth b c - 1) b.

(** The call: the request it makes has the number [length (reqs b)]. *)
Definition withResourceLocks (classes : list string) (label source : string) (b : bus) : bus :=
  let label := nonempty label "pack" in
  let source := nonempty source "main" in
  let l := uniqueClasses classes in
  let add p l b := set_reqs (reqs b ++ [mkReq l label source p]) b in
  if is_light l then add (Entered Free) l b else
  let l := List.filter (fun c => c <>s "light") l in
  match l with
  | [] => add (Entered Free) l b
  | _ =>
    if forallb (fun c => 0 <? depth b c) l then add (Entered Nested) l (fold_left nest_one l b)
    else add (Taking 0) l b
  end.

Definition withResourceLock (cls label source : string) (b : bus) : bus := withResourceLocks [cls] label source b.
Definition withHardwareLock (label : string) (b : bus) : bus := withResourceLock "gpu" label "main" b.

Section Clock.
Variable now : Z.

(** [tryTake] of the [i]-th class. *)
Definition tryTake (r : nat) (q : req) (i : nat) (b : bus) : bus :=
  match rq_classes q !! i with
  | None => b
  | Some c =>
    if held b c then
      b |> put_waiters c (waiting_for b c ++ [r]) |> set_phase r (Waiting i)
    else
      let multi := match rq_classes q with _ :: _ :: _ => rq_classes q | _ => [] end in
      b |> set_holders (holders b ++ [(c, mkHolder (rq_label q) (rq_source q) now 1 multi false)])
        |> put_depth c 1
        |> set_phase r (if Nat.eqb (S i) (length (rq_classes q)) then Entered Owner else Taking (S i))
  end.

(** The job of a request that is about to take its next class. *)
Definition take (r : nat) (b : bus) : bus :=
  match reqs b !! r with
  | Some q => match rq_phase q with Taking i => tryTake r q i b | _ => b end
  | None => b
  end.

(** [waiter.resolve()] *)
Definition resolve (b : bus) (r : nat) : bus :=
  match reqs b !! r with
  | Some q => match rq_phase q with Waiting i => tryTake r q i b | _ => b end
  | None => b
  end.

(** The timer of a release fires. *)
Definition wake (r : nat) (b : bus) : bus :=
  if bool_decide (r ∈ wakes b) then resolve (set_wakes (List.filter (fun x => negb (Nat.eqb r x)) (wakes b)) b) r
  else b.

(** [forceReleaseResource], with [had]. *)
Definition forceReleaseResource (cls : string) (b : bus) : bus * bool :=
  let had := held b cls in
  let q := waiting_for b cls in
  let b := b |> put_depth cls 0 |> drop_holder cls |> put_waiters cls [] in
  (fold_left resolve q b, had).
End Clock.

(** ** Releasing *)

Definition releaseOne (b : bus) (c : string) : bus :=
  let b := b |> put_depth c 0 |> drop_holder c in
  match waiting_for b c with
  | [] => b
  | r :: q => b |> put_waiters c q |> set_wakes (wakes b ++ [r])
  end.

(** The promise of the request's function has settled. *)
Definition leave (r : nat) (b : bus) : bus :=
  match reqs b !! r with
  | Some q =>
    match rq_phase q with
    | Entered Free => set_phase r Gone b
    | Entered Nested => set_phase r Gone (fold_left unnest_one (rq_classes q) b)
    | Entered Owner => set_phase r Gone (fold_left releaseOne (rev (rq_classes q)) b)
    | _ => b
    end
  | None => b
  end.

(** A turn of [waitResourceFree]: [None] polls again in 40 ms. *)
Definition waitResourceFree_tick (cls : string) (maxMs : option Z) (t0 now : Z) (b : bus) : option bool :=
  if negb (held b (nonempty cls "gpu")) then Some true else
  if default 8000 maxMs <? now - t0 then Some false else None.

(** ** The window *)

Definition holder_val (c : string) (h : holder) : val :=
  VObj ([("label", VStr (ho_label h)); ("source", VStr (ho_source h)); ("class", VStr c); ("at", vint (ho_at h));
         ("depth", vint (ho_depth h));
         ("multi", match ho_multi h with [] => VUndef | l => VArr (map VStr l) end)]
        ++ (if ho_nested h then [("nested", VBool true)] else [])).

Definition publishLockSnap (b : bus) (w : Win) : Win :=
  let snap := map (fun '(c, h) => (c, holder_val c h)) (holders b) in
  w |> gset "__GR_RESOURCE_LOCKS__" (VObj snap)
    |> gset "__GR_HW_LOCK__"
         (match List.filter (fun '(c, _) => c <>s "light") snap with (_, v) :: _ => v | [] => VNull end).

(** ** Steps

    [bstep] is every job of a request; [fstep F] adds the forced releases of the
    classes of [F], [astep] leaves out the jobs of requests whose function has settled. *)
Inductive bstep : bus -> bus -> Prop :=
| BCall classes label source b : bstep b (withResourceLocks classes label source b)
| BTake now r b : bstep b (take now r b)
| BWake now r b : bstep b (wake now r b)
| BLeave r b : bstep b (leave r b).

Inductive fstep (F : string -> Prop) : bus -> bus -> Prop :=
| FJob b b' : bstep b b' -> fstep F b b'
| FForce now c b : F c -> fstep F b (fst (forceReleaseResource now c b)).


(** [r] has taken [c] and not released it. *)
Definition owned (q : req) : list string :=
  match rq_phase q with
  | Taking i | Waiting i => firstn i (rq_classes q)
  | Entered Owner => rq_classes q
  | _ => []
  end.
Definition owns (b : bus) (r : nat) (c : string) : Prop := exists q, reqs b !! r = Some q /\ In c (owned q).

(** The class a waiting request waits for. *)
Definition waits (q : req) (c : string) : Prop := exists i, rq_phase q = Waiting i /\ rq_classes q !! i = Some c.

(** A request that can move by itself: its next take, or its function runs. *)
Definition moving (q : req) : bool :=
  match rq_phase q with Taking _ | Entered _ => true | _ => false end.

(** ** The invariant

    [x] is a request a step is about to let try again, [R] the classes it is
    about to release: between steps there are none. *)

Definition due (x : option nat) (b : bus) (r : nat) : Prop := r ∈ wakes b \/ x = Some r.

Record inv (x : option nat) (R : list string) (b : bus) : Prop := Inv {
  i_held : forall c, held b c = true <-> (exists r, owns b r c) \/ In c R;
  i_orphan : forall c r, In c R -> ~ owns b r c;
  i_excl : forall r1 r2 c, owns b r1 c -> owns b r2 c -> r1 = r2;
  i_sorted : forall r q, reqs b !! r = Some q -> StronglySorted (fun a c => rank a < rank c) (rq_classes q);
  i_take : forall r q i, reqs b !! r = Some q -> rq_phase q = Taking i -> (i < length (rq_classes q))%nat;
  i_wait : forall r q i, reqs b !! r = Some q -> rq_phase q = Waiting i ->
             exists c, rq_classes q !! i = Some c /\ (r ∈ waiting_for b c \/ due x b r);
  i_queue : forall c r, r ∈ waiting_for b c -> ~ due x b r /\ exists q, reqs b !! r = Some q /\ waits q c;
  i_nodup : forall c, NoDup (waiting_for b c);
  i_due : forall r, due x b r -> exists q c, reqs b !! r = Some q /\ waits q c;
  i_awake : forall c, waiting_for b c <> [] ->
              held b c = true \/ exists r q, due x b r /\ reqs b !! r = Some q /\ waits q c
}.

Lemma reqs_set_phase r p b r' :
  reqs (set_phase r p b) !! r' =
  if decide (r' = r) then (fun q => mkReq (rq_classes q) (rq_label q) (rq_source q) p) <$> (reqs b !! r)
  else reqs b !! r'.
Proof.
  unfold set_phase. cbn. case_decide; subst.
  - by rewrite list_lookup_alter_eq.
  - by rewrite list_lookup_alter_ne.
Qed.

Lemma waits_fun q c c' : waits q c -> waits q c' -> c = c'.
Proof. intros (i&Hi&Hc) (j&Hj&Hc'). congruence. Qed.

Lemma held_drop b c c' : held (drop_holder c b) c' = negb (c' =s c) && held b c'.
Proof.
  unfold held, drop_holder. cbn. induction (holders b) as [|[k h] l IH]; cbn; [by rewrite andb_false_r|].
  destruct (c =s k) eqn:E; cbn.
  - rewrite IH. apply String.eqb_eq in E as <-. by destruct (c' =s c).
  - rewrite IH. destruct (c' =s c) eqn:E2; cbn; [|done].
    apply String.eqb_eq in E2 as ->. by rewrite E.
Qed.

Lemma held_app b c h c' : held (set_holders (holders b ++ [(c, h)]) b) c' = (c' =s c) || held b c'.
Proof. unfold held. cbn. rewrite existsb_app. cbn. rewrite orb_false_r. apply orb_comm. Qed.

Lemma held_mark c n l c' :
  existsb (fun '(k, _) => c' =s k) (mark_nested c n l) = existsb (fun '(k, _) => c' =s k) l.
Proof. induction l as [|[k h] l IH]; [done|]. simpl. destruct (c =s k); simpl; by rewrite IH. Qed.

(** The invariant does not read the depths, nor the holders beyond their classes. *)
Lemma inv_view x R b b' :
  (forall c, held b' c = held b c) -> waiters b' = waiters b -> reqs b' = reqs b -> wakes b' = wakes b ->
  inv x R b -> inv x R b'.
Proof.
  intros Hh Hw Hr Hk [a1 a2 a3 a4 a5 a6 a7 a8 a9 a10].
  constructor; unfold owns, waiting_for, due in *; intros; rewrite ?Hh, ?Hw, ?Hr, ?Hk in *; eauto.
Qed.

Lemma waiting_put b c l c' : waiting_for (put_waiters c l b) c' = if decide (c' = c) then l else waiting_for b c'.
Proof.
  unfold waiting_for, put_waiters. cbn. case_decide; subst; [by rewrite lookup_insert_eq|].
  by rewrite lookup_insert_ne.
Qed.

(** A new request. *)
Lemma inv_add q b :
  owned q = [] -> (forall i, rq_phase q <> Waiting i) ->
  (forall i, rq_phase q = Taking i -> (i < length (rq_classes q))%nat) ->
  StronglySorted (fun a c => rank a < rank c) (rq_classes q) ->
  inv None [] b -> inv None [] (set_reqs (reqs b ++ [q]) b).
Proof.
  intros Ho Hw Ht Hs [a1 a2 a3 a4 a5 a6 a7 a8 a9 a10].
  assert (forall r q', (reqs b ++ [q]) !! r = Some q' -> reqs b !! r = Some q' \/ q' = q) as Hl.
  { intros r q' H. apply lookup_app_Some in H as [H|[_ H]]; [by left|]. right.
    by apply list_lookup_singleton_Some in H as [_ <-]. }
  assert (forall r q', reqs b !! r = Some q' -> (reqs b ++ [q]) !! r = Some q') as Hm.
  { intros r q' H. apply lookup_app_Some. by left. }
  assert (forall r c, owns (set_reqs (reqs b ++ [q]) b) r c <-> owns b r c) as HO.
  { intros r c. split; intros (q'&Hq&Hc); [|exists q'; split; [by apply Hm|done]].
    apply Hl in Hq as [Hq| ->]; [by exists q'|by rewrite Ho in Hc]. }
  set (b' := set_reqs _ b) in *.
  assert (forall c, held b' c = held b c) as HH by done.
  assert (forall c, waiting_for b' c = waiting_for b c) as HW by done.
  assert (forall r, due None b' r <-> due None b r) as HD by done.
  assert (reqs b' = reqs b ++ [q]) as HR by done.
  clearbody b'. constructor; setoid_rewrite HR || idtac; setoid_rewrite HH || idtac; setoid_rewrite HW || idtac;
    setoid_rewrite HD || idtac.
  - intros c. rewrite a1. by setoid_rewrite HO.
  - intros c r Hc. by destruct Hc.
  - intros r1 r2 c. rewrite !HO. eauto.
  - intros r q' [Hq| ->]%Hl; eauto.
  - intros r q' i [Hq| ->]%Hl; eauto.
  - intros r q' i [Hq| ->]%Hl; [eauto|]. intros H. by destruct (Hw i).
  - intros c r H. destruct (a7 c r H) as [? (q'&?&?)]. eauto 6.
  - done.
  - intros r H. destruct (a9 r H) as (q'&c&?&?). eauto 6.
  - intros c H. destruct (a10 c H) as [|(r&q'&?&?&?)]; [by left|]. right. eauto 8.
Qed.

Lemma ss_filter {A} (Rl : A -> A -> Prop) f l : StronglySorted Rl l -> StronglySorted Rl (List.filter f l).
Proof.
  induction 1 as [|x l HS IH Hx]; cbn; [constructor|]. destruct (f x); [|done]. constructor; [done|].
  apply List.Forall_forall. intros y [Hy _]%filter_In. rewrite List.Forall_forall in Hx. auto.
Qed.

Lemma normal_sorted cs : normal cs -> StronglySorted (fun a c => rank a < rank c) cs.
Proof. intros [->|(_&_&H)]; [repeat constructor|done]. Qed.

Lemma call_inv classes label source b : inv None [] b -> inv None [] (withResourceLocks classes label source b).
Proof.
  intros HI. unfold withResourceLocks. cbv zeta. pose proof (normal_sorted _ (uniqueClasses_normal classes)) as HS.
  assert (forall l, StronglySorted (fun a c => rank a < rank c) l -> forall p, owned (mkReq l (nonempty label "pack") (nonempty source "main") p) = [] ->
    (forall i, p <> Waiting i) -> (forall i, p = Taking i -> (i < length l)%nat) -> forall b, inv None [] b ->
    inv None [] (set_reqs (reqs b ++ [mkReq l (nonempty label "pack") (nonempty source "main") p]) b)) as Hadd.
  { intros. by apply inv_add. }
  destruct (is_light _); [by apply Hadd|].
  pose proof (ss_filter _ (fun c => c <>s "light") _ HS) as HF.
  destruct (List.filter _ _) as [|c l]; [by apply Hadd|].
  destruct (forallb _ _).
  - apply Hadd; [done..|]. clear -HI. revert b HI. induction (c :: l) as [|d m IH]; intros b HI; [done|].
    cbn [fold_left]. apply IH. eapply inv_view; [| | | |exact HI]; try done.
    intros c'. unfold held, nest_one, put_depth. cbn. apply held_mark.
  - apply Hadd; try done. intros i [= <-]. cbn. lia.
Qed.

Lemma in_firstn_S {A} (l : list A) i x y :
  l !! i = Some y -> In x (firstn (S i) l) <-> In x (firstn i l) \/ x = y.
Proof.
  intros H. rewrite (take_S_r _ _ _ H). rewrite in_app_iff. cbn. intuition.
Qed.

(** *** A request that is about to take its [i]-th class, or to try again *)

Definition at_phase (q : req) (p : phase) : req := mkReq (rq_classes q) (rq_label q) (rq_source q) p.

Lemma reqs_at_phase r p b q r' :
  reqs b !! r = Some q -> reqs (set_phase r p b) !! r' = if decide (r' = r) then Some (at_phase q p) else reqs b !! r'.
Proof. intros Hr. rewrite reqs_set_phase, Hr. done. Qed.

Lemma owns_at_phase r p b q r' c :
  reqs b !! r = Some q ->
  owns (set_phase r p b) r' c <-> if decide (r' = r) then In c (owned (at_phase q p)) else owns b r' c.
Proof.
  intros Hr. unfold owns. setoid_rewrite (reqs_at_phase _ _ _ _ _ Hr). case_decide; [|done].
  split; [by intros (q'&[= <-]&?)|]. intros H1. eexists. eauto.
Qed.

Section Try.
Variables (x : option nat) (b : bus) (r : nat) (q : req) (i : nat) (c : string).
Hypothesis Hr : reqs b !! r = Some q.
Hypothesis Hp : x = None /\ rq_phase q = Taking i \/ x = Some r /\ rq_phase q = Waiting i /\ r ∉ wakes b.
Hypothesis Hc : rq_classes q !! i = Some c.
Hypothesis HI : inv x [] b.

Lemma try_owned : owned q = firstn i (rq_classes q).
Proof. unfold owned. by destruct Hp as [[_ ->]|(_&->&_)]. Qed.

Lemma try_not_queued d : r ∉ waiting_for b d.
Proof.
  intros Hd. destruct (i_queue _ _ _ HI d r Hd) as [Hnd (q'&Hq'&j&Hj&_)]. simplify_eq.
  destruct Hp as [[_ Hp']|(->&_&_)]; [congruence|]. apply Hnd. by right.
Qed.

Lemma try_not_woken : r ∉ wakes b.
Proof.
  destruct Hp as [[-> Hp']|(_&_&Hp')]; [|done]. intros Hw.
  destruct (i_due _ _ _ HI r) as (q'&d&Hq'&j&Hj&_); [by left|]. congruence.
Qed.

Lemma try_due r' : due x b r' -> r' <> r -> r' ∈ wakes b.
Proof. intros [?|?]; [done|]. destruct Hp as [[-> _]|(->&_&_)]; congruence. Qed.

(** The other requests keep what the invariant says of them. *)
Lemma try_keep p q' d r' :
  reqs b !! r' = Some q' -> waits q' d -> r' <> r ->
  exists q'', reqs (set_phase r p b) !! r' = Some q'' /\ waits q'' d.
Proof. intros Hq' Hw Hne. exists q'. by rewrite (reqs_at_phase _ _ _ _ _ Hr), decide_False. Qed.

Lemma try_queue p d r' :
  r' ∈ waiting_for b d ->
  ~ due None b r' /\ exists q', reqs (set_phase r p b) !! r' = Some q' /\ waits q' d.
Proof.
  intros Hin. destruct (i_queue _ _ _ HI _ _ Hin) as [Hd (q'&?&?)].
  assert (r' <> r) by (intros ->; by apply (try_not_queued d)).
  split; [|by eapply try_keep]. intros [?|?]; [|done]. apply Hd. by left.
Qed.

Lemma try_woken p r' :
  due None b r' -> exists q' d, reqs (set_phase r p b) !! r' = Some q' /\ waits q' d.
Proof.
  intros [Hin|?]; [|done]. destruct (i_due _ _ _ HI r') as (q'&d&?&?); [by left|].
  assert (r' <> r) by (intros ->; by apply try_not_woken).
  destruct (try_keep p q' d r') as (q''&?&?); eauto.
Qed.

Lemma try_awake p d :
  waiting_for b d <> [] ->
  held b d = true \/ d = c \/
  exists r' q', due None b r' /\ reqs (set_phase r p b) !! r' = Some q' /\ waits q' d.
Proof.
  intros Hd. destruct (i_awake _ _ _ HI d Hd) as [|(r'&q'&Hd'&Hq'&Hw)]; [by left|].
  destruct (decide (r' = r)) as [->|Hne].
  - right. left. rewrite Hr in Hq'. simplify_eq. destruct Hw as (j&Hj&Hw).
    destruct Hp as [[_ Hp']|(_&Hp'&_)]; congruence.
  - right. right. destruct (try_keep p q' d r') as (q''&?&?); [done..|].
    exists r', q''. split; [left; by apply try_due|done].
Qed.

Lemma wait_inv :
  held b c = true -> inv None [] (set_phase r (Waiting i) (put_waiters c (waiting_for b c ++ [r]) b)).
Proof.
  intros Eh. set (b' := set_phase _ _ _).
  assert (forall r', reqs b' !! r' = if decide (r' = r) then Some (at_phase q (Waiting i)) else reqs b !! r') as HL
    by (intros r'; exact (reqs_at_phase r (Waiting i) (put_waiters _ _ b) q r' Hr)).
  assert (forall r' d, owns b' r' d <-> owns b r' d) as HO.
  { intros r' d. unfold b'. rewrite (owns_at_phase _ _ _ q) by exact Hr. case_decide; [subst|done].
    change (owned (at_phase q (Waiting i))) with (firstn i (rq_classes q)). rewrite <- try_owned. unfold owns.
    rewrite Hr. split; [eauto|by intros (?&[= <-]&?)]. }
  assert (forall d, waiting_for b' d = if decide (d = c) then waiting_for b c ++ [r] else waiting_for b d) as HW
    by (intros d; apply waiting_put).
  constructor; try setoid_rewrite HO; try setoid_rewrite HL; try setoid_rewrite HW.
  - intros d. apply (i_held _ _ _ HI).
  - done.
  - apply (i_excl _ _ _ HI).
  - intros r' q'. case_decide; [intros [= <-]; cbn|]; eauto using i_sorted.
  - intros r' q' j. case_decide; [by intros [= <-]|]. eauto using i_take.
  - intros r' q' j. case_decide as E.
    + intros [= <-] [= <-]. exists c. split; [done|]. left. rewrite decide_True by done. set_solver.
    + intros Hq' Hj. destruct (i_wait _ _ _ HI _ _ _ Hq' Hj) as (d&Hd&[Hin|Hin]); exists d; (split; [done|]).
      * left. case_decide; subst; set_solver.
      * right. left. by apply try_due in Hin.
  - intros d r' Hin.
    assert (r' ∈ waiting_for b d \/ (r' = r /\ d = c)) as [H|[-> ->]] by (case_decide; subst; set_solver).
    + pose proof (try_queue (Waiting i) d r' H) as HQ. setoid_rewrite (reqs_at_phase _ _ _ _ _ Hr) in HQ. exact HQ.
    + split; [intros [?|?]; [by apply try_not_woken|done]|]. eexists. rewrite decide_True by done. split; [done|].
      by exists i.
  - intros d. case_decide; [|apply (i_nodup _ _ _ HI)]. apply NoDup_app.
    split_and!; [apply (i_nodup _ _ _ HI)| |apply NoDup_singleton].
    intros y Hy ->%list_elem_of_singleton. by apply (try_not_queued c).
  - intros r' Hd. pose proof (try_woken (Waiting i) r' Hd) as HQ.
    setoid_rewrite (reqs_at_phase _ _ _ _ _ Hr) in HQ. exact HQ.
  - intros d Hd. change (held b' d) with (held b d). case_decide; [subst; by left|].
    pose proof (try_awake (Waiting i) d Hd) as HQ. setoid_rewrite (reqs_at_phase _ _ _ _ _ Hr) in HQ.
    destruct HQ as [|[|]]; [by left|done|by right].
Qed.

Variable h : holder.
Definition next_phase : phase := if Nat.eqb (S i) (length (rq_classes q)) then Entered Owner else Taking (S i).

Lemma next_owned : owned (at_phase q next_phase) = firstn (S i) (rq_classes q).
Proof.
  unfold owned, next_phase. cbn [rq_phase rq_classes at_phase].
  destruct (Nat.eqb_spec (S i) (length (rq_classes q))) as [->|]; [|done]. by rewrite firstn_all.
Qed.

Lemma own_inv :
  held b c = false ->
  inv None [] (set_phase r next_phase (put_depth c 1 (set_holders (holders b ++ [(c, h)]) b))).
Proof.
  intros Eh. set (b' := set_phase _ _ _).
  assert (forall r', reqs b' !! r' = if decide (r' = r) then Some (at_phase q next_phase) else reqs b !! r') as HL
    by (intros r'; exact (reqs_at_phase r next_phase (put_depth _ _ (set_holders _ b)) q r' Hr)).
  assert (forall r' d, owns b' r' d <-> owns b r' d \/ (r' = r /\ d = c)) as HO.
  { intros r' d. unfold b'. rewrite (owns_at_phase _ _ _ q) by exact Hr. case_decide; [subst|by intuition].
    rewrite next_owned, (in_firstn_S _ _ _ _ Hc), <- try_owned. unfold owns. rewrite Hr.
    split; [intros [?|?]; eauto|]. intros [(?&[= <-]&?)|[_ ?]]; tauto. }
  assert (forall d, held b' d = (d =s c) || held b d) as HH by (intros d; apply held_app).
  assert (forall r', ~ owns b r' c) as Hfree.
  { intros r' Ho. assert (held b c = true); [|congruence]. apply (i_held _ _ _ HI). left. eauto. }
  change (waiting_for b') with (waiting_for b).
  constructor; try setoid_rewrite HO; try setoid_rewrite HL; try setoid_rewrite HH; change (waiting_for b') with (waiting_for b).
  - intros d. rewrite orb_true_iff, String.eqb_eq, (i_held _ _ _ HI). split.
    + intros [->|[[r' ?]|[]]]; left; [exists r; by right|]. exists r'. by left.
    + intros [[r' [?|[_ ->]]]|[]]; [|by left]. right. left. eauto.
  - done.
  - intros r1 r2 d [H1|[-> ->]] [H2|[-> He]]; subst; try done; [by eapply (i_excl _ _ _ HI)| |];
      exfalso; by eapply Hfree.
  - intros r' q'. case_decide; [intros [= <-]; cbn|]; eauto using i_sorted.
  - intros r' q' j. case_decide; [|eauto using i_take]. intros [= <-]. unfold at_phase, next_phase. cbn [rq_phase rq_classes].
    destruct (Nat.eqb_spec (S i) (length (rq_classes q))); [done|]. intros [= <-]. apply lookup_lt_Some in Hc. lia.
  - intros r' q' j. case_decide.
    + intros [= <-]. unfold at_phase, next_phase. cbn [rq_phase]. by destruct (Nat.eqb _ _).
    + intros Hq' Hj. destruct (i_wait _ _ _ HI _ _ _ Hq' Hj) as (d&Hd&[Hin|Hin]); exists d; (split; [done|]); [by left|].
      right. left. by apply try_due in Hin.
  - intros d r' Hin. pose proof (try_queue next_phase d r' Hin) as HQ. setoid_rewrite (reqs_at_phase _ _ _ _ _ Hr) in HQ. exact HQ.
  - apply (i_nodup _ _ _ HI).
  - intros r' Hd. pose proof (try_woken next_phase r' Hd) as HQ.
    setoid_rewrite (reqs_at_phase _ _ _ _ _ Hr) in HQ. exact HQ.
  - intros d Hd. pose proof (try_awake next_phase d Hd) as HQ. setoid_rewrite (reqs_at_phase _ _ _ _ _ Hr) in HQ.
    destruct HQ as [->|[->|]]; [left; apply orb_true_r|left; by rewrite String.eqb_refl|by right].
Qed.
End Try.

Lemma tryTake_inv now x r q i b :
  reqs b !! r = Some q -> (x = None /\ rq_phase q = Taking i \/ x = Some r /\ rq_phase q = Waiting i /\ r ∉ wakes b) ->
  inv x [] b -> inv None [] (tryTake now r q i b).
Proof.
  intros Hr Hp HI. assert (exists c, rq_classes q !! i = Some c) as [c Hc].
  { destruct Hp as [[_ Hp]|(_&Hp&_)].
    - apply lookup_lt_is_Some. by eapply (i_take _ _ _ HI).
    - destruct (i_wait _ _ _ HI _ _ _ Hr Hp) as (c&?&_). eauto. }
  unfold tryTake. rewrite Hc. destruct (held b c) eqn:Eh; [by eapply wait_inv|].
  by eapply own_inv.
Qed.

Lemma take_inv now r b : inv None [] b -> inv None [] (take now r b).
Proof.
  intros HI. unfold take. destruct (reqs b !! r) as [q|] eqn:Hr; [|done].
  destruct (rq_phase q) eqn:Hp; try done. eapply tryTake_inv; eauto.
Qed.

Lemma resolve_inv now r b : r ∉ wakes b -> inv (Some r) [] b -> inv None [] (resolve now b r).
Proof.
  intros Hw HI. unfold resolve. destruct (i_due _ _ _ HI r) as (q&c&Hr&i&Hp&Hc); [by right|].
  rewrite Hr, Hp. eapply tryTake_inv; [done|right; done|done].
Qed.

Lemma elem_of_filter_ne (r x : nat) l : x ∈ List.filter (fun y => negb (Nat.eqb r y)) l <-> x ∈ l /\ x <> r.
Proof.
  rewrite !list_elem_of_In, filter_In, negb_true_iff, Nat.eqb_neq. intuition.
Qed.

Lemma wake_inv now r b : inv None [] b -> inv None [] (wake now r b).
Proof.
  intros HI. unfold wake. case_bool_decide as Hin; [|done].
  set (b' := set_wakes _ b).
  assert (forall y, due (Some r) b' y <-> due None b y) as HD.
  { intros y. unfold due, b'. cbn [wakes set_wakes]. rewrite elem_of_filter_ne.
    split; [intros [[? _]|[= <-]]; by left|]. intros [?|?]; [|done]. destruct (decide (y = r)) as [->|]; [by right|by left]. }
  assert (inv (Some r) [] b') as HI'.
  { destruct HI as [a1 a2 a3 a4 a5 a6 a7 a8 a9 a10].
    constructor; try setoid_rewrite HD; change (held b') with (held b); change (waiting_for b') with (waiting_for b);
      change (reqs b') with (reqs b); change (owns b') with (owns b); done. }
  apply resolve_inv; [|done]. unfold b'. cbn [wakes set_wakes]. rewrite elem_of_filter_ne. tauto.
Qed.

(** *** Releasing *)

Lemma releaseOne_reqs b c : reqs (releaseOne b c) = reqs b.
Proof. unfold releaseOne. by destruct (waiting_for _ _). Qed.

Lemma releaseOne_held b c d : held (releaseOne b c) d = negb (d =s c) && held b d.
Proof. unfold releaseOne. destruct (waiting_for _ _); apply (held_drop (put_depth c 0 b)). Qed.

Lemma releaseOne_inv R b c :
  In c R -> NoDup R -> inv None R b -> inv None (List.filter (fun d => c <>s d) R) (releaseOne b c).
Proof.
  intros HcR HN HI. set (R' := List.filter _ R).
  assert (forall d, In d R' <-> In d R /\ d <> c) as HR.
  { intros d. unfold R'. rewrite filter_In, negb_true_iff, String.eqb_neq. intuition. }
  pose proof (releaseOne_reqs b c) as HRQ.
  assert (forall r d, owns (releaseOne b c) r d <-> owns b r d) as HO by (intros r d; unfold owns; by rewrite HRQ).
  assert (forall d, d <> c -> waiting_for (releaseOne b c) d = waiting_for b d) as HWne.
  { intros d Hd. unfold releaseOne. destruct (waiting_for _ c); [done|]. exact (eq_trans (waiting_put _ c _ d) (decide_False _ _ Hd)). }
  pose proof HI as [a1 a2 a3 a4 a5 a6 a7 a8 a9 a10].
  assert (waiting_for (releaseOne b c) c = tl (waiting_for b c) /\
          (waiting_for b c = [] /\ wakes (releaseOne b c) = wakes b \/
           exists r q, waiting_for b c = r :: q /\ wakes (releaseOne b c) = wakes b ++ [r])) as [HWc HK].
  { unfold releaseOne. change (waiting_for (drop_holder c (put_depth c 0 b)) c) with (waiting_for b c).
    destruct (waiting_for b c) as [|r q] eqn:Ew; [split; [done|by left]|].
    split; [exact (eq_trans (waiting_put _ c _ c) (decide_True _ _ eq_refl))|]. right. by exists r, q. }
  assert (forall d, waiting_for (releaseOne b c) d <> [] -> d <> c -> held (releaseOne b c) d = held b d) as HHne.
  { intros d _ Hd. rewrite releaseOne_held. apply String.eqb_neq in Hd. by rewrite Hd. }
  assert (forall r, due None b r -> due None (releaseOne b c) r) as HDm.
  { intros r [?|?]; [|done]. left. destruct HK as [[_ ->]|(?&?&_&->)]; set_solver. }
  assert (forall r d, r ∈ waiting_for (releaseOne b c) d -> r ∈ waiting_for b d) as HWs.
  { intros r d. destruct (decide (d = c)) as [->|Hd]; [|by rewrite HWne].
    rewrite HWc. destruct (waiting_for b c); cbn; set_solver. }
  assert (forall r, due None (releaseOne b c) r -> due None b r \/ exists q, waiting_for b c = r :: q) as HDi.
  { intros r [Hr|?]; [|done]. destruct HK as [[_ HK]|(r'&q&Hq&HK)]; rewrite HK in Hr; [by left; left|].
    apply elem_of_app in Hr as [?| ->%list_elem_of_singleton]; [by left; left|]. right. eauto. }
  constructor; try setoid_rewrite HO; rewrite ?HRQ.
  - intros d. rewrite releaseOne_held, andb_true_iff, negb_true_iff, String.eqb_neq, a1, HR. split.
    + intros [? [?|?]]; tauto.
    + intros [[r Hr]|[? ?]]; [|tauto]. split; [|eauto]. intros ->. by apply (a2 c r).
  - intros d r [Hd _]%HR. auto.
  - done.
  - done.
  - done.
  - intros r q i Hq Hi. destruct (a6 r q i Hq Hi) as (d&Hd&[Hin|Hin]); exists d; (split; [done|]); [|right; auto].
    destruct (decide (d = c)) as [->|Hne]; [|left; by rewrite HWne].
    destruct HK as [[HK _]|(r'&q'&HK&HK2)]; [rewrite HK in Hin; set_solver|]. rewrite HWc, HK. cbn. rewrite HK in Hin.
    apply elem_of_cons in Hin as [->|?]; [|by left]. right. left. rewrite HK2. set_solver.
  - intros d r Hin. pose proof (HWs _ _ Hin) as Hin0. destruct (a7 d r Hin0) as [Hnd Hq]. split; [|done].
    intros [?|[q HE]]%HDi; [done|]. destruct (a7 c r) as [_ (q'&Hq'&Hw)]; [rewrite HE; left|].
    destruct Hq as (q''&Hq''&Hw'). assert (q'' = q') as -> by congruence. rewrite (waits_fun _ _ _ Hw' Hw) in *.
    rewrite HWc, HE in Hin. cbn in Hin. pose proof (a8 c) as Hnd'. rewrite HE in Hnd'. by inversion Hnd'.
  - intros d. destruct (decide (d = c)) as [->|Hd]; [|by rewrite HWne].
    rewrite HWc. specialize (a8 c). destruct (waiting_for b c); [done|]. by inversion a8.
  - intros r [?|[q HE]]%HDi; [eauto|]. destruct (a7 c r) as [_ (q'&?&?)]; [rewrite HE; left|]. eauto.
  - intros d Hd. destruct (decide (d = c)) as [->|Hne].
    + right. rewrite HWc in Hd. destruct HK as [[HK _]|(r&q&HK&HK2)]; [by rewrite HK in Hd|].
      destruct (a7 c r) as [_ (q'&?&?)]; [rewrite HK; left|]. exists r, q'. split; [left; rewrite HK2; set_solver|done].
    + rewrite HHne by done. rewrite HWne in Hd by done. destruct (a10 d Hd) as [|(r&q&?&?&?)]; [by left|right].
      exists r, q. auto.
Qed.

Lemma release_all_inv l b : NoDup l -> forall R, (forall c, In c R <-> In c l) -> NoDup R ->
  inv None R b -> inv None [] (fold_left releaseOne l b).
Proof.
  intros HN. revert b. induction HN as [|c l Hc HN IH]; intros b R HR HNR HI; cbn [fold_left].
  - destruct R as [|d R]; [done|]. exfalso. apply (HR d). by left.
  - apply (IH _ (List.filter (fun d => c <>s d) R)).
    + intros d. rewrite filter_In, negb_true_iff, String.eqb_neq, HR. simpl. split; [by intros [[?|?] ?]|].
      intros Hd. split; [by right|]. intros ->. by apply Hc, list_elem_of_In.
    + apply NoDup_ListNoDup, List.NoDup_filter. by apply NoDup_ListNoDup.
    + apply releaseOne_inv; [apply HR; by left|done|done].
Qed.

(** The request of a settled function owns nothing any more. *)
Lemma gone_inv r q b m :
  reqs b !! r = Some q -> rq_phase q = Entered m -> inv None [] b ->
  inv None (owned q) (set_phase r Gone b).
Proof.
  intros Hr Hp [a1 a2 a3 a4 a5 a6 a7 a8 a9 a10].
  assert (forall r' d, owns (set_phase r Gone b) r' d <-> owns b r' d /\ r' <> r) as HO.
  { intros r' d. rewrite (owns_at_phase _ _ _ q) by done. case_decide; [subst|by intuition]. cbn. intuition. }
  assert (forall d, owns b r d <-> In d (owned q)) as HQ.
  { intros d. unfold owns. rewrite Hr. split; [by intros (?&[= <-]&?)|eauto]. }
  assert (forall r' q' d, reqs b !! r' = Some q' -> waits q' d -> r' <> r) as Hw.
  { intros r' q' d Hq' (i&Hi&_) ->. congruence. }
  assert (forall r' q' d, reqs b !! r' = Some q' -> waits q' d -> reqs (set_phase r Gone b) !! r' = Some q') as HK.
  { intros r' q' d Hq' Hd. rewrite (reqs_at_phase _ _ _ q), decide_False; eauto. }
  change (waiting_for b) with (waiting_for (set_phase r Gone b)) in *.
  change (due None b) with (due None (set_phase r Gone b)) in *.
  change (held b) with (held (set_phase r Gone b)) in *.
  constructor; try done.
  - intros c. rewrite a1. setoid_rewrite HO. split.
    + intros [[r' Ho]|[]]. destruct (decide (r' = r)) as [->|]; [right; by apply HQ|]. left. eauto.
    + intros [[r' [? _]]|?%HQ]; left; eauto.
  - intros c r' Hc [Ho Hne]%HO. apply Hne. apply HQ in Hc. eauto.
  - intros r1 r2 c [? _]%HO [? _]%HO. eauto.
  - intros r' q'. rewrite (reqs_at_phase _ _ _ q) by done. case_decide; [intros [= <-]; cbn|]; eauto.
  - intros r' q' i. rewrite (reqs_at_phase _ _ _ q) by done. case_decide; [by intros [= <-]|eauto].
  - intros r' q' i. rewrite (reqs_at_phase _ _ _ q) by done. case_decide; [by intros [= <-]|eauto].
  - intros c r' Hin. destruct (a7 c r' Hin) as [? (q'&?&?)]. eauto.
  - intros r' Hd. destruct (a9 r' Hd) as (q'&c&?&?). eauto 6.
  - intros c Hc. destruct (a10 c Hc) as [|(r'&q'&?&?&?)]; [by left|]. right. eauto 8.
Qed.

Lemma release_phase r p l b : set_phase r p (fold_left releaseOne l b) = fold_left releaseOne l (set_phase r p b).
Proof.
  revert b. induction l as [|c l IH]; intros b; [done|]. cbn [fold_left]. rewrite IH. f_equal.
  unfold releaseOne. change (waiting_for (drop_holder c (put_depth c 0 (set_phase r p b))) c) with
    (waiting_for (drop_holder c (put_depth c 0 b)) c). by destruct (waiting_for _ c).
Qed.

Lemma ss_NoDup l : StronglySorted (fun a c => rank a < rank c) l -> NoDup l.
Proof.
  induction 1 as [|x l HS IH Hx]; constructor; [|done]. intros Hin%list_elem_of_In.
  rewrite List.Forall_forall in Hx. specialize (Hx _ Hin). lia.
Qed.

Lemma unnest_view l b :
  holders (fold_left unnest_one l b) = holders b /\ waiters (fold_left unnest_one l b) = waiters b /\
  reqs (fold_left unnest_one l b) = reqs b /\ wakes (fold_left unnest_one l b) = wakes b.
Proof. revert b. induction l as [|c l IH]; intros b; [done|]. apply (IH (unnest_one b c)). Qed.

Lemma leave_inv r b : inv None [] b -> inv None [] (leave r b).
Proof.
  intros HI. unfold leave. destruct (reqs b !! r) as [q|] eqn:Hr; [|done].
  destruct (rq_phase q) as [| |[]|] eqn:Hp; try done.
  - pose proof (gone_inv r q b Free Hr Hp HI) as HG. unfold owned in HG. by rewrite Hp in HG.
  - pose proof (gone_inv r q b Nested Hr Hp HI) as HG. unfold owned in HG. rewrite Hp in HG.
    destruct (unnest_view (rq_classes q) b) as (E1&E2&E3&E4).
    eapply inv_view; [| | | |exact HG]; cbn; rewrite ?E2, ?E3, ?E4; try done.
    intros c. unfold held. cbn. by rewrite E1.
  - rewrite release_phase. pose proof (gone_inv r q b Owner Hr Hp HI) as HG.
    assert (owned q = rq_classes q) as Hown by (unfold owned; by rewrite Hp). rewrite Hown in HG.
    pose proof (ss_NoDup _ (i_sorted _ _ _ HI _ _ Hr)) as HN.
    apply (release_all_inv _ _) with (R := rq_classes q); [apply NoDup_ListNoDup, List.NoDup_rev; by apply NoDup_ListNoDup| |done|done].
    intros c. apply in_rev.
Qed.

Lemma bus0_inv : inv None [] getBus0.
Proof.
  assert (forall c, waiting_for getBus0 c = []) as HW by done.
  assert (forall r c, ~ owns getBus0 r c) as HO by (intros r c (q&Hq&_); done).
  constructor; try done; try setoid_rewrite HW.
  - intros c. split; [done|]. by intros [[r Hr%HO]|[]].
  - by intros r1 r2 c Hr%HO.
  - intros c r Hr. set_solver.
  - intros c. apply NoDup_nil_2.
  - intros r [Hr|?]; [set_solver|done].
Qed.

Lemma bstep_inv b b' : inv None [] b -> bstep b b' -> inv None [] b'.
Proof.
  intros HI Hs. destruct Hs; [by apply call_inv|by apply take_inv|by apply wake_inv|by apply leave_inv].
Qed.

Lemma reachable_inv b : star bstep getBus0 b -> inv None [] b.
Proof. apply (star_invariant bstep (inv None [])); [apply bstep_inv|apply bus0_inv]. Qed.

(** *** One class

    What the lock of a class that is never released by force guarantees; the forced
    releases of other classes do not disturb it. *)

Definition sole (c : string) (b : bus) : Prop :=
  (held b c = true <-> exists r, owns b r c) /\
  (forall r1 r2, owns b r1 c -> owns b r2 c -> r1 = r2) /\
  (forall r q, reqs b !! r = Some q -> StronglySorted (fun a c => rank a < rank c) (rq_classes q)).

Lemma sole_same c b b' : held b' c = held b c -> reqs b' = reqs b -> sole c b -> sole c b'.
Proof. intros Hh Hr. unfold sole, owns. by rewrite Hh, Hr. Qed.

(** A request changes its phase; it owns the classes [l] now. *)
Lemma sole_phase c b b' r q p :
  reqs b !! r = Some q -> (forall y, reqs b' !! y = reqs (set_phase r p b) !! y) ->
  (In c (owned (at_phase q p)) <-> In c (owned q)) -> held b' c = held b c -> sole c b -> sole c b'.
Proof.
  intros Hr Hq Ho Hh (H1&H2&H3). assert (forall y, owns b' y c <-> owns b y c) as HO.
  { intros y. transitivity (owns (set_phase r p b) y c); [unfold owns; by rewrite Hq|].
    rewrite (owns_at_phase _ _ _ q) by done. case_decide; [subst|done]. rewrite Ho. unfold owns. rewrite Hr.
    split; [by exists q|by intros (?&[= <-]&?)]. }
  split; [|split].
  - rewrite Hh, H1. by setoid_rewrite HO.
  - intros r1 r2. rewrite !HO. auto.
  - intros y q'. rewrite Hq, (reqs_at_phase _ _ _ _ _ Hr). case_decide; [intros [= <-]; exact (H3 r q Hr)|apply H3].
Qed.

Lemma sole_try now c r q i b :
  reqs b !! r = Some q -> owned q = firstn i (rq_classes q) -> sole c b -> sole c (tryTake now r q i b).
Proof.
  intros Hr Ho Hs. unfold tryTake. destruct (rq_classes q !! i) as [d|] eqn:Hd; [|done].
  destruct (held b d) eqn:Eh.
  - apply (sole_phase c b _ r q (Waiting i)); [done|done| |done|done]. by rewrite Ho.
  - set (h := mkHolder _ _ _ _ _ _). change (if Nat.eqb (S i) _ then _ else _) with (next_phase q i).
    set (b' := set_phase _ _ _). destruct Hs as (H1&H2&H3).
    assert (forall y, reqs b' !! y = if decide (y = r) then Some (at_phase q (next_phase q i)) else reqs b !! y) as HL
      by (intros y; exact (reqs_at_phase r _ (put_depth _ _ (set_holders _ b)) q y Hr)).
    assert (forall y e, owns b' y e <-> owns b y e \/ (y = r /\ e = d)) as HO.
    { intros y e. unfold owns. setoid_rewrite HL. case_decide; [subst y|naive_solver].
      rewrite Hr. transitivity (In e (owned (at_phase q (next_phase q i)))); [naive_solver|].
      rewrite next_owned, (in_firstn_S _ _ _ _ Hd), <- Ho. naive_solver. }
    assert (held b' c = (c =s d) || held b c) as HH by apply held_app.
    split; [|split].
    + rewrite HH, orb_true_iff, String.eqb_eq, H1. setoid_rewrite HO. naive_solver.
    + intros r1 r2. rewrite !HO. destruct (decide (c = d)) as [->|]; [|naive_solver].
      assert (forall y, ~ owns b y d) by (intros y Hy; enough (held b d = true) by congruence; apply H1; eauto). naive_solver.
    + intros y q'. rewrite HL. case_decide; [intros [= <-]; exact (H3 r q Hr)|apply H3].
Qed.

Lemma sole_resolve now c b r : sole c b -> sole c (resolve now b r).
Proof.
  intros Hs. unfold resolve. destruct (reqs b !! r) as [q|] eqn:Hr; [|done]. destruct (rq_phase q) eqn:Hp; try done.
  apply sole_try; [done| |done]. unfold owned. by rewrite Hp.
Qed.

Lemma sole_call c cs l s b : sole c b -> sole c (withResourceLocks cs l s b).
Proof.
  intros Hs. unfold withResourceLocks. cbv zeta. pose proof (normal_sorted _ (uniqueClasses_normal cs)) as HS.
  assert (forall cl lb so p b', StronglySorted (fun a c => rank a < rank c) cl -> owned (mkReq cl lb so p) = [] ->
    sole c b' -> sole c (set_reqs (reqs b' ++ [mkReq cl lb so p]) b')) as Hadd.
  { intros cl lb so p b' Hcl Ho (H1&H2&H3). set (b2 := set_reqs _ b').
    assert (forall y, owns b2 y c <-> owns b' y c) as HO.
    { intros y. unfold owns, b2. cbn. split; intros (q&Hq&Hc).
      - apply lookup_app_Some in Hq as [Hq|[_ Hq]]; [by exists q|].
        apply list_lookup_singleton_Some in Hq as [_ <-]. by rewrite Ho in Hc.
      - exists q. split; [by apply lookup_app_l_Some|done]. }
    split; [|split].
    - change (held b2 c) with (held b' c). rewrite H1. by setoid_rewrite HO.
    - intros r1 r2. rewrite !HO. auto.
    - intros y q [Hq|[_ Hq]]%lookup_app_Some; [by apply (H3 y)|]. by apply list_lookup_singleton_Some in Hq as [_ <-]. }
  destruct (is_light _); [by apply Hadd|].
  pose proof (ss_filter _ (fun c => c <>s "light") _ HS) as HF.
  destruct (List.filter _ _) as [|d m]; [by apply Hadd|].
  destruct (forallb _ _); [|by apply Hadd]. apply Hadd; [done..|].
  clear -Hs. revert b Hs. induction (d :: m) as [|e k IH]; intros b Hs; [done|]. cbn [fold_left]. apply IH.
  eapply sole_same; [| |exact Hs]; [|done]. unfold held, nest_one, put_depth. cbn. apply held_mark.
Qed.

Lemma held_releases l b c : held (fold_left releaseOne l b) c = negb (existsb (String.eqb c) l) && held b c.
Proof.
  revert b. induction l as [|d l IH]; intros b; [done|]. cbn [fold_left existsb].
  rewrite IH, releaseOne_held, negb_orb. by destruct (c =s d), (existsb (String.eqb c) l).
Qed.

Lemma sole_leave c r b : sole c b -> sole c (leave r b).
Proof.
  intros Hs. unfold leave. destruct (reqs b !! r) as [q|] eqn:Hr; [|done].
  destruct (rq_phase q) as [| |[]|] eqn:Hp; try done.
  - apply (sole_phase c b _ r q Gone); try done. unfold owned. by rewrite Hp.
  - destruct (unnest_view (rq_classes q) b) as (E1&_&E3&_).
    apply (sole_phase c b _ r q Gone); try done; [intros y; by rewrite !reqs_set_phase, E3| |].
    + unfold owned. by rewrite Hp.
    + unfold held. cbn. by rewrite E1.
  - rewrite release_phase. set (b1 := set_phase r Gone b). destruct Hs as (H1&H2&H3).
    assert (forall l b, reqs (fold_left releaseOne l b) = reqs b) as Hrel.
    { intros l. induction l as [|d l IH]; intros b'; [done|]. cbn. by rewrite IH, releaseOne_reqs. }
    assert (forall y, owns (fold_left releaseOne (rev (rq_classes q)) b1) y c <-> owns b y c /\ y <> r) as HO.
    { intros y. transitivity (owns b1 y c); [unfold owns; by rewrite Hrel|]. unfold b1.
      rewrite (owns_at_phase _ _ _ q) by done. case_decide; [subst|]; naive_solver. }
    split; [|split].
    + rewrite held_releases. change (held b1 c) with (held b c). setoid_rewrite HO. rewrite andb_true_iff, negb_true_iff, H1.
      assert (In c (rq_classes q) <-> owns b r c) as Hc by (unfold owns, owned; rewrite Hr; split; [eexists; split; [done|by rewrite Hp]|intros (?&[= <-]&Hc); by rewrite Hp in Hc]).
      split.
      * intros [Hn [y Hy]]. exists y. split; [done|]. intros ->. apply Hc in Hy. apply not_true_iff_false in Hn. apply Hn.
        apply existsb_exists. exists c. split; [by apply in_rev in Hy|apply String.eqb_refl].
      * intros (y&Hy&Hn). split; [|by exists y]. apply not_true_iff_false. intros (d&Hd&->%String.eqb_eq)%existsb_exists.
        apply in_rev in Hd. apply Hn. apply (H2 y r); [done|by apply Hc].
    + intros r1 r2. rewrite !HO. naive_solver.
    + intros y q'. rewrite Hrel. unfold b1. rewrite (reqs_at_phase _ _ _ _ _ Hr). case_decide; [intros [= <-]; exact (H3 r q Hr)|apply H3].
Qed.

Lemma sole_force now c d b : d <> c -> sole c b -> sole c (fst (forceReleaseResource now d b)).
Proof.
  intros Hd Hs. unfold forceReleaseResource. cbv zeta. cbn [fst].
  assert (sole c (put_waiters d [] (drop_holder d (put_depth d 0 b)))) as H1.
  { eapply sole_same; [| |exact Hs]; [|done]. etrans; [apply (held_drop (put_depth d 0 b) d c)|].
    rewrite (proj2 (String.eqb_neq c d)) by done. done. }
  revert H1. generalize (put_waiters d [] (drop_holder d (put_depth d 0 b))) (waiting_for b d).
  intros b1 l. revert b1. induction l as [|r l IH]; intros b1 H1; [done|]. cbn. by apply IH, sole_resolve.
Qed.

Lemma sole_job c b b' : bstep b b' -> sole c b -> sole c b'.
Proof.
  intros Hs H. destruct Hs; [by apply sole_call| | |by apply sole_leave].
  - unfold take. destruct (reqs b !! r) as [q|] eqn:Hr; [|done]. destruct (rq_phase q) eqn:Hp; try done.
    apply sole_try; [done| |done]. unfold owned. by rewrite Hp.
  - unfold wake. case_bool_decide; [|done]. by apply sole_resolve.
Qed.

Lemma sole_fstep F c b b' : ~ F c -> fstep F b b' -> sole c b -> sole c b'.
Proof. intros Hn [? ? Hs|now d b1 Hd]; [by apply sole_job|]. apply sole_force. congruence. Qed.

Lemma sole_reach F c b : ~ F c -> star (fstep F) getBus0 b -> sole c b.
Proof.
  intros Hn. apply (star_invariant (fstep F) (sole c)); [intros b1 b2 H1 H2; by apply (sole_fstep F c b1)|].
  assert (forall r, ~ owns getBus0 r c) as Ho by by intros r (q&Hq&_).
  split; [split; [done|by intros [r Hr%Ho]]|]. split; [by intros r1 r2 Hr%Ho|done].
Qed.

(** ** Properties *)

(** C36: A class is locked by one owner, as long as it is not released by force: over every
    interleaving of calls, takes, wake-ups and releases, and of forced releases of other
    classes, no two requests own it, and it is held exactly while a request owns it.
    This is the guarantee for owners only: see [bus_reentry_bypass]; and
    [forced_release_two_owners] shows that the condition is needed. *)
Theorem bus_owners_exclusive (F : string -> Prop) (b : bus) (c : string) (r1 r2 : nat) :
  star (fstep F) getBus0 b -> ~ F c ->
  (held b c = true <-> exists r, owns b r c) /\ (owns b r1 c -> owns b r2 c -> r1 = r2).
Proof. intros HS Hc. destruct (sole_reach F c b Hc HS) as (H1&H2&_). split; [done|apply H2]. Qed.

(** The class a request waits for is owned by one that is further ahead. *)
Lemma waits_ahead b r q c :
  inv None [] b -> wakes b = [] -> (forall r q, reqs b !! r = Some q -> moving q = false) ->
  reqs b !! r = Some q -> waits q c ->
  exists r' q' c', reqs b !! r' = Some q' /\ waits q' c' /\ rank c < rank c'.
Proof.
  intros HI Hw Hm Hr (i&Hi&Hc).
  assert (forall r, ~ due None b r) as Hnd by (intros y [Hy|?]; [rewrite Hw in Hy; set_solver|done]).
  destruct (i_wait _ _ _ HI _ _ _ Hr Hi) as (d&Hd&[Hin|Hin]); [|by apply Hnd in Hin].
  assert (d = c) as -> by congruence.
  destruct (i_awake _ _ _ HI c) as [Hh|(r'&?&Hd'&_)]; [intros E; rewrite E in Hin; set_solver| |by apply Hnd in Hd'].
  apply (i_held _ _ _ HI) in Hh as [[r' (q'&Hr'&Ho)]|[]].
  pose proof (Hm _ _ Hr') as Hmv. unfold owned, moving in *. destruct (rq_phase q') as [|j|m|] eqn:Hp; try done.
  destruct (i_wait _ _ _ HI _ _ _ Hr' Hp) as (d'&Hd'&_).
  exists r', q', d'. split; [done|]. split; [by exists j|].
  pose proof (i_sorted _ _ _ HI _ _ Hr') as HS. apply list_elem_of_In, list_elem_of_lookup in Ho as [k Hk].
  assert (k < j)%nat as Hlt by (apply lookup_lt_Some in Hk; rewrite length_firstn in Hk; lia).
  rewrite lookup_take_lt in Hk by done.
  clear -HS Hk Hd' Hlt. revert k j Hk Hd' Hlt. induction HS as [|x l HS IH Hx]; intros k j Hk Hj Hlt; [done|].
  destruct j as [|j]; [lia|]. destruct k as [|k]; cbn in *.
  - simplify_eq. rewrite Forall_forall in Hx. apply Hx. by eapply list_elem_of_lookup_2.
  - apply (IH k j); [done|done|lia].
Qed.

(** C20: The bus never deadlocks: whatever the classes the requests lock together, over
    every interleaving of calls, takes, wake-ups and releases, when no request is about
    to take a class, no function is running and no wake-up is pending, then every request
    has finished. *)
Theorem bus_no_deadlock (b : bus) (r : nat) (q : req) :
  star bstep getBus0 b -> reqs b !! r = Some q ->
  wakes b <> [] \/ (exists r' q', reqs b !! r' = Some q' /\ moving q' = true) \/ rq_phase q = Gone.
Proof.
  intros HI%reachable_inv Hr. destruct (wakes b) eqn:Hw; [right|by left].
  destruct (existsb moving (reqs b)) eqn:Hm.
  { left. apply existsb_exists in Hm as (q'&Hin&Hm). apply list_elem_of_In, list_elem_of_lookup in Hin as [r' ?]. eauto. }
  assert (forall r q, reqs b !! r = Some q -> moving q = false) as Hmv.
  { intros r' q' Hq'. apply not_true_is_false. intros H. apply not_true_iff_false in Hm. apply Hm.
    apply existsb_exists. exists q'. split; [|done]. apply list_elem_of_In. by eapply list_elem_of_lookup_2. }
  right. pose proof (Hmv _ _ Hr) as Hq. unfold moving in Hq. destruct (rq_phase q) as [|i| |] eqn:Hp; try done.
  exfalso. destruct (i_wait _ _ _ HI _ _ _ Hr Hp) as (c&Hc&_).
  assert (forall n r q c, reqs b !! r = Some q -> waits q c -> rank c < 6 -> 6 - rank c <= Z.of_nat n -> False) as Hmax.
  { intros n. induction n as [|n IH]; intros r1 q1 c1 H1 H2 H3 H4; [lia|].
    destruct (waits_ahead b r1 q1 c1 HI Hw Hmv H1 H2) as (r2&q2&c2&?&?&?). apply (IH r2 q2 c2); try done; [|lia].
    apply rank_bound. }
  apply (Hmax (Z.to_nat (6 - rank c)) r q c); [done|by exists i|apply rank_bound|].
  pose proof (rank_bound c). lia.
Qed.







(** *** A waiting request of one class *)

Definition owner_of (now : Z) (r : nat) (q : req) (c : string) (b : bus) : bus :=
  set_phase r (Entered Owner)
    (put_depth c 1 (set_holders (holders b ++ [(c, mkHolder (rq_label q) (rq_source q) now 1 [] false)]) b)).

Lemma owner_reqs now r c b q0 q r' :
  reqs b !! r = Some q ->
  reqs (owner_of now r q0 c b) !! r' = if decide (r' = r) then Some (at_phase q (Entered Owner)) else reqs b !! r'.
Proof. intros Hr. exact (reqs_at_phase r _ (put_depth _ _ (set_holders _ b)) q r' Hr). Qed.

Lemma owner_held now r q c b : held (owner_of now r q c b) c = true.
Proof. refine (eq_trans (held_app b c _ c) _). by rewrite String.eqb_refl. Qed.

Lemma resolve_takes now b r q c :
  reqs b !! r = Some q -> rq_classes q = [c] -> rq_phase q = Waiting 0 -> held b c = false ->
  resolve now b r = owner_of now r q c b.
Proof. intros Hr Hc Hp Hh. unfold resolve. rewrite Hr, Hp. unfold tryTake. rewrite Hc. cbn. by rewrite Hh. Qed.

Lemma resolve_waits now b r q c :
  reqs b !! r = Some q -> rq_classes q = [c] -> rq_phase q = Waiting 0 -> held b c = true ->
  resolve now b r = set_phase r (Waiting 0) (put_waiters c (waiting_for b c ++ [r]) b).
Proof. intros Hr Hc Hp Hh. unfold resolve. rewrite Hr, Hp. unfold tryTake. rewrite Hc. cbn. by rewrite Hh. Qed.

(** What a forced release leaves when two requests of the one class wait. *)
Lemma forced_admits now c b r1 r2 q1 q2 :
  waiting_for b c = [r1; r2] -> r1 <> r2 ->
  reqs b !! r1 = Some q1 -> rq_classes q1 = [c] -> rq_phase q1 = Waiting 0 ->
  reqs b !! r2 = Some q2 -> rq_classes q2 = [c] -> rq_phase q2 = Waiting 0 ->
  let b' := fst (forceReleaseResource now c b) in
  reqs b' !! r1 = Some (at_phase q1 (Entered Owner)) /\ reqs b' !! r2 = Some (at_phase q2 (Waiting 0)) /\
  (forall y, y <> r1 -> y <> r2 -> reqs b' !! y = reqs b !! y) /\
  waiting_for b' c = [r2] /\ wakes b' = wakes b.
Proof.
  intros HW N Hr1 Hc1 Hp1 Hr2 Hc2 Hp2. unfold forceReleaseResource. rewrite HW. cbn [fst fold_left].
  set (b1 := put_waiters c [] (drop_holder c (put_depth c 0 b))).
  assert (held b1 c = false) as Hh1.
  { change (held b1 c) with (held (drop_holder c (put_depth c 0 b)) c). by rewrite held_drop, String.eqb_refl. }
  rewrite (resolve_takes now b1 r1 q1 c Hr1 Hc1 Hp1 Hh1). set (b2 := owner_of now r1 q1 c b1).
  assert (forall y, reqs b2 !! y = if decide (y = r1) then Some (at_phase q1 (Entered Owner)) else reqs b !! y) as HL
    by (intros y; apply (owner_reqs now r1 c b1 q1 q1 y Hr1)).
  assert (reqs b2 !! r2 = Some q2) as Hr2' by (by rewrite HL, decide_False).
  rewrite (resolve_waits now b2 r2 q2 c) by (done || apply owner_held).
  pose proof (fun y => reqs_at_phase r2 (Waiting 0) (put_waiters c (waiting_for b2 c ++ [r2]) b2) q2 y Hr2') as HL3.
  cbv zeta. rewrite !HL3. change (reqs (put_waiters c _ b2)) with (reqs b2). split_and!.
  - by rewrite decide_False, HL, decide_True.
  - by rewrite decide_True.
  - intros y Hy1 Hy2. rewrite HL3, decide_False by done.
    change (reqs (put_waiters c _ b2)) with (reqs b2). by rewrite HL, decide_False.
  - refine (eq_trans (waiting_put b2 c _ c) _). rewrite decide_True by done.
    assert (waiting_for b2 c = waiting_for b1 c) as -> by done. unfold b1. rewrite waiting_put. by rewrite decide_True.
  - done.
Qed.

(** A queued request of one class waits for its first class. *)
Lemma queued_phase b c r q :
  inv None [] b -> r ∈ waiting_for b c -> reqs b !! r = Some q -> rq_classes q = [c] -> rq_phase q = Waiting 0.
Proof.
  intros HI Hy Hr Hc. destruct (i_queue _ _ _ HI _ _ Hy) as [_ (q'&Hq'&i&Hi&Hci)].
  assert (q = q') as -> by congruence. rewrite Hc in Hci. by destruct i.
Qed.

(** A forced release breaks the lock for good: when two requests wait for the class of
    a running owner, the forced release admits the first, and the owner's own release,
    when its function settles at last, frees the class of that new owner and admits the
    second beside it. *)
Theorem forced_release_two_owners (now : Z) (c : string) (b : bus) (r r1 r2 : nat) (q q1 q2 : req) :
  star bstep getBus0 b ->
  reqs b !! r = Some q -> rq_classes q = [c] -> rq_phase q = Entered Owner ->
  reqs b !! r1 = Some q1 -> rq_classes q1 = [c] -> reqs b !! r2 = Some q2 -> rq_classes q2 = [c] ->
  waiting_for b c = [r1; r2] -> wakes b = [] ->
  let b' := wake now r2 (leave r (fst (forceReleaseResource now c b))) in
  (rq_phase <$> reqs b' !! r1) = Some (Entered Owner) /\ (rq_phase <$> reqs b' !! r2) = Some (Entered Owner).
Proof.
  intros HI%reachable_inv Hr Hc Hp Hr1 Hc1 Hr2 Hc2 HW Hk.
  assert (rq_phase q1 = Waiting 0) as Hp1 by (apply (queued_phase b c r1); rewrite ?HW; set_solver).
  assert (rq_phase q2 = Waiting 0) as Hp2 by (apply (queued_phase b c r2); rewrite ?HW; set_solver).
  pose proof (i_nodup _ _ _ HI c) as HN. rewrite HW in HN. inversion HN as [|?? Hne _]; subst.
  assert (r1 <> r2 /\ r <> r1 /\ r <> r2) as (N1&N2&N3) by (split_and!; intros ->; set_solver || congruence).
  destruct (forced_admits now c b r1 r2 q1 q2) as (A1&A2&A3&A4&A5); [done..|].
  set (b3 := fst (forceReleaseResource now c b)) in *.
  unfold leave. rewrite A3 by done. rewrite Hr, Hp, Hc. cbn [rev app fold_left].
  set (b4 := set_phase r Gone (releaseOne b3 c)).
  assert (forall y, y <> r -> reqs b4 !! y = reqs b3 !! y) as HL4.
  { intros y Hyn. unfold b4. by rewrite reqs_set_phase, releaseOne_reqs, decide_False. }
  assert (wakes b4 = [r2] /\ held b4 c = false) as [HK4 HH4].
  { split; [|change (held b4 c) with (held (releaseOne b3 c) c); by rewrite releaseOne_held, String.eqb_refl].
    unfold b4, releaseOne. change (waiting_for (drop_holder c (put_depth c 0 b3)) c) with (waiting_for b3 c).
    rewrite A4. cbn. change (wakes b3 ++ [r2] = [r2]). by rewrite A5, Hk. }
  unfold wake. rewrite bool_decide_true by (rewrite HK4; set_solver). set (b5 := set_wakes _ b4).
  assert (forall y, reqs b5 !! y = reqs b4 !! y) as HL5 by done.
  rewrite (resolve_takes now b5 r2 (at_phase q2 (Waiting 0)) c) by (rewrite ?HL5, ?HL4; done || by auto).
  rewrite !(owner_reqs _ _ _ _ _ (at_phase q2 (Waiting 0))) by (rewrite HL5, HL4; auto).
  rewrite decide_False, decide_True by auto. by rewrite HL5, HL4, A1.
Qed.

(** ** Witnesses *)

Module Demo.
(** Three calls for the graphics class in one turn: the first takes it, the
    others wait. *)
Definition called : bus :=
  getBus0 |> withResourceLock "gpu" "B18_webgpu" "main" |> withResourceLock "gpu" "B22_gpu_timer" "main"
          |> withResourceLock "webgl" "eager_sec:B18_webgpu" "iframe".
Definition queued : bus := called |> take 0 0 |> take 0 1 |> take 0 2.

Lemma called_reachable : star bstep getBus0 called.
Proof. do 3 (eapply star_step; [apply BCall|]). apply star_refl. Qed.

Lemma queued_reachable : star bstep getBus0 queued.
Proof. eapply star_trans; [apply called_reachable|]. do 3 (eapply star_step; [apply BTake|]). apply star_refl. Qed.

(** The audio class is released by force in between. *)
Lemma forced_reachable : star (fstep (fun c => c = "audio")) getBus0 (fst (forceReleaseResource 0 "audio" queued)).
Proof.
  eapply star_trans; [|eapply star_step; [by apply FForce|apply star_refl]].
  unfold queued, called. do 6 (eapply star_trans; [|eapply star_step; [apply FJob; constructor|apply star_refl]]). apply star_refl.
Qed.

Lemma bus_owners_exclusive_witness :
  let b := fst (forceReleaseResource 0 "audio" queued) in
  held b "gpu" = true /\ (owns b 0 "gpu" -> owns b 1 "gpu" -> 0%nat = 1%nat).
Proof.
  assert ("gpu" <> "audio") as Hn by discriminate.
  refine (let H := bus_owners_exclusive (fun c => c = "audio") _ "gpu" 0 1 forced_reachable Hn in
    conj (proj2 (proj1 H) _) (proj2 H)).
  exists 0%nat. eexists. split; [reflexivity|]. by left.
Defined.

Lemma bus_no_deadlock_witness :
  wakes queued <> [] \/ (exists r' q', reqs queued !! r' = Some q' /\ moving q' = true) \/
  Waiting 0 = Gone.
Proof. refine (bus_no_deadlock queued 1 (mkReq ["gpu"] "B22_gpu_timer" "main" (Waiting 0)) queued_reachable _). reflexivity. Defined.


Lemma forced_release_two_owners_witness :
  let b' := wake 22000 2 (leave 0 (fst (forceReleaseResource 22000 "gpu" queued))) in
  (rq_phase <$> reqs b' !! 1%nat) = Some (Entered Owner) /\ (rq_phase <$> reqs b' !! 2%nat) = Some (Entered Owner).
Proof.
  refine (forced_release_two_owners 22000 "gpu" queued 0 1 2 _ _ _ queued_reachable _ _ _ _ _ _ _ _ _); by vm_compute.
Defined.
End Demo.
