(* ===== verification/PackUrl.v ===== *)
(** * The URLs of scripts ([probe/fe/pack_loader.js])

    Where a layer or a pack is loaded from: the manifest's URLs and tokens, and
    the generation that [withGenFilename] writes into a file name that carries
    no hash yet.  The generation is a token without [$]. *)

From S2P Require Import Prelude JsVal Window.
#[local] Open Scope Z_scope.

Section Url.
Variable w : Win.

(** [s.replace(/\/$/, "")] *)
Definition strip_slash (s : string) : string :=
  match srev s "" with String "/"%char t => srev t "" | _ => s end.

Definition manifest : val :=
  let boot := gget "__GR_BOOT__" w in
  jor (gget "__GR_MANIFEST__" w) (jor (jand boot (prop boot "manifest")) VNull).

Definition assetBase : string :=
  let m := manifest in
  if truthy m && truthy (prop m "asset_base") then strip_slash (to_string (prop m "asset_base")) else
  if truthy (gget "__GR_ASSET_BASE__" w) then strip_slash (to_string (gget "__GR_ASSET_BASE__" w)) else "".

(** ** Names *)

Definition is_hex (c : ascii) : bool :=
  let n := N_of_ascii c in (((48 <=? n) && (n <=? 57)) || ((97 <=? n) && (n <=? 102)))%N.

Fixpoint all_char (f : ascii -> bool) (s : string) : bool :=
  match s with EmptyString => true | String c s' => f c && all_char f s' end.

(** [[a-f0-9]{8,16}] *)
Definition is_hash (s : string) : bool :=
  (8 <=? String.length s)%nat && (String.length s <=? 16)%nat && all_char is_hex s.

Definition is_ext (s : string) : bool := mem_str s ["js"; "wasm"; "html"; "css"].

(** Up to the first [c]. *)
Definition before (c : ascii) (s : string) : string := match split_on c s with x :: _ => x | [] => "" end.
(** After the last [c]. *)
Definition after_last (c : ascii) (s : string) : string := List.last (split_on c s) "".

(** The two expressions of the source are anchored at a dot or at the start:
    the name is [<hash>.<ext>] or [<hash>.min.<ext>], with anything and a dot
    before. *)
Definition isHashedOrOpaqueLeaf (name : string) : bool :=
  let base := lower (after_last "/" (before "#" (before "?" name))) in
  match rev (split_on "." base) with
  | ext :: x :: rest =>
    is_ext ext && (is_hash x || ((x =s "min") && match rest with y :: _ => is_hash y | [] => false end))
  | _ => false
  end.

Definition ends_with (suffix s : string) : bool := String.prefix (srev (lower suffix) "") (srev (lower s) "").

(** [p.replace(/suffix$/i, "." + gen + suffix)] *)
Definition inject (gen suffix p : string) : string :=
  stake (String.length p - String.length suffix) p +:+ "." +:+ gen +:+ suffix.

Fixpoint inject_first (gen p : string) (suffixes : list string) : string :=
  match suffixes with
  | [] => p
  | s :: l => if ends_with s p then inject gen s p else inject_first gen p l
  end.

Definition asset_gen : string :=
  let m := gget "__GR_MANIFEST__" w in
  to_string_or_empty (jor (jand m (prop m "asset_gen")) (gget "__GR_ASSET_GEN__" w)).

Definition withGenFilename (logicalPath : string) : string :=
  let p := match logicalPath with String "/"%char t => t | _ => logicalPath end in
  if (asset_gen =s "") || isHashedOrOpaqueLeaf p then p
  else inject_first asset_gen p [".min.js"; ".js"; ".wasm"; ".html"; ".css"].

(** ** URLs *)

Definition layerUrl (name : string) : string :=
  let m := manifest in
  let layer := prop (prop m "layers") name in
  if truthy m && truthy (prop m "layers") && match layer with VStr s => s <>s "" | _ => false end then to_string layer else
  if truthy m && truthy (prop m "assets") && truthy (prop (prop m "assets") name) then to_string (prop (prop m "assets") name) else
  let tokens := jor (jand (jand m (prop m "layers")) (prop (prop m "layers") "pack_tokens"))
                  (jor (jand m (prop m "pack_tokens")) VNull) in
  if truthy tokens && truthy (prop tokens name) then to_string (prop tokens name) else "".

Definition name_char (c : ascii) : bool := negb (existsb (Ascii.eqb c) ["/"; "?"; "#"]%char).

(** The longest prefix of characters that satisfy [f], and the rest. *)
Fixpoint span (f : ascii -> bool) (s : string) : string * string :=
  match s with
  | String c s' => if f c then let '(a, b) := span f s' in (String c a, b) else ("", s)
  | EmptyString => ("", "")
  end.

(** Directory, name and the query or fragment: the last slash after which a
    name of [name_char]s follows, then nothing or a query or a fragment. *)
Fixpoint match_leaf (s : string) : option (string * string * string) :=
  match s with
  | EmptyString => None
  | String c s' =>
    match match_leaf s' with
    | Some (a, b, q) => Some (String c a, b, q)
    | None =>
      if Ascii.eqb c "/" then
        let '(b, q) := span name_char s' in
        match b, q with
        | EmptyString, _ => None
        | _, EmptyString => Some ("/", b, "")
        | _, String d _ => if Ascii.eqb d "/" then None else Some ("/", b, q)
        end
      else None
    end
  end.

Definition withProductVer (src : string) : string :=
  if (src =s "") || isHashedOrOpaqueLeaf src then src else
  if (assetBase <>s "") && negb (String.prefix "/" src) && negb (contains "://" src) then
    strip_slash assetBase +:+ "/" +:+
    withGenFilename (match src with String "."%char (String "/"%char t) => t | _ => src end)
  else
    match match_leaf src with
    | Some (a, b, q) => if isHashedOrOpaqueLeaf b then src else a +:+ withGenFilename b +:+ q
    | None => src
    end.
End Url.

Definition demo_win : Win :=
  win0 |> gset "__GR_MANIFEST__" (VObj [("asset_gen", VStr "0a1b2c3d"); ("asset_base", VStr "/g5/dist/v/1/")]).
Example url_relative : withProductVer demo_win "./gr.race.min.js" = "/g5/dist/v/1/gr.race.0a1b2c3d.min.js".
Proof. reflexivity. Qed.
Example url_flat : withProductVer demo_win "https://pv.x/dist/gr.race.js?v=1" = "https://pv.x/dist/gr.race.0a1b2c3d.js?v=1".
Proof. reflexivity. Qed.
Example url_hashed :
  withProductVer demo_win "/dist/A1B2C3D4E5F6.min.js" = "/dist/A1B2C3D4E5F6.min.js" /\
  isHashedOrOpaqueLeaf "/x/gr.race.a1b2c3d4e5f6.min.js?q" = true /\ isHashedOrOpaqueLeaf "gr.race.min.js" = false.
Proof. repeat split. Qed.
