(* ===== verification/PackPump.v ===== *)
(** * Waves of packs ([probe/fe/pack_loader.js], [kickAll])

    A call of [kickAll] is a wave: its [pump] starts packs while their classes
    are free, each started pack is a run, and every finished run pumps again.
    A run goes through the jobs of [runOne]: start, script, lock, checks, the
    collector's [run], settlement, release of its slot.  The page is the upload
    queue with its window and the loader's variables; the collectors are not
    modelled: their start is an effect, their end a step with any result. *)

From Stdlib Require Import QArith Qround.
From S2P Require Import Prelude JsVal Window MethodMatrix Lifecycle Registry QueueState Freeze QueuePump QueueApi PackClass PackBus PackUrl.
#[local] Open Scope Z_scope.

(** ** State *)

(** [dagState] *)
Record dagst := mkDag {
  d_version : Z;
  d_engine : string;
  d_ua : string;
  d_skipped : list (string * val);
  d_wait : list (string * val);
  d_deadlines : list (string * val);
  d_plan_at : Z;
  d_consumed : bool
}.
Definition dagState0 : dagst := mkDag 0 "unknown" "" [] [] [] 0 false.

Definition eta_dag (d : dagst) : dagst :=
  mkDag (d_version d) (d_engine d) (d_ua d) (d_skipped d) (d_wait d) (d_deadlines d) (d_plan_at d) (d_consumed d).
Definition set_version v (d : dagst) : dagst := ltac:(upd eta_dag d_version d v).
Definition set_engine v (d : dagst) : dagst := ltac:(upd eta_dag d_engine d v).
Definition set_ua v (d : dagst) : dagst := ltac:(upd eta_dag d_ua d v).
Definition set_skipped v (d : dagst) : dagst := ltac:(upd eta_dag d_skipped d v).
Definition set_wait v (d : dagst) : dagst := ltac:(upd eta_dag d_wait d v).
Definition set_deadlines v (d : dagst) : dagst := ltac:(upd eta_dag d_deadlines d v).
Definition set_plan_at v (d : dagst) : dagst := ltac:(upd eta_dag d_plan_at d v).
Definition set_consumed v (d : dagst) : dagst := ltac:(upd eta_dag d_consumed d v).

(** The variables of one [kickAll]; [w_resolved] is the value its promise has
    been resolved with, [w_timer] whether the 120 ms timer is armed. *)
Record wave := mkWave {
  w_packs : list lpack;
  w_next : nat;
  w_activeLight : Z;
  w_activeByClass : gmap string Z;
  w_pending : Z;
  w_maxLight : Z;
  w_serial : bool;
  w_source : string;
  w_results : list val;
  w_resolved : option (list val);
  w_waitN : Z;
  w_timer : bool
}.

Definition eta_wave (w : wave) : wave :=
  mkWave (w_packs w) (w_next w) (w_activeLight w) (w_activeByClass w) (w_pending w) (w_maxLight w) (w_serial w)
    (w_source w) (w_results w) (w_resolved w) (w_waitN w) (w_timer w).
Definition set_packs v (w : wave) : wave := ltac:(upd eta_wave w_packs w v).
Definition set_next v (w : wave) : wave := ltac:(upd eta_wave w_next w v).
Definition set_activeLight v (w : wave) : wave := ltac:(upd eta_wave w_activeLight w v).
Definition set_activeByClass v (w : wave) : wave := ltac:(upd eta_wave w_activeByClass w v).
Definition set_pending v (w : wave) : wave := ltac:(upd eta_wave w_pending w v).
Definition set_results v (w : wave) : wave := ltac:(upd eta_wave w_results w v).
Definition set_resolved v (w : wave) : wave := ltac:(upd eta_wave w_resolved w v).
Definition set_waitN v (w : wave) : wave := ltac:(upd eta_wave w_waitN w v).
Definition set_timer v (w : wave) : wave := ltac:(upd eta_wave w_timer w v).

(** What is due for a run: [runOne], the end of its script, the call of
    [withResourceLocks], the function inside the lock of request [rid], the
    collector's call, the collector's end (or its timeout after [ms]), the
    bookkeeping of its slot. *)
Inductive rphase :=
| RStart
| RLoading (src : string)
| RReady
| RLock (rid : nat)
| RArmed (rid : nat) (allowH : bool) (ms : num)
| RFlight (rid : nat) (ms : num)
| RSettled (v : val)
| RRetired.

(** [r_marks] is what the pump has marked, [r_classes] what [runOne] locks. *)
Record run := mkRun {
  r_wave : nat;
  r_idx : nat;
  r_pack : lpack;
  r_light : bool;
  r_marks : list string;
  r_classes : list string;
  r_phase : rphase
}.

(** What the loader does to the outside: a script requested, a collector
    called, the soft release of the GL governor, the recovery asked of the
    supervisor. *)
Inductive leffect :=
| LScript (src : string)
| LRun (id source : string)
| LSoftRelease
| LRecover.

Record loader := mkLoader {
  health : list (string * val);
  kicked : strset;
  customProbes : list (string * custom);
  dagState : dagst;
  gbus : bus;
  waves : list wave;
  runs : list run;
  log : list leffect
}.

Definition loader0 : loader := mkLoader [] ∅ [] dagState0 getBus0 [] [] [].

Definition eta_loader (l : loader) : loader :=
  mkLoader (health l) (kicked l) (customProbes l) (dagState l) (gbus l) (waves l) (runs l) (log l).
Definition set_health v (l : loader) : loader := ltac:(upd eta_loader health l v).
Definition set_kicked v (l : loader) : loader := ltac:(upd eta_loader kicked l v).
Definition set_customs v (l : loader) : loader := ltac:(upd eta_loader customProbes l v).
Definition set_dag v (l : loader) : loader := ltac:(upd eta_loader dagState l v).
Definition set_bus v (l : loader) : loader := ltac:(upd eta_loader gbus l v).
Definition set_waves v (l : loader) : loader := ltac:(upd eta_loader waves l v).
Definition set_runs v (l : loader) : loader := ltac:(upd eta_loader runs l v).
Definition set_log v (l : loader) : loader := ltac:(upd eta_loader log l v).

(** The page, and what a handler sees of the browser: the clock, the ready
    coordinator's snapshot, the method matrix's engine, and the capabilities of
    the device. *)
Definition page : Type := queue * loader.

Record gpi := mkGpi { gp_heavy : bool; gp_started : bool; gp_tab : string; gp_lease : option (string * num) }.

Record device := mkDevice {
  dv_ua : string;
  dv_touch : Z;
  dv_width : Z;
  dv_memory : option Q;
  dv_cores : option Z;
  dv_save : bool;
  dv_net : string;
  dv_caps : MethodMatrix.caps;
  dv_css_matrix : bool;
  dv_webkit_raf : bool;
  dv_matrix : bool
}.

Record penv := mkPenv { p_now : Z; p_gpi : option gpi; p_dev : device }.

Definition on_q (f : queue -> queue) (p : page) : page := (f (fst p), snd p).
Definition on_l (f : loader -> loader) (p : page) : page := (fst p, f (snd p)).
Definition pwin (p : page) : Win := win (fst p).
Definition on_win (f : Win -> Win) (p : page) : page := on_q (fun q => set_win (f (win q)) q) p.
Definition set_var (k : string) (v : val) (p : page) : page := on_win (gset k v) p.
Definition ops (code stage : string) (d : list (string * val)) (sev : string) (p : page) : page :=
  on_win (ops_report code stage d sev) p.
Definition emit (e : leffect) (p : page) : page := on_l (fun l => set_log (e :: log l) l) p.
Definition on_dag (f : dagst -> dagst) (p : page) : page := on_l (fun l => set_dag (f (dagState l)) l) p.
Definition mark_kicked (ids : list string) (p : page) : page :=
  on_l (fun l => set_kicked (list_to_set ids ∪ kicked l) l) p.
Definition unkick (ids : list string) (p : page) : page := on_l (fun l => set_kicked (kicked l ∖ list_to_set ids) l) p.
Definition is_kicked (id : string) (p : page) : bool := bool_decide (id ∈ kicked (snd p)).

(** A change of the bus, and the locks published in the window. *)
Definition on_bus (f : bus -> bus) (p : page) : page :=
  let p := on_l (fun l => set_bus (f (gbus l)) l) p in on_win (publishLockSnap (gbus (snd p))) p.

(** [bid ? [id, bid] : [id]] *)
Definition ids_of (id bid : string) : list string := if bid =s "" then [id] else [id; bid].

Section Handlers.
Variable e : penv.

(** ** Health *)

(** [Object.assign(o, patch)] *)
Definition assign_obj (patch o : list (string * val)) : list (string * val) :=
  fold_left (fun o '(k, v) => set_prop k v o) patch o.

Definition setHealth (id : string) (patch : list (string * val)) (p : page) : page :=
  let h := health (snd p) in
  let o := match assoc id h with VObj o => o | _ => [("pack_id", VStr id)] end in
  let h := set_prop id (VObj (assign_obj (patch ++ [("ts", vint (p_now e))]) o)) h in
  p |> on_l (set_health h) |> set_var "__GR_PACK_HEALTH__" (VObj h).

(** ** Guards *)

Definition probeHalted (p : page) : bool :=
  gtrue "__GR_STOP_PROBE__" (pwin p) || gtrue "__GR_SKIP_IDENTITY__" (pwin p) || isHalted "" (fst p).

Definition allowKickDespiteHalt (id : string) : bool :=
  if id =s "" then false else
  starts_with "B10x_" id || mem_str id ["B47_sab_clock"; "B18_webgpu"; "B46_audio_deep"] || (id =s "B10_hw_curves").

Definition reg_acked (bid : string) (q : queue) : bool :=
  match registryGet (c_session (cfg q)) bid "main" (c_session (cfg q)) 1 (registry q) with
  | Some r => r_state r =s "acked"
  | None => false
  end.

(** The object a chain of [||] yields, or an empty one; properties of it. *)
Definition gobj (k : string) (p : page) : val := jor (gget k (pwin p)) empty_obj.

Definition primaryB10StillPending (p : page) : bool :=
  if reg_acked "B10_hw_curves" (fst p) || reg_acked "mid.curves" (fst p) then false else
  let so := jor (gget "__GR_SESSION_OUTCOME__" (pwin p)) (jor (gget "__GR_LAST_RESULT__" (pwin p)) VNull) in
  let ok := prop so "batches_ok" in
  if truthy so && truthy ok && (truthy (prop ok "B10_hw_curves") || truthy (prop ok "mid.curves")) then false else
  let cps := gobj "__GR_CYCLE_PROBE_STATUS__" p in
  if is_true (prop cps "has_b10") then false else
  negb (is_true (prop (jor (prop cps "identity_coverage") empty_obj) "has_b10")).

Definition surface_ids : list string :=
  ["B7_sandbox"; "B0_bootstrap"; "B1_conflict"; "B11_interaction"; "B8_gateway"; "B8_gateway_early";
   "B3_system"; "B2_hardware"; "B12_anti_camouflage"].

Definition mustDeferForPrimaryB10 (id : string) (p : page) : bool :=
  if id =s "" then false else
  if (id =s "B10_hw_curves") || (id =s "mid.curves") then false else
  if is_light (resourceClasses_id (customProbes (snd p)) id) then false else
  if mem_str id surface_ids then false else
  primaryB10StillPending p.

(** ** The coordinator's say *)

Definition num_minus (a : Z) (b : num) : num :=
  match b with Fin q => Fin (Qminus (inject_Z a) q) | Inf s => Inf (negb s) | NaN => NaN end.

Definition gpi_allows : bool :=
  match p_gpi e with
  | None => true
  | Some g =>
    if gp_heavy g then true else
    if negb (gp_started g) then true else
    match gp_lease g with
    | None => true
    | Some (tab, hb) =>
      if (tab =s "") || (tab =s gp_tab g) then true else negb (num_ltb (num_minus (p_now e) hb) (num_Z 6000))
    end
  end.

Definition is_b10_pack (id bid : string) : bool :=
  (id =s "B10_hw_curves") || (id =s "mid.curves") || (bid =s "B10_hw_curves") || (bid =s "mid.curves").
Definition is_deep_pack (id bid : string) : bool :=
  starts_with "B10x_" id || starts_with "B10x_" bid || (id =s "B18_webgpu") || (bid =s "B18_webgpu").

(** ** Classes of a wave *)

Definition classesForPack (w : wave) (k : lpack) (p : page) : list string :=
  if w_serial w then ["gpu"] else resourceClasses (customProbes (snd p)) k.

Definition packTouchesGpu (cs : list string) : bool := mem_str "gpu" cs.

Definition active (w : wave) (c : string) : Z := default 0 (w_activeByClass w !! c).

Definition classesFree (w : wave) (cs : list string) : bool :=
  forallb (fun c => (c =s "light") || (active w c <? 1)) cs.

Definition markClasses (cs : list string) (delta : Z) (w : wave) : wave :=
  fold_left (fun w c => if c =s "light" then w
                        else set_activeByClass (<[c := Z.max 0 (active w c + delta)]> (w_activeByClass w)) w) cs w.

Definition busyEx (w : wave) : Z := map_fold (fun _ n s => s + n) 0 (w_activeByClass w).

(** ** Dependencies *)

Definition dagV2For (k : lpack) : option val :=
  if truthy (p_dag k) && is_object (p_dag k) then Some (p_dag k) else None.

Definition arr_of (v : val) : list val := match v with VArr l => l | _ => [] end.

Definition depends_on (k : lpack) : list string :=
  match dagV2For k with Some d => map to_string (arr_of (prop d "depends_on")) | None => [] end.

(** The first dependency that holds the pack back. *)
Definition unmet_dep (k : lpack) (packs : list lpack) (next : nat) (p : page) : option string :=
  if p_tried k then None else
  List.find (fun dep => negb (is_kicked dep p) && negb (existsb (fun q => any_id q =s dep) (firstn next packs)))
    (depends_on k).

Definition publishDagSnapshot (p : page) : page :=
  let d := dagState (snd p) in
  set_var "__GR_DAG_V2_CONSUMED__"
    (VObj [("version", vint (d_version d)); ("engine", VStr (d_engine d)); ("ua_claim", VStr (d_ua d));
           ("skipped", VObj (d_skipped d)); ("dep_wait", VObj (d_wait d)); ("deadlines", VObj (d_deadlines d));
           ("plan_at", vint (d_plan_at d)); ("consumed", VBool (d_consumed d)); ("at", vint (p_now e))]) p.

Definition record_dep (id dep : string) (p : page) : page :=
  p |> on_dag (fun d => set_wait (set_prop id (VObj [("depends_on", VStr dep); ("tried", vint 1)]) (d_wait d)) d)
    |> setHealth id [("dag_dep_wait", VStr dep)]
    |> ops "pack_dag_dep_wait" "dag_v2" [("pack", VStr id); ("depends_on", VStr dep)] "info".

(** ** The pump *)

(** The first index from [from] on whose pack satisfies [f]. *)
Fixpoint search_from (f : lpack -> bool) (i : nat) (l : list lpack) : option nat :=
  match l with
  | [] => None
  | k :: l' => if f k then Some i else search_from f (S i) l'
  end.
Definition search (f : lpack -> bool) (from : nat) (l : list lpack) : option nat := search_from f from (skipn from l).

(** A slot is free for a pack of these classes. *)
Definition slot_free (w : wave) (cs : list string) : bool :=
  if is_light cs then w_activeLight w <? w_maxLight w else classesFree w cs.

(** The three searches for a later pack that may go first. *)
Definition ready_dep (w : wave) (p : page) (k : lpack) : bool :=
  match unmet_dep k (w_packs w) (w_next w) p with
  | Some _ => false
  | None => slot_free w (classesForPack w k p)
  end.
Definition ready_def (w : wave) (p : page) (k : lpack) : bool :=
  negb (mustDeferForPrimaryB10 (p_id k) p) && slot_free w (classesForPack w k p).
Definition ready_free (headIsB10 : bool) (w : wave) (p : page) (k : lpack) : bool :=
  let cs := classesForPack w k p in
  if is_light cs then slot_free w cs
  else negb headIsB10 && negb (mustDeferForPrimaryB10 (any_id k) p) && classesFree w cs.

Definition launch (wi : nat) (k : lpack) (cs : list string) (s : page * wave) : page * wave :=
  let '(p, w) := s in
  let i := w_next w in
  let light := is_light cs in
  let w := set_next (S i) w in
  let w := if light then set_activeLight (w_activeLight w + 1) w else markClasses cs 1 w in
  (on_l (fun l => set_runs (runs l ++ [mkRun wi i k light (if light then [] else cs) [] RStart]) l) p, w).

Definition swap_head (j : nat) (w : wave) : wave := set_packs (swap (w_next w) j (w_packs w)) w.

Definition active_val (w : wave) : val := VObj (map (fun '(c, n) => (c, vint n)) (map_to_list (w_activeByClass w))).

(** [tl.push(row)], trimmed to the last 80. *)
Definition timeline_push (row : val) (p : page) : page :=
  match gget "__GR_PROBE_TIMELINE__" (pwin p) with
  | VArr l => let l := l ++ [row] in set_var "__GR_PROBE_TIMELINE__" (VArr (skipn (length l - 80) l)) p
  | _ => p
  end.

Definition is_b10_id (id : string) : bool := (id =s "B10_hw_curves") || (id =s "mid.curves").

(** No pack can go before a head whose classes are taken: wait and pump again. *)
Definition bus_wait (k : lpack) (s : page * wave) : page * wave :=
  let '(p, w) := s in
  let n := w_waitN w + 1 in
  let w := set_waitN n w in
  let p := if (n =? 1) || (n mod 25 =? 0) then
      p |> ops "pack_bus_wait" "kick" [("head", VStr (p_id k)); ("waits", vint n); ("active", active_val w)]
             (if 50 <=? n then "warn" else "info")
        |> timeline_push (VObj [("t", vint (p_now e)); ("ev", VStr "pack_bus_wait");
                                ("d", VObj [("head", VStr (p_id k)); ("waits", vint n)])])
    else p in
  let p := if (n =? 40) && is_b10_id (p_id k) then emit LRecover p else p in
  (p, set_timer true w).

Inductive turn := Again (s : page * wave) | Stop (s : page * wave).

(** One turn of the loop on the head [k]. *)
Definition pump_turn (wi : nat) (s : page * wave) : turn :=
  let '(p, w) := s in
  match w_packs w !! w_next w with
  | None => Stop s
  | Some k =>
    let cs := classesForPack w k p in
    match unmet_dep k (w_packs w) (w_next w) p with
    | Some dep =>
      let p := record_dep (any_id k) dep p in
      let w := set_packs (<[w_next w := set_tried true k]> (w_packs w)) w in
      match search (ready_dep w p) (S (w_next w)) (w_packs w) with
      | None => Stop (p, w)
      | Some j => Again (publishDagSnapshot p, swap_head j w)
      end
    | None =>
      if is_light cs then
        if w_maxLight w <=? w_activeLight w then Stop s else Again (launch wi k cs s)
      else if mustDeferForPrimaryB10 (p_id k) p then
        match search (ready_def w p) (S (w_next w)) (w_packs w) with
        | None => Stop s
        | Some j => Again (p, swap_head j w)
        end
      else if negb (classesFree w cs) then
        match search (ready_free (is_b10_id (p_id k)) w p) (S (w_next w)) (w_packs w) with
        | None => Stop (bus_wait k s)
        | Some j => Again (p, swap_head j w)
        end
      else Again (launch wi k cs s)
    end
  end.

Fixpoint pump_loop (wi fuel : nat) (s : page * wave) : page * wave :=
  match fuel with
  | O => s
  | S f => match pump_turn wi s with Again s' => pump_loop wi f s' | Stop s' => s' end
  end.

Definition pump_fuel (w : wave) : nat := 4 * length (w_packs w) + 2.

(** [if (probeHalted() && ... next >= packs.length) { resolveAll(results); return; }] *)
Definition pump_over (p : page) (w : wave) : bool :=
  probeHalted p && (w_activeLight w =? 0) && (busyEx w =? 0) && (length (w_packs w) <=? w_next w)%nat.

(** The first [resolve] of a promise decides. *)
Definition resolveAll (w : wave) : wave :=
  match w_resolved w with None => set_resolved (Some (w_results w)) w | Some _ => w end.

Definition pump_on (wi : nat) (s : page * wave) : page * wave :=
  let '(p, w) := s in
  if pump_over p w then (p, resolveAll w) else pump_loop wi (pump_fuel w) s.

Definition put_wave (wi : nat) (w : wave) (p : page) : page := on_l (fun l => set_waves (<[wi := w]> (waves l)) l) p.

Definition pump (wi : nat) (p : page) : page :=
  match waves (snd p) !! wi with
  | None => p
  | Some w => let '(p, w) := pump_on wi (p, w) in put_wave wi w p
  end.

(** The 120 ms timer fires. *)
Definition timer_fires (wi : nat) (p : page) : page :=
  match waves (snd p) !! wi with
  | Some w => if w_timer w then pump wi (put_wave wi (set_timer false w) p) else p
  | None => p
  end.

(** ** [kickAll] *)

Record kopts := mkKopts { ko_shuffle : bool; ko_light : val; ko_serial : bool }.
Definition kopts0 : kopts := mkKopts true VUndef false.

Definition default_light (p : page) : Z :=
  let v := p_dev e in
  let mobile := test_words ["mobi"; "android"; "iphone"; "ipad"] (dv_ua v) ||
                ((1 <? dv_touch v) && (0 <? dv_width v) && (dv_width v <? 900)) in
  let eng := prop (gobj "__GR_ADAPTIVE_POLICY__" p) "engine" in
  let weak := match dv_memory v with Some m => Qle_bool m 2 | None => false end ||
              match dv_cores v with Some n => n <=? 2 | None => false end ||
              dv_save v || mem_str (dv_net v) ["2g"; "slow-2g"] ||
              is_str eng "gecko" || is_str eng "webkit" || MethodMatrix.moz_inner_screen (dv_caps v) ||
              gtrue "__GR_LAB_PRESSURE__" (pwin p) ||
              match dv_cores v with Some n => n <=? 4 | None => false end in
  if weak || mobile then 1 else 2.

(** [maxLight] and the sticky [__GR_PACK_MAX_CONCURRENT__]. *)
Definition adaptive_limits (o : kopts) (p : page) : page * Z :=
  let ap := gget "__GR_ADAPTIVE_POLICY__" (pwin p) in
  let ml := if truthy ap && nonnull (prop ap "max_light") && negb (nonnull (ko_light o))
            then VNum (to_num (prop ap "max_light")) else ko_light o in
  let p := if truthy ap && truthy (prop ap "serial_heavy")
           then set_var "__GR_PACK_MAX_CONCURRENT__" (vint 1) p else p in
  let ml := if negb (nonnull ml) && nonnull (gget "__GR_PACK_MAX_LIGHT__" (pwin p))
            then VNum (to_num (gget "__GR_PACK_MAX_LIGHT__" (pwin p))) else ml in
  let n := if negb (nonnull ml) || negb (num_ltb (num_Z 0) (to_num ml)) then default_light p
           else num_int32 (to_num ml) in
  (p, Z.max 1 (Z.min 2 n)).

Definition is_num (v : val) (n : Z) : bool := match v with VNum m => num_eqb m (num_Z n) | _ => false end.

Definition kick_row (src : string) (p : page) (k : lpack) : val :=
  VObj [("id", VStr (p_id k)); ("source", VStr src); ("class", VStr (resourceClass (customProbes (snd p)) k))].

(** The wave's number, or [None] for a promise already resolved with [[]]. *)
Definition kickAll (packs : list lpack) (sid source : string) (o : kopts) (p : page) : page * option nat :=
  if probeHalted p then (p, None) else
  let source := nonempty source "main" in
  let sessionId := sor sid (to_string (jor (gget "__GR_SESSION_ID__" (pwin p))
                                          (jor (gget "__GR_CYCLE_ID__" (pwin p)) (VStr "")))) in
  let packs := kick_order (ko_shuffle o) sessionId source packs in
  let p := set_var "__GR_PACK_KICK_ORDER__"
             (VArr (arr_of (jor (gget "__GR_PACK_KICK_ORDER__" (pwin p)) (VArr [])) ++ map (kick_row source p) packs)) p in
  let '(p, maxLight) := adaptive_limits o p in
  let serial := ko_serial o || is_num (gget "__GR_PACK_MAX_CONCURRENT__" (pwin p)) 1 in
  let p := set_var "__GR_LAST_KICK_CONC__"
             (VObj [("n", vint (Z.of_nat (length packs))); ("max_light", vint maxLight); ("source", VStr source);
                    ("classes", VArr (map (fun k => VStr (resourceClass (customProbes (snd p)) k)) packs));
                    ("at", vint (p_now e))]) p in
  let n := length packs in
  let wi := length (waves (snd p)) in
  let w := mkWave packs 0 0 ∅ (Z.of_nat n) maxLight serial source (repeat VUndef n)
             (match packs with [] => Some [] | _ => None end) 0 false in
  let p := on_l (fun l => set_waves (waves l ++ [w]) l) p in
  (match packs with [] => p | _ => pump wi p end, Some wi).

(** ** The jobs of a run *)

Definition upd_run (ri : nat) (f : run -> run) (p : page) : page := on_l (fun l => set_runs (alter f ri (runs l)) l) p.
Definition to_phase (ph : rphase) (r : run) : run :=
  mkRun (r_wave r) (r_idx r) (r_pack r) (r_light r) (r_marks r) (r_classes r) ph.
Definition with_classes (cs : list string) (r : run) : run :=
  mkRun (r_wave r) (r_idx r) (r_pack r) (r_light r) (r_marks r) cs (r_phase r).

(** [p.id || p.pack_id] and [p.batch_id || id] *)
Definition rid_ (r : run) : string := p_id (r_pack r).
Definition rbid (r : run) : string := nonempty (p_batch (r_pack r)) (p_id (r_pack r)).

Definition strs (l : list string) : val := VArr (map VStr l).

(** The synchronous part of [runOne]. *)
Definition runOne (w : wave) (ri : nat) (r : run) (p : page) : page :=
  let k := r_pack r in
  let cs := classesForPack w k p in
  let p := setHealth (p_id k)
    [("kick", VStr "started"); ("priority", vint (p_priority k)); ("run", VStr "pending");
     ("schedule", VStr (nonempty (p_schedule k) "static")); ("resource_class", VStr (first_class cs));
     ("resource_classes", strs cs); ("source", VStr (w_source w)); ("hardware", VBool (negb (is_light cs)))] p in
  if p_src k =s "" then
    p |> setHealth (p_id k) [("load", VStr "inline")]
      |> upd_run ri (fun r => r |> with_classes cs |> to_phase RReady)
  else
    let src := withProductVer (pwin p) (p_src k) in
    p |> setHealth (p_id k) [("load", VStr "loading"); ("src", VStr src)]
      |> emit (LScript src)
      |> upd_run ri (fun r => r |> with_classes cs |> to_phase (RLoading src)).

Definition script_done (ok : bool) (src : string) (ri : nat) (r : run) (p : page) : page :=
  let id := rid_ r in
  let p := if ok then setHealth id [("load", VStr "ok")] p
           else p |> setHealth id [("load", VStr "fail")]
                  |> setHealth id [("load", VStr "fail"); ("error", VStr ("load_failed " +:+ src))] in
  upd_run ri (to_phase RReady) p.

Definition lock (w : wave) (ri : nat) (r : run) (p : page) : page :=
  p |> upd_run ri (to_phase (RLock (length (reqs (gbus (snd p))))))
    |> on_bus (withResourceLocks (r_classes r) (rid_ r) (w_source w)).

(** The result of [runOne] is known: the soft release, the locks, the slot. *)
Definition settle (rid ri : nat) (r : run) (v : val) (p : page) : page :=
  let p := if packTouchesGpu (r_classes r) then emit LSoftRelease p else p in
  p |> on_bus (leave rid) |> upd_run ri (to_phase (RSettled v)).

Definition entered (rid : nat) (p : page) : bool :=
  match reqs (gbus (snd p)) !! rid with
  | Some q => match rq_phase q with Entered _ => true | _ => false end
  | None => false
  end.

Definition allow_halted (r : run) : bool := allowKickDespiteHalt (rid_ r) || allowKickDespiteHalt (rbid r).
Definition must_defer (r : run) (p : page) : bool :=
  mustDeferForPrimaryB10 (rid_ r) p || mustDeferForPrimaryB10 (rbid r) p.

Definition num_min (a b : num) : num :=
  match a, b with NaN, _ | _, NaN => NaN | _, _ => if num_ltb b a then b else a end.
Definition num_plus (a : num) (z : Z) : num := match a with Fin q => Fin (Qplus q (inject_Z z)) | n => n end.

Definition run_ms (r : run) (p : page) : num :=
  let ap := gobj "__GR_ADAPTIVE_POLICY__" p in
  let ms := if is_str (prop ap "engine") "webkit" || is_str (prop ap "engine") "gecko" then num_Z 16000 else num_Z 22000 in
  if is_b10_pack (rid_ r) (rbid r) then num_min ms (num_plus (to_num (jor (prop ap "b10_soft_stall_ms") (VNum ms))) 2000)
  else ms.

(** The function inside the lock, up to the collector's promise. *)
Definition execRun (rid ri : nat) (r : run) (p : page) : page :=
  let id := rid_ r in
  let bid := rbid r in
  let sched := nonempty (p_schedule (r_pack r)) "static" in
  if probeHalted p && negb (allow_halted r) then
    p |> setHealth id [("run", VStr "skipped_halt")] |> settle rid ri r VNull else
  if must_defer r p then
    p |> setHealth id [("run", VStr "deferred_wait_b10")]
      |> ops "pack_deferred_b10" "kick" [("id", VStr id)] "info"
      |> unkick (ids_of id bid) |> settle rid ri r VNull else
  if (is_b10_pack id bid || is_deep_pack id bid) && negb gpi_allows then
    p |> setHealth id [("run", VStr "deferred_gpi_light"); ("schedule", VStr sched)]
      |> ops "pack_deferred_gpi_light" "kick" [("id", VStr id); ("bid", VStr bid)] "info"
      |> unkick (ids_of id bid) |> settle rid ri r VNull else
  if negb (p_run (r_pack r)) then
    p |> setHealth id [("run", VStr "noop_missing_run"); ("schedule", VStr sched)]
      |> ops "pack_no_run" "kick" [("id", VStr id)] "warn" |> settle rid ri r VNull
  else
    p |> setHealth id [("run", VStr "running"); ("resource_class", VStr (first_class (r_classes r)));
                       ("resource_classes", strs (r_classes r))]
      |> upd_run ri (to_phase (RArmed rid (allow_halted r) (run_ms r p))).

(** The run counts as done. *)
Definition succeed (rid ri : nat) (r : run) (v : val) (p : page) : page :=
  p |> mark_kicked (ids_of (rid_ r) (rbid r)) |> setHealth (rid_ r) [("run", VStr "ok")] |> settle rid ri r v.

(** The collector is called, unless the page has changed its mind. *)
Definition callRun (w : wave) (rid ri : nat) (allowH : bool) (ms : num) (r : run) (p : page) : page :=
  if probeHalted p && negb allowH then succeed rid ri r VNull p else
  if must_defer r p then succeed rid ri r VNull p else
  p |> emit (LRun (rid_ r) (w_source w)) |> upd_run ri (to_phase (RFlight rid ms)).

Definition clearKicked (id : string) (p : page) : page := if id =s "" then p else unkick [id] p.

(** [maybeClearKickedForRecollect(detail)] *)
Definition maybeClearKickedForRecollect (d : val) (p : page) : page * bool :=
  let bid := to_string_or_empty (prop d "batch_id") in
  if bid =s "" then (p, false) else
  let want := existsb (fun k => is_true (prop d k))
                ["recollect"; "force_recollect"; "forceRecollect"; "quality_gap"; "collect_fail"; "payload_invalid"] ||
              (to_string_or_empty (prop d "action") =s "recollect") ||
              mem_str (to_string_or_empty (prop d "reason")) ["quality_gap"; "collect_fail"] in
  if negb want then (p, false) else
  let p := clearKicked bid p in
  (if truthy (prop d "pack_id") then clearKicked (to_string (prop d "pack_id")) p else p, true).

Definition detail_of (d : val) : list (string * val) := match d with VObj o => o | _ => [] end.

(** The listeners; a falsy detail is an empty object. *)
Definition on_upload_fail (d : val) (p : page) : page := fst (maybeClearKickedForRecollect (jor d empty_obj) p).
Definition on_collect_fail (d : val) (p : page) : page :=
  fst (maybeClearKickedForRecollect (VObj (set_prop "collect_fail" (VBool true) (detail_of d))) p).
Definition on_quality_gap (d : val) (p : page) : page :=
  let o := set_prop "quality_gap" (VBool true) (detail_of d) in
  fst (maybeClearKickedForRecollect (VObj (set_prop "recollect" (VBool (negb (is_false (assoc "recollect" o)))) o)) p).

(** The collector's promise is rejected. *)
Definition fail (rid ri : nat) (r : run) (msg : string) (p : page) : page :=
  let id := rid_ r in
  p |> setHealth id [("run", VStr "fail"); ("error", VStr msg)]
    |> on_collect_fail (VObj [("batch_id", VStr (nonempty (rbid r) id)); ("pack_id", VStr id); ("error", VStr msg)])
    |> settle rid ri r VNull.

Definition forceReleaseResource (cls why : string) (p : page) : page * bool :=
  let cls := nonempty cls "gpu" in
  let '(b, had) := PackBus.forceReleaseResource (p_now e) cls (gbus (snd p)) in
  (p |> on_bus (fun _ => b)
     |> ops "resource_force_release" "pack_loader"
          [("class", VStr cls); ("had", VBool had); ("why", VStr why)] "warn", had).

(** The collector has not settled in time. *)
Definition timeout (rid ri : nat) (r : run) (p : page) : page :=
  let why := "pack_run_timeout:" +:+ rid_ r in
  let p := setHealth (rid_ r) [("run", VStr "timeout"); ("error", VStr "pack_run_timeout")] p in
  let p := fold_left (fun p c => fst (forceReleaseResource c why p)) ["gpu"; "audio"; "cpu"] p in
  succeed rid ri r VNull p.

Definition doneOne (wi : nat) (p : page) : page :=
  match waves (snd p) !! wi with
  | None => p
  | Some w =>
    let w := set_pending (w_pending w - 1) w in
    if w_pending w <=? 0 then put_wave wi (resolveAll w) p else pump wi (put_wave wi w p)
  end.

(** The slot of a settled run is free again. *)
Definition retire (w : wave) (ri : nat) (r : run) (v : val) (p : page) : page :=
  let w := set_results (<[r_idx r := v]> (w_results w)) w in
  let w := if r_light r then set_activeLight (w_activeLight w - 1) w else markClasses (r_marks r) (-1) w in
  p |> upd_run ri (to_phase RRetired) |> put_wave (r_wave r) w |> doneOne (r_wave r).

(** How the collector of a run ends. *)
Inductive ending := Done (v : val) | Failed (msg : string) | TimedOut | Loaded (ok : bool).

(** The next job of run [ri]; [x] is what the outside says, where it does. *)
Definition advance (ri : nat) (x : ending) (p : page) : page :=
  match runs (snd p) !! ri with
  | None => p
  | Some r =>
    match waves (snd p) !! r_wave r with
    | None => p
    | Some w =>
      match r_phase r, x with
      | RStart, _ => runOne w ri r p
      | RLoading src, Loaded ok => script_done ok src ri r p
      | RReady, _ => lock w ri r p
      | RLock rid, _ => if entered rid p then execRun rid ri r p else p
      | RArmed rid allowH ms, _ => callRun w rid ri allowH ms r p
      | RFlight rid _, Done v => succeed rid ri r v p
      | RFlight rid _, Failed msg => fail rid ri r msg p
      | RFlight rid _, TimedOut => timeout rid ri r p
      | RSettled v, _ => retire w ri r v p
      | _, _ => p
      end
    end
  end.
End Handlers.

(** ** The page's events

    Calls of the interface, the jobs of runs, requests and timers, DOM events,
    and [Elsewhere]: whatever the other scripts do to the queue and the window. *)
Inductive event :=
| KickAll (packs : list lpack) (sid source : string) (o : kopts)
| Job (ri : nat) (x : ending)
| PumpTimer (wi : nat)
| TakeLock (rid : nat)
| WakeLock (rid : nat)
| CallLock (classes : list string) (label source : string)
| LeaveLock (rid : nat)
| ForceRelease (cls why : string)
| UploadFail (d : val)
| CollectFail (d : val)
| QualityGap (d : val)
| Register (s : spec)
| MarkKicked (id : string)
| ClearKicked (id : string)
| ResetKicked
| Elsewhere (q : queue).

Definition handle (e : penv) (ev : event) (p : page) : page :=
  match ev with
  | KickAll packs sid source o => fst (kickAll e packs sid source o p)
  | Job ri x => advance e ri x p
  | PumpTimer wi => timer_fires e wi p
  | TakeLock rid => on_bus (take (p_now e) rid) p
  | WakeLock rid => on_bus (wake (p_now e) rid) p
  | CallLock cs label source => on_bus (withResourceLocks cs label source) p
  | LeaveLock rid => on_bus (leave rid) p
  | ForceRelease cls why => fst (forceReleaseResource e cls why p)
  | UploadFail d => on_upload_fail d p
  | CollectFail d => on_collect_fail d p
  | QualityGap d => on_quality_gap d p
  | Register s =>
    match registerCustomProbe (customProbes (snd p)) s with
    | Some l => on_l (set_customs l) p
    | None => p
    end
  | MarkKicked id => mark_kicked [id] p
  | ClearKicked id => clearKicked id p
  | ResetKicked => on_l (set_kicked ∅) p
  | Elsewhere q => (q, snd p)
  end.

Definition prun (evs : list (penv * event)) (p : page) : page := fold_left (fun p '(e, ev) => handle e ev p) evs p.
