(* ===== verification/PackWave.v ===== *)
(** * The pump of a wave

    The loop of a pump ends; its turns preserve what a wave guarantees (slots
    marked by live runs, one run per exclusive class, at most two light ones),
    and a pump that stops leaves a reason why. *)

From Stdlib Require Import Permutation.
From S2P Require Import Prelude JsVal Window Lifecycle Registry QueueState Freeze QueuePump QueueApi PackClass PackBus PackUrl PackPump.
#[local] Open Scope Z_scope.

#[local] Arguments andb : simpl nomatch.

(** ** The loop of the pump ends *)

Inductive pumps (e : penv) (wi : nat) : page * wave -> page * wave -> Prop :=
| pumps_stop s s' : pump_turn e wi s = Stop s' -> pumps e wi s s'
| pumps_again s s1 s' : pump_turn e wi s = Again s1 -> pumps e wi s1 s' -> pumps e wi s s'.

(** A head that would be started now. *)
Definition launchable (p : page) (w : wave) (k : lpack) : bool :=
  let cs := classesForPack w k p in
  if is_light cs then w_activeLight w <? w_maxLight w
  else negb (mustDeferForPrimaryB10 (p_id k) p) && classesFree w cs.

Definition blocked (s : page * wave) : nat :=
  let '(p, w) := s in
  match w_packs w !! w_next w with
  | Some k => match unmet_dep k (w_packs w) (w_next w) p with
              | Some _ => 0 | None => if launchable p w k then 0 else 1 end
  | None => 0
  end.

Definition untried (l : list lpack) : nat := length (List.filter (fun k => negb (p_tried k)) l).

Definition todo (s : page * wave) : nat :=
  2 * (length (w_packs (snd s)) - w_next (snd s)) + 2 * untried (w_packs (snd s)) + blocked s.

Lemma blocked_le s : (blocked s <= 1)%nat.
Proof. unfold blocked. repeat case_match; lia. Qed.

Lemma untried_perm l l' : Permutation l l' -> untried l = untried l'.
Proof. intros HP. unfold untried. induction HP; simpl; repeat case_match; simpl; lia. Qed.

Lemma untried_mark i k l :
  l !! i = Some k -> p_tried k = false -> (untried l = S (untried (<[i := PackClass.set_tried true k]> l)))%nat.
Proof.
  unfold untried. revert i. induction l as [|x l IH]; intros [|i] Hi Hk; try done; simpl in *.
  - simplify_eq. by rewrite Hk.
  - specialize (IH i Hi Hk). destruct (p_tried x); simpl; rewrite IH; done.
Qed.

Lemma search_from_spec f i l j :
  search_from f i l = Some j -> (i <= j)%nat /\ exists k, l !! (j - i)%nat = Some k /\ f k = true.
Proof.
  revert i. induction l as [|x l IH]; intros i; simpl; [done|]. destruct (f x) eqn:E.
  - intros [= <-]. split; [lia|]. exists x. by rewrite Nat.sub_diag.
  - intros [Hl (k&Hk&Hf)]%IH. split; [lia|]. exists k. split; [|done].
    by replace (j - i)%nat with (S (j - S i)) by lia.
Qed.

Lemma search_spec f from l j :
  search f from l = Some j -> (from <= j)%nat /\ exists k, l !! j = Some k /\ f k = true.
Proof.
  intros [Hl (k&Hk&Hf)]%search_from_spec. split; [done|]. exists k. split; [|done].
  rewrite lookup_drop in Hk. by replace (from + (j - from))%nat with j in Hk by lia.
Qed.

Lemma swap_length {A} i j (l : list A) : length (swap i j l) = length l.
Proof. apply Permutation_length, swap_perm. Qed.

Lemma swap_lookup_head {A} i j (l : list A) y :
  (i < j)%nat -> l !! j = Some y -> is_Some (l !! i) -> swap i j l !! i = Some y.
Proof.
  intros Hij Hj [x Hi]. unfold swap. rewrite Hi, Hj. rewrite list_lookup_insert_ne by lia.
  apply list_lookup_insert_eq. by eapply lookup_lt_Some.
Qed.

Lemma swap_lookup_lt {A} i j m (l : list A) : (m < i)%nat -> (i < j)%nat -> swap i j l !! m = l !! m.
Proof. intros. unfold swap. repeat case_match; try done. by rewrite !list_lookup_insert_ne by lia. Qed.

Section Loop.
Variable e : penv.
Variable wi : nat.

(** After a swap the new head is started or waits for a dependency. *)
Lemma swapped_blocked p w j k :
  (w_next w < j)%nat -> w_packs w !! j = Some k -> launchable p w k = true -> is_Some (w_packs w !! w_next w) ->
  blocked (p, swap_head j w) = 0%nat.
Proof.
  intros Hj Hk Hl Hh. unfold blocked, swap_head. cbn [w_packs w_next set_packs].
  rewrite (swap_lookup_head _ _ _ _ Hj Hk Hh). case_match; [done|].
  change (launchable p (set_packs _ w) k) with (launchable p w k). by rewrite Hl.
Qed.

Lemma swap_todo p w j :
  todo (p, swap_head j w) = (2 * (length (w_packs w) - w_next w) + 2 * untried (w_packs w) + blocked (p, swap_head j w))%nat.
Proof.
  unfold todo, swap_head. cbn [snd w_packs w_next set_packs]. rewrite swap_length. by rewrite (untried_perm _ _ (swap_perm (w_next w) j (w_packs w))).
Qed.

Lemma marks_keep cs d w :
  w_packs (markClasses cs d w) = w_packs w /\ w_next (markClasses cs d w) = w_next w.
Proof.
  unfold markClasses. revert w. induction cs as [|c cs IH]; intros w; [done|]. cbn [fold_left].
  destruct (c =s "light"); [apply IH|]. by destruct (IH (set_activeByClass (<[c:=Z.max 0 (active w c + d)]> (w_activeByClass w)) w)) as [-> ->].
Qed.

Lemma launch_keep k cs p w :
  w_packs (snd (launch wi k cs (p, w))) = w_packs w /\ w_next (snd (launch wi k cs (p, w))) = S (w_next w).
Proof. unfold launch. destruct (is_light cs); [done|]. apply (marks_keep cs 1 (set_next (S (w_next w)) w)). Qed.

Lemma launch_todo k cs p w :
  is_Some (w_packs w !! w_next w) -> (todo (launch wi k cs (p, w)) < todo (p, w))%nat.
Proof.
  intros [x Hx%lookup_lt_Some]. pose proof (blocked_le (launch wi k cs (p, w))).
  unfold todo at 1. destruct (launch_keep k cs p w) as [-> ->]. unfold todo. cbn [snd]. lia.
Qed.

(** Each turn that goes on leaves less to do. *)
Lemma turn_less s s' : pump_turn e wi s = Again s' -> (todo s' < todo s)%nat.
Proof.
  destruct s as [p w]. unfold pump_turn. destruct (w_packs w !! w_next w) as [k|] eqn:Hk; [|done].
  assert (is_Some (w_packs w !! w_next w)) as Hs by eauto.
  destruct (unmet_dep k (w_packs w) (w_next w) p) as [dep|] eqn:Hu.
  - set (p1 := record_dep e _ dep p). set (w1 := set_packs _ w).
    destruct (search _ _ _) as [j|] eqn:Ej; [|done]. intros [= <-].
    assert (p_tried k = false) as Ht by (unfold unmet_dep in Hu; by destruct (p_tried k)).
    rewrite swap_todo. pose proof (blocked_le (publishDagSnapshot e p1, swap_head j w1)).
    unfold todo. cbn [snd]. change (w_packs w1) with (<[w_next w := PackClass.set_tried true k]> (w_packs w)).
    rewrite length_insert. change (w_next w1) with (w_next w). pose proof (untried_mark _ _ _ Hk Ht). lia.
  - assert (forall j, launchable p w k = false -> (S (w_next w) <= j)%nat ->
              (exists k', w_packs w !! j = Some k' /\ launchable p w k' = true) -> (todo (p, swap_head j w) < todo (p, w))%nat) as Hswap.
    { intros j Hn Hj (k'&Hk'&Hl). rewrite swap_todo, (swapped_blocked _ _ _ k') by (done || lia).
      unfold todo, blocked. cbn [snd]. rewrite Hk, Hu, Hn. lia. }
    unfold launchable in Hswap. cbv zeta in Hswap.
    destruct (is_light (classesForPack w k p)) eqn:El.
    + case_match; [done|]. intros [= <-]. by apply launch_todo.
    + destruct (mustDeferForPrimaryB10 (p_id k) p) eqn:Ed.
      * destruct (search _ _ _) as [j|] eqn:Ej; [|done]. intros [= <-].
        apply search_spec in Ej as [Hj (k'&Hk'&Hf)]. apply Hswap; [done|done|]. exists k'. split; [done|].
        unfold ready_def, slot_free in Hf. apply andb_true_iff in Hf as [Hd Hf].
        destruct (is_light (classesForPack w k' p)); [done|]. by rewrite Hd.
      * destruct (classesFree w (classesForPack w k p)) eqn:Ef; cbn [negb]; [intros [= <-]; by apply launch_todo|].
        destruct (search _ _ _) as [j|] eqn:Ej; [|done]. intros [= <-].
        apply search_spec in Ej as [Hj (k'&Hk'&Hf)]. apply Hswap; [done|done|]. exists k'. split; [done|].
        unfold ready_free, slot_free in Hf. destruct (is_light (classesForPack w k' p)); [done|].
        apply andb_true_iff in Hf as [[_ Hd]%andb_true_iff Hf]. rewrite Hf, andb_true_r.
        unfold any_id in Hd. destruct (p_id k' =s "") eqn:E0; [|done]. apply String.eqb_eq in E0 as ->. done.
Qed.

Lemma pump_loop_ends fuel s : (todo s < fuel)%nat -> pumps e wi s (pump_loop e wi fuel s).
Proof.
  revert s. induction fuel as [|fuel IH]; intros s Hf; [lia|]. cbn [pump_loop].
  destruct (pump_turn e wi s) as [s1|s1] eqn:E.
  - eapply pumps_again; [done|]. apply IH. pose proof (turn_less _ _ E). lia.
  - by apply pumps_stop.
Qed.

Lemma pump_enough p w : pumps e wi (p, w) (pump_loop e wi (pump_fuel w) (p, w)).
Proof.
  apply pump_loop_ends. unfold todo, pump_fuel. pose proof (blocked_le (p, w)). cbn [snd].
  assert (untried (w_packs w) <= length (w_packs w))%nat by apply filter_length_le. lia.
Qed.

(** An invariant of the turns is one of the loop. *)
Lemma pumps_ind_inv (P : page * wave -> Prop) s s' :
  (forall s s1, P s -> pump_turn e wi s = Again s1 \/ pump_turn e wi s = Stop s1 -> P s1) ->
  P s -> pumps e wi s s' -> P s'.
Proof. intros HP Hs Hp. induction Hp; eauto. Qed.
End Loop.

(** ** The invariant of a wave *)

Definition in_wave (wi : nat) (r : run) : bool := Nat.eqb (r_wave r) wi.
Definition retired (r : run) : bool := match r_phase r with RRetired => true | _ => false end.
Definition live (wi : nat) (r : run) : bool := in_wave wi r && negb (retired r).
Definition count {A} (f : A -> bool) (l : list A) : Z := Z.of_nat (length (List.filter f l)).
Definition has_mark (c : string) (r : run) : bool := mem_str c (r_marks r).

Record wok (wi : nat) (rs : list run) (w : wave) : Prop := Wok {
  k_idx : map r_idx (List.filter (in_wave wi) rs) = seq 0 (w_next w);
  k_next : (w_next w <= length (w_packs w))%nat;
  k_pack : forall r, In r rs -> r_wave r = wi -> w_packs w !! r_idx r = Some (r_pack r);
  k_light : w_activeLight w = count (fun r => live wi r && r_light r) rs;
  k_class : forall c, c <> "light" -> active w c = count (fun r => live wi r && has_mark c r) rs;
  k_nolight : w_activeByClass w !! "light" = None;
  k_one : forall c, active w c <= 1;
  k_max : w_activeLight w <= w_maxLight w /\ 1 <= w_maxLight w <= 2;
  k_marks : forall r, In r rs -> r_wave r = wi ->
      if r_light r then r_marks r = [] else r_marks r <> [] /\ NoDup (r_marks r) /\ ~ In "light" (r_marks r);
  k_pend : w_pending w = Z.of_nat (length (w_packs w)) - count (fun r => in_wave wi r && retired r) rs;
  k_pos : w_resolved w = None -> 0 < w_pending w;
  k_done : w_resolved w <> None -> w_next w = length (w_packs w) /\ count (live wi) rs = 0
}.

(** *** Counting *)

Lemma count_app {A} (f : A -> bool) l l' : count f (l ++ l') = count f l + count f l'.
Proof. unfold count. rewrite List.filter_app, length_app. lia. Qed.

Lemma count_nonneg {A} (f : A -> bool) l : 0 <= count f l.
Proof. unfold count. lia. Qed.

Lemma count_one {A} (f : A -> bool) x : count f [x] = if f x then 1 else 0.
Proof. unfold count. simpl. by destruct (f x). Qed.

Lemma count_ext {A} (f g : A -> bool) l : (forall x, In x l -> f x = g x) -> count f l = count g l.
Proof.
  intros H. unfold count. do 2 f_equal. induction l as [|x l IH]; [done|]. simpl. rewrite H by (by left).
  destruct (g x); [f_equal|]; apply IH; intros; apply H; by right.
Qed.

Lemma count_split {A} (f g : A -> bool) l :
  count f l = count (fun x => f x && g x) l + count (fun x => f x && negb (g x)) l.
Proof.
  unfold count. induction l as [|x l IH]; [done|]. simpl. destruct (f x), (g x); simpl; lia.
Qed.

Lemma count_alter {A} (f : A -> bool) (h : A -> A) i l x :
  l !! i = Some x -> count f (alter h i l) = count f l - (if f x then 1 else 0) + (if f (h x) then 1 else 0).
Proof.
  unfold count. revert i. induction l as [|y l IH]; intros [|i] Hi; try done; cbn in Hi.
  - simplify_eq. cbn. destruct (f x), (f (h x)); simpl; lia.
  - specialize (IH i Hi). cbn. destruct (f y); simpl; change (list_alter h i l) with (alter h i l); lia.
Qed.

Lemma count_le {A} (f g : A -> bool) l : (forall x, In x l -> f x = true -> g x = true) -> count f l <= count g l.
Proof.
  intros H. unfold count. induction l as [|x l IH]; [done|]. simpl.
  assert (length (List.filter f l) <= length (List.filter g l))%nat.
  { apply Nat2Z.inj_le, IH. intros; apply H; [by right|done]. }
  destruct (f x) eqn:E; [rewrite (H x) by (done || by left)|destruct (g x)]; simpl; lia.
Qed.

Lemma count_pos {A} (f : A -> bool) l : 0 < count f l -> exists x, In x l /\ f x = true.
Proof.
  unfold count. destruct (List.filter f l) as [|x m] eqn:E; simpl; [lia|]. intros _. exists x.
  apply filter_In. rewrite E. by left.
Qed.

(** *** What the invariant reads of the runs *)

Definition same_run (r r' : run) : Prop :=
  r_wave r' = r_wave r /\ r_idx r' = r_idx r /\ r_pack r' = r_pack r /\ r_light r' = r_light r /\
  r_marks r' = r_marks r /\ retired r' = retired r.

Lemma same_run_refl r : same_run r r.
Proof. repeat split. Qed.

Lemma same_filter (f : run -> bool) rs rs' :
  (forall r r', same_run r r' -> f r' = f r) -> Forall2 same_run rs rs' ->
  Forall2 same_run (List.filter f rs) (List.filter f rs').
Proof.
  intros Hf. induction 1 as [|r r' rs rs' Hr HF IH]; [constructor|]. simpl. rewrite (Hf _ _ Hr).
  destruct (f r); [by constructor|done].
Qed.

Lemma same_count (f : run -> bool) rs rs' :
  (forall r r', same_run r r' -> f r' = f r) -> Forall2 same_run rs rs' -> count f rs' = count f rs.
Proof. intros Hf HF. unfold count. f_equal. symmetry. eapply Forall2_length, same_filter; eauto. Qed.

Lemma same_In rs rs' r' : Forall2 same_run rs rs' -> In r' rs' -> exists r, In r rs /\ same_run r r'.
Proof.
  induction 1 as [|r x rs rs' Hr HF IH]; [done|]. intros [->|Hin]; [exists r; split; [by left|done]|].
  destruct (IH Hin) as (y&?&?). exists y. split; [by right|done].
Qed.

Ltac same_fields := intros ?? (E1&E2&E3&E4&E5&E6); unfold live, in_wave, has_mark; rewrite ?E1, ?E2, ?E3, ?E4, ?E5, ?E6; done.

Lemma wok_same wi rs rs' w : Forall2 same_run rs rs' -> wok wi rs w -> wok wi rs' w.
Proof.
  intros HF [a1 a2 a3 a4 a5 a6 a7 a8 a9 a10 a11 a12]. constructor; try done.
  - rewrite <- a1. assert (Forall2 same_run (List.filter (in_wave wi) rs) (List.filter (in_wave wi) rs')) as HFi.
    { apply same_filter; [same_fields|done]. }
    clear -HFi. induction HFi as [|r r' l l' (_&E&_) _ IH]; [done|]. simpl. by rewrite E, IH.
  - intros r' [r [Hr (E1&E2&E3&_)]]%(same_In _ _ _ HF) Hw. rewrite E2, E3. apply a3; [done|]. by rewrite <- E1.
  - rewrite a4. symmetry. apply same_count; [same_fields|done].
  - intros c Hc. rewrite a5 by done. symmetry. apply same_count; [same_fields|done].
  - intros r' [r [Hr (E1&E2&E3&E4&E5&_)]]%(same_In _ _ _ HF) Hw. rewrite E4, E5. apply a9; [done|]. by rewrite <- E1.
  - rewrite a10. f_equal. symmetry. apply same_count; [same_fields|done].
  - intros Hr. destruct (a12 Hr) as [? <-]. split; [done|]. apply same_count; [same_fields|done].
Qed.

(** A run of another wave changes or appears. *)
Lemma wok_other wi rs rs' w :
  List.filter (in_wave wi) rs' = List.filter (in_wave wi) rs -> wok wi rs w -> wok wi rs' w.
Proof.
  intros HE. assert (forall g, count (fun r => in_wave wi r && g r) rs' = count (fun r => in_wave wi r && g r) rs) as HC.
  { intros g. unfold count. by rewrite !(filter_filter (in_wave wi) g), HE. }
  assert (forall g, count (fun r => live wi r && g r) rs' = count (fun r => live wi r && g r) rs) as HC'.
  { intros g. pose proof (HC (fun r => negb (retired r) && g r)) as H.
    unfold count in *. erewrite (List.filter_ext (fun r => live wi r && g r)); [rewrite H|].
    - do 2 f_equal. apply List.filter_ext. intros r. unfold live. by rewrite andb_assoc.
    - intros r. unfold live. by rewrite andb_assoc. }
  assert (forall r, In r rs' /\ r_wave r = wi <-> In r rs /\ r_wave r = wi) as HI.
  { intros r. assert (r_wave r = wi <-> in_wave wi r = true) as -> by (unfold in_wave; by rewrite Nat.eqb_eq).
    rewrite <- !filter_In. by rewrite HE. }
  intros [a1 a2 a3 a4 a5 a6 a7 a8 a9 a10 a11 a12]. constructor; try done.
  - by rewrite HE.
  - intros r Hr Hw. apply a3; [|done]. by apply HI.
  - by rewrite HC'.
  - intros c Hc. by rewrite HC', a5.
  - intros r Hr Hw. apply a9; [|done]. by apply HI.
  - by rewrite HC.
  - intros Hr. destruct (a12 Hr) as [? H]. split; [done|]. rewrite <- H. apply (HC (fun r => negb (retired r))).
Qed.

(** *** The turns of the pump *)

Lemma active_mark cs d w c :
  NoDup cs -> ~ In "light" cs ->
  active (markClasses cs d w) c = if mem_str c cs then Z.max 0 (active w c + d) else active w c.
Proof.
  unfold markClasses. revert w. induction cs as [|x cs IH]; intros w HN HL; [done|]. cbn [fold_left].
  inversion HN as [|?? Hx HN']; subst. destruct (x =s "light") eqn:E.
  { apply String.eqb_eq in E as ->. exfalso. apply HL. by left. }
  rewrite IH; [|done|intros H; apply HL; by right]. change (mem_str c (x :: cs)) with ((c =s x) || mem_str c cs).
  unfold active. cbn. destruct (c =s x) eqn:Ec; simpl.
  - apply String.eqb_eq in Ec as ->. rewrite lookup_insert_eq. cbn.
    destruct (mem_str x cs) eqn:Em; [|done]. exfalso. apply Hx, list_elem_of_In. by apply mem_str_In.
  - apply String.eqb_neq in Ec. by rewrite lookup_insert_ne by congruence.
Qed.

Lemma marks_frame cs d w :
  let w' := markClasses cs d w in
  w_packs w' = w_packs w /\ w_next w' = w_next w /\ w_activeLight w' = w_activeLight w /\
  w_pending w' = w_pending w /\ w_maxLight w' = w_maxLight w /\ w_serial w' = w_serial w /\
  w_source w' = w_source w /\ w_results w' = w_results w /\ w_resolved w' = w_resolved w /\
  w_waitN w' = w_waitN w /\ w_timer w' = w_timer w /\
  (w_activeByClass w !! "light" = None -> w_activeByClass w' !! "light" = None).
Proof.
  cbv zeta. unfold markClasses. revert w. induction cs as [|c cs IH]; intros w; [done|]. cbn [fold_left].
  destruct (c =s "light") eqn:E; [apply IH|].
  destruct (IH (set_activeByClass (<[c:=Z.max 0 (active w c + d)]> (w_activeByClass w)) w)) as (H1&H2&H3&H4&H5&H6&H7&H8&H9&H10&H11&H12).
  split_and!; try done. intros HL. apply H12. cbn. rewrite lookup_insert_ne; [done|]. by apply String.eqb_neq.
Qed.

(** The invariant reads neither the counter of waits nor the timer, nor the
    results. *)
Lemma wok_view wi rs w w' :
  w_packs w' = w_packs w -> w_next w' = w_next w -> w_activeLight w' = w_activeLight w ->
  w_activeByClass w' = w_activeByClass w -> w_maxLight w' = w_maxLight w ->
  w_pending w' = w_pending w -> w_resolved w' = w_resolved w -> wok wi rs w -> wok wi rs w'.
Proof.
  intros E1 E2 E3 E4 E5 E6 E7 [a1 a2 a3 a4 a5 a6 a7 a8 a9 a10 a11 a12].
  constructor; unfold active; rewrite ?E1, ?E2, ?E3, ?E4, ?E5, ?E6, ?E7; auto.
Qed.

Lemma wok_packs wi rs w l :
  length l = length (w_packs w) -> (forall i, (i < w_next w)%nat -> l !! i = w_packs w !! i) ->
  wok wi rs w -> wok wi rs (set_packs l w).
Proof.
  intros HL Hl [a1 a2 a3 a4 a5 a6 a7 a8 a9 a10 a11 a12].
  constructor; cbn; rewrite ?HL; auto.
  intros r Hr Hw. rewrite Hl; [auto|].
  assert (In (r_idx r) (seq 0 (w_next w))) as H%in_seq; [|lia]. rewrite <- a1. apply in_map, filter_In.
  split; [done|]. unfold in_wave. by apply Nat.eqb_eq.
Qed.

Definition new_run (wi : nat) (w : wave) (k : lpack) (cs : list string) : run :=
  mkRun wi (w_next w) k (is_light cs) (if is_light cs then [] else cs) [] RStart.

Lemma in_wave_new wi wi' w k cs : in_wave wi' (new_run wi w k cs) = Nat.eqb wi wi'.
Proof. done. Qed.

Lemma launch_wok wi rs w k cs p :
  wok wi rs w -> w_packs w !! w_next w = Some k -> normal cs ->
  slot_free w cs = true -> wok wi (rs ++ [new_run wi w k cs]) (snd (launch wi k cs (p, w))).
Proof.
  intros [a1 a2 a3 a4 a5 a6 a7 a8 a9 a10 a11 a12] Hk Hn Hs. pose proof (lookup_lt_Some _ _ _ Hk) as Hlt.
  assert (live wi (new_run wi w k cs) = true) as HL by (unfold live, in_wave; cbn; by rewrite Nat.eqb_refl).
  assert (w_resolved w = None) as Hres.
  { destruct (w_resolved w) eqn:E; [|done]. destruct (a12 ltac:(done)). lia. }
  assert (is_light cs = false -> NoDup cs /\ ~ In "light" cs) as Hcs.
  { intros Hl. split; [by apply normal_NoDup|]. intros Hin. by rewrite (normal_light cs Hn Hin) in Hl. }
  set (w' := snd (launch wi k cs (p, w))).
  assert (w_packs w' = w_packs w /\ w_next w' = S (w_next w) /\ w_pending w' = w_pending w /\
          w_maxLight w' = w_maxLight w /\ w_resolved w' = w_resolved w /\
          w_activeLight w' = w_activeLight w + (if is_light cs then 1 else 0) /\
          (w_activeByClass w' !! "light" = None) /\
          (forall c, active w' c = active w c + if is_light cs then 0 else if mem_str c cs then 1 else 0))
    as (E1&E2&E3&E4&E5&E6&E7&E8).
  { unfold w', launch. destruct (is_light cs) eqn:El; cbn [snd].
    - split_and!; try done. intros c. change (active _ c) with (active w c). lia.
    - destruct (Hcs eq_refl) as [HN HNl].
      destruct (marks_frame cs 1 (set_next (S (w_next w)) w)) as (F1&F2&F3&F4&F5&F6&F7&F8&F9&F10&F11&F12).
      split_and!; try done; [by rewrite F3; cbn; lia|by apply F12|].
      intros c. rewrite active_mark by done. change (active (set_next _ w) c) with (active w c).
      destruct (mem_str c cs) eqn:Em; [|lia].
      assert (c <> "light") by (intros ->; by apply HNl, mem_str_In). pose proof (a5 c ltac:(done)).
      pose proof (count_nonneg (fun r => live wi r && has_mark c r) rs). lia. }
  clearbody w'. unfold slot_free in Hs. constructor; rewrite ?E1, ?E2, ?E3, ?E4, ?E5; try done.
  - rewrite List.filter_app, map_app, a1, seq_S. cbn [List.filter]. by rewrite in_wave_new, Nat.eqb_refl.
  - intros r [Hr|[<-|[]]]%in_app_iff Hw; [by apply a3|done].
  - rewrite E6, a4, count_app, count_one, HL. cbn. destruct (is_light cs); lia.
  - intros c Hc. rewrite E8, (a5 c Hc), count_app, count_one, HL. unfold has_mark. cbn.
    destruct (is_light cs); cbn; [lia|]. unfold mem_str. by destruct (existsb (String.eqb c) cs).
  - intros c. rewrite E8. specialize (a7 c). destruct (is_light cs) eqn:El; [lia|].
    destruct (mem_str c cs) eqn:Em; [|lia]. unfold classesFree in Hs. rewrite forallb_forall in Hs.
    apply mem_str_In in Em. pose proof (Hs c Em) as Hc. apply orb_true_iff in Hc as [Hc%String.eqb_eq|Hc%Z.ltb_lt]; [|lia].
    subst. exfalso. by apply (proj2 (Hcs eq_refl)).
  - rewrite E6. destruct (is_light cs); [apply Z.ltb_lt in Hs|]; lia.
  - intros r [Hr|[<-|[]]]%in_app_iff Hw; [by apply a9|]. cbn. destruct (is_light cs) eqn:El; [done|].
    destruct (Hcs eq_refl). split_and!; [by apply normal_nonempty|done|done].
  - rewrite a10, count_app, count_one. cbn. rewrite andb_false_r. lia.
Qed.

(** What a pump does to the page and its wave. *)
Definition untry (l : list lpack) : list lpack := map (PackClass.set_tried false) l.

Record sound (wi : nat) (s s' : page * wave) : Prop := Sound {
  so_wok : wok wi (runs (snd (fst s))) (snd s) -> wok wi (runs (snd (fst s'))) (snd s');
  so_waves : waves (snd (fst s')) = waves (snd (fst s));
  so_other : forall wi', wi' <> wi ->
    List.filter (in_wave wi') (runs (snd (fst s'))) = List.filter (in_wave wi') (runs (snd (fst s)));
  so_runs : forall r, In r (runs (snd (fst s'))) -> In r (runs (snd (fst s))) \/ r_wave r = wi;
  so_packs : Permutation (untry (w_packs (snd s'))) (untry (w_packs (snd s)));
  so_results : w_results (snd s') = w_results (snd s);
  so_fixed : w_pending (snd s') = w_pending (snd s) /\ w_resolved (snd s') = w_resolved (snd s) /\
             (w_timer (snd s) = true -> w_timer (snd s') = true)
}.

#[export] Instance sound_preorder wi : PreOrder (sound wi).
Proof.
  split.
  - intros s. constructor; auto.
  - intros x y z [a1 a2 a3 a4 a5 a6 (a7&a8&a9)] [b1 b2 b3 b4 b5 b6 (b7&b8&b9)]. constructor; auto; try congruence.
    + intros wi' H. rewrite b3, a3; done.
    + intros r [H|H]%b4; auto.
    + by rewrite b5.
    + split_and!; try congruence; auto.
Qed.

Lemma untry_swap i j l : Permutation (untry (swap i j l)) (untry l).
Proof. unfold untry. apply Permutation_map, swap_perm. Qed.

Lemma untry_mark i k l : l !! i = Some k -> untry (<[i := PackClass.set_tried true k]> l) = untry l.
Proof.
  intros Hk. unfold untry. revert i Hk. induction l as [|x l IH]; intros [|i] Hk; try done; cbn in *.
  - by simplify_eq.
  - f_equal. by apply IH.
Qed.

Lemma swap_sound wi p p' w j k :
  runs (snd p') = runs (snd p) -> waves (snd p') = waves (snd p) ->
  (w_next w < j)%nat -> w_packs w !! j = Some k -> sound wi (p, w) (p', swap_head j w).
Proof.
  intros HR HW Hj Hk. constructor; cbn [fst snd]; rewrite ?HR, ?HW; auto.
  - intros HI. apply wok_packs; [apply swap_length| |done]. intros i Hi. by apply swap_lookup_lt.
  - apply untry_swap.
Qed.

Lemma mark_sound wi p p' w k :
  runs (snd p') = runs (snd p) -> waves (snd p') = waves (snd p) -> w_packs w !! w_next w = Some k ->
  sound wi (p, w) (p', set_packs (<[w_next w := PackClass.set_tried true k]> (w_packs w)) w).
Proof.
  intros HR HW Hk. constructor; cbn [fst snd]; rewrite ?HR, ?HW; auto.
  - intros HI. apply wok_packs; [apply length_insert| |done]. intros i Hi. rewrite list_lookup_insert_ne by lia. done.
  - cbn [w_packs set_packs]. by rewrite (untry_mark _ _ _ Hk).
Qed.

Lemma launch_sound wi p w k cs :
  w_packs w !! w_next w = Some k -> normal cs -> slot_free w cs = true ->
  sound wi (p, w) (launch wi k cs (p, w)).
Proof.
  intros Hk Hn Hs.
  assert (runs (snd (fst (launch wi k cs (p, w)))) = runs (snd p) ++ [new_run wi w k cs]) as HR by done.
  assert (waves (snd (fst (launch wi k cs (p, w)))) = waves (snd p)) as HW by done.
  constructor; cbn [fst snd]; rewrite ?HR, ?HW; auto.
  - intros HI. by apply launch_wok.
  - intros wi' Hne. rewrite List.filter_app. cbn [List.filter]. rewrite in_wave_new.
    apply Nat.eqb_neq in Hne. rewrite Nat.eqb_sym, Hne. apply app_nil_r.
  - intros r [Hr|[<-|[]]]%in_app_iff; [by left|by right].
  - destruct (launch_keep wi k cs p w) as [-> _]. done.
  - unfold launch. destruct (is_light cs); [done|]. apply (marks_frame cs 1 (set_next (S (w_next w)) w)).
  - unfold launch. destruct (is_light cs); [done|].
    destruct (marks_frame cs 1 (set_next (S (w_next w)) w)) as (_&_&_&H1&_&_&_&_&H2&_&H3&_). cbn [snd].
    by rewrite H1, H2, H3.
Qed.

Lemma wait_sound wi e k p w : sound wi (p, w) (bus_wait e k (p, w)).
Proof.
  assert (runs (snd (fst (bus_wait e k (p, w)))) = runs (snd p) /\
          waves (snd (fst (bus_wait e k (p, w)))) = waves (snd p)) as [HR HW].
  { unfold bus_wait, timeline_push. cbn [fst snd]. repeat case_match; done. }
  constructor; cbn [fst snd]; rewrite ?HR, ?HW; auto. by apply wok_view.
Qed.

Lemma classes_normal w k p : normal (classesForPack w k p).
Proof.
  unfold classesForPack. destruct (w_serial w); [|auto with grdb]. apply normal_one. right. by left.
Qed.

Lemma turn_sound e wi s s' : pump_turn e wi s = Again s' \/ pump_turn e wi s = Stop s' -> sound wi s s'.
Proof.
  destruct s as [p w]. unfold pump_turn. destruct (w_packs w !! w_next w) as [k|] eqn:Hk; [|by intros [|[= <-]]].
  destruct (unmet_dep k (w_packs w) (w_next w) p) as [dep|] eqn:Hu.
  - set (p1 := record_dep e _ dep p). set (w1 := set_packs _ w).
    assert (sound wi (p, w) (p1, w1)) as H1 by (by apply mark_sound).
    destruct (search _ _ _) as [j|] eqn:Ej; [|by intros [|[= <-]]].
    apply search_spec in Ej as [Hj (k'&Hk'&_)]. intros [[= <-]|]; [|done]. etrans; [exact H1|].
    by eapply swap_sound.
  - pose proof (classes_normal w k p) as Hn.
    destruct (is_light (classesForPack w k p)) eqn:El.
    + destruct (Z.leb_spec (w_maxLight w) (w_activeLight w)); intros [[= <-]|[= <-]]; try done.
      apply launch_sound; [done|done|]. unfold slot_free. rewrite El. by apply Z.ltb_lt.
    + destruct (mustDeferForPrimaryB10 (p_id k) p).
      * destruct (search _ _ _) as [j|] eqn:Ej; [|by intros [|[= <-]]].
        apply search_spec in Ej as [Hj (k'&Hk'&_)]. intros [[= <-]|]; [|done]. by eapply swap_sound.
      * destruct (classesFree w (classesForPack w k p)) eqn:Ef; cbn [negb].
        { intros [[= <-]|]; [|done]. apply launch_sound; [done|done|]. unfold slot_free. by rewrite El. }
        destruct (search _ _ _) as [j|] eqn:Ej; [|intros [|[= <-]]; [done|apply wait_sound]].
        apply search_spec in Ej as [Hj (k'&Hk'&_)]. intros [[= <-]|]; [|done]. by eapply swap_sound.
Qed.

Lemma pumps_sound e wi s s' : pumps e wi s s' -> sound wi s s'.
Proof.
  induction 1 as [s s' H|s s1 s' H _ IH]; [apply (turn_sound e); by right|].
  etrans; [apply (turn_sound e); by left|done].
Qed.

(** *** Why a pump stops *)

(** Identifiers that the primary curves can hold back. *)
Definition deferrable (id : string) : bool := (id <>s "") && negb (is_b10_id id) && negb (mem_str id surface_ids).

Definition held_head (w : wave) : Prop :=
  exists k, w_packs w !! w_next w = Some k /\ (p_tried k = true \/ deferrable (p_id k) = true).

Definition moves_on (wi : nat) (rs : list run) (w : wave) : Prop :=
  w_resolved w <> None \/ 0 < count (live wi) rs \/ w_timer w = true \/ held_head w.

Lemma mustDefer_deferrable id p : mustDeferForPrimaryB10 id p = true -> deferrable id = true.
Proof.
  unfold mustDeferForPrimaryB10, deferrable, is_b10_id. destruct (id =s ""); [done|].
  destruct (_ || _); [done|]. destruct (is_light _); [done|]. by destruct (mem_str id surface_ids).
Qed.

Lemma stop_why e wi s s' :
  pumps e wi s s' ->
  (length (w_packs (snd s')) <= w_next (snd s'))%nat \/ w_maxLight (snd s') <= w_activeLight (snd s') \/
  w_timer (snd s') = true \/ held_head (snd s').
Proof.
  induction 1 as [s s' H|]; [|done]. destruct s as [p w]. unfold pump_turn in H.
  destruct (w_packs w !! w_next w) as [k|] eqn:Hk; [|simplify_eq; left; cbn [snd]; by apply lookup_ge_None_1].
  destruct (unmet_dep k (w_packs w) (w_next w) p) as [dep|] eqn:Hu.
  - destruct (search _ _ _); [done|]. simplify_eq. right. right. right. eexists. cbn.
    rewrite list_lookup_insert_eq by (by eapply lookup_lt_Some). split; [done|by left].
  - destruct (is_light (classesForPack w k p)).
    + destruct (Z.leb_spec (w_maxLight w) (w_activeLight w)); [|done]. simplify_eq. right. by left.
    + destruct (mustDeferForPrimaryB10 (p_id k) p) eqn:Hd.
      * destruct (search _ _ _); [done|]. simplify_eq. do 3 right. exists k. split; [done|].
        right. by eapply mustDefer_deferrable.
      * destruct (classesFree _ _); [done|]. destruct (search _ _ _); [done|]. injection H as <-. right. right. left. reflexivity.
Qed.

(** Launched runs are live or retired. *)
Lemma launched_count wi rs w :
  wok wi rs w -> Z.of_nat (w_next w) = count (live wi) rs + count (fun r => in_wave wi r && retired r) rs.
Proof.
  intros HI. pose proof (k_idx _ _ _ HI) as H. apply (f_equal (@length nat)) in H. rewrite length_map, length_seq in H.
  rewrite <- H. change (Z.of_nat (length (List.filter (in_wave wi) rs))) with (count (in_wave wi) rs).
  rewrite (count_split (in_wave wi) retired). unfold live. lia.
Qed.

Lemma pumps_moves e wi s s' :
  wok wi (runs (snd (fst s))) (snd s) -> pumps e wi s s' -> moves_on wi (runs (snd (fst s'))) (snd s').
Proof.
  intros HI HP. pose proof (so_wok _ _ _ (pumps_sound _ _ _ _ HP) HI) as HI'.
  destruct (stop_why _ _ _ _ HP) as [H|[H|[H|H]]]; unfold moves_on; [| |auto|auto].
  - destruct (w_resolved (snd s')) eqn:Er; [by left|]. right. left.
    pose proof (k_pos _ _ _ HI' Er). pose proof (k_pend _ _ _ HI'). pose proof (launched_count _ _ _ HI').
    pose proof (k_next _ _ _ HI'). lia.
  - right. left. pose proof (k_max _ _ _ HI'). pose proof (k_light _ _ _ HI').
    pose proof (count_le (fun r => live wi r && r_light r) (live wi) (runs (snd (fst s')))) as Hc.
    cbv beta in Hc. assert (forall x, In x (runs (snd (fst s'))) -> live wi x && r_light x = true -> live wi x = true).
    { intros x _ Hx. by apply andb_true_iff in Hx as [? _]. }
    specialize (Hc H2). lia.
Qed.
