(* ===== verification/PackSpec.v ===== *)
(** * What a wave guarantees

    The invariant of the page over every interleaving of jobs, timers and
    foreign changes: within a wave no two runs share a class and the light runs
    keep their cap; a promise that resolves has run every pack once; and the
    waves whose promise never resolves. *)

From Stdlib Require Import Permutation.
From S2P Require Import Prelude JsVal Window Lifecycle Registry QueueState Freeze QueuePump QueueApi PackClass PackBus PackUrl PackPump PackWave.
#[local] Open Scope Z_scope.

#[local] Arguments andb : simpl nomatch.

(** ** The invariant of the page *)

Definition wave_fine (rs : list run) (wi : nat) (w : wave) : Prop := wok wi rs w /\ moves_on wi rs w.

(** The waves but [x], and the runs. *)
Definition pok (x : option nat) (p : page) : Prop :=
  (forall wi w, waves (snd p) !! wi = Some w -> x <> Some wi -> wave_fine (runs (snd p)) wi w) /\
  (forall r, In r (runs (snd p)) -> (r_wave r < length (waves (snd p)))%nat).

Lemma moves_same wi rs rs' w : Forall2 same_run rs rs' -> moves_on wi rs w -> moves_on wi rs' w.
Proof.
  intros HF. unfold moves_on. rewrite (same_count (live wi) rs rs'); [done| |done].
  intros ?? (E1&E2&E3&E4&E5&E6). unfold live, in_wave. by rewrite E1, E6.
Qed.

Lemma moves_other wi rs rs' w :
  List.filter (in_wave wi) rs' = List.filter (in_wave wi) rs -> moves_on wi rs w -> moves_on wi rs' w.
Proof.
  intros HE. unfold moves_on. assert (count (live wi) rs' = count (live wi) rs) as ->; [|done].
  unfold count, live. by rewrite !(filter_filter (in_wave wi) (fun r => negb (retired r))), HE.
Qed.

(** Handlers that touch no slot. *)
Lemma calm_pok x p p' :
  Forall2 same_run (runs (snd p)) (runs (snd p')) -> waves (snd p') = waves (snd p) -> pok x p -> pok x p'.
Proof.
  intros HF HW [a1 a2]. split; rewrite ?HW.
  - intros wi w Hw Hx. destruct (a1 _ _ Hw Hx). split; [by eapply wok_same|by eapply moves_same].
  - intros r' [r [Hr (E&_)]]%(same_In _ _ _ HF). rewrite E. auto.
Qed.

Lemma same_runs_refl rs : Forall2 same_run rs rs.
Proof. induction rs; constructor; auto using same_run_refl. Qed.

Lemma fold_add_zero (l : list (string * Z)) s :
  (forall c n, In (c, n) l -> 0 <= n) -> fold_right (fun (x : string * Z) s => s + snd x) s l = s -> 0 <= s ->
  forall c n, In (c, n) l -> n = 0.
Proof.
  intros Hn He _. assert (forall m, (forall c n, In (c, n) m -> 0 <= n) -> s <= fold_right (fun (x : string * Z) s => s + snd x) s m) as Hmono.
  { induction m as [|[c n] m IH]; intros Hm; simpl; [lia|]. pose proof (Hm c n (or_introl eq_refl)).
    assert (s <= fold_right (fun (x : string * Z) s => s + snd x) s m); [|lia]. apply IH. intros; eapply Hm; by right. }
  induction l as [|[d k] l IH]; [done|]. simpl in He.
  pose proof (Hn d k (or_introl eq_refl)). pose proof (Hmono l ltac:(intros; eapply Hn; by right)).
  intros c n [[= <- <-]|Hin]; [lia|]. eapply IH; [intros; eapply Hn; by right|lia|exact Hin].
Qed.

Lemma busyEx_zero w : (forall c, 0 <= active w c) -> busyEx w = 0 -> forall c, active w c = 0.
Proof.
  unfold busyEx, active. intros Hn. rewrite map_fold_foldr. intros He c.
  destruct (w_activeByClass w !! c) as [n|] eqn:E; [|done]. cbn.
  apply (fold_add_zero (map_to_list (w_activeByClass w)) 0) with (c := c).
  - intros d k Hin%list_elem_of_In%elem_of_map_to_list. specialize (Hn d). by rewrite Hin in Hn.
  - rewrite <- He at 2. clear. induction (map_to_list (w_activeByClass w)) as [|[d k] l IH]; [done|]. simpl.
    rewrite IH. done.
  - done.
  - apply list_elem_of_In. by apply elem_of_map_to_list.
Qed.

Lemma idle_live wi rs w :
  wok wi rs w -> w_activeLight w = 0 -> busyEx w = 0 -> count (live wi) rs = 0.
Proof.
  intros HI Hl Hb.
  assert (forall c, 0 <= active w c) as Hnn.
  { intros c. destruct (decide (c = "light")) as [->|Hc].
    - unfold active. by rewrite (k_nolight _ _ _ HI).
    - rewrite (k_class _ _ _ HI) by done. apply count_nonneg. }
  pose proof (busyEx_zero w Hnn Hb) as Hz. rewrite (count_split (live wi) r_light).
  rewrite <- (k_light _ _ _ HI), Hl.
  destruct (Z.eq_dec (count (fun r => live wi r && negb (r_light r)) rs) 0) as [->|Hne]; [done|exfalso].
  pose proof (count_nonneg (fun r => live wi r && negb (r_light r)) rs).
  destruct (count_pos (fun r => live wi r && negb (r_light r)) rs) as (r&Hr&Hlv); [lia|].
  apply andb_true_iff in Hlv as [Hlv Hnl%negb_true_iff].
  assert (r_wave r = wi) as Hw by (apply andb_true_iff in Hlv as [Hw _]; by apply Nat.eqb_eq).
  pose proof (k_marks _ _ _ HI r Hr Hw) as Hm. rewrite Hnl in Hm. destruct Hm as (Hm&_&Hnlt).
  destruct (r_marks r) as [|c cs] eqn:Ec; [done|].
  assert (c <> "light") as Hc by (intros ->; apply Hnlt; by left).
  pose proof (Hz c) as Hac. rewrite (k_class _ _ _ HI c Hc) in Hac.
  assert (0 < count (fun r => live wi r && has_mark c r) rs); [|lia].
  unfold count. assert (In r (List.filter (fun r => live wi r && has_mark c r) rs)) as Hin.
  { apply filter_In. split; [done|]. rewrite Hlv. unfold has_mark. rewrite Ec. cbn. by rewrite String.eqb_refl. }
  destruct (List.filter _ rs); [done|]. simpl. lia.
Qed.

Lemma resolve_wok wi rs w :
  wok wi rs w -> w_next w = length (w_packs w) -> count (live wi) rs = 0 -> wok wi rs (resolveAll w).
Proof.
  intros HI Hn Hl. unfold resolveAll. destruct (w_resolved w) eqn:E; [done|].
  destruct HI as [a1 a2 a3 a4 a5 a6 a7 a8 a9 a10 a11 a12]. by constructor.
Qed.

Lemma resolveAll_moves wi rs w : moves_on wi rs (resolveAll w).
Proof. left. unfold resolveAll. by destruct (w_resolved w) eqn:E; [rewrite E|]. Qed.

Lemma waves_put wi w p wi' :
  (wi < length (waves (snd p)))%nat ->
  waves (snd (put_wave wi w p)) !! wi' = if decide (wi' = wi) then Some w else waves (snd p) !! wi'.
Proof.
  intros Hl. unfold put_wave. cbn. case_decide; subst; [by apply list_lookup_insert_eq|].
  by apply list_lookup_insert_ne.
Qed.

Lemma put_pok wi w p :
  (wi < length (waves (snd p)))%nat -> wave_fine (runs (snd p)) wi w -> pok (Some wi) p -> pok None (put_wave wi w p).
Proof.
  intros Hl HF [a1 a2]. split.
  - intros wi' w'. rewrite waves_put by done. change (runs (snd (put_wave wi w p))) with (runs (snd p)).
    case_decide as E; [intros [= <-] _; by subst|]. intros Hw _. apply a1; [done|]. congruence.
  - intros r Hr. unfold put_wave. cbn. rewrite length_insert. by apply a2.
Qed.

Lemma pump_pok e wi w p :
  waves (snd p) !! wi = Some w -> wok wi (runs (snd p)) w -> pok (Some wi) p -> pok None (pump e wi p).
Proof.
  intros Hw HI HP. pose proof (lookup_lt_Some _ _ _ Hw) as Hl. unfold pump. rewrite Hw.
  match goal with |- context [pump_on ?a ?b ?c] => destruct (pump_on a b c) as [p' w'] eqn:E end. unfold pump_on in E. destruct (pump_over p w) eqn:Eo.
  - injection E as <- <-. unfold pump_over in Eo.
    apply andb_true_iff in Eo as [[[_ Ha%Z.eqb_eq]%andb_true_iff Hb%Z.eqb_eq]%andb_true_iff Hn%Nat.leb_le].
    pose proof (k_next _ _ _ HI). apply put_pok; [done| |done]. split; [|apply resolveAll_moves].
    apply resolve_wok; [done|lia|by eapply idle_live].
  - pose proof (pump_enough e wi p w) as HE. rewrite E in HE. pose proof (pumps_sound _ _ _ _ HE) as HS.
    pose proof (pumps_moves e wi (p, w) _ HI HE) as HM.
    destruct HS as [s1 s2 s3 s4 _ _ _]. cbn [fst snd] in *.
    apply put_pok; [by rewrite s2|by split; auto|]. destruct HP as [a1 a2]. split; rewrite ?s2.
    + intros wi' w1 Hw1 Hne. assert (wi' <> wi) as Hd by congruence.
      destruct (a1 _ _ Hw1 Hne). split; [eapply wok_other; [by apply s3|done]|eapply moves_other; [by apply s3|done]].
    + intros r [Hr| ->]%s4; [by apply a2|done].
Qed.

(** *** A new wave *)

Lemma calm_refl x p p' : runs (snd p') = runs (snd p) -> waves (snd p') = waves (snd p) -> pok x p -> pok x p'.
Proof. intros HR HW. apply calm_pok; [rewrite HR; apply same_runs_refl|done]. Qed.

Lemma limits_calm e o p :
  runs (snd (fst (adaptive_limits e o p))) = runs (snd p) /\ waves (snd (fst (adaptive_limits e o p))) = waves (snd p) /\
  1 <= snd (adaptive_limits e o p) <= 2.
Proof. unfold adaptive_limits. cbn [fst snd]. split_and!; [by case_match|by case_match|lia|lia]. Qed.

Definition first_wave (packs : list lpack) (maxLight : Z) (serial : bool) (source : string) : wave :=
  mkWave packs 0 0 ∅ (Z.of_nat (length packs)) maxLight serial source (repeat VUndef (length packs))
    (match packs with [] => Some [] | _ => None end) 0 false.

Lemma filter_none wi rs : (forall r, In r rs -> (r_wave r < wi)%nat) -> List.filter (in_wave wi) rs = [].
Proof.
  intros H. induction rs as [|r rs IH]; [done|]. simpl. unfold in_wave at 1.
  pose proof (H r (or_introl eq_refl)). destruct (Nat.eqb_spec (r_wave r) wi); [lia|]. apply IH.
  intros; apply H; by right.
Qed.

Lemma first_wok wi rs packs m serial src :
  (forall r, In r rs -> (r_wave r < wi)%nat) -> 1 <= m <= 2 -> wok wi rs (first_wave packs m serial src).
Proof.
  intros Hr Hm. pose proof (filter_none wi rs Hr) as HF.
  assert (forall g, count (fun r => in_wave wi r && g r) rs = 0) as HC.
  { intros g. unfold count. by rewrite (filter_filter (in_wave wi) g), HF. }
  assert (forall g, count (fun r => live wi r && g r) rs = 0) as HC'.
  { intros g. rewrite <- (HC (fun r => negb (retired r) && g r)). apply count_ext. intros. unfold live.
    by rewrite andb_assoc. }
  assert (forall r, In r rs -> r_wave r <> wi) as Hne by (intros r Hin; specialize (Hr r Hin); lia).
  constructor; cbn.
  - by rewrite HF.
  - lia.
  - intros r Hin Hw. by apply Hne in Hw.
  - by rewrite HC'.
  - intros c _. by rewrite HC'.
  - done.
  - done.
  - lia.
  - intros r Hin Hw. by apply Hne in Hw.
  - rewrite HC. lia.
  - destruct packs; [done|]. intros _. simpl. lia.
  - destruct packs; [|done]. intros _. split; [done|]. apply (HC (fun r => negb (retired r))).
Qed.

Lemma kickAll_pok e packs sid src o p : pok None p -> pok None (fst (kickAll e packs sid src o p)).
Proof.
  intros HP. unfold kickAll. destruct (probeHalted p); [done|].
  set (source := nonempty src "main"). set (l := kick_order _ _ _ _).
  set (p1 := set_var "__GR_PACK_KICK_ORDER__" _ p).
  destruct (adaptive_limits e o p1) as [p2 m] eqn:E.
  destruct (limits_calm e o p1) as (H1&H2&Hm). rewrite E in H1, H2, Hm. cbn [fst snd] in H1, H2, Hm.
  set (serial := ko_serial o || _). set (p3 := set_var "__GR_LAST_KICK_CONC__" _ p2).
  assert (runs (snd p3) = runs (snd p)) as HR by (by rewrite <- (eq_refl : runs (snd p1) = runs (snd p)), <- H1).
  assert (waves (snd p3) = waves (snd p)) as HW by (by rewrite <- (eq_refl : waves (snd p1) = waves (snd p)), <- H2).
  change (mkWave l 0 0 ∅ (Z.of_nat (length l)) m serial source (repeat VUndef (length l))
            (match l with [] => Some [] | _ => None end) 0 false) with (first_wave l m serial source).
  set (w0 := first_wave l m serial source). set (wi := length (waves (snd p3))).
  set (p4 := on_l _ p3). destruct HP as [a1 a2].
  assert (wok wi (runs (snd p4)) w0) as HI.
  { apply first_wok; [|done]. change (runs (snd p4)) with (runs (snd p3)). intros r Hr. unfold wi. rewrite HW.
    apply a2. by rewrite <- HR. }
  assert (waves (snd p4) !! wi = Some w0) as Hwi by (apply list_lookup_middle; done).
  assert (pok (Some wi) p4) as HP4.
  { split; change (runs (snd p4)) with (runs (snd p3)); change (waves (snd p4)) with (waves (snd p3) ++ [w0]).
    - intros wi' w Hw Hne. rewrite HR. apply lookup_app_Some in Hw as [Hw|[Hge Hw]]; [rewrite HW in Hw; by apply a1|].
      apply list_lookup_singleton_Some in Hw as [Hz _]. exfalso. apply Hne. f_equal. unfold wi. lia.
    - intros r Hr. rewrite length_app, HW. rewrite HR in Hr. specialize (a2 r Hr). lia. }
  destruct l eqn:El; cbn [fst]; [|by eapply pump_pok].
  destruct HP4 as [b1 b2]. split; [|done]. intros wi' w Hw _.
  destruct (decide (wi' = wi)) as [->|Hne]; [|apply b1; [done|congruence]].
  rewrite Hwi in Hw. simplify_eq. split; [done|]. by left.
Qed.

(** *** A retired run *)

Definition free_slot (r : run) (w : wave) : wave :=
  if r_light r then set_activeLight (w_activeLight w - 1) w else markClasses (r_marks r) (-1) w.

Lemma free_slot_frame r w :
  let w' := free_slot r w in
  w_packs w' = w_packs w /\ w_next w' = w_next w /\ w_pending w' = w_pending w /\ w_maxLight w' = w_maxLight w /\
  w_resolved w' = w_resolved w /\ w_results w' = w_results w /\
  w_activeLight w' = w_activeLight w - (if r_light r then 1 else 0) /\
  (w_activeByClass w !! "light" = None -> w_activeByClass w' !! "light" = None).
Proof.
  unfold free_slot. destruct (r_light r); [cbn; split_and!; done|].
  destruct (marks_frame (r_marks r) (-1) w) as (H1&H2&H3&H4&H5&H6&H7&H8&H9&H10&H11&H12).
  split_and!; try done. rewrite H3. lia.
Qed.

Lemma retire_wok wi rs w ri r res :
  wok wi rs w -> rs !! ri = Some r -> r_wave r = wi -> retired r = false ->
  let w' := set_resolved res (set_pending (w_pending w - 1) (free_slot r w)) in
  let rs' := alter (to_phase RRetired) ri rs in
  (res = None -> 0 < w_pending w - 1) ->
  (res <> None -> w_next w = length (w_packs w) /\ count (live wi) rs' = 0) ->
  wok wi rs' w'.
Proof.
  intros HI Hr Hw Hlv w' rs' Hpos Hdone. pose proof HI as [a1 a2 a3 a4 a5 a6 a7 a8 a9 a10 a11 a12].
  assert (live wi r = true) as HL.
  { unfold live, in_wave. rewrite Hlv, Hw, Nat.eqb_refl. done. }
  assert (In r rs) as Hin by (apply list_elem_of_In; by eapply list_elem_of_lookup_2).
  assert (forall g : run -> bool, count (fun r => live wi r && g r) rs' =
            count (fun r => live wi r && g r) rs - (if g r then 1 else 0)) as HC.
  { intros g. unfold rs'. rewrite (count_alter _ _ _ _ _ Hr). rewrite HL.
    assert (live wi (to_phase RRetired r) = false) as -> by (unfold live; cbn; apply andb_false_r). simpl. lia. }
  destruct (free_slot_frame r w) as (E1&E2&E3&E4&E5&E6&E7&E8).
  assert (forall x, In x rs' -> exists y, In y rs /\ r_wave x = r_wave y /\ r_idx x = r_idx y /\ r_pack x = r_pack y /\
            r_light x = r_light y /\ r_marks x = r_marks y) as HX.
  { intros x [i Hi]%list_elem_of_In%list_elem_of_lookup. unfold rs' in Hi. destruct (decide (i = ri)) as [->|Hne].
    - rewrite list_lookup_alter_eq, Hr in Hi. cbn in Hi. simplify_eq. exists r. done.
    - rewrite list_lookup_alter_ne in Hi by done. exists x. split; [|done]. apply list_elem_of_In. by eapply list_elem_of_lookup_2. }
  assert (forall c, c <> "light" -> active w' c = active w c - (if r_light r then 0 else if has_mark c r then 1 else 0)) as HA.
  { intros c Hc. change (active w' c) with (active (free_slot r w) c). unfold free_slot.
    pose proof (a9 r Hin Hw) as Hm. destruct (r_light r); [change (active _ c) with (active w c); lia|].
    destruct Hm as (_&HN&Hnl). rewrite active_mark by done. fold (has_mark c r).
    destruct (has_mark c r) eqn:Em; [|lia].
    rewrite (a5 c Hc). pose proof (HC (has_mark c)) as HCm. rewrite Em in HCm.
    pose proof (count_nonneg (fun r => live wi r && has_mark c r) rs'). lia. }
  constructor; cbn; rewrite ?E1, ?E2, ?E4, ?E7; try done.
  - rewrite <- a1. unfold rs'. clear -Hr. revert ri Hr. induction rs as [|x rs IH]; intros [|i] Hr; try done; cbn in Hr |- *.
    + simplify_eq. unfold in_wave. cbn. by destruct (Nat.eqb _ _).
    + change (list_alter (to_phase RRetired) i rs) with (alter (to_phase RRetired) i rs).
      unfold in_wave in *. destruct (Nat.eqb (r_wave x) wi); cbn; by rewrite IH.
  - intros x (y&Hy&Y1&Y2&Y3&_)%HX Hx. rewrite Y2, Y3. apply a3; congruence.
  - rewrite HC, a4. done.
  - intros c Hc. rewrite HA, HC, (a5 c Hc) by done. pose proof (a9 r Hin Hw) as Hm.
    unfold has_mark. destruct (r_light r); [|done]. by rewrite Hm.
  - by apply E8.
  - intros c. destruct (decide (c = "light")) as [->|Hc].
    + unfold active. cbn. rewrite E8 by done. cbn. lia.
    + rewrite HA by done. specialize (a7 c). repeat case_match; lia.
  - destruct (r_light r); lia.
  - intros x (y&Hy&Y1&Y2&Y3&Y4&Y5)%HX Hx. rewrite Y4, Y5. apply a9; congruence.
  - rewrite a10. unfold rs'. rewrite (count_alter _ _ _ _ _ Hr). unfold in_wave. cbn. rewrite Hlv, Hw, Nat.eqb_refl. simpl. lia.
Qed.

Lemma retire_waves e w ri r v p :
  waves (snd p) !! r_wave r = Some w ->
  retire e w ri r v p =
  doneOne e (r_wave r) (put_wave (r_wave r) (set_results (<[r_idx r := v]> (w_results w)) (free_slot r w))
                        (upd_run ri (to_phase RRetired) p)).
Proof.
  intros _. unfold retire, free_slot. destruct (r_light r); [done|].
  assert (forall cs d w v, markClasses cs d (set_results v w) = set_results v (markClasses cs d w)) as ->; [|done].
  clear. unfold markClasses. induction cs as [|c cs IH]; intros d w v; [done|]. cbn [fold_left].
  destruct (c =s "light"); [done|]. apply (IH d (set_activeByClass _ w)).
Qed.

Lemma put_put wi w w' p : put_wave wi w' (put_wave wi w p) = put_wave wi w' p.
Proof. unfold put_wave, on_l. cbn. by rewrite list_insert_insert_eq. Qed.

Lemma filter_alter_other wi ri rs r f :
  rs !! ri = Some r -> r_wave r <> wi -> r_wave (f r) = r_wave r ->
  List.filter (in_wave wi) (alter f ri rs) = List.filter (in_wave wi) rs.
Proof.
  revert ri. induction rs as [|x rs IH]; intros [|i] Hr Hne Hf; try done; cbn in Hr |- *.
  - simplify_eq. unfold in_wave. rewrite Hf. apply Nat.eqb_neq in Hne. by rewrite Hne.
  - change (list_alter f i rs) with (alter f i rs). by rewrite IH.
Qed.

Lemma retire_count wi ri r rs :
  rs !! ri = Some r -> r_wave r = wi -> retired r = false ->
  count (live wi) (alter (to_phase RRetired) ri rs) = count (live wi) rs - 1.
Proof.
  intros Hr Hw Hlv. rewrite (count_alter _ _ _ _ _ Hr). unfold live, in_wave. cbn.
  rewrite Hlv, Hw, Nat.eqb_refl. simpl. lia.
Qed.

(** A live run: its wave has not resolved; when it is the last one, all packs
    have been launched. *)
Lemma last_run wi ri r rs w :
  wok wi rs w -> rs !! ri = Some r -> r_wave r = wi -> retired r = false ->
  w_resolved w = None /\
  (w_pending w <= 1 -> w_next w = length (w_packs w) /\ count (live wi) (alter (to_phase RRetired) ri rs) = 0).
Proof.
  intros HI Hr Hw Hlv. pose proof (retire_count _ _ _ _ Hr Hw Hlv) as HC.
  pose proof (count_nonneg (live wi) (alter (to_phase RRetired) ri rs)).
  pose proof (launched_count _ _ _ HI). pose proof (k_next _ _ _ HI). pose proof (k_pend _ _ _ HI). split; [|lia].
  destruct (w_resolved w) eqn:E; [|done]. destruct (k_done _ _ _ HI ltac:(by rewrite E)). lia.
Qed.

(** The page without the retired run, before its wave is written back. *)
Lemma retired_others ri r p :
  runs (snd p) !! ri = Some r -> pok None p -> pok (Some (r_wave r)) (upd_run ri (to_phase RRetired) p).
Proof.
  intros Hr [a1 a2]. set (p1 := upd_run _ _ p).
  assert (waves (snd p1) = waves (snd p)) as HW by done.
  assert (runs (snd p1) = alter (to_phase RRetired) ri (runs (snd p))) as HR by done.
  split; rewrite HW, HR.
  - intros wi' w' Hw' Hne. destruct (a1 wi' w' Hw' ltac:(done)) as [HI' HM'].
    assert (List.filter (in_wave wi') (alter (to_phase RRetired) ri (runs (snd p))) =
            List.filter (in_wave wi') (runs (snd p))) as HF.
    { eapply filter_alter_other; [done| |done]. congruence. }
    split; [by eapply wok_other|by eapply moves_other].
  - intros x [i Hi]%list_elem_of_In%list_elem_of_lookup. destruct (decide (i = ri)) as [->|Hne].
    + rewrite list_lookup_alter_eq, Hr in Hi. cbn in Hi. simplify_eq.
      apply (a2 r), list_elem_of_In. by eapply list_elem_of_lookup_2.
    + rewrite list_lookup_alter_ne in Hi by done. apply a2, list_elem_of_In. by eapply list_elem_of_lookup_2.
Qed.

Lemma pok_put x wi w p : waves (snd p) !! wi <> None -> x = Some wi -> pok x p -> pok x (put_wave wi w p).
Proof.
  intros [w0 Hw]%not_eq_None_Some -> [b1 b2]. pose proof (lookup_lt_Some _ _ _ Hw). split.
  - intros wi' w' Hw' Hne. rewrite waves_put in Hw' by done. rewrite decide_False in Hw' by congruence. by apply b1.
  - intros x Hx. unfold put_wave. cbn. rewrite length_insert. by apply b2.
Qed.

Lemma resolved_id w res : w_resolved w = res -> set_resolved res w = w.
Proof. intros <-. by destruct w. Qed.

Lemma retire_pok e w ri r v p :
  runs (snd p) !! ri = Some r -> waves (snd p) !! r_wave r = Some w -> retired r = false ->
  pok None p -> pok None (retire e w ri r v p).
Proof.
  intros Hr Hw Hlv HP. rewrite (retire_waves e w) by done. pose proof (retired_others ri r p Hr HP) as HP1.
  destruct (proj1 HP (r_wave r) w Hw ltac:(done)) as [HI _]. set (wi := r_wave r) in *.
  set (w1 := set_results _ _). set (p1 := upd_run ri (to_phase RRetired) p) in *.
  assert (waves (snd p1) !! wi = Some w) as Hw1 by exact Hw.
  pose proof (lookup_lt_Some _ _ _ Hw1) as Hlt.
  destruct (free_slot_frame r w) as (_&_&F1&_&F2&_).
  destruct (last_run wi ri r _ w HI Hr eq_refl Hlv) as [Hun Hlast].
  unfold doneOne. rewrite waves_put, decide_True by done. rewrite !put_put.
  set (w2 := set_pending (w_pending w1 - 1) w1).
  assert (w_pending w2 = w_pending w - 1 /\ w_resolved w2 = None) as [Hp2 Hun2].
  { split; [change (w_pending (free_slot r w) - 1 = w_pending w - 1); by rewrite F1|].
    change (w_resolved (free_slot r w) = None). by rewrite F2. }
  assert (forall res, (res = None -> 0 < w_pending w - 1) ->
            (res <> None -> w_next w = length (w_packs w) /\ count (live wi) (runs (snd p1)) = 0) ->
            wok wi (runs (snd p1)) (set_resolved res w2)) as Hok.
  { intros res H1 H2. pose proof (retire_wok wi (runs (snd p)) w ri r res HI Hr eq_refl Hlv H1 H2) as HK.
    by eapply wok_view; [..|exact HK]. }
  destruct (w_pending w2 <=? 0) eqn:Ep; breflect.
  - apply put_pok; [done| |done]. split; [|apply resolveAll_moves]. unfold resolveAll. rewrite Hun2.
    apply Hok; [done|]. intros _. apply Hlast. lia.
  - eapply (pump_pok e wi w2); [by rewrite waves_put, decide_True by done| |].
    + pose proof (resolved_id w2 None Hun2) as Heq.
      rewrite <- Heq. apply Hok; [lia|done].
    + by apply pok_put; [rewrite Hw1| |].
Qed.

(** *** The handlers that touch no slot *)

Definition calm (p p' : page) : Prop := runs (snd p') = runs (snd p) /\ waves (snd p') = waves (snd p).

#[export] Instance calm_preorder : PreOrder calm.
Proof. split; [done|]. intros x y z [a1 a2] [b1 b2]. split; congruence. Qed.

Definition quiet (p p' : page) : Prop :=
  Forall2 same_run (runs (snd p)) (runs (snd p')) /\ waves (snd p') = waves (snd p).

Lemma quiet_pok p p' : quiet p p' -> pok None p -> pok None p'.
Proof. intros [H1 H2]. by apply calm_pok. Qed.

Lemma calm_quiet p p' : calm p p' -> quiet p p'.
Proof. intros [H1 H2]. split; [rewrite H1; apply same_runs_refl|done]. Qed.

Lemma same_alter ri r f rs : rs !! ri = Some r -> same_run r (f r) -> Forall2 same_run rs (alter f ri rs).
Proof.
  intros Hr Hs. revert ri Hr. induction rs as [|x rs IH]; intros [|i] Hr; try done; cbn in Hr.
  - simplify_eq. constructor; [done|apply same_runs_refl].
  - constructor; [apply same_run_refl|]. apply (IH i Hr).
Qed.

Lemma calm_upd p p' ri r f :
  runs (snd p) !! ri = Some r -> same_run r (f r) -> calm p p' -> quiet p (upd_run ri f p').
Proof.
  intros Hr Hs [H1 H2]. split; [|exact H2]. unfold upd_run, on_l. cbn [snd runs set_runs]. rewrite H1.
  by eapply same_alter.
Qed.

Lemma same_phase r ph : retired r = false -> (match ph with RRetired => False | _ => True end) -> same_run r (to_phase ph r).
Proof. intros H Hp. unfold same_run, retired in *. cbn. rewrite H. destruct ph; done. Qed.

Lemma same_phase_classes r cs ph :
  retired r = false -> (match ph with RRetired => False | _ => True end) ->
  same_run r (r |> with_classes cs |> to_phase ph).
Proof. intros H Hp. unfold same_run, retired in *. cbn. rewrite H. destruct ph; done. Qed.

Lemma calm_health e id patch p0 p : calm p0 p -> calm p0 (setHealth e id patch p).
Proof. intros H. etrans; [exact H|]. done. Qed.
Lemma calm_ops c s d sv p0 p : calm p0 p -> calm p0 (ops c s d sv p).
Proof. intros H. etrans; [exact H|]. done. Qed.
Lemma calm_emit x p0 p : calm p0 p -> calm p0 (emit x p).
Proof. intros H. etrans; [exact H|]. done. Qed.
Lemma calm_mark ids p0 p : calm p0 p -> calm p0 (mark_kicked ids p).
Proof. intros H. etrans; [exact H|]. done. Qed.
Lemma calm_unkick ids p0 p : calm p0 p -> calm p0 (unkick ids p).
Proof. intros H. etrans; [exact H|]. done. Qed.
Lemma calm_bus f p0 p : calm p0 p -> calm p0 (on_bus f p).
Proof. intros H. etrans; [exact H|]. done. Qed.
Lemma calm_clear id p0 p : calm p0 p -> calm p0 (clearKicked id p).
Proof. unfold clearKicked. case_match; auto using calm_unkick. Qed.
Create HintDb calmdb.
#[export] Hint Resolve calm_health calm_ops calm_emit calm_mark calm_unkick calm_bus calm_clear : calmdb.

Lemma calm_recollect d p0 p : calm p0 p -> calm p0 (fst (maybeClearKickedForRecollect d p)).
Proof. intros H. unfold maybeClearKickedForRecollect. cbv zeta. repeat case_match; cbn [fst]; auto with calmdb. Qed.
Lemma calm_force e c y p0 p : calm p0 p -> calm p0 (fst (forceReleaseResource e c y p)).
Proof. intros H. unfold forceReleaseResource. destruct (PackBus.forceReleaseResource _ _ _). cbn [fst]. auto with calmdb. Qed.
#[export] Hint Resolve calm_recollect calm_force : calmdb.
#[export] Hint Extern 5 (calm ?p ?p) => reflexivity : calmdb.
#[export] Hint Extern 4 (calm _ (if ?b then _ else _)) => destruct b : calmdb.

Section Runs.
Variables (ri : nat) (r : run) (p : page).
Hypothesis Hr : runs (snd p) !! ri = Some r.
Hypothesis Hlv : retired r = false.

Lemma settle_quiet rid v p' : calm p p' -> quiet p (settle rid ri r v p').
Proof.
  intros H. unfold settle. cbv zeta. eapply calm_upd; [done|by apply same_phase|].
  auto with calmdb.
Qed.
Hint Resolve settle_quiet : calmdb.

Lemma execRun_quiet e rid : quiet p (execRun e rid ri r p).
Proof.
  unfold execRun. cbv zeta. repeat case_match;
    try (eapply calm_upd; [done|by apply same_phase|]); auto 12 with calmdb.
Qed.

Lemma succeed_quiet e rid v p' : calm p p' -> quiet p (succeed e rid ri r v p').
Proof. unfold succeed. auto with calmdb. Qed.
Hint Resolve succeed_quiet : calmdb.

Lemma callRun_quiet e w rid a ms : quiet p (callRun e w rid ri a ms r p).
Proof.
  unfold callRun. repeat case_match; auto with calmdb. eapply calm_upd; [done|by apply same_phase|]. auto with calmdb.
Qed.

Lemma timeout_quiet e rid : quiet p (timeout e rid ri r p).
Proof. unfold timeout. cbn [fold_left]. auto 12 with calmdb. Qed.

Lemma fail_quiet e rid msg : quiet p (fail e rid ri r msg p).
Proof. unfold fail, on_collect_fail. auto with calmdb. Qed.

Lemma runOne_quiet e w : quiet p (runOne e w ri r p).
Proof.
  unfold runOne. cbv zeta. case_match; (eapply calm_upd; [done|by apply same_phase_classes|]); auto 8 with calmdb.
Qed.

Lemma script_quiet e ok src : quiet p (script_done e ok src ri r p).
Proof. unfold script_done. eapply calm_upd; [done|by apply same_phase|]. destruct ok; auto 8 with calmdb. Qed.

Lemma lock_quiet w : quiet p (lock w ri r p).
Proof.
  unfold lock. assert (forall f p', quiet p p' -> quiet p (on_bus f p')) as H by (intros f p' [H1 H2]; by split).
  apply H. eapply calm_upd; [done|by apply same_phase|done].
Qed.
End Runs.

(** A job is quiet or gives a slot back. *)
Lemma advance_cases e ri x p :
  quiet p (advance e ri x p) \/
  exists r w v, runs (snd p) !! ri = Some r /\ waves (snd p) !! r_wave r = Some w /\ retired r = false /\
                advance e ri x p = retire e w ri r v p.
Proof.
  unfold advance. destruct (runs (snd p) !! ri) as [r|] eqn:Hr; [|left; by apply calm_quiet].
  destruct (waves (snd p) !! r_wave r) as [w|] eqn:Hw; [|left; by apply calm_quiet].
  assert (forall p', p' = p -> quiet p p') as Hid by (intros ? ->; by apply calm_quiet).
  assert (r_phase r <> RRetired -> retired r = false) as Hlv by (unfold retired; by destruct (r_phase r)).
  destruct (r_phase r) as [|src| |rid|rid a ms|rid ms|v|] eqn:Ep; try (specialize (Hlv ltac:(discriminate))).
  - left. by apply runOne_quiet.
  - left. destruct x; try (by apply Hid). by apply script_quiet.
  - left. by apply lock_quiet.
  - left. destruct (entered rid p); [by apply execRun_quiet|by apply Hid].
  - left. by apply callRun_quiet.
  - left. destruct x; [| | |by apply Hid]; [|by apply fail_quiet|by apply timeout_quiet].
    by (eapply succeed_quiet; [done|done|reflexivity]).
  - right. by exists r, w, v.
  - left. by apply Hid.
Qed.

(** What an event is: a call of [kickAll], a timer, a slot given back, or
    nothing that a wave sees. *)
Lemma handle_cases e ev p :
  quiet p (handle e ev p) \/
  (exists packs sid src o, handle e ev p = fst (kickAll e packs sid src o p)) \/
  (exists wi w, waves (snd p) !! wi = Some w /\ w_timer w = true /\
                handle e ev p = pump e wi (put_wave wi (set_timer false w) p)) \/
  (exists ri r w v, runs (snd p) !! ri = Some r /\ waves (snd p) !! r_wave r = Some w /\ retired r = false /\
                    handle e ev p = retire e w ri r v p).
Proof.
  destruct ev; cbn [handle]; [right; left; by eauto 6| | |left..].
  - destruct (advance_cases e ri x p) as [?|(r&w&v&?&?&?&?)]; [by left|]. do 3 right. by eauto 10.
  - unfold timer_fires. destruct (waves (snd p) !! wi) as [w|] eqn:Hw; [|left; by apply calm_quiet].
    destruct (w_timer w) eqn:Ht; [|left; by apply calm_quiet]. right. right. left. eauto.
  - apply calm_quiet. auto with calmdb.
  - apply calm_quiet. auto with calmdb.
  - apply calm_quiet. auto with calmdb.
  - apply calm_quiet. auto with calmdb.
  - apply calm_quiet. auto with calmdb.
  - apply calm_quiet. unfold on_upload_fail. auto with calmdb.
  - apply calm_quiet. unfold on_collect_fail. auto with calmdb.
  - apply calm_quiet. unfold on_quality_gap. auto with calmdb.
  - case_match; by apply calm_quiet.
  - apply calm_quiet. auto with calmdb.
  - apply calm_quiet. auto with calmdb.
  - by apply calm_quiet.
  - by apply calm_quiet.
Qed.

Lemma timer_pok e wi w p :
  waves (snd p) !! wi = Some w -> pok None p -> pok None (pump e wi (put_wave wi (set_timer false w) p)).
Proof.
  intros Hw HP. pose proof (lookup_lt_Some _ _ _ Hw). destruct (proj1 HP wi w Hw ltac:(done)) as [HI _].
  apply (pump_pok e wi (set_timer false w)); [by rewrite waves_put, decide_True by done| |].
  - by eapply wok_view; [..|exact HI].
  - apply pok_put; [by rewrite Hw|done|]. split; [|apply HP]. intros wi' w' Hw' _. by apply HP.
Qed.

Lemma handle_pok e ev p : pok None p -> pok None (handle e ev p).
Proof.
  intros HP. destruct (handle_cases e ev p) as [?|[(?&?&?&?&->)|[(wi&w&?&_&->)|(ri&r&w&v&?&?&?&->)]]];
    eauto using kickAll_pok, timer_pok, retire_pok. by eapply quiet_pok.
Qed.

Lemma prun_app evs evs' p : prun (evs ++ evs') p = prun evs' (prun evs p).
Proof. apply fold_left_app. Qed.

Lemma prun_pok evs p : pok None p -> pok None (prun evs p).
Proof. revert p. induction evs as [|[e ev] evs IH]; intros p HP; [done|]. apply IH. by apply handle_pok. Qed.

(** The page as the loader's script leaves it. *)
Definition page0 (q : queue) : page := (q, loader0).

Lemma page0_pok q : pok None (page0 q).
Proof. split; [by intros wi w Hw|done]. Qed.

Lemma reach_wave evs q wi w :
  waves (snd (prun evs (page0 q))) !! wi = Some w -> wave_fine (runs (snd (prun evs (page0 q)))) wi w.
Proof. intros Hw. by apply (prun_pok evs (page0 q) (page0_pok q)). Qed.

(** *** One wave at a time *)

(** A step leaves the waves other than [wi] as they are, and of [wi] its packs. *)
Record touch (wi : nat) (p p' : page) : Prop := Touch {
  to_others : forall wi', wi' <> wi -> waves (snd p') !! wi' = waves (snd p) !! wi' /\
                          count (live wi') (runs (snd p')) = count (live wi') (runs (snd p));
  to_packs : forall w, waves (snd p) !! wi = Some w ->
               exists w', waves (snd p') !! wi = Some w' /\ Permutation (untry (w_packs w')) (untry (w_packs w))
}.

#[export] Instance touch_preorder wi : PreOrder (touch wi).
Proof.
  split.
  - intros p. split; eauto.
  - intros p1 p2 p3 [a1 a2] [b1 b2]. split.
    + intros wi' Hne. destruct (a1 wi' Hne) as [<- <-]. by apply b1.
    + intros w (w'&Hw'&HP)%a2. destruct (b2 w' Hw') as (w''&Hw''&HP'). exists w''. split; [done|]. by rewrite HP'.
Qed.

Lemma live_same wi rs rs' : Forall2 same_run rs rs' -> count (live wi) rs' = count (live wi) rs.
Proof.
  apply same_count. intros ?? (E1&E2&E3&E4&E5&E6). unfold live, in_wave. by rewrite E1, E6.
Qed.

Lemma live_other wi rs rs' :
  List.filter (in_wave wi) rs' = List.filter (in_wave wi) rs -> count (live wi) rs' = count (live wi) rs.
Proof. intros HE. unfold count, live. by rewrite !(filter_filter (in_wave wi) (fun r => negb (retired r))), HE. Qed.

Lemma quiet_touch wi p p' : quiet p p' -> touch wi p p'.
Proof. intros [HF HW]. split; rewrite HW; [|by eauto]. intros wi' _. split; [done|]. by apply live_same. Qed.

Lemma put_touch wi w w' p :
  waves (snd p) !! wi = Some w -> Permutation (untry (w_packs w')) (untry (w_packs w)) -> touch wi p (put_wave wi w' p).
Proof.
  intros Hw HP. pose proof (lookup_lt_Some _ _ _ Hw) as Hl. split.
  - intros wi' Hne. rewrite waves_put, decide_False by done. done.
  - intros w0 Hw0. exists w'. rewrite waves_put, decide_True by done. split; [done|]. by simplify_eq.
Qed.

Lemma pump_touch e wi p : touch wi p (pump e wi p).
Proof.
  unfold pump. destruct (waves (snd p) !! wi) as [w|] eqn:Hw; [|done].
  match goal with |- context [pump_on ?a ?b ?c] => destruct (pump_on a b c) as [p' w'] eqn:E end.
  unfold pump_on in E. destruct (pump_over p w).
  - injection E as <- <-. apply (put_touch wi w); [done|]. unfold resolveAll. by destruct (w_resolved w).
  - pose proof (pump_enough e wi p w) as HE. rewrite E in HE. pose proof (pumps_sound _ _ _ _ HE) as [_ s2 s3 _ s5 _ _].
    cbn [fst snd] in *. transitivity p'; [|apply (put_touch wi w); [by rewrite s2|done]].
    split; rewrite s2; [|by eauto]. intros wi' Hne. split; [done|]. by apply live_other, s3.
Qed.

Lemma retire_touch e w ri r v p :
  runs (snd p) !! ri = Some r -> waves (snd p) !! r_wave r = Some w -> touch (r_wave r) p (retire e w ri r v p).
Proof.
  intros Hr Hw. rewrite (retire_waves e w) by done. set (wi := r_wave r) in *.
  destruct (free_slot_frame r w) as (F1&_). set (w1 := set_results _ _). set (p1 := upd_run ri _ p).
  assert (touch wi p p1) as H1.
  { split; [|by eauto]. intros wi' Hne. split; [done|]. apply live_other.
    eapply (filter_alter_other wi' ri _ r); [done|by apply not_eq_sym|done]. }
  assert (waves (snd p1) !! wi = Some w) as Hw1 by exact Hw.
  pose proof (lookup_lt_Some _ _ _ Hw1). assert (untry (w_packs w1) = untry (w_packs w)) as HU.
  { change (w_packs w1) with (w_packs (free_slot r w)). by rewrite F1. }
  etrans; [exact H1|]. unfold doneOne. rewrite waves_put, decide_True by done. rewrite !put_put. case_match.
  - apply (put_touch wi w); [done|]. unfold resolveAll. case_match; cbn [w_packs set_resolved set_pending]; by rewrite HU.
  - etrans; [|apply pump_touch]. apply (put_touch wi w); [done|]. cbn [w_packs set_pending]. by rewrite HU.
Qed.

(** What the gate of the primary curves reads of the page. *)
Definition gate (p : page) :=
  (customProbes (snd p), registry (fst p), c_session (cfg (fst p)), gget "__GR_SESSION_OUTCOME__" (pwin p),
   gget "__GR_LAST_RESULT__" (pwin p), gget "__GR_CYCLE_PROBE_STATUS__" (pwin p)).

Lemma gate_defer id p p' : gate p' = gate p -> mustDeferForPrimaryB10 id p' = mustDeferForPrimaryB10 id p.
Proof.
  intros [= E1 E2 E3 E4 E5 E6]. unfold mustDeferForPrimaryB10, primaryB10StillPending, reg_acked, gobj.
  by rewrite E1, E2, E3, E4, E5, E6.
Qed.

Lemma gate_set k v p :
  k <> "__GR_SESSION_OUTCOME__" -> k <> "__GR_LAST_RESULT__" -> k <> "__GR_CYCLE_PROBE_STATUS__" ->
  gate (set_var k v p) = gate p.
Proof. intros. unfold gate, set_var, on_win, on_q, pwin. cbn. by rewrite !gget_gset_ne. Qed.

Lemma gate_health e id patch p : gate (setHealth e id patch p) = gate p.
Proof. unfold setHealth. by rewrite gate_set. Qed.

Lemma gate_ops c s d sv p : gate (ops c s d sv p) = gate p.
Proof. unfold gate, ops, on_win, on_q, pwin. cbn. by rewrite !gget_ops_report. Qed.

Lemma gate_limits e o p : gate (fst (adaptive_limits e o p)) = gate p.
Proof. unfold adaptive_limits. cbn [fst]. case_match; [by rewrite gate_set|done]. Qed.

(** The wave of a call of [kickAll]. *)
Lemma kickAll_shape e packs sid src o p :
  (fst (kickAll e packs sid src o p) = p /\ snd (kickAll e packs sid src o p) = None) \/
  exists p1 l m serial source, calm p p1 /\ gate p1 = gate p /\ l = kick_order (ko_shuffle o) (sor sid (to_string (jor (gget "__GR_SESSION_ID__" (pwin p))
      (jor (gget "__GR_CYCLE_ID__" (pwin p)) (VStr ""))))) source packs /\ 1 <= m <= 2 /\
    let wi := length (waves (snd p)) in
    let p2 := on_l (fun l' => set_waves (waves l' ++ [first_wave l m serial source]) l') p1 in
    kickAll e packs sid src o p = (match l with [] => p2 | _ => pump e wi p2 end, Some wi).
Proof.
  unfold kickAll. destruct (probeHalted p); [by left|]. right.
  set (source := nonempty src "main"). set (l := kick_order _ _ _ _).
  set (p1 := set_var "__GR_PACK_KICK_ORDER__" _ p). destruct (adaptive_limits e o p1) as [p2 m] eqn:E.
  destruct (limits_calm e o p1) as (H1&H2&Hm). rewrite E in H1, H2, Hm. cbn [fst snd] in H1, H2, Hm.
  set (serial := ko_serial o || _). set (p3 := set_var "__GR_LAST_KICK_CONC__" _ p2).
  exists p3, l, m, serial, source. assert (calm p p3) as HC.
  { split; [by rewrite <- (eq_refl : runs (snd p1) = runs (snd p)), <- H1|].
    by rewrite <- (eq_refl : waves (snd p1) = waves (snd p)), <- H2. }
  assert (gate p3 = gate p) as HG.
  { unfold p3. rewrite gate_set by done. pose proof (gate_limits e o p1) as HL. rewrite E in HL. cbn [fst] in HL.
    rewrite HL. by apply gate_set. }
  split_and!; [done|done|done|lia|lia|]. cbv zeta. by rewrite (proj2 HC).
Qed.

Lemma new_touch w p : touch (length (waves (snd p))) p (on_l (fun l => set_waves (waves l ++ [w]) l) p).
Proof.
  split; cbn.
  - intros wi' Hne. split; [|done]. destruct (decide (wi' < length (waves (snd p)))%nat).
    + by apply lookup_app_l.
    + rewrite !lookup_ge_None_2; [done|lia|rewrite length_app; simpl; lia].
  - intros w0 Hw0. apply lookup_lt_Some in Hw0. lia.
Qed.

Lemma kickAll_touch e packs sid src o p : touch (length (waves (snd p))) p (fst (kickAll e packs sid src o p)).
Proof.
  destruct (kickAll_shape e packs sid src o p) as [[-> _]|(p1&l&m&serial&source&HC&_&_&_&HE)]; [done|].
  cbv zeta in HE. rewrite HE. cbn [fst]. etrans; [by apply quiet_touch, calm_quiet|]. rewrite <- (proj2 HC).
  etrans; [apply (new_touch (first_wave l m serial source))|]. destruct l; [done|]. apply pump_touch.
Qed.

(** A wave nothing can move: unresolved or not, it has no live run and no timer. *)
Definition idle_at (wi : nat) (w : wave) (p : page) : Prop :=
  waves (snd p) !! wi = Some w /\ w_timer w = false /\ count (live wi) (runs (snd p)) = 0.

Lemma handle_touch e ev p :
  exists wi, touch wi p (handle e ev p) /\ forall w, idle_at wi w p -> quiet p (handle e ev p).
Proof.
  destruct (handle_cases e ev p) as [H|[(packs&sid&src&o&->)|[(wi&w&Hw&Ht&->)|(ri&r&w&v&Hr&Hw&Hl&->)]]].
  - exists 0%nat. by split; [apply quiet_touch|].
  - eexists. split; [apply kickAll_touch|]. intros w (Hw&_). apply lookup_lt_Some in Hw. lia.
  - exists wi. split; [|intros w' (Hw'&Ht'&_); congruence]. etrans; [by apply (put_touch wi w (set_timer false w))|apply pump_touch].
  - eexists. split; [by apply retire_touch|]. intros w' (_&_&H0). exfalso.
    pose proof (retire_count (r_wave r) ri r _ Hr eq_refl Hl) as H.
    pose proof (count_nonneg (live (r_wave r)) (alter (to_phase RRetired) ri (runs (snd p)))). lia.
Qed.

Lemma idle_stays wi w evs p : idle_at wi w p -> idle_at wi w (prun evs p).
Proof.
  revert p. induction evs as [|[e ev] evs IH]; intros p HI; [done|]. apply IH.
  destruct (handle_touch e ev p) as (wi'&[HT _]&HQ). destruct (decide (wi = wi')) as [<-|Hne].
  - destruct (HQ w HI) as [HF HW]. destruct HI as (H1&H2&H3). split_and!; [by rewrite HW|done|]. rewrite <- H3. by apply live_same.
  - destruct (HT wi Hne) as [HW HC]. destruct HI as (H1&H2&H3). split_and!; [by rewrite HW|done|by rewrite HC].
Qed.

Lemma follow evs p wi w :
  waves (snd p) !! wi = Some w ->
  exists w', waves (snd (prun evs p)) !! wi = Some w' /\ Permutation (untry (w_packs w')) (untry (w_packs w)).
Proof.
  revert p w. induction evs as [|[e ev] evs IH]; intros p w Hw; [by exists w|].
  destruct (handle_touch e ev p) as (wi'&[HT HP]&_).
  assert (exists w', waves (snd (handle e ev p)) !! wi = Some w' /\ Permutation (untry (w_packs w')) (untry (w_packs w)))
    as (w'&Hw'&HP').
  { destruct (decide (wi = wi')) as [->|Hne]; [by apply HP|]. exists w. by destruct (HT wi Hne) as [-> _]. }
  destruct (IH _ _ Hw') as (w''&Hw''&HP''). exists w''. split; [done|]. by rewrite HP''.
Qed.

(** A call of [kickAll] admits the packs it is given. *)
Lemma kickAll_packs e packs sid src o p p1 wi :
  kickAll e packs sid src o p = (p1, Some wi) ->
  exists w, waves (snd p1) !! wi = Some w /\ Permutation (untry (w_packs w)) (untry packs).
Proof.
  intros HK. destruct (kickAll_shape e packs sid src o p) as [[_ HN]|(p0&l&m&serial&source&HC&_&Hl&_&HE)]; [by rewrite HK in HN|].
  cbv zeta in HE. rewrite HK in HE. injection HE as -> ->. set (wi := length (waves (snd p))) in *.
  assert (Permutation l packs) as HPl.
  { subst l. unfold kick_order. rewrite lead_perm. destruct (_ && _); [apply shuffle_perm|apply sort_by_perm]. }
  set (w0 := first_wave l m serial source). set (p2 := on_l _ p0).
  assert (waves (snd p2) !! wi = Some w0) as Hw.
  { cbn. apply list_lookup_middle. by rewrite (proj2 HC). }
  assert (exists w, waves (snd (match l with [] => p2 | _ => pump e wi p2 end)) !! wi = Some w /\
            Permutation (untry (w_packs w)) (untry l)) as (w&Hw'&HP).
  { destruct l; [by exists w0|]. by apply (to_packs wi p2 _ (pump_touch e wi p2) w0 Hw). }
  exists w. split; [done|]. rewrite HP. by apply Permutation_map.
Qed.
