(* ===== verification/PackProps.v ===== *)
(** * Waves of packs: the theorems

    Termination of the pump, exclusion and progress within a wave, what a
    resolved wave has done, the waves that never resolve, the page's use of the
    resource bus, and the collectors that time out. *)

From Stdlib Require Import Permutation.
From S2P Require Import Prelude JsVal Window MethodMatrix Lifecycle Registry QueueState Freeze QueuePump QueueApi PackClass PackBus PackUrl PackPump PackWave PackSpec.
#[local] Open Scope Z_scope.

(** ** The pump and its wave *)

(** C28: The loop of the pump ends: on any page and any wave, whatever the order, the
    classes, the dependencies and the deferrals of its packs, and however often the loop
    swaps the head with a later pack, it reaches its [break] within [4n + 2] turns. *)
Theorem pump_terminates (e : penv) (wi : nat) (p : page) (w : wave) :
  pumps e wi (p, w) (pump_loop e wi (pump_fuel w) (p, w)).
Proof. apply pump_enough. Qed.

Lemma count_le1 {A} (f : A -> bool) l i j x y :
  count f l <= 1 -> l !! i = Some x -> l !! j = Some y -> f x = true -> f y = true -> i = j.
Proof.
  unfold count. revert i j. induction l as [|z l IH]; intros i j Hc Hi Hj Hx Hy; [done|].
  assert (forall k v, l !! k = Some v -> f v = true -> 0 < Z.of_nat (length (List.filter f l))) as Hpos.
  { intros k v Hk Hv. assert (In v (List.filter f l)) as Hin.
    { apply filter_In. split; [|done]. apply list_elem_of_In. by eapply list_elem_of_lookup_2. }
    destruct (List.filter f l); [done|]. simpl. lia. }
  simpl in Hc. destruct i as [|i], j as [|j]; cbn in Hi, Hj; [done| | |].
  - simplify_eq. rewrite Hx in Hc. specialize (Hpos j y Hj Hy). simpl in Hc. lia.
  - simplify_eq. rewrite Hy in Hc. specialize (Hpos i x Hi Hx). simpl in Hc. lia.
  - f_equal. apply IH; try done. destruct (f z); simpl in Hc; lia.
Qed.

(** C6: Exclusion within a wave: over every interleaving of kicks, jobs, timers, forced
    releases and changes of the page by other scripts, at most two light packs of a wave
    are live at once, a heavy run has marked at least one exclusive class, and two live
    runs of the wave never hold the same class. *)
Theorem wave_exclusive (evs : list (penv * event)) (q : queue) (wi : nat) (w : wave) :
  let p := prun evs (page0 q) in
  waves (snd p) !! wi = Some w ->
  count (fun r => live wi r && r_light r) (runs (snd p)) <= 2 /\
  (forall r, In r (runs (snd p)) -> r_wave r = wi -> r_light r = false -> r_marks r <> []) /\
  forall i j r s c, runs (snd p) !! i = Some r -> runs (snd p) !! j = Some s ->
    live wi r = true -> live wi s = true -> In c (r_marks r) -> In c (r_marks s) -> i = j.
Proof.
  intros p Hw. destruct (reach_wave _ _ _ _ Hw) as [HI _]. fold p in HI. split_and!.
  - rewrite <- (k_light _ _ _ HI). pose proof (k_max _ _ _ HI). lia.
  - intros r Hr Hwi Hl. pose proof (k_marks _ _ _ HI r Hr Hwi) as H. rewrite Hl in H. by destruct H.
  - intros i j r s c Hi Hj Hlr Hls Hcr Hcs.
    assert (c <> "light") as Hc.
    { intros ->. assert (In r (runs (snd p))) as Hr by (apply list_elem_of_In; by eapply list_elem_of_lookup_2).
      assert (r_wave r = wi) as Hwi by (apply andb_true_iff in Hlr as [H _]; by apply Nat.eqb_eq).
      pose proof (k_marks _ _ _ HI r Hr Hwi) as H. destruct (r_light r); [by rewrite H in Hcr|]. tauto. }
    pose proof (k_one _ _ _ HI c) as H1. rewrite (k_class _ _ _ HI c Hc) in H1.
    eapply (count_le1 _ _ i j r s H1 Hi Hj); unfold has_mark; [rewrite Hlr|rewrite Hls]; by apply mem_str_In.
Qed.

(** Progress: a wave whose promise has not resolved has a live run, or its timer is
    armed, or its head is held back by the gate of the primary curves or by a dependency
    it has already waited for. *)
Theorem wave_progress (evs : list (penv * event)) (q : queue) (wi : nat) (w : wave) :
  let p := prun evs (page0 q) in
  waves (snd p) !! wi = Some w -> w_resolved w = None ->
  (exists ri r, runs (snd p) !! ri = Some r /\ r_wave r = wi /\ r_phase r <> RRetired) \/
  w_timer w = true \/
  exists k, w_packs w !! w_next w = Some k /\ (p_tried k = true \/ deferrable (p_id k) = true).
Proof.
  intros p Hw Hr. destruct (reach_wave _ _ _ _ Hw) as [_ [HM|[HM|[HM|HM]]]]; [done| |auto|auto].
  left. apply count_pos in HM as (r&Hin&Hlv). apply list_elem_of_In, list_elem_of_lookup in Hin as [ri Hri].
  exists ri, r. unfold live, in_wave, retired in Hlv. apply andb_true_iff in Hlv as [Hwi Hph]. split_and!; [done| |].
  - by apply Nat.eqb_eq.
  - intros Heq. by rewrite Heq in Hph.
Qed.

Lemma map_seq_lookup {A B} (f : A -> nat) (g : A -> B) (l : list A) (m : list B) :
  map f l = seq 0 (length m) -> (forall x, In x l -> m !! f x = Some (g x)) -> map g l = m.
Proof.
  intros Hs Hm. apply list_eq. intros i. destruct (l !! i) as [x|] eqn:Hx.
  - assert (map f l !! i = Some (f x)) as Hf by (rewrite list_lookup_fmap, Hx; done).
    rewrite Hs in Hf. apply lookup_seq in Hf as [Hf _]. cbn in Hf.
    change (map g l) with (g <$> l). rewrite list_lookup_fmap, Hx. cbn. symmetry. rewrite <- Hf. apply Hm.
    apply list_elem_of_In. by eapply list_elem_of_lookup_2.
  - change (map g l) with (g <$> l). rewrite list_lookup_fmap, Hx. cbn. symmetry. apply lookup_ge_None_2.
    apply lookup_ge_None_1 in Hx. apply (f_equal (@length nat)) in Hs. rewrite length_map, length_seq in Hs. lia.
Qed.

Lemma count_zero_none {A} (f : A -> bool) l x : count f l = 0 -> In x l -> f x = false.
Proof.
  unfold count. intros Hc Hin. destruct (f x) eqn:E; [|done]. assert (In x (List.filter f l)) as H by by apply filter_In.
  destruct (List.filter f l); [done|]. simpl in Hc. lia.
Qed.

(** C5: A promise that resolves has done the work: whatever happened before the call of
    [kickAll] and whatever happens after it, when its promise has resolved the runs of its
    wave are the packs of the call, each exactly once, and all have ended. *)
Theorem wave_resolved (pre evs : list (penv * event)) (q : queue) (e : penv) (packs : list lpack) (sid src : string)
    (o : kopts) (p1 : page) (wi : nat) (w : wave) :
  kickAll e packs sid src o (prun pre (page0 q)) = (p1, Some wi) ->
  waves (snd (prun evs p1)) !! wi = Some w -> w_resolved w <> None ->
  let mine := List.filter (in_wave wi) (runs (snd (prun evs p1))) in
  Permutation (untry (map r_pack mine)) (untry packs) /\ Forall (fun r => r_phase r = RRetired) mine.
Proof.
  intros HK Hw Hres mine. destruct (kickAll_packs _ _ _ _ _ _ _ _ HK) as (w1&Hw1&HP1).
  destruct (follow evs p1 wi w1 Hw1) as (w'&Hw'&HP). rewrite Hw in Hw'. simplify_eq.
  assert (pok None (prun evs p1)) as HPok.
  { apply prun_pok. pose proof (kickAll_pok e packs sid src o _ (prun_pok pre _ (page0_pok q))) as H. by rewrite HK in H. }
  destruct (proj1 HPok wi w' Hw ltac:(done)) as [HI _]. destruct (k_done _ _ _ HI Hres) as [Hn Hz].
  assert (forall r, In r mine -> In r (runs (snd (prun evs p1))) /\ r_wave r = wi) as Hmine.
  { intros r [Hr Hwi]%filter_In. split; [done|]. by apply Nat.eqb_eq. }
  split.
  - assert (map r_pack mine = w_packs w') as ->; [|by rewrite HP].
    apply (map_seq_lookup r_idx); [rewrite <- Hn; apply (k_idx _ _ _ HI)|].
    intros r [Hr Hwi]%Hmine. by apply (k_pack _ _ _ HI).
  - apply List.Forall_forall. intros r Hr. destruct (Hmine r Hr) as [Hin Hwi].
    pose proof (count_zero_none _ _ _ Hz Hin) as HL. unfold live, in_wave, retired in HL. rewrite Hwi, Nat.eqb_refl in HL.
    by destruct (r_phase r).
Qed.

(** ** Waves that never resolve *)

(** A pack the gate of the primary curves holds back on page [p]. *)
Definition held_back (p : page) (k : lpack) : Prop :=
  is_light (resourceClasses (customProbes (snd p)) k) = false /\ mustDeferForPrimaryB10 (p_id k) p = true.

(** A pump that can only defer leaves the wave as it is. *)
Record stuck (p0 : page) (s : page * wave) : Prop := Stuck {
  st_gate : gate (fst s) = gate p0;
  st_runs : runs (snd (fst s)) = runs (snd p0);
  st_waves : waves (snd (fst s)) = waves (snd p0);
  st_wave : w_timer (snd s) = false /\ w_resolved (snd s) = None;
  st_held : Forall (held_back p0) (w_packs (snd s))
}.

Lemma held_tried p k : held_back p k -> held_back p (PackClass.set_tried true k).
Proof. done. Qed.

Lemma held_heavy p0 p w k : gate p = gate p0 -> held_back p0 k -> is_light (classesForPack w k p) = false.
Proof.
  intros [= HC _ _ _ _ _] [Hl _]. unfold classesForPack. destruct (w_serial w); [done|]. by rewrite HC.
Qed.

Lemma Forall_swap {A} (P : A -> Prop) i j l : Forall P l -> Forall P (swap i j l).
Proof. intros H. by rewrite swap_perm. Qed.

Lemma turn_stuck e wi p0 s s' :
  stuck p0 s -> pump_turn e wi s = Again s' \/ pump_turn e wi s = Stop s' -> stuck p0 s'.
Proof.
  destruct s as [p w]. intros [HG HR HW [HT HU] HH] H. cbn [fst snd] in *. unfold pump_turn in H.
  destruct (w_packs w !! w_next w) as [k|] eqn:Hk; [|by destruct H as [|[= <-]]; [done|by split]].
  assert (held_back p0 k) as Hkh.
  { rewrite List.Forall_forall in HH. apply HH, list_elem_of_In. by eapply list_elem_of_lookup_2. }
  destruct (unmet_dep k (w_packs w) (w_next w) p) as [dep|].
  - assert (gate (publishDagSnapshot e (record_dep e (any_id k) dep p)) = gate p0 /\
            gate (record_dep e (any_id k) dep p) = gate p0) as [HG1 HG2].
    { rewrite <- HG. unfold publishDagSnapshot, record_dep.
      rewrite gate_set, !gate_ops, !gate_health by done. done. }
    assert (Forall (held_back p0) (<[w_next w := PackClass.set_tried true k]> (w_packs w))) as HH1.
    { by apply Forall_insert, held_tried. }
    destruct (search _ _ _); destruct H as [[= <-]|[= <-]]; try done; split; try done.
    unfold swap_head. cbn [w_packs set_packs snd]. by apply Forall_swap.
  - rewrite (held_heavy _ _ _ _ HG Hkh) in H. rewrite (gate_defer _ _ _ HG), (proj2 Hkh) in H.
    destruct (search _ _ _); destruct H as [[= <-]|[= <-]]; try done; split; try done.
    cbn [w_packs set_packs swap_head snd]. by apply Forall_swap.
Qed.

Lemma pump_stuck e wi p w :
  waves (snd p) !! wi = Some w -> (w_next w < length (w_packs w))%nat -> stuck p (p, w) ->
  exists w', waves (snd (pump e wi p)) !! wi = Some w' /\ w_timer w' = false /\ w_resolved w' = None /\
             runs (snd (pump e wi p)) = runs (snd p).
Proof.
  intros Hw Hn HS. pose proof (lookup_lt_Some _ _ _ Hw). unfold pump. rewrite Hw.
  match goal with |- context [pump_on ?a ?b ?c] => destruct (pump_on a b c) as [p' w'] eqn:E end.
  unfold pump_on in E. assert (pump_over p w = false) as Ho.
  { unfold pump_over. apply andb_false_iff. right. by apply Nat.leb_gt. }
  rewrite Ho in E. pose proof (pump_enough e wi p w) as HE. rewrite E in HE.
  assert (stuck p (p', w')) as [_ HR HW [HT HU] _].
  { eapply (pumps_ind_inv e wi (stuck p)); [|exact HS|exact HE]. intros s s1 H1 H2. by eapply turn_stuck. }
  cbn [fst snd] in *. exists w'. rewrite waves_put, decide_True by (done || by rewrite HW). done.
Qed.

Lemma kick_stranded e packs sid src o p p1 wi :
  pok None p -> packs <> [] -> Forall (held_back p) packs -> kickAll e packs sid src o p = (p1, Some wi) ->
  exists w, idle_at wi w p1 /\ w_resolved w = None.
Proof.
  intros [_ Hruns] Hne HF HK.
  destruct (kickAll_shape e packs sid src o p) as [[_ HN]|(p0&l&m&serial&source&HC&HG&Hl&_&HE)]; [by rewrite HK in HN|].
  cbv zeta in HE. rewrite HK in HE. injection HE as -> ->. set (wi := length (waves (snd p))) in *.
  assert (Permutation l packs) as HPl.
  { subst l. unfold kick_order. rewrite lead_perm. destruct (_ && _); [apply shuffle_perm|apply sort_by_perm]. }
  destruct l as [|k l]; [by apply Permutation_nil in HPl|]. clear Hl.
  set (w0 := first_wave (k :: l) m serial source). set (p2 := on_l _ p0).
  assert (waves (snd p2) !! wi = Some w0) as Hw by (cbn; apply list_lookup_middle; by rewrite (proj2 HC)).
  assert (gate p2 = gate p) as HG2 by exact HG.
  destruct (pump_stuck e wi p2 w0 Hw) as (w&Hw'&HT&HU&HR); [cbn; lia| |].
  { split; try done. cbn [fst snd w0 first_wave w_packs]. rewrite HPl. eapply List.Forall_impl; [|exact HF].
    intros k' [H1 H2]. split; [|by rewrite (gate_defer _ _ _ HG2)].
    assert (customProbes (snd p2) = customProbes (snd p)) as -> by (by injection HG2). done. }
  exists w. split; [|done]. split_and!; [done..|]. rewrite HR. change (runs (snd p2)) with (runs (snd p0)). rewrite (proj1 HC).
  unfold count, live. by rewrite (filter_filter (in_wave wi) (fun r => negb (retired r))), filter_none.
Qed.

(** C26: A wave that only holds packs the gate of the primary curves defers is stranded: the
    loop breaks on its head without arming the timer that other waits arm, so no pack of
    it is ever started and its promise never resolves, not even when the primary curves
    are acknowledged later, whatever else happens on the page. *)
Theorem wave_stranded_forever (pre evs : list (penv * event)) (q : queue) (e : penv) (packs : list lpack)
    (sid src : string) (o : kopts) (p1 : page) (wi : nat) :
  let p := prun pre (page0 q) in
  packs <> [] -> Forall (held_back p) packs -> kickAll e packs sid src o p = (p1, Some wi) ->
  exists w, waves (snd (prun evs p1)) !! wi = Some w /\ w_resolved w = None /\
            count (live wi) (runs (snd (prun evs p1))) = 0.
Proof.
  intros p Hne HF HK. pose proof (prun_pok pre _ (page0_pok q)) as HP. fold p in HP.
  destruct (kick_stranded e packs sid src o p p1 wi HP Hne HF HK) as (w&HI&HU).
  destruct (idle_stays wi w evs _ HI) as (A&_&B). by exists w.
Qed.

(** ** Collectors that time out *)

(** The row of a pack in a page's health table. *)
Definition row_of (id : string) (p : page) : list (string * val) :=
  match assoc id (health (snd p)) with VObj o => o | _ => [("pack_id", VStr id)] end.

Lemma setHealth_row e id patch p :
  assoc id (health (snd (setHealth e id patch p))) = VObj (assign_obj (patch ++ [("ts", vint (p_now e))]) (row_of id p)).
Proof. unfold setHealth. cbv zeta. cbn [snd on_l set_health health]. cbn. by rewrite assoc_set_prop, String.eqb_refl. Qed.

Lemma force_health e c y p : health (snd (fst (forceReleaseResource e c y p))) = health (snd p).
Proof. unfold forceReleaseResource. by destruct (PackBus.forceReleaseResource _ _ _). Qed.

Lemma settle_frame rid ri r v p :
  health (snd (settle rid ri r v p)) = health (snd p) /\ kicked (snd (settle rid ri r v p)) = kicked (snd p) /\
  runs (snd (settle rid ri r v p)) = alter (to_phase (RSettled v)) ri (runs (snd p)).
Proof. unfold settle. by destruct (packTouchesGpu _). Qed.

Lemma ids_in r : rid_ r ∈ ids_of (rid_ r) (rbid r) /\ rbid r ∈ ids_of (rid_ r) (rbid r).
Proof.
  unfold ids_of. destruct (rbid r =s "") eqn:E; [|set_solver]. apply String.eqb_eq in E.
  assert (rid_ r = rbid r) as ->; [|set_solver]. unfold rbid, rid_, nonempty in *.
  destruct (p_batch (r_pack r) =s "") eqn:E2; [done|]. apply String.eqb_neq in E2. congruence.
Qed.

(** What [succeed] leaves of the row and of the marks. *)
Lemma succeed_done e rid ri r v o err p :
  assoc (rid_ r) (health (snd p)) = VObj o -> assoc "error" o = err -> runs (snd p) !! ri = Some r ->
  let p' := succeed e rid ri r v p in
  is_kicked (rid_ r) p' = true /\ is_kicked (rbid r) p' = true /\
  (exists o, assoc (rid_ r) (health (snd p')) = VObj o /\ assoc "run" o = VStr "ok" /\ assoc "error" o = err) /\
  (r_phase <$> runs (snd p') !! ri) = Some (RSettled v).
Proof.
  intros Ho Herr Hr p'. subst p'. unfold succeed. set (p3 := setHealth _ _ _ _).
  destruct (settle_frame rid ri r v p3) as (F1&F2&F3). unfold is_kicked. rewrite F1, F2, F3.
  destruct (ids_in r). change (kicked (snd p3)) with (list_to_set (ids_of (rid_ r) (rbid r)) ∪ kicked (snd p)).
  split_and!; [apply bool_decide_true; set_solver..| |].
  - unfold p3. rewrite setHealth_row. eexists. split; [reflexivity|].
    change (row_of (rid_ r) (mark_kicked (ids_of (rid_ r) (rbid r)) p)) with (row_of (rid_ r) p).
    unfold row_of. rewrite Ho. cbn [app fold_left assign_obj]. rewrite !assoc_set_prop. by cbn.
  - rewrite list_lookup_alter_eq. change (runs (snd p3)) with (runs (snd p)). by rewrite Hr.
Qed.

(** A collector that never settles counts as done: after its timeout the health row of
    its pack says [ok], with the error of the timeout beside it, the pack and its batch
    are marked as kicked, so that no later call runs them, and the run settles with
    [null]. *)
Theorem timeout_counts_as_done (e : penv) (ri : nat) (r : run) (w : wave) (rid : nat) (ms : num) (p : page) :
  runs (snd p) !! ri = Some r -> waves (snd p) !! r_wave r = Some w -> r_phase r = RFlight rid ms ->
  let p' := advance e ri TimedOut p in
  is_kicked (rid_ r) p' = true /\ is_kicked (rbid r) p' = true /\
  (exists o, assoc (rid_ r) (health (snd p')) = VObj o /\ assoc "run" o = VStr "ok" /\
             assoc "error" o = VStr "pack_run_timeout") /\
  (r_phase <$> runs (snd p') !! ri) = Some (RSettled VNull).
Proof.
  intros Hr Hw Hp p'. subst p'. unfold advance. rewrite Hr, Hw, Hp. unfold timeout. cbn [fold_left].
  set (p1 := setHealth e (rid_ r) _ p).
  assert (exists o, assoc (rid_ r) (health (snd p1)) = VObj o /\ assoc "error" o = VStr "pack_run_timeout") as (o&Ho&Herr).
  { unfold p1. rewrite setHealth_row. eexists. split; [reflexivity|]. cbn [app fold_left assign_obj].
    by rewrite !assoc_set_prop. }
  set (p2 := fst (forceReleaseResource _ "cpu" _ _)).
  assert (health (snd p2) = health (snd p1) /\ calm p p2) as [H2 HC].
  { split; [unfold p2; by rewrite !force_health|]. unfold p2, p1. auto 12 with calmdb. }
  clearbody p1 p2. apply (succeed_done e rid ri r VNull o); [by rewrite H2, Ho|done|by rewrite (proj1 HC)].
Qed.

(** ** The page and its bus *)

Definition bstar (p p' : page) : Prop := star bstep (gbus (snd p)) (gbus (snd p')).

#[export] Instance bstar_preorder : PreOrder bstar.
Proof. split; [intros p; apply star_refl|]. intros x y z H1 H2. by eapply star_trans. Qed.

(** Everything but [on_bus] leaves the bus alone. *)
Lemma bstar_same p0 p p' : gbus (snd p') = gbus (snd p) -> bstar p0 p -> bstar p0 p'.
Proof. unfold bstar. by intros ->. Qed.

Lemma bstar_on f p0 p : bstep (gbus (snd p)) (f (gbus (snd p))) -> bstar p0 p -> bstar p0 (on_bus f p).
Proof.
  intros Hf H. eapply star_trans; [exact H|]. change (gbus (snd (on_bus f p))) with (f (gbus (snd p))).
  eapply star_step; [exact Hf|apply star_refl].
Qed.

Create HintDb busdb.
Lemma bstar_health e id patch p0 p : bstar p0 p -> bstar p0 (setHealth e id patch p).
Proof. by apply bstar_same. Qed.
Lemma bstar_ops c s d sv p0 p : bstar p0 p -> bstar p0 (ops c s d sv p).
Proof. by apply bstar_same. Qed.
Lemma bstar_emit x p0 p : bstar p0 p -> bstar p0 (emit x p).
Proof. by apply bstar_same. Qed.
Lemma bstar_mark ids p0 p : bstar p0 p -> bstar p0 (mark_kicked ids p).
Proof. by apply bstar_same. Qed.
Lemma bstar_unkick ids p0 p : bstar p0 p -> bstar p0 (unkick ids p).
Proof. by apply bstar_same. Qed.
Lemma bstar_upd ri f p0 p : bstar p0 p -> bstar p0 (upd_run ri f p).
Proof. by apply bstar_same. Qed.
Lemma bstar_put wi w p0 p : bstar p0 p -> bstar p0 (put_wave wi w p).
Proof. by apply bstar_same. Qed.
Lemma bstar_set k v p0 p : bstar p0 p -> bstar p0 (set_var k v p).
Proof. by apply bstar_same. Qed.
Lemma bstar_call cs l s p0 p : bstar p0 p -> bstar p0 (on_bus (withResourceLocks cs l s) p).
Proof. apply bstar_on, BCall. Qed.
Lemma bstar_leave r p0 p : bstar p0 p -> bstar p0 (on_bus (leave r) p).
Proof. apply bstar_on, BLeave. Qed.
#[export] Hint Resolve bstar_health bstar_ops bstar_emit bstar_mark bstar_unkick bstar_upd bstar_put bstar_set
  bstar_call bstar_leave : busdb.
#[export] Hint Extern 5 (bstar ?p ?p) => reflexivity : busdb.
#[export] Hint Extern 4 (bstar _ (if ?b then _ else _)) => destruct b : busdb.

Lemma bstar_recollect d p0 p : bstar p0 p -> bstar p0 (fst (maybeClearKickedForRecollect d p)).
Proof. intros H. unfold maybeClearKickedForRecollect, clearKicked. cbv zeta. repeat case_match; cbn [fst]; auto with busdb. Qed.
#[export] Hint Resolve bstar_recollect : busdb.

Lemma pump_bus e wi p0 p : bstar p0 p -> bstar p0 (pump e wi p).
Proof.
  apply bstar_same. unfold pump. destruct (waves (snd p) !! wi) as [w|]; [|done].
  match goal with |- context [pump_on ?a ?b ?c] => destruct (pump_on a b c) as [p' w'] eqn:E end.
  change (gbus (snd p') = gbus (snd p)). unfold pump_on in E. destruct (pump_over p w); [by injection E as <- <-|].
  pose proof (pump_enough e wi p w) as HE. rewrite E in HE.
  apply (pumps_ind_inv e wi (fun s => gbus (snd (fst s)) = gbus (snd p)) _ _) in HE; [done| |done].
  clear. intros [p1 w1] s1 H1 H2. rewrite <- H1. unfold pump_turn in H2.
  repeat case_match; destruct H2 as [[= <-]|[= <-]]; try done.
  cbn [fst]. unfold timeline_push. repeat case_match; done.
Qed.
#[export] Hint Resolve pump_bus : busdb.

(** Events that are no forced release: neither the call nor a timeout. *)
Definition unforced (ev : event) : Prop :=
  match ev with ForceRelease _ _ => False | Job _ TimedOut => False | _ => True end.

Lemma advance_bus e ri x p : unforced (Job ri x) -> bstar p (advance e ri x p).
Proof.
  intros Hu. unfold advance. repeat case_match; try done; try (by destruct Hu); try reflexivity.
  - unfold runOne. cbv zeta. case_match; auto 8 with busdb.
  - unfold script_done. case_match; auto 8 with busdb.
  - unfold lock. auto 8 with busdb.
  - unfold execRun, settle. cbv zeta. repeat case_match; auto 12 with busdb.
  - unfold callRun, succeed, settle. repeat case_match; auto 12 with busdb.
  - unfold succeed, settle. auto 12 with busdb.
  - unfold fail, on_collect_fail, settle. auto 12 with busdb.
  - unfold retire, doneOne. repeat case_match; auto 12 with busdb.
Qed.

Lemma kickAll_bus e packs sid src o p : bstar p (fst (kickAll e packs sid src o p)).
Proof.
  unfold kickAll. destruct (probeHalted p); [reflexivity|].
  set (l := kick_order _ _ _ _). set (p1 := set_var "__GR_PACK_KICK_ORDER__" _ p).
  destruct (adaptive_limits e o p1) as [p2 m] eqn:E.
  assert (gbus (snd p2) = gbus (snd p)) as HG.
  { assert (p2 = fst (adaptive_limits e o p1)) as -> by (by rewrite E). unfold adaptive_limits. cbn [fst]. by case_match. }
  set (p3 := on_l _ _). assert (bstar p p3) as H3 by (by apply (bstar_same p p); [exact HG|reflexivity]).
  clearbody p3. destruct l; cbn [fst]; [done|]. auto with busdb.
Qed.

Lemma handle_bus e ev p : unforced ev -> bstar p (handle e ev p).
Proof.
  intros Hu. destruct ev; cbn [handle]; try done.
  - apply kickAll_bus.
  - by apply advance_bus.
  - unfold timer_fires. repeat case_match; auto with busdb.
  - apply bstar_on; [apply BTake|reflexivity].
  - apply bstar_on; [apply BWake|reflexivity].
  - auto with busdb.
  - auto with busdb.
  - unfold on_upload_fail. auto with busdb.
  - unfold on_collect_fail. auto with busdb.
  - unfold on_quality_gap. auto with busdb.
  - case_match; by apply (bstar_same p p).
  - auto with busdb.
  - unfold clearKicked. auto with busdb.
  - by apply (bstar_same p p).
  - by apply (bstar_same p p).
Qed.

(** C11: The page implements the bus: as long as no release is forced, by a call or by a
    collector's timeout, every history of the page, all its waves together, is a history
    of the bus's own steps, so that over all waves, frames and other callers of the locks
    no class ever has two owners. *)
Theorem page_bus_refines (evs : list (penv * event)) (q : queue) :
  Forall (fun '(_, ev) => unforced ev) evs ->
  let b := gbus (snd (prun evs (page0 q))) in
  star bstep getBus0 b /\ forall c r1 r2, owns b r1 c -> owns b r2 c -> r1 = r2.
Proof.
  intros HF b. assert (star bstep getBus0 b) as HS.
  { subst b. assert (bstar (page0 q) (prun evs (page0 q))); [|done]. generalize (page0 q).
    induction HF as [|[e ev] evs Hu HF IH]; intros p; [reflexivity|].
    etrans; [by apply (handle_bus e ev p)|apply IH]. }
  split; [done|]. intros c r1 r2. apply (i_excl None [] b (reachable_inv b HS)).
Qed.

(** ** Witnesses *)

Module Demo.
Definition desk : device :=
  mkDevice "Mozilla/5.0" 0 1280 None (Some 8) false ""
    (MethodMatrix.mkCaps false (Some false) true true false true "Google Inc." (Some false)) false true true.
Definition at_ (t : Z) : penv := mkPenv t None desk.
Definition pk (id : string) : lpack := mkLpack id "" 0 "" "" "" [] "" true VUndef false.
Definition q1 : queue := q0 false win0.
Definition plain : kopts := mkKopts false VUndef false.

(** Two packs, their jobs in turn: the light one settles while the other takes
    its classes one after the other. *)
Definition jobs (ri : nat) (x : ending) (n : nat) : list (penv * event) := repeat (at_ 10, Job ri x) n.
Definition started : list (penv * event) :=
  [(at_ 0, KickAll [pk "B0_bootstrap"; pk "B18_webgpu"; pk "B10_hw_curves"] "s" "main" plain)] ++
  jobs 0 (Done VNull) 2 ++ jobs 1 (Done VNull) 2.
Definition in_flight : list (penv * event) := started ++ [(at_ 11, TakeLock 0)] ++ jobs 0 (Done VNull) 2.

Definition wave_of (p : page) (wi : nat) : wave := nth wi (waves (snd p)) (first_wave [] 1 false "").
Definition run_of (p : page) (ri : nat) : run := nth ri (runs (snd p)) (mkRun 0 0 (pk "") true [] [] RStart).

Lemma wave_exclusive_witness :
  let p := prun in_flight (page0 q1) in
  count (fun r => live 0 r && r_light r) (runs (snd p)) <= 2 /\ r_marks (run_of p 0) <> [].
Proof.
  unshelve refine (let H := wave_exclusive in_flight q1 0 (wave_of (prun in_flight (page0 q1)) 0) _ in
          conj (proj1 H) (proj1 (proj2 H) (run_of (prun in_flight (page0 q1)) 0) _ _ _));
    try (vm_compute; reflexivity).
  vm_compute. by left.
Defined.

Lemma wave_progress_witness :
  let p := prun in_flight (page0 q1) in
  (exists ri r, runs (snd p) !! ri = Some r /\ r_wave r = 0%nat /\ r_phase r <> RRetired) \/
  w_timer (wave_of p 0) = true \/
  exists k, w_packs (wave_of p 0) !! w_next (wave_of p 0) = Some k /\ (p_tried k = true \/ deferrable (p_id k) = true).
Proof. refine (wave_progress in_flight q1 0 (wave_of (prun in_flight (page0 q1)) 0) _ _); vm_compute; reflexivity. Defined.

(** A call of two packs, and all their jobs. *)
Definition pair_ : list lpack := [pk "B0_bootstrap"; pk "B10_hw_curves"].
Definition all_jobs : list (penv * event) :=
  jobs 0 (Done VNull) 2 ++ jobs 1 (Done VNull) 2 ++ [(at_ 11, TakeLock 0)] ++ jobs 0 (Done VNull) 4 ++
  jobs 1 (Failed "gl") 4.

Lemma wave_resolved_witness :
  let p1 := fst (kickAll (at_ 0) pair_ "s" "main" plain (page0 q1)) in
  let mine := List.filter (in_wave 0) (runs (snd (prun all_jobs p1))) in
  Permutation (untry (map r_pack mine)) (untry pair_) /\ Forall (fun r => r_phase r = RRetired) mine.
Proof.
  refine (wave_resolved [] all_jobs q1 (at_ 0) pair_ "s" "main" plain (fst (kickAll (at_ 0) pair_ "s" "main" plain (page0 q1))) 0
            (wave_of (prun all_jobs (fst (kickAll (at_ 0) pair_ "s" "main" plain (page0 q1)))) 0) _ _ _);
    vm_compute; [reflexivity|reflexivity|discriminate].
Defined.

(** The acknowledgement of the primary curves comes too late. *)
Definition acked_q : queue :=
  set_win (gset "__GR_CYCLE_PROBE_STATUS__" (VObj [("has_b10", VBool true)]) (win q1)) q1.
Definition late : list (penv * event) := [(at_ 50, Elsewhere acked_q); (at_ 120, PumpTimer 0)].
Definition deep : list lpack := [pk "B18_webgpu"; pk "B46_audio_deep"].
Definition deferred : page := fst (kickAll (at_ 0) deep "s" "main" plain (page0 q1)).

Lemma wave_stranded_forever_witness :
  primaryB10StillPending (prun late deferred) = false /\
  exists w, waves (snd (prun late deferred)) !! 0%nat = Some w /\ w_resolved w = None /\
            count (live 0) (runs (snd (prun late deferred))) = 0.
Proof.
  split; [vm_compute; reflexivity|].
  refine (wave_stranded_forever [] late q1 (at_ 0) deep "s" "main" plain deferred 0 _ _ _); [done| |vm_compute; reflexivity].
  repeat constructor; vm_compute; reflexivity.
Defined.

Lemma timeout_counts_as_done_witness :
  let p' := advance (at_ 22011) 0 TimedOut (prun in_flight (page0 q1)) in
  is_kicked "B10_hw_curves" p' = true /\ (r_phase <$> runs (snd p') !! 0%nat) = Some (RSettled VNull).
Proof.
  unshelve refine (let H := timeout_counts_as_done (at_ 22011) 0 (run_of (prun in_flight (page0 q1)) 0)
            (wave_of (prun in_flight (page0 q1)) 0) 0 (num_Z 22000) (prun in_flight (page0 q1)) _ _ _ in
          conj (proj1 H) (proj2 (proj2 (proj2 H)))); vm_compute; reflexivity.
Defined.

Lemma page_bus_refines_witness : star bstep getBus0 (gbus (snd (prun in_flight (page0 q1)))).
Proof. refine (proj1 (page_bus_refines in_flight q1 _)). repeat constructor. Defined.
End Demo.
