(* ===== verification/PackPlan.v ===== *)
(** * Route plans ([probe/fe/pack_loader.js], [applyRoutePlan] and the DAG gate;
    [probe/fe/collectors/registry.js], [packsFromRoutePlan])

    A route plan names packs; the loader loads the layers they need, turns the
    entries into packs of the collectors' table, drops what has been kicked and
    kicks the rest, one call of [kickAll] after the other when the plan has
    groups.  The collectors' table is data of the model; an application of a
    plan is a [going], the page takes its turns between the events of the
    waves. *)

From Stdlib Require Import QArith Qround.
From S2P Require Import Prelude JsVal Window MethodMatrix Lifecycle Registry QueueState Freeze QueuePump QueueApi PackClass PackBus PackUrl PackPump.
#[local] Open Scope Z_scope.

(** ** Data *)

(** An entry of a plan; the numbers are [None] where absent. *)
Record rpack := mkRpack {
  rp_pack_id : string;
  rp_id : string;
  rp_batch : string;
  rp_source : string;
  rp_schedule : string;
  rp_force : bool;
  rp_priority : option Z;
  rp_effective : option Z
}.

Record plan := mkPlan {
  pl_packs : list rpack;
  pl_version : Z;
  pl_stop : bool;
  pl_dag : Z;
  pl_groups : list (list string);
  pl_sandbox : val
}.

(** A registered collector; [co_ref] is the identity of its object. *)
Record coll := mkColl { co_ref : nat; co_batch : string; co_source : string; co_schedule : string; co_priority : Z }.

(** A pack of [packsFromRoutePlan]: what [kickAll] sees, and its own fields. *)
Record runnable := mkRn {
  rn_pack : lpack;
  rn_pid : string;
  rn_base : option Z;
  rn_source : string;
  rn_force : bool
}.

(** [p.pack_id || p.id], [p.batch_id || id], [p.source || "main"] *)
Definition rp_key (p : rpack) : string := sor (rp_pack_id p) (rp_id p).
Definition rp_bid (p : rpack) : string := sor (rp_batch p) (rp_key p).
Definition rp_src (p : rpack) : string := sor (rp_source p) "main".

(** ** Packs of a plan *)

Definition collectors : Type := list (string * coll).

Fixpoint find_coll (id : string) (l : collectors) : option coll :=
  match l with
  | [] => None
  | (k, d) :: l' => if id =s k then Some d else find_coll id l'
  end.

Definition aliases : list (string * string) :=
  [("gateway.b8", "B8_gateway_early"); ("lite.surface", "B0_bootstrap"); ("lite.auto", "B1_conflict");
   ("lite.gpu", "B2_hardware"); ("lite.display", "B3_system"); ("mid.curves", "B10_hw_curves");
   ("mid.fast_signals", "B16_fast_signals"); ("conflict.reconcile", "B1_conflict")].

Definition coll_of (id : string) (cs : collectors) : option coll :=
  match find_coll id cs with
  | Some d => Some d
  | None => match List.find (fun '(a, _) => id =s a) aliases with Some (_, k) => find_coll k cs | None => None end
  end.

(** The key a collector is registered under: [id] itself or the first one. *)
Definition coll_key (id : string) (d : coll) (cs : collectors) : string :=
  match find_coll id cs with
  | Some _ => id
  | None => match List.find (fun '(_, d') => Nat.eqb (co_ref d') (co_ref d)) cs with
            | Some (k, _) => nonempty k id | None => id end
  end.

Definition runnable_of (id : string) (p : rpack) (d : coll) (cs : collectors) : runnable :=
  let prio := match rp_effective p with
              | Some n => n
              | None => match rp_priority p with Some n => n | None => co_priority d end
              end in
  mkRn (mkLpack (coll_key id d cs) (sor (co_batch d) id) prio "" ""
          (sor (rp_schedule p) (sor (co_schedule d) "dynamic")) [] "" true VUndef false)
    id (match rp_priority p with Some n => Some n | None => Some (co_priority d) end)
    (sor (rp_source p) (sor (co_source d) "main")) (rp_force p).

Definition take_entry (cs : collectors) (already : strset) (p : rpack) : option runnable :=
  let id := rp_key p in
  if id =s "" then None else
  if negb (rp_force p) && bool_decide (id ∈ already) then None else
  match coll_of id cs with
  | None => None
  | Some d => if negb (rp_force p) && bool_decide (sor (co_batch d) id ∈ already) then None
              else Some (runnable_of id p d cs)
  end.

Definition packsFromRoutePlan (cs : collectors) (rp : plan) (already : strset) : list runnable :=
  omap (take_entry cs already) (pl_packs rp).

(** ** Layers *)

Definition planHasRandomVerify (rp : plan) : bool :=
  existsb (fun p => contains "spotcheck" (rp_key p) || letter_two_digits "R" (rp_key p)) (pl_packs rp).

Definition digit_in (a b : N) (c : ascii) : bool := let n := N_of_ascii c in ((48 + a <=? n) && (n <=? 48 + b))%N.

(** [/^B(1[5-9]|[2-4][0-9]|[5-9])/] *)
Definition mid_id (id : string) : bool :=
  match id with
  | String b (String c rest) =>
    Ascii.eqb b "B" &&
    (digit_in 5 9 c ||
     match rest with
     | String d _ => (Ascii.eqb c "1" && digit_in 5 9 d) || (digit_in 2 4 c && is_digit d)
     | EmptyString => false
     end)
  | _ => false
  end.

Definition needs_hard (id : string) : bool :=
  (id =s "B10_hw_curves") || (id =s "B7_sandbox") || starts_with "B1" id || (id =s "B2_hardware").
Definition needs_mid (id : string) : bool := mid_id id && negb (starts_with "B10" id).
Definition needs_dense (id : string) : bool :=
  (starts_with "B4" id || starts_with "B5" id || starts_with "B6" id || starts_with "B7" id) && (id <>s "B7_sandbox").

(** The layers [ensureCollectorsForPlan] loads, one after the other. *)
Definition ensureCollectorsForPlan (rp : plan) : list string :=
  let some f := existsb (fun p => (rp_key p <>s "") && f (rp_key p)) (pl_packs rp) in
  (if some needs_hard then ["hard"] else []) ++ (if some (starts_with "B10x_") then ["b10x"] else []) ++
  (if some needs_mid then ["mid"] else []) ++ (if some needs_dense then ["dense"] else []).

Section Page.
Variable e : penv.

(** [loadLayer]: nothing is loaded without a URL in the manifest. *)
Definition loadLayer (name : string) (p : page) : page :=
  let url := layerUrl (pwin p) name in
  if url =s "" then p else
  let src := withProductVer (pwin p) url in
  p |> setHealth e ("layer_" +:+ name) [("load", VStr "loading"); ("src", VStr src)] |> emit (LScript src).
Definition layer_done (name : string) (ok : bool) (p : page) : page :=
  setHealth e ("layer_" +:+ name) [("load", VStr (if ok then "ok" else "fail"))] p.

(** ** The DAG gate *)

(** Two features of an engine are needed; the scores keep the order of the
    literal. *)
Definition dag_scores : option (list (string * Z)) :=
  let c := dv_caps (p_dev e) in
  let b2z (b : bool) : Z := if b then 1 else 0 in
  match css_moz c with
  | None => None
  | Some css =>
    Some [("gecko", b2z (moz_inner_screen c) + b2z css);
          ("blink", b2z (chrome_runtime c) + b2z (user_agent_data c));
          ("webkit", b2z (dv_css_matrix (p_dev e)) + b2z (dv_webkit_raf (p_dev e)) + b2z (webkit_audio_ctx c))]
  end.

Definition score_of (k : string) (l : list (string * Z)) : Z :=
  match List.find (fun '(k', _) => k =s k') l with Some (_, n) => n | None => 0 end.

Definition dagEngineDecision : string * string :=
  (match dag_scores with
   | None => "unknown"
   | Some l => fold_left (fun c '(k, n) => if (2 <=? n) && (score_of c l <? n) then k else c) l "unknown"
   end, dv_ua (p_dev e)).

Definition dagEngineFromMatrix : option string :=
  if dv_matrix (p_dev e) then
    let g := detectEngine (dv_caps (p_dev e)) in
    if (g =s "") || (g =s "unknown") then None else Some g
  else None.

Definition dagEngineAllows (d : val) (engine : string) : bool :=
  match prop d "engine_profiles" with
  | VArr l => (engine =s "unknown") || existsb (fun v => is_str v engine) l
  | _ => true
  end.

Definition dagRecordSkip (id reason : string) (p : page) : page :=
  p |> on_dag (fun d => set_skipped (set_prop id (VStr reason) (d_skipped d)) d)
    |> setHealth e id [("dag_skip", VStr reason)]
    |> ops "pack_dag_skip" "dag_v2" [("pack", VStr id); ("reason", VStr reason)] "info".

(** [Number(v) || 0] and [Math.round] *)
Definition num_or0 (n : num) : num := match n with NaN => num_Z 0 | _ => n end.
Definition js_round (n : num) : num := match n with Fin q => Fin (num_round q) | _ => n end.
Definition times_5_4 (n : num) : num := match n with Fin q => Fin (Qmult q (5 # 4)) | _ => n end.

Definition demote (k : lpack) : lpack :=
  if p_priority k =? 0 then k else PackClass.set_priority (Z.max 1 ((p_priority k + 1) / 2)) k.

Definition on_pack (f : lpack -> lpack) (r : runnable) : runnable :=
  mkRn (f (rn_pack r)) (rn_pid r) (rn_base r) (rn_source r) (rn_force r).

(** One pack of the gate; [None] drops it. *)
Definition gate_one (engine : string) (r : runnable) (p : page) : page * option runnable :=
  let id := any_id (rn_pack r) in
  match dagV2For (rn_pack r) with
  | None => (p, Some r)
  | Some d =>
    if negb (dagEngineAllows d engine) then (dagRecordSkip id ("engine_profile_excluded:" +:+ engine) p, None) else
    if is_str (prop d "gate") "research" || is_str (prop d "dual_kpi_gate") "research"
    then (dagRecordSkip id "gate_research_hold" p, None) else
    if negb (truthy (prop d "deadline_ms")) then (p, Some r) else
    let base := num_or0 (to_num (prop d "deadline_ms")) in
    let eff := if (engine =s "gecko") || (engine =s "webkit") then js_round (times_5_4 base) else base in
    let at0 := d_plan_at (dagState (snd p)) in
    let elapsed := p_now e - at0 in
    let p := on_dag (fun s => set_deadlines (set_prop id
               (VObj [("deadline_ms", VNum eff); ("planned_at", vint at0); ("elapsed_ms", vint elapsed);
                      ("cost_class", jor (prop d "cost_class") (VStr "light"))]) (d_deadlines s)) s) p in
    if num_ltb (num_Z 0) eff && num_ltb eff (num_Z elapsed)
    then (dagRecordSkip id ("deadline_exceeded_degrade:" +:+ to_string (VNum eff)) p, Some (on_pack demote r))
    else (p, Some r)
  end.

Fixpoint gate_all (engine : string) (l : list runnable) (p : page) : page * list runnable :=
  match l with
  | [] => (p, [])
  | r :: l' =>
    let '(p, o) := gate_one engine r p in
    let '(p, out) := gate_all engine l' p in
    (p, match o with Some r => r :: out | None => out end)
  end.

Definition has_dag (r : runnable) : bool := match dagV2For (rn_pack r) with Some _ => true | None => false end.

Definition dagApplyGate (l : list runnable) (rp : plan) (p : page) : page * list runnable :=
  if negb ((2 <=? pl_dag rp) || existsb has_dag l) then (p, l) else
  let engine := match dagEngineFromMatrix with Some g => g | None => fst dagEngineDecision end in
  let p := on_dag (fun d => d |> set_version (Z.max (d_version d) (pl_dag rp)) |> set_engine engine
                              |> set_ua (snd dagEngineDecision) |> set_consumed true
                              |> set_plan_at (if d_plan_at d =? 0 then p_now e else d_plan_at d)) p in
  let '(p, out) := gate_all engine l p in
  (publishDagSnapshot e p, out).

Definition dagSnapshot (p : page) : page * val :=
  let p := publishDagSnapshot e p in (p, jor (gget "__GR_DAG_V2_CONSUMED__" (pwin p)) empty_obj).

Definition dagUploadStamp (p : page) : page * val :=
  let '(p, s) := dagSnapshot p in
  let n := match prop s "skipped" with VObj o => Z.of_nat (length o) | _ => 0 end in
  (p, VObj [("dag_v2_version", jor (prop s "version") (vint 0)); ("dag_v2_engine", jor (prop s "engine") (VStr "unknown"));
            ("dag_v2_skipped_n", vint n); ("dag_v2_consumed", VBool (truthy (prop s "consumed")))]).

Definition resetDag (p : page) : page :=
  on_dag (fun d => d |> set_version 0 |> set_skipped [] |> set_wait [] |> set_deadlines []
                     |> set_plan_at (p_now e) |> set_consumed false) p.
End Page.

(** ** Applying a plan *)

(** What the promise of [applyRoutePlan] resolves with. *)
Record applied := mkApplied {
  ap_kicked : list string;
  ap_skipped : list string;
  ap_stop : bool;
  ap_version : Z;
  ap_force : list string;
  ap_halted : bool
}.

(** The three early returns, or the layers to load before the rest. *)
Inductive start := Ended (a : applied) | Loads (layers : list string).

(** The argument of [alreadySent] and [clearSentKeys]. *)
Definition sent_item (sid bid src : string) : item :=
  mkItem 0 sid bid src 0 false false false false false false None "" VUndef "" false 0 0 0 0 VUndef VUndef 0 "" false.

Definition page_session (sid : string) (p : page) : string :=
  sor sid (to_string_or_empty (gget "__GR_SESSION_ID__" (pwin p))).

Definition applyRoutePlan (qe : env) (rp : option plan) (sid : string) (p : page) : page * start :=
  let version := match rp with Some r => pl_version r | None => 0 end in
  if probeHalted p then (p, Ended (mkApplied [] [] true version [] true)) else
  match rp with
  | None => (p, Ended (mkApplied [] [] true 0 [] false))
  | Some r =>
    if pl_stop r && match pl_packs r with [] => true | _ => false end then
      (p |> set_var "__GR_STOP_PROBE__" (VBool true)
         |> on_q (halt_ qe "stop_probe" (page_session sid p) "stop_probe"),
       Ended (mkApplied [] [] true version [] false))
    else (p, Loads (ensureCollectorsForPlan r))
  end.

(** The loop over the entries before the packs are made: forced entries whose
    recollection the queue grants, and entries whose batch is not uploaded. *)
Record forcing := mkForcing { f_soft : strset; f_map : list string; f_clear : list key_or_item }.

Definition add_key (k : string) (l : list string) : list string := if mem_str k l then l else l ++ [k].

Definition force_entry (sid : string) (s : page * forcing) (p : rpack) : page * forcing :=
  let '(pg, f) := s in
  let id := rp_key p in
  let bid := rp_bid p in
  let src := rp_src p in
  if id =s "" then s else
  let it := sent_item sid bid src in
  if rp_force p then
    let '(q, allow) := if (sid <>s "") && alreadySent it (fst pg) then allowForceRecollect bid (fst pg)
                       else (fst pg, true) in
    let pg := (q, snd pg) in
    if negb allow then (pg, f) else
    (unkick [id; bid] pg,
     mkForcing (f_soft f ∖ {[id; bid]}) (add_key bid (add_key id (f_map f))) (f_clear f ++ [AnItem it]))
  else if (sid <>s "") && negb (alreadySent it (fst pg)) then
    (pg, mkForcing (f_soft f ∖ {[id; bid]}) (f_map f) (f_clear f))
  else s.

(** The calls of [kickAll] a plan makes, one after the other. *)
Definition rn_id (r : runnable) : string := p_id (rn_pack r).
Definition key_of (r : runnable) : string := sor (rn_id r) (rn_pid r).

Definition stages (groups : list (list string)) (l : list runnable) : list (list runnable) :=
  match groups with
  | _ :: _ :: _ =>
    let listed id := existsb (mem_str id) groups in
    map (fun g => List.filter (fun r => mem_str (key_of r) g) l) groups ++
    [List.filter (fun r => negb (listed (rn_id r)) && negb (listed (rn_pid r))) l]
  | _ => [l]
  end.

(** An application under way: the calls still to make and the wave of the last
    one, whose promise the next one waits for. *)
Record going := mkGoing {
  go_todo : list (list runnable);
  go_wave : option nat;
  go_all : list runnable;
  go_plan : plan;
  go_sid : string;
  go_src : string;
  go_skipped : list string;
  go_force : list string
}.

Definition go_next (todo : list (list runnable)) (w : option nat) (g : going) : going :=
  mkGoing todo w (go_all g) (go_plan g) (go_sid g) (go_src g) (go_skipped g) (go_force g).

Section Apply.
Variable e : penv.

Definition last_kick (g : going) (p : page) : page :=
  set_var "__GR_LAST_DYNAMIC_KICK__"
    (VObj [("at", vint (p_now e)); ("packs", strs (map rn_id (go_all g))); ("plan_version", vint (pl_version (go_plan g)));
           ("force_recollect", strs (go_force g)); ("parallel_groups", VArr (map strs (pl_groups (go_plan g))))]) p.

(** Calls until one is waited for; without packs, or when the page has halted,
    a call is over at once. *)
Fixpoint go_on (todo : list (list runnable)) (g : going) (p : page) : page * going :=
  match todo with
  | [] => (last_kick g p, go_next [] None g)
  | [] :: todo' => go_on todo' g p
  | l :: todo' =>
    let '(p, w) := kickAll e (map rn_pack l) (go_sid g) (go_src g) kopts0 p in
    match w with
    | None => go_on todo' g p
    | Some wi => (p, go_next todo' (Some wi) g)
    end
  end.

(** The promise of the wave has resolved. *)
Definition wave_over (wi : nat) (p : page) : bool :=
  match waves (snd p) !! wi with
  | Some w => match w_resolved w with Some _ => true | None => false end
  | None => false
  end.

Definition go_turn (s : page * going) : page * going :=
  let '(p, g) := s in
  match go_wave g with
  | Some wi => if wave_over wi p then go_on (go_todo g) g p else s
  | None => s
  end.

Definition is_runnable (id : string) (l : list runnable) : bool :=
  existsb (fun r => (rn_id r =s id) || (rn_pid r =s id)) l.

Definition applyRoutePlanAfterRandom (cs : option collectors) (rp : plan) (sid src : string) (p : page) :
    page * (applied + going) :=
  match cs with
  | None => (p, inl (mkApplied [] [] (pl_stop rp) (pl_version rp) [] false))
  | Some cs =>
    let sid0 := page_session sid p in
    let '(p, f) := fold_left (force_entry sid0) (pl_packs rp) (p, mkForcing (kicked (snd p)) [] []) in
    let p := match f_clear f with [] => p | l => on_q (clearSentKeys l) p end in
    let '(p, l) := dagApplyGate e (packsFromRoutePlan cs rp (f_soft f)) rp p in
    let skipped := List.filter (fun id => nonnull (assoc id (d_skipped (dagState (snd p)))) ||
                                          bool_decide (id ∈ f_soft f) || negb (is_runnable id l))
                     (map rp_key (pl_packs rp)) in
    match l with
    | [] => (p, inl (mkApplied [] skipped (pl_stop rp) (pl_version rp) (f_map f) false))
    | _ =>
      let p := if truthy (pl_sandbox rp) then set_var "__GR_SANDBOX_PLAN__" (pl_sandbox rp) p else p in
      let todo := stages (pl_groups rp) l in
      let '(p, g) := go_on todo (mkGoing todo None l rp sid src skipped (f_map f)) p in
      (p, inr g)
    end
  end.
End Apply.

(** What the promise of an application that has made all its calls resolves
    with. *)
Definition result_of (g : going) : option applied :=
  match go_wave g with
  | Some _ => None
  | None => Some (mkApplied (map rn_id (go_all g)) (go_skipped g) (pl_stop (go_plan g)) (pl_version (go_plan g))
                    (go_force g) false)
  end.

(** An application between the events of the page. *)
Inductive move := Ev (e : penv) (ev : event) | Turn (e : penv).

Definition gstep (s : page * going) (m : move) : page * going :=
  match m with
  | Ev e ev => (handle e ev (fst s), snd s)
  | Turn e => go_turn e s
  end.
Definition grun (ms : list move) (s : page * going) : page * going := fold_left gstep ms s.
