(* ===== verification/PackPlanSpec.v ===== *)
(** * What a route plan does

    The gate of the DAG sees nothing on plan packs; the calls of a plan cover
    its packs when its groups name them by the collector's own key, and lose the
    others; a plan whose first group waits for the primary curves never reaches
    the group that holds them. *)

From Stdlib Require Import Permutation.
From S2P Require Import Prelude JsVal Window MethodMatrix Lifecycle Registry QueueState Freeze QueuePump QueueApi PackClass PackBus PackUrl PackPump PackWave PackSpec PackProps PackPlan.
#[local] Open Scope Z_scope.

(** ** The gate of the DAG *)

Lemma entry_no_dag cs already p r : take_entry cs already p = Some r -> p_dag (rn_pack r) = VUndef.
Proof. unfold take_entry. intros H. repeat case_match; simplify_eq. done. Qed.

Lemma plan_no_dag cs rp already r : In r (packsFromRoutePlan cs rp already) -> p_dag (rn_pack r) = VUndef.
Proof.
  intros (p&_&Hp)%list_elem_of_In%list_elem_of_omap. by eapply entry_no_dag.
Qed.

Lemma gate_all_inert e engine l p :
  (forall r, In r l -> p_dag (rn_pack r) = VUndef) -> gate_all e engine l p = (p, l).
Proof.
  revert p. induction l as [|r l IH]; intros p H; [done|]. cbn [gate_all]. unfold gate_one, dagV2For.
  rewrite (H r) by (by left). cbn. rewrite IH; [done|]. intros x Hx. apply H. by right.
Qed.

(** The gate of the DAG is inert: [packsFromRoutePlan] builds the packs without the
    [dag_v2] of their entries, so whatever engine profiles, research holds, deadlines and
    dependencies the plan declares, the gate lets every pack through, records no skip and
    no deadline, and no pump ever waits for a dependency of a plan pack. *)
Theorem dag_gate_inert (e : penv) (cs : collectors) (rp : plan) (already : strset) (p : page) :
  let l := packsFromRoutePlan cs rp already in
  snd (dagApplyGate e l rp p) = l /\
  d_skipped (dagState (snd (fst (dagApplyGate e l rp p)))) = d_skipped (dagState (snd p)) /\
  d_deadlines (dagState (snd (fst (dagApplyGate e l rp p)))) = d_deadlines (dagState (snd p)) /\
  forall r packs next p', In r l -> unmet_dep (rn_pack r) packs next p' = None.
Proof.
  intros l. assert (forall r, In r l -> p_dag (rn_pack r) = VUndef) as HD by apply plan_no_dag.
  unfold dagApplyGate. split_and!.
  1-3: destruct (negb _); [done|]; by rewrite (gate_all_inert _ _ _ _ HD).
  intros r packs next p' Hr. unfold unmet_dep. destruct (p_tried _); [done|].
  unfold depends_on, dagV2For. by rewrite (HD r Hr).
Qed.

(** ** The calls of a plan *)

Lemma filter_partition {A} (f : A -> bool) (l : list A) :
  Permutation (List.filter f l ++ List.filter (fun x => negb (f x)) l) l.
Proof.
  induction l as [|x l IH]; [done|]. simpl. destruct (f x); simpl; [by constructor|].
  rewrite <- Permutation_middle. by constructor.
Qed.

Lemma eq_Permutation {A} (l l' : list A) : l = l' -> Permutation l l'.
Proof. by intros ->. Qed.

Lemma listed_in id groups : existsb (mem_str id) groups = true <-> In id (concat groups).
Proof.
  rewrite existsb_exists, in_concat. split; intros (g&Hg&Hi); exists g; (split; [done|]); by apply mem_str_In.
Qed.

Lemma groups_split (groups : list (list string)) (l : list runnable) :
  NoDup (concat groups) ->
  Permutation (concat (map (fun g => List.filter (fun r => mem_str (key_of r) g) l) groups))
              (List.filter (fun r => existsb (mem_str (key_of r)) groups) l).
Proof.
  induction groups as [|g groups IH]; intros HN.
  { simpl. by induction l. }
  cbn [concat map] in *. apply NoDup_app in HN as (HN1&HD&HN2). rewrite IH by done.
  set (f := fun r => existsb (mem_str (key_of r)) (g :: groups)).
  etrans; [|apply (filter_partition (fun r => mem_str (key_of r) g) (List.filter f l))].
  assert (forall h, List.filter h (List.filter f l) = List.filter (fun r => f r && h r) l) as HF
    by (intros h; symmetry; apply (filter_filter f h)).
  rewrite !HF. apply Permutation_app; apply eq_Permutation, List.filter_ext_in; intros r _; unfold f; cbn [existsb].
  - by destruct (mem_str (key_of r) g); [|rewrite andb_false_r].
  - destruct (mem_str (key_of r) g) eqn:E; simpl; [|by rewrite andb_true_r].
    apply not_true_is_false. intros H%listed_in. apply mem_str_In in E.
    apply (HD (key_of r)); by apply list_elem_of_In.
Qed.

(** A plan runs what it says it kicked: when its groups name the packs by the keys
    of their collectors, each at most once, the calls of [kickAll] it makes are its packs,
    each in exactly one of the calls. *)
Theorem stages_partition (groups : list (list string)) (l : list runnable) :
  NoDup (concat groups) -> Forall (fun r => rn_id r = rn_pid r /\ rn_id r <> "") l ->
  Permutation (concat (stages groups l)) l.
Proof.
  intros HN HF. unfold stages. destruct groups as [|g1 [|g2 groups]]; [simpl; by rewrite app_nil_r..|].
  set (gs := g1 :: g2 :: groups) in *. rewrite concat_app. cbn [concat]. rewrite app_nil_r, (groups_split gs l HN).
  etrans; [|apply (filter_partition (fun r => existsb (mem_str (key_of r)) gs) l)].
  apply Permutation_app_head, eq_Permutation, List.filter_ext_in. intros r Hr.
  rewrite List.Forall_forall in HF. destruct (HF r Hr) as [He Hne]. unfold key_of, sor in *.
  apply String.eqb_neq in Hne. rewrite <- He, Hne. by rewrite andb_diag.
Qed.

(** *** An application under way *)

Lemma go_on_shape e todo g p :
  let g' := snd (go_on e todo g p) in
  go_all g' = go_all g /\ go_plan g' = go_plan g /\ (exists d, todo = d ++ go_todo g') /\
  (go_wave g' <> None -> (length (go_todo g') < length todo)%nat).
Proof.
  revert p. induction todo as [|l todo IH]; intros p; [cbn; split_and!; [done..|by exists []|done]|].
  assert (forall p, let g' := snd (go_on e todo g p) in
            go_all g' = go_all g /\ go_plan g' = go_plan g /\ (exists d, l :: todo = d ++ go_todo g') /\
            (go_wave g' <> None -> (length (go_todo g') < length (l :: todo))%nat)) as HI.
  { intros p1. destruct (IH p1) as (A&B&(d&Hd)&C). cbv zeta in *. split_and!; [done..| |].
    - exists (l :: d). by rewrite Hd at 1.
    - intros Hw. specialize (C Hw). simpl. lia. }
  cbn [go_on]. destruct l as [|r l]; [apply HI|].
  destruct (kickAll e _ _ _ _ p) as [p1 [wi|]]; [|apply HI].
  cbn. split_and!; [done..|by exists [r :: l]|]. intros _. lia.
Qed.

(** The calls still to make are the last ones of the plan. *)
Definition on_course (g0 : going) (g : going) : Prop :=
  go_all g = go_all g0 /\ go_plan g = go_plan g0 /\
  exists d, stages (pl_groups (go_plan g0)) (go_all g0) = d ++ go_todo g.

Lemma go_on_course e g0 g p : on_course g0 g -> on_course g0 (snd (go_on e (go_todo g) g p)).
Proof.
  intros (H1&H2&(d&Hd)). destruct (go_on_shape e (go_todo g) g p) as (A&B&(d'&Hd')&_). cbv zeta in *.
  split_and!; [congruence..|]. exists (d ++ d'). by rewrite <- app_assoc, <- Hd'.
Qed.

Lemma grun_course ms g0 s : on_course g0 (snd s) -> on_course g0 (snd (grun ms s)).
Proof.
  revert s. induction ms as [|m ms IH]; intros [p g] H; [done|]. apply IH. destruct m as [e ev|e]; [done|].
  cbn [gstep go_turn snd]. destruct (go_wave g); [|done]. destruct (wave_over _ _); [by apply go_on_course|done].
Qed.

(** The page of the first call of a plan, as far as the waves are concerned. *)
Definition alike (p p' : page) : Prop := calm p p' /\ gate p' = gate p.

Lemma alike_queue q p :
  registry q = registry (fst p) -> c_session (cfg q) = c_session (cfg (fst p)) -> win q = win (fst p) ->
  alike p (q, snd p).
Proof. intros H1 H2 H3. split; [done|]. unfold gate, pwin. cbn. by rewrite H1, H2, H3. Qed.

#[export] Instance alike_preorder : PreOrder alike.
Proof. split; [done|]. intros x y z [a1 a2] [b1 b2]. split; [by etrans|congruence]. Qed.

Lemma alike_set k v p :
  k <> "__GR_SESSION_OUTCOME__" -> k <> "__GR_LAST_RESULT__" -> k <> "__GR_CYCLE_PROBE_STATUS__" ->
  alike p (set_var k v p).
Proof. intros. split; [done|]. by apply gate_set. Qed.

Lemma force_alike sid l s : alike (fst s) (fst (fold_left (force_entry sid) l s)).
Proof.
  revert s. induction l as [|x l IH]; intros [p f]; [done|]. cbn [fold_left]. etrans; [|apply IH].
  unfold force_entry. destruct (rp_key x =s ""); [done|]. destruct (rp_force x); [|by case_match].
  assert (forall q allow, (if (sid <>s "") && alreadySent (sent_item sid (rp_bid x) (rp_src x)) (fst p)
            then allowForceRecollect (rp_bid x) (fst p) else (fst p, true)) = (q, allow) -> alike p (q, snd p)) as H.
  { intros q a. unfold allowForceRecollect. repeat case_match; intros [= <- <-]; by apply alike_queue. }
  destruct (if _ && _ then _ else _) as [q a]. specialize (H q a eq_refl). destruct a; cbn [negb fst]; [|done].
  etrans; [exact H|]. done.
Qed.

Lemma clear_alike l p : alike p (on_q (clearSentKeys l) p).
Proof.
  destruct p as [q ld]. unfold on_q, clearSentKeys. cbn [fst snd]. revert q. induction l as [|x l IH]; intros q; [done|].
  cbn [fold_left]. etrans; [|apply IH]. apply alike_queue; unfold clear_one; by repeat case_match.
Qed.

Lemma gate_alike e l rp p :
  (forall r, In r l -> p_dag (rn_pack r) = VUndef) ->
  alike p (fst (dagApplyGate e l rp p)) /\ snd (dagApplyGate e l rp p) = l.
Proof.
  intros HD. unfold dagApplyGate. destruct (negb _); [done|]. rewrite (gate_all_inert _ _ _ _ HD). cbn [fst snd].
  split; [|done]. unfold publishDagSnapshot. etrans; [|by apply alike_set]. done.
Qed.

(** An application that has started has made its calls from a page like the
    one it started on. *)
Lemma started_at e cs rp sid src p p' g :
  applyRoutePlanAfterRandom e cs rp sid src p = (p', inr g) ->
  exists p1 g0, alike p p1 /\ go_plan g0 = rp /\ go_on e (stages (pl_groups rp) (go_all g0)) g0 p1 = (p', g).
Proof.
  unfold applyRoutePlanAfterRandom. destruct cs as [cs|]; [|done].
  pose proof (force_alike (page_session sid p) (pl_packs rp) (p, mkForcing (kicked (snd p)) [] [])) as HA.
  destruct (fold_left _ _ _) as [p1 f]. cbn [fst] in HA. set (p2 := match f_clear f with [] => p1 | _ => _ end).
  assert (alike p p2) as H2 by (subst p2; destruct (f_clear f); [done|]; etrans; [done|apply clear_alike]).
  destruct (gate_alike e (packsFromRoutePlan cs rp (f_soft f)) rp p2) as [H3 _]; [apply plan_no_dag|].
  destruct (dagApplyGate _ _ _ _) as [p3 l]. cbn [fst] in H3. destruct l as [|r l]; [done|].
  set (p4 := if truthy _ then _ else _). assert (alike p p4) as H4.
  { etrans; [exact H2|]. etrans; [exact H3|]. subst p4. by destruct (truthy _); [apply alike_set|]. }
  set (g0 := mkGoing _ None _ _ _ _ _ _). destruct (go_on e _ g0 p4) as [p5 g5] eqn:E. intros [= <- <-].
  exists p4, g0. by split_and!.
Qed.

(** A pack the plan names by an alias is lost: when the plan has groups and they name
    the pack as the plan does, the groups are compared with the key of its collector and
    the packs left over with the plan's name, so that no call of [kickAll] holds it; the
    result of the application lists it as kicked. *)
Theorem alias_pack_lost (e : penv) (cs : option collectors) (rp : plan) (sid src : string) (p p' : page) (g : going)
    (r : runnable) (ms : list move) :
  applyRoutePlanAfterRandom e cs rp sid src p = (p', inr g) -> In r (go_all g) ->
  (2 <= length (pl_groups rp))%nat -> rn_id r <> "" ->
  existsb (mem_str (rn_pid r)) (pl_groups rp) = true -> existsb (mem_str (rn_id r)) (pl_groups rp) = false ->
  let calls := stages (pl_groups rp) (go_all g) in
  let g' := snd (grun ms (p', g)) in
  Forall (fun l => ~ In r l) calls /\ (exists made, calls = made ++ go_todo g') /\
  forall a, result_of g' = Some a -> In (rn_id r) (ap_kicked a).
Proof.
  intros HA Hr HL Hne Hp Hi calls g'. destruct (started_at _ _ _ _ _ _ _ _ HA) as (p1&g0&_&Hg0&HG).
  destruct (go_on_shape e (stages (pl_groups rp) (go_all g0)) g0 p1) as (A&B&C&_). rewrite HG in A, B, C. cbn [snd] in *.
  assert (on_course g0 g) as HC by (split_and!; [done..|by rewrite Hg0]).
  destruct (grun_course ms g0 (p', g) HC) as (D1&D2&D3). fold g' in D1, D2, D3.
  split_and!.
  - unfold calls, stages. destruct (pl_groups rp) as [|g1 [|g2 gs]]; [simpl in HL; lia..|]. set (groups := g1 :: g2 :: gs) in *.
    apply Forall_app. split.
    + apply List.Forall_forall. intros l (gr&<-&Hg)%in_map_iff [_ Hk]%filter_In.
      unfold key_of, sor in Hk. apply String.eqb_neq in Hne. rewrite Hne in Hk.
      apply not_true_iff_false in Hi. apply Hi, existsb_exists. eauto.
    + constructor; [|constructor]. intros [_ Hk]%filter_In. cbv beta in Hk. by rewrite Hp, andb_false_r in Hk.
  - unfold calls. by rewrite A, <- Hg0.
  - unfold result_of. destruct (go_wave g'); [done|]. intros a [= <-]. cbn. rewrite D1, <- A. by apply in_map.
Qed.

(** *** A plan that waits for itself *)

Lemma alike_held p p' k : alike p p' -> held_back p k -> held_back p' k.
Proof.
  intros [_ HG] [H1 H2]. split; [|by rewrite (gate_defer _ _ _ HG)].
  assert (customProbes (snd p') = customProbes (snd p)) as -> by (by injection HG). done.
Qed.

Lemma alike_pok p p' : alike p p' -> pok None p -> pok None p'.
Proof. intros [HC _]. by apply quiet_pok, calm_quiet. Qed.

(** A call that is waited for is stranded, and the application with it. *)
Lemma grun_idle ms wi w p g :
  idle_at wi w p -> w_resolved w = None -> go_wave g = Some wi -> snd (grun ms (p, g)) = g.
Proof.
  intros HI HU Hg. revert p HI. induction ms as [|m ms IH]; intros p HI; [done|].
  cbn [grun fold_left]. change (fold_left gstep ms (gstep (p, g) m)) with (grun ms (gstep (p, g) m)).
  destruct m as [e ev|e]; cbn [gstep fst snd].
  - apply IH. by apply (idle_stays wi w [(e, ev)]).
  - unfold go_turn. rewrite Hg. unfold wave_over. destruct HI as (Hw&HT&HC). rewrite Hw, HU. by apply IH.
Qed.

(** C27: A plan can wait for itself: when the packs of its first group are all held back
    until the primary curves are acknowledged, the application waits for their wave, which
    never resolves, so that no later group is ever kicked, not even the group that holds
    the primary curves, and the promise of the application never resolves. *)
Theorem plan_deadlock (pre : list (penv * event)) (q : queue) (e : penv) (cs : option collectors) (rp : plan)
    (sid src : string) (p' : page) (g : going) (l1 : list runnable) (rest : list (list runnable)) (wi : nat)
    (ms : list move) :
  let p := prun pre (page0 q) in
  applyRoutePlanAfterRandom e cs rp sid src p = (p', inr g) ->
  stages (pl_groups rp) (go_all g) = l1 :: rest -> l1 <> [] ->
  Forall (fun r => held_back p (rn_pack r)) l1 -> go_wave g = Some wi -> go_todo g = rest ->
  go_todo (snd (grun ms (p', g))) = rest /\ result_of (snd (grun ms (p', g))) = None.
Proof.
  intros p HA HS Hne HF Hg Ht. destruct (started_at _ _ _ _ _ _ _ _ HA) as (p1&g0&HL&Hg0&HG).
  destruct (go_on_shape e (stages (pl_groups rp) (go_all g0)) g0 p1) as (A&_). rewrite HG in A. cbn [snd] in A.
  rewrite <- A, HS in HG. destruct l1 as [|r l1]; [done|]. cbn [go_on] in HG.
  destruct (kickAll e (map rn_pack (r :: l1)) (go_sid g0) (go_src g0) kopts0 p1) as [p2 [wi'|]] eqn:HK.
  2: { destruct (go_on_shape e rest g0 p2) as (_&_&_&C). rewrite HG in C. cbn [snd] in C.
       rewrite Hg, Ht in C. specialize (C ltac:(done)). lia. }
  injection HG as <- <-. cbn in Hg. injection Hg as ->.
  assert (pok None p1) as HP by (eapply alike_pok; [exact HL|apply prun_pok, page0_pok]).
  destruct (kick_stranded e (map rn_pack (r :: l1)) (go_sid g0) (go_src g0) kopts0 p1 p2 wi HP) as (w&HI&HU); [done| |done|].
  { apply Forall_map. eapply List.Forall_impl; [|exact HF]. intros x Hx. by eapply alike_held. }
  by rewrite (grun_idle ms wi w p2 (go_next rest (Some wi) g0) HI HU eq_refl).
Qed.

(** ** Witnesses *)

Module Demo.
Import PackProps.Demo.
Definition entry (id : string) : rpack := mkRpack id "" "" "" "" false None None.
Definition col (n : nat) (prio : Z) : coll := mkColl n "" "" "" prio.
Definition table : collectors := [("B10_hw_curves", col 0 90); ("B18_webgpu", col 1 40); ("B0_bootstrap", col 2 80)].
Definition planned (packs : list string) (groups : list (list string)) : plan :=
  mkPlan (map entry packs) 1 false 2 groups VUndef.
Definition begun (rp : plan) : page * (applied + going) :=
  applyRoutePlanAfterRandom (at_ 0) (Some table) rp "s" "main" (page0 q1).
Definition going_of (rp : plan) : going :=
  match snd (begun rp) with inr g => g | inl _ => mkGoing [] None [] rp "" "" [] [] end.

(** The deep pack first, the primary curves in the second group. *)
Definition knot : plan := planned ["B18_webgpu"; "B10_hw_curves"] [["B18_webgpu"]; ["B10_hw_curves"]].
Definition knot_moves : list move := [Ev (at_ 50) (Elsewhere acked_q); Turn (at_ 60); Ev (at_ 120) (PumpTimer 0); Turn (at_ 130)].

Lemma plan_deadlock_witness :
  map (map rn_id) (go_todo (snd (grun knot_moves (fst (begun knot), going_of knot)))) = [["B10_hw_curves"]; []] /\
  result_of (snd (grun knot_moves (fst (begun knot), going_of knot))) = None.
Proof.
  unshelve refine (let H := plan_deadlock [] q1 (at_ 0) (Some table) knot "s" "main" (fst (begun knot)) (going_of knot)
    (hd [] (stages (pl_groups knot) (go_all (going_of knot)))) (tl (stages (pl_groups knot) (go_all (going_of knot)))) 0
    knot_moves _ _ _ _ _ _ in conj (eq_trans (f_equal (map (map rn_id)) (proj1 H)) _) (proj2 H)).
  - vm_compute. reflexivity.
  - vm_compute. reflexivity.
  - vm_compute. discriminate.
  - repeat constructor; vm_compute; reflexivity.
  - vm_compute. reflexivity.
  - vm_compute. reflexivity.
  - vm_compute. reflexivity.
Defined.

(** The primary curves under their plan name. *)
Definition renamed : plan := planned ["mid.curves"; "B0_bootstrap"] [["mid.curves"]; ["B0_bootstrap"]].
Definition curves : runnable := nth 0 (go_all (going_of renamed)) (mkRn (pk "") "" None "" false).

Lemma alias_pack_lost_witness :
  rn_id curves = "B10_hw_curves" /\
  Forall (fun l => ~ In curves l) (stages (pl_groups renamed) (go_all (going_of renamed))).
Proof.
  split; [(vm_compute; reflexivity)|].
  refine (proj1 (alias_pack_lost (at_ 0) (Some table) renamed "s" "main" (page0 q1) (fst (begun renamed)) (going_of renamed)
    curves [] _ _ _ _ _ _)); try (vm_compute; reflexivity).
  - vm_compute. by left.
  - vm_compute. discriminate.
Defined.

Definition in_order : list runnable := go_all (going_of (planned ["B0_bootstrap"; "B10_hw_curves"; "B18_webgpu"] [])).

Lemma stages_partition_witness :
  Permutation (concat (stages [["B10_hw_curves"]; ["B18_webgpu"]] in_order)) in_order.
Proof.
  refine (stages_partition [["B10_hw_curves"]; ["B18_webgpu"]] in_order _ _).
  - repeat constructor; set_solver.
  - vm_compute. repeat constructor; discriminate.
Defined.
End Demo.
