(* ===== verification/GlGovernor.v ===== *)
(** * The governor of WebGL contexts ([probe/fe/gr.gl_governor.js])

    The patched [getContext] shares one context per type among the detached
    canvases and tracks at most [MAX_LIVE] contexts.  The contexts themselves,
    in the order they are created, are [heap], with whether they are lost; what
    the browser answers to a call of the native [getContext] is data of the
    operation.  Canvas sizes and buffer bindings are left out. *)

From S2P Require Import Prelude JsVal.
#[local] Open Scope Z_scope.

(** ** State *)

(** A context of the browser: lost or not, and whether it has the extension
    [WEBGL_lose_context]. *)
Record glctx := mkGl { x_lost : bool; x_losable : bool }.

(** [{ gl, canvas }]; contexts and canvases are numbers. *)
Record slot := mkSlot { s_gl : nat; s_canvas : option nat; s_at : Z }.

Record stats := mkStats {
  creates : Z;
  reused : Z;
  forced_lose : Z;
  soft_release : Z;
  shared_hits : Z;
  lose_noop : Z
}.

Record gov := mkGov {
  MAX_LIVE : Z;
  live : list slot;
  pool : list (string * slot);
  gstats : stats;
  allowHardLose : bool;
  lastCreateAt : Z;
  probe_gl : list (option nat * option nat);
  last_gl : option nat;
  hard_lose_meta : option (Z * string * Z);
  heap : list glctx
}.

Definition stats0 : stats := mkStats 0 0 0 0 0 0.
Definition gov0 : gov := mkGov 2 [] [] stats0 false 0 [] None None [].

Definition eta_stats (s : stats) : stats :=
  mkStats (creates s) (reused s) (forced_lose s) (soft_release s) (shared_hits s) (lose_noop s).
Definition set_creates v (s : stats) : stats := ltac:(upd eta_stats creates s v).
Definition set_reused v (s : stats) : stats := ltac:(upd eta_stats reused s v).
Definition set_forced v (s : stats) : stats := ltac:(upd eta_stats forced_lose s v).
Definition set_soft v (s : stats) : stats := ltac:(upd eta_stats soft_release s v).
Definition set_hits v (s : stats) : stats := ltac:(upd eta_stats shared_hits s v).
Definition set_noop v (s : stats) : stats := ltac:(upd eta_stats lose_noop s v).

Definition eta_gov (g : gov) : gov :=
  mkGov (MAX_LIVE g) (live g) (pool g) (gstats g) (allowHardLose g) (lastCreateAt g) (probe_gl g) (last_gl g)
    (hard_lose_meta g) (heap g).
Definition set_max v (g : gov) : gov := ltac:(upd eta_gov MAX_LIVE g v).
Definition set_live v (g : gov) : gov := ltac:(upd eta_gov live g v).
Definition set_pool v (g : gov) : gov := ltac:(upd eta_gov pool g v).
Definition set_stats v (g : gov) : gov := ltac:(upd eta_gov gstats g v).
Definition set_allow v (g : gov) : gov := ltac:(upd eta_gov allowHardLose g v).
Definition set_created v (g : gov) : gov := ltac:(upd eta_gov lastCreateAt g v).
Definition set_probe v (g : gov) : gov := ltac:(upd eta_gov probe_gl g v).
Definition set_last v (g : gov) : gov := ltac:(upd eta_gov last_gl g v).
Definition set_meta v (g : gov) : gov := ltac:(upd eta_gov hard_lose_meta g v).
Definition set_heap v (g : gov) : gov := ltac:(upd eta_gov heap g v).

(** [stats.x++] *)
Definition bump (get : stats -> Z) (set : Z -> stats -> stats) (g : gov) : gov :=
  set_stats (set (get (gstats g) + 1) (gstats g)) g.

(** [gl.isContextLost()] *)
Definition lost (gl : nat) (g : gov) : bool :=
  match heap g !! gl with Some x => x_lost x | None => false end.

(** The browser loses a context; [loseContext] where there is the extension. *)
Definition drop_ctx (x : glctx) : glctx := mkGl true (x_losable x).
Definition lose_ctx (x : glctx) : glctx := if x_losable x then drop_ctx x else x.

(** ** Types *)

Definition isWebGlType (type : string) : bool :=
  mem_str (lower type) ["webgl"; "webgl2"; "experimental-webgl"; "experimental-webgl2"].
Definition poolKey (type : string) : string := if contains "webgl2" (lower type) then "webgl2" else "webgl".

(** ** Releasing *)

Definition softClearOne (gl : option nat) (g : gov) : gov :=
  match gl with Some _ => bump soft_release set_soft g | None => g end.

(** Without permission a soft clear; a lost context is skipped; a context
    without the extension stays, although it is counted. *)
Definition hardLoseOne (gl : option nat) (g : gov) : gov :=
  if negb (allowHardLose g) then g |> softClearOne gl |> bump lose_noop set_noop else
  match gl with
  | Some x => if lost x g then bump lose_noop set_noop g
              else g |> set_heap (alter lose_ctx x (heap g)) |> bump forced_lose set_forced
  | None => bump forced_lose set_forced g
  end.

Definition lose_all (l : list (option nat)) (g : gov) : gov := fold_left (fun g x => hardLoseOne x g) l g.
Definition clear_all (l : list (option nat)) (g : gov) : gov := fold_left (fun g x => softClearOne x g) l g.

Definition gls (l : list slot) : list (option nat) := map (fun s => Some (s_gl s)) l.

Definition pruneDead (g : gov) : gov :=
  g |> set_live (List.filter (fun s => negb (lost (s_gl s) g)) (live g))
    |> set_pool (List.filter (fun '(_, s) => negb (lost (s_gl s) g)) (pool g)).

(** The lists older scripts keep. *)
Definition drainLegacyLists (hard : bool) (g : gov) : gov :=
  let l := map fst (probe_gl g) in
  let g := set_probe [] g in
  if hard then g |> lose_all l |> set_last None else clear_all l g.

Definition softReleaseAll (g : gov) : gov :=
  let g := pruneDead g in g |> clear_all (gls (live g)) |> drainLegacyLists false.

Definition hardReleaseAll (g : gov) : gov :=
  let g := pruneDead g in
  let g := g |> set_live [] |> lose_all (gls (live g)) in
  let g := g |> set_pool [] |> lose_all (gls (map snd (pool g))) in
  g |> drainLegacyLists true |> set_probe [] |> set_last None.

(** [while (live.length > n) hardLoseOne(live.shift())] *)
Definition shift_to (n : Z) (g : gov) : gov :=
  let k := (length (live g) - Z.to_nat n)%nat in
  g |> set_live (skipn k (live g)) |> lose_all (gls (firstn k (live g))).

Definition forceCap (g : gov) : gov := let g := pruneDead g in g |> shift_to (MAX_LIVE g) |> pruneDead.

Definition tracked (gl : nat) (g : gov) : bool := existsb (fun s => Nat.eqb (s_gl s) gl) (live g).

Definition track (now : Z) (gl : nat) (canvas : option nat) (g : gov) : gov :=
  let g := pruneDead g in
  if tracked gl g then bump reused set_reused g else
  let g := shift_to (MAX_LIVE g - 1) g in
  g |> set_live (live g ++ [mkSlot gl canvas now]) |> set_last (Some gl) |> set_probe [(Some gl, canvas)].

(** ** The patched [getContext] *)

(** What the native call answers: nothing, the context the canvas has, or a new
    one. *)
Inductive native := Nothing | Existing (gl : nat) | Fresh (losable : bool).

Definition new_ctx (losable : bool) (g : gov) : gov * nat :=
  (set_heap (heap g ++ [mkGl false losable]) g, length (heap g)).

Definition answer (n : native) (g : gov) : gov * option nat :=
  match n with
  | Nothing => (g, None)
  | Existing gl => (g, Some gl)
  | Fresh l => let '(g, gl) := new_ctx l g in (g, Some gl)
  end.

Fixpoint find_pool (k : string) (l : list (string * slot)) : option slot :=
  match l with
  | [] => None
  | (k', s) :: l' => if k =s k' then Some s else find_pool k l'
  end.
Definition put_pool (k : string) (s : slot) (l : list (string * slot)) : list (string * slot) :=
  List.filter (fun '(k', _) => k <>s k') l ++ [(k, s)].

(** A new canvas can only answer with a new context; [r2] answers the call with
    [experimental-webgl]. *)
Definition create_shared (now : Z) (key : string) (canvas : nat) (r1 r2 : option bool) (g : gov) : gov * option nat :=
  let g := forceCap g in
  match (match r1 with Some l => Some l | None => if key =s "webgl" then r2 else None end) with
  | None => (g, None)
  | Some l =>
    let '(g, gl) := new_ctx l g in
    (g |> bump creates set_creates |> set_created now |> set_pool (put_pool key (mkSlot gl (Some canvas) 0) (pool g))
       |> track now gl (Some canvas), Some gl)
  end.

Definition getShared (now : Z) (type : string) (canvas : nat) (r1 r2 : option bool) (g : gov) : gov * option nat :=
  let key := poolKey type in
  match find_pool key (pool g) with
  | Some s =>
    if lost (s_gl s) g then create_shared now key canvas r1 r2 g else
    (g |> bump reused set_reused |> bump shared_hits set_hits |> track now (s_gl s) (s_canvas s), Some (s_gl s))
  | None => create_shared now key canvas r1 r2 g
  end.

(** A canvas in the document. *)
Definition getInDom (now : Z) (canvas : nat) (r : native) (g : gov) : gov * option nat :=
  let g := forceCap g in
  let '(g, o) := answer r g in
  match o with
  | None => (g, None)
  | Some gl =>
    let g := g |> bump creates set_creates |> set_created now |> track now gl (Some canvas) in
    let k := (length (live g) - Z.to_nat (MAX_LIVE g))%nat in
    (g |> set_live (skipn k (live g))
       |> lose_all (gls (List.filter (fun s => negb (Nat.eqb (s_gl s) gl)) (firstn k (live g)))), Some gl)
  end.

(** ** The interface *)

Definition setMaxLive (n : Z) (g : gov) : gov := forceCap (set_max (Z.max 1 (Z.min 2 (to_int32 n))) g).

Definition pathCap (weak : bool) (g : gov) : gov * Z :=
  let g := pruneDead g in
  let g := if MAX_LIVE g <=? Z.of_nat (length (live g)) then pruneDead (softReleaseAll g) else g in
  (g, if weak then 2 else 4).

Definition liveCount (g : gov) : gov * nat := let g := pruneDead g in (g, length (live g)).

(** Pagehide and beforeunload. *)
Definition hardOnLeave (g : gov) : gov := g |> set_allow true |> hardReleaseAll |> set_allow false.

Definition forceHardLoseForRetry (now : Z) (why : string) (g : gov) : gov :=
  let prev := allowHardLose g in
  let g := g |> set_allow true |> hardReleaseAll in
  let g := g |> set_pool [] |> lose_all (gls (map snd (pool g))) in
  g |> set_meta (Some (now, if why =s "" then "retry" else why, forced_lose (gstats g))) |> set_allow prev.

(** The wrapped [loseContext] of a collector's own extension object; its
    [__gr_gl_ref] is never set. *)
Definition loseContext (gl : nat) (g : gov) : gov :=
  if negb (allowHardLose g) then bump lose_noop set_noop g else set_heap (alter lose_ctx gl (heap g)) g.

(** [getContext] on a detached canvas; [native] is what the browser answers to a
    type the governor leaves alone. *)
Definition getDetached (now : Z) (type : string) (canvas : nat) (r : option bool * option bool) (native : option nat)
    (g : gov) : gov * option nat :=
  if isWebGlType type then getShared now type canvas (fst r) (snd r) g else (g, native).

(** The helper of the collectors, on a new canvas: the type asked for, then
    [webgl], then its old name; [r] answers each of the three calls. *)
Definition acquire (now : Z) (type : string) (canvas : nat) (r : nat -> option bool * option bool) (native : option nat)
    (g : gov) : gov * option nat :=
  let '(g, o) := getDetached now (if type =s "" then "webgl" else type) canvas (r 0%nat) native g in
  match o with
  | Some _ => (g, o)
  | None =>
    let '(g, o) := getDetached now "webgl" canvas (r 1%nat) None g in
    match o with Some _ => (g, o) | None => getDetached now "experimental-webgl" canvas (r 2%nat) None g end
  end.

(** ** Events *)

Inductive event :=
| Detached (now : Z) (type : string) (canvas : nat) (r1 r2 : option bool)
| Acquire (now : Z) (type : string) (canvas : nat) (r : nat -> option bool * option bool) (native : option nat)
| InDom (now : Z) (canvas : nat) (r : native)
| ReleaseSoft
| ReleaseHard
| ForceCap
| SetMax (n : Z)
| PathCap (weak : bool)
| LiveCount
| LoseExt (gl : nat)
| Legacy (gl : option nat) (canvas : option nat)
| Leave
| Retry (now : Z) (why : string)
| BrowserLoses (gl : nat).

Definition handle (ev : event) (g : gov) : gov :=
  match ev with
  | Detached now type c r1 r2 => fst (getDetached now type c (r1, r2) None g)
  | Acquire now type c r native => fst (acquire now type c r native g)
  | InDom now c r => fst (getInDom now c r g)
  | ReleaseSoft => softReleaseAll g
  | ReleaseHard => hardReleaseAll g
  | ForceCap => forceCap g
  | SetMax n => setMaxLive n g
  | PathCap weak => fst (pathCap weak g)
  | LiveCount => fst (liveCount g)
  | LoseExt gl => loseContext gl g
  | Legacy gl c => set_probe (probe_gl g ++ [(gl, c)]) g
  | Leave => hardOnLeave g
  | Retry now why => forceHardLoseForRetry now why g
  | BrowserLoses gl => set_heap (alter drop_ctx gl (heap g)) g
  end.

Definition grun (evs : list event) (g : gov) : gov := fold_left (fun g ev => handle ev g) evs g.

(** ** Lemmas *)

(** A relation the shared contexts keep is kept by [acquire]. *)
Lemma detached_keeps (P : gov -> Prop) now type c r native g :
  (forall g r1 r2, P g -> P (fst (getShared now type c r1 r2 g))) -> P g -> P (fst (getDetached now type c r native g)).
Proof. intros HS H. unfold getDetached. destruct (isWebGlType type); [by apply HS|done]. Qed.

Lemma acquire_keeps (P : gov -> Prop) now type c r native g :
  (forall g type r1 r2, P g -> P (fst (getShared now type c r1 r2 g))) -> P g -> P (fst (acquire now type c r native g)).
Proof.
  intros HS H. unfold acquire.
  assert (forall t i n g, P g -> P (fst (getDetached now t c (r i) n g))) as HD.
  { intros t i n g0 H0. apply (detached_keeps P); [|done]. intros. by apply HS. }
  pose proof (HD (if type =s "" then "webgl" else type) 0%nat native g H) as H0.
  destruct (getDetached _ _ _ (r 0%nat) _ _) as [g0 [x|]]; [done|]. cbn [fst] in H0.
  pose proof (HD "webgl" 1%nat None g0 H0) as H1.
  destruct (getDetached _ _ _ (r 1%nat) _ _) as [g1 [x|]]; [done|]. by apply HD.
Qed.

#[local] Arguments lose_all : simpl never.
#[local] Arguments clear_all : simpl never.
#[local] Arguments hardReleaseAll : simpl never.
#[local] Arguments drainLegacyLists : simpl never.
#[local] Arguments shift_to : simpl never.
#[local] Arguments track : simpl never.
#[local] Arguments forceCap : simpl never.

(** What releasing contexts leaves alone. *)
Record frame (g g' : gov) : Prop := Frame {
  fr_max : MAX_LIVE g' = MAX_LIVE g;
  fr_live : live g' = live g;
  fr_pool : pool g' = pool g;
  fr_allow : allowHardLose g' = allowHardLose g;
  fr_probe : probe_gl g' = probe_gl g;
  fr_heap : allowHardLose g = false -> heap g' = heap g
}.

#[export] Instance frame_preorder : PreOrder frame.
Proof.
  split; [by constructor|]. intros x y z [a1 a2 a3 a4 a5 a6] [b1 b2 b3 b4 b5 b6].
  constructor; try congruence. intros H. rewrite b6, a6; congruence.
Qed.

Lemma soft_frame gl g : frame g (softClearOne gl g).
Proof. destruct gl; by constructor. Qed.

Lemma hard_frame gl g : frame g (hardLoseOne gl g).
Proof.
  unfold hardLoseOne. destruct (allowHardLose g) eqn:E; cbn [negb].
  - destruct gl as [x|]; [destruct (lost x g)|]; constructor; try done; intros; congruence.
  - etrans; [apply (soft_frame gl)|]. by constructor.
Qed.

Lemma lose_all_frame l g : frame g (lose_all l g).
Proof. revert g. induction l as [|x l IH]; intros g; [done|]. etrans; [apply hard_frame|apply IH]. Qed.

Lemma clear_all_frame l g : frame g (clear_all l g).
Proof. revert g. induction l as [|x l IH]; intros g; [done|]. etrans; [apply soft_frame|apply IH]. Qed.

Lemma clear_all_heap l g : heap (clear_all l g) = heap g.
Proof. revert g. induction l as [|x l IH]; intros g; [done|]. change (heap (clear_all l (softClearOne x g)) = heap g). rewrite IH. by destruct x. Qed.

(** The contexts a list of releases with permission loses. *)
Lemma lose_all_heap l g x c :
  allowHardLose g = true -> heap g !! x = Some c ->
  heap (lose_all l g) !! x = Some (if bool_decide (Some x ∈ l) then lose_ctx c else c).
Proof.
  assert (forall c, lose_ctx (lose_ctx c) = lose_ctx c) as Hid by (intros [? []]; done).
  revert g c. induction l as [|y l IH]; intros g c Ha Hx; [done|]. change (lose_all (y :: l) g) with (lose_all l (hardLoseOne y g)).
  assert (allowHardLose (hardLoseOne y g) = true) as Ha' by (by rewrite (fr_allow _ _ (hard_frame y g))).
  assert (heap (hardLoseOne y g) !! x = Some (if bool_decide (y = Some x) then lose_ctx c else c)) as HH.
  { unfold hardLoseOne. rewrite Ha. cbn [negb]. destruct y as [y|]; [|by rewrite bool_decide_false].
    unfold lost. destruct (decide (y = x)) as [->|Hne].
    - rewrite bool_decide_true by done. rewrite Hx. destruct (x_lost c) eqn:El.
      + cbn. rewrite Hx. f_equal. destruct c as [lo ls]. cbn in El. subst. unfold lose_ctx, drop_ctx. by destruct ls.
      + cbn. by rewrite list_lookup_alter_eq, Hx.
    - rewrite bool_decide_false by congruence. destruct (match _ with Some _ => _ | None => _ end); [done|].
      cbn. by rewrite list_lookup_alter_ne. }
  rewrite (IH _ _ Ha' HH). f_equal. repeat case_bool_decide; try done; try (by rewrite Hid); set_solver.
Qed.

(** *** The tracked contexts *)

Record gov_ok (g : gov) : Prop := GovOk {
  ok_max : 1 <= MAX_LIVE g <= 2;
  ok_live : Z.of_nat (length (live g)) <= MAX_LIVE g;
  ok_nodup : NoDup (map s_gl (live g));
  ok_allow : allowHardLose g = false
}.

Lemma frame_ok g g' : frame g g' -> gov_ok g -> gov_ok g'.
Proof. intros [a1 a2 a3 a4 a5 a6] [b1 b2 b3 b4]. constructor; rewrite ?a1, ?a2, ?a4; done. Qed.

Lemma set_live_ok l g : sublist l (live g) -> gov_ok g -> gov_ok (set_live l g).
Proof.
  intros HS [b1 b2 b3 b4]. constructor; cbn; try done.
  - apply sublist_length in HS. lia.
  - eapply sublist_NoDup; [exact b3|]. by apply (fmap_sublist s_gl).
Qed.

Lemma filter_sub {A} (f : A -> bool) (l : list A) : sublist (List.filter f l) l.
Proof. induction l as [|x l IH]; [done|]. simpl. destruct (f x); by constructor. Qed.

Lemma skip_sub {A} k (l : list A) : sublist (skipn k l) l.
Proof. apply sublist_drop. Qed.

Lemma prune_ok g : gov_ok g -> gov_ok (pruneDead g).
Proof.
  intros H. destruct (set_live_ok (List.filter (fun s => negb (lost (s_gl s) g)) (live g)) g); [apply filter_sub|done|].
  by constructor.
Qed.

Lemma shift_ok n g : gov_ok g -> gov_ok (shift_to n g).
Proof. intros H. eapply frame_ok; [apply lose_all_frame|]. apply set_live_ok; [apply skip_sub|done]. Qed.

Lemma shift_view n g :
  let g' := shift_to n g in
  MAX_LIVE g' = MAX_LIVE g /\ live g' = skipn (length (live g) - Z.to_nat n) (live g) /\ pool g' = pool g /\
  allowHardLose g' = allowHardLose g /\ (allowHardLose g = false -> heap g' = heap g).
Proof.
  unfold shift_to. cbv zeta. match goal with |- context [lose_all ?l ?g] => destruct (lose_all_frame l g) as [a1 a2 a3 a4 a5 a6] end.
  rewrite a1, a2, a3, a4. by split_and!.
Qed.

Lemma shift_length n g : 0 <= n -> Z.of_nat (length (live (shift_to n g))) <= n.
Proof.
  intros Hn. unfold shift_to. rewrite (fr_live _ _ (lose_all_frame _ _)). cbn. rewrite length_skipn. lia.
Qed.

Lemma drain_view hard g :
  let g' := drainLegacyLists hard g in
  MAX_LIVE g' = MAX_LIVE g /\ live g' = live g /\ pool g' = pool g /\ allowHardLose g' = allowHardLose g /\
  probe_gl g' = [] /\ (allowHardLose g = false -> heap g' = heap g).
Proof.
  cbv zeta. unfold drainLegacyLists. cbv zeta. destruct hard.
  - destruct (lose_all_frame (map fst (probe_gl g)) (set_probe [] g)). by split_and!.
  - destruct (clear_all_frame (map fst (probe_gl g)) (set_probe [] g)). by split_and!.
Qed.

Lemma drain_frame_ok hard g : gov_ok g -> gov_ok (drainLegacyLists hard g).
Proof. destruct (drain_view hard g) as (E1&E2&_&E4&_). intros [b1 b2 b3 b4]. constructor; by rewrite ?E1, ?E2, ?E4. Qed.

Lemma soft_all_ok g : gov_ok g -> gov_ok (softReleaseAll g).
Proof.
  intros H. unfold softReleaseAll. apply drain_frame_ok. eapply frame_ok; [apply clear_all_frame|]. by apply prune_ok.
Qed.

Lemma forceCap_ok g : gov_ok g -> gov_ok (forceCap g).
Proof. intros H. by apply prune_ok, shift_ok, prune_ok. Qed.

Lemma track_ok now gl c g : gov_ok g -> gov_ok (track now gl c g).
Proof.
  intros H. unfold track. apply prune_ok in H. set (g1 := pruneDead g) in *. cbv zeta.
  destruct (tracked gl g1) eqn:Et; [by destruct H; constructor|].
  pose proof (shift_ok (MAX_LIVE g1 - 1) g1 H) as H2.
  pose proof (shift_length (MAX_LIVE g1 - 1) g1 ltac:(destruct H; lia)) as HL.
  set (g2 := shift_to _ g1) in *. destruct (shift_view (MAX_LIVE g1 - 1) g1) as (HM&HV&_). fold g2 in HM, HV. clearbody g2.
  destruct H2 as [b1 b2 b3 b4]. constructor; cbn; try done.
  - rewrite length_app. cbn [length]. lia.
  - rewrite map_app. apply NoDup_app. split_and!; [done| |apply NoDup_singleton].
    intros x Hx ->%list_elem_of_singleton. apply not_true_iff_false in Et. apply Et, existsb_exists.
    apply list_elem_of_In, in_map_iff in Hx as (s&Hs&Hin). exists s. rewrite Hs, Nat.eqb_refl. split; [|done].
    rewrite HV in Hin.
    apply list_elem_of_In. eapply elem_of_submseteq; [by apply list_elem_of_In|]. by apply sublist_submseteq, sublist_drop.
Qed.

Lemma hard_released g : let g' := hardReleaseAll g in
  live g' = [] /\ pool g' = [] /\ probe_gl g' = [] /\ MAX_LIVE g' = MAX_LIVE g /\
  allowHardLose g' = allowHardLose g /\ (allowHardLose g = false -> heap g' = heap g).
Proof.
  unfold hardReleaseAll. cbv zeta.
  assert (frame (set_live [] (pruneDead g)) (lose_all (gls (live (pruneDead g))) (set_live [] (pruneDead g)))) as [a1 a2 a3 a4 _ a6]
    by apply lose_all_frame.
  revert a1 a2 a3 a4 a6. generalize (lose_all (gls (live (pruneDead g))) (set_live [] (pruneDead g))). intros gb a1 a2 a3 a4 a6.
  assert (frame (set_pool [] gb) (lose_all (gls (map snd (pool gb))) (set_pool [] gb))) as [b1 b2 b3 b4 _ b6]
    by apply lose_all_frame.
  revert b1 b2 b3 b4 b6. generalize (lose_all (gls (map snd (pool gb))) (set_pool [] gb)). intros gc b1 b2 b3 b4 b6.
  destruct (drain_view true gc) as (c1&c2&c3&c4&_&c6). revert c1 c2 c3 c4 c6.
  generalize (drainLegacyLists true gc). intros gd c1 c2 c3 c4 c6. cbn in *.
  split_and!; try congruence. intros H. rewrite c6, b6, a6; congruence.
Qed.

Lemma hard_ok g : 1 <= MAX_LIVE g <= 2 -> gov_ok (set_allow false (hardReleaseAll g)).
Proof.
  intros H. destruct (hard_released g) as (H1&_&_&H4&_). constructor; cbn; rewrite ?H1, ?H4; try done; [simpl; lia|constructor].
Qed.

Lemma shared_ok now type c r1 r2 g : gov_ok g -> gov_ok (fst (getShared now type c r1 r2 g)).
Proof.
  intros H. unfold getShared. cbv zeta.
  assert (gov_ok (fst (create_shared now (poolKey type) c r1 r2 g))) as HC.
  { unfold create_shared. pose proof (forceCap_ok g H) as HF. destruct (match r1 with Some _ => _ | None => _ end); [|done].
    cbn [fst new_ctx]. apply track_ok. destruct HF. by constructor. }
  destruct (find_pool _ _) as [s|]; [|done]. destruct (lost _ _); [done|]. cbn [fst]. apply track_ok.
  destruct H. by constructor.
Qed.

Lemma inDom_ok now c r g : gov_ok g -> gov_ok (fst (getInDom now c r g)).
Proof.
  intros H. unfold getInDom. pose proof (forceCap_ok g H) as HF. cbv zeta.
  assert (gov_ok (fst (answer r (forceCap g)))) as HA by (destruct r; [done|done|destruct HF; by constructor]).
  destruct (answer r (forceCap g)) as [g1 o]. cbn [fst] in HA. destruct o as [gl|]; [|done]. cbn [fst].
  eapply frame_ok; [apply lose_all_frame|]. apply set_live_ok; [apply skip_sub|]. apply track_ok.
  destruct HA. by constructor.
Qed.

Lemma max_ok n g : gov_ok g -> gov_ok (setMaxLive n g).
Proof.
  intros [b1 b2 b3 b4]. unfold setMaxLive, forceCap. set (g0 := set_max _ g).
  set (g1 := pruneDead g0). apply prune_ok.
  destruct (shift_view (MAX_LIVE g1) g1) as (E1&E2&_&E4&_).
  assert (1 <= MAX_LIVE g1 <= 2) as HM by (cbn; lia).
  constructor; [by rewrite E1| | |by rewrite E4].
  - rewrite E1. apply shift_length. lia.
  - rewrite E2. eapply sublist_NoDup; [exact b3|]. apply (fmap_sublist s_gl).
    etrans; [apply sublist_drop|]. apply filter_sub.
Qed.

Lemma retry_ok now why g : gov_ok g -> gov_ok (forceHardLoseForRetry now why g).
Proof.
  intros [b1 b2 b3 b4]. unfold forceHardLoseForRetry. cbv zeta.
  destruct (hard_released (set_allow true g)) as (H1&H2&_&H4&H5&_). set (g1 := hardReleaseAll _) in *.
  destruct (lose_all_frame (gls (map snd (pool g1))) (set_pool [] g1)) as [a1 a2 _ _ _ _]. cbn in *.
  constructor; cbn; rewrite ?a1, ?a2, ?H1, ?H4; try done; [simpl; lia|constructor].
Qed.

Lemma handle_ok ev g : gov_ok g -> gov_ok (handle ev g).
Proof.
  intros H. destruct ev; cbn [handle].
  - apply (detached_keeps gov_ok); [|done]. intros. by apply shared_ok.
  - apply (acquire_keeps gov_ok); [|done]. intros. by apply shared_ok.
  - by apply inDom_ok.
  - by apply soft_all_ok.
  - destruct (hard_released g) as (H1&_&_&H4&H5&_). destruct H. constructor; rewrite ?H1, ?H4, ?H5; try done; [simpl; lia|constructor].
  - by apply forceCap_ok.
  - by apply max_ok.
  - unfold pathCap. cbn [fst]. destruct (_ <=? _); [apply prune_ok, soft_all_ok|]; by apply prune_ok.
  - by apply prune_ok.
  - unfold loseContext. destruct (negb _); destruct H; by constructor.
  - destruct H. by constructor.
  - apply (hard_ok (set_allow true g)). by destruct H.
  - by apply retry_ok.
  - destruct H. by constructor.
Qed.

Lemma grun_ok evs : gov_ok (grun evs gov0).
Proof.
  unfold grun. assert (gov_ok gov0) as H by (constructor; try done; constructor).
  generalize dependent gov0. induction evs as [|ev evs IH]; intros g H; [done|]. by apply IH, handle_ok.
Qed.

(** *** What happens to the contexts *)

(** Without permission the contexts stay and new ones are added. *)
Definition grows (g g' : gov) : Prop :=
  allowHardLose g = false ->
  allowHardLose g' = false /\ exists l, heap g' = heap g ++ l /\ Forall (fun x => x_lost x = false) l.

#[export] Instance grows_preorder : PreOrder grows.
Proof.
  split; [intros g H; split; [done|]; exists []; by rewrite app_nil_r|].
  intros x y z HA HB H. destruct (HA H) as (H1&l&E1&F1). destruct (HB H1) as (H2&m&E2&F2). split; [done|].
  exists (l ++ m). by rewrite E2, E1, <- app_assoc, Forall_app.
Qed.

Lemma grows_same g g' : allowHardLose g' = allowHardLose g -> (allowHardLose g = false -> heap g' = heap g) -> grows g g'.
Proof. intros H1 H2 H. split; [congruence|]. exists []. by rewrite app_nil_r, H2. Qed.

Lemma frame_grows g g' : frame g g' -> grows g g'.
Proof. intros []. by apply grows_same. Qed.

Lemma prune_grows g : grows g (pruneDead g).
Proof. by apply grows_same. Qed.

Lemma shift_grows n g : grows g (shift_to n g).
Proof. destruct (shift_view n g) as (_&_&_&H1&H2). by apply grows_same. Qed.

Lemma cap_grows g : grows g (forceCap g).
Proof. unfold forceCap. etrans; [apply prune_grows|]. etrans; [apply shift_grows|apply prune_grows]. Qed.

Lemma track_grows now gl c g : grows g (track now gl c g).
Proof.
  unfold track. cbv zeta. etrans; [apply prune_grows|]. case_match; [by apply grows_same|].
  etrans; [apply shift_grows|]. by apply grows_same.
Qed.

Lemma new_grows l g : grows g (fst (new_ctx l g)).
Proof. intros H. split; [done|]. exists [mkGl false l]. split; [done|]. by repeat constructor. Qed.

Lemma create_grows now k c r1 r2 g : grows g (fst (create_shared now k c r1 r2 g)).
Proof.
  unfold create_shared. etrans; [apply cap_grows|]. destruct (match r1 with Some _ => _ | None => _ end) as [l|]; [|done].
  etrans; [apply (new_grows l)|]. cbn [fst new_ctx]. etrans; [|apply track_grows]. by apply grows_same.
Qed.

Lemma shared_grows now type c r1 r2 g : grows g (fst (getShared now type c r1 r2 g)).
Proof.
  unfold getShared. cbv zeta. destruct (find_pool _ _); [|apply create_grows]. destruct (lost _ _); [apply create_grows|].
  cbn [fst]. etrans; [|apply track_grows]. by apply grows_same.
Qed.

Lemma soft_all_view g :
  let g' := softReleaseAll g in
  pool g' = pool (pruneDead g) /\ allowHardLose g' = allowHardLose g /\ heap g' = heap g.
Proof.
  unfold softReleaseAll. cbv zeta.
  set (g1 := clear_all _ _). assert (heap g1 = heap g) as H1 by apply (clear_all_heap _ (pruneDead g)).
  destruct (clear_all_frame (gls (live (pruneDead g))) (pruneDead g)) as [_ _ f3 f4 _ _].
  fold g1 in f3, f4. destruct (drain_view false g1) as (_&_&E3&E4&_&_).
  split_and!; [by rewrite E3, f3|by rewrite E4, f4|]. unfold drainLegacyLists. cbv zeta. by rewrite clear_all_heap.
Qed.

(** Events that may lose a context. *)
Definition losing (ev : event) : bool := match ev with Leave | Retry _ _ | BrowserLoses _ => true | _ => false end.

Lemma handle_grows ev g : losing ev = false -> grows g (handle ev g).
Proof.
  intros Hl. destruct ev; try discriminate Hl; cbn [handle].
  - apply (detached_keeps (grows g)); [|done]. intros g0 r3 r4 H. etrans; [exact H|apply shared_grows].
  - apply (acquire_keeps (grows g)); [|done]. intros g0 t r3 r4 H. etrans; [exact H|apply shared_grows].
  - unfold getInDom. cbv zeta. etrans; [apply cap_grows|].
    assert (grows (forceCap g) (fst (answer r (forceCap g)))) as HA by (destruct r; [done|done|apply new_grows]).
    destruct (answer r (forceCap g)) as [g1 [gl|]]; cbn [fst] in *; [|done]. etrans; [exact HA|].
    etrans; [|apply frame_grows, lose_all_frame]. etrans; [|by apply grows_same].
    etrans; [|apply track_grows]. by apply grows_same.
  - destruct (soft_all_view g) as (_&H1&H2). by apply grows_same.
  - destruct (hard_released g) as (_&_&_&_&H1&H2). by apply grows_same.
  - apply cap_grows.
  - unfold setMaxLive. etrans; [|apply cap_grows]. by apply grows_same.
  - unfold pathCap. cbn [fst]. etrans; [apply prune_grows|]. case_match; [|done].
    etrans; [|apply prune_grows]. destruct (soft_all_view (pruneDead g)) as (_&H1&H2). by apply grows_same.
  - apply prune_grows.
  - unfold loseContext. intros H. rewrite H. by apply grows_same.
  - by apply grows_same.
Qed.

Lemma grun_app a b g : grun (a ++ b) g = grun b (grun a g).
Proof. apply fold_left_app. Qed.

(** ** Theorems *)

(** The list of tracked contexts is bounded: over every sequence of calls, releases,
    page hides, recoveries and context losses at most [MAX_LIVE] contexts, itself one or
    two, are tracked, none twice, and the permission to lose contexts never outlives the
    handler that gives it. *)
Theorem gl_live_bounded (evs : list event) :
  let g := grun evs gov0 in
  Z.of_nat (length (live g)) <= MAX_LIVE g <= 2 /\ NoDup (map s_gl (live g)) /\ allowHardLose g = false.
Proof. cbv zeta. destruct (grun_ok evs). split_and!; [done|lia|done|done]. Qed.

(** C34: The caps free nothing: as long as the page stays and no recovery is forced, no
    operation of the governor ends the life of a context, neither [forceCap] nor
    [releaseHard] nor the cap of the canvases in the document nor a smaller [MAX_LIVE];
    every context ever created is still alive, however few are tracked. *)
Theorem gl_nothing_freed (evs : list event) :
  forallb (fun ev => negb (losing ev)) evs = true ->
  Forall (fun x => x_lost x = false) (heap (grun evs gov0)).
Proof.
  intros HF. assert (grows gov0 (grun evs gov0)) as HG.
  { generalize gov0. induction evs as [|ev evs IH]; intros g; [done|].
    cbn in HF. apply andb_true_iff in HF as [Hev HF]. etrans; [apply handle_grows|by apply IH]. by apply negb_true_iff. }
  destruct (HG eq_refl) as (_&l&->&Hl). done.
Qed.

(** The contexts the governor knows of. *)
Definition known (g : gov) : list (option nat) := gls (live g) ++ gls (map snd (pool g)) ++ map fst (probe_gl g).

Lemma pruned_known g x : lost x g = false -> Some x ∈ known g -> Some x ∈ known (pruneDead g).
Proof.
  intros Hx. unfold known, gls. cbn. rewrite !elem_of_app, !list_elem_of_In, !in_map_iff.
  intros [(s&Hs&Hin)|[(s&Hs&Hin)|H]]; [left|right; left|by right; right]; exists s; (split; [done|]); injection Hs as <-.
  - apply filter_In. by rewrite Hx.
  - apply in_map_iff in Hin as ((k&s')&Hk&Hin). cbn in Hk. subst. apply in_map_iff. exists (k, s). split; [done|].
    apply filter_In. by rewrite Hx.
Qed.

Lemma lose_ctx_lost c : x_lost c = true -> lose_ctx c = c.
Proof. destruct c as [lo ls]. cbn. intros ->. unfold lose_ctx, drop_ctx. by destruct ls. Qed.

Lemma lose_twice (P Q : bool) c :
  (if Q then lose_ctx (if P then lose_ctx c else c) else if P then lose_ctx c else c) =
  (if P || Q then lose_ctx c else c).
Proof. destruct c as [lo []], P, Q; done. Qed.

Lemma hard_heap g x c :
  allowHardLose g = true -> heap g !! x = Some c ->
  heap (hardReleaseAll g) !! x = Some (if bool_decide (Some x ∈ known g) then lose_ctx c else c).
Proof.
  intros Ha Hx. unfold hardReleaseAll, drainLegacyLists. cbv zeta.
  set (g1 := pruneDead g).
  pose proof (lose_all_heap (gls (live g1)) (set_live [] g1) x c Ha Hx) as H1.
  destruct (lose_all_frame (gls (live g1)) (set_live [] g1)) as [_ _ a3 a4 a5 _].
  set (g2 := lose_all _ (set_live [] g1)) in *.
  pose proof (lose_all_heap (gls (map snd (pool g2))) (set_pool [] g2) x _ (eq_trans a4 Ha) H1) as H2.
  destruct (lose_all_frame (gls (map snd (pool g2))) (set_pool [] g2)) as [_ _ _ b4 b5 _].
  set (g3 := lose_all _ (set_pool [] g2)) in *.
  assert (allowHardLose g3 = true) as Ha3 by (rewrite b4; exact (eq_trans a4 Ha)).
  pose proof (lose_all_heap (map fst (probe_gl g3)) (set_probe [] g3) x _ Ha3 H2) as H3.
  change (heap (set_last None (set_probe [] (set_last None ?h)))) with (heap h). rewrite H3, !lose_twice.
  assert (pool g2 = pool g1 /\ probe_gl g3 = probe_gl g) as [-> ->] by (split; [exact a3|rewrite b5; exact a5]).
  f_equal. destruct (x_lost c) eqn:El; [by rewrite lose_ctx_lost by done; repeat case_match|].
  assert (lost x g = false) as Hl by (unfold lost; by rewrite Hx).
  rewrite orb_assoc.
  assert (bool_decide (Some x ∈ gls (live g1)) || bool_decide (Some x ∈ gls (map snd (pool g1))) ||
          bool_decide (Some x ∈ map fst (probe_gl g)) = bool_decide (Some x ∈ known g)) as ->; [|done].
  apply eq_true_iff_eq. rewrite !orb_true_iff, !bool_decide_eq_true. split.
  - intros H. unfold known. rewrite !elem_of_app. unfold gls in *.
    rewrite !list_elem_of_In, !in_map_iff in *. destruct H as [[(s&Hs&[Hin _]%filter_In)|(s&Hs&Hin)]|H]; eauto 6.
    right. left. apply in_map_iff in Hin as ((k&s')&Hk&[Hin _]%filter_In). exists s. split; [done|].
    apply in_map_iff. by exists (k, s').
  - intros H%(pruned_known g x Hl). unfold known in H. rewrite !elem_of_app in H. tauto.
Qed.

(** A forced recovery starts afresh: it forgets every context it knows, tracked, pooled
    or in the lists of the older scripts, and loses each of them that the browser lets it
    lose; contexts it had dropped before stay as they are, and the permission ends with
    the call. *)
Theorem retry_frees (now : Z) (why : string) (g : gov) (x : nat) (c : glctx) :
  heap g !! x = Some c ->
  let g' := forceHardLoseForRetry now why g in
  heap g' !! x = Some (if bool_decide (Some x ∈ known g) then lose_ctx c else c) /\
  live g' = [] /\ pool g' = [] /\ probe_gl g' = [] /\ allowHardLose g' = allowHardLose g.
Proof.
  intros Hx g'. destruct (hard_released (set_allow true g)) as (H1&H2&H3&_).
  assert (g' = set_allow (allowHardLose g) (set_meta (hard_lose_meta g') (set_pool [] (hardReleaseAll (set_allow true g))))) as ->.
  { unfold g', forceHardLoseForRetry. cbv zeta. rewrite H2. by destruct (hardReleaseAll _). }
  split_and!; [|done..]. exact (hard_heap (set_allow true g) x c eq_refl Hx).
Qed.

(** *** The shared contexts *)

Definition shares (k : string) (gl : nat) (g : gov) : Prop :=
  (exists s, find_pool k (pool g) = Some s /\ s_gl s = gl) /\ lost gl g = false /\ allowHardLose g = false.

Lemma find_pool_filter k s f l :
  find_pool k l = Some s -> f s = true ->
  find_pool k (List.filter (fun '(_, s) => f s) l) = Some s.
Proof.
  induction l as [|[k' s'] l IH]; [done|]. cbn. destruct (k =s k') eqn:E.
  - intros [= ->] Hf. rewrite Hf. cbn. by rewrite E.
  - intros H Hf. destruct (f s'); cbn; rewrite ?E; by apply IH.
Qed.

Lemma shares_prune k gl g : shares k gl g -> shares k gl (pruneDead g).
Proof.
  intros ((s&Hs&<-)&Hl&Ha). split; [|done]. exists s. split; [|done]. cbn.
  apply (find_pool_filter k s (fun s => negb (lost (s_gl s) g))); [done|by rewrite Hl].
Qed.

(** Steps that keep the pool and lose nothing. *)
Lemma shares_keep k gl g g' :
  pool g' = pool g -> allowHardLose g' = allowHardLose g -> (allowHardLose g = false -> heap g' = heap g) ->
  shares k gl g -> shares k gl g'.
Proof. intros E1 E2 E3 (Hs&Hl&Ha). unfold shares, lost. rewrite E1, E2, E3 by done. done. Qed.

Lemma shares_frame k gl g g' : frame g g' -> shares k gl g -> shares k gl g'.
Proof. intros []. by apply shares_keep. Qed.

Lemma shares_shift k gl n g : shares k gl g -> shares k gl (shift_to n g).
Proof. destruct (shift_view n g) as (_&_&H1&H2&H3). by apply shares_keep. Qed.

Lemma shares_cap k gl g : shares k gl g -> shares k gl (forceCap g).
Proof. intros H. by apply shares_prune, shares_shift, shares_prune. Qed.

Lemma shares_track k gl now x c g : shares k gl g -> shares k gl (track now x c g).
Proof.
  intros H. unfold track. cbv zeta. apply shares_prune in H. case_match; [by eapply shares_keep; [..|exact H]|].
  eapply shares_keep; [..|apply shares_shift, H]; done.
Qed.

Lemma lost_new gl l g : lost gl g = false -> lost gl (fst (new_ctx l g)) = false.
Proof.
  unfold lost. cbn. destruct (heap g !! gl) as [x|] eqn:E.
  - intros H. by rewrite (lookup_app_l_Some _ _ _ _ E).
  - intros _. destruct ((heap g ++ [mkGl false l]) !! gl) as [y|] eqn:E2; [|done].
    apply lookup_app_Some in E2 as [?|[_ H]]; [congruence|]. by apply list_lookup_singleton_Some in H as [_ <-].
Qed.

Lemma shares_new k gl l g : shares k gl g -> shares k gl (fst (new_ctx l g)).
Proof. intros (Hs&Hl&Ha). split; [done|]. split; [by apply lost_new|done]. Qed.

Lemma find_put_same k s l : find_pool k (put_pool k s l) = Some s.
Proof.
  unfold put_pool. induction l as [|[k2 s2] l IH]; cbn; [by rewrite String.eqb_refl|].
  destruct (k =s k2) eqn:E; cbn; [exact IH|]. by rewrite E.
Qed.

Lemma find_put_other k k' s l : k <> k' -> find_pool k (put_pool k' s l) = find_pool k l.
Proof.
  intros Hne. unfold put_pool. induction l as [|[k2 s2] l IH]; cbn.
  - by rewrite (proj2 (String.eqb_neq k k') Hne).
  - destruct (k' =s k2) eqn:E; cbn.
    + apply String.eqb_eq in E as <-. by rewrite (proj2 (String.eqb_neq k k') Hne).
    + destruct (k =s k2); [done|exact IH].
Qed.

Lemma shares_create k gl now k' c r1 r2 g :
  k <> k' -> shares k gl g -> shares k gl (fst (create_shared now k' c r1 r2 g)).
Proof.
  intros Hne H%shares_cap. unfold create_shared. destruct (match r1 with Some _ => _ | None => _ end) as [l|]; [|done].
  apply (shares_new k gl l) in H. cbn [fst new_ctx] in *. apply shares_track. destruct H as ((s&Hs&He)&Hl&Ha).
  split; [|done]. exists s. split; [|done].
  exact (eq_trans (find_put_other k k' _ _ Hne) Hs).
Qed.

Lemma shares_shared k gl now type c r1 r2 g :
  shares k gl g -> shares k gl (fst (getShared now type c r1 r2 g)) /\
  (poolKey type = k -> snd (getShared now type c r1 r2 g) = Some gl).
Proof.
  intros H. unfold getShared. cbv zeta. pose proof H as ((s&Hs&He)&Hl&Ha).
  destruct (decide (poolKey type = k)) as [->|Hne].
  - rewrite Hs, He, Hl. cbn [fst snd]. split; [|done]. apply shares_track. by eapply shares_keep; [..|exact H].
  - split; [|done]. destruct (find_pool (poolKey type) (pool g)) as [s'|]; [|by apply shares_create; [congruence|]].
    destruct (lost (s_gl s') g); [by apply shares_create; [congruence|]|]. cbn [fst]. apply shares_track.
    by eapply shares_keep; [..|exact H].
Qed.

Lemma shares_soft k gl g : shares k gl g -> shares k gl (softReleaseAll g).
Proof.
  intros H%shares_prune. destruct (soft_all_view g) as (E1&E2&E3). by eapply shares_keep; [..|exact H].
Qed.

Lemma shares_inDom k gl now c r g : shares k gl g -> shares k gl (fst (getInDom now c r g)).
Proof.
  intros H%shares_cap. unfold getInDom. cbv zeta.
  assert (shares k gl (fst (answer r (forceCap g)))) as HA by (destruct r; [done|done|by apply shares_new]).
  destruct (answer r (forceCap g)) as [g1 [x|]]; cbn [fst] in *; [|done].
  eapply shares_frame; [apply lose_all_frame|]. eapply shares_keep; [done|done|done|].
  apply shares_track. by eapply shares_keep; [..|exact HA].
Qed.

(** Events that leave the shared context [gl] alone. *)
Definition spares (gl : nat) (ev : event) : bool :=
  match ev with ReleaseHard | Leave | Retry _ _ => false | BrowserLoses x => negb (Nat.eqb x gl) | _ => true end.

Lemma handle_shares k gl ev g : spares gl ev = true -> shares k gl g -> shares k gl (handle ev g).
Proof.
  intros Hs H. destruct ev; try discriminate Hs; cbn [handle].
  - apply (detached_keeps (shares k gl)); [|done]. intros. by apply shares_shared.
  - apply (acquire_keeps (shares k gl)); [|done]. intros. by apply shares_shared.
  - by apply shares_inDom.
  - by apply shares_soft.
  - by apply shares_cap.
  - unfold setMaxLive. apply shares_cap. by eapply shares_keep; [..|exact H].
  - unfold pathCap. cbn [fst]. case_match; [by apply shares_prune, shares_soft, shares_prune|by apply shares_prune].
  - by apply shares_prune.
  - unfold loseContext. destruct H as (Hp&Hl&Ha). rewrite Ha. done.
  - by eapply shares_keep; [..|exact H].
  - destruct H as (Hp&Hl&Ha). split_and!; [done| |done]. unfold lost in *. cbn.
    cbn in Hs. apply negb_true_iff, Nat.eqb_neq in Hs. by rewrite list_lookup_alter_ne.
Qed.

(** One context per type serves every detached canvas: once a detached canvas has been
    given a context, every detached canvas that asks for the same type later is given that
    very context, over every sequence of events but a hard release, the end of the page,
    a forced recovery and the loss of that context. *)
Theorem shared_context (evs : list event) (now now' : Z) (type type' : string) (c c' : nat) (r1 r2 r1' r2' : option bool)
    (g : gov) (gl : nat) :
  gov_ok g -> snd (getShared now type c r1 r2 g) = Some gl -> forallb (spares gl) evs = true ->
  poolKey type' = poolKey type ->
  snd (getShared now' type' c' r1' r2' (grun evs (fst (getShared now type c r1 r2 g)))) = Some gl.
Proof.
  intros Hok Hgl Hev Hk. assert (shares (poolKey type) gl (fst (getShared now type c r1 r2 g))) as HS.
  { pose proof (shared_ok now type c r1 r2 g Hok) as Hok'. unfold getShared in *. cbv zeta in *.
    assert (snd (create_shared now (poolKey type) c r1 r2 g) = Some gl ->
            shares (poolKey type) gl (fst (create_shared now (poolKey type) c r1 r2 g))) as HC.
    { unfold create_shared. destruct (match r1 with Some _ => _ | None => _ end) as [l|]; [|done]. cbn [fst snd new_ctx].
      intros [= <-]. apply shares_track. pose proof (ok_allow _ (forceCap_ok g Hok)) as Ha. split_and!; [|cbn|done].
      - exists (mkSlot (length (heap (forceCap g))) (Some c) 0). split; [exact (find_put_same _ _ _)|reflexivity].
      - unfold lost. cbn. by rewrite lookup_app_r, Nat.sub_diag. }
    destruct (find_pool (poolKey type) (pool g)) as [s|] eqn:Hf; [|by apply HC].
    destruct (lost (s_gl s) g) eqn:El; [by apply HC|]. cbn [fst snd] in *. injection Hgl as <-.
    apply shares_track. split_and!; [by exists s|done|apply Hok]. }
  assert (shares (poolKey type) gl (grun evs (fst (getShared now type c r1 r2 g)))) as HS'.
  { revert HS. generalize (fst (getShared now type c r1 r2 g)). clear -Hev. induction evs as [|ev evs IH]; intros g H; [done|].
    cbn in Hev. apply andb_true_iff in Hev as [H1 H2]. by apply IH, handle_shares. }
  by apply (proj2 (shares_shared (poolKey type) gl now' type' c' r1' r2' _ HS')).
Qed.

(** ** Witnesses *)

Module Demo.
(** Twenty canvases of the document, hard releases and caps in between. *)
Definition crowd : list event := flat_map (fun c => [InDom 1 c (Fresh true); ForceCap; ReleaseHard]) (seq 0 20).

Lemma gl_nothing_freed_witness :
  length (heap (grun crowd gov0)) = 20%nat /\ live (grun crowd gov0) = [] /\
  Forall (fun x => x_lost x = false) (heap (grun crowd gov0)).
Proof. split; [reflexivity|]. split; [reflexivity|]. refine (gl_nothing_freed crowd _). reflexivity. Defined.

Definition busy : gov := grun [Detached 1 "webgl2" 0 (Some true) None; InDom 2 7 (Fresh true); BrowserLoses 1] gov0.

Lemma retry_frees_witness :
  heap (forceHardLoseForRetry 5 "b10" busy) !! 0%nat = Some (mkGl true true) /\ live (forceHardLoseForRetry 5 "b10" busy) = [].
Proof.
  refine (let H := retry_frees 5 "b10" busy 0 (mkGl false true) _ in conj (proj1 H) (proj1 (proj2 H))). reflexivity.
Defined.

Lemma shared_context_witness :
  snd (getShared 9 "experimental-webgl" 3 (Some true) None
         (grun [InDom 2 7 (Fresh true); InDom 3 8 (Fresh true); ReleaseSoft; LoseExt 0]
            (fst (getShared 1 "webgl" 0 (Some true) None gov0)))) = Some 0%nat.
Proof.
  refine (shared_context _ 1 9 "webgl" _ 0 3 _ _ _ _ gov0 0 (grun_ok []) _ _ _); reflexivity.
Defined.
End Demo.
