(* ===== verification/GlQuiet.v ===== *)
(** * The quiet WebGL queries of the governor ([probe/fe/gr.gl_governor.js])

    [getParameter] and [getExtension] of both WebGL prototypes are replaced.
    The two replacements call each other: [getParameter] of an unmasked name
    asks for the debug extension, and [getExtension] of the debug extension asks
    for both unmasked names, through the replaced [getParameter], which is the
    one the prototype has when [patchGetExtension] runs.  [d] is the number of calls
    of the two the stack still has room for; with none left the call throws, and
    a native call needs no room.  What the browser answers is data of the
    context; the names the debug extension gives are the standard ones. *)

From S2P Require Import Prelude JsVal GlGovernor.
From Stdlib Require Import QArith Qround.
#[local] Open Scope Z_scope.

(** ** State *)

(** [debugInfoCache]; the object [getParameter] makes has no [native]. *)
Record dbg := mkDbg { vendor : string; renderer : string; native : bool }.

(** A native call: of [getExtension], or of [getParameter] on a context that is
    or is not WebGL 2. *)
Inductive ncall := NExt (name : string) | NParam (w2 : bool) (key : Z).

(** [ntrace] are the native calls made so far, the last one first. *)
Record quiet := mkQuiet {
  badPnameSeen : list Z;
  blocked : Z;
  debugInfoCache : option dbg;
  ntrace : list ncall
}.
Definition quiet0 : quiet := mkQuiet [] 0 None [].

Definition eta_quiet (s : quiet) : quiet := mkQuiet (badPnameSeen s) (blocked s) (debugInfoCache s) (ntrace s).
Definition set_bad v (s : quiet) : quiet := ltac:(upd eta_quiet badPnameSeen s v).
Definition set_blocked v (s : quiet) : quiet := ltac:(upd eta_quiet blocked s v).
Definition set_cache v (s : quiet) : quiet := ltac:(upd eta_quiet debugInfoCache s v).
Definition set_trace v (s : quiet) : quiet := ltac:(upd eta_quiet ntrace s v).

Definition seen (key : Z) (s : quiet) : bool := existsb (Z.eqb key) (badPnameSeen s).
Definition mark_bad (key : Z) (s : quiet) : quiet := set_bad (key :: badPnameSeen s) s.
Definition block (key : Z) (s : quiet) : quiet := s |> mark_bad key |> set_blocked (blocked s + 1).
Definition note (n : ncall) (s : quiet) : quiet := set_trace (n :: ntrace s) s.

(** What the browser answers on a context: a native [getParameter] throws
    ([None]) or has a value, and [q_enum] says that it raised INVALID_ENUM. *)
Record wctx := mkCtx {
  q_lost : bool;
  q_w2 : bool;
  q_const : string -> option Z;
  q_ext : string -> bool;
  q_param : Z -> option val;
  q_enum : Z -> bool
}.

(** ** The tables *)

Definition GL1_SAFE : list Z :=
  [0x1f00; 0x1f01; 0x1f02; 0x8b8c; 0x0d33; 0x851c; 0x84e8; 0x8869; 0x8dfb; 0x8dfc; 0x8dfd; 0x8b4d; 0x8b4c; 0x8872;
   0x0d50; 0x0d52; 0x0d53; 0x0d54; 0x0d55; 0x0d56; 0x0d57; 0x0d3a; 0x846e; 0x846d; 0x80a8; 0x80a9;
   0x0ba2; 0x0b21; 0x0b45; 0x0b46; 0x0c02; 0x0b70; 0x0c10; 0x0b44; 0x8b8d; 0x8b8b; 0x9240; 0x9241].
Definition GL2_SAFE : list Z :=
  [0x80e8; 0x80e9; 0x84fd; 0x8cdf; 0x8824; 0x8d6b; 0x8a2e; 0x8a2d; 0x8a2f; 0x8a2b; 0x8a2c; 0x8a30; 0x8a31; 0x8a33;
   0x8a34; 0x8b4a; 0x8b4b; 0x8b49; 0x8904; 0x8905; 0x9111; 0x9122; 0x9125; 0x910e; 0x910f; 0x9110; 0x9315; 0x9316;
   0x9317; 0x8e70; 0x8c8a; 0x8c8b; 0x8c80; 0x88ff; 0x8d57; 0x8073].
Definition UNMASKED_VENDOR : Z := 0x9245.
Definition UNMASKED_RENDERER : Z := 0x9246.
Definition DEBUG_INFO : string := "WEBGL_debug_renderer_info".
Definition EXT_PNAME (key : Z) : list string :=
  if key =? 0x84ff then ["EXT_texture_filter_anisotropic"; "WEBKIT_EXT_texture_filter_anisotropic"] else
  if key =? 0x8fbb then ["EXT_disjoint_timer_query_webgl2"; "EXT_disjoint_timer_query"] else
  if (key =? UNMASKED_VENDOR) || (key =? UNMASKED_RENDERER) then [DEBUG_INFO] else [].
Definition inZ (key : Z) (l : list Z) : bool := existsb (Z.eqb key) l.
Definition needs_ext (key : Z) : bool := match EXT_PNAME key with [] => false | _ => true end.

Definition allowed (w2 : bool) (key : Z) : bool := inZ key GL1_SAFE || (w2 && inZ key GL2_SAFE) || needs_ext key.

(** The constants [getParameter] compares the name with. *)
Definition fast_names : list string :=
  ["VENDOR"; "RENDERER"; "VERSION"; "SHADING_LANGUAGE_VERSION"; "MAX_TEXTURE_SIZE"; "MAX_RENDERBUFFER_SIZE";
   "MAX_VERTEX_ATTRIBS"; "RED_BITS"; "GREEN_BITS"; "BLUE_BITS"; "ALPHA_BITS"; "DEPTH_BITS"; "STENCIL_BITS";
   "ALIASED_LINE_WIDTH_RANGE"; "ALIASED_POINT_SIZE_RANGE"; "MAX_VIEWPORT_DIMS"; "VIEWPORT";
   "MAX_CUBE_MAP_TEXTURE_SIZE"; "MAX_COMBINED_TEXTURE_IMAGE_UNITS"; "MAX_TEXTURE_IMAGE_UNITS";
   "MAX_VERTEX_TEXTURE_IMAGE_UNITS"; "MAX_VERTEX_UNIFORM_VECTORS"; "MAX_FRAGMENT_UNIFORM_VECTORS";
   "MAX_VARYING_VECTORS"; "SAMPLE_BUFFERS"; "SAMPLES"; "CURRENT_PROGRAM"; "LINE_WIDTH";
   "IMPLEMENTATION_COLOR_READ_TYPE"; "IMPLEMENTATION_COLOR_READ_FORMAT"].
Definition foundOnGl (c : wctx) (key : Z) : bool :=
  existsb (fun n => bool_decide (q_const c n = Some key)) fast_names || q_w2 c.

(** ** The replaced methods *)

(** An extension object: the shim, or the native one. *)
Inductive extr := EShim | ENative (name : string).

(** A label of the masked stack. *)
Definition generic (ur : string) : bool :=
  let l := lower ur in
  (ur =s "") || (l =s "webkit webgl") || (l =s "mozilla") || (l =s "firefox") ||
  (starts_with "webkit" l && contains "webgl" l).

(** [String(origParam.call(..) || "")] under its [catch]. *)
Definition caught (o : option val) : string := match o with Some v => to_string_or_empty v | None => "" end.

(** [v] is written into the cached object or into a fresh one. *)
Definition remember (key : Z) (v : val) (s : quiet) : quiet :=
  if nonnull v && ((key =? UNMASKED_VENDOR) || (key =? UNMASKED_RENDERER)) then
    let i := default (mkDbg "" "" false) (debugInfoCache s) in
    set_cache (Some (if key =? UNMASKED_VENDOR then mkDbg (to_string v) (renderer i) (native i)
                     else mkDbg (vendor i) (to_string v) (native i))) s
  else s.

(** The native call and what follows it. *)
Definition ask_native (c : wctx) (key : Z) (s : quiet) : quiet * val :=
  let s := note (NParam (q_w2 c) key) s in
  match q_param c key with
  | None => (mark_bad key s, VNull)
  | Some v => if q_enum c key then (mark_bad key s, VNull) else (remember key v s, v)
  end.

(** A cached answer of the debug extension. *)
Definition from_cache (key : Z) (s : quiet) : option string :=
  match debugInfoCache s with
  | Some i =>
    if native i && ((key =? UNMASKED_VENDOR) || (key =? UNMASKED_RENDERER)) then
      let v := if key =? UNMASKED_VENDOR then vendor i else renderer i in
      if v =s "" then None else Some v
    else None
  | None => None
  end.

(** The guards before the native call: an answer, or the extensions needed. *)
Inductive verdict := Answer (v : val) | Blocked | Need (exts : list string).

Definition screen (c : wctx) (key : Z) (s : quiet) : verdict :=
  if q_lost c then Answer VNull else
  if seen key s then Answer VNull else
  match from_cache key s with
  | Some v => Answer (VStr v)
  | None =>
    if negb (allowed (q_w2 c) key) then Blocked else
    if negb (needs_ext key) && negb (foundOnGl c key) then Blocked else
    Need (EXT_PNAME key)
  end.

(** [pname] is a number the callers name; [getParameter_js] below has the
    guards on other values. *)
Fixpoint getParameter (d : nat) (c : wctx) (key : Z) (s : quiet) {struct d} : quiet * option val :=
  match d with
  | O => (s, None)
  | S d =>
    match screen c key s with
    | Answer v => (s, Some v)
    | Blocked => (block key s, Some VNull)
    | Need [] => let '(s, v) := ask_native c key s in (s, Some v)
    | Need exts =>
      let fix first l s :=
        match l with
        | [] => (s, false)
        | e :: l => match getExtension d c e s with
                    | (s, Some (Some _)) => (s, true)
                    | (s, _) => first l s
                    end
        end in
      let '(s, got) := first exts s in
      if got then let '(s, v) := ask_native c key s in (s, Some v) else (s, Some VNull)
    end
  end
with getExtension (d : nat) (c : wctx) (name : string) (s : quiet) {struct d} : quiet * option (option extr) :=
  match d with
  | O => (s, None)
  | S d =>
    let s := note (NExt name) s in
    if name =s DEBUG_INFO then
      if q_ext c name then
        let '(s, uv) := getParameter d c UNMASKED_VENDOR s in
        let '(s, ur) := getParameter d c UNMASKED_RENDERER s in
        let s := if generic (caught ur) then s else set_cache (Some (mkDbg (caught uv) (caught ur) true)) s in
        (s, Some (Some (ENative name)))
      else
        (match debugInfoCache s with None => set_cache (Some (mkDbg "" "" false)) s | Some _ => s end, Some (Some EShim))
    else (s, Some (if q_ext c name then Some (ENative name) else None))
  end.

(** The guards of [getParameter] on its argument. *)
Definition getParameter_js (d : nat) (c : wctx) (pname : val) (s : quiet) : quiet * option val :=
  match pname with
  | VNum (Fin q) => getParameter d c (num_int32 (Fin q)) s
  | _ => (s, Some VNull)
  end.

(** ** The rest of the quiet interface *)

(** A name the table inherits from [Object.prototype] has no entries natively. *)
Definition getEntriesByType (type : string) (entries : string -> option (list val)) : list val :=
  if mem_str type ["navigation"; "resource"; "mark"; "measure"] then default [] (entries type) else [].

Record snap := mkSnap {
  governed_webgl_renderer : option string;
  governed_webgl_vendor : option string;
  webgl_unmasked_is_governed : bool;
  gl_governor_shared_pool : bool;
  gl_governor_live : nat
}.
Definition snapshotFields (s : quiet) (g : gov) : snap :=
  let ren := match debugInfoCache s with Some i => renderer i | None => "" end in
  let ven := match debugInfoCache s with Some i => vendor i | None => "" end in
  let some x := if x =s "" then None else Some x in
  mkSnap (some ren) (some ven) (negb (ren =s "") || negb (ven =s "")) (match pool g with [] => false | _ => true end)
    (length (live g)).

(** ** Histories *)

Inductive call := Param (d : nat) (c : wctx) (pname : val) | Ext (d : nat) (c : wctx) (name : string).
Definition qstep (k : call) (s : quiet) : quiet :=
  match k with Param d c p => fst (getParameter_js d c p s) | Ext d c n => fst (getExtension d c n s) end.
Definition qrun (ks : list call) (s : quiet) : quiet := fold_left (fun s k => qstep k s) ks s.

(** ** Lemmas *)

#[local] Arguments getParameter : simpl never.
#[local] Arguments getExtension : simpl never.
#[local] Arguments ask_native : simpl never.
#[local] Arguments remember : simpl never.

(** The search for an extension a name needs. *)
Definition first_ext (d : nat) (c : wctx) : list string -> quiet -> quiet * bool :=
  fix first l s :=
    match l with
    | [] => (s, false)
    | e :: l => match getExtension d c e s with (s, Some (Some _)) => (s, true) | (s, _) => first l s end
    end.

Lemma getParameter_S d c key s :
  getParameter (S d) c key s =
  match screen c key s with
  | Answer v => (s, Some v)
  | Blocked => (block key s, Some VNull)
  | Need [] => let '(s, v) := ask_native c key s in (s, Some v)
  | Need exts => let '(s, got) := first_ext d c exts s in
                 if got then let '(s, v) := ask_native c key s in (s, Some v) else (s, Some VNull)
  end.
Proof. reflexivity. Qed.

Lemma getExtension_S d c name s :
  getExtension (S d) c name s =
  let s := note (NExt name) s in
  if name =s DEBUG_INFO then
    if q_ext c name then
      let '(s, uv) := getParameter d c UNMASKED_VENDOR s in
      let '(s, ur) := getParameter d c UNMASKED_RENDERER s in
      (if generic (caught ur) then s else set_cache (Some (mkDbg (caught uv) (caught ur) true)) s, Some (Some (ENative name)))
    else
      (match debugInfoCache s with None => set_cache (Some (mkDbg "" "" false)) s | Some _ => s end, Some (Some EShim))
  else (s, Some (if q_ext c name then Some (ENative name) else None)).
Proof. reflexivity. Qed.

Lemma screen_need c key s l : screen c key s = Need l -> l = EXT_PNAME key /\ allowed (q_w2 c) key = true /\ q_lost c = false.
Proof.
  unfold screen. destruct (q_lost c), (seen key s); try done. destruct (from_cache key s); [done|].
  destruct (allowed _ _); [|done]. cbn [negb]. case_match; [done|]. by intros [= <-].
Qed.

(** What every call keeps when the primitive updates keep it. *)
Section Keeps.
Context (I : quiet -> Prop).
Hypothesis keep_block : forall key s, I s -> I (block key s).
Hypothesis keep_note : forall n s, I s -> I (note (NExt n) s).
Hypothesis keep_cache : forall v s, I s -> I (set_cache v s).
Hypothesis keep_ask : forall c key s, allowed (q_w2 c) key = true -> I s -> I (fst (ask_native c key s)).

Lemma keeps d :
  (forall c key s, I s -> I (fst (getParameter d c key s))) /\ (forall c n s, I s -> I (fst (getExtension d c n s))).
Proof using All.
  induction d as [|d [IHp IHe]]; [done|]. split; intros c x s H.
  - assert (forall l s, I s -> I (fst (first_ext d c l s))) as HF.
    { induction l as [|e l IH]; intros s0 H0; [done|]. cbn. pose proof (IHe c e s0 H0) as H1.
      destruct (getExtension d c e s0) as [s1 [[x1|]|]]; [done|by apply IH..]. }
    rewrite getParameter_S. destruct (screen c x s) as [v| |l] eqn:E; [done|by apply keep_block|].
    apply screen_need in E as (_&Ha&_).
    assert (forall s, I s -> I (fst (let '(s, v) := ask_native c x s in (s, Some v)))) as HA.
    { intros s0 H0. pose proof (keep_ask c x s0 Ha H0). by destruct (ask_native c x s0). }
    destruct l as [|e l]; [by apply HA|]. pose proof (HF (e :: l) s H) as H1.
    destruct (first_ext d c (e :: l) s) as [s1 []]; [by apply HA|done].
  - rewrite getExtension_S. cbv zeta. apply (keep_note x) in H. destruct (x =s DEBUG_INFO); [|done].
    destruct (q_ext c x); [|destruct (debugInfoCache _); [done|by apply keep_cache]].
    pose proof (IHp c UNMASKED_VENDOR _ H) as H1. destruct (getParameter d c UNMASKED_VENDOR _) as [s1 uv]. cbn [fst] in H1.
    pose proof (IHp c UNMASKED_RENDERER s1 H1) as H2. destruct (getParameter d c UNMASKED_RENDERER s1) as [s2 ur].
    cbn [fst] in *. destruct (generic (caught ur)); [done|by apply keep_cache].
Qed.

Lemma qrun_keeps ks s : I s -> I (qrun ks s).
Proof using All.
  revert s. induction ks as [|k ks IH]; intros s H; [done|]. apply IH. destruct k as [d c p|d c n]; cbn.
  - destruct p; try done. destruct n; try done. by apply keeps.
  - by apply keeps.
Qed.
End Keeps.

(** A name marked bad stays so, and is answered with null. *)
Lemma seen_cons key k s : seen key s = true -> seen key (mark_bad k s) = true.
Proof. unfold seen. cbn. intros ->. apply orb_true_r. Qed.

Lemma seen_marked key s : seen key (mark_bad key s) = true.
Proof. unfold seen. cbn. by rewrite Z.eqb_refl. Qed.

Lemma seen_remember key k v s : seen key (remember k v s) = seen key s.
Proof. unfold remember. by destruct (nonnull v && _). Qed.

Lemma seen_forever key ks s : seen key s = true -> seen key (qrun ks s) = true.
Proof.
  apply (qrun_keeps (fun s => seen key s = true)); try done.
  - intros k s0 H. by apply (seen_cons key k).
  - intros c k s0 _ H. unfold ask_native. cbv zeta. destruct (q_param c k); [|by apply (seen_cons key k)].
    destruct (q_enum c k); [by apply (seen_cons key k)|]. cbn [fst]. by rewrite seen_remember.
Qed.

Lemma seen_null d c key s : seen key s = true -> getParameter (S d) c key s = (s, Some VNull).
Proof. intros H. rewrite getParameter_S. unfold screen. rewrite H. by destruct (q_lost c). Qed.

(** *** The debug extension *)

(** A live context with the debug extension and its two names. *)
Record exposes (c : wctx) (uv ur : string) : Prop := Exposes {
  ex_lost : q_lost c = false;
  ex_ext : q_ext c DEBUG_INFO = true;
  ex_ven : q_param c UNMASKED_VENDOR = Some (VStr uv);
  ex_ren : q_param c UNMASKED_RENDERER = Some (VStr ur);
  ex_enum : q_enum c UNMASKED_VENDOR = false /\ q_enum c UNMASKED_RENDERER = false
}.

Definition unread (s : quiet) : Prop :=
  seen UNMASKED_VENDOR s = false /\ seen UNMASKED_RENDERER s = false /\
  match debugInfoCache s with Some i => native i = false | None => True end.

Definition is_ext (n : ncall) : bool := match n with NExt _ => true | NParam _ _ => false end.
Definition ext_calls (s : quiet) : nat := length (List.filter is_ext (ntrace s)).

Lemma unread_note n s : unread s -> unread (note n s).
Proof. done. Qed.

Lemma ask_vendor c uv ur s : exposes c uv ur ->
  ask_native c UNMASKED_VENDOR s = (remember UNMASKED_VENDOR (VStr uv) (note (NParam (q_w2 c) UNMASKED_VENDOR) s), VStr uv).
Proof. intros [_ _ H _ [He _]]. unfold ask_native. cbv zeta. by rewrite H, He. Qed.

Lemma ask_renderer c uv ur s : exposes c uv ur ->
  ask_native c UNMASKED_RENDERER s = (remember UNMASKED_RENDERER (VStr ur) (note (NParam (q_w2 c) UNMASKED_RENDERER) s), VStr ur).
Proof. intros [_ _ _ H [_ He]]. unfold ask_native. cbv zeta. by rewrite H, He. Qed.

Lemma unread_remember key v s : unread s -> unread (remember key v s).
Proof.
  intros (H1&H2&H3). unfold unread. rewrite !seen_remember. split_and!; try done. unfold remember.
  destruct (nonnull v && _); [|done]. cbn. destruct (debugInfoCache s) as [i|]; cbn; by destruct (key =? UNMASKED_VENDOR).
Qed.

Lemma screen_unread c uv ur key s :
  exposes c uv ur -> unread s -> key = UNMASKED_VENDOR \/ key = UNMASKED_RENDERER -> screen c key s = Need [DEBUG_INFO].
Proof.
  intros [Hl _ _ _ _] (H1&H2&H3) Hk. unfold screen. rewrite Hl.
  assert (from_cache key s = None) as ->.
  { unfold from_cache. destruct (debugInfoCache s) as [i|]; [|done]. by rewrite H3. }
  destruct Hk as [-> | ->]; rewrite ?H1, ?H2; unfold allowed; by destruct (q_w2 c).
Qed.

(** A question for an unmasked name asks for the extension first. *)
Lemma param_unread d c uv ur key s :
  exposes c uv ur -> unread s -> key = UNMASKED_VENDOR \/ key = UNMASKED_RENDERER ->
  getParameter (S d) c key s =
  match getExtension d c DEBUG_INFO s with
  | (s, Some (Some _)) => let '(s, v) := ask_native c key s in (s, Some v)
  | (s, _) => (s, Some VNull)
  end.
Proof.
  intros Hc Hs Hk. rewrite getParameter_S, (screen_unread c uv ur key s Hc Hs Hk). cbn.
  by destruct (getExtension d c DEBUG_INFO s) as [s1 [[x|]|]].
Qed.

Lemma caught_str v : caught (Some (VStr v)) = v.
Proof. unfold caught, to_string_or_empty, jor. cbn. by destruct (String.eqb_spec v "") as [->|]. Qed.

Lemma ext_calls_remember key v s : ext_calls (remember key v s) = ext_calls s.
Proof. unfold ext_calls, remember. by destruct (nonnull v && _). Qed.

(** With a masked label nothing is cached and both names are asked for at every
    level of the stack. *)
Lemma masked_levels d c uv ur s :
  exposes c uv ur -> generic ur = true -> unread s ->
  let '(s', r) := getExtension d c DEBUG_INFO s in
  unread s' /\ (ext_calls s' + 1 = ext_calls s + 2 ^ ((d + 1) / 2))%nat /\
  r = match d with O => None | S _ => Some (Some (ENative DEBUG_INFO)) end.
Proof.
  intros Hc Hg. revert s. induction d as [d IH] using (well_founded_induction Nat.lt_wf_0). intros s Hs.
  destruct d as [|d].
  { change (getExtension 0 c DEBUG_INFO s) with (s, @None (option extr)). by split_and!. }
  rewrite getExtension_S. cbv zeta. rewrite String.eqb_refl, (ex_ext _ _ _ Hc).
  assert (unread (note (NExt DEBUG_INFO) s)) as H0 by done.
  assert (ext_calls (note (NExt DEBUG_INFO) s) = S (ext_calls s)) as E0 by done.
  revert H0 E0. generalize (note (NExt DEBUG_INFO) s). intros s0 H0 E0.
  destruct d as [|d].
  { change (getParameter 0 c ?k ?s) with (s, @None val). cbn iota. change (generic (caught None)) with true. cbn iota.
    change (2 ^ ((1 + 1) / 2))%nat with 2%nat. split_and!; [done|lia|done]. }
  assert (forall key s, key = UNMASKED_VENDOR \/ key = UNMASKED_RENDERER -> unread s ->
    let '(s', v) := getParameter (S d) c key s in
    unread s' /\ (ext_calls s' + 1 = ext_calls s + 2 ^ ((d + 1) / 2))%nat /\
    (key = UNMASKED_RENDERER -> generic (caught v) = true)) as HP.
  { intros key s1 Hk H1. rewrite (param_unread d c uv ur key s1 Hc H1 Hk).
    pose proof (IH d ltac:(lia) s1 H1) as H2. destruct (getExtension d c DEBUG_INFO s1) as [s2 r]. destruct H2 as (H2&E2&->).
    destruct d; [split_and!; done|]. destruct Hk as [-> | ->].
    - rewrite (ask_vendor c uv ur s2 Hc). split_and!; [by apply unread_remember|by rewrite ext_calls_remember|done].
    - rewrite (ask_renderer c uv ur s2 Hc). split_and!; [by apply unread_remember|by rewrite ext_calls_remember|].
      by rewrite caught_str. }
  pose proof (HP UNMASKED_VENDOR s0 (or_introl eq_refl) H0) as H1.
  destruct (getParameter (S d) c UNMASKED_VENDOR s0) as [s1 v1]. destruct H1 as (H1&E1&_).
  pose proof (HP UNMASKED_RENDERER s1 (or_intror eq_refl) H1) as H2.
  destruct (getParameter (S d) c UNMASKED_RENDERER s1) as [s2 v2]. destruct H2 as (H2&E2&G2). rewrite (G2 eq_refl).
  split_and!; [done| |done].
  replace ((S (S d) + 1) / 2)%nat with (S ((d + 1) / 2)).
  2:{ replace (S (S d) + 1)%nat with (d + 1 + 1 * 2)%nat by lia. rewrite Nat.div_add by lia. lia. }
  rewrite Nat.pow_succ_r'. lia.
Qed.

(** With a real one the calls go down to the end of the stack once. *)
Lemma real_levels d c uv ur s :
  exposes c uv ur -> generic ur = false -> unread s -> (3 <= d)%nat ->
  let '(s', r) := getExtension d c DEBUG_INFO s in
  debugInfoCache s' = Some (mkDbg uv ur true) /\ seen UNMASKED_RENDERER s' = false /\
  (ext_calls s' = ext_calls s + (d + 3) / 2)%nat /\ r = Some (Some (ENative DEBUG_INFO)).
Proof.
  intros Hc Hg. assert ((ur =s "") = false) as Hne.
  { destruct (ur =s "") eqn:E; [|done]. apply String.eqb_eq in E. subst. discriminate Hg. }
  revert s. induction d as [d IH] using (well_founded_induction Nat.lt_wf_0). intros s Hs Hd.
  destruct d as [|[|d]]; [lia..|].
  rewrite getExtension_S. cbv zeta. rewrite String.eqb_refl, (ex_ext _ _ _ Hc).
  assert (unread (note (NExt DEBUG_INFO) s)) as H0 by done.
  assert (ext_calls (note (NExt DEBUG_INFO) s) = S (ext_calls s)) as E0 by done.
  revert H0 E0. generalize (note (NExt DEBUG_INFO) s). intros s0 H0 E0.
  rewrite (param_unread d c uv ur UNMASKED_VENDOR s0 Hc H0 (or_introl eq_refl)).
  destruct (le_lt_dec 3 d) as [Hd3|Hd3].
  - pose proof (IH d ltac:(lia) s0 H0 Hd3) as H1. destruct (getExtension d c DEBUG_INFO s0) as [s1 r]. destruct H1 as (C1&S1&E1&->).
    rewrite (ask_vendor c uv ur s1 Hc). set (s2 := remember _ _ _).
    assert (debugInfoCache s2 = Some (mkDbg uv ur true) /\ seen UNMASKED_RENDERER s2 = false /\ ext_calls s2 = ext_calls s1) as (C2&S2&E2).
    { unfold s2. rewrite seen_remember, ext_calls_remember. split_and!; [|done|done].
      unfold remember. cbn. by rewrite C1. }
    rewrite getParameter_S. unfold screen. rewrite (ex_lost _ _ _ Hc), S2. unfold from_cache. rewrite C2. cbn [native renderer].
    change (true && _) with true. change (UNMASKED_RENDERER =? UNMASKED_VENDOR) with false. cbn iota. rewrite Hne.
    rewrite !caught_str, Hg. split_and!; [done|done| |done].
    change (ext_calls (set_cache ?v ?s)) with (ext_calls s). rewrite E2, E1, E0.
    replace (S (S d) + 3)%nat with (d + 3 + 1 * 2)%nat by lia. rewrite Nat.div_add by lia. lia.
  - assert (d = 1 \/ d = 2)%nat as Hd12 by lia.
    assert (forall s1, unread s1 -> getExtension d c DEBUG_INFO s1 = (note (NExt DEBUG_INFO) s1, Some (Some (ENative DEBUG_INFO)))) as HE.
    { intros s1 H1. destruct Hd12 as [-> | ->]; rewrite getExtension_S; cbv zeta; rewrite String.eqb_refl, (ex_ext _ _ _ Hc); [done|].
      rewrite (param_unread 0 c uv ur UNMASKED_VENDOR _ Hc) by (done || by left).
      change (getExtension 0 c DEBUG_INFO ?s) with (s, @None (option extr)). cbn iota.
      rewrite (param_unread 0 c uv ur UNMASKED_RENDERER _ Hc) by (done || by right). done. }
    rewrite (HE s0 H0), (ask_vendor c uv ur _ Hc). set (s2 := remember _ _ _).
    assert (unread s2 /\ ext_calls s2 = S (ext_calls s0)) as [H2 E2].
    { split; [by apply unread_remember|]. unfold s2. by rewrite ext_calls_remember. }
    rewrite (param_unread d c uv ur UNMASKED_RENDERER s2 Hc H2 (or_intror eq_refl)), (HE s2 H2), (ask_renderer c uv ur _ Hc).
    rewrite !caught_str, Hg.
    change (ext_calls (set_cache ?v ?s)) with (ext_calls s). change (seen ?k (set_cache ?v ?s)) with (seen k s).
    rewrite seen_remember, ext_calls_remember. split_and!; [done|by destruct H2 as (_&?&_)| |done].
    change (ext_calls (note (NParam ?a ?b) ?s)) with (ext_calls s). change (ext_calls (note (NExt ?n) ?s)) with (S (ext_calls s)).
    rewrite E2, E0. destruct Hd12 as [-> | ->]; change ((3 + 3) / 2)%nat with 3%nat; change ((4 + 3) / 2)%nat with 3%nat; lia.
Qed.

(** ** Theorems *)

(** Only listed names reach the browser: over every sequence of calls, on contexts of
    both versions and with whatever the browser answers, a native [getParameter] is only
    made for a name of the WebGL 1 table, of the WebGL 2 table on a WebGL 2 context, or of
    an extension; an unknown name never is. *)
Theorem native_names_listed (ks : list call) :
  Forall (fun n => match n with NParam w2 key => allowed w2 key = true | NExt _ => True end) (ntrace (qrun ks quiet0)).
Proof.
  apply (qrun_keeps (fun s => Forall _ (ntrace s))); try done.
  - intros n s H. by constructor.
  - intros c key s Ha H. unfold ask_native. cbv zeta.
    assert (Forall (fun n => match n with NParam w2 key => allowed w2 key = true | NExt _ => True end)
              (ntrace (note (NParam (q_w2 c) key) s))) as H1 by by constructor.
    destruct (q_param c key); [|done]. destruct (q_enum c key); [done|]. cbn [fst]. unfold remember.
    by destruct (nonnull v && _).
Qed.

(** A question to an old context silences a name for good: when a WebGL 1 context is
    asked for a name of WebGL 2 the answer is null, and from then on every context of the
    page, WebGL 2 ones too, answers null to it, whatever happens in between. *)
Theorem webgl1_blocks_webgl2 (d d' : nat) (c c' : wctx) (key : Z) (s : quiet) (ks : list call) :
  q_lost c = false -> q_w2 c = false -> inZ key GL2_SAFE = true ->
  snd (getParameter (S d) c key s) = Some VNull /\
  snd (getParameter (S d') c' key (qrun ks (fst (getParameter (S d) c key s)))) = Some VNull.
Proof.
  intros Hl Hw Hk. assert (allowed false key = false /\ ((key =? UNMASKED_VENDOR) || (key =? UNMASKED_RENDERER)) = false) as [Ha Hu].
  { assert (forallb (fun k => negb (allowed false k) && negb ((k =? UNMASKED_VENDOR) || (k =? UNMASKED_RENDERER))) GL2_SAFE = true)
      as HF by reflexivity.
    apply existsb_exists in Hk as (x&Hx&->%Z.eqb_eq). apply (proj1 (forallb_forall _ _) HF) in Hx.
    by apply andb_true_iff in Hx as [->%negb_true_iff ->%negb_true_iff]. }
  assert (let '(s1, v) := getParameter (S d) c key s in v = Some VNull /\ seen key s1 = true) as H.
  { rewrite getParameter_S. unfold screen. rewrite Hl, Hw, Ha. destruct (seen key s) eqn:E; [done|].
    assert (from_cache key s = None) as ->.
    { unfold from_cache. destruct (debugInfoCache s); [|done]. by rewrite Hu, andb_false_r. }
    split; [done|]. exact (seen_marked key s). }
  destruct (getParameter (S d) c key s) as [s1 v]. destruct H as [-> H]. cbn [fst snd]. split; [done|].
  by rewrite (seen_null d' c' key _ (seen_forever key ks s1 H)).
Qed.

(** A missing debug extension silences the GPU names: the shim that stands for the
    extension passes for it, so [getParameter] hands the browser a name the context does
    not have; the error marks the name as bad, and from then on every context of the page
    answers null to it, those with the extension too. *)
Theorem shim_poisons (d d' : nat) (c c' : wctx) (key : Z) (s : quiet) (ks : list call) :
  q_lost c = false -> q_ext c DEBUG_INFO = false -> q_enum c key = true ->
  key = UNMASKED_VENDOR \/ key = UNMASKED_RENDERER -> unread s ->
  let s1 := fst (getParameter (S (S d)) c key s) in
  snd (getParameter (S (S d)) c key s) = Some VNull /\ In (NParam (q_w2 c) key) (ntrace s1) /\
  snd (getParameter (S d') c' key (qrun ks s1)) = Some VNull.
Proof.
  cbv zeta. intros Hl He Hq Hk Hs.
  assert (let '(s1, v) := getParameter (S (S d)) c key s in
          v = Some VNull /\ In (NParam (q_w2 c) key) (ntrace s1) /\ seen key s1 = true) as H.
  { rewrite getParameter_S. assert (screen c key s = Need [DEBUG_INFO]) as ->.
    { destruct Hs as (H1&H2&H3). unfold screen. rewrite Hl.
      assert (from_cache key s = None) as ->.
      { unfold from_cache. destruct (debugInfoCache s) as [i|]; [|done]. by rewrite H3. }
      destruct Hk as [-> | ->]; rewrite ?H1, ?H2; unfold allowed; by destruct (q_w2 c). }
    cbn [first_ext]. rewrite getExtension_S. cbv zeta. rewrite String.eqb_refl, He. set (s0 := match debugInfoCache _ with Some _ => _ | None => _ end).
    unfold ask_native. cbv zeta. rewrite Hq.
    assert (In (NParam (q_w2 c) key) (ntrace (mark_bad key (note (NParam (q_w2 c) key) s0)))) as HI by by left.
    destruct (q_param c key); (split_and!; [done|exact HI|exact (seen_marked key _)]). }
  destruct (getParameter (S (S d)) c key s) as [s1 v]. destruct H as (->&HI&H). cbn [fst snd]. split_and!; [done|done|].
  by rewrite (seen_null d' c' key _ (seen_forever key ks s1 H)).
Qed.

(** C21: Asking for the debug extension runs to the end of the stack: the two replaced
    methods call each other, and on a context whose renderer is a label of the masked
    stack nothing ends the calls but the stack itself, with both names asked for at every
    level; the native extension is asked for [2 ^ (d / 2) - 1] times, rounded up, where [d]
    is the room on the stack. *)
Theorem debug_info_explodes (d : nat) (c : wctx) (uv ur : string) (s : quiet) :
  exposes c uv ur -> generic ur = true -> unread s ->
  (ext_calls (fst (getExtension d c DEBUG_INFO s)) + 1 = ext_calls s + 2 ^ ((d + 1) / 2))%nat.
Proof.
  intros Hc Hg Hs. pose proof (masked_levels d c uv ur s Hc Hg Hs) as H.
  destruct (getExtension d c DEBUG_INFO s) as [s1 r]. by destruct H as (_&H&_).
Qed.

(** A real renderer is cached once: on a context whose renderer is a real one the
    extension is answered and both names are cached, at the price of one descent to the
    end of the stack, [(d + 3) / 2] native calls; after that every live context answers
    that renderer without a native call. *)
Theorem debug_info_real (d d' : nat) (c c' : wctx) (uv ur : string) (s : quiet) :
  exposes c uv ur -> generic ur = false -> unread s -> (3 <= d)%nat -> q_lost c' = false ->
  let s1 := fst (getExtension d c DEBUG_INFO s) in
  snd (getExtension d c DEBUG_INFO s) = Some (Some (ENative DEBUG_INFO)) /\ debugInfoCache s1 = Some (mkDbg uv ur true) /\
  (ext_calls s1 = ext_calls s + (d + 3) / 2)%nat /\
  getParameter (S d') c' UNMASKED_RENDERER s1 = (s1, Some (VStr ur)).
Proof.
  cbv zeta. intros Hc Hg Hs Hd Hl. pose proof (real_levels d c uv ur s Hc Hg Hs Hd) as H.
  destruct (getExtension d c DEBUG_INFO s) as [s1 r]. destruct H as (HC&HS&HE&->). cbn [fst snd]. split_and!; [done..|].
  rewrite getParameter_S. unfold screen. rewrite Hl, HS. unfold from_cache. rewrite HC. cbn [native renderer].
  change (true && _) with true. change (UNMASKED_RENDERER =? UNMASKED_VENDOR) with false. cbn iota.
  destruct (ur =s "") eqn:E; [|done]. apply String.eqb_eq in E. subst. discriminate Hg.
Qed.

(** ** Witnesses *)

Module Demo.
Definition ctx (w2 : bool) (ext : bool) (ur : string) : wctx :=
  mkCtx false w2 (fun _ => None) (fun _ => ext)
    (fun k => Some (if k =? UNMASKED_VENDOR then VStr "Acme" else if k =? UNMASKED_RENDERER then VStr ur else vint 8))
    (fun k => negb ext && ((k =? UNMASKED_VENDOR) || (k =? UNMASKED_RENDERER))).

Lemma acme_exposes ur : exposes (ctx true true ur) "Acme" ur.
Proof. by constructor. Qed.

Lemma unread0 : unread quiet0.
Proof. done. Qed.

(** Without the first question the WebGL 2 context answers. *)
Lemma webgl1_blocks_webgl2_witness :
  snd (getParameter 9 (ctx true true "Acme GPU") 0x8824 quiet0) = Some (vint 8) /\
  snd (getParameter 9 (ctx true true "Acme GPU") 0x8824
         (qrun [] (fst (getParameter 9 (ctx false true "Acme GPU") 0x8824 quiet0)))) = Some VNull.
Proof.
  split; [reflexivity|]. refine (proj2 (webgl1_blocks_webgl2 8 8 (ctx false true "Acme GPU") (ctx true true "Acme GPU") 0x8824 quiet0 [] _ _ _)); reflexivity.
Defined.

Lemma shim_poisons_witness :
  snd (getParameter 9 (ctx true true "Acme GPU") UNMASKED_RENDERER quiet0) = Some (VStr "Acme GPU") /\
  snd (getParameter 9 (ctx true true "Acme GPU") UNMASKED_RENDERER
         (qrun [] (fst (getParameter 9 (ctx false false "") UNMASKED_RENDERER quiet0)))) = Some VNull.
Proof.
  split; [reflexivity|].
  refine (proj2 (proj2 (shim_poisons 7 8 (ctx false false "") (ctx true true "Acme GPU") UNMASKED_RENDERER quiet0 [] _ _ _ _ unread0)));
    [reflexivity..|by right].
Defined.

(** A stack of 60 frames: a thousand million calls. *)
Lemma debug_info_explodes_witness :
  (ext_calls (fst (getExtension 60 (ctx true true "Mozilla") DEBUG_INFO quiet0)) + 1 = ext_calls quiet0 + 2 ^ ((60 + 1) / 2))%nat.
Proof. refine (debug_info_explodes 60 _ "Acme" "Mozilla" quiet0 (acme_exposes _) _ unread0). reflexivity. Defined.

Lemma debug_info_real_witness :
  debugInfoCache (fst (getExtension 100 (ctx true true "Acme GPU") DEBUG_INFO quiet0)) = Some (mkDbg "Acme" "Acme GPU" true).
Proof.
  refine (proj1 (proj2 (debug_info_real 100 0 _ (ctx false true "") "Acme" "Acme GPU" quiet0 (acme_exposes _) _ unread0 _ _)));
    [reflexivity|apply Nat.leb_le; reflexivity|reflexivity].
Defined.
End Demo.
