(* ===== verification/GlWebGpu.v ===== *)
(** * WebGPU adapters and audio contexts of the governor ([probe/fe/gr.gl_governor.js])

    [requestWebGpuAdapterSafe] asks the browser once for an adapter and mutes
    the console meanwhile; [AudioContext] is replaced by one shared context.
    The methods of the console are wrapped one over the other: [console] lists
    the requests whose wrappers are in place, the outermost first. *)

From S2P Require Import Prelude.
#[local] Open Scope Z_scope.

(** ** Adapters *)

(** The answer a request's promise resolves with; no skip is the empty string. *)
Inductive outcome :=
| Adapter (a : nat) (skip : string)
| NoAdapter (skip : string).

(** A native call in flight or done: [g_plain] without [powerPreference]; the
    console methods it saved; when it may put them back; its promise; its timer;
    whether the browser is yet to answer. *)
Record greq := mkGreq {
  g_plain : bool;
  g_saved : list nat;
  g_until : Z;
  g_waiting : bool;
  g_answer : option outcome;
  g_timer : option Z
}.

Record gpu := mkGpu {
  secure : bool;
  hasGpu : bool;
  skipAdapter : bool;
  noAdapter : bool;
  adapter : option nat;
  adapterP : option nat;
  console : list nat;
  reqs : list greq
}.
Definition gpu0 (secure hasGpu skip : bool) : gpu := mkGpu secure hasGpu skip false None None [] [].

Definition eta_gpu (s : gpu) : gpu :=
  mkGpu (secure s) (hasGpu s) (skipAdapter s) (noAdapter s) (adapter s) (adapterP s) (console s) (reqs s).
Definition set_none v (s : gpu) : gpu := ltac:(upd eta_gpu noAdapter s v).
Definition set_adapter v (s : gpu) : gpu := ltac:(upd eta_gpu adapter s v).
Definition set_promise v (s : gpu) : gpu := ltac:(upd eta_gpu adapterP s v).
Definition set_console v (s : gpu) : gpu := ltac:(upd eta_gpu console s v).
Definition set_reqs v (s : gpu) : gpu := ltac:(upd eta_gpu reqs s v).

Definition eta_greq (r : greq) : greq := mkGreq (g_plain r) (g_saved r) (g_until r) (g_waiting r) (g_answer r) (g_timer r).
Definition set_waiting v (r : greq) : greq := ltac:(upd eta_greq g_waiting r v).
Definition set_answer v (r : greq) : greq := ltac:(upd eta_greq g_answer r v).
Definition set_timer v (r : greq) : greq := ltac:(upd eta_greq g_timer r v).

(** What a caller gets: an answer at once, or the promise of a request. *)
Inductive reply := Now (o : outcome) | Promise (i : nat).

(** [throws]: the native call throws before it returns a promise. *)
Definition requestWebGpuAdapterSafe (now : Z) (plain throws : bool) (s : gpu) : gpu * reply :=
  if negb (secure s) then (s, Now (NoAdapter "insecure_context")) else
  if negb (hasGpu s) then (s, Now (NoAdapter "no_gpu")) else
  if noAdapter s then (s, Now (NoAdapter "cached_none")) else
  match (if plain then adapter s else None), (if plain then adapterP s else None) with
  | Some a, _ => (s, Now (Adapter a "cached"))
  | None, Some i => (s, Promise i)
  | None, None =>
    if skipAdapter s then (set_none true s, Now (NoAdapter "skipped_policy")) else
    let i := length (reqs s) in
    let r := mkGreq plain (console s) (now + 2000) (negb throws) (if throws then Some (NoAdapter "throw") else None) None in
    let s := s |> set_console (i :: console s) |> set_reqs (reqs s ++ [r]) in
    let s := if throws then set_none true s else s in
    (if plain then set_promise (Some i) s else s, Promise i)
  end.

(** The native promise: an adapter, none, or a rejection. *)
Inductive gpu_end := Found (a : nat) | Null | Rejected.

Definition settle (now : Z) (i : nat) (e : gpu_end) (s : gpu) : gpu :=
  match reqs s !! i with
  | Some r =>
    if g_waiting r then
      let '(s, o) := match e with
                     | Found a => (if g_plain r then set_adapter (Some a) s else s, Adapter a "")
                     | Null => (set_none true s, NoAdapter "null")
                     | Rejected => (set_none true s, NoAdapter "err")
                     end in
      set_reqs (<[i := r |> set_waiting false |> set_answer (Some o) |> set_timer (Some (now + 50))]> (reqs s)) s
    else s
  | None => s
  end.

(** [maybeRestore] *)
Definition maybeRestore (now : Z) (i : nat) (s : gpu) : gpu :=
  match reqs s !! i with
  | Some r =>
    match g_timer r with
    | Some due =>
      if now <? due then s else
      if g_until r <=? now then s |> set_console (g_saved r) |> set_reqs (<[i := set_timer None r]> (reqs s))
      else set_reqs (<[i := set_timer (Some (now + 100)) r]> (reqs s)) s
    | None => s
    end
  | None => s
  end.

(** [navigator.gpu.requestAdapter] answers the adapter or null. *)
Definition requestAdapter_answer (o : outcome) : option nat := match o with Adapter a _ => Some a | NoAdapter _ => None end.

(** A message of the noise is swallowed while a wrapper is in place. *)
Definition isNoise2 (msg : string) : bool :=
  existsb (fun w => contains w (lower msg)) ["webgpu"; "requestadapter"; "context provider"; "gpuweb"; "implementation-status"].
Definition printed (msg : string) (s : gpu) : bool := match console s with [] => true | _ => negb (isNoise2 msg) end.

Inductive gev := Request (now : Z) (plain throws : bool) | Settle (now : Z) (i : nat) (e : gpu_end) | Tick (now : Z) (i : nat).
Definition gstep (ev : gev) (s : gpu) : gpu :=
  match ev with
  | Request now plain throws => fst (requestWebGpuAdapterSafe now plain throws s)
  | Settle now i e => settle now i e s
  | Tick now i => maybeRestore now i s
  end.
Definition gpu_run (evs : list gev) (s : gpu) : gpu := fold_left (fun s ev => gstep ev s) evs s.

(** ** Audio *)

(** The shared context: an offline one, a live one or the stub; live ones run or
    are suspended, and only the browser closes them. *)
Inductive ackind := Offline | Live | Stub.
Inductive acstate := Running | Suspended | Closed.
Record ac := mkAc { ac_id : nat; ac_kind : ackind; ac_state : acstate }.

(** [made] counts the contexts made. *)
Record audio := mkAudio { sharedAc : option ac; made : nat }.

(** [offline]: there is an [OfflineAudioContext] and no order to use a live one,
    and its constructor does not throw; [live]: what the live constructor
    answers. *)
Definition SharedAC (offline : bool) (live : option acstate) (s : audio) : audio * nat :=
  let fresh :=
    if offline then mkAc (made s) Offline Suspended else
    match live with
    | Some Running => mkAc (made s) Live Suspended
    | Some st => mkAc (made s) Live st
    | None => mkAc (made s) Stub Suspended
    end in
  match sharedAc s with
  | Some a => match ac_state a with
              | Closed => (mkAudio (Some fresh) (S (made s)), made s)
              | _ => (s, ac_id a)
              end
  | None => (mkAudio (Some fresh) (S (made s)), made s)
  end.

(** [close] only suspends a running context. *)
Definition ac_close (s : audio) : audio :=
  match sharedAc s with
  | Some a => match ac_state a with Running => mkAudio (Some (mkAc (ac_id a) (ac_kind a) Suspended)) (made s) | _ => s end
  | None => s
  end.

Inductive aev := NewAc (offline : bool) (live : option acstate) | CloseAc | BrowserAc (st : acstate).
Definition audio_step (ev : aev) (s : audio) : audio :=
  match ev with
  | NewAc offline live => fst (SharedAC offline live s)
  | CloseAc => ac_close s
  | BrowserAc st => match sharedAc s with Some a => mkAudio (Some (mkAc (ac_id a) (ac_kind a) st)) (made s) | None => s end
  end.
Definition audio_run (evs : list aev) (s : audio) : audio := fold_left (fun s ev => audio_step ev s) evs s.

(** ** Lemmas *)

#[local] Arguments set_console : simpl never.
#[local] Arguments set_reqs : simpl never.

(** A request whose wrappers are still to be taken off. *)
Definition pending (r : greq) : bool := g_waiting r || match g_timer r with Some _ => true | None => false end.
Definition idle (s : gpu) : Prop := Forall (fun r => pending r = false) (reqs s).

(** The cases of a request. *)
Lemma request_view now plain throws s :
  (exists o, requestWebGpuAdapterSafe now plain throws s = (s, Now o)) \/
  (exists i, plain = true /\ adapterP s = Some i /\ requestWebGpuAdapterSafe now plain throws s = (s, Promise i)) \/
  (requestWebGpuAdapterSafe now plain throws s = (set_none true s, Now (NoAdapter "skipped_policy"))) \/
  (exists s', requestWebGpuAdapterSafe now plain throws s = (s', Promise (length (reqs s))) /\
    (plain = true -> adapterP s = None) /\
    console s' = length (reqs s) :: console s /\
    reqs s' = reqs s ++ [mkGreq plain (console s) (now + 2000) (negb throws) (if throws then Some (NoAdapter "throw") else None) None] /\
    adapterP s' = (if plain then Some (length (reqs s)) else adapterP s) /\
    noAdapter s' = (noAdapter s || throws)).
Proof.
  unfold requestWebGpuAdapterSafe. destruct (secure s); cbn [negb]; [|left; by eexists].
  destruct (hasGpu s); cbn [negb]; [|left; by eexists]. destruct (noAdapter s) eqn:En; [left; by eexists|].
  destruct plain.
  - destruct (adapter s); [left; by eexists|]. destruct (adapterP s) as [i|] eqn:Ep; [right; left; by exists i|].
    destruct (skipAdapter s); [by right; right; left|]. right. right. right. eexists. split; [reflexivity|].
    by destruct throws; split_and!.
  - destruct (skipAdapter s); [by right; right; left|]. right. right. right. eexists. split; [reflexivity|].
    by destruct throws; split_and!.
Qed.

(** Settling and ticking change at most one request and keep what it was. *)
Definition same_req (r r' : greq) : Prop := g_plain r' = g_plain r /\ g_saved r' = g_saved r.

Lemma settle_view now i e s :
  settle now i e s = s \/
  (exists r r', reqs s !! i = Some r /\ g_waiting r = true /\ reqs (settle now i e s) = <[i := r']> (reqs s) /\ same_req r r' /\
    g_until r' = g_until r /\ g_timer r' = Some (now + 50) /\
    console (settle now i e s) = console s /\ adapterP (settle now i e s) = adapterP s).
Proof.
  unfold settle. destruct (reqs s !! i) as [r|] eqn:Er; [|by left]. destruct (g_waiting r) eqn:Ew; [|by left]. right. exists r.
  destruct e as [a| |]; [destruct (g_plain r)| |]; eexists; (split_and!; [done|done|reflexivity|split; reflexivity|reflexivity..]).
Qed.

Lemma tick_view now i s :
  maybeRestore now i s = s \/
  (exists r r', reqs s !! i = Some r /\ pending r = true /\ reqs (maybeRestore now i s) = <[i := r']> (reqs s) /\ same_req r r' /\
    adapterP (maybeRestore now i s) = adapterP s /\
    (console (maybeRestore now i s) = g_saved r \/ console (maybeRestore now i s) = console s /\ pending r' = true)).
Proof.
  unfold maybeRestore. destruct (reqs s !! i) as [r|] eqn:Er; [|by left]. destruct (g_timer r) as [due|] eqn:Et; [|by left].
  destruct (now <? due); [by left|]. right. exists r.
  assert (pending r = true) as Hp by (unfold pending; rewrite Et; apply orb_true_r).
  destruct (g_until r <=? now); eexists; (split_and!; [done|exact Hp|reflexivity|split; reflexivity|reflexivity|]).
  - by left.
  - right. split; [reflexivity|]. unfold pending. cbn. apply orb_true_r.
Qed.

(** *** Single flight *)

(** The plain requests of a page: none, or the one whose promise is kept. *)
Definition flight (s : gpu) : Prop :=
  forall i r, reqs s !! i = Some r -> g_plain r = true -> adapterP s = Some i.

Lemma flight_insert s s' i r r' :
  flight s -> reqs s !! i = Some r -> same_req r r' -> reqs s' = <[i := r']> (reqs s) -> adapterP s' = adapterP s -> flight s'.
Proof.
  intros H Hi [Hp _] HR HA j x Hj Hx. rewrite HA. rewrite HR in Hj.
  apply list_lookup_insert_Some in Hj as [(<-&<-&_)|[_ Hj]]; [|by eapply H]. eapply H; [exact Hi|congruence].
Qed.

Lemma gstep_flight ev s : flight s -> flight (gstep ev s).
Proof.
  intros H. destruct ev as [now plain throws|now i e|now i]; cbn.
  - destruct (request_view now plain throws s) as [[o ->]|[(i&_&_&->)|[->|(s'&->&Hp&_&HR&HA&_)]]]; try done.
    intros j x Hj Hx. cbn [fst] in *. rewrite HR in Hj. rewrite HA. apply lookup_app_Some in Hj as [Hj|[Hle Hj]].
    + pose proof (H j x Hj Hx) as E. destruct plain; [by rewrite (Hp eq_refl) in E|done].
    + apply list_lookup_singleton_Some in Hj as [Hj0 <-]. cbn in Hx. subst. f_equal. lia.
  - destruct (settle_view now i e s) as [->|(r&r'&Hr&_&HR&Hs&_&_&_&HA)]; [done|]. by eapply flight_insert.
  - destruct (tick_view now i s) as [->|(r&r'&Hr&_&HR&Hs&HA&_)]; [done|]. by eapply flight_insert.
Qed.

Lemma run_flight evs s : flight s -> flight (gpu_run evs s).
Proof. revert s. induction evs as [|ev evs IH]; intros s H; [done|]. by apply IH, gstep_flight. Qed.

Lemma gstep_none ev s : noAdapter s = true -> noAdapter (gstep ev s) = true.
Proof.
  intros H. destruct ev as [now plain throws|now i e|now i]; cbn.
  - destruct (request_view now plain throws s) as [[o ->]|[(i&_&_&->)|[->|(s'&->&_&_&_&_&HN)]]]; try done.
    cbn [fst]. by rewrite HN, H.
  - unfold settle. destruct (reqs s !! i) as [r|]; [|done]. destruct (g_waiting r); [|done].
    by destruct e as [a| |]; [destruct (g_plain r)| |].
  - unfold maybeRestore. destruct (reqs s !! i) as [r|]; [|done]. destruct (g_timer r); [|done].
    destruct (now <? z); [done|]. by destruct (g_until r <=? now).
Qed.

Lemma run_none evs s : noAdapter s = true -> noAdapter (gpu_run evs s) = true.
Proof. revert s. induction evs as [|ev evs IH]; intros s H; [done|]. by apply IH, gstep_none. Qed.

Lemma gstep_host ev s : secure (gstep ev s) = secure s /\ hasGpu (gstep ev s) = hasGpu s.
Proof.
  destruct ev as [now plain throws|now i e|now i]; cbn.
  - unfold requestWebGpuAdapterSafe. by repeat case_match.
  - unfold settle. by repeat case_match; simplify_eq.
  - unfold maybeRestore. by repeat case_match.
Qed.

Lemma run_host evs s : secure (gpu_run evs s) = secure s /\ hasGpu (gpu_run evs s) = hasGpu s.
Proof.
  revert s. induction evs as [|ev evs IH]; intros s; [done|].
  change (gpu_run (ev :: evs) s) with (gpu_run evs (gstep ev s)). destruct (IH (gstep ev s)) as [-> ->]. apply gstep_host.
Qed.

(** The promise kept is one of the requests. *)
Definition promised (s : gpu) : Prop := forall k, adapterP s = Some k -> (k < length (reqs s))%nat.

Lemma gstep_promised ev s : promised s -> promised (gstep ev s).
Proof.
  intros H. destruct ev as [now plain throws|now i e|now i]; cbn.
  - destruct (request_view now plain throws s) as [[o ->]|[(i&_&_&->)|[->|(s'&->&_&_&HR&HA&_)]]]; try done.
    cbn [fst]. intros k. rewrite HR, HA, length_app. cbn. destruct plain; [intros [= <-]; lia|]. intros Hk%H. lia.
  - destruct (settle_view now i e s) as [->|(r&r'&_&_&HR&_&_&_&_&HA)]; [done|]. intros k. rewrite HR, HA, length_insert. apply H.
  - destruct (tick_view now i s) as [->|(r&r'&_&_&HR&_&HA&_)]; [done|]. intros k. rewrite HR, HA, length_insert. apply H.
Qed.

Lemma run_promised evs s : promised s -> promised (gpu_run evs s).
Proof. revert s. induction evs as [|ev evs IH]; intros s H; [done|]. by apply IH, gstep_promised. Qed.

(** A promise of a new request is a native call. *)
Lemma native_call now plain s : promised s ->
  snd (requestWebGpuAdapterSafe now plain false s) = Promise (length (reqs s)) ->
  console (gstep (Request now plain false) s) = length (reqs s) :: console s /\
  reqs (gstep (Request now plain false) s) = reqs s ++ [mkGreq plain (console s) (now + 2000) true None None].
Proof.
  intros Hv. cbn [gstep]. destruct (request_view now plain false s) as [[o ->]|[(k&_&E&->)|[->|(s'&->&_&HC&HR&_)]]]; cbn [fst snd]; try done.
  intros [= ->]. apply Hv in E. lia.
Qed.

(** *** The console *)

(** The wrappers of [i] are in place, and every request to come back puts them
    back. *)
Definition stuck (i : nat) (s : gpu) : Prop :=
  i ∈ console s /\ forall k r, reqs s !! k = Some r -> pending r = true -> i ∈ g_saved r.

Lemma stuck_insert i s s' k r r' :
  stuck i s -> reqs s !! k = Some r -> pending r = true -> reqs s' = <[k := r']> (reqs s) -> same_req r r' ->
  (console s' = console s \/ console s' = g_saved r) -> stuck i s'.
Proof.
  intros [H1 H2] Hk Hp HR [_ Hs] HC. split.
  - destruct HC as [-> | ->]; [done|by eapply H2].
  - intros j x Hj Hx. rewrite HR in Hj. apply list_lookup_insert_Some in Hj as [(<-&<-&_)|[_ Hj]]; [rewrite Hs|]; by eapply H2.
Qed.

Lemma gstep_stuck i ev s : stuck i s -> stuck i (gstep ev s).
Proof.
  intros H. destruct ev as [now plain throws|now k e|now k]; cbn.
  - destruct (request_view now plain throws s) as [[o ->]|[(j&_&_&->)|[->|(s'&->&_&HC&HR&_)]]]; try done.
    destruct H as [H1 H2]. cbn [fst]. split; [rewrite HC; by right|].
    intros j x Hj Hx. rewrite HR in Hj. apply lookup_app_Some in Hj as [Hj|[_ Hj]]; [by eapply H2|].
    by apply list_lookup_singleton_Some in Hj as [_ <-].
  - destruct (settle_view now k e s) as [->|(r&r'&Hr&Hw&HR&Hs&_&_&HC&_)]; [done|].
    eapply stuck_insert; [exact H|exact Hr| |exact HR|exact Hs|by left]. unfold pending. by rewrite Hw.
  - destruct (tick_view now k s) as [->|(r&r'&Hr&Hp&HR&Hs&_&HC)]; [done|].
    eapply stuck_insert; [exact H|exact Hr|exact Hp|exact HR|exact Hs|]. destruct HC as [HC|[HC _]]; [by right|by left].
Qed.

Lemma run_stuck i evs s : stuck i s -> stuck i (gpu_run evs s).
Proof. revert s. induction evs as [|ev evs IH]; intros s H; [done|]. by apply IH, gstep_stuck. Qed.

Lemma stuck_mute i s msg : stuck i s -> isNoise2 msg = true -> printed msg s = false.
Proof. intros [H _] Hm. unfold printed. rewrite Hm. by destruct (console s); [apply not_elem_of_nil in H|]. Qed.

Lemma settle_at now i e s r : reqs s !! i = Some r -> g_waiting r = true ->
  let s' := settle now i e s in
  exists r', reqs s' = <[i := r']> (reqs s) /\ g_saved r' = g_saved r /\ g_until r' = g_until r /\
    g_timer r' = Some (now + 50) /\ g_waiting r' = false /\ console s' = console s.
Proof.
  intros Hr Hw. unfold settle. rewrite Hr, Hw.
  destruct e as [a| |]; [destruct (g_plain r)| |]; eexists; split_and!; reflexivity.
Qed.

Lemma tick_at now i s r due : reqs s !! i = Some r -> g_timer r = Some due -> due <= now -> g_until r <= now ->
  reqs (maybeRestore now i s) = <[i := set_timer None r]> (reqs s) /\ console (maybeRestore now i s) = g_saved r.
Proof.
  intros Hr Ht H1 H2. unfold maybeRestore. rewrite Hr, Ht.
  by rewrite (proj2 (Z.ltb_ge now due) H1), (proj2 (Z.leb_le _ _) H2).
Qed.

(** Native calls made while another request is out, or that throw. *)
Definition overlaps (ev : gev) (s : gpu) : bool :=
  match ev with
  | Request now plain throws =>
    match snd (requestWebGpuAdapterSafe now plain throws s) with
    | Promise i => Nat.eqb i (length (reqs s)) && (throws || existsb pending (reqs s))
    | Now _ => false
    end
  | _ => false
  end.
Fixpoint serial (evs : list gev) (s : gpu) : bool :=
  match evs with [] => true | ev :: evs => negb (overlaps ev s) && serial evs (gstep ev s) end.

Definition clear (s : gpu) : Prop :=
  (forall k r, reqs s !! k = Some r -> pending r = true -> g_saved r = []) /\
  ((forall k r, reqs s !! k = Some r -> pending r = false) -> console s = []).

Lemma idle_lookup s : idle s <-> forall k r, reqs s !! k = Some r -> pending r = false.
Proof. unfold idle. rewrite Forall_lookup. done. Qed.

Lemma clear_insert s s' k r r' :
  clear s -> reqs s !! k = Some r -> pending r = true -> reqs s' = <[k := r']> (reqs s) -> same_req r r' ->
  (console s' = g_saved r \/ console s' = console s /\ pending r' = true) -> clear s'.
Proof.
  intros [H1 H2] Hk Hp HR [_ Hs] HC. split.
  - intros j x Hj Hx. rewrite HR in Hj. apply list_lookup_insert_Some in Hj as [(<-&<-&_)|[_ Hj]]; [rewrite Hs|]; by eapply H1.
  - intros HI. destruct HC as [->|[_ Hp']]; [by eapply H1|]. specialize (HI k r'). rewrite HR in HI.
    rewrite list_lookup_insert_eq in HI by by eapply lookup_lt_Some. by rewrite HI in Hp'.
Qed.

Lemma gstep_clear ev s : overlaps ev s = false -> clear s -> clear (gstep ev s).
Proof.
  intros Ho H. destruct ev as [now plain throws|now k e|now k]; cbn.
  - cbn in Ho. destruct (request_view now plain throws s) as [[o E]|[(j&_&_&E)|[E|(s'&E&_&HC&HR&_)]]]; rewrite E in *; try done.
    cbn [fst snd] in *. rewrite Nat.eqb_refl in Ho. apply orb_false_iff in Ho as [-> Ho].
    destruct H as [H1 H2]. assert (console s = []) as Hc.
    { apply H2. intros k r Hk. apply not_true_iff_false. intros Hp. apply not_true_iff_false in Ho. apply Ho, existsb_exists.
      exists r. split; [|done]. by eapply list_elem_of_In, list_elem_of_lookup_2. }
    split.
    + intros j x Hj Hx. rewrite HR in Hj. apply lookup_app_Some in Hj as [Hj|[_ Hj]]; [by eapply H1|].
      by apply list_lookup_singleton_Some in Hj as [_ <-].
    + intros HI. specialize (HI (length (reqs s))). rewrite HR, lookup_app_r, Nat.sub_diag in HI by done. by specialize (HI _ eq_refl).
  - destruct (settle_view now k e s) as [->|(r&r'&Hr&Hw&HR&Hs&_&Ht&HC&_)]; [done|].
    eapply clear_insert; [exact H|exact Hr| |exact HR|exact Hs|right]; unfold pending; [by rewrite Hw|].
    split; [done|]. by rewrite Ht, orb_true_r.
  - destruct (tick_view now k s) as [->|(r&r'&Hr&Hp&HR&Hs&_&HC)]; [done|]. by eapply clear_insert.
Qed.

(** *** Audio *)

(** The shared context [i] has not been closed. *)
Definition shared (i : nat) (s : audio) : Prop := exists a, sharedAc s = Some a /\ ac_id a = i /\ ac_state a <> Closed.

Lemma audio_step_shared i ev s : (forall st, ev = BrowserAc st -> st <> Closed) -> shared i s -> shared i (audio_step ev s).
Proof.
  intros He (a&Ha&Hi&Hs). destruct ev as [off live| |st]; cbn; rewrite ?Ha.
  - unfold SharedAC. rewrite Ha. destruct (ac_state a) eqn:E; [exists a; by rewrite E..|done].
  - unfold ac_close. rewrite Ha. destruct (ac_state a) eqn:E; [eexists; by split_and!|exists a; by rewrite E..].
  - eexists. split_and!; [done|done|]. by apply He.
Qed.

(** ** Theorems *)

(** C35: One native call serves the page: over every sequence of requests, answers and
    timers at most one call of the browser's [requestAdapter] is made for requests without
    a power preference, and every such request that gets a promise gets the promise of
    that call. *)
Theorem webgpu_single_flight (evs : list gev) (sec has skip : bool) (i j : nat) (r : greq) (now : Z) (throws : bool) :
  let s := gpu_run evs (gpu0 sec has skip) in
  reqs s !! i = Some r -> g_plain r = true ->
  (forall r', reqs s !! j = Some r' -> g_plain r' = true -> j = i) /\
  (snd (requestWebGpuAdapterSafe now true throws s) = Promise j -> j = i).
Proof.
  cbv zeta. intros Hi Hp. assert (flight (gpu_run evs (gpu0 sec has skip))) as HF by by apply run_flight.
  pose proof (HF i r Hi Hp) as HA. split.
  - intros r' Hj Hp'. pose proof (HF j r' Hj Hp') as HB. congruence.
  - destruct (request_view now true throws (gpu_run evs (gpu0 sec has skip))) as [[o ->]|[(k&_&E&->)|[->|(s'&->&Hn&_)]]]; cbn [snd]; try done.
    + intros [= ->]. congruence.
    + by rewrite (Hn eq_refl) in HA.
Qed.

(** A failed request hides the adapter the page has: while an adapter is cached the
    plain requests answer it, until the browser denies a request, with a power preference
    say; from then on they answer that there is none, for the rest of the page. *)
Theorem cached_adapter_hidden (s : gpu) (a i : nat) (r : greq) (e : gpu_end) (t now now' : Z) (throws throws' : bool) (evs : list gev) :
  secure s = true -> hasGpu s = true -> noAdapter s = false -> adapter s = Some a ->
  reqs s !! i = Some r -> g_waiting r = true -> (forall b, e <> Found b) ->
  snd (requestWebGpuAdapterSafe now true throws s) = Now (Adapter a "cached") /\
  snd (requestWebGpuAdapterSafe now' true throws' (gpu_run evs (settle t i e s))) = Now (NoAdapter "cached_none").
Proof.
  intros Hs Hg Hn Ha Hr Hw He. split; unfold requestWebGpuAdapterSafe; [by rewrite Hs, Hg, Hn, Ha|].
  assert (noAdapter (settle t i e s) = true) as HN.
  { unfold settle. rewrite Hr, Hw. destruct e as [b| |]; [by destruct (He b)|done..]. }
  rewrite (run_none evs _ HN). destruct (run_host evs (settle t i e s)) as [-> ->].
  destruct (gstep_host (Settle t i e) s) as [E1 E2]. cbn in E1, E2. by rewrite E1, E2, Hs, Hg.
Qed.

(** Two overlapping requests mute the console for good: when a second native call is
    made before the first has put the console back, the first to finish puts the original
    methods back and the second the wrappers of the first; from then on every message that
    looks like noise is swallowed, whatever happens. *)
Theorem overlap_mutes_forever (evs0 evs : list gev) (sec has skip p1 p2 : bool) (e1 e2 : gpu_end)
    (t1 t2 a1 a2 u1 u2 : Z) (msg : string) :
  let s := gpu_run evs0 (gpu0 sec has skip) in
  let i := length (reqs s) in
  let s1 := gstep (Request t1 p1 false) s in
  idle s ->
  snd (requestWebGpuAdapterSafe t1 p1 false s) = Promise i ->
  snd (requestWebGpuAdapterSafe t2 p2 false s1) = Promise (S i) ->
  t1 + 2000 <= u1 -> a1 + 50 <= u1 -> t2 + 2000 <= u2 -> a2 + 50 <= u2 -> isNoise2 msg = true ->
  printed msg (gpu_run ([Request t2 p2 false; Settle a1 i e1; Settle a2 (S i) e2; Tick u1 i; Tick u2 (S i)] ++ evs) s1) = false.
Proof.
  cbv zeta. set (s := gpu_run evs0 _). set (i := length (reqs s)). intros HI H1 H2 Hu1 Ha1 Hu2 Ha2 Hm.
  pose proof (proj1 (idle_lookup _) HI) as HI2.
  assert (promised s) as Hv by by apply run_promised.
  pose proof (native_call t1 p1 s Hv H1) as (C1&R1). pose proof (gstep_promised (Request t1 p1 false) s Hv) as Hv1.
  set (s1 := gstep (Request t1 p1 false) s) in *. assert (length (reqs s1) = S i) as L1 by (rewrite R1, length_app; cbn; lia).
  rewrite <- L1 in H2. pose proof (native_call t2 p2 s1 Hv1 H2) as (C2&R2). rewrite L1 in *.
  unfold gpu_run. rewrite fold_left_app. cbn [fold_left]. fold (gpu_run evs). set (s2 := gstep (Request t2 p2 false) s1) in *.
  eapply stuck_mute; [|exact Hm]. apply (run_stuck i). clear Hm msg evs Hv Hv1 H1 H2. cbn [gstep].
  assert (i < length (reqs s1))%nat as Hlt by lia.
  assert (reqs s2 !! i = Some (mkGreq p1 (console s) (t1 + 2000) true None None)) as Ei.
  { rewrite R2, lookup_app_l, R1, lookup_app_r by lia. by rewrite Nat.sub_diag. }
  assert (reqs s2 !! S i = Some (mkGreq p2 (i :: console s) (t2 + 2000) true None None)) as Ej.
  { by rewrite R2, <- L1, lookup_app_r, Nat.sub_diag, C1 by lia. }
  assert (forall k r, k <> i -> k <> S i -> reqs s2 !! k = Some r -> pending r = false) as Ho.
  { intros k r Hk1 Hk2 Hk. rewrite R2, R1 in Hk. pose proof (lookup_lt_Some _ _ _ Hk) as Hl. rewrite !length_app in Hl. cbn in Hl.
    rewrite !lookup_app_l in Hk by (rewrite ?length_app; cbn; lia). by eapply HI2. }
  clearbody s2. destruct (settle_at a1 i e1 s2 _ Ei eq_refl) as (ri&R3&S3&U3&T3&W3&_). set (s3 := settle a1 i e1 s2) in *.
  assert (reqs s3 !! S i = Some (mkGreq p2 (i :: console s) (t2 + 2000) true None None)) as Ej3 by (rewrite R3, list_lookup_insert_ne; [done|lia]).
  destruct (settle_at a2 (S i) e2 s3 _ Ej3 eq_refl) as (rj&R4&S4&U4&T4&W4&_). set (s4 := settle a2 (S i) e2 s3) in *.
  assert (reqs s4 !! i = Some ri) as Ei4.
  { rewrite R4, list_lookup_insert_ne, R3 by lia. apply list_lookup_insert_eq. by eapply lookup_lt_Some. }
  destruct (tick_at u1 i s4 ri _ Ei4 T3 Ha1 ltac:(rewrite U3; cbn; lia)) as [R5 _]. set (s5 := maybeRestore u1 i s4) in *.
  assert (reqs s5 !! S i = Some rj) as Ej5.
  { rewrite R5, list_lookup_insert_ne, R4 by lia. apply list_lookup_insert_eq. by eapply lookup_lt_Some. }
  destruct (tick_at u2 (S i) s5 rj _ Ej5 T4 Ha2 ltac:(rewrite U4; cbn; lia)) as [R6 C6]. set (s6 := maybeRestore u2 (S i) s5) in *.
  split; [rewrite C6, S4; by left|]. intros k r Hk Hp. exfalso. rewrite R6, R5, R4, R3 in Hk.
  apply list_lookup_insert_Some in Hk as [(<-&<-&_)|[N1 Hk]]; [unfold pending in Hp; cbn in Hp; by rewrite W4 in Hp|].
  apply list_lookup_insert_Some in Hk as [(<-&<-&_)|[N2 Hk]]; [unfold pending in Hp; cbn in Hp; by rewrite W3 in Hp|].
  rewrite !list_lookup_insert_ne in Hk by done. by rewrite (Ho k r) in Hp by done.
Qed.

(** Requests that follow each other give the console back: when no native call is made
    while another one is out, and none throws, the console is the original one whenever no
    request is out, so every message is printed. *)
Theorem console_restored (evs : list gev) (sec has skip : bool) (msg : string) :
  serial evs (gpu0 sec has skip) = true ->
  idle (gpu_run evs (gpu0 sec has skip)) -> printed msg (gpu_run evs (gpu0 sec has skip)) = true.
Proof.
  intros HS HI. assert (clear (gpu_run evs (gpu0 sec has skip))) as [_ HC].
  { assert (clear (gpu0 sec has skip)) as H0 by (split; [intros k r [=]|done]).
    revert HS H0. clear. generalize (gpu0 sec has skip). induction evs as [|ev evs IH]; intros s HS H; [done|].
    cbn in HS. apply andb_true_iff in HS as [Ho%negb_true_iff HS]. by apply IH; [|apply gstep_clear]. }
  pose proof (proj1 (idle_lookup _) HI) as HI2. unfold printed. by rewrite (HC HI2).
Qed.

(** One audio context serves the page: as long as the browser does not close it, every
    [AudioContext] a script constructs is the one shared object, whatever scripts close and
    whatever the constructors would answer. *)
Theorem one_audio_context (evs : list aev) (off off' : bool) (live live' : option acstate) (s : audio) :
  forallb (fun ev => match ev with BrowserAc Closed => false | _ => true end) evs = true ->
  live <> Some Closed ->
  snd (SharedAC off' live' (audio_run evs (fst (SharedAC off live s)))) = snd (SharedAC off live s).
Proof.
  intros HE Hl. assert (shared (snd (SharedAC off live s)) (fst (SharedAC off live s))) as H.
  { unfold SharedAC. assert (forall a : ac, ac_id a = made s -> ac_state a <> Closed ->
      shared (made s) (mkAudio (Some a) (S (made s)))) as HF by (intros a H1 H2; by exists a).
    assert (forall fresh, ac_id fresh = made s -> ac_state fresh <> Closed ->
      shared (snd (match sharedAc s with
              | Some a => match ac_state a with Closed => (mkAudio (Some fresh) (S (made s)), made s) | _ => (s, ac_id a) end
              | None => (mkAudio (Some fresh) (S (made s)), made s) end))
             (fst (match sharedAc s with
              | Some a => match ac_state a with Closed => (mkAudio (Some fresh) (S (made s)), made s) | _ => (s, ac_id a) end
              | None => (mkAudio (Some fresh) (S (made s)), made s) end))) as HG.
    { intros fresh H1 H2. destruct (sharedAc s) as [a|] eqn:Ea; [|by apply HF].
      destruct (ac_state a) eqn:Es; [exists a; by rewrite Es..|by apply HF]. }
    cbv zeta. apply HG; destruct off; try done; destruct live as [[]|]; done. }
  assert (shared (snd (SharedAC off live s)) (audio_run evs (fst (SharedAC off live s)))) as (a&Ha&Hi&Hs).
  { revert HE H. generalize (snd (SharedAC off live s)) (fst (SharedAC off live s)). clear.
    induction evs as [|ev evs IH]; intros i s HE H; [done|]. cbn in HE. apply andb_true_iff in HE as [H1 H2].
    apply (IH i); [done|]. apply audio_step_shared; [|done]. by intros st -> ->. }
  rewrite <- Hi. revert Ha Hs. generalize (audio_run evs (fst (SharedAC off live s))). intros s' Ha Hs.
  unfold SharedAC. rewrite Ha. by destruct (ac_state a).
Qed.

(** ** Witnesses *)

Module Demo.
(** An adapter found, then a request with a power preference that is denied. *)
Definition found : list gev := [Request 0 true false; Settle 5 0 (Found 7); Request 10 false false].

Lemma webgpu_single_flight_witness :
  snd (requestWebGpuAdapterSafe 3 true false (gpu_run [Request 0 true false] (gpu0 true true false))) = Promise 0 /\
  (forall j, snd (requestWebGpuAdapterSafe 3 true false (gpu_run [Request 0 true false] (gpu0 true true false))) = Promise j -> j = 0%nat).
Proof.
  split; [reflexivity|]. intros j.
  refine (proj2 (webgpu_single_flight [Request 0 true false] true true false 0 j (mkGreq true [] 2000 true None None) 3 false _ _)); reflexivity.
Defined.

Lemma cached_adapter_hidden_witness :
  snd (requestWebGpuAdapterSafe 11 true false (gpu_run found (gpu0 true true false))) = Now (Adapter 7 "cached") /\
  snd (requestWebGpuAdapterSafe 99 true false (gpu_run [Tick 5000 1] (settle 20 1 Null (gpu_run found (gpu0 true true false)))))
    = Now (NoAdapter "cached_none").
Proof.
  refine (cached_adapter_hidden _ 7 1 (mkGreq false [0%nat] 2010 true None None) Null 20 11 99 false false [Tick 5000 1] _ _ _ _ _ _ _);
    first [reflexivity | discriminate].
Defined.

(** Two requests a second apart. *)
Lemma overlap_mutes_forever_witness :
  printed "WebGPU is experimental"
    (gpu_run ([Request 1000 false false; Settle 1500 0 (Found 1); Settle 1600 1 (Found 2); Tick 2050 0; Tick 3100 1] ++ [])
       (gstep (Request 0 false false) (gpu_run [] (gpu0 true true false)))) = false.
Proof.
  refine (overlap_mutes_forever [] [] true true false false false (Found 1) (Found 2) 0 1000 1500 1600 2050 3100 _ _ _ _ _ _ _ _ _);
    [constructor|reflexivity|reflexivity|lia..|reflexivity].
Defined.

Definition in_turn : list gev :=
  [Request 0 false false; Settle 500 0 (Found 1); Tick 2050 0; Request 2100 true false; Settle 2200 1 Null; Tick 2250 1; Tick 4150 1].

Lemma console_restored_witness : printed "WebGPU is experimental" (gpu_run in_turn (gpu0 true true false)) = true.
Proof. refine (console_restored in_turn true true false _ _ _); [reflexivity|repeat constructor]. Defined.

Lemma one_audio_context_witness :
  snd (SharedAC false None (audio_run [CloseAc; NewAc true None; BrowserAc Running] (fst (SharedAC true None (mkAudio None 0))))) = 0%nat.
Proof. refine (one_audio_context _ true false None None (mkAudio None 0) _ _); [reflexivity|discriminate]. Defined.
End Demo.
