(* ===== verification/OpsReport.v ===== *)
(** * Operations reports ([probe/fe/ops_report.js]): what is sent

    [GROps.report] decides whether an event is sent to the server: whether
    reports are enabled, the cap and the sampling rate of its code, the budget
    of a minute.  [out] are the bodies handed to [sendBeacon] or [fetch], the
    last one first.  Codes are none of the names of [Object.prototype]. *)

From S2P Require Import Prelude JsVal Json Uri Window.
From Stdlib Require Import QArith.
#[local] Open Scope Z_scope.

Definition ENDPOINT : string := "/v1/ops/client_event".
Definition MAX_PER_MIN : nat := 80.
Definition CONSOLE_DEDUP_MS : Z := 30000.

(** ** State *)

Record body := mkBody {
  b_url : string;
  b_code : string;
  b_stage : string;
  b_severity : string;
  b_ts : Z;
  b_site : val;
  b_vt : string;
  b_session : string;
  b_version : string;
  b_inject : val;
  b_engine : string;
  b_ua : string;
  b_detail : val;
  b_rate : Q
}.

Record ops := mkOpsState {
  owin : Win;
  sent : list Z;
  halted : bool;
  seenConsoleKeys : list (string * Z);
  sampleSeen : list string;
  codeCaps : gmap string Z;
  lastGlLost : Z;
  out : list body
}.
Definition ops0 (w : Win) : ops := mkOpsState w [] false [] [] ∅ 0 [].

Definition eta_ops (s : ops) : ops :=
  mkOpsState (owin s) (sent s) (halted s) (seenConsoleKeys s) (sampleSeen s) (codeCaps s) (lastGlLost s) (out s).
Definition set_owin v (s : ops) : ops := ltac:(upd eta_ops owin s v).
Definition set_sent v (s : ops) : ops := ltac:(upd eta_ops sent s v).
Definition set_halted v (s : ops) : ops := ltac:(upd eta_ops halted s v).
Definition set_console v (s : ops) : ops := ltac:(upd eta_ops seenConsoleKeys s v).
Definition set_sampled v (s : ops) : ops := ltac:(upd eta_ops sampleSeen s v).
Definition set_caps v (s : ops) : ops := ltac:(upd eta_ops codeCaps s v).
Definition set_gl_lost v (s : ops) : ops := ltac:(upd eta_ops lastGlLost s v).
Definition set_out v (s : ops) : ops := ltac:(upd eta_ops out s v).

(** What the page reads of the browser: the user agent, the two Gecko
    capabilities, the terminal ids of [GRStorage] and [localStorage], the path;
    the clock and [Math.random()]. *)
Record oenv := mkOenv {
  o_now : Z;
  o_rnd : Q;
  o_ua : string;
  o_moz : bool;
  o_css_moz : bool;
  o_stored : list val;
  o_path : string
}.

Definition boot (w : Win) : val := jor (gget "__GR_BOOT__" w) empty_obj.

(** [v === 0 || v === false], [v === 1 || v === true] *)
Definition off (v : val) : bool := match v with VNum n => num_eqb n (num_Z 0) | VBool b => negb b | _ => false end.
Definition on (v : val) : bool := match v with VNum n => num_eqb n (num_Z 1) | VBool b => b | _ => false end.

Definition clientEventsEnabled (s : ops) : bool :=
  let flag := gget "__GR_OPS_CLIENT_EVENTS__" (owin s) in
  let b := boot (owin s) in
  if off flag then false else
  if on flag then true else
  if off (prop b "ops_client_events") || off (prop b "opsClientEvents") ||
     (lower (to_string_or_empty (prop b "ops_client_events")) =s "off") then false
  else negb (halted s).

(** ** What a body says *)

(** [b.replace(/\/$/, "")] *)
Fixpoint drop_slash (s : string) : string :=
  match s with
  | EmptyString => EmptyString
  | String c EmptyString => if Ascii.eqb c "/" then EmptyString else s
  | String c s' => String c (drop_slash s')
  end.

Definition apiBase (w : Win) : string :=
  let b := boot w in
  let p := drop_slash (to_string (jor (prop b "apiBase") (jor (prop b "first_party_path") (jor (gget "__GR_API_BASE__" w) (VStr "/g5"))))) in
  if p =s "" then "/g5" else p.

Definition prune (now : Z) (s : ops) : ops := set_sent (List.filter (fun t => now - t <? 60000) (sent s)) s.

Fixpoint ua_fold (s : string) (h : Z) : Z :=
  match s with
  | EmptyString => h
  | String c s' => ua_fold s' (to_int32 (to_int32 (Z.lxor (to_int32 h) (Z.of_N (N_of_ascii c))) * 16777619))
  end.
Definition uaHash (e : oenv) : string :=
  let h := "00000000" +:+ to_radix 16 (ua_fold (o_ua e) 2166136261 mod 2 ^ 32) in
  sdrop (String.length h - 8) h.

Definition has_any (ws : list string) (s : string) : bool := existsb (fun w => contains w s) ws.
Definition isGeckoEngine (e : oenv) : bool :=
  let ua := o_ua e in
  let fx := has_any ["Firefox/"; "FxiOS/"] ua in
  let gecko := contains "Gecko/" ua && negb (contains "like Gecko" ua) in
  o_moz e || (o_css_moz e && (fx || gecko)) || fx || (gecko && negb (has_any ["Chrome/"; "Chromium/"; "Edg/"; "OPR/"] ua)).

Definition engineFamily (e : oenv) : string :=
  let ua := o_ua e in
  if isGeckoEngine e then "gecko" else
  if contains "AppleWebKit/605" ua && contains "Safari/" ua && negb (has_any ["Chrome/"; "Chromium/"; "Edg/"; "OPR/"] ua) then "webkit" else
  if has_any ["Chrome/"; "Chromium/"; "Edg/"; "OPR/"; "CriOS/"] ua then "blink" else
  if contains "AppleWebKit/" ua && contains "Safari/" ua && negb (has_any ["Chrome/"; "Chromium/"; "CriOS/"] ua) then "webkit" else
  "unknown".

Definition productVersion (w : Win) : string :=
  let b := boot w in
  to_string (jor (prop b "version") (jor (prop b "product_version") (jor (gget "__GR_PRODUCT_VERSION__" w) (VStr "")))).

Fixpoint first_id (l : list val) : option string :=
  match l with
  | [] => None
  | v :: l' => let t := trim (to_string v) in if nonnull v && negb (t =s "") then Some (stake 96 t) else first_id l'
  end.

(** The id found is written back into [window]. *)
Definition resolveVisitorTerminalId (e : oenv) (w : Win) : Win * string :=
  let b := boot w in
  match first_id ([gget "__GR_VTID__" w; prop b "visitor_terminal_id"; prop b "visitorTerminalId"; prop b "vt";
                   gget "__GR_VISITOR_TERMINAL_ID__" w] ++ o_stored e) with
  | Some t => (gset "__GR_VTID__" (VStr t) w, t)
  | None => (w, "")
  end.

Definition resolveSessionId (w : Win) : string :=
  let g := gget "__GR_BOOT__" w in
  stake 96 (to_string (jor (gget "__GR_SESSION_ID__" w) (jor (gget "__GR_CYCLE_ID__" w) (jor (jand g (prop g "session_id")) (VStr ""))))).

(** ** Sampling *)

Definition SAMPLE_RATES : list (string * Q) :=
  [("cycle_remint", 2#100); ("vt_mint", 4#100); ("fe_diag", 2#100); ("hard_sla_retry", 1#10); ("need_hard_anchor", 1#10);
   ("privacy_guard", 2#100); ("multipath_done", 5#100); ("upload_network", 2#10); ("upload_upstream_closed", 25#100);
   ("rpa_quiet", 1#10); ("upload_soft_exhausted", 2#10); ("upload_deepen_exhausted", 25#100); ("upload_hard_exhausted", 35#100);
   ("fe_pack_reload", 3#100); ("wave2_defer_b10", 8#100); ("b10_content_gate", 15#100); ("upload_4xx", 15#100);
   ("wave2_empty", 12#100); ("gap_t_retry", 2#10); ("gap_c_retry", 35#100); ("gap_c_timeout", 6#10); ("gap_b_apply", 2#10);
   ("gap_satisfied", 15#100); ("gap_supervisor_start", 1); ("gap_supervisor_stop", 1); ("cool_without_silicon", 2#10);
   ("upload_seal_fail", 35#100); ("seal_wasm_fail", 25#100); ("seal_wasm_unsupported", 1); ("upload_recovered", 1);
   ("upload_session_summary", 1); ("b10x_must_land_scheduled", 15#100)]%Q.

Definition CODE_CAPS : list (string * Z) :=
  [("cycle_remint", 1); ("vt_mint", 2); ("upload_4xx", 6); ("rpa_quiet", 3); ("upload_soft_exhausted", 4);
   ("upload_deepen_exhausted", 4); ("upload_hard_exhausted", 4); ("fe_pack_reload", 2); ("wave2_defer_b10", 2);
   ("b10_content_gate", 3); ("gap_t_retry", 8); ("gap_c_retry", 10); ("gap_c_timeout", 6); ("gap_b_apply", 8);
   ("gap_satisfied", 6); ("gap_supervisor_start", 2); ("gap_supervisor_stop", 2); ("fe_console_error", 5);
   ("upload_network", 8); ("upload_upstream_closed", 8); ("wave2_empty", 2); ("upload_recovered", 12);
   ("upload_seal_fail", 4); ("seal_wasm_fail", 3); ("seal_wasm_unsupported", 2); ("upload_5xx", 12)].

Fixpoint find_key {A} (k : string) (l : list (string * A)) : option A :=
  match l with [] => None | (k', v) :: l' => if k =s k' then Some v else find_key k l' end.

Definition counted (c : string) (s : ops) : Z := default 0 (codeCaps s !! c).

(** The cap of a code counts its reports. *)
Definition under_cap (c : string) (s : ops) : ops * bool :=
  match find_key c CODE_CAPS with
  | Some cap => let n := counted c s + 1 in (set_caps (<[c := n]> (codeCaps s)) s, negb (cap <? n))
  | None => (s, true)
  end.

Definition shouldSample (rnd : Q) (c : string) (s : ops) : ops * bool :=
  let '(s, ok) := under_cap c s in
  if negb ok then (s, false) else
  match find_key c SAMPLE_RATES with
  | None => (s, true)
  | Some rate =>
    if Qle_bool 1 rate then (s, true) else
    if negb (mem_str c (sampleSeen s)) then (set_sampled (c :: sampleSeen s) s, true) else (s, Qltb rnd rate)
  end.

(** ** [report] *)

(** An empty [fe_diag] of the boot stage. *)
Definition bogus (code stage : string) (detail : val) : bool :=
  (code =s "fe_diag") && negb (truthy (prop detail "msg")) && negb (truthy (prop detail "err")) &&
  negb (truthy (prop detail "detail")) && (stage =s "boot").

Definition put_missing (k : string) (v : string) (d : list (string * val)) : list (string * val) :=
  if truthy (assoc k d) then d else obj_put k (VStr v) d.

(** Version and ids are mirrored into the detail. *)
Definition mirror (version vt sid : string) (detail : val) : val :=
  match detail with
  | VObj d =>
    let d := put_missing "product_version" version d in
    let d := if vt =s "" then d else put_missing "visitor_terminal_id" vt d in
    VObj (if sid =s "" then d else put_missing "session_id" sid d)
  | v => v
  end.

Definition or_str (a b : string) : string := if a =s "" then b else a.
Definition obj_or_empty (v : val) : val := if is_object v then v else empty_obj.

Definition make_body (e : oenv) (code stage : string) (detail : val) (severity vt : string) (w : Win) : body :=
  let b := boot w in
  let sid := resolveSessionId w in
  mkBody (apiBase w +:+ ENDPOINT) (stake 64 code) (stake 32 (or_str stage "client")) (or_str severity "error") (o_now e)
    (jor (prop b "site_id") (jor (prop b "siteId") (jor (gget "__GR_SITE_ID__" w) (VStr "")))) vt sid (productVersion w)
    (jor (prop b "injectPath") (jor (prop b "inject_path") (VStr ""))) (engineFamily e) (uaHash e)
    (mirror (productVersion w) vt sid (obj_or_empty detail)) (default 1%Q (find_key code SAMPLE_RATES)).

Definition report (e : oenv) (code stage : string) (detail : val) (severity : string) (s : ops) : ops :=
  if negb (clientEventsEnabled s) || (code =s "") then s else
  if bogus code stage (obj_or_empty detail) then s else
  let '(s, ok) := shouldSample (o_rnd e) code s in
  if negb ok then s else
  let s := prune (o_now e) s in
  if (MAX_PER_MIN <=? length (sent s))%nat then s else
  let s := set_sent (sent s ++ [o_now e]) s in
  let '(w, vt) := resolveVisitorTerminalId e (owin s) in
  let s := set_owin w s in
  set_out (make_body e code stage detail severity vt w :: out s) s.

(** [String(code || "fe_error").slice(0, 64)], a caller's own severity. *)
Definition feError (e : oenv) (code : string) (detail : val) (severity : string) (s : ops) : ops :=
  report e (stake 64 (or_str code "fe_error")) "client" (jor detail empty_obj) (or_str severity "error") s.

(** Only with debugging on. *)
Definition dlog (e : oenv) (n : nat) (s : ops) : ops :=
  let g := gget "__GR_BOOT__" (owin s) in
  if truthy (gget "__GR_DEBUG__" (owin s)) || truthy (jand g (prop g "debug")) then
    match n with O => s | _ => report e "debug_trace" "debug" (VObj [("n", vint (Z.of_nat n))]) "info" s end
  else s.

Definition setEnabled (v : bool) (s : ops) : ops :=
  s |> set_owin (gset "__GR_OPS_CLIENT_EVENTS__" (vint (if v then 1 else 0)) (owin s)) |> set_halted (negb v).
Definition halt (s : ops) : ops := set_halted true s.
