(* ===== verification/OpsEvents.v ===== *)
(** * Operations reports ([probe/fe/ops_report.js]): where events come from

    The console and error listeners, the classification of failed uploads, the
    other methods of [GROps], and all of them as steps of one system. *)

From S2P Require Import Prelude JsVal Json Window OpsReport.
From Stdlib Require Import QArith.
#[local] Open Scope Z_scope.

(** ** Messages *)

Definition NOISE : list string :=
  ["installtrigger is deprecated"; "fingerprinting protection is altering"; "webgpu is experimental";
   "failed to create webgpu context provider"; "gpuweb/wiki/implementation"; "moz-extension:"; "chrome-extension:";
   "download the react devtools"; "[hmr]"; "webpack"; "favicon.ico"; "net::err_blocked_by_client"; "resizeobserver loop";
   "script terminated by timeout"; "[new] explain console"; "cross-origin frame"; "blocked a frame with origin";
   "falling back to browser navigation"; "failed to fetch rsc payload"; "from accessing a cross-origin"].

Definition is_newline (c : ascii) : bool := Ascii.eqb c (ascii_of_N 10) || Ascii.eqb c (ascii_of_N 13).

(** [/.*frame/] and [/SecurityError.*frame/] on a lower-case string. *)
Fixpoint frame_on_line (s : string) : bool :=
  starts_with "frame" s || match s with String c s' => negb (is_newline c) && frame_on_line s' | EmptyString => false end.
Fixpoint security_frame (s : string) : bool :=
  (starts_with "securityerror" s && frame_on_line (sdrop 13 s)) ||
  match s with String _ s' => security_frame s' | EmptyString => false end.

(** The alternative in Chinese is left out: strings are 8-bit. *)
Definition isBrowserNoise (msg : string) : bool :=
  (msg =s "") || test_words NOISE msg || security_frame (lower msg) ||
  (let l := lower msg in sdrop (String.length l - 13) l =s "script error.").

(** [\d+] followed by [p]. *)
Definition digits_then (p s : string) : bool := let '(_, n, r) := take_digits s 0 0 in (0 <? n)%nat && starts_with p r.
Definition word_char (c : ascii) : bool :=
  let n := N_of_ascii (lower_ascii c) in
  (((97 <=? n) && (n <=? 122)) || ((48 <=? n) && (n <=? 57)) || (n =? 95))%N.

(** [/B\d+_/i] and [/\bR\d+_spot/i] on a lower-case string; [prev]: the character
    before is one of a word. *)
Fixpoint batch_name (prev : bool) (s : string) : bool :=
  match s with
  | EmptyString => false
  | String c s' =>
    (Ascii.eqb c "b" && digits_then "_" s') || (negb prev && Ascii.eqb c "r" && digits_then "_spot" s') || batch_name (word_char c) s'
  end.
Definition relevant (msg : string) : bool :=
  test_words ["gr"; "webgl"; "probe"; "registry"; "upload"; "ingest"; "pack_loader"; "context lost"; "invalid_enum";
              "out of memory"; "typeerror"; "referenceerror"; "syntaxerror"; "failed to fetch"; "networkerror"] msg ||
  batch_name false (lower msg).

(** [String(JSON.stringify(a).slice(0, 160))], or [String(a)] where that throws. *)
Definition arg_text (a : val) : string :=
  match a with
  | VUndef | VNull => to_string a
  | VStr s => s
  | _ =>
    if truthy a && truthy (prop a "message") then to_string (prop a "message") else
    if truthy a && truthy (prop a "stack") then stake 200 (to_string (prop a "stack")) else
    match json_stringify a with Some t => stake 160 t | None => to_string a end
  end.
Definition argsToMsg (args : list val) : string := stake 360 (join " " (map arg_text (firstn 6 args))).

(** A name met again keeps its place; the oldest forty of more than eighty go. *)
Definition put_seen (k : string) (t : Z) (l : list (string * Z)) : list (string * Z) :=
  (fix go l := match l with [] => [(k, t)] | (k', t') :: l' => if k =s k' then (k', t) :: l' else (k', t') :: go l' end) l.
Definition consoleDedupOk (now : Z) (key : string) (s : ops) : ops * bool :=
  if now - default 0 (find_key key (seenConsoleKeys s)) <? CONSOLE_DEDUP_MS then (s, false) else
  let l := put_seen key now (seenConsoleKeys s) in
  (set_console (if (80 <? length l)%nat then skipn 40 l else l) s, true).

Definition reportConsole (e : oenv) (level : string) (args : list val) (s : ops) : ops :=
  let msg := argsToMsg args in
  if isBrowserNoise msg then s else
  if negb (relevant msg) && (level =s "warn") then s else
  if negb (relevant msg) && (level =s "error") && negb (test_words ["error"; "fail"; "exception"; "reject"] msg) then s else
  let code := if level =s "warn" then "fe_console_warn" else "fe_console_error" in
  let '(s, ok) := consoleDedupOk (o_now e) (code +:+ ":" +:+ stake 80 msg) s in
  if negb ok then s else
  report e code "console" (VObj [("level", VStr level); ("msg", VStr (stake 320 msg)); ("href", VStr (stake 120 (o_path e)))])
    (if level =s "warn" then "warn" else "error") s.

(** ** Listeners *)

Definition onContextLost (e : oenv) (target : string) (s : ops) : ops :=
  if o_now e - lastGlLost s <? 5000 then s else
  s |> set_gl_lost (o_now e)
    |> report e "webgl_context_lost" "webgl" (VObj [("status", VStr "lost"); ("target", VStr (or_str target "canvas"))]) "warn".

Definition onError (e : oenv) (msg src : string) (line col : val) (s : ops) : ops :=
  if isBrowserNoise msg then s else
  if test_words ["webgl"; "script error"; "out of memory"; "allocation failed"; "typeerror"; "referenceerror"] msg ||
     test_words ["gr"; "registry"; "collectors"; "pack_loader"; "upload_queue"; "ops_report"] src then
    report e "fe_runtime_error" "error"
      (VObj [("msg", VStr (stake 160 msg)); ("src", VStr (stake 80 src)); ("line", line); ("col", col)]) "error" s
  else s.

Definition onRejection (e : oenv) (reason : val) (s : ops) : ops :=
  let msg := to_string (jor (jand reason (jor (prop reason "message") reason)) (jor reason (VStr ""))) in
  if isBrowserNoise msg then s else
  if test_words ["webgl"; "upload"; "probe"; "gr"; "multipath"; "fetch"; "network"; "typeerror"; "reject"] msg then
    report e "fe_unhandled_rejection" "error" (VObj [("msg", VStr (stake 160 msg))]) "warn" s
  else s.

(** ** Failed uploads *)

Definition fields := list (string * val).
Definition assign (base extra : fields) : fields := fold_left (fun d '(k, v) => obj_put k v d) extra base.
Definition is_one (v : val) : bool := match v with VNum n => num_eqb n (num_Z 1) | _ => false end.

Definition err_str (x : fields) : string :=
  to_string (jor (assoc "err" x) (jor (assoc "message" x) (jor (assoc "body_snip" x) (VStr "")))).
Definition net_cls (x : fields) : string := lower (to_string (jor (assoc "net_class" x) (VStr (err_str x)))).
(** [extra.net_class = extra.net_class || c] *)
Definition default_field (k c : string) (x : fields) : fields := obj_put k (jor (assoc k x) (VStr c)) x.

Definition seal_failure (x : fields) : bool :=
  is_true (assoc "seal_failed" x) || is_true (assoc "seal_required" x) || is_one (assoc "seal_failed" x) ||
  mem_str (to_string_or_empty (assoc "code" x)) ["seal_failed"; "sealed_required"] ||
  test_words ["seal_wasm"; "seal_failed"; "seal_module"; "seal_grant"; "seal_timeout"; "wasm_"; "webassembly"] (err_str x) ||
  test_words ["seal_wasm"; "seal_failed"; "wasm_"] (net_cls x).
Definition edge_challenge (status : Z) (x : fields) : bool :=
  (status =? 403) || (status =? 503) ||
  test_words ["challenge"; "cf-mitigated"; "access denied"; "just a moment"; "attention required"; "under attack"; "cf-ray"; "cloudflare"]
    (net_cls x).
Definition upstream_closed (x : fields) : bool :=
  test_words ["connection closed"; "broken pipe"; "econnreset"; "err_connection"; "connection reset"; "upstream prematurely"; "socket hang up"]
    (err_str x +:+ " " +:+ net_cls x).

(** Code, detail and severity of a failed upload; statuses are integers. *)
Definition seal_event (x : fields) : string * fields * string :=
  let unsup := test_words ["wasm_unsupported"; "webassembly is not defined"; "no webassembly"] (err_str x +:+ " " +:+ net_cls x) in
  let load := unsup || test_words ["seal_wasm_required"; "seal_wasm_load"; "wasm_http"; "wasm_not_binary"; "wasm_no_exports";
                                   "instantiatestreaming"; "reached end while decod"] (err_str x) in
  (if unsup then "seal_wasm_unsupported" else if load then "seal_wasm_fail" else "upload_seal_fail",
   x |> default_field "net_class" (if load then "seal_wasm" else "seal_client") |> obj_put "seal_failed" (VBool true),
   if unsup || is_true (assoc "final" x) then "error" else "warn").

Definition net_event (x : fields) : string * fields * string :=
  let nc := assoc "net_class" x in
  let x := if is_false (assoc "online" x) || (net_cls x =s "offline") then obj_put "net_class" (VStr "offline") x
           else if negb (truthy nc) || is_str nc "fetch_fail" then default_field "net_class" "client_fetch_fail" x else x in
  ("upload_network", default_field "transport" "no_http_response" x, "warn").

Definition upload_event (status : Z) (x : fields) : string * fields * string :=
  if seal_failure x then seal_event x else
  if edge_challenge status x then
    (if status =? 0 then "upload_network" else "upload_4xx",
     x |> default_field "net_class" "edge_challenge" |> obj_put "cf_challenge" (VBool true), "warn")
  else if status =? 0 then
    if truthy (assoc "network" x) then net_event x else
    ("upload_network", x |> default_field "net_class" "http0_unclassified" |> default_field "transport" "no_http_response", "warn")
  else if upstream_closed x then
    ("upload_upstream_closed", x |> default_field "net_class" "upstream_closed" |> obj_put "network" (VBool true),
     if is_true (assoc "final" x) then "error" else "warn")
  else (if 500 <=? status then "upload_5xx" else "upload_4xx", x, "error").

Definition with_ids (e : oenv) (base : fields) (s : ops) : ops * fields :=
  let '(w, vt) := resolveVisitorTerminalId e (owin s) in
  (set_owin w s, base ++ [("visitor_terminal_id", VStr vt); ("session_id", VStr (resolveSessionId w))]).

Definition uploadHttp (e : oenv) (status : Z) (batch : string) (x : fields) (s : ops) : ops :=
  let base := [("http", vint status); ("batch", VStr (stake 48 batch))] in
  if (0 <? status) && (status <? 400) then report e "upload_biz_reject" "upload" (VObj (assign base x)) "warn" s else
  let '(code, x, sev) := upload_event status x in
  let '(s, base) := with_ids e base s in
  report e code "upload" (VObj (assign base x)) sev s.

Definition uploadRecovered (e : oenv) (batch : string) (x : fields) (s : ops) : ops :=
  let '(s, base) := with_ids e [("batch", VStr (stake 48 batch))] s in
  report e "upload_recovered" "upload" (VObj (assign (base ++ [("recovered", VBool true)]) x)) "info" s.

(** ** Other methods *)

Definition wave2Empty (e : oenv) (x : fields) (s : ops) : ops :=
  let last := gget "__GR_LAST_WAVE2_EMPTY_MS__" (owin s) in
  if truthy last && (match to_num last with Fin q => Qltb (inject_Z (o_now e) - q) 8000 | Inf neg => negb neg | NaN => false end) then s else
  s |> set_owin (gset "__GR_LAST_WAVE2_EMPTY_MS__" (vint (o_now e)) (owin s)) |> report e "wave2_empty" "kick" (VObj x) "info".

Definition hardLoadFail (e : oenv) (pack err : string) : ops -> ops :=
  report e "hard_load_fail" "load_pack" (VObj [("pack", VStr pack); ("err", VStr (stake 240 err))]) "error".
Definition cycleRemint (e : oenv) (reason : string) (x : fields) : ops -> ops :=
  report e "cycle_remint" "lifecycle" (VObj (assign [("reason", VStr reason)] x))
    (if mem_str reason ["fresh_cycle"; "session_storage_page_budget"; ""] then "info" else "warn").
Definition openFail (e : oenv) (x : fields) : ops -> ops := report e "open_fail" "open" (VObj x) "error".
Definition retryBudget (e : oenv) (x : fields) : ops -> ops := report e "retry_budget" "retry" (VObj x) "warn".
Definition version_fields (self server action : string) : fields :=
  [("self", VStr self); ("server", VStr server); ("action", VStr action)].
Definition versionUpgrade (e : oenv) (self server action : string) : ops -> ops :=
  report e "version_upgrade" "self_heal" (VObj (version_fields self server action)) "info".
Definition versionHeal (e : oenv) (self server action : string) (x : fields) : ops -> ops :=
  report e "version_heal" "self_heal" (VObj (assign (version_fields self server action) x)) "info".
Definition vtMint (e : oenv) (reason vt : string) (x : fields) : ops -> ops :=
  let r := VStr (or_str reason "unknown") in
  report e "vt_mint" "lifecycle" (VObj (assign [("reason", r); ("vt_mint_reason", r); ("vt", VStr (stake 64 vt))] x)) "info".

(** ** The module as a system *)

Inductive oevent :=
| Report (code stage : string) (detail : val) (severity : string)
| Console (level : string) (args : list val)
| ContextLost (target : string)
| ErrorEvent (msg src : string) (line col : val)
| Rejection (reason : val)
| UploadHttp (status : Z) (batch : string) (x : fields)
| UploadRecovered (batch : string) (x : fields)
| Wave2Empty (x : fields)
| HardLoadFail (pack err : string)
| CycleRemint (reason : string) (x : fields)
| OpenFail (x : fields)
| RetryBudget (x : fields)
| VersionUpgrade (self server action : string)
| VersionHeal (self server action : string) (x : fields)
| VtMint (reason vt : string) (x : fields)
| FeError (code : string) (detail : val) (severity : string)
| DLog (n : nat)
| SetEnabled (v : bool)
| Halt
| SetVar (k : string) (v : val).

Definition ostep (e : oenv) (ev : oevent) (s : ops) : ops :=
  match ev with
  | Report code stage detail sev => report e code stage detail sev s
  | Console level args => reportConsole e level args s
  | ContextLost t => onContextLost e t s
  | ErrorEvent msg src line col => onError e msg src line col s
  | Rejection r => onRejection e r s
  | UploadHttp st b x => uploadHttp e st b x s
  | UploadRecovered b x => uploadRecovered e b x s
  | Wave2Empty x => wave2Empty e x s
  | HardLoadFail p r => hardLoadFail e p r s
  | CycleRemint r x => cycleRemint e r x s
  | OpenFail x => openFail e x s
  | RetryBudget x => retryBudget e x s
  | VersionUpgrade a b c => versionUpgrade e a b c s
  | VersionHeal a b c x => versionHeal e a b c x s
  | VtMint r vt x => vtMint e r vt x s
  | FeError c d sev => feError e c d sev s
  | DLog n => dlog e n s
  | SetEnabled v => setEnabled v s
  | Halt => halt s
  | SetVar k v => set_owin (gset k v (owin s)) s
  end.
Definition orun (l : list (oenv * oevent)) (s : ops) : ops := fold_left (fun s '(e, ev) => ostep e ev s) l s.
