(* ===== verification/OpsSpec.v ===== *)
(** * Operations reports: theorems

    Every event of the module goes through [report]; what [report] and the
    writes to [window] keep, every event keeps ([ostep_keeps]). *)

From S2P Require Import Prelude JsVal Json Window OpsReport OpsEvents.
From Stdlib Require Import QArith.
#[local] Open Scope Z_scope.

#[local] Arguments report : simpl never.

(** ** Lemmas *)

(** What the module's writes and [report] respect, the events respect; those that
    only switch or set a variable apart. *)
Definition switches (ev : oevent) : bool := match ev with SetEnabled _ | Halt | SetVar _ _ => true | _ => false end.

Section Keeps.
Context (e : oenv) (P : ops -> Prop).
Hypothesis keep_resolve : forall s, P s -> P (set_owin (fst (resolveVisitorTerminalId e (owin s))) s).
Hypothesis keep_wave : forall v s, P s -> P (set_owin (gset "__GR_LAST_WAVE2_EMPTY_MS__" v (owin s)) s).
Hypothesis keep_console : forall l s, P s -> P (set_console l s).
Hypothesis keep_lost : forall t s, P s -> P (set_gl_lost t s).
Hypothesis keep_report : forall code stage d sev s, P s -> P (report e code stage d sev s).

Lemma with_ids_keeps base s : P s -> P (fst (with_ids e base s)).
Proof using keep_resolve.
  intros H%keep_resolve. unfold with_ids. by destruct (resolveVisitorTerminalId e (owin s)) as [w vt].
Qed.

Lemma ostep_keeps_events ev s : switches ev = false -> P s -> P (ostep e ev s).
Proof using All.
  intros Hs H. destruct ev; try discriminate Hs; cbn [ostep]; try (by apply keep_report).
  - unfold reportConsole. destruct (isBrowserNoise _); [done|]. destruct (negb _ && _); [done|]. destruct (negb _ && _ && _); [done|].
    unfold consoleDedupOk. destruct (_ <? CONSOLE_DEDUP_MS); [done|]. apply keep_report. by apply keep_console.
  - unfold onContextLost. destruct (_ <? 5000); [done|]. by apply keep_report, keep_lost.
  - unfold onError. destruct (isBrowserNoise msg); [done|]. destruct (_ || _); [by apply keep_report|done].
  - unfold onRejection. destruct (isBrowserNoise _); [done|]. destruct (test_words _ _); [by apply keep_report|done].
  - unfold uploadHttp. destruct ((0 <? status) && (status <? 400)); [by apply keep_report|].
    destruct (upload_event status x) as [[code x'] sev]. set (base := [_; _]).
    pose proof (with_ids_keeps base s H) as H1. destruct (with_ids e base s) as [s1 b1]. by apply keep_report.
  - unfold uploadRecovered. set (base := [_]). pose proof (with_ids_keeps base s H) as H1.
    destruct (with_ids e base s) as [s1 b1]. by apply keep_report.
  - unfold wave2Empty. destruct (truthy _ && _); [done|]. by apply keep_report, keep_wave.
  - unfold dlog. destruct (_ || _); [|done]. destruct n; [done|]. by apply keep_report.
Qed.

Lemma ostep_keeps ev s :
  (forall w s, P s -> P (set_owin w s)) -> (forall b s, P s -> P (set_halted b s)) -> P s -> P (ostep e ev s).
Proof using All.
  intros Hw Hh H. destruct (switches ev) eqn:E; [|by apply ostep_keeps_events].
  destruct ev; try discriminate E; cbn [ostep]; [by apply Hh, Hw|by apply Hh|by apply Hw].
Qed.
End Keeps.

Definition recent (now t : Z) : bool := now - t <? 60000.

(** The two ends of [report]: nothing is sent, or one body is. *)
Lemma report_view e code stage d sev s :
  let s' := report e code stage d sev s in
  (out s' = out s /\ (sent s' = sent s \/ sent s' = List.filter (recent (o_now e)) (sent s)) /\
    (forall c, counted c s <= counted c s')) \/
  (exists b, out s' = b :: out s /\ b_ts b = o_now e /\ b_code b = stake 64 code /\
    sent s' = List.filter (recent (o_now e)) (sent s) ++ [o_now e] /\
    (length (List.filter (recent (o_now e)) (sent s)) < MAX_PER_MIN)%nat /\
    (forall c, counted c s <= counted c s') /\
    (forall cap, find_key code CODE_CAPS = Some cap -> counted code s + 1 = counted code s' /\ counted code s' <= cap)).
Proof.
  cbv zeta. unfold report. destruct (negb _ || _); [left; split_and!; [done|by left|done]|].
  destruct (bogus _ _ _); [left; split_and!; [done|by left|done]|].
  assert (forall s1 ok, shouldSample (o_rnd e) code s = (s1, ok) ->
    out s1 = out s /\ sent s1 = sent s /\ (forall c, counted c s <= counted c s1) /\
    (ok = true -> forall cap, find_key code CODE_CAPS = Some cap -> counted code s + 1 = counted code s1 /\ counted code s1 <= cap)) as HS.
  { intros s1 ok. unfold shouldSample.
    assert (forall s2 ok2, under_cap code s = (s2, ok2) -> out s2 = out s /\ sent s2 = sent s /\ (forall c, counted c s <= counted c s2) /\
      (ok2 = true -> forall cap, find_key code CODE_CAPS = Some cap -> counted code s + 1 = counted code s2 /\ counted code s2 <= cap)) as HU.
    { intros s2 ok2. unfold under_cap. destruct (find_key code CODE_CAPS) as [cap|] eqn:Ef; intros [= <- <-].
      - split_and!; [done|done| |].
        + intros c. unfold counted. cbn. destruct (decide (c = code)) as [->|Hne]; [rewrite lookup_insert_eq|rewrite lookup_insert_ne by done]; cbn; lia.
        + intros Hok cap' [= <-]. unfold counted in *. cbn. rewrite lookup_insert_eq. cbn. apply negb_true_iff, Z.ltb_ge in Hok. lia.
      - by split_and!. }
    destruct (under_cap code s) as [s2 ok2]. destruct (HU s2 ok2 eq_refl) as (H1&H2&H3&H4).
    destruct ok2; cbn [negb]; [|intros [= <- <-]; by split_and!].
    destruct (find_key code SAMPLE_RATES) as [rate|]; [|intros [= <- <-]; by split_and!].
    destruct (Qle_bool 1 rate); [intros [= <- <-]; by split_and!|].
    destruct (negb _); intros [= <- <-]; (split_and!; [done|done|exact H3|intros _; by apply H4]). }
  destruct (shouldSample (o_rnd e) code s) as [s1 ok]. destruct (HS s1 ok eq_refl) as (H1&H2&H3&H4). clear HS.
  destruct ok; cbn [negb]; [|left; split_and!; [done|by left|done]].
  unfold prune. cbv zeta. rewrite H2. change (fun t => o_now e - t <? 60000) with (recent (o_now e)).
  change (sent (set_sent ?v ?s)) with v. destruct (Nat.leb_spec MAX_PER_MIN (length (List.filter (recent (o_now e)) (sent s)))).
  - left. split_and!; [done|by right|done].
  - right. destruct (resolveVisitorTerminalId e _) as [w vt]. eexists. split_and!; [exact (f_equal (cons _) H1)|reflexivity..|done|exact H3|by apply H4].
Qed.

(** *** The budget of a minute *)

Definition times (s : ops) : list Z := map b_ts (out s).
(** The bodies sent in the minute that ends at [w]. *)
Definition minute (w : Z) (l : list Z) : nat := length (List.filter (fun t => recent w t && (t <=? w)) l).

Record rated (T : Z) (s : ops) : Prop := Rated {
  rt_past : Forall (fun t => t <= T) (times s);
  rt_sent : forall now, T <= now -> List.filter (recent now) (sent s) = List.filter (recent now) (rev (times s));
  rt_minute : forall w, (minute w (times s) <= MAX_PER_MIN)%nat
}.

Lemma rated_later T T' s : T <= T' -> rated T s -> rated T' s.
Proof.
  intros HT [H1 H2 H3]. constructor; [|intros now Hn; apply H2; lia|done].
  eapply Forall_impl; [exact H1|]. cbn. lia.
Qed.

Lemma filter_twice (now T : Z) l : T <= now -> List.filter (recent now) (List.filter (recent T) l) = List.filter (recent now) l.
Proof.
  intros H. induction l as [|t l IH]; [done|]. cbn. destruct (recent T t) eqn:E; cbn; [by rewrite IH|].
  rewrite IH. unfold recent in *. apply Z.ltb_ge in E. by rewrite (proj2 (Z.ltb_ge _ _)) by lia.
Qed.

Lemma filter_length_imp {A} (f g : A -> bool) l :
  (forall x, In x l -> f x = true -> g x = true) -> (length (List.filter f l) <= length (List.filter g l))%nat.
Proof.
  induction l as [|x l IH]; intros H; [done|]. cbn. pose proof (H x (or_introl eq_refl)) as Hx.
  assert (length (List.filter f l) <= length (List.filter g l))%nat by (apply IH; intros; apply H; [by right|done]).
  destruct (f x); [rewrite Hx by done; cbn; lia|]. destruct (g x); cbn; lia.
Qed.

Lemma filter_rev_length {A} (f : A -> bool) l : length (List.filter f (rev l)) = length (List.filter f l).
Proof.
  induction l as [|x l IH]; [done|]. cbn. rewrite List.filter_app, length_app, IH. cbn. destruct (f x); cbn; lia.
Qed.

Lemma report_rated e T code stage d sev s : T <= o_now e -> rated T s -> rated (o_now e) (report e code stage d sev s).
Proof.
  intros HT H. pose proof (rated_later T (o_now e) s HT H) as [P1 P2 P3].
  destruct (report_view e code stage d sev s) as [(Ho&Hs&_)|(b&Ho&Hb&_&Hs&Hl&_)].
  - constructor; unfold times; rewrite Ho; [done| |done]. intros now Hn. destruct Hs as [-> | ->]; [by apply P2|].
    rewrite (filter_twice now (o_now e)) by done. by apply P2.
  - assert (times (report e code stage d sev s) = o_now e :: times s) as Ht by (unfold times; rewrite Ho; cbn; by rewrite Hb).
    constructor; rewrite Ht.
    + by constructor.
    + intros now Hn. rewrite Hs. cbn [rev]. rewrite !List.filter_app, (filter_twice now (o_now e)), P2 by done. done.
    + intros w. unfold minute. cbn [List.filter]. destruct (recent w (o_now e) && (o_now e <=? w)) eqn:E; [|apply P3].
      apply andb_true_iff in E as [_ Hw%Z.leb_le]. cbn [length]. unfold lt in Hl. etrans; [|exact Hl]. apply le_n_S.
      rewrite P2 by done. rewrite filter_rev_length.
      apply filter_length_imp. intros t _ [Hr _]%andb_true_iff. unfold recent in *. apply Z.ltb_lt in Hr. apply Z.ltb_lt. lia.
Qed.

(** Clocks do not go back. *)
Fixpoint clocked (T : Z) (l : list (oenv * oevent)) : Prop :=
  match l with [] => True | (e, _) :: l' => T <= o_now e /\ clocked (o_now e) l' end.

Lemma orun_rated l T s : clocked T l -> rated T s -> exists T', rated T' (orun l s).
Proof.
  revert T s. induction l as [|[e ev] l IH]; intros T s Hc H; [by exists T|]. destruct Hc as [HT Hc].
  apply (IH (o_now e)); [done|]. apply (rated_later T (o_now e)) in H; [|done].
  apply (ostep_keeps e (rated (o_now e))); try done; try (by intros ? ? []; constructor).
  - intros s0 []. by constructor.
  - intros. by apply (report_rated e (o_now e)).
Qed.

(** *** The caps *)

Definition sent_of (c : string) (s : ops) : Z := Z.of_nat (length (List.filter (fun b => b_code b =s c) (out s))).

Lemma stake_short n s c : stake n s = c -> (String.length c < n)%nat -> s = c.
Proof.
  revert s c. induction n as [|n IH]; intros s c H Hl; [lia|]. destruct s as [|a s]; cbn in H; [done|].
  subst c. cbn in Hl. f_equal. by apply IH; [|lia].
Qed.

Definition capped (c : string) (cap : Z) (s : ops) : Prop := sent_of c s <= counted c s /\ sent_of c s <= cap.

Lemma capped_shorter c cap : find_key c CODE_CAPS = Some cap -> (String.length c < 64)%nat /\ 0 <= cap.
Proof.
  assert (forallb (fun '(k, n) => (String.length k <? 64)%nat && (0 <=? n)) CODE_CAPS = true) as H by reflexivity. revert H.
  generalize CODE_CAPS. intros l. induction l as [|[k v] l IH]; [done|]. cbn. intros [[H1 H2]%andb_true_iff H]%andb_true_iff.
  destruct (c =s k) eqn:E; [|by apply IH]. apply String.eqb_eq in E as <-. intros [= <-].
  split; [by apply (Nat.ltb_lt _ 64)|by apply Z.leb_le].
Qed.

Lemma report_capped e c cap code stage d sev s :
  find_key c CODE_CAPS = Some cap -> capped c cap s -> capped c cap (report e code stage d sev s).
Proof.
  intros Hc [H1 H2]. destruct (report_view e code stage d sev s) as [(Ho&_&Hk)|(b&Ho&_&Hb&_&_&Hk&Hcap)].
  - unfold capped, sent_of. rewrite Ho. split; [|done]. etrans; [exact H1|apply Hk].
  - unfold capped, sent_of. rewrite Ho. cbn [List.filter]. destruct (b_code b =s c) eqn:E.
    + apply String.eqb_eq in E. rewrite Hb in E. apply stake_short in E; [|by eapply capped_shorter]. subst code.
      destruct (Hcap cap Hc) as [H3 H4]. cbn [length]. unfold sent_of in H1. rewrite Nat2Z.inj_succ. lia.
    + split; [|done]. etrans; [exact H1|apply Hk].
Qed.

Lemma orun_capped c cap l s : find_key c CODE_CAPS = Some cap -> capped c cap s -> capped c cap (orun l s).
Proof.
  intros Hc. revert s. induction l as [|[e ev] l IH]; intros s H; [done|]. apply IH.
  apply (ostep_keeps e (capped c cap)); try done. intros. by apply report_capped.
Qed.

(** *** Being enabled *)

(** The flag that turns reports on by force. *)
Definition forced (s : ops) : Prop := on (gget "__GR_OPS_CLIENT_EVENTS__" (owin s)) = true.

Lemma on_not_off v : on v = true -> off v = false.
Proof.
  destruct v as [| |b|n| | |]; try done; cbn; [by intros ->|]. destruct n as [|neg|q]; try done. cbn.
  intros H%Qeq_bool_iff. apply not_true_iff_false. intros H2%Qeq_bool_iff. rewrite H in H2. discriminate H2.
Qed.

Lemma forced_enabled s : forced s -> clientEventsEnabled s = true.
Proof. intros H. unfold clientEventsEnabled. cbv zeta. unfold forced in H. by rewrite (on_not_off _ H), H. Qed.

Lemma resolve_keeps_flag e w : gget "__GR_OPS_CLIENT_EVENTS__" (fst (resolveVisitorTerminalId e w)) = gget "__GR_OPS_CLIENT_EVENTS__" w.
Proof.
  unfold resolveVisitorTerminalId. destruct (first_id _); [|done]. cbn [fst]. by rewrite gget_gset_ne.
Qed.

Lemma report_flag e code stage d sev s :
  gget "__GR_OPS_CLIENT_EVENTS__" (owin (report e code stage d sev s)) = gget "__GR_OPS_CLIENT_EVENTS__" (owin s).
Proof.
  unfold report. destruct (negb _ || _); [done|]. destruct (bogus _ _ _); [done|].
  assert (owin (fst (shouldSample (o_rnd e) code s)) = owin s) as Hw.
  { unfold shouldSample, under_cap. by destruct (find_key code CODE_CAPS); repeat case_match; simplify_eq/=. }
  destruct (shouldSample (o_rnd e) code s) as [s1 []]; cbn [fst negb] in *; [|by rewrite Hw].
  destruct (_ <=? _)%nat; [exact (f_equal (gget _) Hw)|].
  set (s2 := set_sent _ _). assert (owin s2 = owin s) as Hw2 by (by rewrite <- Hw).
  pose proof (resolve_keeps_flag e (owin s2)) as HF. destruct (resolveVisitorTerminalId e (owin s2)) as [w vt]. cbn in *. by rewrite HF, Hw2.
Qed.

(** Events that leave the flag alone. *)
Definition keeps_flag (ev : oevent) : bool :=
  match ev with SetEnabled _ => false | SetVar k _ => k <>s "__GR_OPS_CLIENT_EVENTS__" | _ => true end.

Lemma ostep_flag e ev s : keeps_flag ev = true -> forced s -> forced (ostep e ev s).
Proof.
  intros Hk H. destruct (switches ev) eqn:E.
  - destruct ev; try done. unfold forced. cbn [ostep owin set_owin]. cbn in Hk.
    rewrite gget_gset_ne; [done|]. by apply negb_true_iff, String.eqb_neq in Hk.
  - apply (ostep_keeps_events e forced); try done; unfold forced; intros; cbn [owin set_owin].
    + by rewrite resolve_keeps_flag.
    + by rewrite gget_gset_ne.
    + by rewrite report_flag.
Qed.

Lemma orun_flag l s : forallb (fun '(_, ev) => keeps_flag ev) l = true -> forced s -> forced (orun l s).
Proof.
  revert s. induction l as [|[e ev] l IH]; intros s Hl H; [done|]. cbn in Hl. apply andb_true_iff in Hl as [H1 H2].
  apply IH; [done|]. by apply ostep_flag.
Qed.

(** When [report] sends. *)
Lemma report_sends e code stage d sev s :
  clientEventsEnabled s = true -> code <> "" -> bogus code stage (obj_or_empty d) = false ->
  snd (shouldSample (o_rnd e) code s) = true -> (length (List.filter (recent (o_now e)) (sent s)) < MAX_PER_MIN)%nat ->
  exists b, out (report e code stage d sev s) = b :: out s /\ b_code b = stake 64 code /\ b_severity b = or_str sev "error" /\
    b_ts b = o_now e.
Proof.
  intros He Hc Hb Hs Hl. unfold report. rewrite He, (proj2 (String.eqb_neq _ _) Hc), Hb. cbn [negb orb].
  assert (out (fst (shouldSample (o_rnd e) code s)) = out s /\ sent (fst (shouldSample (o_rnd e) code s)) = sent s) as [Ho Hse].
  { unfold shouldSample, under_cap. destruct (find_key code CODE_CAPS); repeat case_match; by simplify_eq/=. }
  destruct (shouldSample (o_rnd e) code s) as [s1 ok]. cbn [fst snd] in *. subst ok. cbn [negb].
  unfold prune. cbv zeta. rewrite Hse. change (fun t => o_now e - t <? 60000) with (recent (o_now e)).
  rewrite (proj2 (Nat.leb_gt _ _)) by exact Hl. destruct (resolveVisitorTerminalId e _) as [w vt].
  eexists. split_and!; [exact (f_equal (cons _) Ho)|reflexivity..].
Qed.

(** ** Theorems *)

(** C33: The server gets at most eighty reports a minute: over every sequence of reports,
    console lines, errors and uploads, with a clock that does not go back, no sixty seconds
    hold more than eighty of the bodies sent, wherever the minute begins. *)
Theorem rate_limited (l : list (oenv * oevent)) (w : Win) (T t : Z) :
  clocked T l -> (minute t (times (orun l (ops0 w))) <= MAX_PER_MIN)%nat.
Proof.
  intros Hc. destruct (orun_rated l T (ops0 w) Hc) as [T' H]; [|by apply (rt_minute _ _ H)].
  constructor; [constructor|done|]. intros v. apply Nat.le_0_l.
Qed.

(** A code is sent no more often than its cap in the life of a page, over every
    sequence of events, whatever its sampling and whether or not reports are switched off
    and on. *)
Theorem code_capped (l : list (oenv * oevent)) (w : Win) (c : string) (cap : Z) :
  find_key c CODE_CAPS = Some cap -> sent_of c (orun l (ops0 w)) <= cap.
Proof.
  intros Hc. apply (orun_capped c cap l (ops0 w) Hc). split; [done|]. by eapply capped_shorter.
Qed.

(** The first report of a code is kept: while reports are on and the minute has room, a
    code that has not been reported on the page is sent, whatever its sampling rate, its cap
    and the random number. *)
Theorem first_kept (e : oenv) (code stage sev : string) (d : val) (s : ops) :
  clientEventsEnabled s = true -> code <> "" -> bogus code stage (obj_or_empty d) = false ->
  counted code s = 0 -> mem_str code (sampleSeen s) = false ->
  (length (List.filter (recent (o_now e)) (sent s)) < MAX_PER_MIN)%nat ->
  exists b, out (report e code stage d sev s) = b :: out s /\ b_code b = stake 64 code /\ b_severity b = or_str sev "error" /\
    b_ts b = o_now e.
Proof.
  intros He Hc Hb Hn Hm Hl. apply report_sends; try done. unfold shouldSample.
  assert (forall cap, find_key code CODE_CAPS = Some cap -> 1 <= cap) as HC.
  { assert (forallb (fun '(_, n) => 1 <=? n) CODE_CAPS = true) as H by reflexivity. revert H. generalize CODE_CAPS. intros l.
    induction l as [|[k v] l IH]; [done|]. cbn. intros [H1%Z.leb_le H]%andb_true_iff cap. destruct (code =s k); [by intros [= <-]|by apply IH]. }
  assert (exists s1, under_cap code s = (s1, true) /\ sampleSeen s1 = sampleSeen s) as (s1&->&Hs).
  { unfold under_cap. destruct (find_key code CODE_CAPS) as [cap|]; [|by eexists]. specialize (HC cap eq_refl). rewrite Hn.
    exists (set_caps (<[code := 0 + 1]> (codeCaps s)) s). by rewrite (proj2 (Z.ltb_ge cap (0 + 1)) ltac:(lia)). }
  cbn [negb]. destruct (find_key code SAMPLE_RATES) as [rate|]; [|done]. destruct (Qle_bool 1 rate); [done|]. by rewrite Hs, Hm.
Qed.

(** A halt does not halt: once reports have been switched on by [setEnabled], [halt]
    turns nothing off, now or later; only the flag of the window does, so events go on being
    sent. *)
Theorem halt_ignored (e : oenv) (code stage sev : string) (d : val) (s : ops) (l : list (oenv * oevent)) :
  let s' := orun l (halt (setEnabled true s)) in
  forallb (fun '(_, ev) => keeps_flag ev) l = true ->
  code <> "" -> find_key code CODE_CAPS = None -> find_key code SAMPLE_RATES = None ->
  (length (List.filter (recent (o_now e)) (sent s')) < MAX_PER_MIN)%nat ->
  clientEventsEnabled s' = true /\ exists b, out (report e code stage d sev s') = b :: out s' /\ b_code b = stake 64 code.
Proof.
  cbv zeta. intros Hl Hc H1 H2 Hn. assert (clientEventsEnabled (orun l (halt (setEnabled true s))) = true) as He.
  { apply forced_enabled, orun_flag; [done|]. unfold forced. cbn [owin halt setEnabled set_halted set_owin]. by rewrite gget_gset_eq. }
  split; [done|]. destruct (report_sends e code stage d sev (orun l (halt (setEnabled true s)))) as (b&Hb&Hcode&_).
  - done.
  - done.
  - unfold bogus. destruct (String.eqb_spec code "fe_diag") as [->|]; [discriminate H2|done].
  - unfold shouldSample, under_cap. by rewrite H1, H2.
  - done.
  - by exists b.
Qed.

(** How a failed upload is reported: as a server error exactly when its status is at
    least 500, is not 503 and nothing says that the seal failed, that an edge challenged the
    request or that the connection was closed; a request without a status is never a server
    error, and its severity is a warning unless the seal failed. *)
Theorem upload_event_spec (status : Z) (x : fields) :
  let '(code, x', sev) := upload_event status x in
  (code = "upload_5xx" <-> 500 <= status /\ seal_failure x = false /\ edge_challenge status x = false /\ upstream_closed x = false) /\
  (status = 503 -> code <> "upload_5xx") /\
  (status = 0 -> seal_failure x = false -> code = "upload_network" /\ sev = "warn") /\
  (seal_failure x = true -> In code ["seal_wasm_unsupported"; "seal_wasm_fail"; "upload_seal_fail"] /\ is_true (assoc "seal_failed" x') = true).
Proof.
  assert (forall k v d, assoc k (obj_put k v d) = v) as Hput.
  { intros k v d. induction d as [|[k' v'] d IH]; cbn; [by rewrite String.eqb_refl|].
    destruct (k =s k') eqn:E; cbn; [by rewrite String.eqb_refl|by rewrite E]. }
  unfold upload_event. destruct (seal_failure x) eqn:Es.
  - unfold seal_event. cbv zeta. set (u := test_words _ _). set (l := u || _). split_and!; try done.
    + split; [by destruct u, l|by intros (_&?&_)].
    + by destruct u, l.
    + intros _. split; [destruct u, l; cbn; tauto|]. by rewrite Hput.
  - destruct (edge_challenge status x) eqn:Ee.
    { destruct (status =? 0) eqn:E0; split_and!; try done; try (split; [done|by intros (_&_&?&_)]). by intros ->. }
    assert (status <> 503) as H503 by (intros ->; by unfold edge_challenge in Ee).
    destruct (Z.eqb_spec status 0) as [->|Hz].
    { destruct (truthy (assoc "network" x)); [unfold net_event; cbv zeta|]; split_and!; try done; (split; [done|lia]). }
    destruct (upstream_closed x) eqn:Eu; [split_and!; try done; by (split; [done|intros (_&_&_&?)])|].
    destruct (Z.leb_spec 500 status); split_and!; try done; (split; [done|]; intros (?&_); lia).
Qed.

(** ** Witnesses *)

Module Demo.
Definition env (t : Z) : oenv := mkOenv t (1#2) "Mozilla/5.0 (X11) Gecko/20100101 Firefox/140.0" true true [] "/".

(** A hundred and fifty distinct codes in a second, then the next minute. *)
Definition burst : list (oenv * oevent) :=
  map (fun n => (env (100000 + Z.of_nat n), Report (Z_to_string (Z.of_nat n)) "x" VUndef "warn")) (seq 0 150).

Lemma rate_limited_witness :
  length (times (orun burst (ops0 win0))) = 80%nat /\ (minute 100200 (times (orun burst (ops0 win0))) <= MAX_PER_MIN)%nat.
Proof.
  split; [vm_compute; reflexivity|]. refine (rate_limited burst win0 0 100200 _). vm_compute. repeat split; intros H; discriminate H.
Defined.

Definition failures : list (oenv * oevent) :=
  map (fun n => (env (100000 * (1 + Z.of_nat n)), UploadHttp 500 "B1" [])) (seq 0 30).

Lemma code_capped_witness :
  sent_of "upload_5xx" (orun failures (ops0 win0)) = 12 /\ sent_of "upload_5xx" (orun failures (ops0 win0)) <= 12.
Proof. split; [vm_compute; reflexivity|]. refine (code_capped failures win0 "upload_5xx" 12 _). reflexivity. Defined.

Lemma first_kept_witness :
  exists b, out (report (env 5) "vt_mint" "lifecycle" VUndef "info" (ops0 win0)) = [b] /\ b_code b = "vt_mint" /\
    b_severity b = "info" /\ b_ts b = 5.
Proof. refine (first_kept (env 5) "vt_mint" "lifecycle" "info" VUndef (ops0 win0) _ _ _ _ _ _); first [reflexivity|discriminate|apply Nat.ltb_lt; reflexivity]. Defined.

Lemma halt_ignored_witness :
  clientEventsEnabled (orun [(env 5, OpenFail [])] (halt (setEnabled true (ops0 win0)))) = true /\
  exists b, out (report (env 9) "open_fail" "open" VUndef "error" (orun [(env 5, OpenFail [])] (halt (setEnabled true (ops0 win0))))) =
            b :: out (orun [(env 5, OpenFail [])] (halt (setEnabled true (ops0 win0)))) /\ b_code b = "open_fail".
Proof.
  refine (halt_ignored (env 9) "open_fail" "open" "error" VUndef (ops0 win0) [(env 5, OpenFail [])] _ _ _ _ _);
    first [reflexivity|discriminate|apply Nat.ltb_lt; reflexivity].
Defined.
End Demo.
