(* ===== verification/SealCodec.v ===== *)
(** * Byte and text encodings of the seal ([probe/fe/gr.seal.js])

    [Uint8Array]s, [btoa] and [atob], [TextEncoder], and the two hexadecimal
    printers of the module.  Base64 and UTF-8 are undone by their decoders on
    every input, and the two printers agree. *)

From S2P Require Import Prelude JsVal Uri Sha256 Json.
#[local] Open Scope Z_scope.

(** A [Uint8Array]: its bytes as 8-bit characters. *)
Definition bytes : Type := list ascii.

Definition byte_Z (c : ascii) : Z := Z.of_N (N_of_ascii c).
Definition Z_byte (z : Z) : ascii := ascii_of_N (Z.to_N z).

(** ** Base64 *)

(** The 64 characters, by value. *)
Definition b64_char (n : Z) : ascii :=
  Z_byte (if n <? 26 then 65 + n else if n <? 52 then 71 + n else
          if n <? 62 then n - 4 else if n =? 62 then 43 else 47).

Definition b64_val (c : ascii) : option Z :=
  let n := byte_Z c in
  if (65 <=? n) && (n <=? 90) then Some (n - 65) else
  if (97 <=? n) && (n <=? 122) then Some (n - 71) else
  if (48 <=? n) && (n <=? 57) then Some (n + 4) else
  if n =? 43 then Some 62 else if n =? 47 then Some 63 else None.

(** [btoa], on a binary string *)
Fixpoint btoa (s : string) : string :=
  match s with
  | String a (String b (String c s')) =>
    let x := byte_Z a in let y := byte_Z b in let z := byte_Z c in
    String (b64_char (x / 4)) (String (b64_char (x mod 4 * 16 + y / 16))
      (String (b64_char (y mod 16 * 4 + z / 64)) (String (b64_char (z mod 64)) (btoa s'))))
  | String a (String b EmptyString) =>
    let x := byte_Z a in let y := byte_Z b in
    String (b64_char (x / 4)) (String (b64_char (x mod 4 * 16 + y / 16))
      (String (b64_char (y mod 16 * 4)) "="))
  | String a EmptyString =>
    let x := byte_Z a in String (b64_char (x / 4)) (String (b64_char (x mod 4 * 16)) "==")
  | EmptyString => ""
  end.

(** The values of a run of characters of the alphabet. *)
Fixpoint b64_vals (s : string) : option (list Z) :=
  match s with
  | EmptyString => Some []
  | String c s' => match b64_val c, b64_vals s' with Some v, Some l => Some (v :: l) | _, _ => None end
  end.

(** Whole groups of four give three bytes; a last group of two or three gives
    one or two, its spare bits ignored. *)
Fixpoint unsextets (l : list Z) : option string :=
  match l with
  | x :: y :: z :: w :: l' =>
    option_map (fun s => String (Z_byte (x * 4 + y / 16)) (String (Z_byte (y mod 16 * 16 + z / 4))
                           (String (Z_byte (z mod 4 * 64 + w)) s))) (unsextets l')
  | [x; y; z] => Some (String (Z_byte (x * 4 + y / 16)) (String (Z_byte (y mod 16 * 16 + z / 4)) ""))
  | [x; y] => Some (String (Z_byte (x * 4 + y / 16)) "")
  | [_] => None
  | [] => Some ""
  end.

Fixpoint drop_spaces (s : string) : string :=
  match s with
  | EmptyString => ""
  | String c s' => if is_space c && negb (byte_Z c =? 11) then drop_spaces s' else String c (drop_spaces s')
  end.

(** Up to two [=] at the end, of a text whose length is a multiple of four. *)
Fixpoint strip_eq (s : string) : string :=
  match s with
  | EmptyString | String "="%char EmptyString | String "="%char (String "="%char EmptyString) => ""
  | String c s' => String c (strip_eq s')
  end.

Definition strip_pad (s : string) : string :=
  if Nat.eqb (String.length s mod 4) 0 then strip_eq s else s.

(** [atob]; [None] where it throws. *)
Definition atob (s : string) : option string :=
  match b64_vals (strip_pad (drop_spaces s)) with Some l => unsextets l | None => None end.

(** [b64ToBytes] *)
Definition b64ToBytes (b64 : string) : option bytes := option_map list_ascii_of_string (atob b64).

(** The loop of [bytesToB64]: [fuel] chunks of 0x8000 bytes at most. *)
Fixpoint from_chunks (fuel : nat) (chunk : nat) (u8 : bytes) : string :=
  match fuel, u8 with
  | S f, _ :: _ => string_of_list_ascii (take chunk u8) +:+ from_chunks f chunk (drop chunk u8)
  | _, _ => ""
  end.

(** [0x8000] *)
Definition CHUNK : nat := Z.to_nat 32768.

Definition bytesToB64 (u8 : bytes) : string := btoa (from_chunks (length u8) CHUNK u8).

(** [concatBytes] *)
Definition concatBytes (a b : bytes) : bytes := a ++ b.

(** ** UTF-8 *)

(** [TextEncoder.encode]: an 8-bit unit below 128 is one byte, the others two. *)
Fixpoint utf8 (s : string) : bytes :=
  match s with
  | EmptyString => []
  | String c s' =>
    let n := byte_Z c in
    if n <? 128 then c :: utf8 s' else Z_byte (192 + n / 64) :: Z_byte (128 + n mod 64) :: utf8 s'
  end.

(** Reading it back, on texts of 8-bit units. *)
Fixpoint from_utf8 (l : bytes) : option string :=
  match l with
  | [] => Some ""
  | c :: l1 =>
    let n := byte_Z c in
    if n <? 128 then option_map (String c) (from_utf8 l1) else
    match l1 with
    | d :: l2 =>
      let m := byte_Z d in
      if ((n =? 194) || (n =? 195)) && (128 <=? m) && (m <? 192)
      then option_map (String (Z_byte ((n - 192) * 64 + (m - 128)))) (from_utf8 l2) else None
    | [] => None
    end
  end.

(** ** Hexadecimal *)

(** [toHex]: [HEX[b >> 4] + HEX[b & 0xf]] *)
Fixpoint toHex (u8 : bytes) : string :=
  match u8 with
  | [] => ""
  | c :: l => String (hex_digit (Z.shiftr (byte_Z c) 4)) (String (hex_digit (Z.land (byte_Z c) 15)) (toHex l))
  end.

(** [sha256Hex]'s printer: [(b + 256).toString(16).slice(1)] *)
Fixpoint hex256 (u8 : bytes) : string :=
  match u8 with [] => "" | c :: l => sdrop 1 (to_radix 16 (byte_Z c + 256)) +:+ hex256 l end.

(** The reader of [toHex]'s output. *)
Fixpoint of_hex (s : string) : option bytes :=
  match s with
  | EmptyString => Some []
  | String a (String b s') =>
    match hex2 a b, of_hex s' with Some n, Some l => Some (ascii_of_N n :: l) | _, _ => None end
  | _ => None
  end.

(** [looksLikeWasmBinary]: eight bytes at least, beginning with [\0asm] *)
Definition looksLikeWasmBinary (u8 : bytes) : bool :=
  Nat.leb 8 (length u8) &&
  match map byte_Z u8 with
  | a :: b :: c :: d :: _ => (a =? 0) && (b =? 97) && (c =? 115) && (d =? 109)
  | _ => false
  end.

(** ** Round trips *)

Lemma byte_Z_range c : 0 <= byte_Z c < 256.
Proof. unfold byte_Z. pose proof (N_ascii_bounded c). lia. Qed.

Lemma Z_byte_Z c : Z_byte (byte_Z c) = c.
Proof. unfold Z_byte, byte_Z. rewrite N2Z.id. apply ascii_N_embedding. Qed.

Lemma byte_Z_byte z : 0 <= z < 256 -> byte_Z (Z_byte z) = z.
Proof. intros H. unfold Z_byte, byte_Z. rewrite N_ascii_embedding by lia. lia. Qed.

(** A property of the 64 values of a sextet, checked by evaluation. *)
Lemma all_sextets (P : Z -> bool) :
  forallb (fun n => P (Z.of_nat n)) (seq 0 64) = true -> forall z, 0 <= z < 64 -> P z = true.
Proof.
  intros H z Hz. rewrite forallb_forall in H. specialize (H (Z.to_nat z)).
  rewrite Z2Nat.id in H by lia. apply H, in_seq. lia.
Qed.

Lemma b64_val_char z : 0 <= z < 64 -> b64_val (b64_char z) = Some z.
Proof.
  intros Hz.
  pose proof (all_sextets (fun z => match b64_val (b64_char z) with Some v => v =? z | None => false end)
    ltac:(reflexivity) z Hz) as H. cbv beta in H.
  destruct (b64_val (b64_char z)); [|done]. breflect. by subst.
Qed.

Lemma b64_char_plain z : 0 <= z < 64 ->
  is_space (b64_char z) = false /\ Ascii.eqb (b64_char z) "=" = false.
Proof.
  intros Hz.
  pose proof (all_sextets (fun z => negb (is_space (b64_char z)) && negb (Ascii.eqb (b64_char z) "="))
    ltac:(reflexivity) z Hz) as H. cbv beta in H. breflect. done.
Qed.

(** The sextets of a byte string, and their number of padding characters. *)
Fixpoint sextets (s : string) : list Z :=
  match s with
  | String a (String b (String c s')) =>
    let x := byte_Z a in let y := byte_Z b in let z := byte_Z c in
    x / 4 :: x mod 4 * 16 + y / 16 :: y mod 16 * 4 + z / 64 :: z mod 64 :: sextets s'
  | String a (String b EmptyString) =>
    let x := byte_Z a in let y := byte_Z b in [x / 4; x mod 4 * 16 + y / 16; y mod 16 * 4]
  | String a EmptyString => let x := byte_Z a in [x / 4; x mod 4 * 16]
  | EmptyString => []
  end.

Definition padding (l : list Z) : string :=
  match (length l mod 4)%nat with 2%nat => "==" | 3%nat => "=" | _ => "" end.

Fixpoint b64_text (l : list Z) : string :=
  match l with [] => "" | x :: l' => String (b64_char x) (b64_text l') end.

(** Induction on a string three characters at a time. *)
Lemma string_ind3 (P : string -> Prop) :
  P "" -> (forall a, P (String a "")) -> (forall a b, P (String a (String b ""))) ->
  (forall a b c s, P s -> P (String a (String b (String c s)))) -> forall s, P s.
Proof.
  intros H0 H1 H2 H3. fix IH 1. intros [|a [|b [|c s]]]; [done|apply H1|apply H2|]. apply H3, IH.
Qed.

Ltac bytes_lia :=
  repeat match goal with |- context [byte_Z ?c] =>
    lazymatch goal with H : 0 <= byte_Z c < 256 |- _ => fail | _ => pose proof (byte_Z_range c) end end;
  repeat match goal with H : context [byte_Z ?c] |- _ => generalize dependent (byte_Z c); intros end;
  Z.div_mod_to_equations; lia.

Lemma sextets_range s : Forall (fun z => 0 <= z < 64) (sextets s).
Proof. induction s using string_ind3; simpl; repeat constructor; try done; bytes_lia. Qed.

Lemma padding_step x y z w l : padding (x :: y :: z :: w :: l) = padding l.
Proof. unfold padding. cbn [length]. replace (S (S (S (S (length l)))))%nat with (length l + 1 * 4)%nat by lia. by rewrite Nat.Div0.mod_add. Qed.

Lemma btoa_text s : btoa s = b64_text (sextets s) +:+ padding (sextets s).
Proof.
  induction s as [|a|a b|a b c s IH] using string_ind3; try done.
  cbn [btoa sextets b64_text]. rewrite padding_step, IH. by rewrite !append_cons.
Qed.

Lemma b64_text_plain l : Forall (fun z => 0 <= z < 64) l ->
  drop_spaces (b64_text l) = b64_text l /\ no_char "=" (b64_text l) = true /\ b64_vals (b64_text l) = Some l.
Proof.
  induction 1 as [|x l Hx Hl (IH1 & IH2 & IH3)]; [done|]. cbn [b64_text drop_spaces no_char b64_vals].
  destruct (b64_char_plain x Hx) as (-> & He). rewrite b64_val_char, IH1, IH2, IH3 by done.
  cbn [andb]. rewrite (Ascii.eqb_sym "=" _), He. done.
Qed.

Lemma drop_spaces_app a b : drop_spaces (a +:+ b) = drop_spaces a +:+ drop_spaces b.
Proof.
  induction a as [|c a IH]; [done|]. rewrite append_cons. cbn [drop_spaces]. rewrite IH. by destruct (_ && _).
Qed.

Lemma b64_text_length l : String.length (b64_text l) = length l.
Proof. induction l; simpl; congruence. Qed.

Lemma strip_eq_app a p : no_char "=" a = true -> mem_str p [""; "="; "=="] = true -> strip_eq (a +:+ p) = a.
Proof.
  intros Ha Hp. apply mem_str_In in Hp.
  induction a as [|c a IH]; [by destruct Hp as [<-|[<-|[<-|[]]]]|].
  rewrite append_cons. cbn [no_char] in Ha. breflect.
  destruct (Ascii.eqb_spec "=" c) as [|Hc]; [done|]. specialize (IH ltac:(done)).
  transitivity (String c (strip_eq (a +:+ p))); [|by rewrite IH].
  destruct c as [[] [] [] [] [] [] [] []]; done.
Qed.

Lemma sextets_length s : (length (sextets s) mod 4)%nat <> 1%nat.
Proof.
  induction s as [|a|a b|a b c s IH] using string_ind3; try done. cbn [sextets length].
  replace (S (S (S (S (length (sextets s))))))%nat with (length (sextets s) + 1 * 4)%nat by lia.
  by rewrite Nat.Div0.mod_add.
Qed.

Lemma strip_pad_btoa s : strip_pad (btoa s) = b64_text (sextets s).
Proof.
  rewrite btoa_text. destruct (b64_text_plain _ (sextets_range s)) as (_ & Hn & _).
  pose proof (sextets_length s) as Hl. pose proof (b64_text_length (sextets s)) as Ht.
  unfold strip_pad. set (l := sextets s) in *. clearbody l.
  assert (String.length (b64_text l +:+ padding l) mod 4 = 0)%nat as ->.
  { rewrite string_length_app, Ht. unfold padding.
    pose proof (Nat.mod_upper_bound (length l) 4 ltac:(lia)).
    pose proof (Nat.div_mod_eq (length l) 4) as Hd.
    destruct (length l mod 4)%nat as [|[|[|[|n]]]] eqn:E; try lia; cbn [String.length].
    - by rewrite Nat.add_0_r.
    - replace (length l + 2)%nat with (0 + (length l / 4 + 1) * 4)%nat by lia. by rewrite Nat.Div0.mod_add.
    - replace (length l + 1)%nat with (0 + (length l / 4 + 1) * 4)%nat by lia. by rewrite Nat.Div0.mod_add. }
  cbn [Nat.eqb]. apply strip_eq_app; [done|].
  unfold padding. by destruct (length l mod 4)%nat as [|[|[|[|n]]]].
Qed.

Lemma drop_spaces_btoa s : drop_spaces (btoa s) = btoa s.
Proof.
  rewrite btoa_text, drop_spaces_app. destruct (b64_text_plain _ (sextets_range s)) as (-> & _). f_equal.
  unfold padding. by destruct (length (sextets s) mod 4)%nat as [|[|[|[|n]]]].
Qed.

Lemma Z_byte_eq z c : z = byte_Z c -> Z_byte z = c.
Proof. intros ->. apply Z_byte_Z. Qed.

Lemma unsextets_sextets s : unsextets (sextets s) = Some s.
Proof.
  induction s as [|a|a b|a b c s IH] using string_ind3; cbn [sextets unsextets]; cbv zeta; [done|..].
  - do 2 f_equal. apply Z_byte_eq. bytes_lia.
  - do 2 f_equal; [|f_equal]; apply Z_byte_eq; bytes_lia.
  - rewrite IH. cbn [option_map]. do 2 f_equal; [|f_equal; [|f_equal]]; apply Z_byte_eq; bytes_lia.
Qed.

(** [atob] undoes [btoa] on every binary string. *)
Lemma atob_btoa s : atob (btoa s) = Some s.
Proof.
  unfold atob. rewrite drop_spaces_btoa, strip_pad_btoa.
  destruct (b64_text_plain _ (sextets_range s)) as (_ & _ & ->). apply unsextets_sextets.
Qed.

Lemma string_of_list_app a b :
  string_of_list_ascii (a ++ b) = string_of_list_ascii a +:+ string_of_list_ascii b.
Proof. induction a as [|c a IH]; [done|]. simpl. by rewrite IH. Qed.

(** Printing in chunks is printing at once. *)
Lemma from_chunks_eq fuel chunk u8 : (0 < chunk)%nat -> (length u8 <= fuel)%nat ->
  from_chunks fuel chunk u8 = string_of_list_ascii u8.
Proof.
  intros Hc. revert u8. induction fuel as [|f IH]; intros [|c u8] Hf; simpl in Hf; try done; [lia|].
  cbn [from_chunks]. rewrite IH.
  - by rewrite <- string_of_list_app, take_drop.
  - rewrite length_drop. cbn [length]. lia.
Qed.

Lemma bytesToB64_eq u8 : bytesToB64 u8 = btoa (string_of_list_ascii u8).
Proof. unfold bytesToB64. rewrite from_chunks_eq; [done|unfold CHUNK; lia|done]. Qed.

(** Every byte array survives base64. *)
Lemma b64_round_trip u8 : b64ToBytes (bytesToB64 u8) = Some u8.
Proof.
  unfold b64ToBytes. rewrite bytesToB64_eq, atob_btoa. simpl. by rewrite list_ascii_of_string_of_list_ascii.
Qed.

Lemma bytesToB64_inj a b : bytesToB64 a = bytesToB64 b -> a = b.
Proof. intros H. apply (f_equal b64ToBytes) in H. rewrite !b64_round_trip in H. by injection H. Qed.

(** Every text of 8-bit units survives UTF-8. *)
Lemma utf8_round_trip s : from_utf8 (utf8 s) = Some s.
Proof.
  induction s as [|c s IH]; [done|]. cbn [utf8]. cbv zeta. pose proof (byte_Z_range c) as Hc.
  destruct (Z.ltb_spec (byte_Z c) 128) as [Hlt|Hge].
  - cbn [from_utf8]. cbv zeta. destruct (Z.ltb_spec (byte_Z c) 128); [|lia]. by rewrite IH.
  - cbn [from_utf8]. cbv zeta.
    assert (2 <= byte_Z c / 64 <= 3) by (Z.div_mod_to_equations; lia).
    assert (0 <= byte_Z c mod 64 < 64) by (apply Z.mod_pos_bound; lia).
    rewrite !byte_Z_byte by lia.
    destruct (Z.ltb_spec (192 + byte_Z c / 64) 128); [lia|].
    replace (((192 + byte_Z c / 64 =? 194) || (192 + byte_Z c / 64 =? 195)) &&
             (128 <=? 128 + byte_Z c mod 64) && (128 + byte_Z c mod 64 <? 192)) with true.
    + rewrite IH. cbn [option_map]. do 2 f_equal. apply Z_byte_eq. Z.div_mod_to_equations. lia.
    + symmetry. rewrite !andb_true_iff, orb_true_iff, !Z.eqb_eq, Z.leb_le, Z.ltb_lt. lia.
Qed.

Lemma utf8_inj a b : utf8 a = utf8 b -> a = b.
Proof. intros H. apply (f_equal from_utf8) in H. rewrite !utf8_round_trip in H. by injection H. Qed.

Lemma utf8_app a b : utf8 (a +:+ b) = utf8 a ++ utf8 b.
Proof.
  induction a as [|c a IH]; [done|]. rewrite append_cons. cbn [utf8]. rewrite IH. by destruct (_ <? _).
Qed.

(** The two hexadecimal printers agree. *)
Lemma hex256_toHex u8 : hex256 u8 = toHex u8.
Proof.
  induction u8 as [|c l IH]; [done|]. cbn [hex256 toHex]. rewrite IH.
  destruct c as [[] [] [] [] [] [] [] []]; reflexivity.
Qed.

Lemma toHex_round_trip u8 : of_hex (toHex u8) = Some u8.
Proof.
  induction u8 as [|c l IH]; [done|]. cbn [toHex of_hex]. rewrite IH.
  destruct c as [[] [] [] [] [] [] [] []]; reflexivity.
Qed.

Lemma toHex_inj a b : toHex a = toHex b -> a = b.
Proof. intros H. apply (f_equal of_hex) in H. rewrite !toHex_round_trip in H. by injection H. Qed.

Lemma toHex_length u8 : String.length (toHex u8) = (2 * length u8)%nat.
Proof. induction u8 as [|c l IH]; [done|]. simpl. rewrite IH. lia. Qed.

#[export] Hint Rewrite b64_round_trip utf8_round_trip toHex_round_trip : grrw.

Example b64_1 : btoa "Man" = "TWFu" /\ btoa "Ma" = "TWE=" /\ btoa "M" = "TQ==" /\ atob " TW E= " = Some "Ma".
Proof. repeat split. Qed.
Example b64_2 : atob "TWE" = Some "Ma" /\ atob "TWF" = Some "Ma" /\ atob "T" = None /\ atob "TW*=" = None.
Proof. repeat split. Qed.
