(* ===== verification/SealSuite.v ===== *)
(** * Primitives the seal is built from

    Neither side of the seal implements its cryptography: the page calls
    [crypto.subtle] and [CompressionStream], the server the [sha2], [hmac],
    [aes-gcm], [flate2], [base64] and [serde_json] crates.  A [Suite] is what
    both call; [SuiteLaws] is the documented behaviour the protocol relies on:
    decryption, decompression, decoding and parsing undo their inverses, and a
    SHA-256 digest has 32 bytes.  [toy] is an instance, used by the witnesses
    only. *)

From S2P Require Import Prelude JsVal Json SealCodec.

Class Suite := {
  sha256 : bytes -> bytes;
  (** [hmac key message] *)
  hmac : bytes -> bytes -> bytes;
  (** AES-256-GCM: [gcm_seal key nonce plain] and [gcm_open key nonce cipher] *)
  gcm_seal : bytes -> bytes -> bytes -> bytes;
  gcm_open : bytes -> bytes -> bytes -> option bytes;
  (** raw deflate; [None] when the browser has no [CompressionStream] or it fails *)
  deflate : bytes -> option bytes;
  inflate : bytes -> option bytes;
  (** the server's base64 and JSON readers *)
  rs_b64_encode : bytes -> string;
  rs_b64_decode : string -> option bytes;
  serde_parse : bytes -> option val
}.

Class SuiteLaws `(Suite) : Prop := {
  sha_length m : length (sha256 m) = 32%nat;
  gcm_open_seal k n p : gcm_open k n (gcm_seal k n p) = Some p;
  inflate_deflate p c : deflate p = Some c -> inflate c = Some p;
  rs_encode_btoa u : rs_b64_encode u = bytesToB64 u;
  rs_decode_btoa u : rs_b64_decode (bytesToB64 u) = Some u;
  serde_json v t : json_ok v = true -> json_stringify v = Some t -> serde_parse (utf8 t) = Some v
}.

(** ** An instance *)

Fixpoint drop_prefix (p l : bytes) : option bytes :=
  match p, l with
  | [], _ => Some l
  | a :: p', b :: l' => if Ascii.eqb a b then drop_prefix p' l' else None
  | _ :: _, [] => None
  end.

Lemma drop_prefix_app p l : drop_prefix p (p ++ l) = Some l.
Proof. induction p as [|a p IH]; simpl; [done|]. by rewrite Ascii.eqb_refl. Qed.

(** A short checksum instead of a digest, concatenation instead of encryption. *)
Definition fold_byte (l : bytes) : Z := foldl (fun h c => (h * 31 + byte_Z c) mod 65521)%Z 7%Z l.
Definition toy_digest (m : bytes) : bytes :=
  map (fun i => Z_byte (fold_byte (m ++ [Z_byte (Z.of_nat i)]) mod 256)) (seq 0 32).

Definition toy : Suite := {|
  sha256 := toy_digest;
  hmac k m := toy_digest (k ++ m);
  gcm_seal k n p := k ++ n ++ p;
  gcm_open k n c := drop_prefix (k ++ n) c;
  deflate p := match p with [] => None | _ => Some (rev p) end;
  inflate c := Some (rev c);
  rs_b64_encode := bytesToB64;
  rs_b64_decode := b64ToBytes;
  serde_parse l := match from_utf8 l with Some t => json_parse t | None => None end
|}.

#[export] Instance toy_laws : SuiteLaws toy.
Proof.
  split; cbn -[toy_digest bytesToB64 b64ToBytes].
  - intros m. unfold toy_digest. by rewrite length_map, length_seq.
  - intros k n p. by rewrite app_assoc, drop_prefix_app.
  - intros p c H. destruct p as [|a p]; [done|]. injection H as <-. exact (f_equal Some (rev_involutive (a :: p))).
  - done.
  - apply b64_round_trip.
  - intros v t Hv Ht. rewrite utf8_round_trip.
    destruct (json_round_trip v Hv) as (t' & Ht' & Hp). congruence.
Qed.
