(* ===== verification/SealUrl.v ===== *)
(** * Where the seal's WASM comes from ([probe/fe/gr.seal.js])

    [resolveSealAssetUrl], the URL and glue-URL computation at the head of
    [ensureWasm], and the length and digest the module expects.  The browser's
    URL parser and the page's origin are a [Host]. *)

From S2P Require Import Prelude JsVal Window Registry PackUrl.
#[local] Open Scope Z_scope.

(** [location.origin] ([None] when there is none), [new URL(p, base).href]
    ([None] when it throws), [new URL(u)] as its [href], [hostname] and
    [pathname], and whether the [WebAssembly] functions and [crypto.subtle] exist. *)
Class Host := {
  loc_origin : option string;
  url_resolve : string -> string -> option string;
  url_parse : string -> option (string * string * string);
  wasmEnvSupported : bool;
  webcrypto : bool
}.

Definition SUITE_S2 : string := "s2-aesgcm-hkdf-v1".
Definition WASM_ID : string := "wm-v2-s2-20260806".
Definition WASM_EXPECT_LEN : Z := 28961.
Definition WASM_EXPECT_SHA256 : string := "c5b97b9ad21c3dc3a47b02d55f1409dc1d4442409b14b2a4dd81cd0d45ef4409".

(** ** String searches *)

(** The text before and after the first [p]. *)
Fixpoint cut_first (p s : string) : option (string * string) :=
  if String.prefix p s then Some ("", sdrop (String.length p) s) else
  match s with
  | EmptyString => None
  | String c s' => match cut_first p s' with Some (a, b) => Some (String c a, b) | None => None end
  end.

Definition not_slash (c : ascii) : bool := negb (Ascii.eqb c "/").

(** A nonempty segment and its slash; what follows. *)
Definition segment (s : string) : option string :=
  match span not_slash s with
  | (String _ _, String _ r) => Some r
  | _ => None
  end.

(** [u.replace(/\/dist\/v\/[^/]+\/(?:g\/[^/]+\/)?/, "/dist/")] *)
Definition dist_version (s : string) : option string :=
  if String.prefix "/dist/v/" s then
    match segment (sdrop 8 s) with
    | Some r =>
      if String.prefix "g/" r then
        match segment (sdrop 2 r) with Some r' => Some r' | None => Some r end
      else Some r
    | None => None
    end
  else None.

Fixpoint collapse_dist (s : string) : string :=
  match dist_version s with
  | Some r => "/dist/" +:+ r
  | None => match s with EmptyString => "" | String c s' => String c (collapse_dist s') end
  end.

(** [p.replace(/^\/g5(?=\/|$)/, "") || "/"] *)
Definition strip_g5 (p : string) : string :=
  if starts_with "/g5" p then
    match sdrop 3 p with
    | EmptyString => "/"
    | String "/"%char _ => sdrop 3 p
    | _ => p
    end
  else p.

(** [/^https?:\/\//i] followed by [rest], on the lower-cased text *)
Definition http_prefix (rest s : string) : bool :=
  starts_with ("http://" +:+ rest) (lower s) || starts_with ("https://" +:+ rest) (lower s).

(** [(global.o && global.o.k)] *)
Definition gsub (w : Win) (o k : string) : val :=
  let v := gget o w in jand v (prop v k).

Section Url.
Context {H : Host}.
Variable w : Win.

(** ** The asset root *)

Definition boot0 : val := jor (gget "__GR_BOOT__" w) empty_obj.

Definition raw_root : string :=
  strip_slash (to_string (jor (prop boot0 "assetBase") (jor (prop boot0 "script_base")
    (jor (prop boot0 "first_party_path") (jor (gget "__GR_ASSET_BASE__" w) (VStr "/g5")))))).

(** Dist paths are cut off the root. *)
Definition no_dist (r : string) : string :=
  if match cut_first "/dist/v/" r with Some (String _ _, _) => true | _ => false end ||
     starts_with (srev "/dist" "") (srev r "")
  then
    let r1 := match cut_first "/dist/" r with Some (a, _) => a | None => r end in
    let r2 := if starts_with (srev "/dist" "") (srev r1 "") then stake (String.length r1 - 5) r1 else r1 in
    sor r2 "/g5"
  else r.

Definition fe_load : string :=
  lower (to_string (jor (prop boot0 "fe_load") (jor (prop boot0 "feLoad")
    (jor (if gtrue "__GR_FIRST_PARTY__" w then VStr "first_party" else VStr "") (VStr ""))))).

Definition pvMode : bool := (fe_load =s "pv") || http_prefix "pv." (no_dist raw_root).

Definition assetRoot : string :=
  let r := no_dist raw_root in
  let api := strip_slash (to_string_or_empty (prop boot0 "apiBase")) in
  if (api <>s "") && (r =s api) && http_prefix "gv." api then (if pvMode then r else "/g5") else r.

Definition underRoot (p : string) : string :=
  if p =s "" then "" else
  if pvMode || http_prefix "" assetRoot then
    let p' := if starts_with "/g5/" p || (p =s "/g5") then strip_g5 p else p in
    match url_resolve p' (assetRoot +:+ "/") with
    | Some u => u
    | None => strip_slash assetRoot +:+ (if starts_with "/" p' then p' else "/" +:+ p')
    end
  else if starts_with "/" p then
    match loc_origin with Some o => o +:+ p | None => p end
  else sor assetRoot "/g5" +:+ "/" +:+ p.

Definition resolveSealAssetUrl (u : string) : string :=
  if u =s "" then underRoot "/g5/dist/gr_seal_v2.wasm" else
  if http_prefix "" u then
    match url_parse u with
    | Some (href, host, path) =>
      if starts_with "gv." (lower host) then
        let pathG := sor path "/" in
        underRoot (if starts_with "/g5/" pathG then strip_g5 pathG else pathG)
      else href
    | None => u
    end
  else underRoot (if starts_with "/" u then u else "/" +:+ u).

(** ** The WASM module and its glue *)

Definition seal_meta (k : string) : val :=
  jor (jand (gsub w "__GR_BOOT__" "seal_v2") (prop (gsub w "__GR_BOOT__" "seal_v2") k))
      (jand (gsub w "__GR_MANIFEST__" "seal_v2") (prop (gsub w "__GR_MANIFEST__" "seal_v2") k)).

(** Without a URL in the grant, the boot object or the manifest, the file of
    the asset generation. *)
Definition default_wasm_url : string :=
  let gen0 := to_string (jor (gsub w "__GR_MANIFEST__" "asset_gen")
                (jor (gget "__GR_ASSET_GEN__" w) (VStr ""))) in
  if gen0 <>s "" then "/g5/dist/gr_seal_v2." +:+ gen0 +:+ ".wasm" else "/g5/dist/gr_seal_v2.wasm".

Definition wasm_url (g : val) : string :=
  let u := jor (prop g "wasm_url") (seal_meta "wasm_url") in
  resolveSealAssetUrl (collapse_dist (if truthy u then to_string u else default_wasm_url)).

Definition is_hex_ci (c : ascii) : bool := is_hex (lower_ascii c).

(** The first match of [/gr_seal_v2(?:\.([a-f0-9]{8,16}))?\.wasm/i]: what is
    before it, the hash, what is after it. *)
Definition wasm_leaf (s : string) : option (string * string) :=
  if starts_with "gr_seal_v2" (lower s) then
    let r := sdrop 10 s in
    let hashed :=
      match r with
      | String "."%char t =>
        let '(h, t') := span is_hex_ci t in
        if Nat.leb 8 (String.length h) && Nat.leb (String.length h) 16 && starts_with ".wasm" (lower t')
        then Some (h, sdrop 5 t') else None
      | _ => None
      end in
    match hashed with
    | Some x => Some x
    | None => if starts_with ".wasm" (lower r) then Some ("", sdrop 5 r) else None
    end
  else None.

Fixpoint find_leaf (s : string) : option (string * string * string) :=
  match wasm_leaf s with
  | Some (h, t) => Some ("", h, t)
  | None =>
    match s with
    | EmptyString => None
    | String c s' => match find_leaf s' with Some (a, h, t) => Some (String c a, h, t) | None => None end
    end
  end.

(** [url.replace(/\.wasm.*/, "_loader.js")], on texts of one line *)
Definition loader_suffix (url : string) : string :=
  match cut_first ".wasm" url with Some (a, _) => a +:+ "_loader.js" | None => url end.

Definition derived_glue (url : string) : string :=
  match find_leaf url with
  | Some (a, h, _) =>
    if h <>s "" then a +:+ "gr_seal_v2_loader." +:+ h +:+ ".js" else
    sor (match cut_first ".wasm" url with
         | Some (String _ _, _) => a +:+ "gr_seal_v2_loader.js"
         | _ => ""
         end) (loader_suffix url)
  | None =>
    sor (match cut_first ".wasm" url with Some (String _ _, _) => url | _ => "" end) (loader_suffix url)
  end.

Definition glue_url (g : val) (url : string) : string :=
  let m := jor (prop g "loader_url")
    (jor (jand (gsub w "__GR_MANIFEST__" "seal_v2") (prop (gsub w "__GR_MANIFEST__" "seal_v2") "loader_url"))
    (jor (jand (gsub w "__GR_BOOT__" "seal_v2") (prop (gsub w "__GR_BOOT__" "seal_v2") "loader_url")) (VStr ""))) in
  resolveSealAssetUrl (collapse_dist (if truthy m then to_string m else derived_glue url)).

(** ** What the bytes must be *)

Definition wasmExpectFromBoot (g : val) : num * string :=
  let meta := jor (prop g "seal_v2")
    (jor (gsub w "__GR_BOOT__" "seal_v2") (jor (gsub w "__GR_MANIFEST__" "seal_v2") empty_obj)) in
  (to_num_or (jor (prop meta "wasm_bytes") (jor (prop meta "wasm_len")
     (jor (prop g "wasm_bytes") (vint WASM_EXPECT_LEN)))) (num_Z 0),
   lower (trim (to_string (jor (prop meta "wasm_sha256") (jor (prop meta "wasm_sha")
     (jor (prop g "wasm_sha256") (VStr WASM_EXPECT_SHA256))))))).
End Url.

(** ** Examples *)

Definition demo_host : Host :=
  {| loc_origin := Some "https://www.x"; url_resolve p b := Some (strip_slash b +:+ p);
     url_parse u :=
       if starts_with "https://gv.x" u then Some (u, "gv.x", sdrop 12 u) else
       if starts_with "https://pv.x" u then Some (u, "pv.x", sdrop 12 u) else None;
     wasmEnvSupported := true; webcrypto := true |}.

Definition pv_boot : Win :=
  gset "__GR_BOOT__" (VObj [("fe_load", VStr "pv"); ("assetBase", VStr "https://pv.x/dist/v/1")]) win0.

Example collapse_1 : collapse_dist "/g5/dist/v/1.2/g/ab/gr_seal_v2.wasm" = "/g5/dist/gr_seal_v2.wasm".
Proof. reflexivity. Qed.
Example collapse_2 : collapse_dist "/g5/dist/v/1.2" = "/g5/dist/v/1.2".
Proof. reflexivity. Qed.
Example glue_1 :
  derived_glue "/g5/dist/gr_seal_v2.0011aabbccdd.wasm?v=1" = "/g5/dist/gr_seal_v2_loader.0011aabbccdd.js" /\
  derived_glue "/g5/dist/gr_seal_v2.wasm" = "/g5/dist/gr_seal_v2_loader.js" /\
  derived_glue "/g5/dist/gr_seal_v2.xyz.wasm" = "/g5/dist/gr_seal_v2.xyz.wasm".
Proof. repeat split. Qed.
Example pv_url : wasm_url (H := demo_host) pv_boot (VObj [("wasm_url", VStr "/g5/dist/v/9/gr_seal_v2.wasm")]) =
  "https://pv.x/dist/gr_seal_v2.wasm".
Proof. reflexivity. Qed.
Example first_party_url : wasm_url (H := demo_host) win0 empty_obj = "https://www.x/g5/dist/gr_seal_v2.wasm".
Proof. reflexivity. Qed.

(** ** The remapping of the API host *)

(** On a first-party page (no [pv] mode, a relative asset root) a seal asset named
    under the API host is mapped to the page's origin without its [/g5] prefix, so it
    leaves the first-party path the header of the function promises. *)
Lemma gv_remap_drops_g5 (H : Host) w o u rest :
  pvMode w = false -> http_prefix "" (assetRoot w) = false -> loc_origin = Some o ->
  http_prefix "" u = true -> (exists href, url_parse u = Some (href, "gv.x", "/g5/" +:+ rest)) ->
  resolveSealAssetUrl w u = o +:+ "/" +:+ rest.
Proof.
  intros Hpv Hr Ho Hu (href & Hp). unfold resolveSealAssetUrl. rewrite Hu, Hp.
  destruct (String.eqb_spec u "") as [->|]; [done|].
  transitivity (underRoot w ("/" +:+ rest)); [by destruct rest|].
  unfold underRoot. rewrite Hpv, Hr, Ho. by destruct rest.
Qed.

(** Collapsing a versioned path leaves none at the first place it was found. *)
Lemma collapse_dist_other s : contains "/dist/v/" s = false -> collapse_dist s = s.
Proof.
  induction s as [|c s IH]; [done|]. intros H.
  assert (String.prefix "/dist/v/" (String c s) = false /\ contains "/dist/v/" s = false) as [Hp Hs].
  { change (String.prefix "/dist/v/" (String c s) || contains "/dist/v/" s = false) in H. by apply orb_false_iff in H. }
  cbn [collapse_dist]. unfold dist_version. rewrite Hp. by rewrite IH.
Qed.
