(* ===== verification/SealGrant.v ===== *)
(** * The session seal grant ([probe/fe/gr.seal.js])

    The module's variables, the grant it takes from the page
    ([setGrant], [adoptFromGlobals]), whether sealing is required, which
    session an upload is sealed for, the wait for a grant, and the
    synchronous part of [ensureWasm].

    The grant published on the window is a copy: the source publishes the
    object itself and later fills its [wasm_url] in place.  Only [setGrant]
    reads the copy again, and [adoptFromGlobals] calls it for a copy of the
    current grant never (session and expiry are equal).  [__GR_BOOT__] is
    absent or an object, and session ids are JSON primitives. *)

From Stdlib Require Import QArith.
From S2P Require Import Prelude JsVal Window Registry Freeze SealUrl.
#[local] Open Scope Z_scope.

(** [a === b] on primitives *)
Definition js_eq (a b : val) : bool :=
  match a, b with
  | VUndef, VUndef | VNull, VNull => true
  | VBool x, VBool y => Bool.eqb x y
  | VNum x, VNum y => num_eqb x y
  | VStr x, VStr y => x =s y
  | _, _ => false
  end.

(** ** State *)

Record sgrant := mkGrant {
  key_b64 : val; exp_ms : num; g_session : val; key_mode : val; seal_protocol : num;
  g_epoch : val; g_suite : val; g_wasm_id : val; g_wasm_url : val; require_wasm : bool;
  challenge_seed : val; g_algo : val
}.

(** The object [setGrant] publishes. *)
Definition grant_obj (g : sgrant) : val :=
  VObj [("key_b64", key_b64 g); ("exp_ms", VNum (exp_ms g)); ("session_id", g_session g);
        ("key_mode", key_mode g); ("seal_protocol", VNum (seal_protocol g)); ("fe_epoch", g_epoch g);
        ("suite_id", g_suite g); ("wasm_module_id", g_wasm_id g); ("wasm_url", g_wasm_url g);
        ("require_wasm", VBool (require_wasm g)); ("challenge_seed", challenge_seed g); ("algo", g_algo g)].

(** What a digest function of the WASM module answers: a value, a promise of
    one, or an exception. *)
Inductive bind_result := BSync (v : val) | BThen (v : val) | BThrow (msg : string).

(** [wasmApi]; the pure JavaScript one has [async_mode]. *)
Record wapi := mkApi {
  module_id : val; suite_id : val;
  challenge_bind : string -> string -> val -> bind_result;
  pack_set_hash : string -> bind_result;
  async_mode : bool
}.

(** [wasmLoadP]: absent, pending (with the URLs and the grant object the load
    started with, and the error of the glue path once that has failed), or
    left rejected. *)
Inductive wload := NoLoad | Loading (url glue : string) (g : val) (lastErr : option string) | Rejected (msg : string).

Record seal := mkSeal {
  grant : option sgrant;
  requireSealed : bool;
  wasmApi : option wapi;
  wasmLoadP : wload;
  swin : Win
}.

Definition eta_seal (s : seal) : seal :=
  mkSeal (grant s) (requireSealed s) (wasmApi s) (wasmLoadP s) (swin s).
Definition set_grant v (s : seal) : seal := ltac:(upd eta_seal grant s v).
Definition set_required v (s : seal) : seal := ltac:(upd eta_seal requireSealed s v).
Definition set_api v (s : seal) : seal := ltac:(upd eta_seal wasmApi s v).
Definition set_load v (s : seal) : seal := ltac:(upd eta_seal wasmLoadP s v).
Definition set_swin v (s : seal) : seal := ltac:(upd eta_seal swin s v).

Definition sget (k : string) (s : seal) : val := gget k (swin s).
Definition strue (k : string) (s : seal) : bool := gtrue k (swin s).
Definition sput (k : string) (v : val) (s : seal) : seal := set_swin (gset k v (swin s)) s.

Definition boot (s : seal) : val := jor (sget "__GR_BOOT__" s) empty_obj.
(** [global.__GR_BOOT__ = global.__GR_BOOT__ || {}; global.__GR_BOOT__.k = v] *)
Definition boot_put (k : string) (v : val) (s : seal) : seal :=
  sput "__GR_BOOT__" (VObj (set_prop k v (members_of (boot s)))) s.

(** ** Grants *)

Definition grantIsV2 (g : val) : bool :=
  truthy g &&
  (negb (num_ltb (to_num (jor (prop g "seal_protocol") (vint 0))) (num_Z 2) ||
         match to_num (jor (prop g "seal_protocol") (vint 0)) with NaN => true | _ => false end) ||
   is_str (prop g "algo") "gr_session_seal_v2" || truthy (prop g "suite_id")).

(** The grant [setGrant] builds from an object. *)
Definition grant_of (g : val) : sgrant :=
  mkGrant (jor (prop g "key_b64") (jor (prop g "keyB64") (VStr "")))
    (to_num (jor (prop g "exp_ms") (jor (prop g "expMs") (vint 0))))
    (jor (prop g "session_id") (jor (prop g "sessionId") (VStr "")))
    (jor (prop g "key_mode") (VStr "session"))
    (to_num (jor (prop g "seal_protocol") (vint (if is_str (prop g "algo") "gr_session_seal_v2" then 2 else 1))))
    (jor (prop g "fe_epoch") (jor (prop g "product_version") (VStr "")))
    (jor (prop g "suite_id") (VStr SUITE_S2))
    (jor (prop g "wasm_module_id") (VStr WASM_ID))
    (jor (prop g "wasm_url") (jor (prop g "wasm_url_flat") (VStr "")))
    (negb (is_false (prop g "require_wasm")))
    (jor (prop g "challenge_seed") (VStr ""))
    (jor (prop g "algo") (VStr "")).

(** What [ensureWasm] returns: a resolved, pending or rejected promise. *)
Inductive wasm_answer := WReady (a : wapi) | WPending | WRejected (msg : string).

Definition cap_obj (ok : bool) (reason : string) (rest : list (string * val)) : val :=
  VObj ([("ok", VBool ok); ("reason", VStr reason)] ++ rest).

Definition no_api_msg : string := "seal_wasm_unsupported: WebAssembly API missing".

Section Grant.
Context {H : Host}.

(** [ensureWasm], up to the first [await] of the load it starts. *)
Definition ensureWasm (g0 : val) (s : seal) : seal * wasm_answer :=
  match wasmApi s, wasmLoadP s with
  | Some a, _ => (s, WReady a)
  | None, Loading _ _ _ _ => (s, WPending)
  | None, Rejected m => (s, WRejected m)
  | None, NoLoad =>
    if strue "__GR_SEAL_WASM_DEAD__" s
    then (s, WRejected (to_string (jor (sget "__GR_SEAL_WASM_DEAD_ERR__" s) (VStr "seal_wasm_required: dead"))))
    else
    let g := jor g0 (match grant s with Some gr => grant_obj gr | None => empty_obj end) in
    let url := wasm_url (swin s) g in
    let glue := glue_url (swin s) g url in
    if negb wasmEnvSupported then
      (s |> sput "__GR_SEAL_WASM_DEAD__" (vint 1)
         |> sput "__GR_SEAL_WASM_DEAD_ERR__" (VStr no_api_msg)
         |> sput "__GR_SEAL_WASM_CAP__" (cap_obj false "no_webassembly_api" [])
         |> set_load (Rejected no_api_msg), WRejected no_api_msg)
    else
      (s |> sput "__GR_SEAL_WASM_CAP__" (cap_obj true "api_present" [])
         |> set_load (Loading url glue g None), WPending)
  end.

Definition setGrant (g : val) (s : seal) : seal :=
  if negb (truthy g && is_object g) then s else
  let gr := grant_of g in
  let s1 := s |> set_grant (Some gr) |> sput "__GR_SEAL_GRANT__" (grant_obj gr)
              |> boot_put "seal_grant" (grant_obj gr) in
  let s2 := if truthy (g_epoch gr) then sput "__GR_FE_EPOCH__" (g_epoch gr) s1 else s1 in
  if grantIsV2 (grant_obj gr) then fst (ensureWasm (grant_obj gr) s2) else s2.

Definition setRequireSealed (on : bool) (s : seal) : seal :=
  let s1 := s |> set_required on |> sput "__GR_REQUIRE_SEALED__" (VBool on) in
  let s2 := sput "__GR_BOOT__" (boot s1) s1 in
  if on then boot_put "require_sealed_ingest" (VBool true) s2 else s2.

Definition policy_requires (b : val) : bool :=
  truthy (prop b "require_sealed_ingest") ||
  (truthy (prop b "policy") && truthy (prop (prop b "policy") "require_sealed_ingest")).

Definition has_key (g : val) : bool := truthy (prop g "key_b64") || truthy (prop g "keyB64").

(** Whether a published grant [g] replaces the module's [gr]. *)
Definition replaces (g : val) (gr : sgrant) : bool :=
  let gExp := to_num (jor (prop g "exp_ms") (jor (prop g "expMs") (vint 0))) in
  let gSid := jor (prop g "session_id") (jor (prop g "sessionId") (VStr "")) in
  negb (truthy (key_b64 gr)) ||
  (truthy gSid && truthy (g_session gr) && negb (js_eq gSid (g_session gr))) ||
  (truthy (VNum gExp) && (negb (truthy (VNum (exp_ms gr))) || num_ltb (exp_ms gr) gExp)).

Definition adopt_grant (g : val) (s : seal) : seal :=
  if truthy g && has_key g then
    match grant s with
    | Some gr => if replaces g gr then setGrant g s else s
    | None => setGrant g s
    end
  else s.

Definition fill_wasm_url (b : val) (s : seal) : seal :=
  let meta := jor (prop b "seal_v2") (jor (gsub (swin s) "__GR_MANIFEST__" "seal_v2") VNull) in
  match grant s with
  | Some gr =>
    if truthy meta && truthy (prop meta "wasm_url") && negb (truthy (g_wasm_url gr))
    then set_grant (Some (mkGrant (key_b64 gr) (exp_ms gr) (g_session gr) (key_mode gr) (seal_protocol gr)
           (g_epoch gr) (g_suite gr) (g_wasm_id gr) (prop meta "wasm_url") (require_wasm gr)
           (challenge_seed gr) (g_algo gr))) s
    else s
  | None => s
  end.

Definition adoptFromGlobals (s : seal) : seal :=
  let b := boot s in
  let s1 := if strue "__GR_REQUIRE_SEALED__" s || policy_requires b then set_required true s else s in
  s1 |> adopt_grant (jor (sget "__GR_SEAL_GRANT__" s) (jor (prop b "seal_grant") VNull))
     |> fill_wasm_url b.

(** ** Is sealing required? *)

Definition first_party (s : seal) : bool :=
  strue "__GR_FIRST_PARTY__" s || truthy (prop (boot s) "first_party") || truthy (prop (boot s) "firstParty").

Definition prod_env (b : val) : bool :=
  truthy (prop b "env_id") && starts_with "prod" (to_string (prop b "env_id")).

Definition nginx (b : val) : bool := is_str (prop b "injectPath") "nginx" || is_str (prop b "inject_path") "nginx".

(** The answer once the globals are adopted. *)
Definition required (s : seal) : bool :=
  if requireSealed s then true else
  if strue "__GR_FORCE_PLAIN_INGEST__" s then false else
  strue "__GR_REQUIRE_SEALED__" s || policy_requires (boot s) || strue "__GR_SEEN_SEALED_REQUIRED__" s ||
  (first_party s && (prod_env (boot s) || nginx (boot s))).

Definition isRequireSealed (s : seal) : seal * bool :=
  let s1 := adoptFromGlobals s in (s1, required s1).

(** ** Is the grant valid? *)

Definition raw_valid (now : Z) (s : seal) : bool :=
  match grant s with
  | Some gr =>
    truthy (key_b64 gr) && negb (truthy (VNum (exp_ms gr)) && num_ltb (exp_ms gr) (num_Z now))
  | None => false
  end.

Definition valid_for (now : Z) (sid : string) (s : seal) : bool :=
  raw_valid now s &&
  match grant s with
  | Some gr => negb ((sid <>s "") && truthy (g_session gr) && negb (js_eq (g_session gr) (VStr sid)))
  | None => false
  end.

Definition grantRawValid (now : Z) (s : seal) : seal * bool :=
  let s1 := adoptFromGlobals s in (s1, raw_valid now s1).
Definition grantValid (now : Z) (sid : string) (s : seal) : seal * bool :=
  let s1 := adoptFromGlobals s in (s1, valid_for now sid s1).

(** The candidates of [resolveSealSessionId], in order. *)
Definition candidates (s : seal) : list string :=
  let str v := if truthy v then [to_string v] else [] in
  str (sget "__GR_SESSION_ID__" s) ++ str (sget "__GR_CYCLE_ID__" s) ++
  match grant s with Some gr => str (g_session gr) | None => [] end.

Definition resolve (now : Z) (want : string) (s : seal) : string :=
  if valid_for now want s then want else
  match List.find (fun c => (c <>s "") && valid_for now c s) (candidates s) with
  | Some c => c
  | None =>
    match grant s with
    | Some gr => if raw_valid now s && truthy (g_session gr) then to_string (g_session gr) else want
    | None => want
    end
  end.

Definition resolveSealSessionId (now : Z) (bodySid : string) (s : seal) : seal * string :=
  let s1 := adoptFromGlobals s in (s1, resolve now bodySid s1).

(** ** Waiting for a grant *)

Inductive wait := Resolved (b : bool) | Polling (timeoutMs : Z).

Definition waitForGrant (now : Z) (sid : string) (timeoutMs : option Z) (s : seal) : seal * wait :=
  let s1 := adoptFromGlobals s in
  let need := required s1 in
  let t := match timeoutMs with Some t => t | None => if need then 16000 else 4000 end in
  let r := resolve now sid s1 in
  if valid_for now sid s1 || ((sid <>s "") && (r <>s "") && valid_for now r s1) then (s1, Resolved true) else
  if raw_valid now s1 then (s1, Resolved true) else
  if negb need && (sid =s "") then (s1, Resolved false) else (s1, Polling t).

(** One turn of [tick], every 35 ms: [None] when it polls on. *)
Definition tick (start now : Z) (sid : string) (timeoutMs : Z) (s : seal) : seal * option bool :=
  let s1 := adoptFromGlobals s in
  if valid_for now (resolve now sid s1) s1 || raw_valid now s1 then (s1, Some true) else
  (s1, if timeoutMs <? now - start then Some false else None).

(** [global.GRSeal] as the module creates it. *)
Definition seal0 (w : Win) : seal := adoptFromGlobals (mkSeal None false None NoLoad w).

(** ** What adopting leaves alone *)

Lemma ensureWasm_frame g s :
  grant (fst (ensureWasm g s)) = grant s /\ requireSealed (fst (ensureWasm g s)) = requireSealed s /\
  wasmApi (fst (ensureWasm g s)) = wasmApi s.
Proof. unfold ensureWasm. by repeat case_match. Qed.

Lemma setGrant_grant g s : truthy g && is_object g = true -> grant (setGrant g s) = Some (grant_of g).
Proof.
  intros Hg. unfold setGrant. rewrite Hg. cbn -[ensureWasm grantIsV2 grant_of].
  destruct (grantIsV2 _); [rewrite (proj1 (ensureWasm_frame _ _))|]; by destruct (truthy (g_epoch _)).
Qed.

Lemma setGrant_required g s : requireSealed (setGrant g s) = requireSealed s.
Proof.
  unfold setGrant. destruct (negb _); [done|]. cbv zeta.
  destruct (grantIsV2 _); [rewrite (proj1 (proj2 (ensureWasm_frame _ _)))|]; by destruct (truthy (g_epoch _)).
Qed.

Lemma adopt_grant_required g s : requireSealed (adopt_grant g s) = requireSealed s.
Proof. unfold adopt_grant. by repeat case_match; rewrite ?setGrant_required. Qed.

Lemma fill_frame b s :
  requireSealed (fill_wasm_url b s) = requireSealed s /\ swin (fill_wasm_url b s) = swin s /\
  option_map key_b64 (grant (fill_wasm_url b s)) = option_map key_b64 (grant s) /\
  option_map exp_ms (grant (fill_wasm_url b s)) = option_map exp_ms (grant s) /\
  option_map g_session (grant (fill_wasm_url b s)) = option_map g_session (grant s).
Proof. unfold fill_wasm_url. cbv zeta. destruct (grant s) eqn:E; [case_match|]; cbn; rewrite ?E; repeat split. Qed.

Lemma adopt_required s :
  requireSealed (adoptFromGlobals s) =
    requireSealed s || strue "__GR_REQUIRE_SEALED__" s || policy_requires (boot s).
Proof.
  unfold adoptFromGlobals. rewrite (proj1 (fill_frame _ _)), adopt_grant_required.
  destruct (strue _ s), (policy_requires _); simpl; by rewrite ?orb_false_r, ?orb_true_r.
Qed.

(** ** A grant of the module is always a version 2 grant *)

Lemma jor_VStr_truthy a t : t <> "" -> truthy (jor a (VStr t)) = true.
Proof. intros Ht. rewrite jor_truthy, truthy_VStr. destruct (String.eqb_spec t ""); [done|]. by rewrite orb_true_r. Qed.

Lemma grant_of_v2 g : grantIsV2 (grant_obj (grant_of g)) = true.
Proof.
  unfold grantIsV2. cbn [truthy grant_obj andb]. apply orb_true_iff. right.
  by apply (jor_VStr_truthy (prop g "suite_id")).
Qed.
End Grant.
