(* ===== verification/SealWasm.v ===== *)
(** * Loading the seal's WASM ([probe/fe/gr.seal.js], [ensureWasm])

    What happens after [SealGrant.ensureWasm] has started a load: the glue
    path, the raw path and the pure JavaScript fallback.  The import, the
    responses and the module's functions are events of the environment; the
    checks on the bytes, the order of the paths and what each failure leaves
    behind are the module's.  [resolveBind] is how a digest is obtained from
    whatever was loaded. *)

From Stdlib Require Import QArith.
From S2P Require Import Prelude JsVal Window SealCodec SealSuite SealUrl SealGrant.
#[local] Open Scope Z_scope.

(** ** Bytes *)

(** A settled [fetch] with its [arrayBuffer]: a failure, or status, content
    type and bytes.  [r_snip] is the text of the first bytes, for the report. *)
Inductive response := NoResponse (msg : string) | Response (status : Z) (ct : string) (body : bytes) (snip : string).

(** [Uint8Array.length] as a number *)
Definition len_Z (b : bytes) : Z := Z.of_nat (length b).

(** The glue module [import] delivers: which initialiser it has, whether that
    throws, and its functions. *)
Record glue_mod := mkGlue {
  has_initSync : bool; has_default : bool; init_error : option string;
  m_module_id : option val; m_suite_id : option val;
  m_challenge_bind : string -> string -> val -> bind_result;
  m_pack_set_hash : string -> bind_result
}.

Inductive import_result := ImportFail (msg : string) | Imported (m : glue_mod).

(** [WebAssembly.instantiate]: the exports, with [challenge_bind] when it is a
    function. *)
Inductive instance_result :=
| InstFail (msg : string)
| Exports (cb : option (string -> string -> val -> bind_result)) (psh : string -> bind_result).

Section Wasm.
Context {H : Host} {S0 : Suite}.

(** [fetchWasmBytes], once the response is there. *)
Definition fetchWasmBytes (w : Win) (g : val) (r : response) : string + bytes :=
  match r with
  | NoResponse msg => inl msg
  | Response status ct body snip =>
    if negb ((200 <=? status) && (status <? 300)) then inl ("wasm_http_" +:+ Z_to_string status) else
    if negb (looksLikeWasmBinary body) then
      inl ("wasm_not_binary:ct=" +:+ stake 40 (if ct =s "" then "?" else lower ct) +:+ ";len=" +:+
           Z_to_string (len_Z body) +:+ ";snip=" +:+ stake 40 snip)
    else
    let '(len, sha) := wasmExpectFromBoot w g in
    if num_ltb (num_Z 0) len && negb (num_eqb (num_Z (len_Z body)) len) then
      inl ("wasm_len_mismatch:got=" +:+ Z_to_string (len_Z body) +:+ ";want=" +:+ num_to_string len)
    else
    if Nat.leb 32 (String.length sha) && negb webcrypto then inl "TypeError" else
    let got := hex256 (sha256 body) in
    if Nat.leb 32 (String.length sha) && (got <>s sha) then
      inl ("wasm_sha256_mismatch:got=" +:+ stake 16 got +:+ ";want=" +:+ stake 16 sha)
    else inr body
  end.

(** ** The paths *)

Definition api_obj (a : wapi) : val := VObj [("module_id", module_id a); ("suite_id", suite_id a)].

Definition install (a : wapi) (reason : string) (rest : list (string * val)) (s : seal) : seal :=
  s |> set_api (Some a) |> sput "__GR_SEAL_WASM__" (api_obj a)
    |> sput "__GR_SEAL_WASM_CAP__" (cap_obj true reason rest).

Definition glue_api (m : glue_mod) : wapi :=
  mkApi (default (VStr WASM_ID) (m_module_id m)) (default (VStr SUITE_S2) (m_suite_id m))
    (m_challenge_bind m) (m_pack_set_hash m) false.

(** Path A: the imported glue, initialised with checked bytes. *)
Definition pathA (w : Win) (g : val) (i : import_result) (r : response) : string + wapi :=
  match i with
  | ImportFail msg => inl msg
  | Imported m =>
    match fetchWasmBytes w g r with
    | inl msg => inl msg
    | inr _ =>
      if has_initSync m || has_default m then
        match init_error m with Some msg => inl msg | None => inr (glue_api m) end
      else inl "wasm_glue_no_init"
    end
  end.

(** Path B: the bytes instantiated without glue. *)
Definition pathB (w : Win) (g : val) (r : response) (i : instance_result) : string + wapi :=
  match fetchWasmBytes w g r with
  | inl msg => inl msg
  | inr _ =>
    match i with
    | InstFail msg => inl msg
    | Exports (Some cb) psh => inr (mkApi (VStr WASM_ID) (VStr SUITE_S2) cb psh false)
    | Exports None _ => inl "wasm_no_exports"
    end
  end.

(** Path C: [pureJsBindApi], whose synchronous functions answer [null]. *)
Definition pureJsBindApi : wapi :=
  mkApi (VStr WASM_ID) (VStr SUITE_S2) (fun _ _ _ => BSync VNull) (fun _ => BSync VNull) true.

Definition allowJs (s : seal) : bool :=
  strue "__GR_SEAL_ALLOW_JS_BIND__" s || truthy (gsub (swin s) "__GR_BOOT__" "seal_allow_js_bind").

(** Path C, or the permanent failure. *)
Definition pathC (url err : string) (s : seal) : seal * wasm_answer :=
  let '(s1, need) := if allowJs s then (s, false) else isRequireSealed s in
  if need then
    let msg := "seal_wasm_required: " +:+ err in
    (s1 |> sput "__GR_SEAL_WASM_DEAD__" (vint 1)
        |> sput "__GR_SEAL_WASM_DEAD_ERR__" (VStr (stake 200 msg))
        |> sput "__GR_SEAL_WASM_CAP__"
             (cap_obj false "load_failed" [("err", VStr (stake 160 msg)); ("url", VStr (stake 120 url))])
        |> set_load (Rejected msg), WRejected msg)
  else
    (install pureJsBindApi "js_fallback" [] s1 |> sput "__GR_SEAL_WASM_JS_FALLBACK__" (vint 1),
     WReady pureJsBindApi).

Definition url_rest (url : string) : list (string * val) := [("url", VStr (stake 120 url))].

(** The glue path settles; on failure the raw path is next. *)
Definition glue_settles (i : import_result) (r : response) (s : seal) : seal * wasm_answer :=
  match wasmLoadP s with
  | Loading url glue g None =>
    match pathA (swin s) g i r with
    | inr a => (install a "glue_ok" (url_rest url) s, WReady a)
    | inl e => (set_load (Loading url glue g (Some e)) s, WPending)
    end
  | _ => (s, WPending)
  end.

(** The raw path settles. *)
Definition raw_settles (r : response) (i : instance_result) (s : seal) : seal * wasm_answer :=
  match wasmLoadP s with
  | Loading url glue g (Some _) =>
    match pathB (swin s) g r i with
    | inr a => (install a "raw_instantiate" (url_rest url) s, WReady a)
    | inl e => pathC url e s
    end
  | _ => (s, WPending)
  end.

(** ** Digests *)

(** [String(x || "")] of the epoch *)
Definition js_challenge_bind (sid seed : string) (epoch : val) : string :=
  toHex (sha256 (utf8 "gr-challenge-bind-v2|" ++ utf8 sid ++ utf8 "|" ++ utf8 seed ++ utf8 "|" ++
                 utf8 (to_string_or_empty epoch))).
Definition js_pack_set_hash (joined : string) : string :=
  toHex (sha256 (utf8 "gr-pack-set-v2|" ++ utf8 joined)).

(** [resolveBind]: a promise is taken as it settles, a falsy synchronous
    answer falls back to the JavaScript digest. *)
Definition resolveBind (r : bind_result) (js : string) : string + val :=
  match r with
  | BThrow msg => inl msg
  | BThen v => inr v
  | BSync v => inr (if truthy v then v else VStr js)
  end.

Definition bindChallenge (a : wapi) (sid seed : string) (epoch : val) : string + val :=
  let js := js_challenge_bind sid seed epoch in
  if async_mode a then inr (VStr js) else resolveBind (challenge_bind a sid seed epoch) js.

Definition bindPack (a : wapi) (joined : string) : string + val :=
  let js := js_pack_set_hash joined in
  if async_mode a then inr (VStr js) else resolveBind (pack_set_hash a joined) js.

(** ** The events of the module *)

(** What can happen to the module: another call of [ensureWasm], a grant set
    or adopted from the page, the page writing a global, the two paths settling. *)
Inductive wevent :=
| WEnsure (g : val)
| WSetGrant (g : val)
| WAdopt
| WRequire (on : bool)
| WPage (k : string) (v : val)
| WGlue (i : import_result) (r : response)
| WRaw (r : response) (i : instance_result).

Definition wstep (e : wevent) (s : seal) : seal :=
  match e with
  | WEnsure g => fst (ensureWasm g s)
  | WSetGrant g => setGrant g s
  | WAdopt => adoptFromGlobals s
  | WRequire on => setRequireSealed on s
  | WPage k v => sput k v s
  | WGlue i r => fst (glue_settles i r s)
  | WRaw r i => fst (raw_settles r i s)
  end.

Definition wrun (l : list wevent) (s : seal) : seal := foldl (fun s e => wstep e s) s l.
End Wasm.
