(* ===== verification/SealEnvelope.v ===== *)
(** * Sealing an upload ([probe/fe/gr.seal.js])

    [sealIngestBodyV2], [sealIngestBodyV1], [sealIngestBody] and
    [prepareUpload].  They are asynchronous: between two awaits anything on
    the page can change the module's variables, so each takes the state it
    finds after every await as an argument ([stages], [prep_run]), and the
    theorems quantify over all of them.

    A body is an object whose [payload] and [payload.fields], when present,
    are objects; a check the source repeats at the same moment is made once;
    sealing stamps and re-sessions it in place, so every
    operation also returns the body it leaves. *)

From Stdlib Require Import QArith.
From S2P Require Import Prelude JsVal Window Json PackUrl Registry Freeze SealCodec SealSuite SealUrl SealGrant SealWasm.
#[local] Open Scope Z_scope.

Definition ALGO_DEFLATE : string := "aes256gcm+hmacsha256+deflate".
Definition ALGO_IDENTITY : string := "aes256gcm+hmacsha256+identity".

(** [o.k = v] and [o[k]] made an object when falsy *)
Definition put (k : string) (v : val) (o : val) : val := VObj (set_prop k v (members_of o)).
Definition sub_obj (o : val) (k : string) : val := jor (prop o k) empty_obj.

Definition body_sid (b : val) : string := to_string_or_empty (prop b "session_id").
Definition body_bid (b : val) : string := to_string_or_empty (prop b "batch_id").
Definition body_fields (b : val) : val := jand (prop b "payload") (prop (prop b "payload") "fields").

(** [if (body && sid && body.session_id !== sid) body.session_id = sid] *)
Definition set_body_sid (sid : string) (b : val) : val :=
  if (sid <>s "") && negb (js_eq (prop b "session_id") (VStr sid)) then put "session_id" (VStr sid) b else b.

Record envelope := mkEnvelope {
  e_v : Z; e_alg : string; e_session : string; e_vt : string; e_batch : string;
  e_nonce : string; e_ct : string; e_sig : string; e_key_mode : string; e_exp : num;
  e_meta : option (val * val * val * string * string)
}.

(** The members version 2 adds: suite, epoch, WASM module, challenge bind and
    pack-set hash. *)
Definition envelope_obj (e : envelope) : val :=
  VObj ([("v", vint (e_v e)); ("alg", VStr (e_alg e)); ("session_id", VStr (e_session e));
         ("visitor_terminal_id", VStr (e_vt e)); ("batch_id", VStr (e_batch e));
         ("nonce_b64", VStr (e_nonce e)); ("ciphertext_b64", VStr (e_ct e)); ("sig_b64", VStr (e_sig e));
         ("key_mode", VStr (e_key_mode e)); ("seal_exp_ms", VNum (e_exp e))] ++
        match e_meta e with
        | Some (su, ep, wm, ch, ps) =>
          [("suite_id", su); ("fe_epoch", ep); ("wasm_module_id", wm);
           ("challenge_bind", VStr ch); ("pack_set_hash", VStr ps)]
        | None => []
        end).

(** The parts the signature covers, in order. *)
Definition mac_parts (e : envelope) : list string :=
  match e_meta e with
  | Some (su, ep, wm, ch, ps) =>
    ["v2|"; e_session e; "|"; e_vt e; "|"; e_batch e; "|"; to_string su; "|"; to_string ep; "|";
     to_string wm; "|"; ch; "|"; ps; "|"; e_nonce e; "|"; e_ct e]
  | None => ["v1|"; e_session e; "|"; e_vt e; "|"; e_batch e; "|"; e_nonce e; "|"; e_ct e]
  end.

Definition mac_input (e : envelope) : bytes := concat (map utf8 (mac_parts e)).

Definition set_sig (sig : string) (e : envelope) : envelope :=
  mkEnvelope (e_v e) (e_alg e) (e_session e) (e_vt e) (e_batch e) (e_nonce e) (e_ct e) sig
    (e_key_mode e) (e_exp e) (e_meta e).

Section Envelope.
Context {H : Host} {S0 : Suite}.

(** ** Keys and compression *)

Definition derive (label : string) (secret : bytes) : bytes := sha256 (concatBytes (utf8 label) secret).
Definition deriveKeysV2 (secret : bytes) : bytes * bytes :=
  (derive "gr-seal-enc-v2" secret, derive "gr-seal-mac-v2" secret).
Definition deriveKeysV1 (secret : bytes) : bytes * bytes :=
  (derive "gr-seal-enc-v1" secret, derive "gr-seal-mac-v1" secret).

Definition hmacSha256B64 (key : bytes) (msg : bytes) : string := bytesToB64 (hmac key msg).

Definition preparePlainForAes (u8 : bytes) : bytes * string :=
  match deflate u8 with
  | Some (c :: l) => (c :: l, ALGO_DEFLATE)
  | _ => (u8, ALGO_IDENTITY)
  end.

(** ** What is bound and stamped *)

Definition grant_epoch (s : seal) : val := match grant s with Some g => g_epoch g | None => VUndef end.

Definition buildPackSetParts (s : seal) (body : val) : string :=
  let epoch := jor (grant_epoch s) (jor (sget "__GR_SERVER_PRODUCT_VERSION__" s)
                 (jor (sget "__GR_PRODUCT_VERSION__" s) (VStr ""))) in
  let fields := jor (body_fields body) (jor (prop body "fields") empty_obj) in
  let algo := to_string (jor (prop fields "cpu_loop_algo") (jor (prop fields "cpu_loop_algo_build") (VStr ""))) in
  let feImpl := to_string (jor (prop fields "fe_impl_version") (jor (prop fields "fe_packs_version") (VStr ""))) in
  let hard := to_string (jor (sget "__GR_FE_HARD_IMPL__" s) (jor (gsub (swin s) "__GR_FE_IMPL__" "hard") (VStr ""))) in
  let consumed := jor (sget "__GR_DAG_V2_CONSUMED__" s) VNull in
  let dagVer := if truthy consumed then to_string (jor (prop consumed "version") (vint 0)) else "" in
  let dagEngine := if truthy consumed then to_string (jor (prop consumed "engine") (VStr "unknown")) else "" in
  join "|" [to_string epoch; body_bid body; sor algo "-"; sor (sor feImpl hard) "-"; WASM_ID;
            sor dagVer "0"; sor dagEngine "unknown"].

Definition challengeSeedMaterial (s : seal) : string :=
  to_string (jor (match grant s with Some g => challenge_seed g | None => VUndef end)
    (jor (prop (boot s) "challenge_seed") (jor (sget "__GR_CHALLENGE_SEED__" s)
      (jor (gsub (swin s) "__GR_OPEN__" "challenge_seed") (VStr "open_seed_pending"))))).

(** The honesty fields written into [body.payload.fields]. *)
Definition stamp_fields (s : seal) (epoch suite wasmId : val) (f : list (string * val)) : list (string * val) :=
  let f1 := fill_falsy "fe_impl_version"
    (jor (sget "__GR_FE_IMPL_VERSION__" s) (jor (gsub (swin s) "__GR_FE_IMPL__" "content") epoch)) f in
  let f2 := fill_falsy "fe_packs_version" (assoc "fe_impl_version" f1) f1 in
  let f3 := f2 |> set_prop "client_fe_epoch" epoch |> set_prop "seal_suite_id" suite
               |> set_prop "seal_wasm_module_id" wasmId in
  let dag := sget "__GR_DAG_V2_CONSUMED__" s in
  if truthy dag then
    f3 |> set_prop "dag_v2_version" (jor (prop dag "version") (vint 0))
       |> set_prop "dag_v2_engine" (jor (prop dag "engine") (VStr "unknown"))
  else f3.

Definition stamp_body (s : seal) (epoch suite wasmId : val) (b : val) : val :=
  let p := sub_obj b "payload" in
  let f := sub_obj p "fields" in
  put "payload" (put "fields" (VObj (stamp_fields s epoch suite wasmId (members_of f))) p) b.

(** [... || "vt_unknown"]; [storage] is [GRStorage.visitorTerminalId()]. *)
Definition terminal_id (s : seal) (storage : val) (b : val) : string :=
  let p := prop b "payload" in
  let vt := jor (jand p (jand (prop p "fields") (prop (prop p "fields") "visitor_terminal_id")))
    (jor (jand p (prop p "visitor_terminal_id")) (jor (sget "__GR_VTID__" s) (VStr ""))) in
  to_string (jor (if truthy vt then vt else storage) (VStr "vt_unknown")).

(** ** [sealIngestBodyV2] *)

(** The module after each await of a seal: the WASM load, the challenge bind,
    the pack bind, the encryption; and what the browser draws and stores. *)
Record stages := mkStages {
  st_wasm : seal; st_chal : seal; st_pack : seal; st_enc : seal;
  st_nonce : bytes; st_storage : val
}.

Definition type_error : string := "TypeError".

(** Before the first await: the session and the checks on the grant. *)
Definition seal_begin (now : Z) (body : val) (s : seal) : (string + string) * val * seal :=
  if negb webcrypto then (inl "webcrypto_unavailable", body, s) else
  let s1 := adoptFromGlobals s in
  let '(s2, sid) := resolveSealSessionId now (body_sid body) s1 in
  let b := set_body_sid sid body in
  let '(s3, ok) := grantValid now sid s2 in
  if negb ok then (inl "seal_grant_missing", b, s3) else
  if negb (match grant s3 with Some g => grantIsV2 (grant_obj g) | None => false end)
  then (inl "seal_grant_not_v2", b, s3) else (inr sid, b, s3).

(** The encryption and the signature, once the binds are known. *)
Definition encrypt_v2 (st : stages) (g : sgrant) (sid : string) (epoch suite wasmId : val)
    (ch psh : val) (b : val) : string + envelope :=
  match b64ToBytes (to_string (key_b64 g)), json_stringify b, grant (st_enc st) with
  | Some secret, Some text, Some g' =>
    let '(enc, mac) := deriveKeysV2 secret in
    let '(pre, alg) := preparePlainForAes (utf8 text) in
    let e := mkEnvelope 2 alg sid (terminal_id (st_enc st) (st_storage st) b) (body_bid b)
      (bytesToB64 (st_nonce st)) (bytesToB64 (gcm_seal enc (st_nonce st) pre)) "" "session"
      (if truthy (VNum (exp_ms g')) then exp_ms g' else num_Z 0)
      (Some (suite, epoch, wasmId, to_string (jor ch (VStr "")), to_string (jor psh (VStr "")))) in
    inr (set_sig (hmacSha256B64 mac (mac_input e)) e)
  | None, _, _ => inl "InvalidCharacterError"
  | _, _, _ => inl type_error
  end.

Definition sealIngestBodyV2 (now : Z) (st : stages) (w : wasm_answer) (body : val) (s : seal)
    : (string + envelope) * val :=
  match seal_begin now body s with
  | (inl e, b, _) => (inl e, b)
  | (inr sid, b, _) =>
    match w, grant (st_wasm st), grant (st_pack st) with
    | WReady api, Some g, Some gk =>
      let epoch := jor (g_epoch g) (jor (sget "__GR_PRODUCT_VERSION__" (st_wasm st)) (VStr "")) in
      let suite := jor (g_suite g) (VStr SUITE_S2) in
      let wasmId := jor (module_id api) (jor (g_wasm_id g) (VStr WASM_ID)) in
      match bindChallenge api sid (challengeSeedMaterial (st_wasm st)) epoch with
      | inl e => (inl e, b)
      | inr ch =>
        match bindPack api (buildPackSetParts (st_chal st) b) with
        | inl e => (inl e, b)
        | inr psh =>
          let b' := stamp_body (st_pack st) epoch suite wasmId b in
          (encrypt_v2 st gk sid epoch suite wasmId ch psh b', b')
        end
      end
    | WReady _, _, _ => (inl type_error, b)
    | WRejected e, _, _ => (inl e, b)
    | WPending, _, _ => (inl "seal_timeout", b)
    end
  end.

(** ** [sealIngestBodyV1] *)

Definition sealIngestBodyV1 (now : Z) (st : stages) (body : val) (s : seal) : (string + envelope) * val :=
  if negb webcrypto then (inl "webcrypto_unavailable", body) else
  let s1 := adoptFromGlobals s in
  let '(s2, sid) := resolveSealSessionId now (body_sid body) s1 in
  let b := set_body_sid sid body in
  let '(s3, ok) := grantValid now sid s2 in
  if negb ok then (inl "seal_grant_missing", b) else
  match grant s3, grant (st_enc st) with
  | Some g, Some g' =>
    match b64ToBytes (to_string (key_b64 g)), json_stringify b with
    | Some secret, Some text =>
      let '(enc, mac) := deriveKeysV1 secret in
      let '(pre, alg) := preparePlainForAes (utf8 text) in
      let p := prop b "payload" in
      let vt := jor (jand p (jand (prop p "fields") (prop (prop p "fields") "visitor_terminal_id")))
                  (jor (sget "__GR_VTID__" (st_enc st)) (VStr "vt_unknown")) in
      let e := mkEnvelope 1 alg sid (to_string (jor vt (VStr "vt_unknown"))) (body_bid b)
        (bytesToB64 (st_nonce st)) (bytesToB64 (gcm_seal enc (st_nonce st) pre)) "" "session"
        (if truthy (VNum (exp_ms g')) then exp_ms g' else num_Z 0) None in
      (inr (set_sig (hmacSha256B64 mac (mac_input e)) e), b)
    | None, _ => (inl "InvalidCharacterError", b)
    | _, None => (inl type_error, b)
    end
  | _, _ => (inl type_error, b)
  end.

Definition sealIngestBody (now : Z) (st : stages) (w : wasm_answer) (body : val) (s : seal)
    : (string + envelope) * val :=
  let s1 := adoptFromGlobals s in
  if match grant s1 with Some g => grantIsV2 (grant_obj g) | None => false end
  then sealIngestBodyV2 now st w body s1
  else
    let '(s2, need) := isRequireSealed s1 in
    if need && negb (strue "__GR_SEAL_ALLOW_V1__" s2 || strue "__GR_FORCE_PLAIN_INGEST__" s2)
    then (inl "seal_v2_required", body)
    else sealIngestBodyV1 now st body s2.

(** ** [prepareUpload] *)

(** What is posted: URL, text, whether sealed, and the session it is for. *)
Record wire := mkWire { w_url : string; w_body : string; w_sealed : bool; w_session : option string }.

(** What the page does while an upload is prepared: the clock and the module
    when the wait for a grant ends, the answer of the WASM preload and of the
    load inside the seal, the clock and the module when sealing starts, its stages, whether
    the timer beats it, and the module at the end. *)
Record prep_run := mkRun {
  r_now : Z; r_granted : seal; r_preload : wasm_answer;
  r_seal_now : Z; r_start : seal; r_wasm : wasm_answer; r_stages : stages; r_timeout : bool; r_end : seal
}.

Definition ingest_base (apiBase : string) : string := strip_slash apiBase.

Definition body_text (b : val) : string := default "undefined" (json_stringify b).

Definition plain_wire (base : string) (b : val) : wire :=
  mkWire (base +:+ "/v1/ingest") (body_text b) false None.

Definition heavySeal (bid : string) : bool :=
  starts_with "B10" bid || starts_with "B10x_" bid || (bid =s "B0_bootstrap") || (bid =s "B7_sandbox").

Definition grant_timeout (need : bool) (bid : string) : Z :=
  if negb need then 400 else if heavySeal bid then 20000 else 16000.

Definition heavyCrypto (bid : string) : bool :=
  starts_with "B10x_" bid || (bid =s "B10_hw_curves") || (bid =s "B7_sandbox").

Definition seal_timeout_ms (need : bool) (bid : string) : Z :=
  if need then (if heavyCrypto bid then 18000 else 12000) else 2500.

(** Once the wait is over: go on with a session and a body, or stop. *)
Inductive granted := GSeal (sid : string) (b : val) | GPlain (b : val) | GFail (e : string) (b : val).

Definition force_sid (sid : string) (b : val) : val := if sid <>s "" then put "session_id" (VStr sid) b else b.

Definition after_wait (now : Z) (need : bool) (sid0 : string) (body : val) (s : seal) (preload : wasm_answer) : granted :=
  let '(s1, sid) := resolveSealSessionId now sid0 s in
  let b := force_sid sid body in
  let '(s2, ok) := grantValid now sid s1 in
  if negb need then (if ok then GSeal sid b else GPlain b) else
  let '(s3, raw) := grantRawValid now s2 in
  if negb ok && negb raw then GFail "seal_grant_unavailable" b else
  let g_sid := match grant s3 with Some g => g_session g | None => VUndef end in
  let '(sid', b') := if negb ok && raw && truthy g_sid
                     then (to_string g_sid, put "session_id" (VStr (to_string g_sid)) b) else (sid, b) in
  let '(s4, ok') := grantValid now sid' s3 in
  if negb ok' then GFail "seal_grant_unavailable" b' else
  if match grant s4 with Some g => grantIsV2 (grant_obj g) | None => false end then
    match preload with
    | WReady _ => GSeal sid' b'
    | WRejected e => GFail e b'
    | WPending => GFail "pending" b'
    end
  else GSeal sid' b'.

Definition prepareUpload (r : prep_run) (apiBase : string) (body : val) (s : seal) : (string + wire) * val :=
  let base := ingest_base apiBase in
  let s1 := adoptFromGlobals s in
  let '(s2, need) := isRequireSealed s1 in
  if strue "__GR_FORCE_PLAIN_INGEST__" s2 && negb need then (inr (plain_wire base body), body) else
  match after_wait (r_now r) need (body_sid body) body (r_granted r) (r_preload r) with
  | GPlain b => (inr (plain_wire base b), b)
  | GFail e b => (inl e, b)
  | GSeal sid b =>
    let '(res, b') := sealIngestBody (r_seal_now r) (r_stages r) (r_wasm r) b (r_start r) in
    match (if r_timeout r then inl "seal_timeout" else res) with
    | inr env => (inr (mkWire (base +:+ "/v1/ingest/sealed") (body_text (envelope_obj env)) true (Some sid)), b')
    | inl e =>
      if need || snd (isRequireSealed (r_end r)) then (inl e, b') else (inr (plain_wire base b'), b')
    end
  end.
End Envelope.
