(* ===== verification/SealServer.v ===== *)
(** * The receiving side of the seal
      ([crates/gr-probe-core/src/seal_v2.rs], [crates/gr-probe-plane/src/handlers.rs])

    What the server does with a sealed upload: it issues grants, re-derives
    the key of a session from its master secret, checks the envelope's policy
    and signature, opens it and gates its content.  The environment variables
    it reads are a [policy]; the [fe_impl] check that depends on several more
    of them is the policy's [p_fe_impl_ok].  The labels, the ids, the list of
    signed parts and the key derivations are the server's own, read from the
    Rust; [SealProtocol] proves that they agree with the page's.  Texts are
    UTF-8 of the model's 8-bit characters; that [serde] also takes an envelope
    written as an array of its members is left out. *)

From Stdlib Require Import QArith.
From S2P Require Import Prelude JsVal SealCodec SealSuite SealUrl SealGrant SealWasm SealEnvelope.
#[local] Open Scope Z_scope.

Record policy := mkPolicy {
  p_require_v2 : bool;
  p_epochs : list string;
  p_suites : list string;
  p_wasm : list string;
  p_allow_b10_v2 : bool;
  p_allow_empty_fe_impl : bool;
  p_fe_impl_ok : string -> bool
}.

Inductive seal_error := BadSignature | Expired | TooLarge | Crypto | Io | Json | Envelope (msg : string).

(** [MAX_DECOMPRESSED_BYTES] *)
Definition MAX_BYTES : Z := 2 * 1024 * 1024.

Definition B10_ALLOWED : list string := ["gr_cpu_curve_v3_multiround"; "v3_multiround"].
Definition B10_LEGACY : list string := ["gr_cpu_curve_v2_multiworkload"; "v2_multiworkload"].

(** [SEAL_SUITE_S2_AESGCM_HKDF_V1] and [SEAL_WASM_MODULE_ID] *)
Definition SEAL_SUITE : string := "s2-aesgcm-hkdf-v1".
Definition SEAL_WASM_MODULE_ID : string := "wm-v2-s2-20260806".

Record SealedEnvelope := mkSealed {
  v_v : Z; v_alg : string; v_session : string; v_terminal : string; v_batch : string;
  v_nonce : string; v_ct : string; v_sig : string; v_mode : option string; v_exp : option Z;
  v_suite : option string; v_epoch : option string; v_wasm : option string;
  v_chal : option string; v_psh : option string
}.

Section Server.
Context {S0 : Suite}.

(** ** Grants *)

(** [hmac_new] panics on an empty key: [None]. *)
Definition hmac_master (master msg : bytes) : option bytes :=
  match master with [] => None | _ => Some (hmac master msg) end.

Definition derive_session_seal_secret_v2 (master : bytes) (sid : string) (exp : Z) (epoch suite : string) : option bytes :=
  hmac_master master (utf8 "gr-session-seal-v2|" ++ utf8 sid ++ utf8 "|" ++ utf8 (Z_to_string exp) ++ utf8 "|" ++
                      utf8 epoch ++ utf8 "|" ++ utf8 suite).

Definition SESSION_SEAL_TTL_MS : Z := 6 * 60 * 60 * 1000.

(** [u64::saturating_add] and [as i64] *)
Definition saturating_add (a b : Z) : Z := Z.min (a + b) (2 ^ 64 - 1).
Definition as_i64 (x : Z) : Z := (x + 2 ^ 63) mod 2 ^ 64 - 2 ^ 63.

(** The expiry of a grant issued at [now] for [ttl]. *)
Definition grant_exp (now ttl : Z) : Z :=
  as_i64 (saturating_add now (if ttl =? 0 then SESSION_SEAL_TTL_MS else ttl)).

(** The members the page reads of [issue_session_seal_grant_v2]'s answer. *)
Definition issue_session_seal_grant_v2 (master : bytes) (sid : string) (now ttl : Z) (epoch wasm_name : string) : option val :=
  let exp := grant_exp now ttl in
  match derive_session_seal_secret_v2 master sid exp epoch SEAL_SUITE with
  | None => None
  | Some key =>
    Some (VObj [("algo", VStr "gr_session_seal_v2"); ("key_mode", VStr "session"); ("seal_protocol", vint 2);
                ("session_id", VStr sid); ("exp_ms", vint exp); ("key_b64", VStr (rs_b64_encode key));
                ("fe_epoch", VStr epoch); ("product_version", VStr epoch); ("suite_id", VStr SEAL_SUITE);
                ("wasm_module_id", VStr SEAL_WASM_MODULE_ID); ("wasm_url", VStr ("/g5/dist/" +:+ wasm_name));
                ("wasm_url_flat", VStr ("/g5/dist/" +:+ wasm_name)); ("require_wasm", VBool true)])
  end.

(** ** Reading an envelope *)

(** One member, as [serde] reads it; an [Option] may be absent or [null]. *)
Definition get_str (v : val) : option string := match v with VStr s => Some s | _ => None end.
Definition get_int (lo hi : Z) (v : val) : option Z :=
  match v with
  | VNum (Fin q) => if (Qden q =? 1)%positive && (lo <=? Qnum q) && (Qnum q <? hi) then Some (Qnum q) else None
  | _ => None
  end.
Definition get_opt {A} (f : val -> option A) (v : val) : option (option A) :=
  match v with VUndef | VNull => Some None | _ => x ← f v; Some (Some x) end.

Definition envelope_of (v : val) : option SealedEnvelope :=
  match v with
  | VObj _ =>
    ver ← get_int 0 (2 ^ 32) (prop v "v");
    alg ← get_str (prop v "alg");
    sid ← get_str (prop v "session_id");
    vt ← get_str (prop v "visitor_terminal_id");
    bid ← get_str (prop v "batch_id");
    nonce ← get_str (prop v "nonce_b64");
    ct ← get_str (prop v "ciphertext_b64");
    sig ← get_str (prop v "sig_b64");
    mode ← get_opt get_str (prop v "key_mode");
    exp ← get_opt (get_int (- 2 ^ 63) (2 ^ 63)) (prop v "seal_exp_ms");
    suite ← get_opt get_str (prop v "suite_id");
    epoch ← get_opt get_str (prop v "fe_epoch");
    wasm ← get_opt get_str (prop v "wasm_module_id");
    chal ← get_opt get_str (prop v "challenge_bind");
    psh ← get_opt get_str (prop v "pack_set_hash");
    Some (mkSealed ver alg sid vt bid nonce ct sig mode exp suite epoch wasm chal psh)
  | _ => None
  end.

(** [o.as_deref().unwrap_or("")] *)
Definition text (o : option string) : string := default "" o.

(** ** Opening an envelope *)

(** [mac.update(t.as_bytes())] *)
Definition update (t : string) (m : bytes) : bytes := m ++ utf8 t.

(** [sign_envelope_v2] *)
Definition sign_envelope_v2 (mac_key : bytes) (e : SealedEnvelope) : string :=
  rs_b64_encode (hmac mac_key
    ([] |> update "v2|" |> update (v_session e) |> update "|" |> update (v_terminal e)
        |> update "|" |> update (v_batch e) |> update "|" |> update (text (v_suite e))
        |> update "|" |> update (text (v_epoch e)) |> update "|" |> update (text (v_wasm e))
        |> update "|" |> update (text (v_chal e)) |> update "|" |> update (text (v_psh e))
        |> update "|" |> update (v_nonce e) |> update "|" |> update (v_ct e))).

(** [derive_keys_v2] *)
Definition derive_keys_v2 (secret : bytes) : bytes * bytes :=
  (sha256 ([] |> update "gr-seal-enc-v2" |> (fun m => m ++ secret)),
   sha256 ([] |> update "gr-seal-mac-v2" |> (fun m => m ++ secret))).

Definition decompress_limited (u : bytes) : seal_error + bytes :=
  match inflate u with
  | Some p => if MAX_BYTES <? len_Z p then inl TooLarge else inr p
  | None => inl Io
  end.

(** Decoding and decryption, then what [plain] makes of the result. *)
Definition decrypt (enc : bytes) (e : SealedEnvelope) (plain : bytes -> seal_error + bytes) : seal_error + val :=
  match rs_b64_decode (v_nonce e) with
  | None => inl (Envelope "base64")
  | Some nonce =>
    if negb (Nat.eqb (length nonce) 12) then inl (Envelope "nonce must be 12 bytes") else
    match rs_b64_decode (v_ct e) with
    | None => inl (Envelope "base64")
    | Some ct =>
      match gcm_open enc nonce ct with
      | None => inl Crypto
      | Some pre =>
        match plain pre with
        | inl x => inl x
        | inr p => match serde_parse p with Some v => inr v | None => inl Json end
        end
      end
    end
  end.

Definition uses_deflate (alg : string) : bool :=
  contains "deflate" (lower alg) && negb (contains "identity" (lower alg)).

Definition plain_v2 (alg : string) (pre : bytes) : seal_error + bytes :=
  if uses_deflate alg then decompress_limited pre
  else if MAX_BYTES <? len_Z pre then inl TooLarge else inr pre.

Definition unseal_v2_body (secret : bytes) (e : SealedEnvelope) : seal_error + val :=
  let '(enc, mac) := derive_keys_v2 secret in
  if sign_envelope_v2 mac e <>s v_sig e then inl BadSignature else decrypt enc e (plain_v2 (v_alg e)).

(** ** Version 1 ([seal.rs]) *)

Definition sign (mac_key : bytes) (e : SealedEnvelope) : string :=
  rs_b64_encode (hmac mac_key
    ([] |> update "v1|" |> update (v_session e) |> update "|" |> update (v_terminal e)
        |> update "|" |> update (v_batch e) |> update "|" |> update (v_nonce e)
        |> update "|" |> update (v_ct e))).

Definition derive_keys (secret : bytes) : bytes * bytes :=
  (sha256 ([] |> update "gr-seal-enc-v1" |> (fun m => m ++ secret)),
   sha256 ([] |> update "gr-seal-mac-v1" |> (fun m => m ++ secret))).

Definition derive_session_seal_secret (master : bytes) (sid : string) (exp : Z) : option bytes :=
  hmac_master master ([] |> update "gr-session-seal-v1|" |> update sid |> update "|" |> update (Z_to_string exp)).

Definition envelope_uses_deflate (alg : string) : bool :=
  uses_deflate alg && negb (contains "+rawplain" (lower alg)).

Definition unseal_probe_payload (secret : bytes) (e : SealedEnvelope) : seal_error + val :=
  if negb (v_v e =? 1) then inl (Envelope "unseal_probe_payload is v1-only") else
  let '(enc, mac) := derive_keys secret in
  if sign mac e <>s v_sig e then inl BadSignature else
  decrypt enc e (fun pre => if envelope_uses_deflate (v_alg e) then decompress_limited pre else inr pre).

(** [unseal_probe_payload_rotated] *)
Definition unseal_rotated (secret : bytes) (prev : option bytes) (e : SealedEnvelope) : seal_error + val :=
  match unseal_probe_payload secret e with
  | inl BadSignature =>
    match prev with
    | Some (c :: p) => if decide (c :: p = secret) then inl BadSignature else unseal_probe_payload (c :: p) e
    | _ => inl BadSignature
    end
  | r => r
  end.

(** [unseal_probe_payload_auto_legacy]; [None] is the panic on an empty master key. *)
Definition unseal_legacy (master : bytes) (prev : option bytes) (e : SealedEnvelope) (now : Z)
    : option (seal_error + val) :=
  let exp := default 0 (v_exp e) in
  if ((lower (text (v_mode e)) =s "session") || match v_exp e with Some _ => true | None => false end) && (0 <? exp) then
    if exp <? now then Some (inl Expired) else
    if v_session e =s "" then Some (unseal_rotated master prev e) else
    s ← derive_session_seal_secret master (v_session e) exp;
    match unseal_probe_payload s e with
    | inl BadSignature =>
      match prev with
      | Some (c :: p) =>
        s' ← derive_session_seal_secret (c :: p) (v_session e) exp;
        match unseal_probe_payload s' e with
        | inr v => Some (inr v)
        | inl _ => Some (unseal_rotated master prev e)
        end
      | _ => Some (unseal_rotated master prev e)
      end
    | r => Some r
    end
  else Some (unseal_rotated master prev e).

(** ** Policy *)

Variable pol : policy.

Definition suite_allowed (su : string) : bool := (su =s SEAL_SUITE) || mem_str su (p_suites pol).
Definition wasm_module_allowed (id : string) : bool := (id =s SEAL_WASM_MODULE_ID) || mem_str id (p_wasm pol).

Definition validate_envelope_v2_policy (e : SealedEnvelope) : option seal_error :=
  if v_v e <? 2 then Some (Envelope "seal_v1_rejected") else
  if negb (suite_allowed (text (v_suite e))) then Some (Envelope "seal_suite_rejected") else
  if text (v_epoch e) =s "" then Some (Envelope "seal_epoch_missing") else
  if negb (mem_str (text (v_epoch e)) (p_epochs pol)) then Some (Envelope "seal_epoch_rejected") else
  if (text (v_wasm e) =s "") || negb (wasm_module_allowed (text (v_wasm e))) then Some (Envelope "seal_wasm_rejected") else
  if text (v_chal e) =s "" then Some (Envelope "seal_challenge_bind_missing") else
  if text (v_psh e) =s "" then Some (Envelope "seal_pack_set_hash_missing") else None.

Definition as_text (v : val) : string := match v with VStr s => s | _ => "" end.

(** [payload.payload.fields], else [payload.fields]. *)
Definition content_fields (v : val) : val :=
  match prop (prop v "payload") "fields" with VUndef => prop v "fields" | f => f end.

Definition validate_unsealed_content (bid : string) (v : val) : option seal_error :=
  if negb (trim bid =s "B10_hw_curves") then None else
  let fields := content_fields v in
  let algo := as_text (prop fields "cpu_loop_algo") in
  if algo =s "" then Some (Envelope "b10_algo_missing") else
  if negb (existsb (fun p => contains p algo) B10_ALLOWED ||
           (p_allow_b10_v2 pol && existsb (fun p => contains p algo) B10_LEGACY))
  then Some (Envelope "b10_algo_rejected") else
  let fe_impl := as_text (prop fields "fe_impl_version") in
  if (fe_impl =s "") && negb (p_allow_empty_fe_impl pol) then Some (Envelope "fe_impl_missing") else
  if (fe_impl <>s "") && negb (p_fe_impl_ok pol fe_impl) then Some (Envelope "fe_impl_epoch_rejected") else None.

(** ** [unseal_probe_payload_auto_v2] *)

Definition exp_of (e : SealedEnvelope) : Z := default 0 (v_exp e).

Definition gate (bid : string) (r : seal_error + val) : seal_error + val :=
  match r with
  | inr v => match validate_unsealed_content bid v with Some x => inl x | None => inr v end
  | inl x => inl x
  end.

(** [try_unseal] under one master key; [None] is the panic on an empty one. *)
Definition try_unseal (master : bytes) (e : SealedEnvelope) : option (seal_error + val) :=
  sess ← derive_session_seal_secret_v2 master (v_session e) (exp_of e) (text (v_epoch e))
           (default SEAL_SUITE (v_suite e));
  Some (unseal_v2_body sess e).

(** [prev] is the previous master key. *)
Definition unseal_probe_payload_auto_v2 (master : bytes) (prev : option bytes) (e : SealedEnvelope) (now : Z)
    : option (seal_error + val) :=
  if p_require_v2 pol && (v_v e <? 2) then Some (inl (Envelope "seal_v1_rejected")) else
  if v_v e <? 2 then unseal_legacy master prev e now else
  match validate_envelope_v2_policy e with
  | Some x => Some (inl x)
  | None =>
    if (0 <? exp_of e) && (exp_of e <? now) then Some (inl Expired) else
    match try_unseal master e with
    | None => None
    | Some (inl BadSignature) =>
      match prev with
      | Some (c :: p) =>
        match try_unseal (c :: p) e with
        | Some (inr v) => Some (gate (v_batch e) (inr v))
        | _ => Some (inl BadSignature)
        end
      | _ => Some (inl BadSignature)
      end
    | Some r => Some (gate (v_batch e) r)
    end
  end.

(** [ingest_sealed], up to the opened payload: the status of a refusal, or the payload. *)
Definition strict_words : list string := ["seal_v1"; "suite"; "epoch"; "wasm"; "b10_algo"; "fe_impl"].

Definition error_status (x : seal_error) : Z :=
  match x with
  | BadSignature | Expired => 401
  | TooLarge => 413
  | Envelope msg => if existsb (fun w => contains w msg) strict_words then 422 else 400
  | _ => 400
  end.

Definition ingest_sealed (master : bytes) (prev : option bytes) (body : bytes) (now : Z) : option (Z + val) :=
  match (v ← serde_parse body; envelope_of v) with
  | None => Some (inl 400)
  | Some e =>
    if (v_session e =s "") || (v_terminal e =s "") || (v_batch e =s "") then Some (inl 400) else
    match unseal_probe_payload_auto_v2 master prev e now with
    | None => None
    | Some (inl x) => Some (inl (error_status x))
    | Some (inr v) => Some (inr v)
    end
  end.
End Server.
