(* ===== verification/SealSpec.v ===== *)
(** * What the seal guarantees

    The theorems on the grant, the WASM load and the envelope, across the page
    ([SealGrant], [SealWasm], [SealEnvelope]) and the server ([SealServer]). *)

From Stdlib Require Import QArith.
From S2P Require Import Prelude JsVal Window Json Registry Freeze SealCodec SealSuite SealUrl SealGrant SealWasm.
From S2P Require Import SealEnvelope SealServer.
#[local] Open Scope Z_scope.

(** ** Sessions *)

Section Sessions.
Context {H : Host}.

Lemma valid_raw now sid s : valid_for now sid s = true -> raw_valid now s = true.
Proof. unfold valid_for. by intros [? _]%andb_true_iff. Qed.

Lemma js_eq_VStr v t : js_eq v (VStr t) = true -> v = VStr t.
Proof. destruct v; simpl; try done. by intros ->%String.eqb_eq. Qed.

(** A valid session is the grant's own, unless one of the two is empty. *)
Lemma valid_for_session now sid s gr t :
  valid_for now sid s = true -> grant s = Some gr -> g_session gr = VStr t -> sid = t \/ sid = "" \/ t = "".
Proof.
  unfold valid_for. intros Hv Hg Ht. rewrite Hg, Ht in Hv. breflect. simpl in *.
  destruct (String.eqb_spec sid ""), (String.eqb_spec t ""), (String.eqb_spec t sid); subst; auto. done.
Qed.

(** A text session of the grant is valid for it. *)
Lemma own_session_valid now s gr t :
  raw_valid now s = true -> grant s = Some gr -> g_session gr = VStr t -> valid_for now t s = true.
Proof.
  intros Hr Hg Ht. unfold valid_for. rewrite Hr, Hg, Ht. simpl. rewrite String.eqb_refl.
  by rewrite andb_false_r.
Qed.

Lemma resolve_nonempty now want s gr t :
  want <> "" -> grant s = Some gr -> g_session gr = VStr t -> resolve now want s <> "".
Proof.
  intros Hw Hg Ht. unfold resolve. destruct (valid_for now want s); [done|].
  destruct (List.find _ _) as [c|] eqn:E.
  - apply find_some in E as [_ E]. breflect. by intros ->.
  - rewrite Hg, Ht. destruct (raw_valid now s && truthy (VStr t)) eqn:E2; [|done].
    breflect. simpl in *. by intros ->.
Qed.
End Sessions.

(** The session an upload is sealed for: when the grant's session is a text, the
    resolved session is valid exactly when the grant itself is (present, with a key,
    not expired), so the later re-resolution in [prepareUpload] changes nothing; a
    body's own session is kept when it is valid, and a body without a session keeps
    none, although the grant names one. *)
Theorem resolve_valid (H : Host) now want s gr t :
  grant s = Some gr -> g_session gr = VStr t ->
  valid_for now (resolve now want s) s = raw_valid now s /\
  (valid_for now want s = true -> resolve now want s = want) /\
  (raw_valid now s = true -> resolve now "" s = "").
Proof.
  intros Hg Ht. split; [|split].
  - apply eq_iff_eq_true. split; [apply valid_raw|]. intros Hr. unfold resolve.
    destruct (valid_for now want s) eqn:Ew; [done|].
    destruct (List.find _ _) as [c|] eqn:E; [apply find_some in E as [_ E]; by breflect|].
    rewrite Hg, Ht, Hr. simpl. destruct (String.eqb_spec t "") as [->|]; simpl.
    + unfold valid_for. rewrite Hr, Hg, Ht. simpl. by rewrite andb_false_r.
    + by apply (own_session_valid now s gr t).
  - unfold resolve. by intros ->.
  - intros Hr. unfold resolve. unfold valid_for at 1. rewrite Hr, Hg. simpl. done.
Qed.

(** ** Requirement *)


(** The requirement to seal is sticky: adopting the page's globals never clears it,
    and once the page's boot object carries it (which [setRequireSealed(true)] writes
    there) [setRequireSealed(false)] has no effect, nor has the force-plain flag. *)
Theorem require_sticky (H : Host) s s' :
  (requireSealed s = true -> requireSealed (adoptFromGlobals s) = true) /\
  (policy_requires (boot s) = true -> snd (isRequireSealed (setRequireSealed false s)) = true) /\
  snd (isRequireSealed (setRequireSealed false (setRequireSealed true s'))) = true.
Proof.
  assert (forall s, policy_requires (boot s) = true -> snd (isRequireSealed (setRequireSealed false s)) = true) as Hs.
  { intros s0 Hp. unfold isRequireSealed. cbn [snd]. unfold required. rewrite adopt_required.
    assert (boot (setRequireSealed false s0) = boot s0) as ->.
    { unfold setRequireSealed. set (s1 := sput "__GR_REQUIRE_SEALED__" _ _). unfold boot at 1, sget, sput. simpl.
      rewrite gget_gset_eq. assert (truthy (boot s1) = true) as Ht.
      { unfold boot. rewrite jor_truthy. by destruct (truthy _). }
      unfold jor at 1. rewrite Ht. unfold s1, boot, sget, sput. simpl. by rewrite gget_gset_ne by done. }
    rewrite Hp. by rewrite !orb_true_r. }
  split; [|split; [apply Hs|apply Hs]].
  - rewrite adopt_required. by intros ->.
  - unfold setRequireSealed. set (s1 := sput _ _ (sput _ _ _)). unfold boot_put at 1.
    unfold boot at 1, sget, sput. simpl. rewrite gget_gset_eq. unfold jor at 1. simpl.
    unfold policy_requires. simpl. by rewrite assoc_set_prop.
Qed.

(** ** What adopting writes *)

Section Writes.
Context {H : Host}.

(** The globals the module writes. *)
Definition written : list string :=
  ["__GR_SEAL_GRANT__"; "__GR_BOOT__"; "__GR_FE_EPOCH__"; "__GR_SEAL_WASM_DEAD__"; "__GR_SEAL_WASM_DEAD_ERR__";
   "__GR_SEAL_WASM_CAP__"].

(** Two states of the module that differ, on the page, only in what it writes. *)
Definition same_page (s s' : seal) : Prop :=
  (forall k, mem_str k written = false -> sget k s' = sget k s) /\
  (forall k, k <> "seal_grant" -> k <> "length" -> prop (boot s') k = prop (boot s) k).

Instance same_page_preorder : PreOrder same_page.
Proof.
  split; [by intros s|]. intros a b c [H1 H2] [H3 H4]. split; intros; [rewrite H3, H1|rewrite H4, H2]; done.
Qed.

Lemma same_page_win s s' : swin s' = swin s -> same_page s s'.
Proof. unfold same_page, boot, sget. intros ->. done. Qed.

Lemma same_page_put k v s : mem_str k written = true -> k <> "__GR_BOOT__" -> same_page s (sput k v s).
Proof.
  intros Hk Hb. unfold same_page, boot, sget, sput. cbn [swin set_swin]. split.
  - intros j Hj. rewrite gget_gset_ne; [done|]. intros ->. congruence.
  - intros j _ _. by rewrite gget_gset_ne.
Qed.

Lemma prop_members_of b k : k <> "length" -> assoc k (members_of b) = prop b k.
Proof. intros Hk. apply String.eqb_neq in Hk. destruct b; simpl; rewrite ?Hk; done. Qed.

Lemma same_page_boot v s : same_page s (boot_put "seal_grant" v s).
Proof.
  unfold boot_put. set (b := boot s). unfold same_page, sget, sput. cbn [swin set_swin]. split.
  - intros k Hk. rewrite gget_gset_ne; [done|]. by intros <-.
  - intros k Hk Hl. unfold boot at 1, sget. cbn [swin set_swin]. rewrite gget_gset_eq. unfold jor at 1. cbn [truthy prop].
    rewrite assoc_set_prop. destruct (String.eqb_spec k "seal_grant"); [done|]. by apply prop_members_of.
Qed.

Lemma ensureWasm_page g s : same_page s (fst (ensureWasm g s)).
Proof.
  unfold ensureWasm. destruct (wasmApi s); [done|]. destruct (wasmLoadP s); try done.
  destruct (strue _ s); [done|]. destruct (negb _); cbn [fst];
    repeat (etrans; [|apply same_page_win; reflexivity]); repeat (etrans; [|by apply same_page_put]); done.
Qed.

Lemma setGrant_page g s : same_page s (setGrant g s).
Proof.
  unfold setGrant. destruct (negb _); [done|]. cbv zeta.
  set (s1 := boot_put _ _ _). assert (same_page s s1) as H1.
  { subst s1. etrans; [|apply same_page_boot]. etrans; [|by apply same_page_put]. by apply same_page_win. }
  set (s2 := if truthy _ then _ else s1). assert (same_page s s2) as H2.
  { subst s2. destruct (truthy _); [|done]. etrans; [exact H1|by apply same_page_put]. }
  destruct (grantIsV2 _); [|done]. etrans; [exact H2|apply ensureWasm_page].
Qed.

Lemma adopt_page s : same_page s (adoptFromGlobals s).
Proof.
  unfold adoptFromGlobals. etrans; [|apply same_page_win, fill_frame].
  set (s1 := if _ : bool then _ else s). assert (same_page s s1) as H1 by (subst s1; by destruct (_ || _)).
  etrans; [exact H1|]. unfold adopt_grant. repeat case_match; try done; apply setGrant_page.
Qed.

(** Asking twice gives the first answer when it was yes. *)
Lemma required_again s : required (adoptFromGlobals s) = true ->
  required (adoptFromGlobals (adoptFromGlobals s)) = true.
Proof.
  set (s1 := adoptFromGlobals s). destruct (adopt_page s1) as [Hk Hb].
  unfold required. rewrite (adopt_required s1). unfold strue, gtrue in *. fold (sget "__GR_REQUIRE_SEALED__" s1).
  unfold policy_requires, first_party, prod_env, nginx, strue, gtrue in *.
  unfold sget in Hk. rewrite !Hk, !Hb by done.
  destruct (requireSealed s1); [done|]. cbn [orb].
  destruct (truthy (gget "__GR_FORCE_PLAIN_INGEST__" (swin s1))); [done|]. unfold sget. intros Hr.
  match goal with |- (if ?c then _ else _) = true => destruct c eqn:E end; [done|exact Hr].
Qed.
End Writes.

(** ** What is sent *)

(** A preparation that ends well on a state that requires sealing ends sealed. *)
Lemma prepare_sealed (H : Host) (S0 : Suite) r base body s w b :
  prepareUpload r base body s = (inr w, b) -> required (adoptFromGlobals (adoptFromGlobals s)) = true ->
  w_sealed w = true /\ w_url w = ingest_base base +:+ "/v1/ingest/sealed".
Proof.
  unfold prepareUpload. set (s1 := adoptFromGlobals s). destruct (isRequireSealed s1) as [s2 need] eqn:Eq.
  intros Hp Hn. assert (need = true) as -> by (unfold isRequireSealed in Eq; congruence).
  rewrite andb_false_r in Hp.
  destruct (after_wait _ _ _ _ _ _) as [sid b1|b1|e b1] eqn:Ew; [|exfalso|done].
  - destruct (sealIngestBody _ _ _ _ _) as [res b2]. destruct (if r_timeout r then _ else res); [done|].
    by injection Hp as <- _.
  - revert Ew. unfold after_wait. cbn [negb]. by repeat case_match.
Qed.

(** C8: When sealing is required as an upload is prepared, the upload is never prepared as
    plain text: whatever the page, the grant, the WASM load and the timer do meanwhile,
    preparing it either fails or yields a sealed envelope for the sealed endpoint.  A plain
    upload is prepared only if sealing was not required at the start. *)
Theorem required_never_plain (H : Host) (S0 : Suite) r base body s w b :
  prepareUpload r base body s = (inr w, b) ->
  snd (isRequireSealed (adoptFromGlobals s)) = true ->
  w_sealed w = true /\ w_url w = ingest_base base +:+ "/v1/ingest/sealed".
Proof. intros Hp Hn. by apply (prepare_sealed H S0 r base body s w b). Qed.


(** *** Version 1 *)

Section Version.
Context {H : Host} {S0 : Suite}.

(** The grant, if any, names a suite. *)
Definition suite_ok (s : seal) : Prop := forall gr, grant s = Some gr -> truthy (g_suite gr) = true.

Lemma grant_of_suite g : truthy (g_suite (grant_of g)) = true.
Proof. by apply jor_VStr_truthy. Qed.

Lemma suite_ok_eq s s' : grant s' = grant s -> suite_ok s -> suite_ok s'.
Proof. unfold suite_ok. by intros ->. Qed.

Lemma setGrant_suite g s : suite_ok s -> suite_ok (setGrant g s).
Proof.
  intros Hs gr. destruct (truthy g && is_object g) eqn:E.
  - rewrite setGrant_grant by done. intros [= <-]. apply grant_of_suite.
  - unfold setGrant. rewrite E. apply Hs.
Qed.

Lemma adopt_suite s : suite_ok s -> suite_ok (adoptFromGlobals s).
Proof.
  intros Hs. unfold adoptFromGlobals. set (s1 := if _ : bool then _ else s).
  assert (suite_ok s1) as H1 by (subst s1; by destruct (_ || _)).
  set (s2 := adopt_grant _ s1). assert (suite_ok s2) as H2.
  { subst s2. unfold adopt_grant. repeat case_match; auto using setGrant_suite. }
  unfold fill_wasm_url. cbv zeta. destruct (grant s2) as [gr|] eqn:E; [|done].
  case_match; [|done]. intros gr' [= <-]. simpl. by apply H2.
Qed.

Lemma setRequired_grant on s : grant (setRequireSealed on s) = grant s.
Proof. by destruct on. Qed.

Lemma pathC_grant url e s : suite_ok s -> suite_ok (fst (pathC url e s)).
Proof.
  intros Hs. unfold pathC. destruct (allowJs s); [done|]. unfold isRequireSealed.
  pose proof (adopt_suite s Hs) as Ha. by destruct (required _).
Qed.

Lemma wstep_suite e s : suite_ok s -> suite_ok (wstep e s).
Proof.
  intros Hs. destruct e as [g|g| |on|k v|i r|r i]; simpl.
  - eapply suite_ok_eq; [apply ensureWasm_frame|done].
  - by apply setGrant_suite.
  - by apply adopt_suite.
  - eapply suite_ok_eq; [apply setRequired_grant|done].
  - done.
  - unfold glue_settles. destruct (wasmLoadP s) as [|url glue g [err|]|]; try done. by destruct (pathA _ _ _ _).
  - unfold raw_settles. destruct (wasmLoadP s) as [|url glue g [err|]|]; try done.
    destruct (pathB _ _ _ _); [by apply pathC_grant|done].
Qed.

Lemma wrun_suite l s : suite_ok s -> suite_ok (wrun l s).
Proof. revert s. induction l as [|e l IH]; intros s Hs; [done|]. apply IH, wstep_suite, Hs. Qed.

Lemma has_key_object g : has_key g = true -> truthy g && is_object g = true.
Proof. destruct g; done. Qed.

(** Adopting found no grant: it changed nothing on the page, and finds none again. *)
Lemma adopt_none s : grant (adoptFromGlobals s) = None ->
  swin (adoptFromGlobals s) = swin s /\ grant (adoptFromGlobals (adoptFromGlobals s)) = None.
Proof.
  assert (forall b s, grant (fill_wasm_url b s) = None -> grant s = None /\ fill_wasm_url b s = s) as Hf.
  { intros b s0. unfold fill_wasm_url. cbv zeta. destruct (grant s0) eqn:E; [|done]. case_match; [done|]. by rewrite E. }
  assert (forall g s, grant (adopt_grant g s) = None -> adopt_grant g s = s /\ truthy g && has_key g = false) as Ha.
  { intros g s0. unfold adopt_grant. destruct (truthy g && has_key g) eqn:E; [|done].
    breflect. pose proof (has_key_object g ltac:(done)) as Ho. repeat case_match; rewrite ?setGrant_grant by done; congruence. }
  intros Hn. unfold adoptFromGlobals in Hn. apply Hf in Hn as [Hn Hn2]. pose proof (Ha _ _ Hn) as [Hn3 Hk].
  assert (swin (adoptFromGlobals s) = swin s) as Hw.
  { unfold adoptFromGlobals. rewrite Hn2, Hn3. by destruct (_ || _). }
  split; [done|]. rewrite Hn3 in Hn.
  assert (grant (adoptFromGlobals s) = None) as Hg.
  { unfold adoptFromGlobals. by rewrite Hn2, Hn3. }
  generalize dependent (adoptFromGlobals s). intros a Hw Ha0. unfold adoptFromGlobals, boot, sget in *.
  rewrite Hw. unfold adopt_grant. rewrite Hk. set (s1 := if _ : bool then _ else a).
  assert (grant s1 = None) as H1 by (apply (fun b : bool => match b return grant (if b then set_required true a else a) = None with true => Ha0 | false => Ha0 end)).
  unfold fill_wasm_url. cbv zeta. by rewrite H1.
Qed.

Lemma v1_refuses now st body s : grant (adoptFromGlobals s) = None ->
  exists e, sealIngestBodyV1 now st body s = (inl e, snd (sealIngestBodyV1 now st body s)).
Proof.
  intros Hn. unfold sealIngestBodyV1. destruct (negb webcrypto); [by eexists|].
  unfold resolveSealSessionId, grantValid. cbv zeta.
  destruct (adopt_none s Hn) as [_ Hn2]. destruct (adopt_none _ Hn2) as [_ Hn3].
  assert (forall sid, valid_for now sid (adoptFromGlobals (adoptFromGlobals (adoptFromGlobals s))) = false) as Hv.
  { intros sid. unfold valid_for, raw_valid. by rewrite Hn3. }
  rewrite Hv. simpl. by eexists.
Qed.
End Version.

(** The version 1 envelope is never made.  After any sequence of grants, adoptions,
    page writes and loads, the grant names a suite, since [setGrant] fills a missing one
    in, so it counts as version 2: [sealIngestBody] seals a version 1 grant in the version
    2 format, and without a grant the version 1 path refuses.  The legacy path of the
    module is dead. *)
Theorem sealIngestBody_never_v1 (H : Host) (S0 : Suite) w0 l now st a body e b :
  sealIngestBody now st a body (wrun l (seal0 w0)) = (inr e, b) -> e_v e = 2.
Proof.
  assert (suite_ok (wrun l (seal0 w0))) as Hs by (apply wrun_suite, adopt_suite; done).
  apply adopt_suite in Hs. revert Hs. generalize (wrun l (seal0 w0)). intros s Hs.
  unfold sealIngestBody. destruct (grant (adoptFromGlobals s)) as [gr|] eqn:Eg.
  - assert (grantIsV2 (grant_obj gr) = true) as ->.
    { unfold grantIsV2. apply andb_true_iff. split; [done|]. apply orb_true_iff. right. by apply Hs. }
    unfold sealIngestBodyV2, encrypt_v2. repeat case_match; intros [=]; subst; try done.
  - unfold isRequireSealed. destruct (_ && _); [done|]. intros Hv.
    destruct (adopt_none s Eg) as [_ Hn]. destruct (adopt_none _ Hn) as [_ Hn2].
    destruct (v1_refuses now st body _ Hn2) as [x Hx]. rewrite Hx in Hv. done.
Qed.

(** ** The WASM load *)

Section Load.
Context {H : Host} {S0 : Suite}.

(** The module's load variables. *)
Definition load_of (s : seal) : option wapi * wload := (wasmApi s, wasmLoadP s).

(** A load that is under way or left rejected, and no module yet: no call of
    [ensureWasm] and nothing the page does changes that. *)
Lemma ensureWasm_settled g s : wasmLoadP s <> NoLoad -> fst (ensureWasm g s) = s.
Proof. intros Hl. unfold ensureWasm. destruct (wasmApi s); [done|]. by destruct (wasmLoadP s). Qed.

Lemma setGrant_load g s : wasmLoadP s <> NoLoad -> load_of (setGrant g s) = load_of s.
Proof.
  intros Hl. unfold setGrant. destruct (negb _); [done|]. cbv zeta. set (s2 := if truthy _ then _ else _).
  assert (load_of s2 = load_of s) as H2 by (subst s2; by destruct (truthy (g_epoch _))).
  destruct (grantIsV2 _); [|done]. rewrite ensureWasm_settled; [done|]. injection H2 as _ ->. done.
Qed.

Lemma fill_load b s : load_of (fill_wasm_url b s) = load_of s.
Proof. unfold fill_wasm_url. cbv zeta. by repeat case_match. Qed.

Lemma adopt_load s : wasmLoadP s <> NoLoad -> load_of (adoptFromGlobals s) = load_of s.
Proof.
  intros Hl. unfold adoptFromGlobals. rewrite fill_load. unfold adopt_grant.
  set (s1 := if _ : bool then _ else s). assert (load_of s1 = load_of s) as H1 by (subst s1; by destruct (_ || _)).
  assert (wasmLoadP s1 <> NoLoad) as Hl1 by (injection H1 as _ ->; done).
  repeat case_match; rewrite ?setGrant_load by done; done.
Qed.

(** One event, once a load has started: the load variables stay, or the load
    that was under way goes on, or it is left rejected. *)
Lemma load_step e s : wasmLoadP s <> NoLoad ->
  load_of (wstep e s) = load_of s \/
  exists url glue g err, wasmLoadP s = Loading url glue g err /\
    ((exists err', wasmLoadP (wstep e s) = Loading url glue g err') \/ exists m, wasmLoadP (wstep e s) = Rejected m).
Proof.
  intros Hl. destruct e as [g|g| |on|k v|i r|r i]; simpl.
  - left. by rewrite ensureWasm_settled.
  - left. by apply setGrant_load.
  - left. by apply adopt_load.
  - left. by destruct on.
  - by left.
  - unfold glue_settles. destruct (wasmLoadP s) as [|url glue g [err|]|m] eqn:E; try (left; done).
    right. exists url, glue, g, None. split; [done|]. left. destruct (pathA _ _ _ _); simpl; eauto.
  - unfold raw_settles. destruct (wasmLoadP s) as [|url glue g [err|]|m] eqn:E; try (left; done).
    right. exists url, glue, g, (Some err). split; [done|]. destruct (pathB _ _ _ _); simpl; [|eauto].
    unfold pathC. destruct (allowJs s); [left; simpl; eauto|]. unfold isRequireSealed.
    assert (wasmLoadP (adoptFromGlobals s) = wasmLoadP s) as Ha.
    { pose proof (adopt_load s ltac:(by rewrite E)) as Ha. by injection Ha. }
    destruct (required _); simpl; [eauto|]. rewrite Ha. eauto.
Qed.

Lemma rejected_run l s m : wasmLoadP s = Rejected m -> load_of (wrun l s) = load_of s.
Proof.
  revert s. induction l as [|e l IH]; intros s Hl; [done|]. simpl.
  destruct (load_step e s ltac:(by rewrite Hl)) as [Hs|(u & gl & g' & er & Hl' & _)]; [|congruence].
  etrans; [apply IH|done]. injection Hs. congruence.
Qed.

Lemma loading_run l s url glue g err : wasmLoadP s = Loading url glue g err ->
  (exists err', wasmLoadP (wrun l s) = Loading url glue g err') \/ exists m, wasmLoadP (wrun l s) = Rejected m.
Proof.
  revert s err. induction l as [|e l IH]; intros s err Hl; [eauto|]. simpl.
  destruct (load_step e s ltac:(by rewrite Hl)) as [Hs|(u & gl & g' & er & Hl' & [[er' Hs]|[m Hs]])].
  - apply (IH _ err). injection Hs. congruence.
  - rewrite Hl in Hl'. injection Hl' as <- <- <- _. by apply (IH _ er').
  - right. exists m. pose proof (rejected_run l _ m Hs) as Hr. injection Hr. congruence.
Qed.

Lemma fetch_checked w g st ct body snip b : fetchWasmBytes w g (Response st ct body snip) = inr b ->
  200 <= st < 300 /\ looksLikeWasmBinary body = true /\
  (num_ltb (num_Z 0) (fst (wasmExpectFromBoot w g)) = true ->
     num_eqb (num_Z (len_Z body)) (fst (wasmExpectFromBoot w g)) = true) /\
  ((32 <= String.length (snd (wasmExpectFromBoot w g)))%nat ->
     toHex (sha256 body) = snd (wasmExpectFromBoot w g)).
Proof.
  unfold fetchWasmBytes. destruct (wasmExpectFromBoot w g) as [len sha]. cbn [fst snd].
  destruct (negb ((200 <=? st) && _)) eqn:E1; [done|]. destruct (negb (looksLikeWasmBinary body)) eqn:E2; [done|].
  destruct (num_ltb _ _ && _) eqn:E3; [done|]. destruct (Nat.leb 32 _ && negb webcrypto); [done|].
  destruct (Nat.leb 32 _ && _) eqn:E4; [done|]. intros _.
  breflect. rewrite <- hex256_toHex. repeat split; try lia; try done.
  - intros Hn. rewrite Hn in E3. simpl in E3. by apply negb_false_iff in E3.
  - intros Hn%Nat.leb_le. rewrite Hn in E4. simpl in E4. apply negb_false_iff in E4. by apply String.eqb_eq.
Qed.
End Load.

(** C23: There is at most one WASM load.  Once one has started, whatever the page, the
    grants and the calls of [ensureWasm] do, the module has that same load or a permanent
    rejection; and once a load has failed, every later [ensureWasm] is rejected with its
    error and no module is ever installed, although a comment in the source allows one
    future retry. *)
Theorem wasm_load_once (H : Host) (S0 : Suite) l s :
  (forall url glue g err, wasmLoadP s = Loading url glue g err ->
     (exists err', wasmLoadP (wrun l s) = Loading url glue g err') \/
     (exists m, wasmLoadP (wrun l s) = Rejected m)) /\
  (forall m, wasmApi s = None -> wasmLoadP s = Rejected m ->
     wasmApi (wrun l s) = None /\ forall g, snd (ensureWasm g (wrun l s)) = WRejected m).
Proof.
  split; [intros url glue g err; apply loading_run|]. intros m Ha Hl.
  pose proof (rejected_run l s m Hl) as Hr. injection Hr as Hr1 Hr2.
  split; [congruence|]. intros g. unfold ensureWasm. by rewrite Hr1, Hr2, Ha, Hl.
Qed.

(** The response an event of the load carries. *)
Definition event_response (e : wevent) : option response :=
  match e with WGlue _ r | WRaw r _ => Some r | _ => None end.

(** Bytes that passed: a successful response with the WASM magic, the expected length
    when one is expected, and the expected digest when it is at least half as long as one. *)
Definition checked {S0 : Suite} (w : Win) (g : val) (r : response) : Prop :=
  exists st ct body snip, r = Response st ct body snip /\
    200 <= st < 300 /\ looksLikeWasmBinary body = true /\
    (num_ltb (num_Z 0) (fst (wasmExpectFromBoot w g)) = true ->
       num_eqb (num_Z (len_Z body)) (fst (wasmExpectFromBoot w g)) = true) /\
    ((32 <= String.length (snd (wasmExpectFromBoot w g)))%nat ->
       toHex (sha256 body) = snd (wasmExpectFromBoot w g)).

Lemma fetch_checks {H : Host} {S0 : Suite} w g r b : fetchWasmBytes w g r = inr b -> checked w g r.
Proof. destruct r as [|st ct body snip]; [done|]. intros Hf%fetch_checked. by exists st, ct, body, snip. Qed.

(** C24: What is installed as the seal's WASM: in any step that installs a module, either
    the bytes of the load's own response passed the status, magic, length and digest
    checks against the page's expectation, or it is the pure JavaScript binding, which is
    installed only when the lab flag allows it or sealing is not required; the grant's
    [require_wasm] plays no part. *)
Theorem wasm_integrity (H : Host) (S0 : Suite) e s a :
  wasmApi s = None -> wasmApi (wstep e s) = Some a ->
  (exists url glue g err r, wasmLoadP s = Loading url glue g err /\ event_response e = Some r /\
     checked (swin s) g r) \/
  (a = pureJsBindApi /\ (allowJs s = true \/ snd (isRequireSealed s) = false)).
Proof.
  intros Hn. assert (forall g s', wasmApi s' = None -> wasmApi (setGrant g s') = None) as Hset.
  { intros g s' Hs'. unfold setGrant. destruct (negb _); [done|]. cbv zeta. set (s2 := if truthy _ then _ else _).
    assert (wasmApi s2 = None) as H2 by (subst s2; by destruct (truthy (g_epoch _))).
    destruct (grantIsV2 _); [|done]. by rewrite (proj2 (proj2 (ensureWasm_frame _ _))). }
  assert (wasmApi (adoptFromGlobals s) = None) as Had.
  { unfold adoptFromGlobals. set (s1 := if _ : bool then _ else s).
    assert (wasmApi s1 = None) as H1 by (subst s1; by destruct (_ || _)).
    pose proof (fill_load (boot s) (adopt_grant (jor (sget "__GR_SEAL_GRANT__" s) (jor (prop (boot s) "seal_grant") VNull)) s1)) as Hf.
    injection Hf as Hf _. rewrite Hf. unfold adopt_grant. repeat case_match; auto. }
  destruct e as [g|g| |on|k v|i r|r i]; simpl.
  - rewrite (proj2 (proj2 (ensureWasm_frame g s))). congruence.
  - rewrite Hset by done. congruence.
  - congruence.
  - destruct on; simpl; congruence.
  - congruence.
  - unfold glue_settles. destruct (wasmLoadP s) as [|url glue g [err|]|m] eqn:E; simpl; try congruence.
    unfold pathA. destruct i as [|m]; simpl; [congruence|].
    destruct (fetchWasmBytes (swin s) g r) as [|b] eqn:Ef; simpl; [congruence|].
    destruct (_ || _); [|simpl; congruence]. destruct (init_error m); simpl; [congruence|]. intros _. left.
    exists url, glue, g, None, r. split; [done|]. split; [done|]. by eapply fetch_checks.
  - unfold raw_settles. destruct (wasmLoadP s) as [|url glue g [err|]|m] eqn:E; simpl; try congruence.
    destruct (pathB (swin s) g r i) as [x|x] eqn:Eb.
    + intros Hi. right. unfold pathC in Hi. destruct (allowJs s); [|destruct (isRequireSealed s) as [s1 need] eqn:Eq].
      * simpl in Hi. injection Hi as <-. auto.
      * assert (s1 = adoptFromGlobals s /\ required (adoptFromGlobals s) = need) as [-> Hq] by (by injection Eq).
        destruct need; simpl in Hi; [congruence|]. injection Hi as <-. auto.
    + intros _. left. exists url, glue, g, (Some err), r. split; [done|]. split; [done|].
      unfold pathB in Eb. destruct (fetchWasmBytes _ _ _) eqn:Ef; [done|]. by eapply fetch_checks.
Qed.

(** ** Examples *)

Definition demo_grant : val :=
  VObj [("key_b64", VStr "a2V5"); ("exp_ms", vint 9000); ("session_id", VStr "cycle_1")].
Definition granted_seal : seal := setGrant (H := demo_host) demo_grant (seal0 (H := demo_host) win0).
Definition required_seal : seal := setRequireSealed true granted_seal.

Lemma resolve_valid_witness :
  valid_for 1000 (resolve 1000 "cycle_0" granted_seal) granted_seal = raw_valid 1000 granted_seal.
Proof. exact (proj1 (resolve_valid demo_host 1000 "cycle_0" granted_seal (grant_of demo_grant) "cycle_1" eq_refl eq_refl)). Defined.

Definition demo_run : prep_run :=
  mkRun 1000 required_seal (WReady pureJsBindApi) 1000 required_seal (WReady pureJsBindApi)
    (mkStages required_seal required_seal required_seal required_seal (utf8 "123456789012") VUndef) false required_seal.
Definition demo_upload : val := VObj [("session_id", VStr "cycle_1"); ("batch_id", VStr "B2_hardware")].
Definition get_wire (r : string + wire) : wire := match r with inr w => w | inl _ => mkWire "" "" false None end.

Definition demo_prepared : (string + wire) * val :=
  prepareUpload (H := demo_host) (S0 := toy) demo_run "/g5" demo_upload required_seal.

Lemma required_never_plain_witness :
  w_sealed (get_wire (fst demo_prepared)) = true /\ w_url (get_wire (fst demo_prepared)) = "/g5/v1/ingest/sealed".
Proof.
  refine (required_never_plain demo_host toy demo_run "/g5" demo_upload required_seal
    (get_wire (fst demo_prepared)) (snd demo_prepared) _ _); vm_compute; reflexivity.
Defined.

Definition get_env (r : string + envelope) : envelope :=
  match r with inr e => e | inl _ => mkEnvelope 0 "" "" "" "" "" "" "" "" NaN None end.

Definition v1_grant : val :=
  VObj [("key_b64", VStr "a2V5"); ("session_id", VStr "cycle_1"); ("seal_protocol", vint 1); ("algo", VStr "gr_session_seal_v1")].

Definition v1_sealed : (string + envelope) * val :=
  sealIngestBody (H := demo_host) (S0 := toy) 1000 (demo_run.(r_stages)) (WReady pureJsBindApi) demo_upload
    (wrun (H := demo_host) (S0 := toy) [WSetGrant v1_grant] (seal0 (H := demo_host) win0)).

Lemma sealIngestBody_never_v1_witness : e_v (get_env (fst v1_sealed)) = 2.
Proof.
  refine (sealIngestBody_never_v1 demo_host toy win0 [WSetGrant v1_grant] 1000 (demo_run.(r_stages))
    (WReady pureJsBindApi) demo_upload (get_env (fst v1_sealed)) (snd v1_sealed) _). vm_compute. reflexivity.
Defined.

(** A module whose load has been rejected. *)
Definition dead_seal : seal :=
  wrun (H := demo_host) (S0 := toy) [WGlue (ImportFail "offline") (NoResponse "offline"); WRaw (NoResponse "offline") (InstFail "")]
    required_seal.

Example transient_failure_is_permanent :
  wasmLoadP dead_seal = Rejected "seal_wasm_required: offline" /\
  snd (ensureWasm (H := demo_host) demo_grant dead_seal) = WRejected "seal_wasm_required: offline".
Proof. split; reflexivity. Qed.

Lemma wasm_load_once_witness :
  wasmApi (wrun (H := demo_host) (S0 := toy) [WEnsure demo_grant; WAdopt] dead_seal) = None.
Proof.
  exact (proj1 (proj2 (wasm_load_once demo_host toy [WEnsure demo_grant; WAdopt] dead_seal)
    "seal_wasm_required: offline" eq_refl eq_refl)).
Defined.

Definition raw_pending : seal :=
  wstep (H := demo_host) (S0 := toy) (WGlue (ImportFail "offline") (NoResponse "offline")) granted_seal.

Lemma wasm_integrity_witness :
  (exists url glue g err r, wasmLoadP raw_pending = Loading url glue g err /\
     event_response (WRaw (NoResponse "offline") (InstFail "")) = Some r /\ checked (S0 := toy) (swin raw_pending) g r) \/
  (pureJsBindApi = pureJsBindApi /\
   (allowJs raw_pending = true \/ snd (isRequireSealed (H := demo_host) raw_pending) = false)).
Proof.
  refine (wasm_integrity demo_host toy (WRaw (NoResponse "offline") (InstFail "")) raw_pending pureJsBindApi _ _);
    reflexivity.
Defined.
