(* ===== verification/SealProtocol.v ===== *)
(** * The seal protocol, end to end

    The page's sealing ([SealEnvelope]) against the server's opening
    ([SealServer]): what the signature covers, that a sealed upload opens, and
    what happens when the page changes while it is sealed. *)

From Stdlib Require Import QArith.
From S2P Require Import Prelude JsVal Window Json Registry Freeze SealCodec SealSuite SealUrl SealGrant SealWasm.
From S2P Require Import SealEnvelope SealServer SealSpec.
#[local] Open Scope Z_scope.

(** ** What the signature covers *)

Definition pipe_free (t : string) : bool := no_char "|" t.

(** The texts of a version 2 envelope the signature covers, but the last. *)
Definition covered (e : envelope) : list string :=
  match e_meta e with
  | Some (su, ep, wm, ch, ps) =>
    [e_session e; e_vt e; e_batch e; to_string su; to_string ep; to_string wm; ch; ps; e_nonce e]
  | None => []
  end.

Lemma concat_utf8 l : concat (map utf8 l) = utf8 (foldr String.append "" l).
Proof. induction l as [|x l IH]; [done|]. simpl. by rewrite utf8_app, IH. Qed.

(** Texts each followed by a bar, then a last text. *)
Fixpoint barred (l : list string) (last : string) : string :=
  match l with [] => last | x :: l' => x +:+ "|" +:+ barred l' last end.

Lemma barred_inj l l' a a' : length l = length l' -> forallb pipe_free l = true -> forallb pipe_free l' = true ->
  barred l a = barred l' a' -> l = l' /\ a = a'.
Proof.
  revert l'. induction l as [|x l IH]; intros [|x' l'] Hn Hl Hl' He; simpl in *; try lia; [done|]. breflect.
  apply split_at_sep in He as [-> He]; [|done|done]. by destruct (IH l') as [-> ->]; auto.
Qed.

Lemma mac_input_barred e : e_meta e <> None -> mac_input e = utf8 ("v2|" +:+ barred (covered e) (e_ct e)).
Proof.
  intros Hm. unfold mac_input, mac_parts, covered. destruct (e_meta e) as [[[[[su ep] wm] ch] ps]|]; [|done].
  rewrite concat_utf8. cbn [foldr barred]. by rewrite append_nil_r.
Qed.

(** C25: What the signature covers.  Two version 2 envelopes whose signed texts other than the
    ciphertext have no bar sign the same bytes exactly when session, terminal, batch,
    suite, epoch, WASM module, both binds, nonce and ciphertext agree; the algorithm, the
    expiry and the key mode are not covered, and with a bar in the session two different
    envelopes sign the same bytes. *)
Theorem signature_covers e e' :
  e_meta e <> None -> e_meta e' <> None ->
  forallb pipe_free (covered e) = true -> forallb pipe_free (covered e') = true ->
  (mac_input e = mac_input e' <-> covered e = covered e' /\ e_ct e = e_ct e') /\
  (forall alg exp, mac_input (mkEnvelope 2 alg (e_session e) (e_vt e) (e_batch e) (e_nonce e) (e_ct e)
                                (e_sig e) (e_key_mode e) exp (e_meta e)) = mac_input e) /\
  (forall a b, mac_input (mkEnvelope 2 (e_alg e) (a +:+ "|" +:+ b) (e_vt e) (e_batch e) (e_nonce e) (e_ct e)
                            (e_sig e) (e_key_mode e) (e_exp e) (e_meta e)) =
               mac_input (mkEnvelope 2 (e_alg e) a (b +:+ "|" +:+ e_vt e) (e_batch e) (e_nonce e) (e_ct e)
                            (e_sig e) (e_key_mode e) (e_exp e) (e_meta e))).
Proof.
  intros Hm Hm' Hc Hc'. split; [split|split].
  - rewrite !mac_input_barred by done. intros He%utf8_inj. apply append_inj_l in He.
    apply barred_inj; [|done|done|done]. unfold covered.
    destruct (e_meta e) as [[[[[? ?] ?] ?] ?]|], (e_meta e') as [[[[[? ?] ?] ?] ?]|]; done.
  - intros [Ha Hb]. by rewrite !mac_input_barred, Ha, Hb by done.
  - done.
  - intros a b. rewrite !mac_input_barred by done. do 2 f_equal. unfold covered. cbn [e_meta e_session e_vt e_batch e_nonce e_ct].
    destruct (e_meta e) as [[[[[? ?] ?] ?] ?]|]; [|done]. cbn [barred]. by rewrite !append_assoc.
Qed.

(** ** Opening what was sealed *)

(** The documented behaviour of a digest module: its identifier, and nonempty texts. *)
Definition wasm_contract {S0 : Suite} (api : wapi) : Prop :=
  module_id api = VStr WASM_ID /\
  (forall sid seed ep v, bindChallenge api sid seed ep = inr v -> exists t, v = VStr t /\ t <> "") /\
  (forall j v, bindPack api j = inr v -> exists t, v = VStr t /\ t <> "").

Lemma js_contract (S0 : Suite) : SuiteLaws S0 -> wasm_contract pureJsBindApi.
Proof.
  intros HL. assert (forall m, toHex (sha256 m) <> "") as Hx.
  { intros m He. apply (f_equal String.length) in He. rewrite toHex_length, sha_length in He. done. }
  split; [done|]. split.
  - intros sid seed ep v [= <-]. eexists. split; [done|]. apply Hx.
  - intros j v [= <-]. eexists. split; [done|]. apply Hx.
Qed.

(** ** The page's grant *)

Section Hold.
Context {H : Host}.

(** The module holds [gr], and nothing the page publishes would replace it. *)
Definition holds (gr : sgrant) (s : seal) : Prop :=
  grant s = Some gr /\
  let g := jor (sget "__GR_SEAL_GRANT__" s) (jor (prop (boot s) "seal_grant") VNull) in
  truthy g && has_key g && replaces g gr = false.

Lemma adopt_holds gr s : holds gr s -> truthy (g_wasm_url gr) = true -> holds gr (adoptFromGlobals s).
Proof.
  intros [Hg Hr] Hu. unfold adoptFromGlobals. set (s1 := if _ : bool then _ else s).
  assert (grant s1 = Some gr /\ swin s1 = swin s) as [Hg1 Hw1] by (subst s1; by destruct (_ || _)).
  set (g := jor _ _) in *. assert (adopt_grant g s1 = s1) as ->.
  { unfold adopt_grant. destruct (truthy g && has_key g) eqn:E; [|done]. rewrite Hg1. cbv zeta in Hr. rewrite E in Hr. cbn [andb] in Hr. by rewrite Hr. }
  assert (fill_wasm_url (boot s) s1 = s1) as ->.
  { unfold fill_wasm_url. rewrite Hg1, Hu. by rewrite andb_false_r. }
  split; [done|]. unfold boot, sget. rewrite Hw1. exact Hr.
Qed.

Lemma body_sid_force sid b : sid <> "" -> body_sid (force_sid sid b) = sid.
Proof.
  intros Hs. unfold force_sid, body_sid, put. rewrite (proj2 (String.eqb_neq _ _) Hs).
  cbn [negb prop]. rewrite assoc_set_prop, String.eqb_refl. unfold to_string_or_empty, jor. simpl.
  by rewrite (proj2 (String.eqb_neq _ _) Hs).
Qed.

Lemma body_sid_put sid b : sid <> "" -> body_sid (put "session_id" (VStr sid) b) = sid.
Proof. intros Hs. rewrite <- (body_sid_force sid b Hs) at 2. unfold force_sid. by rewrite (proj2 (String.eqb_neq _ _) Hs). Qed.

Section Held.
Variables (gr : sgrant) (t : string).
Hypotheses (Hu : truthy (g_wasm_url gr) = true) (Hs : g_session gr = VStr t) (Ht : t <> "").

Lemma held_resolve now want s : holds gr s -> want <> "" -> resolve now want s <> "".
Proof. intros [Hg _] Hw. exact (resolve_nonempty now want s gr t Hw Hg Hs). Qed.

Lemma held_valid now sid s : holds gr s -> sid <> "" -> valid_for now sid s = true -> sid = t.
Proof. intros [Hg _] Hne Hv. by destruct (valid_for_session _ _ _ _ _ Hv Hg Hs) as [|[|]]. Qed.

Lemma held_asks now want sid s :
  holds gr s ->
  (exists s1, fst (resolveSealSessionId now want s) = s1 /\ holds gr s1 /\
     snd (resolveSealSessionId now want s) = resolve now want s1) /\
  (exists s1, fst (grantValid now sid s) = s1 /\ holds gr s1 /\ snd (grantValid now sid s) = valid_for now sid s1) /\
  (exists s1, fst (grantRawValid now s) = s1 /\ holds gr s1 /\ snd (grantRawValid now s) = raw_valid now s1).
Proof.
  intros Hh. pose proof (adopt_holds _ _ Hh Hu). unfold resolveSealSessionId, grantValid, grantRawValid.
  cbv zeta. cbn [fst snd]. split; [|split]; eexists; done.
Qed.

(** Resolving a session, then asking whether the grant is valid for it. *)
Lemma ask_resolve now want s : holds gr s -> want <> "" ->
  exists s1 r, resolveSealSessionId now want s = (s1, r) /\ holds gr s1 /\ r <> "".
Proof.
  intros Hh Hw. destruct (held_asks now want "" s Hh) as [(s1 & <- & Hh1 & Hr) _].
  destruct (resolveSealSessionId now want s) as [s1 r]. exists s1, r. split; [done|]. split; [done|].
  cbn [snd fst] in Hr, Hh1. rewrite Hr. by apply held_resolve.
Qed.

Lemma ask_valid now sid s : holds gr s -> sid <> "" ->
  exists s1 ok, grantValid now sid s = (s1, ok) /\ holds gr s1 /\ (ok = true -> sid = t).
Proof.
  intros Hh Hw. destruct (held_asks now "" sid s Hh) as [_ [(s1 & <- & Hh1 & Hr) _]].
  destruct (grantValid now sid s) as [s1 ok]. exists s1, ok. split; [done|]. split; [done|].
  cbn [snd fst] in Hr, Hh1. rewrite Hr. by apply held_valid.
Qed.

Lemma ask_raw now s : holds gr s -> exists s1 raw, grantRawValid now s = (s1, raw) /\ holds gr s1.
Proof.
  intros Hh. destruct (held_asks now "" "" s Hh) as [_ [_ (s1 & <- & Hh1 & Hr)]].
  destruct (grantRawValid now s) as [s1 ok]. by exists s1, ok.
Qed.

(** After the wait the upload goes on for the grant's session. *)
Lemma wait_session now need body s pre sid b :
  after_wait now need (body_sid body) body s pre = GSeal sid b -> holds gr s -> body_sid body <> "" ->
  sid = t /\ body_sid b = t.
Proof.
  unfold after_wait. intros Hw Hh Hb.
  destruct (ask_resolve now _ s Hh Hb) as (s1 & r & Er & Hh1 & Hne). rewrite Er in Hw.
  destruct (ask_valid now r s1 Hh1 Hne) as (s2 & ok & Ev & Hh2 & Hok). rewrite Ev in Hw.
  destruct need; cbn [negb] in Hw.
  2: { destruct ok; [|done]. injection Hw as <- <-. rewrite body_sid_force by done. by rewrite Hok. }
  destruct (ask_raw now s2 Hh2) as (s3 & raw & Ea & Hh3). rewrite Ea in Hw.
  destruct (negb ok && negb raw); [done|].
  rewrite (proj1 Hh3), Hs in Hw. cbn [to_string] in Hw.
  destruct (negb ok && raw && truthy (VStr t)).
  - destruct (ask_valid now t s3 Hh3 Ht) as (s4 & ok' & Ev' & Hh4 & _). rewrite Ev' in Hw.
    destruct ok'; [|done]. cbn [negb] in Hw. rewrite (proj1 Hh4) in Hw.
    destruct (grantIsV2 _); [destruct pre|]; try done; injection Hw as <- <-; by rewrite body_sid_put.
  - destruct (ask_valid now r s3 Hh3 Hne) as (s4 & ok' & Ev' & Hh4 & Hrt). rewrite Ev' in Hw.
    destruct ok'; [|done]. cbn [negb] in Hw. rewrite (proj1 Hh4) in Hw.
    destruct (grantIsV2 _); [destruct pre|]; try done; injection Hw as <- <-; rewrite body_sid_force by done; by rewrite Hrt.
Qed.

Lemma begin_session {S0 : Suite} now body s sid b s' :
  seal_begin now body s = (inr sid, b, s') -> holds gr s -> body_sid body <> "" ->
  sid = t /\ b = set_body_sid t body.
Proof.
  unfold seal_begin. intros Hw Hh Hb. destruct (negb webcrypto); [done|].
  destruct (ask_resolve now _ _ (adopt_holds _ _ Hh Hu) Hb) as (s1 & r & Er & Hh1 & Hne). rewrite Er in Hw.
  destruct (ask_valid now r s1 Hh1 Hne) as (s2 & ok & Ev & Hh2 & Hok). rewrite Ev in Hw.
  destruct ok; [|done]. cbn [negb] in Hw. destruct (negb _); [done|]. injection Hw as <- <- _. by rewrite Hok.
Qed.
End Held.
End Hold.

(** ** Page and server agree *)

Section Open.
Context {H : Host} {S0 : Suite} {HL : SuiteLaws S0}.

(** The server's view of a version 2 envelope of the page. *)
Definition received (e : envelope) (exp : Z) (su ep wm ch ps : string) : SealedEnvelope :=
  mkSealed (e_v e) (e_alg e) (e_session e) (e_vt e) (e_batch e) (e_nonce e) (e_ct e) (e_sig e) (Some (e_key_mode e))
    (Some exp) (Some su) (Some ep) (Some wm) (Some ch) (Some ps).

Lemma get_int_vint lo hi z : lo <= z < hi -> get_int lo hi (vint z) = Some z.
Proof.
  intros Hz. unfold get_int, vint, num_Z. cbn [inject_Z Qden Qnum]. rewrite Pos.eqb_refl. cbn [andb].
  destruct (Z.leb_spec lo z), (Z.ltb_spec z hi); try lia; done.
Qed.

(** The text posted is read back as the envelope. *)
Lemma envelope_read e exp su ep wm ch ps :
  e_meta e = Some (VStr su, VStr ep, VStr wm, ch, ps) -> e_exp e = num_Z exp -> 0 <= e_v e < 2 ^ 32 ->
  - 2 ^ 63 <= exp < 2 ^ 63 ->
  (v ← serde_parse (utf8 (body_text (envelope_obj e))); envelope_of v) = Some (received e exp su ep wm ch ps).
Proof.
  intros Hm He Hv Hx. unfold body_text.
  assert (json_ok (envelope_obj e) = true) as Hok by (unfold envelope_obj; rewrite Hm, He; reflexivity).
  destruct (stringify_ok _ Hok) as [t Ht]. rewrite Ht. cbn [default]. rewrite (serde_json _ _ Hok Ht).
  unfold envelope_obj. rewrite Hm, He. cbn -[get_int vint Z.pow].
  change (VNum (num_Z exp)) with (vint exp). rewrite !get_int_vint by done. done.
Qed.

Lemma keys_agree secret : derive_keys_v2 secret = deriveKeysV2 secret.
Proof. done. Qed.

(** The server's signature is the page's. *)
Lemma signatures_agree mac e exp su ep wm ch ps :
  e_meta e = Some (VStr su, VStr ep, VStr wm, ch, ps) ->
  sign_envelope_v2 mac (received e exp su ep wm ch ps) = hmacSha256B64 mac (mac_input e).
Proof.
  intros Hm. unfold sign_envelope_v2, hmacSha256B64. rewrite rs_encode_btoa. do 2 f_equal.
  unfold mac_input, mac_parts. rewrite Hm. unfold update, received.
  cbn [v_session v_terminal v_batch v_suite v_epoch v_wasm v_chal v_psh v_nonce v_ct text default to_string map concat].
  by rewrite <- !app_assoc, app_nil_r.
Qed.

(** Compression is undone by what the envelope's algorithm tells the server to do. *)
Lemma prepared_opens u pre alg : preparePlainForAes u = (pre, alg) -> len_Z u <= MAX_BYTES ->
  plain_v2 alg pre = inr u.
Proof.
  unfold preparePlainForAes. intros Hp Hl.
  assert (forall pre alg, (u, ALGO_IDENTITY) = (pre, alg) -> plain_v2 alg pre = inr u) as Hid.
  { intros ? ? [= <- <-]. unfold plain_v2. change (uses_deflate ALGO_IDENTITY) with false. cbv iota.
    destruct (Z.ltb_spec MAX_BYTES (len_Z u)); [lia|done]. }
  destruct (deflate u) as [[|c l]|] eqn:Ed; [by apply Hid| |by apply Hid].
  injection Hp as <- <-. unfold plain_v2. change (uses_deflate ALGO_DEFLATE) with true. cbv iota.
  unfold decompress_limited. rewrite (inflate_deflate _ _ Ed).
  destruct (Z.ltb_spec MAX_BYTES (len_Z u)); [lia|done].
Qed.

(** ** What the server issues *)

Lemma grant_exp_range now ttl : - 2 ^ 63 <= grant_exp now ttl < 2 ^ 63.
Proof.
  unfold grant_exp, as_i64. pose proof (Z.mod_pos_bound (saturating_add now (if ttl =? 0 then SESSION_SEAL_TTL_MS else ttl) + 2 ^ 63) (2 ^ 64) eq_refl). lia.
Qed.

(** The grant the page builds from one the server issued. *)
Lemma issued_grant master sid now ttl epoch wname gv :
  issue_session_seal_grant_v2 master sid now ttl epoch wname = Some gv -> sid <> "" -> epoch <> "" ->
  exists key, derive_session_seal_secret_v2 master sid (grant_exp now ttl) epoch SEAL_SUITE = Some key /\
    b64ToBytes (to_string (key_b64 (grant_of gv))) = Some key /\
    exp_ms (grant_of gv) = num_Z (grant_exp now ttl) /\
    g_session (grant_of gv) = VStr sid /\ g_epoch (grant_of gv) = VStr epoch /\
    g_suite (grant_of gv) = VStr SEAL_SUITE /\ truthy (g_wasm_url (grant_of gv)) = true /\
    grantIsV2 (grant_obj (grant_of gv)) = true.
Proof.
  unfold issue_session_seal_grant_v2. set (exp := grant_exp _ _). cbv zeta. intros Hi Hs He.
  destruct (derive_session_seal_secret_v2 _ _ _ _ _) as [key|]; [|done]. injection Hi as <-.
  exists key. split; [done|].
  assert (forall a t, jor (VStr a) t = if a =s "" then t else VStr a) as Hj by (intros a t; unfold jor; simpl; by destruct (a =s "")).
  unfold grant_of. cbn [key_b64 exp_ms g_session g_epoch g_suite g_wasm_url prop assoc String.eqb Ascii.eqb Bool.eqb].
  rewrite !Hj. rewrite (proj2 (String.eqb_neq sid "") Hs), (proj2 (String.eqb_neq epoch "") He).
  split; [|split; [|by repeat split]].
  - rewrite rs_encode_btoa. rewrite <- (b64_round_trip key). f_equal. unfold jor. simpl.
    by destruct (String.eqb_spec (bytesToB64 key) "") as [->|].
  - unfold jor. rewrite truthy_vint. destruct (Z.eqb_spec exp 0) as [->|]; done.
Qed.

(** ** Opening what was sealed *)

(** What [encrypt_v2] makes, and that the server opens it with the key it was made with. *)
Lemma encrypted_opens st g g' sid ep su wm ch psh b env key exp :
  encrypt_v2 st g sid (VStr ep) (VStr su) (VStr wm) (VStr ch) (VStr psh) b = inr env ->
  grant (st_enc st) = Some g' -> exp_ms g' = num_Z exp ->
  b64ToBytes (to_string (key_b64 g)) = Some key -> length (st_nonce st) = 12%nat ->
  json_ok b = true -> len_Z (utf8 (body_text b)) <= MAX_BYTES -> ch <> "" -> psh <> "" ->
  unseal_v2_body key (received env exp su ep wm ch psh) = inr b /\
  e_v env = 2 /\ e_session env = sid /\ e_vt env = terminal_id (st_enc st) (st_storage st) b /\
  e_batch env = body_bid b /\ e_exp env = num_Z exp /\
  e_meta env = Some (VStr su, VStr ep, VStr wm, ch, psh).
Proof.
  intros He Hg Hx Hk Hn Hb Hl Hch Hps. unfold encrypt_v2 in He. rewrite Hk, Hg, Hx in He.
  destruct (json_stringify b) as [t|] eqn:Et; [|done].
  assert (forall t, t <> "" -> to_string (jor (VStr t) (VStr "")) = t) as Hjt.
  { intros t0 Ht. unfold jor. simpl. by rewrite (proj2 (String.eqb_neq t0 "") Ht). }
  rewrite !Hjt in He by done.
  assert ((if truthy (VNum (num_Z exp)) then num_Z exp else num_Z 0) = num_Z exp) as Hxe.
  { change (VNum (num_Z exp)) with (vint exp). rewrite truthy_vint. by destruct (Z.eqb_spec exp 0) as [->|]. }
  rewrite Hxe in He. unfold body_text in Hl. rewrite Et in Hl. cbn [default] in Hl.
  destruct (deriveKeysV2 key) as [enc mac] eqn:Ek. destruct (preparePlainForAes (utf8 t)) as [pre alg] eqn:Ep.
  injection He as <-. split; [|by repeat split].
  unfold unseal_v2_body. rewrite keys_agree, Ek. cbv iota. rewrite signatures_agree by reflexivity.
  cbn [received set_sig v_sig e_sig e_v e_alg e_session e_vt e_batch e_nonce e_ct e_key_mode e_exp e_meta].
  match goal with |- context [mac_input (mkEnvelope ?a ?b ?c ?d ?e ?f ?g ?h ?i ?j ?k)] =>
    change (mac_input (mkEnvelope a b c d e f g h i j k)) with (mac_input (mkEnvelope a b c d e f g "" i j k)) end.
  rewrite String.eqb_refl. cbn [negb]. unfold decrypt, received.
  cbn [set_sig v_nonce v_ct v_alg e_nonce e_ct e_alg].
  rewrite !rs_decode_btoa, Hn. cbn [Nat.eqb negb].
  rewrite gcm_open_seal, (prepared_opens _ _ _ Ep Hl), (serde_json _ _ Hb Et). done.
Qed.
(** A sealed wire is the envelope the seal made, after the wait. *)
Lemma prepared_envelope r apiBase body s w b : prepareUpload r apiBase body s = (inr w, b) -> w_sealed w = true ->
  exists need sid b1 env,
    after_wait (r_now r) need (body_sid body) body (r_granted r) (r_preload r) = GSeal sid b1 /\
    sealIngestBody (r_seal_now r) (r_stages r) (r_wasm r) b1 (r_start r) = (inr env, b) /\
    w = mkWire (ingest_base apiBase +:+ "/v1/ingest/sealed") (body_text (envelope_obj env)) true (Some sid).
Proof.
  unfold prepareUpload. destruct (isRequireSealed _) as [s2 need]. destruct (_ && negb need); [by intros [= <- _]|].
  destruct (after_wait _ _ _ _ _ _) as [sid b1|b1|x b1] eqn:Ew; [|by intros [= <- _]|done].
  destruct (sealIngestBody _ _ _ _ _) as [res b2] eqn:Es. intros Hp Hw.
  destruct (r_timeout r); [|destruct res as [x|env]].
  - destruct (need || _); [done|]. by injection Hp as <- _.
  - destruct (need || _); [done|]. by injection Hp as <- _.
  - injection Hp as <- <-. by exists need, sid, b1, env.
Qed.

(** Sealing while the module holds an issued grant. *)
Lemma sealed_opens now st api body s env b gr sid ep exp key :
  sealIngestBody now st (WReady api) body s = (inr env, b) -> holds gr s ->
  Forall (fun s' => grant s' = Some gr) [st_wasm st; st_pack st; st_enc st] ->
  b64ToBytes (to_string (key_b64 gr)) = Some key -> exp_ms gr = num_Z exp -> g_session gr = VStr sid ->
  g_epoch gr = VStr ep -> g_suite gr = VStr SEAL_SUITE -> truthy (g_wasm_url gr) = true ->
  grantIsV2 (grant_obj gr) = true -> sid <> "" -> ep <> "" -> body_sid body <> "" -> wasm_contract api ->
  length (st_nonce st) = 12%nat -> json_ok b = true -> len_Z (utf8 (body_text b)) <= MAX_BYTES ->
  exists ch psh, ch <> "" /\ psh <> "" /\
    unseal_v2_body key (received env exp SEAL_SUITE ep WASM_ID ch psh) = inr b /\
    e_v env = 2 /\ e_session env = sid /\ e_vt env = terminal_id (st_enc st) (st_storage st) b /\
    e_batch env = body_bid b /\ e_exp env = num_Z exp /\
    e_meta env = Some (VStr SEAL_SUITE, VStr ep, VStr WASM_ID, ch, psh).
Proof.
  unfold sealIngestBody. intros Hs Hh Hst Hk Hx Hgs Hge Hgsu Hu Hv2 Hsid Hep Hb (Hmod & Hcc & Hcp) Hn Hj Hl.
  pose proof (adopt_holds _ _ Hh Hu) as Hh1. rewrite (proj1 Hh1), Hv2 in Hs.
  generalize dependent (adoptFromGlobals s). intros s1 Hs Hh1.
  inversion_clear Hst as [|? ? H3 Hst4]. inversion_clear Hst4 as [|? ? H4 Hst5]. inversion_clear Hst5 as [|? ? H5 _].
  unfold sealIngestBodyV2 in Hs. destruct (seal_begin now body s1) as [[[e0|sid'] b0] s'] eqn:Eb; [done|].
  destruct (begin_session _ _ Hu Hgs Hsid _ _ _ _ _ _ Eb Hh1 Hb) as [-> _].
  rewrite H3, H4, Hmod, Hge, Hgsu in Hs.
  assert (forall t v, t <> "" -> jor (VStr t) v = VStr t) as Hjor.
  { intros t v Ht. unfold jor. simpl. by rewrite (proj2 (String.eqb_neq t "") Ht). }
  rewrite !Hjor in Hs by done.
  destruct (bindChallenge _ _ _ _) as [?|ch] eqn:Ech; [done|]. destruct (Hcc _ _ _ _ Ech) as (tc & -> & Htc).
  destruct (bindPack _ _) as [?|psh] eqn:Eps; [done|]. destruct (Hcp _ _ Eps) as (tp & -> & Htp).
  injection Hs as He Hbb. rewrite Hbb in He. exists tc, tp. split; [done|]. split; [done|].
  exact (encrypted_opens _ _ _ _ _ _ _ _ _ _ _ _ _ He H5 Hx Hk Hn Hj Hl Htc Htp).
Qed.

(** The server accepts what it can open. *)
Lemma received_accepted pol master prev env exp ep ch psh key b now :
  e_v env = 2 -> e_session env <> "" -> e_vt env <> "" -> e_batch env <> "" -> e_exp env = num_Z exp ->
  e_meta env = Some (VStr SEAL_SUITE, VStr ep, VStr WASM_ID, ch, psh) -> - 2 ^ 63 <= exp < 2 ^ 63 ->
  ep <> "" -> mem_str ep (p_epochs pol) = true -> ch <> "" -> psh <> "" -> now <= exp ->
  derive_session_seal_secret_v2 master (e_session env) exp ep SEAL_SUITE = Some key ->
  unseal_v2_body key (received env exp SEAL_SUITE ep WASM_ID ch psh) = inr b ->
  validate_unsealed_content pol (e_batch env) b = None ->
  ingest_sealed pol master prev (utf8 (body_text (envelope_obj env))) now = Some (inr b).
Proof.
  intros Hv Hs Ht Hb Hx Hm Hr Hep Hpe Hch Hps Hnow Hd Ho Hc. unfold ingest_sealed.
  rewrite (envelope_read env exp _ _ _ _ _ Hm Hx) by (rewrite ?Hv; lia).
  set (v := received _ _ _ _ _ _ _) in *. unfold unseal_probe_payload_auto_v2, try_unseal, exp_of.
  assert (validate_envelope_v2_policy pol v = None) as ->.
  { unfold validate_envelope_v2_policy. change (v_v v) with (e_v env). change (text (v_suite v)) with SEAL_SUITE.
    change (text (v_epoch v)) with ep. change (text (v_wasm v)) with WASM_ID. change (text (v_chal v)) with ch.
    change (text (v_psh v)) with psh. rewrite Hv, Hpe. change (suite_allowed pol SEAL_SUITE) with true. change (wasm_module_allowed pol WASM_ID) with true.
    change (WASM_ID =s "") with false.
    rewrite (proj2 (String.eqb_neq ep "") Hep), (proj2 (String.eqb_neq ch "") Hch), (proj2 (String.eqb_neq psh "") Hps). done. }
  change (v_session v) with (e_session env). change (v_terminal v) with (e_vt env). change (v_batch v) with (e_batch env).
  change (v_v v) with (e_v env). change (default 0 (v_exp v)) with exp. change (text (v_epoch v)) with ep.
  change (default SEAL_SUITE (v_suite v)) with SEAL_SUITE.
  rewrite Hv, (proj2 (String.eqb_neq _ "") Hs), (proj2 (String.eqb_neq _ "") Ht), (proj2 (String.eqb_neq _ "") Hb).
  change (2 <? 2) with false. rewrite andb_false_r. cbn [orb]. destruct (Z.ltb_spec exp now); [lia|]. rewrite andb_false_r.
  rewrite Hd. cbn [mbind option_bind]. rewrite Ho. cbn [gate]. by rewrite Hc.
Qed.
End Open.

(** C7: A sealed upload opens.  Suppose the server issued a grant, the page holds it whenever
    the seal reads it and publishes none that would replace it, the digests come from a
    module that meets its contract, and the body names a session.  If [prepareUpload] then
    yields a sealed wire, it is for the sealed endpoint and the grant's session, and until
    the grant expires [ingest_sealed] reads the posted text, re-derives the key from its
    master secret, accepts the policy and the signature, decrypts, decompresses and parses
    exactly the body the page sealed, stamps included; provided that the body names its batch,
    that the terminal id is not the empty text, that the body is plain JSON with integer
    numbers of at most 2 MiB, and that it passes the server's content gate, which concerns
    batch B10_hw_curves only. *)
Theorem sealed_upload_opens (H : Host) (S0 : Suite) (HL : SuiteLaws S0) pol master prev sid now0 ttl epoch wname gv
    api r apiBase body s w b now' :
  issue_session_seal_grant_v2 master sid now0 ttl epoch wname = Some gv ->
  sid <> "" -> epoch <> "" -> mem_str epoch (p_epochs pol) = true ->
  Forall (holds (grant_of gv)) [r_granted r; r_start r] ->
  Forall (fun s' => grant s' = Some (grant_of gv)) [st_wasm (r_stages r); st_pack (r_stages r); st_enc (r_stages r)] ->
  r_wasm r = WReady api -> wasm_contract api -> length (st_nonce (r_stages r)) = 12%nat ->
  body_sid body <> "" ->
  prepareUpload r apiBase body s = (inr w, b) -> w_sealed w = true ->
  body_bid b <> "" -> terminal_id (st_enc (r_stages r)) (st_storage (r_stages r)) b <> "" ->
  json_ok b = true -> len_Z (utf8 (body_text b)) <= MAX_BYTES ->
  validate_unsealed_content pol (body_bid b) b = None -> now' <= grant_exp now0 ttl ->
  w_url w = ingest_base apiBase +:+ "/v1/ingest/sealed" /\ w_session w = Some sid /\
  ingest_sealed pol master prev (utf8 (w_body w)) now' = Some (inr b).
Proof.
  intros Hi Hsid Hep Hpe Hh Hst Hw Hc Hn Hbs Hp Hws Hbid Hvt Hj Hl Hct Hnow.
  destruct (issued_grant _ _ _ _ _ _ _ Hi Hsid Hep) as (key & Hd & Hk & Hexp & Hgs & Hge & Hgsu & Hu & Hv2).
  inversion_clear Hh as [|? ? H1 Hh2]. inversion_clear Hh2 as [|? ? H2 _].
  destruct (prepared_envelope _ _ _ _ _ _ Hp Hws) as (need & sid1 & b1 & env & Ew & Es & ->).
  destruct (wait_session _ _ Hu Hgs Hsid _ _ _ _ _ _ _ Ew H1 Hbs) as [-> Hb1]. rewrite Hw in Es.
  assert (body_sid b1 <> "") as Hb1' by congruence.
  destruct (sealed_opens _ _ _ _ _ _ _ _ _ _ _ _ Es H2 Hst Hk Hexp Hgs Hge Hgsu Hu Hv2 Hsid Hep Hb1' Hc Hn Hj Hl)
    as (ch & psh & Hch & Hps & Ho & Ev & Ess & Evt & Ebt & Eex & Em).
  split; [done|]. split; [done|]. cbn [w_body].
  apply (received_accepted pol master prev env (grant_exp now0 ttl) epoch ch psh key b now'); auto; try congruence.
  apply grant_exp_range.
Qed.

(** ** A sealed upload *)

Definition demo_pol : policy := mkPolicy true ["6.1"] [] [] false false (fun _ => true).
Definition demo_master : bytes := utf8 "master".
Definition issued (sid : string) (now : Z) : val :=
  default VNull (issue_session_seal_grant_v2 (S0 := toy) demo_master sid now 60000 "6.1" "gr_seal_v2.wasm").
Definition demo_seal : seal := setGrant (H := demo_host) (issued "cycle_1" 1000) (seal0 (H := demo_host) win0).
Definition demo_stages (s : seal) : stages := mkStages s s s s (utf8 "123456789012") (VStr "vt_1").
Definition demo_body : val :=
  VObj [("session_id", VStr "cycle_1"); ("batch_id", VStr "B2_hardware");
        ("payload", VObj [("fields", VObj [("cores", vint 8)])])].
Definition demo_sealed : (string + envelope) * val :=
  sealIngestBodyV2 (H := demo_host) (S0 := toy) 2000 (demo_stages demo_seal) (WReady (pureJsBindApi)) demo_body demo_seal.

Example demo_sealed_ok : (exists e, fst demo_sealed = inr e /\ e_session e = "cycle_1" /\ e_alg e = ALGO_DEFLATE) /\
  prop (prop (prop (snd demo_sealed) "payload") "fields") "client_fe_epoch" = VStr "6.1".
Proof. split; [eexists; split; [vm_compute; reflexivity|split; reflexivity]|vm_compute; reflexivity]. Qed.

(** The same body prepared as an upload. *)
Definition demo_posted : (string + wire) * val :=
  prepareUpload (H := demo_host) (S0 := toy)
    (mkRun 1500 demo_seal (WReady pureJsBindApi) 2000 demo_seal (WReady pureJsBindApi) (demo_stages demo_seal) false demo_seal)
    "/g5/" demo_body demo_seal.

(** The server's answer to a text the page posts. *)
Definition answered (e : envelope) (now : Z) : option (Z + val) :=
  ingest_sealed (S0 := toy) demo_pol demo_master None (utf8 (body_text (envelope_obj e))) now.

Lemma sealed_upload_opens_witness :
  w_url (get_wire (fst demo_posted)) = ingest_base "/g5/" +:+ "/v1/ingest/sealed" /\
  w_session (get_wire (fst demo_posted)) = Some "cycle_1" /\
  ingest_sealed (S0 := toy) demo_pol demo_master None (utf8 (w_body (get_wire (fst demo_posted)))) 61000 =
    Some (inr (snd demo_posted)).
Proof.
  refine (sealed_upload_opens demo_host toy toy_laws demo_pol demo_master None "cycle_1" 1000 60000 "6.1"
    "gr_seal_v2.wasm" (issued "cycle_1" 1000) pureJsBindApi
    (mkRun 1500 demo_seal (WReady pureJsBindApi) 2000 demo_seal (WReady pureJsBindApi) (demo_stages demo_seal) false demo_seal)
    "/g5/" demo_body demo_seal _ _ 61000 _ _ _ _ _ _ _ (js_contract toy toy_laws) _ _ _ _ _ _ _ _ _ _).
  - vm_compute. reflexivity.
  - discriminate.
  - discriminate.
  - reflexivity.
  - repeat (apply Forall_cons; split; [split; vm_compute; reflexivity|]). apply Forall_nil_2.
  - repeat (apply Forall_cons; split; [vm_compute; reflexivity|]). apply Forall_nil_2.
  - reflexivity.
  - reflexivity.
  - discriminate.
  - vm_compute. reflexivity.
  - vm_compute. reflexivity.
  - vm_compute. discriminate.
  - vm_compute. discriminate.
  - vm_compute. reflexivity.
  - vm_compute. discriminate.
  - vm_compute. reflexivity.
  - vm_compute. discriminate.
Defined.

Definition demo_env : envelope := get_env (fst demo_sealed).

(** The same envelope for another session. *)
Definition other_env : envelope :=
  mkEnvelope 2 (e_alg demo_env) "cycle_2" (e_vt demo_env) (e_batch demo_env) (e_nonce demo_env) (e_ct demo_env)
    (e_sig demo_env) (e_key_mode demo_env) (e_exp demo_env) (e_meta demo_env).

Lemma signature_covers_witness :
  mac_input demo_env = mac_input other_env <-> covered demo_env = covered other_env /\ e_ct demo_env = e_ct other_env.
Proof.
  refine (proj1 (signature_covers demo_env other_env _ _ _ _)).
  - intros Hm. vm_compute in Hm. discriminate Hm.
  - intros Hm. vm_compute in Hm. discriminate Hm.
  - vm_compute. reflexivity.
  - vm_compute. reflexivity.
Defined.

(** ** The page changes during a seal *)

(** A grant for another session arrives after the session was fixed and before the key is
    read: the envelope names the old session with the new key and expiry, and the server
    refuses its signature. *)
Definition swapped : seal := setGrant (H := demo_host) (issued "cycle_2" 5000) demo_seal.

Definition swapped_env : envelope :=
  get_env (fst (sealIngestBodyV2 (H := demo_host) (S0 := toy) 2000
    (mkStages demo_seal swapped swapped swapped (utf8 "123456789012") (VStr "vt_1"))
    (WReady pureJsBindApi) demo_body demo_seal)).

Example grant_swap_refused :
  e_session swapped_env = "cycle_1" /\ e_exp swapped_env = num_Z 65000 /\
  answered swapped_env 6000 = Some (inl 401).
Proof. repeat split; vm_compute; reflexivity. Qed.

(** Sealing becomes required while the upload waits for a grant: the upload still goes out
    as plain text. *)
Definition late_required : seal := setRequireSealed true (seal0 (H := demo_host) win0).

Example requirement_during_wait :
  snd (isRequireSealed (H := demo_host) late_required) = true /\
  exists w, fst (prepareUpload (H := demo_host) (S0 := toy)
    (mkRun 2400 late_required WPending 2400 late_required WPending (demo_stages late_required) false late_required)
    "/g5/" demo_body (seal0 (H := demo_host) win0)) = inr w /\ w_sealed w = false /\ w_url w = "/g5/v1/ingest".
Proof. split; [reflexivity|]. eexists. split; [vm_compute; reflexivity|done]. Qed.

(** A body without a session is sealed for none: the server rejects it before looking at
    the seal. *)
Example empty_session_refused :
  let r := sealIngestBodyV2 (H := demo_host) (S0 := toy) 2000 (demo_stages demo_seal) (WReady pureJsBindApi)
             (VObj [("batch_id", VStr "B2_hardware")]) demo_seal in
  e_session (get_env (fst r)) = "" /\
  answered (get_env (fst r)) 6000 = Some (inl 400).
Proof. cbv zeta. split; vm_compute; reflexivity. Qed.
