(* ===== verification/SealGate.v ===== *)
(** * Upload queue: the gate to the seal ([probe/fe/upload_queue.js])

    What [postOne] does about sealing before anything is sent: is a seal
    needed, is the module loaded, is there a grant, the refresh of a grant,
    and the call of [prepareUpload] with its plain fallback.  The seal module
    is reached through [SealApi]; [SealEnvelope] is its instance. *)

From Stdlib Require Import QArith Qround.
From S2P Require Import Prelude JsVal Window Uri Json PackUrl Lifecycle Registry QueueState Freeze QueuePump QueueOutcome.
From S2P Require Import SealSuite SealUrl SealGrant SealWasm SealEnvelope.
#[local] Open Scope Z_scope.

(** ** The interface of [GRSeal]

    [T] is the module's own state; every operation also reads and writes the
    window.  [sa_prepares t w base body r] says that [r], the outcome of
    [prepareUpload] with the body it leaves, is possible from there. *)
Class SealApi (T : Type) := {
  sa_required : T -> Win -> T * Win * bool;
  sa_rawValid : Z -> T -> Win -> T * Win * bool;
  sa_valid : Z -> string -> T -> Win -> T * Win * bool;
  sa_setGrant : val -> T -> Win -> T * Win;
  sa_setRequired : bool -> T -> Win -> T * Win;
  sa_adopt : T -> Win -> T * Win;
  sa_prepares : T -> Win -> string -> val -> (string + wire) * val -> Prop
}.

(** What the queue relies on: when sealing is required, preparing an upload never
    answers with a plain one; being told to seal is recorded in the module and on the
    page, and neither of the queue's own flags is lost by it. *)
Class SealLaws (T : Type) `{SealApi T} : Prop := {
  sa_never_plain t w base body wr b t' w' :
    sa_prepares t w base body (inr wr, b) -> sa_required t w = (t', w', true) -> w_sealed wr = true;
  sa_demanded t w t' w' : sa_setRequired true t w = (t', w') ->
    snd (sa_required t' w') = true /\ gtrue "__GR_REQUIRE_SEALED__" w' = true /\
    policy_requires (jor (gget "__GR_BOOT__" w') empty_obj) = true /\
    gget "__GR_SEEN_SEALED_REQUIRED__" w' = gget "__GR_SEEN_SEALED_REQUIRED__" w /\
    gget "__GR_FORCE_PLAIN_INGEST__" w' = gget "__GR_FORCE_PLAIN_INGEST__" w
}.

(** *** The instance *)

Definition seal_at (s : seal) (w : Win) : seal := set_swin w s.
Definition split (s : seal) : seal * Win := (s, swin s).
Definition split_b (r : seal * bool) : seal * Win * bool := (fst r, swin (fst r), snd r).

#[export] Instance seal_api (H : Host) (S0 : Suite) : SealApi seal := {
  sa_required t w := split_b (isRequireSealed (seal_at t w));
  sa_rawValid now t w := split_b (grantRawValid now (seal_at t w));
  sa_valid now sid t w := split_b (grantValid now sid (seal_at t w));
  sa_setGrant g t w := split (setGrant g (seal_at t w));
  sa_setRequired on t w := split (setRequireSealed on (seal_at t w));
  sa_adopt t w := split (adoptFromGlobals (seal_at t w));
  sa_prepares t w base body r := exists run, prepareUpload run base body (seal_at t w) = r
}.

(** ** State *)

(** The queue and, once [gr.seal] is loaded, the seal module. *)
Record tr (T : Type) := mkTr { tq : queue; tm : option T }.
Arguments mkTr {T}. Arguments tq {T}. Arguments tm {T}.

(** The page: its origin, [location.host], and whether a URL has that origin ([None] when the
    URL parser throws). *)
Class Page := {
  p_origin : option string;
  p_protocol : string;
  p_host : string;
  p_same : string -> option bool
}.

Section Gate.
Context {T : Type} {A : SealApi T} {P : Page}.
Implicit Type t : tr T.

Definition on_q (f : queue -> queue) t : tr T := mkTr (f (tq t)) (tm t).
Definition put_m (m : T) (w : Win) t : tr T := mkTr (set_win w (tq t)) (Some m).
Definition tget (k : string) t : val := gget k (win (tq t)).
Definition ttrue (k : string) t : bool := gtrue k (win (tq t)).
Definition tset (k : string) (v : val) t : tr T := on_q (set_var k v) t.

(** [if (global.GRSeal && GRSeal.f) GRSeal.f(...)] *)
Definition seal_do (f : T -> Win -> T * Win) t : tr T :=
  match tm t with Some m => let '(m', w) := f m (win (tq t)) in put_m m' w t | None => t end.
Definition seal_ask (f : T -> Win -> T * Win * bool) t : tr T * bool :=
  match tm t with Some m => let '(m', w, b) := f m (win (tq t)) in (put_m m' w t, b) | None => (t, false) end.

Definition tboot t : val := jor (tget "__GR_BOOT__" t) empty_obj.

(** ** Same origin *)

(** [location.origin && new URL(url, location.href).origin === location.origin],
    or a leading slash when that throws. *)
Definition sameOrigin (url : string) : bool :=
  match p_origin with
  | None => false
  | Some _ => match p_same url with Some b => b | None => starts_with "/" url end
  end.

(** ** [sealNeedNow] *)

Definition sealNeedNow t : tr T * bool :=
  if ttrue "__GR_FORCE_PLAIN_INGEST__" t then (t, false) else
  if ttrue "__GR_SEEN_SEALED_REQUIRED__" t || ttrue "__GR_REQUIRE_SEALED__" t then (t, true) else
  let '(t1, r) := seal_ask sa_required t in
  if r then (t1, true) else
  let b := tboot t1 in
  (t1, policy_requires b ||
       ((ttrue "__GR_FIRST_PARTY__" t1 || truthy (prop b "first_party") || truthy (prop b "firstParty")) &&
        (is_str (prop b "inject_path") "nginx" || is_str (prop b "injectPath") "nginx" || prod_env b))).

(** ** Waiting for the grant of the session open *)

Definition global_key t : bool :=
  let g := tget "__GR_SEAL_GRANT__" t in truthy g && truthy (prop g "key_b64").

(** The first lines of [waitOpenSealGrant] and every turn of its poll. *)
Definition grant_probe (now : Z) t : tr T * bool :=
  let '(t1, ok) := seal_ask (sa_rawValid now) t in
  if ok then (t1, true) else
  if global_key t1 then (seal_do (sa_setGrant (tget "__GR_SEAL_GRANT__" t1)) t1, true) else (t1, false).

(** One turn of the poll, every 35 ms: [None] when it goes on. *)
Definition grant_tick (start now timeoutMs : Z) t : tr T * option bool :=
  let '(t1, ok) := grant_probe now t in
  if ok then (t1, Some true) else (t1, if timeoutMs <? now - start then Some false else None).

(** When [__GR_SEAL_READY_P__] settles. *)
Definition ready_probe (now : Z) t : tr T * bool :=
  let t1 := seal_do sa_adopt t in
  let '(t2, ok) := seal_ask (sa_rawValid now) t1 in (t2, ok || global_key t2).

Definition open_wait_ms (q : queue) (bid : string) : Z :=
  if isHardAnchorBatch q bid || isDeepenBatch q bid || isB10xBatch bid then 20000 else 14000.

(** ** The module's script *)

Definition seal_base (q : queue) : string :=
  strip_slash (sor (c_apiBase (cfg q)) (to_string (jor (gget "__GR_API_BASE__" (win q)) (VStr "/g5")))).

Definition seal_script_src t : string :=
  let ver := to_string (jor (tget "__GR_SERVER_PRODUCT_VERSION__" t) (jor (tget "__GR_PRODUCT_VERSION__" t)
    (jor (jand (tget "__GR_BOOT__" t) (jor (prop (tboot t) "product_version") (prop (tboot t) "version"))) (VStr "")))) in
  sor (seal_base (tq t)) "/g5" +:+ "/dist/gr.seal.min.js" +:+
  (if ver <>s "" then "?v=" +:+ encodeURIComponent ver else "").

(** [ensureSealModule]: ready, not needed, or loading; a load is started once. *)
Inductive module_answer := MReady | MNotNeeded | MLoading.

Definition ensureSealModule t : tr T * module_answer :=
  match tm t with
  | Some _ => (t, MReady)
  | None =>
    let '(t1, need) := sealNeedNow t in
    if negb need then (t1, MNotNeeded) else
    if ttrue "__GR_SEAL_LOAD_P__" t1 then (t1, MLoading) else
    (t1 |> tset "__GR_SEAL_LOAD_P__" (VBool true) |> on_q (emit (ELoadScript (seal_script_src t1))), MLoading)
  end.

(** The script arrives, with the module it installs. *)
Definition seal_loaded (m : T) t : tr T := seal_do sa_adopt (mkTr (tq t) (Some m)).

(** ** [refreshSealGrant] *)

(** The value of [/[?&]grt=([^&]+)/]'s group: after a [?] or [&], [grt=] and a
    nonempty run without [&]. *)
Fixpoint grt_of (s : string) : option string :=
  match s with
  | EmptyString => None
  | String c s' =>
    match (if (Ascii.eqb c "?" || Ascii.eqb c "&") && starts_with "grt=" s'
           then before "&" (sdrop 4 s') else "") with
    | EmptyString => grt_of s'
    | v => Some v
    end
  end.

Fixpoint first_grt (l : list string) : option string :=
  match l with [] => None | s :: l' => match grt_of s with Some v => Some v | None => first_grt l' end end.

(** The embed token: the boot object's, else from the pin URL or a script tag
    ([tags]); empty when decoding throws. *)
Definition embed_token (tags : list string) t : string :=
  let bc := tboot t in
  sor (to_string_or_empty (prop bc "embed_token"))
    (let srcs := (if truthy (prop bc "pin_url") then [to_string (prop bc "pin_url")] else []) ++ tags in
     match first_grt srcs with Some v => default "" (decodeURIComponent v) | None => "" end).

Definition undef_or (v : val) : val := jor v VUndef.

(** The request; [inject] is [cfg.inject_path] and [vtid] what
    [GRStorage.visitorTerminalId] answers. *)
Definition refresh_body (sid inject : string) (vtid : val) (tags : list string) t : val :=
  let cycle := sor sid (to_string (jor (tget "__GR_SESSION_ID__" t) (jor (tget "__GR_CYCLE_ID__" t)
                 (jor (VStr (c_session (cfg (tq t)))) (VStr ""))))) in
  let vt := jor (tget "__GR_VTID__" t) (jor vtid (VStr "")) in
  let site := jor (tget "__GR_SITE_ID__" t) (jor (jor (prop (tboot t) "site_id") (prop (tboot t) "siteId")) (VStr "")) in
  VObj [("cycle_id", undef_or (VStr cycle)); ("session_id", undef_or (VStr cycle));
        ("visitor_terminal_id", undef_or vt); ("site_id", undef_or site);
        ("embed_token", undef_or (VStr (embed_token tags t)));
        ("meta", VObj [("fe", VStr "seal_refresh"); ("inject_path", VStr (sor inject "app"))])].

(** A call while a refresh is under way shares it. *)
Definition refreshSealGrant (sid inject : string) (vtid : val) (tags : list string) t : tr T :=
  if ttrue "__GR_SEAL_REFRESH_P__" t then t else
  let url := seal_base (tq t) +:+ "/v1/session/open" in
  t |> tset "__GR_SEAL_REFRESH_P__" (VBool true)
    |> on_q (emit (EOpenSession url (sameOrigin url) (refresh_body sid inject vtid tags t))).

Definition boot_set (k : string) (v : val) t : tr T :=
  tset "__GR_BOOT__" (VObj (set_prop k v (members_of (tboot t)))) t.

(** The grant of the answer is published, adopted, and the session follows. *)
Definition take_grant (j : val) t : tr T :=
  let t1 := t |> tset "__GR_SEAL_GRANT__" (prop j "seal_grant") |> boot_set "seal_grant" (prop j "seal_grant") in
  let req := truthy (prop j "require_sealed_ingest") in
  let t2 := if req then t1 |> tset "__GR_REQUIRE_SEALED__" (VBool true)
                           |> boot_set "require_sealed_ingest" (VBool true) else t1 in
  let t3 := if req then seal_do (sa_setRequired true) t2 else t2 in
  let t4 := t3 |> seal_do (sa_setGrant (prop j "seal_grant")) |> seal_do sa_adopt in
  let ns := jor (prop j "cycle_id") (jor (prop j "session_id") (VStr "")) in
  if truthy ns then
    t4 |> tset "__GR_SESSION_ID__" ns |> tset "__GR_CYCLE_ID__" ns |> on_q (conf_upd (set_c_session (to_string ns)))
  else t4.

(** The answer arrives; [None] when the request failed. *)
Definition refresh_done (e : env) (j : option val) t : tr T * bool :=
  let ok := match j with Some j => truthy j && truthy (prop j "seal_grant") | None => false end in
  let t1 := match j with Some j => if ok then take_grant j t else t | None => t end in
  let t2 := tset "__GR_SEAL_REFRESH_P__" VNull t1 in
  (if ok then on_q (pump e) t2 else t2, ok).

(** ** Preparing *)

Definition mk_err (code msg : string) (status : Z) : uerr :=
  mkErr status code msg false false false false false false false false.
Definition seal_err (code msg : string) : uerr :=
  mkErr 0 code msg false false false false true false false false.

(** After the module's answer: the circuit breaker, then whether to wait for a
    grant.  The outcome of the waits is not looked at. *)
Inductive gate := GStop (x : uerr) | GGo | GWait (timeoutMs : Z).

Definition prep_gate (now : Z) (it : item) t : tr T * gate :=
  let '(q1, broken) := sealCircuitOpen now (tq t) in
  let t1 := mkTr q1 (tm t) in
  if broken then (t1, GStop (seal_err "seal_circuit_open" "seal_circuit_open")) else
  let '(t2, need) := sealNeedNow t1 in
  if need then (t2, GWait (open_wait_ms (tq t2) (batch_id it))) else (t2, GGo).

(** [(global.__GR_SESSION_ID__ || cfg.session_id || body.session_id || "") + ""] *)
Definition auth_sid (body : val) t : string :=
  to_string (jor (tget "__GR_SESSION_ID__" t) (jor (VStr (c_session (cfg (tq t))))
    (jor (prop body "session_id") (VStr "")))).

(** The authoritative session replaces the body's when the grant is for it. *)
Definition rewrite_session (now : Z) (it : item) (body : val) t : tr T * item * val :=
  let a := auth_sid body t in
  if (a <>s "") && truthy (prop body "session_id") && negb (js_eq (VStr a) (prop body "session_id")) then
    let '(t1, ok) := seal_ask (sa_valid now a) t in
    if ok && starts_with "cycle_" a then (t1, set_i_session a it, put "session_id" (VStr a) body)
    else (t1, it, body)
  else (t, it, body).

(** What the upload does next: fail, go out plain, or call [prepareUpload]. *)
Inductive prep := PFail (x : uerr) | PPlain (w : wire) | PCall (body : val).

Definition plain (url : string) (body : val) : wire := mkWire url (body_text body) false None.

Definition prep_call (now : Z) (url : string) (it : item) (body : val) t : tr T * item * prep :=
  match tm t with
  | None =>
    let '(t1, need) := sealNeedNow t in
    (t1, it, if need then PFail (seal_err "seal_failed" "seal_module_missing") else PPlain (plain url body))
  | Some _ =>
    let '(t2, it2, body2) := rewrite_session now it body (seal_do sa_adopt t) in (t2, it2, PCall body2)
  end.

Definition dead_words : list string := ["seal_wasm_unsupported"; "wasm_not_binary"; "wasm_http_"; "seal_wasm_required"].

(** [prepareUpload] rejected with [msg]. *)
Definition prep_failed (base : string) (it : item) (msg : string) (body : val) t : tr T * (uerr + wire) :=
  let '(t1, need) := sealNeedNow t in
  if need then
    let dead := ttrue "__GR_SEAL_WASM_DEAD__" t1 || test_words dead_words msg in
    let t2 := if dead then tset "__GR_SEAL_WASM_DEAD__" (vint 1) t1 else t1 in
    let code := if dead && test_words ["unsupported"] msg then "seal_wasm_unsupported" else "seal_failed" in
    let n := match to_num_or (tget "__GR_SEAL_OPS_N__" t2) (num_Z 0) with Fin x => Qfloor x | _ => 0 end + 1 in
    let t3 := tset "__GR_SEAL_OPS_N__" (vint n) t2 in
    let t4 := if (n <=? 3) && ttrue "GROps" t3 then
        on_q (emit (EUploadHttp 0 (batch_id it)
          [("seal_failed", VBool true); ("seal_wasm_dead", VBool dead); ("code", VStr code);
           ("err", VStr (stake 160 msg)); ("final", VBool (dead && (2 <=? n)))])) t3 else t3 in
    (t4, inl (mkErr 0 code msg false false false false true false false dead))
  else
    (on_q (report "seal_fallback_plain"
       [("batch", VStr (stake 48 (batch_id it))); ("err", VStr (stake 80 msg))] "warn") t1,
     inr (plain (base +:+ "/v1/ingest") body)).

(** [sealPrep] as a whole, from the moment [prepareUpload] may be called: the
    wire it yields or the error it rejects with.  [late] is the page when
    [prepareUpload] rejects. *)
Inductive prepares (now : Z) (base url : string) (it : item) (body : val) (t late : tr T) : uerr + wire -> Prop :=
| prep_stops x : snd (prep_call now url it body t) = PFail x -> prepares now base url it body t late (inl x)
| prep_plain w : snd (prep_call now url it body t) = PPlain w -> prepares now base url it body t late (inr w)
| prep_ok b m wr b' :
    snd (prep_call now url it body t) = PCall b ->
    tm (fst (fst (prep_call now url it body t))) = Some m ->
    sa_prepares m (win (tq (fst (fst (prep_call now url it body t))))) base b (inr wr, b') ->
    prepares now base url it body t late (inr wr)
| prep_rejects b m msg b' :
    snd (prep_call now url it body t) = PCall b ->
    tm (fst (fst (prep_call now url it body t))) = Some m ->
    sa_prepares m (win (tq (fst (fst (prep_call now url it body t))))) base b (inl msg, b') ->
    prepares now base url it body t late (snd (prep_failed base it msg b' late)).
End Gate.
