(* ===== verification/Transport.v ===== *)
(** * Upload queue: the transport ([probe/fe/upload_queue.js], [postOne])

    The asynchronous part of [postOne] around the seal gate ([SealGate]): where
    and what to post, the check of the frozen capture, beacon or fetch, and how
    a response or a failed fetch becomes the value or the error the
    continuations of [QueueOutcome] receive. *)

From Stdlib Require Import QArith Qround.
From S2P Require Import Prelude JsVal Window Json PackUrl Lifecycle Registry Terminal QueueState Freeze QueuePump QueueOutcome.
From S2P Require Import SealEnvelope SealGate.
#[local] Open Scope Z_scope.

(** ** Where to *)

Section Where.
Context {P : Page}.

(** [resolvedApiBase] *)
Definition resolvedApiBase (q : queue) : string :=
  let b := gget "__GR_BOOT__" (win q) in
  let raw0 := trim (to_string (jor (VStr (c_apiBase (cfg q))) (jor (jand b (prop b "apiBase")) (VStr "")))) in
  let raw := if (raw0 =s "") && (gtrue "__GR_FIRST_PARTY__" (win q) || truthy (jand b (prop b "first_party")))
             then "/g5" else raw0 in
  if raw =s "" then "" else
  if starts_with "http://" (lower raw) || starts_with "https://" (lower raw) then strip_slash raw else
  if starts_with "//" raw then
    strip_slash ((match p_origin with Some _ => p_protocol | None => "https:" end) +:+ raw)
  else
    let r := strip_slash (if starts_with "/" raw then raw else "/" +:+ raw) in
    match p_origin with Some o => strip_slash (o +:+ r) | None => r end.

(** The base [prepareUpload] gets and the URL of a plain post. *)
Definition post_base (q : queue) : string := sor (resolvedApiBase q) (strip_slash (c_apiBase (cfg q))).
Definition post_url (q : queue) : string := post_base q +:+ "/v1/ingest".

Definition firstParty (q : queue) : bool :=
  isFirstPartyMode (fun u => match p_origin, p_same u with Some _, Some b => b | _, _ => false end) q.

(** ** The browser's engine *)

Record agent := mkAgent { ua : string; moz : bool; has_abort : bool }.

Definition engineGecko (a : agent) : bool :=
  moz a || contains "Firefox/" (ua a) || contains "FxiOS/" (ua a) ||
  (contains "Gecko/" (ua a) && negb (contains "like Gecko" (ua a))).
Definition engineEdge (a : agent) : bool := contains "Edg/" (ua a).
Definition forced (a : agent) : bool := engineGecko a || engineEdge a.

(** The URL before sealing: Gecko and Edge are sent to the first-party path. *)
Definition engine_url (a : agent) (q : queue) : string :=
  if forced a && negb (sameOrigin (post_url q))
  then sor (seal_base q) "/g5" +:+ "/v1/ingest" else post_url q.
End Where.

(** ** What *)

(** [deepCloneJson(item._frozen_fields)] is the snapshot freezing took.  The
    payload's fields differ from it: restore them. *)
Definition check_capture (frozen_fields : val) (it : item) (q : queue) : item * queue :=
  let nowS := opt_concat (stableStringify (jor (jand (payload it) (prop (payload it) "fields")) empty_obj)) in
  if negb (capture_frozen it && (frozen_json it <>s "")) || (nowS =s frozen_json it) then (it, q) else
  let snap := json_clone frozen_fields in
  let '(it1, restored) :=
    if truthy snap && is_object snap then
      let p := put "fields" snap (payload it) in
      (it |> set_payload p |> set_payload_hash (payloadHashOf p), opt_concat (stableStringify snap) =s frozen_json it)
    else (it, false) in
  (it1, report (if restored then "capture_mutation_restored" else "capture_mutated_blocked")
          [("batch_id", VStr (batch_id it)); ("restored", VBool restored)] (if restored then "info" else "warn") q).

(** What the request takes from the item and the page beyond the queue's own
    state: the plan epoch the three sources answer, the inject path, the
    probe method. *)
Record request := mkReq {
  rq_item_epoch : val; rq_sched_epoch : val; rq_inject : val; rq_method : val
}.

Definition plan_epoch (r : request) (q : queue) : val :=
  let v := if nonnull (rq_item_epoch r) then rq_item_epoch r else
           if nonnull (gget "__GR_PLAN_EPOCH__" (win q)) then gget "__GR_PLAN_EPOCH__" (win q)
           else rq_sched_epoch r in
  match to_num v with
  | Fin x => if Qle_bool x 0 then VUndef else if nonnull v then VNum (Fin x) else VUndef
  | _ => VUndef
  end.

Definition realm_kind (src : string) : string :=
  let s := lower (sor src "main") in
  if contains "worker" s then "worker" else if contains "sandbox" s then "sandbox_iframe" else
  if contains "iframe" s then "iframe" else "document".

Definition ingest_body (now : Z) (r : request) (it : item) (q : queue) : val :=
  VObj [("session_id", VStr (sessionOf q it)); ("batch_id", VStr (batch_id it)); ("source", VStr (src_of it));
        ("analyze", VBool false); ("inject_path", rq_inject r);
        ("product_version", jor (VStr (product_ver (win q))) VUndef); ("payload", jor (payload it) empty_obj);
        ("capture_id", jor (VStr (capture_id it)) VUndef);
        ("material_generation", match material_generation it with Some g => vint g | None => VUndef end);
        ("payload_hash", jor (VStr (payload_hash it)) VUndef); ("material_hash", jor (VStr (payload_hash it)) VUndef);
        ("plan_epoch", plan_epoch r q);
        ("attempt_id", VStr ("att_" +:+ Z_to_string (transport_attempts it) +:+ "_" +:+ Z_to_string now));
        ("source_kind", VStr "fe"); ("realm_kind", VStr (realm_kind (i_source it)));
        ("probe_method_id", jor (rq_method r) VUndef)].

(** ** How *)

Record fetch_init := mkFetch {
  f_url : string; f_body : string; f_same : bool; f_keepalive : bool;
  f_abort_ms : option Z; f_high : bool
}.

Inductive sending := SBeacon | SFetch (f : fetch_init).

Section Send.
Context {P : Page}.

(** [navigator.sendBeacon], when the browser has one: whether it took the text. *)
Variable beacon : option (string -> string -> bool).
Variable a : agent.

Definition keepalive (sealed fp hard hide : bool) : bool :=
  if sealed && hide then true else hide || (fp && hard && negb (engineGecko a) && negb (engineEdge a)).

Definition abort_ms (q : queue) (bid : string) : option Z :=
  let heavy := isHeavyBatch q bid || isDeepenBatch q bid in
  if has_abort a && (isHardAnchorBatch q bid || heavy)
  then Some (if heavy then (if forced a then 45000 else 36000) else if forced a then 28000 else 22000)
  else None.

Definition send (it : item) (url0 : string) (w : wire) (q : queue) : item * queue * sending :=
  let url := sor (w_url w) url0 in
  let it1 := match w_session w with Some s => if s <>s "" then set_i_session s it else it | None => it end in
  let same := sameOrigin url in
  let fp := same || firstParty q in
  let hard := isHardAnchorBatch q (batch_id it1) in
  let taken := match beacon with Some b => hiding q && negb (w_sealed w) && b url (w_body w) | None => false end in
  if taken then
    (it1, report "upload_beacon_besteffort"
       [("batch", VStr (stake 48 (batch_id it1))); ("queued", VBool true)] "info" q, SBeacon)
  else
    (it1, q, SFetch (mkFetch url (w_body w) same (keepalive (w_sealed w) fp hard (hiding q))
       (abort_ms q (batch_id it1)) ((sent (cnt q) =? 0) || (90 <=? priority it1) || hard || fp))).
End Send.

(** ** The response *)

(** An error as the handlers throw it. *)
Definition http_err (msg code : string) (status : Z) (network cf : bool) : uerr :=
  mkErr status code msg false false network false false false cf false.

Definition sealed_err (msg : string) (status : Z) : uerr :=
  mkErr status "sealed_required" msg false false false true true false false false.

(** [(j && j.error) || "HTTP " + status] *)
Definition err_text (j : val) (status : Z) : string :=
  to_string (jor (jand j (prop j "error")) (VStr ("HTTP " +:+ Z_to_string status))).

Definition halted_410 : uerr := mkErr 410 "cycle_complete" "upload_halted" true true false false false false false false.

Definition cf_words : list string :=
  ["challenge"; "cf-mitigated"; "just a moment"; "attention required"; "under attack"; "cloudflare"; "cf-ray"; "access denied"].

(** [global.__GR_X__ = global.__GR_X__ || Object.create(null)], as members. *)
Definition table (k : string) (q : queue) : list (string * val) := members_of (jor (gget k (win q)) empty_obj).
Definition del_prop (k : string) (o : list (string * val)) : list (string * val) :=
  List.filter (fun kv => negb (fst kv =s k)) o.
Definition put_table (k : string) (o : list (string * val)) (q : queue) : queue := set_var k (VObj o) q.

Definition count_of (o : list (string * val)) (k : string) : num := to_num (jor (assoc k o) (vint 0)).

Definition upload_http (status : Z) (bid : string) (d : list (string * val)) (q : queue) : queue :=
  if gtrue "GROps" (win q) then emit (EUploadHttp status bid d) q else q.

(** A success after network failures of the batch is reported and their count dropped. *)
Definition note_recovered (bid : string) (status : Z) (sealed : bool) (q : queue) : queue :=
  let o := table "__GR_NET_FAIL_N__" q in
  let q1 := put_table "__GR_NET_FAIL_N__" o q in
  if num_ltb (num_Z 0) (count_of o bid) && gtrue "GROps" (win q) then
    q1 |> emit (EUploadRecovered bid [("prior_network_fails", assoc bid o); ("http", vint status); ("sealed", VBool sealed)])
       |> put_table "__GR_NET_FAIL_N__" (del_prop bid o)
  else q1.

(** Sealing becomes required for the rest of the page. *)
Definition seen_required {T} `{SealApi T} (on_boot : bool) (t : tr T) : tr T :=
  let t1 := t |> tset "__GR_SEEN_SEALED_REQUIRED__" (VBool true) |> tset "__GR_REQUIRE_SEALED__" (VBool true) in
  seal_do (sa_setRequired true) (if on_boot then boot_set "require_sealed_ingest" (VBool true) t1 else t1).

Definition is_ok (status : Z) : bool := (200 <=? status) && (status <? 300).

(** [r.json()], or what stands for it when the text is not JSON. *)
Definition response_json (status : Z) (body : option val) : val :=
  match body with
  | Some j => j
  | None =>
    if is_ok status then VObj [("ok", VBool true); ("empty_body", VBool true); ("http", vint status)]
    else VObj [("ok", VBool false); ("error", VStr ("HTTP " +:+ Z_to_string status))]
  end.

Section Response.
Context {T : Type} {A : SealApi T}.
Implicit Type t : tr T.

(** The snippet the 403, 503 and 429 branch looks at. *)
Definition snippet (j : val) (status : Z) : string :=
  to_string (jor (jand j (jor (prop j "error") (jor (prop j "message") (VStr (stake 120 (default "undefined" (json_stringify j)))))))
    (VStr ("HTTP " +:+ Z_to_string status))).

Definition edge_error (it : item) (status : Z) (j : val) t : tr T * (uerr + val) :=
  let snip := snippet j status in
  let cf := test_words cf_words snip in
  (on_q (upload_http status (batch_id it)
     [("ok", VBool false); ("err", VStr (stake 100 snip)); ("body_snip", VStr (stake 100 snip));
      ("net_class", VStr (if cf then "edge_challenge" else "http_" +:+ Z_to_string status));
      ("cf_challenge", VBool cf); ("will_retry", VBool true)]) t,
   inl (http_err (stake 120 snip) (if cf then "upload_edge_challenge" else "upload_http_" +:+ Z_to_string status)
          status cf cf)).

Definition rejected (it : item) (status : Z) (j : val) t : tr T * (uerr + val) :=
  let t1 := on_q (upload_http status (batch_id it) [("ok", prop j "ok"); ("err", prop j "error")]) t in
  if (status =? 426) || test_words ["sealed_ingest_required"] (to_string_or_empty (prop j "error"))
  then (seen_required true t1, inl (sealed_err (err_text j status) status))
  else (t1, inl (http_err (err_text j status) "" status false false)).

(** The response once its text is read: [inr] what the promise resolves with,
    [inl] what the handler throws. *)
Definition respond (e : env) (it : item) (sealed : bool) (status : Z) (j : val) t : tr T * (uerr + val) :=
  match parseTerminal (batches_ok (outc (tq t))) status (jor j empty_obj) with
  | Terminal code _ _ soft =>
    let c := to_string_or_empty code in
    let t1 := on_q (applyHalt e (sor c "session_expired") (sessionOf (tq t) it) c) t in
    if soft || (status =? 200) then
      (on_q (report "upload_soft_cycle_closed" [("code", code); ("batch", VStr (stake 48 (batch_id it)))] "info") t1,
       inr (jor j (VObj [("ok", VBool true); ("accepted", VBool false); ("halt_uploads", VBool true)])))
    else (t1, inl (mkErr status c (err_text j status) true (status =? 410) false false false false false false))
  | NotTerminal =>
    if is_ok status then
      let t1 := if is_false (prop j "ok") && truthy (prop j "error")
                then on_q (upload_http status (batch_id it)
                       [("ok", VBool false); ("err", prop j "error"); ("explicit_biz", VBool true)]) t else t in
      (on_q (note_recovered (batch_id it) status sealed) t1, inr (jor j (VObj [("ok", VBool true)])))
    else if (status =? 403) || (status =? 503) || (status =? 429) then edge_error it status j t
    else if is_false (prop j "ok") then rejected it status j t
    else if status =? 426 then (seen_required false t, inl (sealed_err "sealed_ingest_required" 426))
    else (t, inr j)
  end.

(** ** A failure *)

(** What reached the catch: the error's [name] besides what [uerr] holds, and
    whether the abort timer fired. *)
Record raised := mkRaised { x_name : string; x_timer : bool; x_err : uerr }.

Definition message_of (x : raised) : string := sor (e_message (x_err x)) (x_name x).

Definition halting (x : raised) (q : queue) : bool :=
  (x_name x =s "AbortError") || test_words ["abort"] (message_of x) ||
  (is_some (haltState q) && (e_status (x_err x) =? 0)) || isPageUnloading q || gtrue "__GR_HALT_UPLOADS__" (win q).

Definition halted_err (x : raised) (q : queue) : uerr :=
  let un := isPageUnloading q in
  match haltState q with
  | Some h => mkErr 410 (sor (h_code h) (if un then "pagehide" else "halt")) "upload_halted" true true
                false false false false false false
  | None =>
    if un then mkErr 0 "pagehide" "upload_halted" true true false false false false false false else
    if test_words ["abort"] (message_of x) || x_timer x
    then mkErr 0 "upload_timeout_abort" "upload_halted" false true false false false true false false
    else mkErr 0 "halt" "upload_halted" false true false false false false false false
  end.

Definition net_class (x : raised) (q : queue) : string :=
  let m := lower (message_of x) in
  if e_timeout_abort (x_err x) || contains "abort" m then "abort" else
  if test_words cf_words m then "edge_challenge" else
  if isPageBackgrounded q then "backgrounded" else "fetch_fail".

Definition class_hint (c : string) : string :=
  if c =s "edge_challenge" then "edge_challenge" else if c =s "offline" then "client_offline" else
  if (c =s "abort") || (c =s "backgrounded") then "client_abort" else "network_env".


(** A network failure is reported at most once per batch in 12 seconds. *)
Definition net_due (e : env) (bid : string) (q : queue) : bool :=
  num_ltb (num_Z 12000)
    (match count_of (table "__GR_NET_REPORT__" q) ("net:" +:+ bid) with
     | Fin l => Fin (inject_Z (now e) - l) | Inf b => Inf (negb b) | NaN => NaN end).

Definition report_network (e : env) (it : item) (x : raised) (att : Z) (q : queue) : queue :=
  let bid := batch_id it in
  let cap := maxAttemptsForItem q it in
  let hide := isPageUnloading q in
  let retry := (att <? cap) && negb hide in
  if negb hide && net_due e bid q && gtrue "GROps" (win q) then
    let online := match e_online e with VUndef | VNull => VNull | v => VBool (truthy v) end in
    let c0 := net_class x q in
    let cls := if is_false online then "offline" else if c0 =s "fetch_fail" then "client_fetch_fail" else c0 in
    q |> put_table "__GR_NET_REPORT__" (set_prop ("net:" +:+ bid) (vint (now e)) (table "__GR_NET_REPORT__" q))
      |> (fun q => put_table "__GR_NET_CLASS_LAST__" (set_prop bid
            (VObj [("net_class", VStr cls); ("transport", VStr "no_http_response"); ("ts", vint (now e))])
            (table "__GR_NET_CLASS_LAST__" q)) q)
      |> emit (EUploadHttp 0 bid
           [("network", VBool true); ("err", VStr (stake 80 (message_of x))); ("net_class", VStr cls);
            ("transport", VStr "no_http_response"); ("fail_class_hint", VStr (class_hint cls));
            ("impact_band_hint", VStr (if isHeavyBatch q bid then "deepen_optional" else "ops_attention"));
            ("online", online); ("backgrounded", VBool (isPageBackgrounded q)); ("unloading", VBool hide);
            ("pagehide", VBool hide); ("short_visit", VBool hide);
            ("commercial_hard", VBool (isCommercialHardForOps q bid));
            ("commercial_land_fast", VBool (isCommercialLandFast bid)); ("attempt", vint att);
            ("max_attempts", vint cap); ("will_retry", VBool retry); ("final", VBool (negb retry));
            ("heavy", VBool (isHeavyBatch q bid))])
  else q.

(** The catch after the fetch: the error as the continuations receive it. *)
Definition catch_err (e : env) (it : item) (x : raised) (q : queue) : queue * uerr :=
  let u := x_err x in
  if halting x q then (q, halted_err x q) else
  if negb (e_status u =? 0) then (q, u) else
  if e_silent u || e_timeout_abort u || (net_class x q =s "abort") then
    (q, mkErr 0 (sor (e_code u) "upload_timeout_abort") (e_message u) (e_terminal u) (e_silent u) false
          (e_seal_required u) (e_seal_failed u) (e_timeout_abort u) (e_cf_challenge u) (e_seal_wasm_dead u))
  else
    let bid := batch_id it in
    let o := table "__GR_NET_FAIL_N__" q in
    let n := match count_of o bid with Fin x => Qfloor x | _ => 0 end + 1 in
    let q1 := put_table "__GR_NET_FAIL_N__" (set_prop bid (vint n) o)
                (put_table "__GR_NET_REPORT__" (table "__GR_NET_REPORT__" q) q) in
    (report_network e it x n q1,
     mkErr 0 "upload_network" (e_message u) (e_terminal u) (e_silent u) true
       (e_seal_required u) (e_seal_failed u) (e_timeout_abort u) (e_cf_challenge u) (e_seal_wasm_dead u)).

(** ** One fetch, to its continuation *)

(** How a fetch ends: no response, or a status and the body when it is JSON. *)
Inductive fetched := FFail (x : raised) | FResponse (status : Z) (body : option val).

Definition settle (e : env) (it : item) (sealed : bool) (f : fetched) t : tr T * (uerr + val) :=
  let t0 := on_q (drop_ctrl it) t in
  let caught (tx : tr T) (u : raised) := let '(q, x) := catch_err e it u (tq tx) in (mkTr q (tm tx), inl x) in
  match f with
  | FFail x => caught t0 x
  | FResponse status body =>
    if uploadsBlocked (tq t0) it && (status =? 410) then
      caught (on_q (applyHalt e "session_expired" (sessionOf (tq t0) it) "cycle_complete") t0)
        (mkRaised "Error" false halted_410)
    else
      match respond e it sealed status (response_json status body) t0 with
      | (t1, inl x) => caught t1 (mkRaised "Error" false x)
      | (t1, inr v) => (t1, inr v)
      end
  end.

(** The continuation [startUpload] attached runs. *)
Definition deliver (e : env) (it : item) (heavy : bool) (k : string) (r : uerr + val) t : tr T :=
  match r with
  | inr resp => on_q (on_success e it heavy k resp) t
  | inl x => on_q (on_fail e it heavy k x) t
  end.
End Response.

(** ** [whenIdle] *)

(** One turn of [tick], every 16 ms: whether it resolves. *)
Definition idle_tick (start now timeoutMs : Z) (q : queue) : queue * bool :=
  if (Nat.eqb (length (pending q)) 0 && (inflight q =? 0)) || (timeoutMs <=? now - start)
  then (reportSessionUploadSummary false q, true) else (q, false).
