(* ===== verification/TransportSpec.v ===== *)
(** * What the transport guarantees

    Plain and sealed uploads, the classification of responses and failures,
    and their composition with the continuations of [QueueOutcome] and with
    the seal module. *)

From Stdlib Require Import QArith Qround.
From S2P Require Import Prelude JsVal Window Json Lifecycle Registry Terminal QueueState Freeze QueuePump QueueOutcome.
From S2P Require Import SealSuite SealUrl SealGrant SealWasm SealEnvelope SealSpec SealGate Transport.
#[local] Open Scope Z_scope.

(** The seal module meets what the queue relies on. *)
#[export] Instance seal_laws (H : Host) (S0 : Suite) : SealLaws seal.
Proof.
  split.
  - intros t w base body wr b t' w' [run Hr] Hreq.
    cbn [sa_required seal_api] in Hreq. unfold split_b in Hreq. injection Hreq as _ _ Hreq.
    exact (proj1 (prepare_sealed H S0 run base body _ wr b Hr (required_again _ Hreq))).
  - intros t w t' w' Hr. cbn [sa_setRequired seal_api] in Hr. unfold split in Hr. injection Hr as <- <-.
    unfold setRequireSealed. set (s1 := sput "__GR_REQUIRE_SEALED__" _ _). set (s2 := sput "__GR_BOOT__" _ s1).
    assert (policy_requires (jor (gget "__GR_BOOT__" (swin (boot_put "require_sealed_ingest" (VBool true) s2))) empty_obj) = true) as Hb.
    { unfold boot_put, sput. cbn [swin set_swin]. rewrite gget_gset_eq. unfold jor at 1. cbn [truthy].
      unfold policy_requires. cbn [prop]. by rewrite assoc_set_prop. }
    split; [|split; [|split; [exact Hb|split]]].
    + cbn [sa_required seal_api split_b snd]. unfold isRequireSealed. cbn [snd]. unfold required.
      rewrite adopt_required. match goal with |- context [policy_requires ?x] => assert (policy_requires x = true) as -> by exact Hb end.
      by rewrite !orb_true_r.
    + unfold gtrue, boot_put, s2, s1, sput. cbn [swin set_swin]. rewrite !gget_gset_ne by done. by rewrite gget_gset_eq.
    + unfold boot_put, s2, s1, sput. cbn [swin set_swin]. by rewrite !gget_gset_ne by done.
    + unfold boot_put, s2, s1, sput. cbn [swin set_swin]. by rewrite !gget_gset_ne by done.
Qed.

Section Spec.
Context {T : Type} {A : SealApi T} {L : SealLaws T}.

(** The seal module, if it is loaded, says that sealing is required. *)
Definition module_requires (t : tr T) : bool :=
  match tm t with Some m => snd (sa_required m (win (tq t))) | None => false end.

Lemma prep_call_plain now url it body t w :
  snd (prep_call now url it body t) = PPlain w -> tm t = None /\ snd (sealNeedNow t) = false.
Proof.
  unfold prep_call. destruct (tm t).
  - by destruct (rewrite_session _ _ _ _) as [[? ?] ?].
  - destruct (sealNeedNow t) as [t1 []]; done.
Qed.

Lemma prep_failed_plain base it msg b late w :
  snd (prep_failed base it msg b late) = inr w -> snd (sealNeedNow late) = false.
Proof. unfold prep_failed. by destruct (sealNeedNow late) as [t1 []]. Qed.
End Spec.

(** C9: When an upload goes out as plain text.  For any seal module that keeps its contract,
    an unsealed wire means one of three things: the module is not loaded and the queue sees
    no need to seal; or the loaded module does not require sealing when it is called; or its
    [prepareUpload] rejects, the wire is the plain body it leaves, and the queue
    sees no need to seal on the page as it then is.  In that last case, unless plain ingest
    is forced, neither flag by which the page records a demand to seal is set. *)
Theorem plain_only_when_not_required T (A : SealApi T) (L : SealLaws T) now base url it body t late w :
  prepares now base url it body t late (inr w) -> w_sealed w = false ->
  let called := fst (fst (prep_call now url it body t)) in
  match tm t with
  | None => snd (sealNeedNow t) = false
  | Some _ =>
    module_requires called = false \/
    (exists m b msg b', tm called = Some m /\ sa_prepares m (win (tq called)) base b (inl msg, b') /\
       w = plain (base +:+ "/v1/ingest") b') /\
    snd (sealNeedNow late) = false /\
    (ttrue "__GR_FORCE_PLAIN_INGEST__" late = false ->
     ttrue "__GR_SEEN_SEALED_REQUIRED__" late = false /\ ttrue "__GR_REQUIRE_SEALED__" late = false)
  end.
Proof.
  intros Hp Hs. cbv zeta.
  assert (forall b, snd (prep_call now url it body t) = PCall b -> exists m, tm t = Some m) as Hl.
  { unfold prep_call. intros b. destruct (tm t) as [m|]; [by exists m|]. by destruct (sealNeedNow t) as [t1 []]. }
  inversion Hp as [|w0 Hc|b m wr b' Hc Hm Hpr|b m msg b' Hc Hm Hpr Hf]; subst.
  - apply prep_call_plain in Hc as [-> Hn]. done.
  - destruct (Hl _ Hc) as [m0 ->]. left. unfold module_requires. rewrite Hm.
    destruct (sa_required m _) as [[m' w'] []] eqn:Er; [|done].
    pose proof (sa_never_plain _ _ _ _ _ _ _ _ Hpr Er). congruence.
  - destruct (Hl _ Hc) as [m0 ->]. right.
    pose proof (prep_failed_plain _ _ _ _ _ _ Hf) as Hn. split; [|split; [done|]].
    + exists m, b, msg, b'. split; [done|]. split; [done|]. revert Hf Hn. unfold prep_failed.
      destruct (sealNeedNow late) as [t1 []]; [done|]. cbn [snd]. by intros [= <-].
    + intros Hforce. revert Hn. unfold sealNeedNow. rewrite Hforce.
      destruct (ttrue "__GR_SEEN_SEALED_REQUIRED__" late), (ttrue "__GR_REQUIRE_SEALED__" late); done.
Qed.

(** ** Responses *)

(** The catch always yields an error. *)
Ltac see_catch :=
  match goal with |- context [catch_err ?a ?b ?c ?d] => destruct (catch_err a b c d) end; simpl; eauto.

(** A failing status whose JSON text does not say [ok: false] and that no other rule
    catches: the promise resolves. *)
Definition slips (status : Z) (j : val) : Prop :=
  is_ok status = false /\ status <> 403 /\ status <> 503 /\ status <> 429 /\ status <> 426 /\ status <> 410 /\
  is_false (prop j "ok") = false.

(** C10: How responses are classified.  A response that does not end the cycle resolves the
    upload when its status is 2xx, whatever its text says, and rejects it on 403, 503,
    429, 426 and on [ok: false]; but every other failing status whose JSON text lacks
    [ok: false], a 500 with an error message for instance, resolves too, and the queue
    then counts the batch as sent. *)
Theorem responses_classified T (A : SealApi T) e it sealed status body (t : tr T) :
  uploadsBlocked (tq t) it = false ->
  let j := response_json status body in
  parseTerminal (batches_ok (outc (tq t))) status (jor j empty_obj) = NotTerminal ->
  let r := snd (settle e it sealed (FResponse status body) t) in
  (is_ok status = true -> r = inr (jor j (VObj [("ok", VBool true)]))) /\
  (slips status j -> r = inr j) /\
  (is_ok status = false -> (status = 403 \/ status = 503 \/ status = 429 \/ status = 426 \/ is_false (prop j "ok") = true) ->
     exists x, r = inl x).
Proof.
  cbv zeta. intros Hb Hn. set (j := response_json status body) in *. unfold settle.
  assert (uploadsBlocked (tq (on_q (drop_ctrl it) t)) it = false) as -> by done. cbn [andb].
  fold j. set (t0 := on_q (drop_ctrl it) t).
  assert (batches_ok (outc (tq t0)) = batches_ok (outc (tq t))) as Hbk by done. unfold respond. rewrite Hbk, Hn.
  split; [|split].
  - intros ->. done.
  - intros (-> & H1 & H2 & H3 & H4 & _ & ->).
    rewrite (proj2 (Z.eqb_neq _ _) H1), (proj2 (Z.eqb_neq _ _) H2), (proj2 (Z.eqb_neq _ _) H3), (proj2 (Z.eqb_neq _ _) H4). done.
  - intros -> Hs. destruct ((status =? 403) || (status =? 503) || (status =? 429)) eqn:E1.
    + unfold edge_error. see_catch.
    + destruct (is_false (prop j "ok")) eqn:E2.
      * unfold rejected. cbv zeta. destruct ((status =? 426) || test_words _ _); see_catch.
      * destruct (Z.eqb_spec status 426) as [->|].
        -- see_catch.
        -- exfalso. breflect. destruct Hs as [?|[?|[?|[?|?]]]]; done.
Qed.

(** The page and the module, if there is one, after a demand to seal. *)
Definition demanded {T} `{SealApi T} (on_boot : bool) (t t1 : tr T) : Prop :=
  ttrue "__GR_SEEN_SEALED_REQUIRED__" t1 = true /\ ttrue "__GR_REQUIRE_SEALED__" t1 = true /\
  (on_boot = true -> policy_requires (tboot t1) = true) /\
  (ttrue "__GR_FORCE_PLAIN_INGEST__" t = false -> snd (sealNeedNow t1) = true) /\
  match tm t1 with Some _ => module_requires t1 = true | None => tm t = None end.

Lemma seen_required_demands T (A : SealApi T) (L : SealLaws T) on_boot (t : tr T) :
  demanded on_boot t (seen_required on_boot t).
Proof.
  assert (forall t1 : tr T, ttrue "__GR_SEEN_SEALED_REQUIRED__" t1 = true ->
    tget "__GR_FORCE_PLAIN_INGEST__" t1 = tget "__GR_FORCE_PLAIN_INGEST__" t ->
    ttrue "__GR_FORCE_PLAIN_INGEST__" t = false -> snd (sealNeedNow t1) = true) as Hneed.
  { intros t1 Hs Hf Hn. unfold sealNeedNow. assert (ttrue "__GR_FORCE_PLAIN_INGEST__" t1 = false) as ->.
    { unfold ttrue, gtrue in *. unfold tget in Hf. by rewrite Hf. }
    by rewrite Hs. }
  unfold seen_required. set (t1 := tset _ _ (tset _ _ t)).
  set (t2 := if on_boot then boot_set "require_sealed_ingest" (VBool true) t1 else t1).
  assert (gtrue "__GR_SEEN_SEALED_REQUIRED__" (win (tq t2)) = true /\ gtrue "__GR_REQUIRE_SEALED__" (win (tq t2)) = true /\
    tget "__GR_FORCE_PLAIN_INGEST__" t2 = tget "__GR_FORCE_PLAIN_INGEST__" t /\
    (on_boot = true -> policy_requires (tboot t2) = true) /\ tm t2 = tm t) as (H1 & H2 & H3 & H4 & H5).
  { assert (forall k v (t0 : tr T), win (tq (tset k v t0)) = gset k v (win (tq t0))) as Hw by done.
    subst t2 t1. unfold boot_set. destruct on_boot; unfold gtrue, tboot, tget; rewrite !Hw;
      repeat first [rewrite gget_gset_eq|rewrite gget_gset_ne by done];
      (split; [done|]); (split; [done|]); (split; [done|]); (split; [|done]); [|done].
    intros _. unfold jor at 1. cbn [truthy]. unfold policy_requires. cbn [prop]. by rewrite assoc_set_prop. }
  clearbody t2. unfold demanded, seal_do. destruct (tm t2) as [m|] eqn:Em.
  - destruct (sa_setRequired true m (win (tq t2))) as [m' w'] eqn:Er.
    destruct (sa_demanded _ _ _ _ Er) as (L1 & L2 & L3 & L4 & L5).
    assert (win (tq (put_m m' w' t2)) = w') as Hw by done.
    assert (ttrue "__GR_SEEN_SEALED_REQUIRED__" (put_m m' w' t2) = true) as Hs by (unfold ttrue, gtrue in *; by rewrite Hw, L4).
    split; [done|]. split; [unfold ttrue; by rewrite Hw|]. split; [unfold tboot, tget; by rewrite Hw|]. split.
    + apply Hneed; [done|]. rewrite <- H3. unfold tget. by rewrite Hw, L5.
    + unfold module_requires. cbn [tm put_m]. by rewrite Hw.
  - rewrite Em. repeat split; auto.
Qed.

(** C39: A demand to seal is recorded.  A 426, or a rejection that says
    [sealed_ingest_required], makes the upload fail as a seal race and sets both flags by
    which the page remembers that sealing is required, and with [ok: false] the boot
    object's as well; the queue then sees the need to seal, unless plain ingest is forced,
    and the seal module, when it is loaded, requires sealing from then on. *)
Theorem demand_sticks T (A : SealApi T) (L : SealLaws T) e it sealed status body (t : tr T) :
  uploadsBlocked (tq t) it = false ->
  let j := response_json status body in
  parseTerminal (batches_ok (outc (tq t))) status (jor j empty_obj) = NotTerminal -> is_ok status = false ->
  status <> 403 -> status <> 503 -> status <> 429 ->
  status = 426 \/ (is_false (prop j "ok") = true /\
                   test_words ["sealed_ingest_required"] (to_string_or_empty (prop j "error")) = true) ->
  exists t1 x, respond e it sealed status j (on_q (drop_ctrl it) t) = (t1, inl x) /\
    e_status x = status /\ e_code x = "sealed_required" /\ e_terminal x = false /\ is_seal_race x = true /\
    ttrue "__GR_SEEN_SEALED_REQUIRED__" t1 = true /\ ttrue "__GR_REQUIRE_SEALED__" t1 = true /\
    (is_false (prop j "ok") = true -> policy_requires (tboot t1) = true) /\
    (ttrue "__GR_FORCE_PLAIN_INGEST__" t = false -> snd (sealNeedNow t1) = true) /\
    match tm t1 with Some _ => module_requires t1 = true | None => tm t = None end.
Proof.
  cbv zeta. intros Hb Hn Hok H1 H2 H3 Hd. unfold respond.
  change (batches_ok (outc (tq (on_q (drop_ctrl it) t)))) with (batches_ok (outc (tq t))). rewrite Hn, Hok.
  rewrite (proj2 (Z.eqb_neq _ _) H1), (proj2 (Z.eqb_neq _ _) H2), (proj2 (Z.eqb_neq _ _) H3). cbn [orb].
  destruct (is_false (prop (response_json status body) "ok")) eqn:E.
  - unfold rejected. cbv zeta.
    assert (((status =? 426) || test_words ["sealed_ingest_required"]
      (to_string_or_empty (prop (response_json status body) "error"))) = true) as ->.
    { destruct Hd as [->|[_ ->]]; [done|apply orb_true_r]. }
    set (t0 := on_q _ _). assert (ttrue "__GR_FORCE_PLAIN_INGEST__" t0 = ttrue "__GR_FORCE_PLAIN_INGEST__" t /\ tm t0 = tm t) as [Hf Hm].
    { subst t0. unfold upload_http, ttrue, on_q. cbn [tq tm]. by destruct (gtrue "GROps" _). }
    destruct (seen_required_demands T A L true t0) as (D1 & D2 & D3 & D4 & D5). rewrite Hf in D4. rewrite Hm in D5.
    eexists _, _. split; [reflexivity|]. repeat split; auto.
  - destruct Hd as [->|[Hx _]]; [|congruence]. cbn [Z.eqb Pos.eqb].
    destruct (seen_required_demands T A L false (on_q (drop_ctrl it) t)) as (D1 & D2 & D3 & D4 & D5).
    eexists _, _. split; [reflexivity|]. repeat split; auto; try done.
Qed.

(** ** Failures *)

(** What a failure handler keeps until it decides. *)
Definition undecided (q q' : queue) : Prop :=
  haltState q' = haltState q /\ win q' = win q /\ attempts q' = attempts q.


Instance undecided_preorder : PreOrder undecided.
Proof. split; [by intros q|]. intros a b c (H1 & H2 & H3) (H4 & H5 & H6). repeat split; congruence. Qed.


















(** ** Sending *)

(** How an upload leaves.  A beacon carries only an unsealed upload of a page that is
    hiding, and only if the browser took it; a sealed upload of a hiding page is a fetch
    kept alive; on Gecko and Edge a visible page never keeps a fetch alive; an abort timer
    runs only for hard, heavy or deepen batches, between 22 and 45 seconds; the text and
    the URL are the wire's, and the item takes the session it was sealed for. *)
Theorem send_spec (P : Page) beacon a it url0 w q :
  let r := send beacon a it url0 w q in
  (snd r = SBeacon -> hiding q = true /\ w_sealed w = false /\
     exists b, beacon = Some b /\ b (sor (w_url w) url0) (w_body w) = true) /\
  (forall f, snd r = SFetch f ->
     f_url f = sor (w_url w) url0 /\ f_body f = w_body w /\
     (w_sealed w = true -> hiding q = true -> f_keepalive f = true) /\
     (forced a = true -> hiding q = false -> f_keepalive f = false) /\
     (forall ms, f_abort_ms f = Some ms -> 22000 <= ms <= 45000 /\
        (isHardAnchorBatch q (batch_id it) || isHeavyBatch q (batch_id it) || isDeepenBatch q (batch_id it) = true))) /\
  (forall s, w_session w = Some s -> s <> "" -> i_session (fst (fst r)) = s) /\ batch_id (fst (fst r)) = batch_id it.
Proof.
  cbv zeta. unfold send. set (it1 := match w_session w with Some _ => _ | None => it end).
  assert (batch_id it1 = batch_id it) as Hb.
  { subst it1. destruct (w_session w) as [s|]; [|done]. by destruct (negb _). }
  assert (forall s, w_session w = Some s -> s <> "" -> i_session it1 = s) as Hs.
  { intros s Hw Hne. subst it1. rewrite Hw. by rewrite (proj2 (String.eqb_neq _ _) Hne). }
  set (taken := match beacon with Some _ => _ | None => false end).
  assert (taken = true -> hiding q = true /\ w_sealed w = false /\
     exists b, beacon = Some b /\ b (sor (w_url w) url0) (w_body w) = true) as Ht.
  { subst taken. destruct beacon as [b|]; [|done]. intros H. breflect. eauto. }
  destruct taken; cbn [fst snd]; (split; [|split; [|split; [exact Hs|exact Hb]]]).
  - intros _. by apply Ht.
  - done.
  - done.
  - intros f [= <-]. cbn [f_url f_body f_keepalive f_abort_ms]. split; [done|]. split; [done|]. split; [|split].
    + intros Hw Hh. unfold keepalive. by rewrite Hw, Hh.
    + intros Hf Hh. unfold keepalive. rewrite Hh, andb_false_r. unfold forced in Hf.
      destruct (engineGecko a), (engineEdge a); simpl in *; rewrite ?andb_false_r; done.
    + intros ms. unfold abort_ms. rewrite Hb. destruct (isHardAnchorBatch q (batch_id it)),
        (isHeavyBatch q (batch_id it)), (isDeepenBatch q (batch_id it)), (has_abort a), (forced a); simpl; try done;
        intros [= <-]; (split; [lia|done]).
Qed.

(** ** Concrete transports *)

(** One upload in flight, its controller registered. *)
Definition it1 : item := mk_item 1 "B2_hardware" 50.
Definition flying : queue := pump (demo_env 1000) (demo_queue 1 [it1]).
Definition flown : item := match effects flying with EPost it _ _ :: _ => it | _ => it1 end.
Definition key1 : string := "cycle_1|B2_hardware|main".

Existing Instance toy.
Existing Instance demo_host.

Definition tr0 (q : queue) : tr seal := mkTr q None.

(** The queue after a response and its continuation. *)
Definition round_trip (status : Z) (body : val) : tr seal :=
  let '(t, r) := settle (demo_env 2000) flown false (FResponse status (Some body)) (tr0 flying) in
  deliver (demo_env 2000) flown false key1 r t.

(** A 500 whose JSON text carries an error but not [ok: false]: the batch counts as sent, is
    neither pending nor in flight, and no retry is armed. *)
Example error_500_counts_as_sent :
  let q := tq (round_trip 500 (VObj [("error", VStr "upstream")])) in
  sent (cnt q) = 1 /\ pending q = [] /\ inflight q = 0 /\ failed (cnt q) = 0 /\
  existsb (fun x => match x with ERetryTimer _ _ => true | _ => false end) (effects q) = false.
Proof. vm_compute. repeat split. Qed.

Example error_500_ok_false_retries :
  let q := tq (round_trip 500 (VObj [("ok", VBool false); ("error", VStr "upstream")])) in
  sent (cnt q) = 0 /\ existsb (fun x => match x with ERetryTimer _ _ => true | _ => false end) (effects q) = true.
Proof. vm_compute. repeat split. Qed.

(** An upload whose seal fails never reaches a fetch: its controller stays registered. *)
Example seal_failure_keeps_controller :
  inflightCtrls flying = ["B2_hardware"] /\
  inflightCtrls (tq (deliver (T := seal) (demo_env 2000) flown false key1 (inl (seal_err "seal_failed" "seal_timeout")) (tr0 flying)))
    = ["B2_hardware"] /\
  inflightCtrls (tq (round_trip 200 (VObj [("ok", VBool true)]))) = [].
Proof. vm_compute. repeat split. Qed.

(** Sealing stamps the payload of the item itself, so the next attempt finds its frozen
    capture changed, restores it and reports a mutation. *)
Example sealed_retry_reports_mutation :
  let s := granted_seal in
  let body := ingest_body 2000 (mkReq VUndef VUndef (VStr "app") VUndef) flown flying in
  let b := snd (sealIngestBodyV2 2000 (mkStages s s s s (list_ascii_of_string "123456789012") VUndef) (WReady pureJsBindApi) body s) in
  let it' := set_payload (prop b "payload") flown in
  let q := set_win (gset "GROps" (VBool true) (win flying)) flying in
  let r := check_capture (prop (payload flown) "fields") it' q in
  payload (fst r) = payload flown /\
  match oplog (win (snd r)) with o :: _ => oe_code o = "capture_mutation_restored" | [] => False end.
Proof. vm_compute. repeat split. Qed.

(** Plain ingest is forced on a page that requires sealing: the seal module still refuses to
    prepare a plain upload, and the queue then sends one. *)
Example force_plain_falls_back :
  let w := gset "__GR_FORCE_PLAIN_INGEST__" (VBool true) (win flying) in
  let t := mkTr (set_win w flying) (Some required_seal) in
  module_requires t = true /\ snd (sealNeedNow t) = false /\
  match snd (prep_failed "/g5" flown "seal_grant_unavailable" (VObj []) t) with
  | inr wr => w_sealed wr = false | inl _ => False end.
Proof. vm_compute. repeat split. Qed.

(** A page of another origin than the API. *)
#[local] Instance shop : Page := {
  p_origin := Some "https://shop.example"; p_protocol := "https:"; p_host := "shop.example";
  p_same u := Some (starts_with "https://shop.example/" u || (starts_with "/" u && negb (starts_with "//" u)))
}.
Definition firefox : agent := mkAgent "Mozilla/5.0 Gecko/20100101 Firefox/140.0" true true.

Definition set_base (base : string) (q : queue) : queue := conf_upd (fun c => ltac:(upd eta_conf c_apiBase c base)) q.

(** The first-party URL forced on Gecko is the configured base itself when that is absolute;
    when it comes from the boot object, the URL is forced, but sealing starts from the
    original base and its URL wins. *)
Example forced_url_lost :
  let api := "https://gv.example" in
  let q1 := set_base api flying in
  let q2 := set_win (gset "__GR_BOOT__" (VObj [("apiBase", VStr api)]) (win flying)) (set_base "" flying) in
  engine_url firefox q1 = "https://gv.example/v1/ingest" /\
  engine_url firefox q2 = "/g5/v1/ingest" /\
  w_url (get_wire (fst (prepareUpload demo_run (post_base q2) demo_upload required_seal)))
    = "https://gv.example/v1/ingest/sealed".
Proof. vm_compute. repeat split. Qed.

(** A page that requires sealing but has no grant, and the same page once plain ingest is
    forced. *)
Definition no_grant : seal := setRequireSealed true (seal0 win0).
Definition waiting : tr seal := mkTr flying (Some no_grant).
Definition forced_plain : tr seal :=
  mkTr (set_win (gset "__GR_FORCE_PLAIN_INGEST__" (VBool true) (win flying)) flying) (Some no_grant).
Definition call_state : tr seal := fst (fst (prep_call 1000 "/g5/v1/ingest" it1 demo_upload waiting)).
Definition rejected_run : prep_run :=
  mkRun 20000 no_grant WPending 20000 no_grant WPending (mkStages no_grant no_grant no_grant no_grant [] VUndef) false no_grant.

Lemma plain_only_when_not_required_witness :
  module_requires call_state = true /\ snd (sealNeedNow forced_plain) = false /\
  (exists m b msg b', tm call_state = Some m /\ sa_prepares m (win (tq call_state)) "/g5" b (inl msg, b') /\
     plain "/g5/v1/ingest" demo_upload = plain "/g5/v1/ingest" b').
Proof.
  split; [vm_compute; reflexivity|].
  destruct (plain_only_when_not_required seal _ _ 1000 "/g5" "/g5/v1/ingest" it1 demo_upload waiting forced_plain
    (plain "/g5/v1/ingest" demo_upload)) as [Hm|[He [Hn _]]].
  - apply (prep_rejects 1000 "/g5" "/g5/v1/ingest" it1 demo_upload waiting forced_plain demo_upload
      (default no_grant (tm call_state))
      "seal_grant_unavailable" demo_upload).
    + vm_compute. reflexivity.
    + vm_compute. reflexivity.
    + exists rejected_run. vm_compute. reflexivity.
  - reflexivity.
  - vm_compute in Hm. discriminate Hm.
  - split; [exact Hn|exact He].
Defined.

Lemma responses_classified_witness :
  snd (settle (demo_env 2000) flown false (FResponse 500 (Some (VObj [("error", VStr "upstream")]))) (tr0 flying)) =
    inr (VObj [("error", VStr "upstream")]).
Proof.
  refine (proj1 (proj2 (responses_classified seal _ (demo_env 2000) flown false 500 (Some (VObj [("error", VStr "upstream")]))
    (tr0 flying) _ _)) _).
  - vm_compute. reflexivity.
  - vm_compute. reflexivity.
  - repeat split; discriminate.
Defined.

Lemma demand_sticks_witness :
  exists t1 x, respond (demo_env 2000) flown false 426 (response_json 426 None)
      (on_q (drop_ctrl flown) (mkTr flying (Some granted_seal))) = (t1, inl x) /\
    e_status x = 426 /\ e_code x = "sealed_required" /\ ttrue "__GR_SEEN_SEALED_REQUIRED__" t1 = true /\
    snd (sealNeedNow t1) = true /\ module_requires t1 = true.
Proof.
  destruct (demand_sticks seal _ _ (demo_env 2000) flown false 426 None (mkTr flying (Some granted_seal))) as
    (t1 & x & Hr & H1 & H2 & _ & _ & H3 & _ & _ & H4 & H5).
  - vm_compute. reflexivity.
  - vm_compute. reflexivity.
  - reflexivity.
  - discriminate.
  - discriminate.
  - discriminate.
  - by left.
  - exists t1, x. split; [exact Hr|]. split; [exact H1|]. split; [exact H2|]. split; [exact H3|].
    split; [apply H4; vm_compute; reflexivity|].
    destruct (tm t1) as [m|] eqn:Em; [exact H5|discriminate H5].
Defined.
