(* ===== verification/SandboxTree.v ===== *)
(** * The sandbox tree ([probe/fe/sandbox_tree.js])

    [runTree] opens nest surfaces (workers and iframes) one after the other,
    each under the locks of the resource bus, and sums up which of them
    answered.  A surface stays alive when it has settled: its listener goes on
    hearing messages.  The text of the worker's program and the frames are the
    environment; what they post are messages.  Sources of messages and kinds
    of a plan are strings, [plan.kinds] is an array, and a payload is an object
    or falsy. *)

From Stdlib Require Import QArith Qabs.
From S2P Require Import Prelude JsVal Window Uri Freeze PackClass PackBus PackUrl.
#[local] Open Scope Z_scope.

(** ** Data *)

(** What [runTree] is given: [caps] and [ctx]. *)
Record caps := mkCaps { cp_max : val; cp_short : val; cp_plan : val }.
Record ctx := mkCtx {
  x_session : val; x_inject : val; x_page_url : val; x_page_id : val; x_fields_page_id : val;
  x_nestUrl : val; x_plan : val; x_queue : bool
}.

(** A message of a worker or a frame; an absent type is [None], an absent source empty. *)
Record msg := mkMsg {
  m_from : string; m_type : option string; m_ok : val; m_source : string;
  m_silicon : bool; m_force : bool; m_payload : val
}.

(** The argument of [queue.enqueue]. *)
Record row := mkRow {
  w_session : val; w_batch : string; w_source : string; w_inject : val; w_priority : Z;
  w_force : option bool; w_payload : val
}.

(** What the promise of a surface resolves with. *)
Record outcome := mkOut {
  o_kind : string; o_received : list string; o_partial : bool; o_blocked : bool; o_ms : Z; o_rpa : bool; o_last : val
}.

Inductive control := CWorker | CFrame | CNone.

Record surf := mkSurf {
  su_kind : string; su_ctl : control; su_ctx : ctx; su_t0 : Z;
  received : list string; rpaFlushes : Z; su_out : option outcome
}.

(** A call of [runTree]: waiting for the lock of its current kind (the requests made so
    far, outermost first), polling [__GR_HW_LOCK__], awaiting a surface under its locks,
    or over. *)
Inductive rphase := RLock (l : list nat) | RPoll (n : nat) | RAwait (i : nat) (l : list nat) | RDone (v : val) | RFailed (e : string).

Record run := mkRun {
  rn_ctx : ctx; rn_kinds : list string; rn_conc : Z; rn_timeout : Z; rn_next : nat;
  results : list outcome; rn_phase : rphase
}.

Record tree := mkTree {
  twin : Win; rows : list row; liveNests : list (string * bool); surfs : list surf; runs : list run; tbus : bus
}.

Definition eta_tree (t : tree) : tree := mkTree (twin t) (rows t) (liveNests t) (surfs t) (runs t) (tbus t).
Definition set_twin v (t : tree) : tree := ltac:(upd eta_tree twin t v).
Definition set_rows v (t : tree) : tree := ltac:(upd eta_tree rows t v).
Definition set_live v (t : tree) : tree := ltac:(upd eta_tree liveNests t v).
Definition set_surfs v (t : tree) : tree := ltac:(upd eta_tree surfs t v).
Definition set_runs v (t : tree) : tree := ltac:(upd eta_tree runs t v).
Definition set_tbus v (t : tree) : tree := ltac:(upd eta_tree tbus t v).

Definition tree0 (w : Win) : tree := mkTree w [] [] [] [] getBus0.

Definition set_out v (s : surf) : surf :=
  mkSurf (su_kind s) (su_ctl s) (su_ctx s) (su_t0 s) (received s) (rpaFlushes s) v.
Definition hear (src : string) (s : surf) : surf :=
  mkSurf (su_kind s) (su_ctl s) (su_ctx s) (su_t0 s)
    (if mem_str src (received s) then received s else received s ++ [src]) (rpaFlushes s) (su_out s).
Definition count_flush (s : surf) : surf :=
  mkSurf (su_kind s) (su_ctl s) (su_ctx s) (su_t0 s) (received s) (rpaFlushes s + 1) (su_out s).

Definition set_phase (p : rphase) (r : run) : run :=
  mkRun (rn_ctx r) (rn_kinds r) (rn_conc r) (rn_timeout r) (rn_next r) (results r) p.

Definition put_surf (i : nat) (s : surf) (t : tree) : tree := set_surfs (<[i := s]> (surfs t)) t.
Definition put_run (r : nat) (x : run) (t : tree) : tree := set_runs (<[r := x]> (runs t)) t.

(** The page: the clock, the address, whether there are workers and whether making one
    throws, and [new URL(s).pathname]. *)
Inductive worker_kind := WNone | WThrows (e : string) | WOk.
Record tenv := mkTEnv { t_now : Z; t_href : string; t_worker : worker_kind; t_path : string -> option string }.

Section Tree.
Variable e : tenv.

(** ** Rows *)

Definition pageUrlOf (x : ctx) : val := jor (x_page_url x) (VStr (t_href e)).
Definition pageIdOf (x : ctx) : val := jor (jor (x_page_id x) (x_fields_page_id x)) VNull.

Definition put (k : string) (v o : val) : val := VObj (set_prop k v (members_of o)).

Definition noteNestCompare (f : val) (w : Win) : Win :=
  if negb (is_object f) then w else
  let acc := jor (gget "__GR_NEST_COMPARE__" w) empty_obj in
  let a1 := if nonnull (prop f "nest_residual_mean") then put "nest_residual_mean" (prop f "nest_residual_mean") acc else acc in
  let a2 := if truthy (prop f "nest_engine_family") then put "nest_engine_family" (prop f "nest_engine_family") a1
            else if truthy (prop f "engine_family") then put "nest_engine_family" (prop f "engine_family") a1
            else if truthy (prop f "sandbox_kind") then put "nest_engine_family" (VStr (to_string (prop f "sandbox_kind"))) a1
            else a1 in
  let a3 := if truthy (prop f "user_agent") then put "nest_user_agent" (VStr (stake 160 (to_string (prop f "user_agent")))) a2
            else a2 in
  gset "__GR_NEST_COMPARE__" a3 w.

Definition enqueue (x : ctx) (r : row) (t : tree) : tree := if x_queue x then set_rows (r :: rows t) t else t.

(** The fields of a flush, stamped in place: the message's own object. *)
Definition rpa_fields (x : ctx) (source : string) (f : val) : val :=
  let f1 := put "rpa_source" (VStr source) f in
  let f2 := if truthy (prop f1 "page_url") then f1 else put "page_url" (pageUrlOf x) f1 in
  if nonnull (prop f2 "page_id") then f2 else put "page_id" (pageIdOf x) f2.

Definition enqueueRpaFlush (x : ctx) (source : string) (f : val) (force : bool) (t : tree) : tree * val :=
  if negb (is_object f) then (t, f) else
  let f' := rpa_fields x source f in
  let hide := truthy (prop f' "pagehide_flush") in
  let kind := jor (prop f' "sandbox_kind") (jor (VStr (before ":" source)) (VStr "iframe")) in
  (enqueue x (mkRow (x_session x) "B11_interaction" source (x_inject x) (if hide then 100 else 88)
     (Some (force || hide)) (VObj [("fields", f'); ("sandbox_kind", kind)])) t, f').

Definition nest_row (x : ctx) (source kind : string) (silicon : bool) (f : val) : row :=
  mkRow (x_session x) "B7_sandbox" source (x_inject x) (if silicon then 42 else 40) None
    (VObj [("fields", f); ("sandbox_kind", VStr kind); ("silicon_recollect", VBool silicon)]).

(** ** Settling a surface *)

(** [finish]: only the first call counts; the surface joins the live ones. *)
Definition finish (i : nat) (o : outcome) (t : tree) : tree :=
  match surfs t !! i with
  | Some s =>
    match su_out s with
    | Some _ => t
    | None => t |> put_surf i (set_out (Some o) s) |> set_live (liveNests t ++ [(su_kind s, true)])
    end
  | None => t
  end.

Definition frame_out (partial : bool) (s : surf) : outcome :=
  mkOut (su_kind s) (received s) partial (match received s with [] => true | _ => false end)
    (t_now e - su_t0 s) (0 <? rpaFlushes s) VUndef.

Definition worker_out (partial : bool) (last : val) (s : surf) : outcome :=
  mkOut "worker" (received s) partial false (t_now e - su_t0 s) (0 <? rpaFlushes s) last.

Definition worker_dead (ms : Z) : outcome := mkOut "worker" [] true true ms false VUndef.

(** The timer of a surface fires; it is cleared when the surface settles. *)
Definition onTimer (i : nat) (t : tree) : tree :=
  match surfs t !! i with
  | Some s =>
    match su_ctl s with
    | CWorker => finish i (worker_out (match received s with [] => true | _ => false end) VUndef s) t
    | CFrame => finish i (frame_out true s) t
    | CNone => t
    end
  | None => t
  end.

Definition onError (i : nat) (t : tree) : tree :=
  match surfs t !! i with
  | Some s =>
    match su_ctl s with
    | CWorker => finish i (worker_dead (t_now e - su_t0 s)) t
    | CFrame => finish i (frame_out true s) t
    | CNone => t
    end
  | None => t
  end.

(** ** Messages *)

(** [d.payload.nest_engine_family = kind] unless there is one. *)
Definition with_family (kind : string) (f : val) : val :=
  if truthy (prop f "nest_engine_family") then f else put "nest_engine_family" (VStr kind) f.

Definition put_silicon (f : val) (w : Win) : Win :=
  gset "__GR_NEST_COMPARE__" (put "silicon_fields" f (jor (gget "__GR_NEST_COMPARE__" w) empty_obj)) w.

(** [w.onmessage] *)
Definition worker_message (i : nat) (m : msg) (t : tree) : tree :=
  match surfs t !! i with
  | Some s =>
    match su_ctl s with
    | CWorker =>
      let x := su_ctx s in
      if (m_from m =s "gr_worker_rpa") && bool_decide (m_type m = Some "rpa_flush") && truthy (m_payload m) then
        fst (enqueueRpaFlush x (nonempty (m_source m) "worker:d1") (m_payload m) true (put_surf i (count_flush s) t))
      else if (m_from m =s "gr_worker") && truthy (m_ok m) && truthy (m_payload m) then
        let s1 := hear "worker:d1" s in
        let f := with_family "worker" (m_payload m) in
        let t1 := t |> put_surf i s1 |> set_twin (noteNestCompare f (twin t))
                    |> enqueue x (nest_row x "worker:d1" "worker" (m_silicon m) f) in
        if m_silicon m then set_twin (put_silicon f (twin t1)) t1
        else finish i (worker_out false f s1) t1
      else t
    | _ => t
    end
  | None => t
  end.

(** [onMsg] of one frame.  It does not look where the message comes from.  The message
    goes on to the next listener as it leaves it. *)
Definition frame_message (i : nat) (m : msg) (t : tree) : tree * msg :=
  let with_payload f := mkMsg (m_from m) (m_type m) (m_ok m) (m_source m) (m_silicon m) (m_force m) f in
  match surfs t !! i with
  | Some s =>
    match su_ctl s with
    | CFrame =>
      let x := su_ctx s in
      let source := nonempty (m_source m) (su_kind s +:+ ":d1") in
      if m_from m <>s "gr_nest" then (t, m) else
      if bool_decide (m_type m = Some "rpa_flush") && truthy (m_payload m) then
        let '(t1, f) := enqueueRpaFlush x source (m_payload m) (m_force m) (put_surf i (count_flush s) t) in
        (t1, with_payload f)
      else if match m_type m with Some ty => ty <>s "result" | None => false end then (t, m) else
      if is_false (m_ok m) then (t, m) else
      if mem_str source (received s) && negb (m_silicon m) then (t, m) else
      let s1 := hear source s in
      let f := with_family (su_kind s) (jor (m_payload m) empty_obj) in
      let m1 := if truthy (m_payload m) then with_payload f else m in
      let t1 := t |> put_surf i s1 |> set_twin (noteNestCompare f (twin t))
                  |> enqueue x (nest_row x source (su_kind s) (m_silicon m) (jor (m_payload m1) empty_obj)) in
      (if m_silicon m then t1 else finish i (frame_out false s1) t1, m1)
    | _ => (t, m)
    end
  | None => (t, m)
  end.

(** A message of the window: every frame's listener hears it, in the order they were added. *)
Definition window_message (m : msg) (t : tree) : tree :=
  fst (fold_left (fun '(t, m) i => frame_message i m t) (seq 0 (length (surfs t))) (t, m)).

(** ** The nest's URL *)

Definition manifestAsset (key : string) (w : Win) : string :=
  let man := jor (gget "__GR_MANIFEST__" w) (jor (jand (gget "__GR_BOOT__" w) (prop (gget "__GR_BOOT__" w) "manifest")) VNull) in
  if truthy man && truthy (prop man "assets") && truthy (prop (prop man "assets") key)
  then to_string (prop (prop man "assets") key)
  else if (key =s "gl_governor") && truthy man && truthy (prop man "gl_governor_url") then to_string (prop man "gl_governor_url")
  else "".

Definition isOpaqueNestUrl (s : string) : bool :=
  let base := lower (after_last "/" (before "#" (before "?" s))) in
  let stem := stake (String.length base - 5) base in
  ends_with ".html" base && (is_hash stem || (starts_with "nest_frame." stem && is_hash (sdrop 11 stem))).

Definition resolveNestBase (raw : val) (w : Win) : string :=
  let s := trim (to_string_or_empty raw) in
  if (s <>s "") && isOpaqueNestUrl s then before "?" s else
  if (starts_with "http://" (lower s) || starts_with "https://" (lower s)) &&
     match t_path e s with Some p => isOpaqueNestUrl p | None => false end
  then before "?" s else manifestAsset "nest_frame" w.

Definition nest_url (x : ctx) (kind base : string) (w : Win) : string :=
  let enc v := encodeURIComponent (to_string_or_empty v) in
  let gl := manifestAsset "gl_governor" w in
  let rpa := manifestAsset "rpa_monitor" w in
  base +:+ "?kind=" +:+ encodeURIComponent kind +:+ "&session_id=" +:+ enc (x_session x) +:+
  "&page_id=" +:+ enc (pageIdOf x) +:+ "&page_url=" +:+ encodeURIComponent (to_string (pageUrlOf x)) +:+
  "&parent_href=" +:+ encodeURIComponent (to_string (pageUrlOf x)) +:+ "&inject_path=" +:+ enc (x_inject x) +:+
  (if gl <>s "" then "&gl=" +:+ encodeURIComponent gl else "") +:+
  (if rpa <>s "" then "&rpa=" +:+ encodeURIComponent rpa else "").

(** ** Opening a surface *)

Definition add_surf (kind : string) (c : control) (x : ctx) (o : option outcome) (t : tree) : tree * nat :=
  (set_surfs (surfs t ++ [mkSurf kind c x (t_now e) [] 0 o]) t, length (surfs t)).

(** The new surface's number, or what the constructor threw. *)
Definition runWorker (x : ctx) (t : tree) : tree * (string + nat) :=
  match t_worker e with
  | WNone => let '(t1, i) := add_surf "worker" CNone x (Some (worker_dead 0)) t in (t1, inr i)
  | WThrows err => (t, inl err)
  | WOk => let '(t1, i) := add_surf "worker" CWorker x None t in (t1, inr i)
  end.

(** The listener is added before the URL is looked for; without one the surface settles at
    once. *)
Definition runIframe (x : ctx) (kind : string) (t : tree) : tree * (string + nat) :=
  let '(t1, i) := add_surf kind CFrame x None t in
  let t2 := set_live (liveNests t1 ++ [(kind +:+ "_listener", false)]) t1 in
  if resolveNestBase (x_nestUrl x) (twin t) =s "" then
    (finish i (mkOut kind [] false true 0 false VUndef) t2, inr i)
  else (t2, inr i).

(** ** The plan *)

Definition the_plan (x : ctx) (c : caps) (w : Win) : val :=
  jor (x_plan x) (jor (cp_plan c) (jor (gget "__GR_SANDBOX_PLAN__" w) VNull)).

Definition at_least_two (l : list string) : list string :=
  if Nat.ltb (length l) 2 then
    let l1 := if mem_str "iframe" l then l else l ++ ["iframe"] in
    let l2 := if mem_str "worker" l1 then l1 else l1 ++ ["worker"] in
    if Nat.ltb (length l2) 2 then l2 ++ ["sandbox_iframe"] else l2
  else l.

Definition plan_kinds (plan : val) : list string :=
  at_least_two (match prop plan "kinds" with VArr (v :: l) => map to_string (v :: l) | _ => ["iframe"; "worker"] end).

Definition max_conc (plan : val) (c : caps) (n : nat) : Z :=
  let m := jor (jand plan (prop plan "max_concurrent")) (if nonnull (cp_max c) then cp_max c else vint (Z.of_nat n)) in
  Z.max 1 (Z.min 3 (if num_ltb (num_Z 0) (to_num m) then num_int32 (to_num m) else 1)).

Definition timeout_ms (c : caps) : Z := if truthy (cp_short c) then 3500 else 5000.

Definition kind_at (r : run) : string := nth (rn_next r) (rn_kinds r) "".
Definition src_tag (kind : string) : string := kind +:+ ":d1".

(** ** The summary *)

Definition add_new (l : list string) (s : string) : list string := if mem_str s l then l else l ++ [s].
Definition all_sources (rs : list outcome) : list string := fold_left add_new (concat (map o_received rs)) [].

Definition sandbox_partial (all kinds : nat) : bool := Nat.ltb 0 all && Nat.ltb all kinds.

Definition capability (all kinds : nat) : Q :=
  (if Nat.eqb all 0 then 0 else if Nat.ltb all 2 then 9 # 20 else
   if Nat.leb 2 all && negb (sandbox_partial all kinds) then 9 # 10 else
   if Nat.leb 2 all then 7 # 10 else 7 # 20)%Q.

Definition band (c : Q) : string :=
  if Qle_bool c (1 # 20) then "dead" else if Qltb c (11 # 20) then "thin" else
  if Qltb c (4 # 5) then "partial" else "ok".

Definition num_geb (a b : num) : bool := num_ltb b a || num_eqb a b.

(** The nest's residual and engine: what the messages noted, else the first the results
    carry, else the worker's silicon fields. *)
Definition first_last (k : string) (ok : val -> bool) (rs : list outcome) : val :=
  match List.find (fun o => truthy (o_last o) && ok (prop (o_last o) k)) rs with
  | Some o => prop (o_last o) k
  | None => VNull
  end.

Definition nest_residual (acc : val) (rs : list outcome) : val :=
  let a := if nonnull (prop acc "nest_residual_mean") then prop acc "nest_residual_mean"
           else first_last "nest_residual_mean" nonnull rs in
  if truthy (prop acc "silicon_fields") && negb (nonnull a)
  then prop (prop acc "silicon_fields") "nest_residual_mean" else a.

Definition nest_engine (acc : val) (rs : list outcome) : val :=
  let r := if nonnull (prop acc "nest_residual_mean") then prop acc "nest_residual_mean"
           else first_last "nest_residual_mean" nonnull rs in
  let a := jor (prop acc "nest_engine_family") (first_last "nest_engine_family" truthy rs) in
  if truthy (prop acc "silicon_fields") && negb (nonnull r) && negb (truthy a)
  then jor (prop (prop acc "silicon_fields") "nest_engine_family") (VStr "worker") else a.

(** Whether the residuals are on one scale, and whether they agree. *)
Definition comparable (nest main : val) : bool :=
  if nonnull nest && nonnull main then
    let nm := to_num nest in let mm := to_num main in
    (num_geb mm (Fin (15 # 100)) && num_geb nm (Fin (15 # 100))) ||
    (num_ltb mm (Fin (12 # 100)) && num_ltb nm (Fin (12 # 100)))
  else false.

Definition agree (nest main : val) : val :=
  if comparable nest main then
    match to_num nest, to_num main with
    | Fin a, Fin b => VBool (Qltb (Qabs (a - b)) (1 # 1000))
    | _, _ => VBool false
    end
  else VNull.

Definition outcome_val (o : outcome) : val :=
  VObj ([("kind", VStr (o_kind o)); ("received", VArr (map VStr (o_received o))); ("partial", VBool (o_partial o));
         ("blocked", VBool (o_blocked o)); ("ms", vint (o_ms o)); ("rpa", VBool (o_rpa o))] ++
        match o_last o with VUndef => [] | f => [("last_fields", f)] end).

Definition count_if (f : outcome -> bool) (rs : list outcome) : Z := Z.of_nat (length (List.filter f rs)).

Definition summary_fields (kinds : list string) (rs : list outcome) (w : Win) : val :=
  let all := all_sources rs in
  let n := length all in
  let blocked := Nat.ltb 0 (length kinds) && Nat.eqb n 0 in
  let empty := Nat.eqb n 0 in
  let acc := jor (gget "__GR_NEST_COMPARE__" w) empty_obj in
  let nest := nest_residual acc rs in
  let main := if nonnull (gget "__GR_MAIN_RESIDUAL_MEAN__" w) then gget "__GR_MAIN_RESIDUAL_MEAN__" w else VNull in
  let cap := capability n (length kinds) in
  VObj [("schema", VStr "gr.sandbox_tree_summary.v2"); ("sources_received", VArr (map VStr all));
        ("sandbox_sources_received", VArr (map VStr all)); ("kinds", VArr (map VStr kinds));
        ("sandbox_kinds_planned", VArr (map VStr kinds)); ("sandbox_triggered", VBool (negb empty));
        ("sandbox_blocked", VBool blocked); ("sandbox_partial", VBool (sandbox_partial n (length kinds)));
        ("sandbox_all_empty", VBool (blocked || empty)); ("sandbox_under_two_kinds", VBool (negb empty && Nat.ltb n 2));
        ("sandbox_payload_source_n", vint (Z.of_nat n)); ("sandbox_blocked_count", vint (count_if o_blocked rs));
        ("sandbox_partial_count", vint (count_if o_partial rs)); ("sandbox_ok", VBool (negb empty && negb blocked));
        ("sandbox_capability_score", VNum (Fin cap)); ("sandbox_capability_band", VStr (band cap));
        ("js_ok_sandbox_dead", VBool (blocked || empty)); ("rpa_multi_source", VBool true);
        ("results", VArr (map outcome_val rs)); ("nest_residual_mean", nest); ("nest_engine_family", nest_engine acc rs);
        ("nest_vs_main_comparable", VBool (comparable nest main)); ("nest_vs_main_agree_0p001", agree nest main);
        ("nest_vs_main_note", if comparable nest main then VNull else
           if nonnull nest && nonnull main then VStr "algo_scale_mismatch_hist_vs_residual" else VNull)].

Definition tree_result (kinds : list string) (rs : list outcome) (f : val) : val :=
  VObj (("kinds", VArr (map VStr kinds)) :: ("received", VArr (map VStr (all_sources rs))) ::
        ("results", VArr (map outcome_val rs)) :: ("rpa_live", VBool true) ::
        map (fun k => (k, prop f k))
          ["sandbox_blocked"; "sandbox_partial"; "sandbox_all_empty"; "sandbox_capability_score";
           "sandbox_capability_band"; "nest_residual_mean"; "nest_engine_family"; "nest_vs_main_comparable";
           "nest_vs_main_agree_0p001"]).

(** The end of [runTree]. *)
Definition summarise (r : nat) (x : run) (t : tree) : tree :=
  let f := summary_fields (rn_kinds x) (results x) (twin t) in
  let v := tree_result (rn_kinds x) (results x) f in
  t |> enqueue (rn_ctx x) (mkRow (x_session (rn_ctx x)) "B7_sandbox" "main" (x_inject (rn_ctx x)) 35 None
         (VObj [("fields", f); ("sandbox_kind", VStr "main")]))
    |> set_twin (gset "__GR_SANDBOX_RESULT__" v (twin t))
    |> put_run r (set_phase (RDone v) x).

(** ** [withNestResources] *)

Definition release_all (l : list nat) (t : tree) : tree := set_tbus (fold_left (fun b q => leave q b) (rev l) (tbus t)) t.

(** The surface of the current kind opens; a constructor that throws rejects the call. *)
Definition open_surface (r : nat) (x : run) (l : list nat) (t : tree) : tree :=
  let kind := kind_at x in
  let '(t1, s) := if kind =s "worker" then runWorker (rn_ctx x) t else runIframe (rn_ctx x) kind t in
  match s with
  | inr i => put_run r (set_phase (RAwait i l) x) t1
  | inl err => t1 |> put_run r (set_phase (RFailed err) x) |> release_all l
  end.

(** The three nested calls of [withResourceLock]; the [j]-th request. *)
Definition nest_classes : list (string * string) := [("nest", "B7:"); ("gpu", "nest_gpu:"); ("audio", "nest_audio:")].

Definition ask_lock (j : nat) (tag : string) (t : tree) : tree * nat :=
  let '(c, pre) := nth j nest_classes ("", "") in
  (set_tbus (withResourceLock c (pre +:+ tag) tag (tbus t)) t, length (reqs (tbus t))).

(** Without a pack loader: 80 polls of 50 ms at most. *)
Definition poll (r : nat) (x : run) (n : nat) (t : tree) : tree :=
  if gtrue "__GR_HW_LOCK__" (twin t) && Nat.ltb n 80 then put_run r (set_phase (RPoll n) x) t
  else open_surface r x [] t.

(** The next kind, or the summary.  Both branches on [maxConc] await kind after kind. *)
Definition begin_kind (r : nat) (x : run) (t : tree) : tree :=
  if Nat.ltb (rn_next x) (length (rn_kinds x)) then
    if gtrue "GRPackLoader" (twin t) then
      let '(t1, q) := ask_lock 0 (src_tag (kind_at x)) t in put_run r (set_phase (RLock [q]) x) t1
    else poll r x 0 t
  else summarise r x t.

Definition entered (q : nat) (b : bus) : bool :=
  match reqs b !! q with Some x => match rq_phase x with Entered _ => true | _ => false end | None => false end.

(** The function of a granted request runs: it asks for the next class, or opens the
    surface. *)
Definition lock_job (r : nat) (t : tree) : tree :=
  match runs t !! r with
  | Some x =>
    match rn_phase x with
    | RLock l =>
      if entered (List.last l 0%nat) (tbus t) then
        if Nat.ltb (length l) 3 then
          let '(t1, q) := ask_lock (length l) (src_tag (kind_at x)) t in put_run r (set_phase (RLock (l ++ [q])) x) t1
        else open_surface r x l t
      else t
    | _ => t
    end
  | None => t
  end.

Definition poll_job (r : nat) (t : tree) : tree :=
  match runs t !! r with
  | Some x => match rn_phase x with RPoll n => poll r x (S n) t | _ => t end
  | None => t
  end.

(** A run whose surface has settled goes on: it releases the locks, innermost first, and
    takes the next kind, which may settle at once. *)
Fixpoint resume (fuel : nat) (r : nat) (t : tree) : tree :=
  match fuel, runs t !! r with
  | S n, Some x =>
    match rn_phase x with
    | RAwait i l =>
      match (match surfs t !! i with Some s => su_out s | None => None end) with
      | Some o =>
        let x1 := mkRun (rn_ctx x) (rn_kinds x) (rn_conc x) (rn_timeout x) (S (rn_next x)) (results x ++ [o]) (RPoll 0) in
        resume n r (begin_kind r x1 (release_all l t))
      | None => t
      end
    | _ => t
    end
  | _, _ => t
  end.

Definition resume_fuel (r : nat) (t : tree) : nat :=
  match runs t !! r with Some x => S (length (rn_kinds x)) | None => 0 end.

Definition resume_all (t : tree) : tree :=
  fold_left (fun t r => resume (resume_fuel r t) r t) (seq 0 (length (runs t))) t.

Definition runTree (x : ctx) (c : caps) (t : tree) : tree :=
  let plan := the_plan x c (twin t) in
  let kinds := plan_kinds plan in
  let r := length (runs t) in
  let x0 := mkRun x kinds (max_conc plan c (length kinds)) (timeout_ms c) 0 [] (RPoll 0) in
  begin_kind r x0 (set_runs (runs t ++ [x0]) t).

Definition liveSurfaceCount (t : tree) : nat := length (List.filter snd (liveNests t)).
End Tree.

(** ** The system

    The calls, wake-ups and forced releases of the bus are those of the pack loader. *)

Inductive tevent :=
| TRun (x : ctx) (c : caps)
| TMessage (m : msg)
| TWorker (i : nat) (m : msg)
| TTimer (i : nat)
| TError (i : nat)
| TPoll (r : nat)
| TLock (r : nat)
| TCall (classes : list string) (label source : string)
| TTake (q : nat)
| TWake (q : nat)
| TLeave (q : nat)
| TForce (cls : string)
| TSet (k : string) (v : val).

(** The requests the runs hold or wait for. *)
Definition run_locks (x : run) : list nat := match rn_phase x with RLock l | RAwait _ l => l | _ => [] end.
Definition mine (t : tree) (q : nat) : bool := existsb (Nat.eqb q) (concat (map run_locks (runs t))).

Definition thandle (e : tenv) (v : tevent) (t : tree) : tree :=
  match v with
  | TRun x c => runTree e x c t
  | TMessage m => window_message e m t
  | TWorker i m => worker_message e i m t
  | TTimer i => onTimer e i t
  | TError i => onError e i t
  | TPoll r => poll_job e r t
  | TLock r => lock_job e r t
  | TCall cs l s => set_tbus (withResourceLocks cs l s (tbus t)) t
  | TTake q => set_tbus (take (t_now e) q (tbus t)) t
  | TWake q => set_tbus (wake (t_now e) q (tbus t)) t
  | TLeave q => if mine t q then t else set_tbus (leave q (tbus t)) t
  | TForce cls => set_tbus (fst (forceReleaseResource (t_now e) cls (tbus t))) t
  | TSet k v => set_twin (gset k v (twin t)) t
  end.

(** One event and the continuations it makes ready. *)
Definition tstep (ev : tenv * tevent) (t : tree) : tree := resume_all (fst ev) (thandle (fst ev) (snd ev) t).
Fixpoint trun (l : list (tenv * tevent)) (t : tree) : tree :=
  match l with [] => t | ev :: l' => trun l' (tstep ev t) end.
