(* ===== verification/SandboxSpec.v ===== *)
(** * What the sandbox tree guarantees

    Surfaces settle once and runs follow their plan, over every sequence of
    messages, timers, locks and calls; a run without a bus ends; frames hear
    each other's messages; the nested locks can deadlock; what the score says. *)

From Stdlib Require Import QArith.
From S2P Require Import Prelude JsVal Window Freeze PackClass PackBus SandboxTree.
#[local] Open Scope Z_scope.

(** ** Growth *)

Definition surf_le (s s' : surf) : Prop :=
  su_kind s' = su_kind s /\ su_ctl s' = su_ctl s /\ (forall o, su_out s = Some o -> su_out s' = Some o).

Definition sle (l l' : list surf) : Prop := forall i s, l !! i = Some s -> exists s', l' !! i = Some s' /\ surf_le s s'.

#[export] Instance surf_le_pre : PreOrder surf_le.
Proof.
  split; [by intros s|]. intros a b c (H1&H2&H3) (H4&H5&H6). split; [congruence|]. split; [congruence|]. auto.
Qed.

#[export] Instance sle_pre : PreOrder sle.
Proof.
  split; [by intros l i s Hs; exists s|]. intros a b c H1 H2 i s Hs.
  destruct (H1 i s Hs) as (s1&Hs1&L1). destruct (H2 i s1 Hs1) as (s2&Hs2&L2). exists s2. split; [done|]. by etrans.
Qed.

Lemma sle_insert l i s s' : l !! i = Some s -> surf_le s s' -> sle l (<[i := s']> l).
Proof.
  intros Hs Hl j x Hx. destruct (decide (j = i)) as [->|Hn].
  - rewrite list_lookup_insert_eq by (by eapply lookup_lt_Some). exists s'. split; [done|]. congruence.
  - rewrite list_lookup_insert_ne by done. by exists x.
Qed.

Lemma sle_app l k : sle l (l ++ k).
Proof. intros i s Hs. exists s. split; [by apply lookup_app_l_Some|done]. Qed.

(** A surface's outcome is of its kind, and one that no event reaches has settled. *)
Definition surf_ok (s : surf) : Prop :=
  (forall o, su_out s = Some o -> o_kind o = su_kind s) /\
  (su_ctl s = CNone -> su_out s <> None) /\ (su_ctl s = CWorker -> su_kind s = "worker").

(** A step that concerns surfaces only: it leaves the runs, the bus and the presence of a
    pack loader. *)
Record nudge (t t' : tree) : Prop := Nudge {
  n_surfs : sle (surfs t) (surfs t');
  n_ok : Forall surf_ok (surfs t) -> Forall surf_ok (surfs t');
  n_runs : runs t' = runs t;
  n_bus : tbus t' = tbus t;
  n_rows : exists new, rows t' = new ++ rows t;
  n_load : gtrue "GRPackLoader" (twin t') = gtrue "GRPackLoader" (twin t)
}.

#[export] Instance nudge_pre : PreOrder nudge.
Proof.
  split; [by intros t; split; try done; exists []|]. intros a b c [H1 H2 H3 H4 [n1 H5] H6] [G1 G2 G3 G4 [n2 G5] G6].
  split; [by etrans|by auto|congruence|congruence|exists (n2 ++ n1); by rewrite G5, H5, app_assoc|congruence].
Qed.

Lemma nudge_put i s s' t : surfs t !! i = Some s -> surf_le s s' -> (surf_ok s -> surf_ok s') -> nudge t (put_surf i s' t).
Proof.
  intros Hs Hl Ho. split; try done; [by eapply sle_insert| |by exists []].
  intros Hf. apply Forall_insert; [done|]. apply Ho. by eapply Forall_lookup_1.
Qed.

Lemma nudge_hear i s src t : surfs t !! i = Some s -> nudge t (put_surf i (hear src s) t).
Proof. intros Hs. by apply (nudge_put i s). Qed.

Lemma nudge_flush i s t : surfs t !! i = Some s -> nudge t (put_surf i (count_flush s) t).
Proof. intros Hs. by apply (nudge_put i s). Qed.

Lemma nudge_live v t : nudge t (set_live v t).
Proof. split; try done. by exists []. Qed.

Lemma nudge_enqueue x r t : nudge t (enqueue x r t).
Proof. unfold enqueue. destruct (x_queue x); [|done]. split; try done. by exists [r]. Qed.

Lemma nudge_note f t : nudge t (set_twin (noteNestCompare f (twin t)) t).
Proof.
  split; try done; [by exists []|]. cbn. unfold noteNestCompare. destruct (negb (is_object f)); [done|].
  unfold gtrue. by rewrite gget_gset_ne.
Qed.

Lemma nudge_silicon f t : nudge t (set_twin (put_silicon f (twin t)) t).
Proof. split; try done; [by exists []|]. cbn. unfold put_silicon, gtrue. by rewrite gget_gset_ne. Qed.

Lemma nudge_finish i s o t : surfs t !! i = Some s -> o_kind o = su_kind s -> nudge t (finish i o t).
Proof.
  intros Hs Ho. unfold finish. rewrite Hs. destruct (su_out s) eqn:E; [done|].
  etrans; [|apply nudge_live]. apply (nudge_put i s); [done| |].
  - repeat split. intros o' Ho'. congruence.
  - intros (_&Hn&Hw). split; [by intros o' [= <-]|]. by split.
Qed.

Lemma nudge_rpa e x src f force t : nudge t (fst (enqueueRpaFlush e x src f force t)).
Proof. unfold enqueueRpaFlush. destruct (negb (is_object f)); [done|]. apply nudge_enqueue. Qed.

Lemma nudge_timer e i t : Forall surf_ok (surfs t) -> nudge t (onTimer e i t).
Proof.
  intros Hf. unfold onTimer. destruct (surfs t !! i) as [s|] eqn:Hs; [|done].
  pose proof (Forall_lookup_1 _ _ _ _ Hf Hs) as (_&_&Hw).
  destruct (su_ctl s) eqn:E; try done; apply (nudge_finish i s); try done. by rewrite Hw.
Qed.

Lemma nudge_error e i t : Forall surf_ok (surfs t) -> nudge t (onError e i t).
Proof.
  intros Hf. unfold onError. destruct (surfs t !! i) as [s|] eqn:Hs; [|done].
  pose proof (Forall_lookup_1 _ _ _ _ Hf Hs) as (_&_&Hw).
  destruct (su_ctl s) eqn:E; try done; apply (nudge_finish i s); try done. by rewrite Hw.
Qed.

(** After [hear] and two steps that keep the surfaces, the surface is still there. *)
Lemma surfs_noted i s f x r t : (i < length (surfs t))%nat ->
  surfs (enqueue x r (set_twin (noteNestCompare f (twin t)) (put_surf i s t))) !! i = Some s.
Proof. intros Hi. unfold enqueue. destruct (x_queue x); cbn; by rewrite list_lookup_insert_eq. Qed.

Lemma nudge_worker e i m t : Forall surf_ok (surfs t) -> nudge t (worker_message e i m t).
Proof.
  intros Hf. unfold worker_message. destruct (surfs t !! i) as [s|] eqn:Hs; [|done].
  pose proof (Forall_lookup_1 _ _ _ _ Hf Hs) as (_&_&Hw). pose proof (lookup_lt_Some _ _ _ Hs) as Hi.
  destruct (su_ctl s) eqn:E; try done. cbv zeta.
  destruct (_ && _); [etrans; [by apply (nudge_flush i s)|apply nudge_rpa]|].
  destruct (_ && _); [|done]. set (f := with_family _ _).
  set (t1 := enqueue _ _ _). assert (nudge t t1) as H1.
  { subst t1. etrans; [|apply nudge_enqueue]. etrans; [by apply (nudge_hear i s)|].
    apply (nudge_note f (put_surf i (hear "worker:d1" s) t)). }
  destruct (m_silicon m); [etrans; [exact H1|apply nudge_silicon]|].
  etrans; [exact H1|]. apply (nudge_finish i (hear "worker:d1" s)); [by apply surfs_noted|]. cbn. by rewrite Hw.
Qed.

Lemma nudge_frame e i m t : Forall surf_ok (surfs t) -> nudge t (fst (frame_message e i m t)).
Proof.
  intros Hf. unfold frame_message. destruct (surfs t !! i) as [s|] eqn:Hs; [|done].
  pose proof (lookup_lt_Some _ _ _ Hs) as Hi. destruct (su_ctl s) eqn:E; try done. cbv zeta.
  destruct (m_from m <>s "gr_nest"); [done|]. destruct (_ && _).
  { destruct (enqueueRpaFlush _ _ _ _ _ _) as [t1 f] eqn:Eq. cbn. etrans; [by apply (nudge_flush i s)|].
    change t1 with (fst (t1, f)). rewrite <- Eq. apply nudge_rpa. }
  destruct (match m_type m with Some _ => _ | None => _ end); [done|]. destruct (is_false _); [done|].
  destruct (_ && _); [done|]. set (f := with_family _ _). set (src := nonempty _ _). set (t1 := enqueue _ _ _). cbn [fst].
  assert (nudge t t1) as H1.
  { subst t1. etrans; [|apply nudge_enqueue]. etrans; [by apply (nudge_hear i s)|].
    apply (nudge_note f (put_surf i (hear src s) t)). }
  destruct (m_silicon m); [exact H1|]. etrans; [exact H1|].
  apply (nudge_finish i (hear src s)); [by apply surfs_noted|done].
Qed.

Lemma nudge_window e m t : Forall surf_ok (surfs t) -> nudge t (window_message e m t).
Proof.
  unfold window_message. generalize (seq 0 (length (surfs t))). intros l.
  revert m t. induction l as [|i l IH]; intros m t Hf; [done|]. cbn [fold_left].
  pose proof (nudge_frame e i m t Hf) as H1. destruct (frame_message e i m t) as [t1 m1]. cbn [fst] in H1.
  etrans; [exact H1|]. apply IH. by apply H1.
Qed.

(** ** Runs *)

Definition ended (x : run) : bool := match rn_phase x with RDone _ | RFailed _ => true | _ => false end.

(** A run keeps its plan, only adds results, and stays as it ended. *)
Definition run_le (x x' : run) : Prop :=
  rn_ctx x' = rn_ctx x /\ rn_kinds x' = rn_kinds x /\ rn_timeout x' = rn_timeout x /\
  (exists more, results x' = results x ++ more) /\ (ended x = true -> x' = x).

#[export] Instance run_le_pre : PreOrder run_le.
Proof.
  split; [intros x; repeat split; by exists []; rewrite ?app_nil_r|].
  intros a b c (H1&H2&H3&[m1 H4]&H5) (G1&G2&G3&[m2 G4]&G5). repeat split; try congruence.
  - exists (m1 ++ m2). by rewrite G4, H4, app_assoc.
  - intros He. rewrite <- (H5 He). apply G5. by rewrite (H5 He).
Qed.

(** What a run has done: its results are of the first kinds of its plan, in order. *)
Definition on_plan (x : run) : Prop :=
  (2 <= length (rn_kinds x))%nat /\ rn_next x = length (results x) /\
  map o_kind (results x) = firstn (rn_next x) (rn_kinds x) /\ (rn_next x <= length (rn_kinds x))%nat.

Definition phase_ok (l : list surf) (x : run) : Prop :=
  match rn_phase x with
  | RLock _ | RPoll _ => (rn_next x < length (rn_kinds x))%nat
  | RAwait i _ => (rn_next x < length (rn_kinds x))%nat /\ exists s, l !! i = Some s /\ su_kind s = kind_at x
  | RDone v => rn_next x = length (rn_kinds x) /\ prop v "results" = VArr (map outcome_val (results x))
  | RFailed _ => True
  end.

Record tok (t : tree) : Prop := Tok {
  tok_surfs : Forall surf_ok (surfs t);
  tok_runs : forall r x, runs t !! r = Some x -> on_plan x /\ phase_ok (surfs t) x
}.

Record grows (t t' : tree) : Prop := Grows {
  g_surfs : sle (surfs t) (surfs t');
  g_runs : forall r x, runs t !! r = Some x -> exists x', runs t' !! r = Some x' /\ run_le x x';
  g_rows : exists new, rows t' = new ++ rows t
}.

#[export] Instance grows_pre : PreOrder grows.
Proof.
  split; [intros t; split; [done|by intros r x Hx; exists x|by exists []]|].
  intros a b c [H1 H2 [n1 H3]] [G1 G2 [n2 G3]]. split; [by etrans| |exists (n2 ++ n1); by rewrite G3, H3, app_assoc].
  intros r x Hx. destruct (H2 r x Hx) as (x1&Hx1&L1). destruct (G2 r x1 Hx1) as (x2&Hx2&L2). exists x2. split; [done|by etrans].
Qed.

(** Every step keeps the invariant and only grows. *)
Definition moves (t t' : tree) : Prop := tok t -> tok t' /\ grows t t'.

#[export] Instance moves_pre : PreOrder moves.
Proof.
  split; [by intros t Ht|]. intros a b c H1 H2 Ha. destruct (H1 Ha) as [Hb G1]. destruct (H2 Hb) as [Hc G2].
  split; [done|by etrans].
Qed.

Lemma phase_ok_le l l' x : sle l l' -> phase_ok l x -> phase_ok l' x.
Proof.
  intros Hl. unfold phase_ok. destruct (rn_phase x); try done. intros [Hn (s&Hs&Hk)]. split; [done|].
  destruct (Hl _ _ Hs) as (s'&Hs'&Hk'&_). exists s'. split; [done|congruence].
Qed.

Lemma nudge_moves t t' : nudge t t' -> moves t t'.
Proof.
  intros [H1 H2 H3 H4 H5 H6] [Hs Hr]. split; [split; [by auto|]|split; try done].
  - intros r x. rewrite H3. intros Hx. destruct (Hr r x Hx). split; [done|]. by eapply phase_ok_le.
  - intros r x Hx. exists x. split; [congruence|done].
Qed.

Lemma moves_bus b t : moves t (set_tbus b t).
Proof. intros [Hs Hr]. split; [by split|split; [done|by intros r x Hx; exists x|by exists []]]. Qed.

Lemma moves_win w t : moves t (set_twin w t).
Proof. intros [Hs Hr]. split; [by split|split; [done|by intros r x Hx; exists x|by exists []]]. Qed.

Lemma runs_put r x t r' : (r < length (runs t))%nat ->
  runs (put_run r x t) !! r' = if decide (r' = r) then Some x else runs t !! r'.
Proof.
  intros Hr. unfold put_run. cbn. case_decide as E; [subst; by rewrite list_lookup_insert_eq|by rewrite list_lookup_insert_ne].
Qed.

Lemma moves_put r x0 x t : runs t !! r = Some x0 -> run_le x0 x -> (tok t -> on_plan x /\ phase_ok (surfs t) x) ->
  moves t (put_run r x t).
Proof.
  intros H0 Hl Hok Ht. pose proof (lookup_lt_Some _ _ _ H0) as Hr. specialize (Hok Ht). destruct Ht as [Hs Hx].
  split; [split; [done|]|split; [done| |by exists []]].
  - intros r' x'. rewrite runs_put by done. case_decide; [by intros [= <-]|apply Hx].
  - intros r' x' Hx'. rewrite runs_put by done. case_decide; [|by exists x']. subst. exists x. split; [done|congruence].
Qed.

Lemma nudge_add s t : surf_ok s -> nudge t (set_surfs (surfs t ++ [s]) t).
Proof.
  intros Hs. split; try done; [apply sle_app| |by exists []]. intros Hf. apply Forall_app. split; [done|by constructor].
Qed.

Lemma added s t : surfs (set_surfs (surfs t ++ [s]) t) !! length (surfs t) = Some s.
Proof. cbn. by rewrite lookup_app_r, Nat.sub_diag by lia. Qed.

Lemma worker_opens e x t t1 i : runWorker e x t = (t1, inr i) ->
  nudge t t1 /\ exists s, surfs t1 !! i = Some s /\ su_kind s = "worker".
Proof.
  unfold runWorker, add_surf. destruct (t_worker e); intros [= <- <-].
  - split; [|eexists; split; [apply added|done]]. apply nudge_add. split; [by intros o [= <-]|done].
  - split; [by apply nudge_add|]. eexists. split; [apply added|done].
Qed.

Lemma worker_throws e x t t1 err : runWorker e x t = (t1, inl err) -> t1 = t.
Proof. unfold runWorker, add_surf. by destruct (t_worker e); intros [=]. Qed.

Lemma frame_opens e x kind t t1 s : runIframe e x kind t = (t1, s) ->
  nudge t t1 /\ exists i su, s = inr i /\ surfs t1 !! i = Some su /\ su_kind su = kind.
Proof.
  unfold runIframe, add_surf. set (s0 := mkSurf _ _ _ _ _ _ _). cbv zeta.
  set (t2 := set_live _ _). assert (nudge t t2) as H1.
  { subst t2. etrans; [apply (nudge_add s0)|apply nudge_live]. by repeat split. }
  assert (surfs t2 !! length (surfs t) = Some s0) as H2 by apply added.
  case_match; intros [= <- <-].
  - assert (nudge t2 (finish (length (surfs t)) (mkOut kind [] false true 0 false VUndef) t2)) as H3
      by (by apply (nudge_finish _ s0)).
    split; [by etrans|]. destruct (n_surfs _ _ H3 _ _ H2) as (s'&Hs'&Hk&_). by eexists _, s'.
  - split; [done|]. by eexists _, s0.
Qed.

(** [x] may replace the run [r], which is not over. *)
Definition replaces (r : nat) (x : run) (t : tree) : Prop :=
  exists x0, runs t !! r = Some x0 /\ ended x0 = false /\ run_le x0 x.

Lemma replaces_phase r x p t : replaces r x t -> replaces r (set_phase p x) t.
Proof.
  intros (x0&Hx&He&H1&H2&H3&H4&_). exists x0. repeat split; try done. by rewrite He.
Qed.

Lemma replaces_nudge r x t t' : nudge t t' -> replaces r x t -> replaces r x t'.
Proof. intros Hn (x0&Hx&H). exists x0. by rewrite (n_runs _ _ Hn). Qed.

Lemma replace_moves r x t : replaces r x t -> on_plan x -> (tok t -> phase_ok (surfs t) x) -> moves t (put_run r x t).
Proof. intros (x0&Hx&He&Hl) Hp Hok. apply (moves_put r x0); auto. Qed.

Lemma summarise_moves r x t : replaces r x t -> on_plan x -> rn_next x = length (rn_kinds x) -> moves t (summarise r x t).
Proof.
  intros Hr Hp Hn. unfold summarise. cbv zeta. set (f := summary_fields _ _ _). set (v := tree_result _ _ _).
  set (t1 := enqueue _ _ t). pose proof (nudge_enqueue (rn_ctx x) (mkRow (x_session (rn_ctx x)) "B7_sandbox" "main"
    (x_inject (rn_ctx x)) 35 None (VObj [("fields", f); ("sandbox_kind", VStr "main")])) t) as Hq.
  etrans; [apply (nudge_moves t t1), Hq|]. etrans; [apply (moves_win (gset "__GR_SANDBOX_RESULT__" v (twin t)))|].
  apply replace_moves; [|by apply Hp|by intros _].
  apply replaces_phase. apply (replaces_nudge r x t t1 Hq) in Hr. destruct Hr as (x0&Hx&Hr). by exists x0.
Qed.

Lemma open_moves e r x l t : replaces r x t -> on_plan x -> (rn_next x < length (rn_kinds x))%nat ->
  moves t (open_surface e r x l t).
Proof.
  intros Hr Hp Hn. unfold open_surface.
  destruct (if kind_at x =s "worker" then _ else _) as [t1 [err|i]] eqn:E.
  - assert (t1 = t) as ->.
    { destruct (kind_at x =s "worker"); [by apply worker_throws in E|]. apply frame_opens in E as (_&i&s&?&_). done. }
    etrans; [|apply moves_bus]. apply replace_moves; [by apply replaces_phase|done|done].
  - assert (nudge t t1 /\ exists s, surfs t1 !! i = Some s /\ su_kind s = kind_at x) as (Hg&s&Hs&Hk).
    { destruct (String.eqb_spec (kind_at x) "worker") as [Hk|_].
      - apply worker_opens in E as (Hg&s&Hs&Hw). split; [done|]. exists s. split; [done|congruence].
      - apply frame_opens in E as (Hg&i'&s&[= <-]&Hs&Hk). split; [done|]. by exists s. }
    etrans; [by apply nudge_moves|]. apply replace_moves; [|done|intros _; split; [done|by exists s]].
    apply replaces_phase. by eapply replaces_nudge.
Qed.

Lemma poll_moves e r x n t : replaces r x t -> on_plan x -> (rn_next x < length (rn_kinds x))%nat ->
  moves t (poll e r x n t).
Proof.
  intros Hr Hp Hn. unfold poll. destruct (_ && _); [|by apply open_moves].
  apply replace_moves; [by apply replaces_phase|done|done].
Qed.

Lemma ask_moves j tag t : moves t (fst (ask_lock j tag t)) /\ runs (fst (ask_lock j tag t)) = runs t.
Proof. unfold ask_lock. destruct (nth j nest_classes ("", "")) as [c pre]. split; [apply moves_bus|done]. Qed.

Lemma lock_moves r x j l t : replaces r x t -> on_plan x -> (rn_next x < length (rn_kinds x))%nat ->
  moves t (let '(t1, q) := ask_lock j (src_tag (kind_at x)) t in put_run r (set_phase (RLock (l ++ [q])) x) t1).
Proof.
  intros Hr Hp Hn. pose proof (ask_moves j (src_tag (kind_at x)) t) as [Hm He].
  destruct (ask_lock _ _ _) as [t1 q]. cbn [fst] in *. etrans; [exact Hm|].
  apply replace_moves; [|done|done]. destruct Hr as (x0&Hx&Hr). apply replaces_phase. exists x0. by rewrite He.
Qed.

Lemma begin_moves e r x t : replaces r x t -> on_plan x -> moves t (begin_kind e r x t).
Proof.
  intros Hr Hp. unfold begin_kind. destruct (Nat.ltb_spec (rn_next x) (length (rn_kinds x))).
  - destruct (gtrue _ _); [by apply (lock_moves r x 0 [])|by apply poll_moves].
  - apply summarise_moves; [done|done|]. destruct Hp as (_&_&_&Hle). lia.
Qed.

Lemma phase_live t r x : tok t -> runs t !! r = Some x -> ended x = false -> replaces r x t /\ on_plan x.
Proof. intros [_ Hr] Hx He. split; [by exists x|by apply (Hr r x Hx)]. Qed.

Lemma lock_job_moves e r t : moves t (lock_job e r t).
Proof.
  intros Ht. unfold lock_job. destruct (runs t !! r) as [x|] eqn:Hx; [|done].
  destruct (rn_phase x) as [l| | | |] eqn:Ep; try done. destruct (entered _ _); [|done].
  destruct (phase_live t r x Ht Hx) as [Hr Hp]; [by unfold ended; rewrite Ep|].
  assert (rn_next x < length (rn_kinds x))%nat as Hn.
  { pose proof (proj2 (tok_runs _ Ht r x Hx)) as Hk. unfold phase_ok in Hk. by rewrite Ep in Hk. }
  destruct (Nat.ltb _ _); [by apply (lock_moves r x (length l) l)|by apply open_moves].
Qed.

Lemma poll_job_moves e r t : moves t (poll_job e r t).
Proof.
  intros Ht. unfold poll_job. destruct (runs t !! r) as [x|] eqn:Hx; [|done].
  destruct (rn_phase x) as [|n| | |] eqn:Ep; try done.
  destruct (phase_live t r x Ht Hx) as [Hr Hp]; [by unfold ended; rewrite Ep|].
  pose proof (proj2 (tok_runs _ Ht r x Hx)) as Hk. unfold phase_ok in Hk. rewrite Ep in Hk. by apply poll_moves.
Qed.

(** The run that takes the outcome of its surface. *)
Definition take_result (o : outcome) (x : run) : run :=
  mkRun (rn_ctx x) (rn_kinds x) (rn_conc x) (rn_timeout x) (S (rn_next x)) (results x ++ [o]) (RPoll 0).

Lemma take_result_ok t r x i l s o : tok t -> runs t !! r = Some x -> rn_phase x = RAwait i l ->
  surfs t !! i = Some s -> su_out s = Some o -> on_plan (take_result o x) /\ replaces r (take_result o x) t.
Proof.
  intros Ht Hx Ep Hs Ho. destruct (tok_runs _ Ht r x Hx) as [(H1&H2&H3&H4) Hk]. unfold phase_ok in Hk. rewrite Ep in Hk.
  destruct Hk as (Hn&s'&Hs'&Hkd). assert (s' = s) as -> by congruence.
  pose proof (Forall_lookup_1 _ _ _ _ (tok_surfs _ Ht) Hs) as (Hko&_). specialize (Hko o Ho).
  split; [split; [done|split; [|split]]|].
  - cbn. rewrite length_app, H2. cbn. lia.
  - cbn [take_result results rn_next rn_kinds]. rewrite map_app, H3. cbn [map]. rewrite Hko, Hkd.
    symmetry. apply take_S_r. unfold kind_at. by apply nth_lookup_Some with (d := "") || (rewrite nth_lookup; destruct (lookup_lt_is_Some_2 _ _ Hn) as [k Hk2]; by rewrite Hk2).
  - cbn. lia.
  - exists x. split; [done|]. split; [by unfold ended; rewrite Ep|].
    repeat split; [by exists [o]|]. unfold ended. by rewrite Ep.
Qed.

Lemma resume_moves e fuel r t : moves t (resume e fuel r t).
Proof.
  revert t. induction fuel as [|n IH]; intros t; [done|]. cbn [resume]. intros Ht.
  destruct (runs t !! r) as [x|] eqn:Hx; [|done]. destruct (rn_phase x) as [| |i l| |] eqn:Ep; try done.
  destruct (surfs t !! i) as [s|] eqn:Hs; [|done]. destruct (su_out s) as [o|] eqn:Ho; [|done].
  destruct (take_result_ok t r x i l s o Ht Hx Ep Hs Ho) as [Hp Hr].
  revert Ht. change (moves t (resume e n r (begin_kind e r (take_result o x) (release_all l t)))).
  etrans; [apply moves_bus|]. etrans; [|apply IH]. apply begin_moves; done.
Qed.

Lemma resume_all_moves e t : moves t (resume_all e t).
Proof.
  unfold resume_all. generalize (seq 0 (length (runs t))). intros l. revert t.
  induction l as [|r l IH]; intros t; [done|]. cbn [fold_left]. etrans; [apply resume_moves|apply IH].
Qed.

Lemma two_kinds plan : (2 <= length (plan_kinds plan))%nat.
Proof.
  unfold plan_kinds. set (l := match prop plan "kinds" with VArr (_ :: _) => _ | _ => _ end). clearbody l.
  unfold at_least_two. destruct (Nat.ltb_spec (length l) 2); [|done].
  set (l2 := if mem_str "worker" _ then _ else _).
  destruct (Nat.ltb_spec (length l2) 2) as [H2|]; [|done]. rewrite length_app. cbn.
  assert (1 <= length l2)%nat; [|lia]. subst l2. repeat (case_match; rewrite ?length_app; cbn); try lia.
  destruct l; [done|cbn; lia].
Qed.

Lemma runTree_moves e x c t : moves t (runTree e x c t).
Proof.
  intros Ht. unfold runTree. cbv zeta. set (kinds := plan_kinds _). set (x0 := mkRun _ _ _ _ _ _ _).
  assert (2 <= length kinds)%nat as Hk by apply two_kinds. assert (on_plan x0) as Hp.
  { split; [done|]. repeat split. cbn. lia. }
  set (t1 := set_runs _ t). assert (runs t1 !! length (runs t) = Some x0) as Hx.
  { subst t1. cbn. by rewrite lookup_app_r, Nat.sub_diag by lia. }
  assert (tok t1 /\ grows t t1) as [Ht1 Hg].
  { destruct Ht as [Hs Hr]. split; [split; [done|]|split; [done| |by exists []]].
    - intros r y. subst t1. cbn. intros [Hy|[Hl Hy]]%lookup_app_Some; [by apply (Hr r y)|].
      destruct (r - length (runs t))%nat; [|done]. injection Hy as <-. split; [done|]. unfold phase_ok. cbn. lia.
    - intros r y Hy. exists y. split; [by apply lookup_app_l_Some|done]. }
  destruct (begin_moves e (length (runs t)) x0 t1) as (Hb&Hb2); [by exists x0|done|done|]. split; [done|by etrans].
Qed.

Lemma thandle_moves e v t : moves t (thandle e v t).
Proof.
  destruct v; cbn [thandle]; try apply moves_bus; try apply moves_win.
  - apply runTree_moves.
  - intros Ht. by apply nudge_moves, Ht; apply nudge_window, Ht.
  - intros Ht. by apply nudge_moves, Ht; apply nudge_worker, Ht.
  - intros Ht. by apply nudge_moves, Ht; apply nudge_timer, Ht.
  - intros Ht. by apply nudge_moves, Ht; apply nudge_error, Ht.
  - apply poll_job_moves.
  - apply lock_job_moves.
  - destruct (mine t q); [done|apply moves_bus].
Qed.

Lemma tstep_moves ev t : moves t (tstep ev t).
Proof. unfold tstep. etrans; [apply thandle_moves|apply resume_all_moves]. Qed.

Lemma trun_moves l t : moves t (trun l t).
Proof. revert t. induction l as [|ev l IH]; intros t; [done|]. cbn. etrans; [apply tstep_moves|apply IH]. Qed.

Lemma tree0_ok w : tok (tree0 w).
Proof. split; [constructor|]. intros r x. cbn. done. Qed.

(** C14: A run follows its plan and surfaces settle once, whatever messages, timers, errors,
    locks, forced releases and other calls come in between: a plan has at least two kinds; the results are of
    the first kinds in order, and a run that is done has one per kind and returned them; the
    outcome a surface settled with never changes, results are only added, and a run that is
    over stays as it is. *)
Theorem tree_follows_plan w l l' :
  let t := trun l (tree0 w) in let t' := trun l' t in
  (forall r x, runs t !! r = Some x ->
     (2 <= length (rn_kinds x))%nat /\ map o_kind (results x) = firstn (length (results x)) (rn_kinds x) /\
     (forall v, rn_phase x = RDone v -> length (results x) = length (rn_kinds x) /\
        prop v "results" = VArr (map outcome_val (results x)))) /\
  (forall i s o, surfs t !! i = Some s -> su_out s = Some o ->
     o_kind o = su_kind s /\ exists s', surfs t' !! i = Some s' /\ su_out s' = Some o) /\
  (forall r x, runs t !! r = Some x -> exists x', runs t' !! r = Some x' /\ rn_kinds x' = rn_kinds x /\
     (exists more, results x' = results x ++ more) /\ (ended x = true -> x' = x)).
Proof.
  cbv zeta. destruct (trun_moves l _ (tree0_ok w)) as [Ht _]. set (t := trun l (tree0 w)) in *.
  destruct (trun_moves l' t Ht) as [_ [Hs Hr _]]. split; [|split].
  - intros r x Hx. destruct (tok_runs _ Ht r x Hx) as [(H1&H2&H3&H4) Hk]. rewrite <- H2. split; [done|split; [done|]].
    intros v Hv. unfold phase_ok in Hk. rewrite Hv in Hk. destruct Hk as [-> Hk]. done.
  - intros i s o Hi Ho. pose proof (Forall_lookup_1 _ _ _ _ (tok_surfs _ Ht) Hi) as (Hk&_).
    split; [by apply Hk|]. destruct (Hs i s Hi) as (s'&Hs'&_&_&Hso). exists s'. auto.
  - intros r x Hx. destruct (Hr r x Hx) as (x'&Hx'&_&Hk&_&Hm&He). by exists x'.
Qed.

(** ** Termination without a bus *)

Section Ends.
Variables (e : tenv) (r : nat).

Definition no_loader (t : tree) : Prop := gtrue "GRPackLoader" (twin t) = false.

(** How many polls and timers a run that is not waiting for a lock still needs. *)
Definition work (x : run) : nat :=
  let k := (82 * (length (rn_kinds x) - rn_next x))%nat in
  match rn_phase x with RPoll n => k - Nat.min n 80 | RAwait _ _ => k - 81 | _ => k end.

Definition lock_free (x : run) : Prop := match rn_phase x with RLock _ => False | _ => True end.

(** The run is over, or needs at most [n] more. *)
Definition within (n : nat) (t : tree) : Prop :=
  no_loader t /\ exists x, runs t !! r = Some x /\ lock_free x /\ (ended x = true \/ (work x <= n)%nat).

Lemma within_le n m t : (n <= m)%nat -> within n t -> within m t.
Proof. intros Hl (Hn&x&Hx&Hf&Hw). split; [done|]. exists x. repeat split; try done. destruct Hw; [by left|right; lia]. Qed.

Lemma open_within x l n t : no_loader t -> (r < length (runs t))%nat -> (82 * (length (rn_kinds x) - rn_next x) - 81 <= n)%nat ->
  within n (open_surface e r x l t).
Proof.
  intros Hl Hr Hn. unfold open_surface.
  destruct (if kind_at x =s "worker" then _ else _) as [t1 [err|i]] eqn:E.
  - assert (t1 = t) as ->.
    { destruct (kind_at x =s "worker"); [by apply worker_throws in E|]. apply frame_opens in E as (_&i&s&?&_). done. }
    split; [done|]. exists (set_phase (RFailed err) x). split; [|split; [done|by left]].
    unfold release_all. cbn [runs set_tbus]. by rewrite runs_put, decide_True.
  - assert (nudge t t1) as Hg.
    { destruct (kind_at x =s "worker"); [by apply worker_opens in E as [? _]|by apply frame_opens in E as [? _]]. }
    split; [unfold no_loader; cbn; by rewrite (n_load _ _ Hg)|]. exists (set_phase (RAwait i l) x).
    split; [rewrite runs_put by (by rewrite (n_runs _ _ Hg)); by rewrite decide_True|]. split; [done|]. right. done.
Qed.

Lemma poll_within x n m t : no_loader t -> (r < length (runs t))%nat -> (rn_next x < length (rn_kinds x))%nat ->
  (82 * (length (rn_kinds x) - rn_next x) - (if Nat.ltb n 80 then n else 81) <= m)%nat -> within m (poll e r x n t).
Proof.
  intros Hl Hr Hx Hn. unfold poll. destruct (gtrue "__GR_HW_LOCK__" (twin t) && Nat.ltb n 80) eqn:E.
  - apply andb_true_iff in E as [_ E]. rewrite E in Hn. apply Nat.ltb_lt in E.
    split; [done|]. exists (set_phase (RPoll n) x). split; [by rewrite runs_put, decide_True|]. split; [done|].
    right. unfold work. cbn. lia.
  - apply open_within; [done|done|]. destruct (Nat.ltb_spec n 80); lia.
Qed.

Lemma begin_within x t : no_loader t -> (r < length (runs t))%nat -> (rn_next x <= length (rn_kinds x))%nat ->
  within (82 * (length (rn_kinds x) - rn_next x)) (begin_kind e r x t).
Proof.
  intros Hl Hr Hx. unfold begin_kind. destruct (Nat.ltb_spec (rn_next x) (length (rn_kinds x))).
  - rewrite Hl. apply poll_within; [done|done|done|]. cbn [Nat.ltb Nat.leb]. lia.
  - unfold summarise. cbv zeta. split.
    + unfold no_loader. cbn. unfold gtrue. rewrite gget_gset_ne by done. exact Hl.
    + eexists (set_phase (RDone _) x). split; [|split; [done|by left]]. unfold enqueue.
      destruct (x_queue _); rewrite runs_put by done; by rewrite decide_True.
Qed.

(** The end of the run's surface is seen. *)
Definition awaits_settled (t : tree) : Prop :=
  exists x i l s o, runs t !! r = Some x /\ rn_phase x = RAwait i l /\ surfs t !! i = Some s /\ su_out s = Some o.

Lemma resume_within fuel t : tok t -> forall n, within n t -> within n (resume e fuel r t).
Proof.
  revert t. induction fuel as [|k IH]; intros t Ht n Hw; [done|]. cbn [resume].
  destruct Hw as (Hn&x&Hx&Hf&Hw). rewrite Hx.
  destruct (rn_phase x) as [| |i l| |] eqn:Ep; try (split; [done|by exists x]).
  destruct (surfs t !! i) as [s|] eqn:Hs; [|split; [done|by exists x]].
  destruct (su_out s) as [o|] eqn:Ho; [|split; [done|by exists x]].
  destruct (take_result_ok t r x i l s o Ht Hx Ep Hs Ho) as [Hp Hr].
  change (within n (resume e k r (begin_kind e r (take_result o x) (release_all l t)))). apply IH.
  { destruct (moves_bus (fold_left (fun b q => leave q b) (rev l) (tbus t)) t Ht) as [Ht1 _].
    apply (begin_moves e r (take_result o x) (release_all l t)); done. }
  pose proof (proj2 (tok_runs _ Ht r x Hx)) as Hk. unfold phase_ok in Hk. rewrite Ep in Hk. destruct Hk as [Hk _].
  eapply within_le; [|apply begin_within; [done| |]].
  - destruct Hw as [Hw|Hw]; [unfold ended in Hw; by rewrite Ep in Hw|]. unfold work in Hw. rewrite Ep in Hw. cbn. lia.
  - cbn. by eapply lookup_lt_Some.
  - cbn. lia.
Qed.

Lemma resume_takes fuel t n : tok t -> within (S n) t -> awaits_settled t -> within n (resume e (S fuel) r t).
Proof.
  intros Ht (Hn&x&Hx&Hf&Hw) (x'&i&l&s&o&Hx'&Ep&Hs&Ho). assert (x' = x) as -> by congruence. cbn [resume].
  rewrite Hx, Ep, Hs, Ho. destruct (take_result_ok t r x i l s o Ht Hx Ep Hs Ho) as [Hp Hr].
  change (within n (resume e fuel r (begin_kind e r (take_result o x) (release_all l t)))).
  pose proof (proj2 (tok_runs _ Ht r x Hx)) as Hk. unfold phase_ok in Hk. rewrite Ep in Hk. destruct Hk as [Hk _].
  apply resume_within.
  { destruct (moves_bus (fold_left (fun b q => leave q b) (rev l) (tbus t)) t Ht) as [Ht1 _].
    apply (begin_moves e r (take_result o x) (release_all l t)); done. }
  eapply within_le; [|apply begin_within; [done| |]].
  - destruct Hw as [Hw|Hw]; [unfold ended in Hw; by rewrite Ep in Hw|]. unfold work in Hw. rewrite Ep in Hw. cbn. lia.
  - cbn. by eapply lookup_lt_Some.
  - cbn. lia.
Qed.

(** Other runs leave this one alone. *)
Definition aside (t t' : tree) : Prop :=
  runs t' !! r = runs t !! r /\ gtrue "GRPackLoader" (twin t') = gtrue "GRPackLoader" (twin t).

#[local] Instance aside_pre : PreOrder aside.
Proof. split; [by intros t|]. intros a b c [H1 H2] [G1 G2]. split; congruence. Qed.

Lemma aside_nudge t t' : nudge t t' -> aside t t'.
Proof. intros Hn. split; [by rewrite (n_runs _ _ Hn)|apply (n_load _ _ Hn)]. Qed.

Lemma aside_put r' x t : r' <> r -> aside t (put_run r' x t).
Proof. intros Hn. split; [|done]. unfold put_run. cbn. by rewrite list_lookup_insert_ne. Qed.

Lemma open_aside r' x l t : r' <> r -> aside t (open_surface e r' x l t).
Proof.
  intros Hn. unfold open_surface.
  destruct (if kind_at x =s "worker" then _ else _) as [t1 [err|i]] eqn:E.
  - assert (t1 = t) as ->.
    { destruct (kind_at x =s "worker"); [by apply worker_throws in E|]. apply frame_opens in E as (_&i&s&?&_). done. }
    apply (aside_put r' (set_phase (RFailed err) x) t Hn).
  - etrans; [|by apply aside_put]. apply aside_nudge.
    destruct (kind_at x =s "worker"); [by apply worker_opens in E as [? _]|by apply frame_opens in E as [? _]].
Qed.

Lemma begin_aside r' x t : r' <> r -> aside t (begin_kind e r' x t).
Proof.
  intros Hn. unfold begin_kind. destruct (Nat.ltb _ _).
  - destruct (gtrue _ _).
    + pose proof (ask_moves 0 (src_tag (kind_at x)) t) as [_ Ha].
      assert (aside t (fst (ask_lock 0 (src_tag (kind_at x)) t))) as H1 by (split; [by rewrite Ha|done]).
      destruct (ask_lock _ _ _) as [t1 q]. etrans; [exact H1|by apply aside_put].
    + unfold poll. destruct (_ && _); [by apply aside_put|by apply open_aside].
  - unfold summarise. cbv zeta. etrans; [|by apply aside_put]. split.
    + unfold enqueue. by destruct (x_queue _).
    + cbn. unfold gtrue. by rewrite gget_gset_ne.
Qed.

Lemma resume_aside fuel r' t : r' <> r -> aside t (resume e fuel r' t).
Proof.
  intros Hn. revert t. induction fuel as [|n IH]; intros t; [done|]. cbn [resume].
  destruct (runs t !! r') as [x|]; [|done]. destruct (rn_phase x) as [| |i l| |]; try done.
  destruct (match surfs t !! i with Some s => su_out s | None => None end) as [o|]; [|done].
  etrans; [|apply IH]. etrans; [|by apply begin_aside]. done.
Qed.

Lemma aside_within t t' n : aside t t' -> within n t -> within n t'.
Proof. intros [Hr Hl] (Hn&x&Hx&H). split; [unfold no_loader; by rewrite Hl|]. exists x. by rewrite Hr. Qed.

Lemma aside_awaits t t' : aside t t' -> grows t t' -> awaits_settled t -> awaits_settled t'.
Proof.
  intros [Hr _] Hg (x&i&l&s&o&Hx&Ep&Hs&Ho). destruct (g_surfs _ _ Hg i s Hs) as (s'&Hs'&_&_&Hso).
  exists x, i, l, s', o. repeat split; try done; [by rewrite Hr|by auto].
Qed.

(** All runs resume: this one needs no more than before, and one less if its surface has
    settled. *)
Lemma resume_list_within l t n : tok t -> within n t ->
  within n (fold_left (fun t r => resume e (resume_fuel r t) r t) l t).
Proof.
  revert t. induction l as [|r' l IH]; intros t Ht Hw; [done|]. cbn [fold_left].
  apply IH; [by apply resume_moves|]. destruct (decide (r' = r)) as [->|Hn]; [by apply resume_within|].
  eapply aside_within; [by apply resume_aside|done].
Qed.

Lemma resume_all_within t n : tok t -> within n t -> within n (resume_all e t).
Proof. apply resume_list_within. Qed.

Lemma resume_all_takes t n : tok t -> within (S n) t -> awaits_settled t -> within n (resume_all e t).
Proof.
  intros Ht Hw Ha. unfold resume_all.
  assert (In r (seq 0 (length (runs t)))) as Hin.
  { destruct Ha as (x&_&_&_&_&Hx&_). apply in_seq. apply lookup_lt_Some in Hx. lia. }
  revert Hin Ht Hw Ha. generalize (seq 0 (length (runs t))). intros l. revert t.
  induction l as [|r' l IH]; intros t Hin Ht Hw Ha; [done|]. cbn [fold_left].
  destruct (resume_moves e (resume_fuel r' t) r' t Ht) as [Ht1 Hg].
  destruct (decide (r' = r)) as [->|Hn].
  - set (t1 := resume e (resume_fuel r t) r t) in *. assert (within n t1) as Hw1.
    { subst t1. unfold resume_fuel. destruct Ha as (x&i&l0&s&o&Hx&Ha). rewrite Hx. apply resume_takes; [done|done|].
      by exists x, i, l0, s, o. }
    by apply resume_list_within.
  - pose proof (resume_aside (resume_fuel r' t) r' t Hn) as Has. apply IH; [|done|by eapply aside_within|by eapply aside_awaits].
    destruct Hin as [->|Hin]; [done|exact Hin].
Qed.

(** One poll or timer brings the run nearer to its end. *)
Lemma tree_nearer t n : tok t -> within (S n) t -> (exists x, runs t !! r = Some x /\ ended x = true) \/
  exists v, (v = TPoll r \/ exists i, v = TTimer i) /\ within n (tstep (e, v) t).
Proof.
  intros Ht Hw. destruct Hw as (Hn&x&Hx&Hf&Hw). destruct (ended x) eqn:He; [left; by exists x|right].
  destruct Hw as [?|Hw]; [done|]. destruct (tok_runs _ Ht r x Hx) as [Hp Hk].
  pose proof (lookup_lt_Some _ _ _ Hx) as Hr. unfold phase_ok in Hk.
  destruct (rn_phase x) as [l|k|i l|v|err] eqn:Ep; unfold lock_free, ended in *; rewrite ?Ep in *; try done.
  - exists (TPoll r). split; [by left|]. unfold tstep. cbn [fst snd thandle].
    apply resume_all_within; [by apply poll_job_moves|]. unfold poll_job. rewrite Hx, Ep.
    unfold work in Hw. rewrite Ep in Hw. apply poll_within; [done|done|done|].
    destruct (Nat.ltb_spec (S k) 80); lia.
  - exists (TTimer i). split; [by right; exists i|]. unfold tstep. cbn [fst snd thandle].
    destruct Hk as [Hk (s&Hs&_)]. pose proof (nudge_timer e i t (tok_surfs _ Ht)) as Hd.
    pose proof (nudge_moves _ _ Hd Ht) as [Ht1 _]. pose proof (aside_nudge _ _ Hd) as Has.
    apply resume_all_takes; [done| |].
    + eapply aside_within; [exact Has|]. split; [done|]. exists x. split; [done|]. unfold lock_free. rewrite Ep. auto.
    + destruct (n_surfs _ _ Hd i s Hs) as (s'&Hs'&_). exists x, i, l, s'.
      assert (exists o, su_out s' = Some o) as [o Ho].
      { pose proof (Forall_lookup_1 _ _ _ _ (tok_surfs _ Ht) Hs) as (_&Hc&_). revert Hs'. unfold onTimer, finish. rewrite Hs.
        pose proof (lookup_lt_Some _ _ _ Hs) as Hi.
        destruct (su_ctl s) eqn:Ec, (su_out s) as [o|] eqn:Eo; cbn; rewrite ?Hs;
          try (intros [= <-]; by exists o); try (rewrite list_lookup_insert_eq by done; intros [= <-]; by eexists).
        by destruct Hc. }
      exists o. repeat split; try done. by rewrite (proj1 Has).
Qed.

Lemma tree_ends n t : tok t -> within n t -> exists l, (length l <= n)%nat /\
  Forall (fun ev => fst ev = e /\ (snd ev = TPoll r \/ exists i, snd ev = TTimer i)) l /\
  exists x, runs (trun l t) !! r = Some x /\ ended x = true.
Proof.
  revert t. induction n as [|n IH]; intros t Ht Hw.
  - destruct Hw as (_&x&Hx&Hf&Hw). exists []. split; [done|split; [constructor|]]. exists x. split; [done|].
    destruct Hw as [|Hw]; [done|]. destruct (tok_runs _ Ht r x Hx) as [_ Hk]. unfold phase_ok, work, lock_free, ended in *.
    destruct (rn_phase x); try done; lia.
  - destruct (tree_nearer t n Ht Hw) as [(x&Hx&He)|(v&Hv&Hw')].
    + exists []. split; [cbn; lia|split; [constructor|]]. by exists x.
    + destruct (IH (tstep (e, v) t)) as (l&Hl&Hf&Hx); [by apply tstep_moves|done|].
      exists ((e, v) :: l). split; [cbn; lia|split; [by constructor|done]].
Qed.
End Ends.

(** C15: Without a pack loader a run always ends.  From every reachable state in which a run
    does not wait for a lock, at most 82 polls and surface timers for each kind of its plan
    bring it to its end, whatever the other runs and the lock of the page do; so neither a
    silent surface nor a lock that is never freed holds up the tree for good. *)
Theorem tree_terminates e w l r x :
  runs (trun l (tree0 w)) !! r = Some x -> gtrue "GRPackLoader" (twin (trun l (tree0 w))) = false ->
  (forall q, rn_phase x <> RLock q) ->
  exists l', (length l' <= 82 * length (rn_kinds x))%nat /\
    Forall (fun ev => fst ev = e /\ (snd ev = TPoll r \/ exists i, snd ev = TTimer i)) l' /\
    exists x', runs (trun l' (trun l (tree0 w))) !! r = Some x' /\ ended x' = true.
Proof.
  intros Hx Hn Hl. apply tree_ends; [by apply trun_moves, tree0_ok|]. split; [done|]. exists x. split; [done|].
  split; [unfold lock_free; destruct (rn_phase x) as [q| | | |] eqn:E; try done; by apply (Hl q)|].
  right. unfold work. destruct (rn_phase x); lia.
Qed.

(** ** Frames overhear each other *)

Definition is_frame (s : surf) : bool := match su_ctl s with CFrame => true | _ => false end.

(** An identity message of the nest with source [src]. *)
Definition identity (src : string) (m : msg) : Prop :=
  m_from m = "gr_nest" /\ m_type m = Some "result" /\ is_false (m_ok m) = false /\ m_silicon m = false /\
  m_source m = src.

(** A frame that queues its rows and has not heard of [src]. *)
Definition fresh_frame (src : string) (s : surf) : Prop := x_queue (su_ctx s) = true /\ mem_str src (received s) = false.

Definition row_tag (r : row) : string * val := (w_source r, prop (w_payload r) "sandbox_kind").

(** The surface after a frame has heard its first identity from [src]. *)
Definition settled_with (e : tenv) (src : string) (s : surf) : surf :=
  match su_out s with
  | Some _ => hear src s
  | None => set_out (Some (frame_out e false (hear src s))) (hear src s)
  end.

Lemma frame_hears e i m t s src : identity src m -> src <> "" -> surfs t !! i = Some s -> is_frame s = true ->
  fresh_frame src s ->
  identity src (snd (frame_message e i m t)) /\
  surfs (fst (frame_message e i m t)) = <[i := settled_with e src s]> (surfs t) /\
  exists r, rows (fst (frame_message e i m t)) = r :: rows t /\ row_tag r = (src, VStr (su_kind s)).
Proof.
  intros (Hf&Hty&Hok&Hsi&Hsrc) Hne Hs Hc [Hq Hrec]. unfold frame_message. rewrite Hs. unfold is_frame in Hc.
  destruct (su_ctl s) eqn:Ec; try done. cbv zeta. rewrite Hf, Hty, Hok, Hsi, Hsrc.
  change ("gr_nest" <>s "gr_nest") with false. cbv iota.
  rewrite bool_decide_eq_false_2 by done. cbn [andb]. change ("result" <>s "result") with false. cbv iota.
  assert (nonempty src (su_kind s +:+ ":d1") = src) as -> by (unfold nonempty; by rewrite (proj2 (String.eqb_neq _ _) Hne)).
  rewrite Hrec. cbn [andb]. set (f := with_family _ _). cbn [fst snd].
  split; [destruct (truthy (m_payload m)); by repeat split|].
  pose proof (lookup_lt_Some _ _ _ Hs) as Hi. unfold enqueue. rewrite Hq. unfold finish, settled_with.
  cbn [surfs set_rows set_twin put_surf set_surfs]. rewrite list_lookup_insert_eq by done. cbn [hear su_out].
  destruct (su_out s); cbn; rewrite ?list_insert_insert_eq; (split; [done|]; eexists; split; reflexivity).
Qed.

Lemma frames_hear e src (n : nat) : forall (k : nat) m t, identity src m -> src <> "" -> length (surfs t) = (k + n)%nat ->
  Forall (fun s => is_frame s = true -> fresh_frame src s) (skipn k (surfs t)) ->
  let t' := fst (fold_left (fun '(t, m) i => frame_message e i m t) (seq k n) (t, m)) in
  surfs t' = firstn k (surfs t) ++ map (fun s => if is_frame s then settled_with e src s else s) (skipn k (surfs t)) /\
  map row_tag (rows t') =
    rev (map (fun s => (src, VStr (su_kind s))) (List.filter is_frame (skipn k (surfs t)))) ++ map row_tag (rows t).
Proof.
  induction n as [|n IH]; intros k m t Hm Hne Hlen Hall; cbv zeta.
  - rewrite drop_ge by lia. cbn. rewrite app_nil_r, take_ge by lia. done.
  - cbn [seq fold_left]. destruct (lookup_lt_is_Some_2 (surfs t) k ltac:(lia)) as [s Hs].
    rewrite (drop_S _ s k Hs) in *. inversion_clear Hall as [|? ? Hk Hall'].
    destruct (is_frame s) eqn:Ef.
    + destruct (frame_hears e k m t s src Hm Hne Hs Ef (Hk eq_refl)) as (Hm'&Hs'&r&Hr&Htag).
      destruct (frame_message e k m t) as [t1 m1]. cbn [fst snd] in *.
      destruct (IH (S k) m1 t1 Hm' Hne) as [H1 H2].
      { rewrite Hs', length_insert. lia. }
      { by rewrite Hs', drop_insert_lt by lia. }
      rewrite Hs', drop_insert_lt in H1, H2 by lia. rewrite H1, H2, Hr. cbn [map List.filter]. rewrite Ef. cbn [map rev].
      rewrite <- app_assoc. cbn [app]. rewrite Htag. split; [|done].
      pose proof (lookup_lt_Some _ _ _ Hs) as Hi.
      rewrite (take_S_r _ k (settled_with e src s)) by (by rewrite list_lookup_insert_eq).
      rewrite take_insert_ge by lia. by rewrite <- app_assoc.
    + assert (frame_message e k m t = (t, m)) as ->.
      { unfold frame_message. rewrite Hs. unfold is_frame in Ef. by destruct (su_ctl s). }
      destruct (IH (S k) m t Hm Hne) as [H1 H2]; [lia|done|]. rewrite H1, H2. cbn [map List.filter]. rewrite Ef.
      split; [|done]. rewrite (take_S_r _ k s Hs). by rewrite <- app_assoc.
Qed.

(** C40: Every frame answers for every other.  No listener looks where a message comes from:
    the first identity message with source [src], from whichever frame, is queued once by
    every frame that has opened so far, each time under that frame's kind, and it settles
    every frame still pending as not blocked, with that foreign source as received. *)
Theorem frames_overhear e m t src :
  identity src m -> src <> "" -> Forall (fun s => is_frame s = true -> fresh_frame src s) (surfs t) ->
  let t' := window_message e m t in
  map row_tag (rows t') =
    rev (map (fun s => (src, VStr (su_kind s))) (List.filter is_frame (surfs t))) ++ map row_tag (rows t) /\
  (forall i s, surfs t !! i = Some s -> is_frame s = true -> su_out s = None ->
     exists s' o, surfs t' !! i = Some s' /\ su_out s' = Some o /\ o_blocked o = false /\
       o_received o = received s ++ [src]).
Proof.
  intros Hm Hne Hall. cbv zeta. unfold window_message.
  destruct (frames_hear e src (length (surfs t)) 0 m t Hm Hne eq_refl Hall) as [H1 H2]. cbn [drop take app] in H1, H2.
  split; [exact H2|]. intros i s Hs Hf Ho. rewrite H1.
  pose proof (Forall_lookup_1 _ _ _ _ Hall Hs Hf) as [_ Hr].
  eexists (settled_with e src s), (frame_out e false (hear src s)). split; [|split; [|split]].
  - match goal with |- (_ ++ map ?f _) !! _ = _ => change ((f <$> surfs t) !! i = Some (settled_with e src s)) end.
    rewrite list_lookup_fmap, Hs. cbn. by rewrite Hf.
  - unfold settled_with. by rewrite Ho.
  - cbn. rewrite Hr. by destruct (received s).
  - cbn. by rewrite Hr.
Qed.

(** ** The nested locks *)

(** A run owns the nest and waits for the gpu, which a request for both classes holds that
    waits for the nest: [q0] and [q2] are the run's requests, [q1] is the other. *)
Definition crossed (q0 q1 q2 : nat) (b : bus) : Prop :=
  (sole "nest" b /\ sole "gpu" b) /\
  (exists x, reqs b !! q0 = Some x /\ rq_phase x = Entered Owner /\ rq_classes x = ["nest"]) /\
  (exists x, reqs b !! q1 = Some x /\ rq_phase x = Waiting 1 /\ rq_classes x = ["gpu"; "nest"]) /\
  (exists x, reqs b !! q2 = Some x /\ rq_phase x = Waiting 0 /\ rq_classes x = ["gpu"]).

Section Crossed.
Variables (q0 q1 q2 : nat).

(** The three requests as they are. *)
Definition as_they_are (b b' : bus) : Prop :=
  reqs b' !! q0 = reqs b !! q0 /\ reqs b' !! q1 = reqs b !! q1 /\ reqs b' !! q2 = reqs b !! q2.

Lemma crossed_same b b' : sole "nest" b' /\ sole "gpu" b' -> as_they_are b b' -> crossed q0 q1 q2 b -> crossed q0 q1 q2 b'.
Proof. intros Hi (E0&E1&E2) (_&H0&H1&H2). split; [done|]. by rewrite E0, E1, E2. Qed.

Lemma crossed_held b : crossed q0 q1 q2 b -> held b "nest" = true /\ held b "gpu" = true.
Proof.
  intros ([(Hn&_) (Hg&_)]&(x0&H0&P0&C0)&(x1&H1&P1&C1)&_). split; [apply Hn|apply Hg].
  - exists q0, x0. split; [done|]. unfold owned. rewrite P0, C0. by left.
  - exists q1, x1. split; [done|]. unfold owned. rewrite P1, C1. by left.
Qed.

Lemma phase_elsewhere r p b q : q <> r -> reqs (PackBus.set_phase r p b) !! q = reqs b !! q.
Proof. intros Hq. rewrite reqs_set_phase. by rewrite decide_False. Qed.

(** A request that tries to take a class changes its own phase only. *)
Lemma tryTake_elsewhere now r x i b q : q <> r -> reqs (tryTake now r x i b) !! q = reqs b !! q.
Proof.
  intros Hq. unfold tryTake. destruct (rq_classes x !! i); [|done].
  destruct (held b s); by rewrite phase_elsewhere by done.
Qed.

Lemma tryTake_waits now r x i c b : reqs b !! r = Some x -> rq_phase x = Waiting i -> rq_classes x !! i = Some c ->
  held b c = true -> reqs (tryTake now r x i b) !! r = Some x.
Proof.
  intros Hr Hp Hc Hh. unfold tryTake. rewrite Hc, Hh. rewrite reqs_set_phase, decide_True by done.
  change (reqs (put_waiters c (waiting_for b c ++ [r]) b)) with (reqs b). rewrite Hr. cbn. f_equal.
  destruct x as [cs l s p]. cbn in *. by subst.
Qed.

Lemma crossed_call cs l s b : crossed q0 q1 q2 b -> crossed q0 q1 q2 (withResourceLocks cs l s b).
Proof.
  intros Hc. apply (crossed_same b); [split; apply sole_call, Hc| |done].
  assert (forall q x, reqs b !! q = Some x -> reqs (withResourceLocks cs l s b) !! q = reqs b !! q) as Hq.
  { intros q x Hx. unfold withResourceLocks. cbv zeta.
    assert (forall p cl lb so b', reqs b' = reqs b -> reqs (set_reqs (reqs b' ++ [mkReq cl lb so p]) b') !! q = reqs b !! q) as Hadd.
    { intros p cl lb so b' Hb. cbn. rewrite Hb. by rewrite (lookup_app_l_Some _ _ _ _ Hx). }
    assert (forall l b', reqs (fold_left nest_one l b') = reqs b') as Hn.
    { intros l0. induction l0 as [|c l0 IH]; intros b'; [done|]. cbn. by rewrite IH. }
    destruct (is_light _); [by apply Hadd|]. destruct (List.filter _ _); [by apply Hadd|].
    destruct (forallb _ _); apply Hadd; [apply (Hn (_ :: _))|done]. }
  destruct Hc as (_&(x0&H0&_)&(x1&H1&_)&(x2&H2&_)). repeat split; by eapply Hq.
Qed.

Lemma crossed_take now r b : crossed q0 q1 q2 b -> crossed q0 q1 q2 (take now r b).
Proof.
  intros Hc. apply (crossed_same b); [split; (eapply sole_job; [apply BTake|apply Hc])| |done].
  assert (forall q x, reqs b !! q = Some x -> (forall i, rq_phase x <> Taking i) -> reqs (take now r b) !! q = reqs b !! q) as Hq.
  { intros q x Hx Hp. unfold take. destruct (reqs b !! r) as [y|] eqn:Hy; [|done].
    destruct (rq_phase y) eqn:Ep; try done. apply tryTake_elsewhere. intros ->. apply (Hp i). congruence. }
  destruct Hc as (_&(x0&H0&P0&_)&(x1&H1&P1&_)&(x2&H2&P2&_)).
  repeat split; eapply Hq; try done; intros i; congruence.
Qed.

Lemma crossed_resolve now r b : crossed q0 q1 q2 b -> crossed q0 q1 q2 (resolve now b r).
Proof.
  intros Hc. apply (crossed_same b); [split; apply sole_resolve, Hc| |done]. destruct (crossed_held b Hc) as [Hn Hg].
  assert (forall q x, reqs b !! q = Some x ->
    (q = r -> (forall i, rq_phase x <> Waiting i) \/ exists i c, rq_phase x = Waiting i /\ rq_classes x !! i = Some c /\ held b c = true) ->
    reqs (resolve now b r) !! q = reqs b !! q) as Hq.
  { intros q x Hx Hp. unfold resolve. destruct (reqs b !! r) as [y|] eqn:Hy; [|done].
    destruct (rq_phase y) eqn:Ep; try done. destruct (decide (q = r)) as [->|Hne]; [|by rewrite tryTake_elsewhere].
    assert (y = x) as -> by congruence. destruct (Hp eq_refl) as [Hp'|(j&c&Ej&Ec&Eh)]; [by destruct (Hp' i)|].
    assert (j = i) as -> by congruence. rewrite (tryTake_waits now r x i c); done. }
  destruct Hc as (_&(x0&H0&P0&_)&(x1&H1&P1&C1)&(x2&H2&P2&C2)).
  repeat split; eapply Hq; try done; intros _.
  - left. intros i. congruence.
  - right. exists 1%nat, "nest". by rewrite C1.
  - right. exists 0%nat, "gpu". by rewrite C2.
Qed.

Lemma crossed_wake now r b : crossed q0 q1 q2 b -> crossed q0 q1 q2 (wake now r b).
Proof.
  intros Hc. unfold wake. case_bool_decide; [|done]. apply crossed_resolve. exact Hc.
Qed.

(** A forced release of another class lets its waiting requests try again. *)
Lemma crossed_force now d b : d <> "nest" -> d <> "gpu" -> crossed q0 q1 q2 b ->
  crossed q0 q1 q2 (fst (forceReleaseResource now d b)).
Proof.
  intros Hn Hg Hc. unfold forceReleaseResource. cbv zeta. cbn [fst].
  set (b1 := put_waiters d [] _). assert (crossed q0 q1 q2 b1) as H1.
  { destruct Hc as [[Sn Sg] Hr]. split; [|exact Hr].
    assert (forall c, c <> d -> held b1 c = held b c) as Hh.
    { intros c Hcd. etrans; [apply (held_drop (put_depth d 0 b) d c)|]. by rewrite (proj2 (String.eqb_neq c d)). }
    split; (eapply sole_same; [apply Hh; congruence|done|done]). }
  revert H1. generalize b1 (waiting_for b d). clear. intros b l. revert b.
  induction l as [|r l IH]; intros b H1; [done|]. cbn. by apply IH, crossed_resolve.
Qed.

Lemma crossed_leave r b : r <> q0 -> crossed q0 q1 q2 b -> crossed q0 q1 q2 (leave r b).
Proof.
  intros Hr Hc. apply (crossed_same b); [split; apply sole_leave, Hc| |done].
  assert (forall l b, reqs (fold_left releaseOne l b) = reqs b) as Hrel.
  { intros l. induction l as [|c l IH]; intros b'; [done|]. cbn. by rewrite IH, releaseOne_reqs. }
  assert (forall q x, reqs b !! q = Some x -> (q = r -> forall m, rq_phase x <> Entered m) -> reqs (leave r b) !! q = reqs b !! q) as Hq.
  { intros q x Hx Hp. unfold leave. destruct (reqs b !! r) as [y|] eqn:Hy; [|done].
    destruct (decide (q = r)) as [->|Hne].
    - assert (y = x) as -> by congruence. specialize (Hp eq_refl). destruct (rq_phase x) as [| |m|]; try done. by destruct (Hp m).
    - destruct (rq_phase y) as [| |[]|]; try done; rewrite phase_elsewhere by done; rewrite ?Hrel; try done.
      by rewrite (proj1 (proj2 (proj2 (unnest_view (rq_classes y) b)))). }
  destruct Hc as (_&(x0&H0&P0&_)&(x1&H1&P1&_)&(x2&H2&P2&_)).
  repeat split; eapply Hq; try done; intros _ m; congruence.
Qed.

Lemma crossed_release l b : ~ In q0 l -> crossed q0 q1 q2 b -> crossed q0 q1 q2 (fold_left (fun b q => leave q b) l b).
Proof.
  revert b. induction l as [|q l IH]; intros b Hn Hc; [done|]. cbn [fold_left]. apply IH.
  - intros Hi. apply Hn. by right.
  - apply crossed_leave; [|done]. intros ->. apply Hn. by left.
Qed.
End Crossed.

(** ** The bus of a tree *)

(** What every operation of the bus keeps, the whole tree keeps: a run releases its own
    requests only, and other code none of a run's.  Some classes may be spared forced
    releases.  One run may be frozen: it waits for a request that is not granted. *)
Section Keeps.
Variables (B : bus -> Prop) (safe : nat -> Prop) (spared : string -> Prop) (frozen : option (nat * run)).
Hypothesis B_call : forall cs l s b, B b -> B (withResourceLocks cs l s b).
Hypothesis B_take : forall now q b, B b -> B (take now q b).
Hypothesis B_wake : forall now q b, B b -> B (wake now q b).
Hypothesis B_leave : forall q b, safe q -> B b -> B (leave q b).
Hypothesis B_force : forall now c b, ~ spared c -> B b -> B (fst (forceReleaseResource now c b)).
Hypothesis B_fresh : forall b, B b -> safe (length (reqs b)).
Hypothesis B_stuck : forall b r x, B b -> frozen = Some (r, x) ->
  exists l, rn_phase x = RLock l /\ entered (List.last l 0%nat) b = false.
Hypothesis B_mine : forall q, (forall r x, frozen = Some (r, x) -> ~ In q (run_locks x)) -> safe q.

Definition thawed (r : nat) : Prop := forall x, frozen <> Some (r, x).

Record kept (t : tree) : Prop := Kept {
  k_bus : B (tbus t);
  k_frozen : forall r x, frozen = Some (r, x) -> runs t !! r = Some x;
  k_runs : forall r x, thawed r -> runs t !! r = Some x -> Forall safe (run_locks x)
}.

Lemma kept_nudge t t' : nudge t t' -> kept t -> kept t'.
Proof. intros Hn [H1 H2 H3]. split; rewrite ?(n_bus _ _ Hn), ?(n_runs _ _ Hn); done. Qed.

Lemma kept_bus b t : B b -> kept t -> kept (set_tbus b t).
Proof. intros Hb [H1 H2 H3]. by split. Qed.

Lemma kept_put r x t : thawed r -> Forall safe (run_locks x) -> kept t -> kept (put_run r x t).
Proof.
  intros Hr Hx [H1 H2 H3]. split; [done| |].
  - intros r' y Hf. unfold put_run. cbn. rewrite list_lookup_insert_ne; [by apply H2|]. intros <-. by apply (Hr y).
  - intros r' y Ht Hy. unfold put_run in Hy. cbn in Hy. destruct (decide (r' = r)) as [->|Hn].
    + apply list_lookup_insert_Some in Hy as [(_&<-&_)|[Hne _]]; [done|by destruct Hne].
    + rewrite list_lookup_insert_ne in Hy by done. by apply (H3 r' y).
Qed.

Lemma kept_release l t : Forall safe l -> kept t -> kept (release_all l t).
Proof.
  intros Hl Hk. apply kept_bus; [|done]. assert (Forall safe (rev l)) as Hr by by apply Forall_rev.
  clear Hl. revert Hr. generalize (rev l) (tbus t) (k_bus _ Hk). clear -B_leave.
  intros l. induction l as [|q l IH]; intros b Hb Hl; [done|]. inversion_clear Hl. cbn. apply IH; [by apply B_leave|done].
Qed.

Lemma kept_ask j tag t : kept t -> kept (fst (ask_lock j tag t)) /\ safe (snd (ask_lock j tag t)).
Proof.
  intros Hk. unfold ask_lock. destruct (nth j nest_classes ("", "")) as [c pre]. cbn [fst snd].
  split; [apply kept_bus; [apply B_call, Hk|done]|apply B_fresh, Hk].
Qed.

Lemma kept_open e r x l t : thawed r -> Forall safe l -> kept t -> kept (open_surface e r x l t).
Proof.
  intros Hr Hl Hk. unfold open_surface.
  destruct (if kind_at x =s "worker" then _ else _) as [t1 [err|i]] eqn:E.
  - assert (t1 = t) as ->.
    { destruct (kind_at x =s "worker"); [by apply worker_throws in E|]. apply frame_opens in E as (_&i&s&?&_). done. }
    apply kept_release; [done|]. by apply kept_put.
  - apply kept_put; [done|done|]. apply (kept_nudge t); [|done].
    destruct (kind_at x =s "worker"); [by apply worker_opens in E as [? _]|by apply frame_opens in E as [? _]].
Qed.

Lemma kept_poll e r x n t : thawed r -> kept t -> kept (poll e r x n t).
Proof. intros Hr Hk. unfold poll. destruct (_ && _); [by apply kept_put|by apply kept_open]. Qed.

Lemma kept_lock r x j l t : thawed r -> Forall safe l -> kept t ->
  kept (let '(t1, q) := ask_lock j (src_tag (kind_at x)) t in put_run r (set_phase (RLock (l ++ [q])) x) t1).
Proof.
  intros Hr Hl Hk. destruct (kept_ask j (src_tag (kind_at x)) t Hk) as [H1 H2].
  destruct (ask_lock _ _ _) as [t1 q]. apply kept_put; [done| |done]. cbn. apply Forall_app. split; [done|by constructor].
Qed.

Lemma kept_begin e r x t : thawed r -> kept t -> kept (begin_kind e r x t).
Proof.
  intros Hr Hk. unfold begin_kind. destruct (Nat.ltb _ _).
  - destruct (gtrue _ _); [by apply (kept_lock r x 0 [])|by apply kept_poll].
  - unfold summarise. cbv zeta. apply kept_put; [done|done|]. set (f := enqueue _ _ _).
    assert (kept f) as [H1 H2 H3] by (eapply kept_nudge; [apply nudge_enqueue|done]). by split.
Qed.

(** The frozen run does not move. *)
Lemma frozen_or_thawed t r x : kept t -> runs t !! r = Some x ->
  thawed r /\ Forall safe (run_locks x) \/
  exists l, rn_phase x = RLock l /\ entered (List.last l 0%nat) (tbus t) = false.
Proof.
  intros Hk Hx. assert (thawed r \/ exists y, frozen = Some (r, y)) as [Ht|[y Hy]].
  { unfold thawed. destruct frozen as [[r' y]|]; [|by left]. destruct (decide (r' = r)) as [->|]; [right; by exists y|].
    left. intros z [= ? ?]. done. }
  - left. split; [done|]. by apply (k_runs _ Hk r x).
  - right. pose proof (k_frozen _ Hk _ _ Hy). assert (y = x) as -> by congruence. apply (B_stuck _ r x); [apply Hk|done].
Qed.

Lemma kept_resume e fuel r t : kept t -> kept (resume e fuel r t).
Proof.
  revert t. induction fuel as [|n IH]; intros t Hk; [done|]. cbn [resume].
  destruct (runs t !! r) as [x|] eqn:Hx; [|done]. destruct (rn_phase x) as [| |i l| |] eqn:Ep; try done.
  destruct (match surfs t !! i with Some s => su_out s | None => None end); [|done].
  destruct (frozen_or_thawed t r x Hk Hx) as [[Ht Hl]|(?&?&_)]; [|congruence].
  unfold run_locks in Hl. rewrite Ep in Hl. apply IH, kept_begin; [done|]. by apply kept_release.
Qed.

Lemma kept_run_job e r t : kept t -> kept (lock_job e r t) /\ kept (poll_job e r t).
Proof.
  intros Hk. unfold lock_job, poll_job. destruct (runs t !! r) as [x|] eqn:Hx; [|done].
  destruct (frozen_or_thawed t r x Hk Hx) as [[Ht Hl]|(l&El&Hn)].
  - unfold run_locks in Hl. destruct (rn_phase x); split; try done; [|by apply kept_poll].
    destruct (entered _ _); [|done]. destruct (Nat.ltb _ _); [by apply kept_lock|by apply kept_open].
  - rewrite El, Hn. done.
Qed.

Lemma mine_safe t q : kept t -> mine t q = false -> safe q.
Proof.
  intros Hk Hm. apply B_mine. intros r x Hf Hin. enough (mine t q = true) by congruence.
  apply existsb_exists. exists q. split; [|apply Nat.eqb_refl]. apply in_concat. exists (run_locks x). split; [|done].
  apply in_map, list_elem_of_In. by eapply list_elem_of_lookup_2, (k_frozen _ Hk).
Qed.

Lemma kept_runTree e x c t : kept t -> kept (runTree e x c t).
Proof.
  intros Hk. unfold runTree. cbv zeta. set (x0 := mkRun _ _ _ _ _ _ _). apply kept_begin.
  - intros y Hf. pose proof (lookup_lt_Some _ _ _ (k_frozen _ Hk _ _ Hf)). lia.
  - destruct Hk as [H1 H2 H3]. split; [done| |].
    + intros r y Hf. cbn. by apply lookup_app_l_Some, H2.
    + intros r y Ht. cbn. intros [Hy|[Hl Hy]]%lookup_app_Some; [by apply (H3 r y)|].
      destruct (r - length (runs t))%nat; [|done]. injection Hy as <-. constructor.
Qed.

(** The event releases no spared class by force. *)
Definition sparing (ev : tenv * tevent) : Prop := match snd ev with TForce c => ~ spared c | _ => True end.

Lemma tree_kept_step ev t : Forall surf_ok (surfs t) -> sparing ev -> kept t -> kept (tstep ev t).
Proof.
  intros Hs Hq Hk. unfold sparing in Hq. unfold tstep. set (e := fst ev). assert (kept (thandle e (snd ev) t)) as H1.
  { destruct (snd ev); cbn [thandle] in *.
    - by apply kept_runTree.
    - eapply kept_nudge; [by apply nudge_window|done].
    - eapply kept_nudge; [by apply nudge_worker|done].
    - eapply kept_nudge; [by apply nudge_timer|done].
    - eapply kept_nudge; [by apply nudge_error|done].
    - by apply kept_run_job.
    - by apply kept_run_job.
    - apply kept_bus; [apply B_call, Hk|done].
    - apply kept_bus; [apply B_take, Hk|done].
    - apply kept_bus; [apply B_wake, Hk|done].
    - destruct (mine t q) eqn:Hm; [done|]. apply kept_bus; [|done]. apply B_leave; [by apply (mine_safe t)|apply Hk].
    - apply kept_bus; [by apply B_force, Hk|done].
    - destruct Hk as [? ? ?]. by split. }
  revert H1. generalize (thandle e (snd ev) t). unfold resume_all. intros t1. generalize (seq 0 (length (runs t1))).
  intros l. revert t1. induction l as [|r l IH]; intros t1 H1; [done|]. cbn [fold_left]. by apply IH, kept_resume.
Qed.

Lemma kept_trun l t : Forall sparing l -> tok t -> kept t -> kept (trun l t).
Proof.
  revert t. induction l as [|ev l IH]; intros t Hl Ht Hk; [done|]. inversion_clear Hl. cbn [trun].
  apply IH; [done|by apply tstep_moves|]. apply tree_kept_step; [apply Ht|done|done].
Qed.
End Keeps.

Definition crossing_class (c : string) : Prop := c = "nest" \/ c = "gpu".

(** The bus of a reachable tree locks every class that was not released by force. *)
Lemma bus_reached w l c : Forall (sparing (eq c)) l -> sole c (tbus (trun l (tree0 w))).
Proof.
  intros Hl. apply (k_bus (sole c) (fun _ => True) None).
  apply (kept_trun _ _ (eq c)); try done.
  - intros. by apply sole_call.
  - intros. by eapply sole_job; [apply BTake|].
  - intros. by eapply sole_job; [apply BWake|].
  - intros. by apply sole_leave.
  - intros now d b Hd. apply sole_force. congruence.
  - split; [|done|by intros r x _]. apply (sole_reach (fun _ => False)); [by intros []|apply star_refl].
Qed.

(** C16: The nested locks of the tree can deadlock.  [withNestResources] takes the nest first
    and asks for the gpu with the nest in hand, against the order every list of classes is
    sorted into; when a request for the gpu and the nest has got the gpu meanwhile, the run
    stays at this kind, whatever locks are called for, taken, woken or left and whatever
    else happens, for as long as the loader does not release the nest or the gpu by force. *)
Theorem nest_deadlock w l r x q0 q1 q2 :
  let t := trun l (tree0 w) in
  Forall (sparing crossing_class) l ->
  runs t !! r = Some x -> rn_phase x = RLock [q0; q2] ->
  (forall r' y, r' <> r -> runs t !! r' = Some y -> ~ In q0 (run_locks y)) ->
  (exists a, reqs (tbus t) !! q0 = Some a /\ rq_phase a = Entered Owner /\ rq_classes a = ["nest"]) ->
  (exists a, reqs (tbus t) !! q1 = Some a /\ rq_phase a = Waiting 1 /\ rq_classes a = ["gpu"; "nest"]) ->
  (exists a, reqs (tbus t) !! q2 = Some a /\ rq_phase a = Waiting 0 /\ rq_classes a = ["gpu"]) ->
  forall l', Forall (sparing crossing_class) l' -> runs (trun l' t) !! r = Some x.
Proof.
  intros t Hl Hx Ep Ho H0 H1 H2 l' Hl'.
  assert (forall c, crossing_class c -> sole c (tbus t)) as Hs.
  { intros c Hc. apply bus_reached. eapply Forall_impl; [exact Hl|]. intros [e [| | | | | | | | | | |d|]]; unfold sparing; cbn; [done..| |done].
    congruence. }
  assert (crossed q0 q1 q2 (tbus t)) as Hc by (split; [split; apply Hs; [by left|by right]|done]).
  apply (k_frozen (crossed q0 q1 q2) (fun q => q <> q0) (Some (r, x))); [|done].
  apply (kept_trun _ _ crossing_class).
  - intros. by apply crossed_call.
  - intros. by apply crossed_take.
  - intros. by apply crossed_wake.
  - intros. by apply crossed_leave.
  - intros now c b Hn. apply crossed_force; intros ->; apply Hn; [by left|by right].
  - intros b (_&(a&Ha&_)&_) E. apply lookup_lt_Some in Ha. lia.
  - intros b r' y (_&_&_&(a&Ha&Hp&_)) [= <- <-]. exists [q0; q2]. split; [done|]. unfold entered. cbn. by rewrite Ha, Hp.
  - intros q Hq E. apply (Hq r x eq_refl). unfold run_locks. rewrite Ep, E. by left.
  - done.
  - by apply trun_moves, tree0_ok.
  - split; [done|by intros r' y [= <- <-]|]. intros r' y Ht Hy. apply List.Forall_forall. intros q Hq ->.
    apply (Ho r' y); [|done|done]. intros ->. by apply (Ht x).
Qed.

(** ** The score *)

(** The score by the number of sources and of planned kinds: it is one of four, and the one
    meant for a run that is partial with fewer than two sources is never given. *)
Lemma capability_table a k :
  capability a k = (if Nat.eqb a 0 then 0 else if Nat.eqb a 1 then 9 # 20 else if Nat.ltb a k then 7 # 10 else 9 # 10)%Q /\
  band (capability a k) = (if Nat.eqb a 0 then "dead" else if Nat.eqb a 1 then "thin" else
                           if Nat.ltb a k then "partial" else "ok").
Proof.
  unfold capability, sandbox_partial. destruct a as [|[|a]]; [done..|]. cbn [Nat.eqb].
  change (Nat.ltb 0 (S (S a))) with true. change (Nat.ltb (S (S a)) 2) with false. change (Nat.leb 2 (S (S a))) with true.
  cbn [andb]. by destruct (Nat.ltb (S (S a)) k).
Qed.

(** ** Examples *)

Definition demo_tenv : tenv := mkTEnv 1000 "https://shop.example/" WOk (fun s => Some s).
Definition demo_nest : string := "https://gv.example/nest_frame.0123456789abcdef.html".
Definition demo_tctx : ctx := mkCtx (VStr "s") (VStr "p") VUndef VUndef VUndef (VStr demo_nest) VUndef true.
Definition demo_caps : caps := mkCaps VUndef VUndef VUndef.
Definition demo_ev (v : tevent) : tenv * tevent := (demo_tenv, v).
Definition from_nest (src : string) (silicon : bool) : msg :=
  mkMsg "gr_nest" (Some "result") VUndef src silicon false (VObj []).
Definition bus_win : Win := gset "GRPackLoader" (VObj []) win0.

(** One run without a bus: the frame settles, the worker's timer fires. *)
Definition demo_started : tree := trun [demo_ev (TRun demo_tctx demo_caps)] (tree0 win0).

Lemma tree_terminates_witness :
  exists l', (length l' <= 164)%nat /\
    Forall (fun ev => fst ev = demo_tenv /\ (snd ev = TPoll 0 \/ exists i, snd ev = TTimer i)) l' /\
    exists x', runs (trun l' demo_started) !! 0%nat = Some x' /\ ended x' = true.
Proof.
  refine (tree_terminates demo_tenv win0 [demo_ev (TRun demo_tctx demo_caps)] 0
    (mkRun demo_tctx ["iframe"; "worker"] 2 5000 0 [] (RAwait 0 [])) _ _ _).
  - vm_compute. reflexivity.
  - vm_compute. reflexivity.
  - intros q. discriminate.
Defined.

(** Two frames wait; one message settles both, under both kinds. *)
Definition two_frames : tree := trun [demo_ev (TRun demo_tctx demo_caps); demo_ev (TRun demo_tctx demo_caps)] (tree0 win0).

Lemma frames_overhear_witness :
  map row_tag (rows (window_message demo_tenv (from_nest "iframe:d1" false) two_frames)) =
    [("iframe:d1", VStr "iframe"); ("iframe:d1", VStr "iframe")].
Proof.
  refine (proj1 (frames_overhear demo_tenv (from_nest "iframe:d1" false) two_frames "iframe:d1" _ _ _)).
  - repeat split.
  - discriminate.
  - vm_compute. repeat constructor.
Defined.

(** The run has the nest, a probe's request for gpu and nest the gpu. *)
Definition crossing : list (tenv * tevent) :=
  map demo_ev [TRun demo_tctx demo_caps; TTake 0; TCall ["gpu"; "nest"] "custom" "main"; TLock 0; TTake 1; TTake 2; TTake 1].

Lemma nest_deadlock_witness :
  runs (trun (map demo_ev [TWake 1; TWake 2; TTake 1; TTake 2; TForce "audio"; TLock 0; TPoll 0; TLeave 0; TLeave 1])
          (trun crossing (tree0 bus_win))) !! 0%nat =
    Some (mkRun demo_tctx ["iframe"; "worker"] 2 5000 0 [] (RLock [0; 2]%nat)).
Proof.
  refine (nest_deadlock bus_win crossing 0 (mkRun demo_tctx ["iframe"; "worker"] 2 5000 0 [] (RLock [0; 2]%nat)) 0 1 2
    _ _ _ _ _ _ _ _ _).
  - repeat constructor.
  - vm_compute. reflexivity.
  - reflexivity.
  - intros [|r'] y Hr Hy; [by destruct Hr|]. vm_compute in Hy. discriminate.
  - vm_compute. eexists. repeat split.
  - vm_compute. eexists. repeat split.
  - vm_compute. eexists. repeat split.
  - repeat constructor. cbn. intros [E|E]; discriminate E.
Defined.

(** The loader's way out: once the gpu is released by force, the run goes on. *)
Example force_breaks_deadlock :
  map rn_phase (runs (trun (map demo_ev [TForce "gpu"; TLock 0; TTake 3; TLock 0]) (trun crossing (tree0 bus_win)))) =
    [RAwait 0 [0; 2; 3]%nat].
Proof. vm_compute. reflexivity. Qed.

(** A late silicon message of the first frame reaches the listener of the second, which is
    silent: when its timer fires it has received something, so it is not blocked. *)
Definition two_kinds_plan : ctx :=
  mkCtx (VStr "s") (VStr "p") VUndef VUndef VUndef (VStr demo_nest)
    (VObj [("kinds", VArr [VStr "iframe"; VStr "sandbox_iframe"])]) true.

Example silicon_hides_blocked :
  let t := trun (map demo_ev [TRun two_kinds_plan demo_caps; TMessage (from_nest "iframe:d1" false);
             TMessage (from_nest "iframe:d1" true); TTimer 1]) (tree0 win0) in
  map su_out (surfs t) =
    [Some (mkOut "iframe" ["iframe:d1"] false false 0 false VUndef);
     Some (mkOut "sandbox_iframe" ["iframe:d1"] true false 0 false VUndef)].
Proof. vm_compute. reflexivity. Qed.

(** A worker that cannot be made rejects the call: no later kind, no summary. *)
Example worker_throw_rejects :
  let e := mkTEnv 1000 "https://shop.example/" (WThrows "SecurityError") (fun s => Some s) in
  let t := trun [(e, TRun demo_tctx demo_caps); (e, TMessage (from_nest "iframe:d1" false))] (tree0 win0) in
  map rn_phase (runs t) = [RFailed "SecurityError"] /\ map w_source (rows t) = ["iframe:d1"].
Proof. vm_compute. done. Qed.

(** Without a URL the frame is blocked, not partial. *)
Example no_url_blocked :
  let x := mkCtx (VStr "s") (VStr "p") VUndef VUndef VUndef VUndef VUndef true in
  map su_out (surfs (trun [demo_ev (TRun x demo_caps)] (tree0 win0))) =
    [Some (mkOut "iframe" [] false true 0 false VUndef); None].
Proof. vm_compute. reflexivity. Qed.
